(* ===== verification/_CoqProject ===== *)
-Q . S2P
Prelude.v
GoStrings.v
GoPath.v
Values.v
Store.v
Api.v
Filter.v
Scope.v
Errors.v
Scrub.v
Prune.v
Aggregate.v
Json.v
Envelope.v
FingerprintCache.v
Partition.v
Extract.v
Access.v
Engine.v
Intervals.v
Coalesce.v
ExportPass.v
BackendPool.v
NetGuard.v
GoTemplate.v
SinkSpec.v
ObjectPath.v
Layout.v
GitTree.v
GoRegexp.v
GitErrors.v
LayoutExport.v
Conditions.v
PassRecord.v
Secrets.v
ReadApi.v
SinkExport.v
TargetReconcile.v
ClusterTarget.v
ObjectStore.v
GitExport.v
Multipart.v
Cleanup.v
InventoryReconcile.v
ClusterInventory.v
SqlText.v
DatabaseSinks.v
DatabaseAccess.v
EventSinks.v
Runner.v
PipelineConfig.v
Pipeline.v
Admission.v
Preview.v
SinkReconcile.v
Redact.v
Webhooks.v
GitLab.v
