(* ===== verification/Prelude.v ===== *)
(** * Verification of Kollect

    Kollect is a Kubernetes operator that collects resources from a cluster into
    an inventory and exports the inventory to sinks (Git repositories, object
    stores, databases, event buses). This library models the parts that decide
    what is collected, what is exported, where it is written and what may be
    removed again, and proves what makes them correct.

    ** The program and its parts

    Informer events reach the collection engine ([internal/collect/engine.go]).
    It finds the registered targets of the object's kind, filters by namespace,
    labels and resource rules inside the ceiling of the tenancy scope, extracts
    and scrubs attributes, optionally embeds a pruned copy of the object, and puts
    the row into the store. An inventory controller reads the rows of its targets
    from the store, merges duplicates, encodes them into an export envelope,
    splits the envelope into parts under the sink's byte limit, and hands every
    part to the sinks the inventory binds. Sinks are built once and pooled; a
    debounce tracker skips a sink that already holds the same payload. A Git sink
    projects the rows to a file tree and prunes what it wrote earlier and does not
    write any more; the ownership records on the branch keep it from touching
    files of other inventories. Deleting an inventory retracts its exports again.
    Reconcilers drive all this from the custom resources: a target's registers it in
    the engine under its scope, an inventory's runs the export pass, and each writes
    what happened into the status. An HTTP server answers queries on the store to
    callers the API server authorizes. A command line runs the same collection once,
    without the operator, from a directory of manifests, and reports by its exit
    code. Admission webhooks check the custom resources before any of this.

    ** Files and the code they model

    Foundations, with no code of the repository:
    - [Prelude]: the error monad [result], shared tactics, hints and generic
      lemmas on lists, maps and sorting;
    - [GoStrings], [GoPath], [GoTemplate], [Json], [Values]: the parts of Go's
      standard library the code uses ([strings], [path], [strings.Replacer] and
      [regexp] replacements, [encoding/json], [time]) and the dynamically typed
      value trees of Kubernetes objects; [GoRegexp] is a leftmost-first matcher for
      the expressions that read and redact error texts.

    Collection:
    - [Api]: the custom resource specs of [api/v1alpha1] and their methods;
    - [Filter]: namespace intent, the scope ceiling and the resource rules
      ([internal/collect/collection_filter.go], [filter.go]);
    - [Scope]: tenancy scopes and the admission checks against them
      ([internal/scope]);
    - [Access]: the cached access reviews ([internal/collect/access.go]);
    - [Extract], [Scrub], [Prune]: attribute extraction, redaction and the
      embedded resource copy ([extractor.go], [scrub.go], [prune.go]);
    - [Store]: the sharded row store with versions and watchers ([store.go]);
      [Store.Store] is the code, [Store.RowSpec] its contract;
    - [Engine]: registration, indexing and dispatch ([engine.go]);
      [Engine.Concurrent] interleaves dispatch workers with registration;
    - [Conditions], [TargetReconcile], [ClusterTarget]: the condition helpers and the
      reconcilers of namespaced and cluster targets, from the read of the object to
      the status write ([controller/conditions.go], [sink_status.go],
      [scope_check.go], [kollecttarget_controller.go],
      [kollectclustertarget_controller.go]);
    - [ReadApi]: the inventory HTTP server: filters, pages, summaries, the
      authorization middleware with its cache, the handlers ([internal/inventory]);
    - [Admission], [Webhooks]: the validation of profiles, targets, layouts, sinks,
      scopes and connection tests, and the admission webhooks of every kind
      ([internal/validation], [internal/webhook/v1alpha1],
      [internal/collect/helmdecode.go]).

    Command line:
    - [Runner]: one pass of collection against the API server
      ([internal/collect/runner.go]); the API server is the class
      [Runner.ClusterApi];
    - [PipelineConfig]: the configuration directory, its references and Secrets
      with placeholders ([internal/pipeline/loader.go], [wire.go]);
    - [Pipeline]: contexts, the run and the export per context, records on stdout,
      exit codes ([wire.go], [stdout.go], [cmd/cli/collect.go], [exitcode.go]).

    Export:
    - [Errors]: error classes and the aggregation of sink errors
      ([internal/errors], [controller/per_sink_export.go]);
    - [Aggregate], [Envelope], [Partition]: merging rows, the envelope bytes and
      fingerprint, and the split into parts ([internal/aggregate],
      [internal/collect/export_envelope.go], [internal/export]);
    - [Intervals]: export intervals and size limits ([internal/validation]);
    - [Coalesce]: the debounce tracker ([per_sink_export.go]); its contract is
      [Coalesce.DebounceSpec];
    - [ExportPass], [PassRecord]: one pass of the two inventory controllers over
      their sinks, and what it leaves in the tracker and in the status;
    - [FingerprintCache]: the shared memo of namespace fingerprints, interleaved
      with the mutations of the store ([kollectinventory_controller.go]);
    - [InventoryReconcile], [ClusterInventory]: the reconcilers of both kinds of
      inventory with their admission, the preview of a debounced pass, the rollup of
      cluster inventories by namespace, the conditions and the requeue
      ([kollectinventory_controller.go], [kollectclusterinventory_controller.go],
      [export_spill.go], [cluster_scope_enforce.go], [validation/inventory.go],
      [validation/clusterinventory.go]);
    - [Secrets]: the Secrets a sink refers to, their admission by namespace, the
      credentials and the build context of a backend ([sink/secret_refs.go],
      [build_context.go], [credentials.go], [validation/secret_ref_namespace.go]);
    - [BackendPool]: pooled backends, holders, eviction and closing
      ([internal/sink/backend_pool.go]);
    - [NetGuard]: which addresses a sink may dial ([sink/netguard],
      [validation/endpoint_guard.go]).

    Destinations:
    - [SinkSpec]: the normalized sink spec and its accessors;
    - [ObjectPath]: object paths, their templates, and the matchers that find the
      objects of a deleted inventory ([sink/objectstore/path.go],
      [internal/pathvalidate]);
    - [Layout]: the files an export is projected to, their contents, and the
      manifest of a multipart set ([sink/layout]);
    - [GitTree]: the working tree, ownership records, pruning, release and
      deletion ([sink/git/prune_*.go], [release.go], [delete.go], [export.go]);
    - [GitErrors], [GitExport]: the classes of Git failures and the bounded retry,
      and the delivery of an export or a deletion: mirrors, commits, pushes and
      the check that the snapshot arrived ([sink/git/errors.go], [retry.go],
      [mirror.go], [export.go], [delete.go]); go-git is a class with laws;
    - [LayoutExport], [SinkExport], [Multipart]: how one export is bound to a
      layout, an owner and a prune plan, the export call itself, and the loop over
      the parts ([sink/layout_export.go], [identity.go], [export.go],
      [kollectinventory_controller.go]); [Multipart] records the requests the loop
      makes of any backend and carries them out on a tree;
    - [ObjectStore]: buckets and the local directory ([sink/s3], [sink/local]);
      the S3 service is a class with laws;
    - [SqlText], [DatabaseSinks], [DatabaseAccess]: the SQL the database sinks write,
      the export of a snapshot to PostgreSQL, MongoDB and BigQuery request by
      request, and their configuration, provisioning and error classes
      ([sink/postgres], [sink/mongodb], [sink/bigquery]); the class
      [DatabaseSinks.SnapshotTable] is what the three promise;
    - [EventSinks]: Kafka and NATS: configuration, keys and message ids, the cached
      NATS connection ([sink/kafka], [sink/nats]);
    - [GitLab]: merge-request settings, feature branches, the REST client with its
      fallback to Gitea, export and deletion through a merge request ([sink/gitlab]);
    - [Preview], [SinkReconcile]: the preview of a sink, the probes, the resolution of
      sink references, the reconcilers of sinks and of connection tests
      ([sink/preview/render.go], [sink/probe.go], [sink/resolver.go],
      [controller/family_sink_connection.go], [kollectconnectiontest_controller.go]);
    - [Redact]: the masking of credentials in messages ([internal/redact],
      [sink/git/redact.go]);
    - [Cleanup]: the retraction of a deleted inventory's exports, per sink, per
      inventory and by the finalizer ([sink/cleanup.go],
      [controller/sink_cleanup.go], [inventory_finalizer.go]); the class
      [Cleanup.ExportCleaner] is what it needs of a store, and a bucket below a
      prefix in normal form implements it.

    ** How code becomes definitions

    A struct is a [Record], an enum or tagged value an [Inductive], a pointer an
    [option], a Go map a [gmap] (or an association list where the iteration order
    or duplicates matter), and a function with an error result returns [result]
    with a constructor per error site. Code that runs under one lock is one step;
    where goroutines interleave there is a step relation ([Engine.Concurrent],
    [BackendPool.PoolSystem]) or an arbitrary completion order ([ExportPass]).
    The iteration order of a Go map is an argument, and the theorems hold for all
    orders. Services and third-party code are classes or arguments: the API
    server's answers, the clock, SHA-256, the JSON decoder, the YAML converter,
    label selectors, CEL and JSONPath. What a theorem needs of them is a
    hypothesis of it, and a witness instantiates them with concrete functions.
    Every mapped definition names its source lines in its comment.

    ** What the theorems show

    - Store: the sharded store refines a flat map of rows under every sequence of
      operations; reads report exactly those rows; versions and watchers announce
      every change.
    - Engine: under every interleaving no rows of an unregistered target survive,
      no denied entry is left in the maps and lists of a stored row (a value of
      another Go type, which CEL can build, is not read by the scrubber), an enforced
      ceiling with no namespace collects nothing, and an event reaches exactly the
      matching targets.
    - Filter and Scope: the namespaces reported are the namespaces collected,
      rules compose as a union, and admission agrees with the ceiling.
    - Scrub and Prune: against a specification of the denied keys written without
      the code's matchers, every secret entry of the maps and lists is masked at any
      depth and everything else is untouched; a removal removes exactly what its
      path names.
    - Envelope and Partition: the bytes do not depend on map order, every part is
      within its limit, the parts reassemble to the export, the split fails
      exactly when a single item is too large, and part paths are distinct.
    - Coalesce, ExportPass and Errors: the tracker skips exactly the sinks whose
      last export is the same and recent, a pass accounts for every sink in its
      status and in its error, and a joined error is terminal when all parts are.
    - TargetReconcile and ClusterTarget: a reconcile stops a target, leaves the engine
      as it was, or lets it pass, with the conditions of each case; a target a scope
      denies ends unregistered, a registered one collects inside its scope, and the
      status agrees with the engine.
    - FingerprintCache, InventoryReconcile and ClusterInventory: a fingerprint is
      that of the rows at some moment of the call; a debounced sink is one the status
      shows as exported; Ready and Degraded are true of the sinks; a failed export is
      retried; a cluster inventory exports only rows of the namespaces and targets it
      selects, and its rollup by namespace equals the flat one.
    - Secrets: an admitted sink reads Secrets of its own namespace and of the
      allowlisted ones only, and the pooled and the direct path build the same
      context.
    - ReadApi: a request is served only on a grant of the API server that is still
      fresh, and the response holds only rows of the authorized scope.
    - BackendPool: a backend is closed at most once, never while an export holds
      it, and always in the end.
    - NetGuard: only permitted addresses are dialled, whatever the resolver says.
    - ObjectPath, Layout and GitTree: paths stay inside their directory and
      determine their inventory; no projected file overwrites another; an export,
      a prune or a deletion never touches a file another inventory's record
      lists, and the records it leaves behind can be loaded again.
    - GitErrors, GitExport and Multipart: a retry ends within its bound; a
      successful export was skipped by its fingerprint or is on the remote branch, a
      deletion that removed something is there; the requests of a multipart export
      leave exactly the union of its parts and remove nothing before the last.
    - ObjectStore and Cleanup: a paged deletion ends and removes exactly the keys
      its paths cover; a clean tombstone of an S3 sink with paths in normal form means
      the recorded exports are gone; a retained export is not touched; the finalizer
      goes only when every sink was cleaned or announced, and a failed pass comes
      back as its class asks.
    - SqlText and DatabaseSinks: inlined rows and identifiers read back as
      themselves; after any sequence of exports under default paths a table holds the
      last snapshot of every inventory; a failed export touches no other inventory
      and loses no object that is still there.
    - EventSinks: a NATS backend owns at most one open connection, none once it is
      closed, and redials a dead one.
    - Runner, PipelineConfig and Pipeline: the rows of a run stay inside what its
      targets select; a sink gets the credentials the operator would give it; exit
      code 0 means that every object was listed, extracted and delivered.
    - Admission: the rows of an admitted profile hold every declared attribute under
      its name, and what admission accepts of paths and sinks the export accepts.
    - Webhooks: an inventory is admitted exactly when its reconciler's policy check
      passes and its intervals respect the floor of its scope.
    - SinkReconcile: the test of a sink settles and its status tells the outcome; a
      connection test keeps its first stored result and is deleted after its time.
    - Redact: no secret value that is passed to a redaction gets through it.
    - GitLab: feature branches of distinct inventories are distinct, and asking for a
      merge request opens at most one for a pair of branches, on GitLab and on Gitea,
      each by the behaviour its own API documents.

    ** Bounds and fuel

    Most recursion is structural. [Partition] recurses on the list of items and
    [GitTree] on the list of files and directory entries; [Prune] and [Scrub]
    recurse on the value tree; [BackendPool] carries the retry bound
    [poolReadAttempts] of the source, [GitErrors] the retry bound of the source, and
    the page loop of [ObjectStore] one more page than the bucket has objects, which
    is proved to be enough. Machine integers that can overflow are kept
    as [Z] with their bounds; sizes are byte counts of the exact encoding.

    ** Not modelled

    - Drivers and clients of third-party SDKs (SQL connections and TLS trust, Kafka
      and NATS client options, Google Cloud Storage), Git transport and
      authentication, the path through the git executable for [file://] remotes: I/O,
      whose results are arguments where a modelled function depends on them.
    - The set-up of the controllers (watches, predicates and the mapping of events to
      requests), the defaulting of sinks and the warnings of webhooks, the wizard and
      the other commands of the command line, metrics, log lines, the informer
      lifecycle and generated code.

    ** Plan

    Next: the git executable's side of exports and deletions, and the wizard that
    writes a configuration directory.
*)

From Stdlib Require Export Ascii.
From stdpp Require Export base gmap strings list fin_maps sorting pretty.

Declare Scope kollect_scope.
Delimit Scope kollect_scope with kollect.
Open Scope kollect_scope.

(** * Fallible code

    A Go function returning [(T, error)] is a function into [result E T]; the
    error type [E] is an inductive per component whose constructors are the
    [return ..., err] sites of the source. *)
Inductive result (E A : Type) : Type :=
  | Ok (a : A)
  | Err (e : E).
Arguments Ok {E A} a.
Arguments Err {E A} e.

(** [fmt.Errorf] around an error: the value passes, the error is wrapped. *)
Definition lift_err {E E' A} (f : E → E') (r : result E A) : result E' A :=
  match r with Ok a => Ok a | Err e => Err (f e) end.

#[export] Instance result_ret {E} : MRet (result E) := λ A a, Ok a.
#[export] Instance result_bind {E} : MBind (result E) :=
  λ A B f r, match r with Ok a => f a | Err e => Err e end.
#[export] Instance result_fmap {E} : FMap (result E) :=
  λ A B f r, match r with Ok a => Ok (f a) | Err e => Err e end.

#[export] Instance result_eq_dec `{EqDecision E, EqDecision A} : EqDecision (result E A).
Proof. solve_decision. Defined.

Definition is_ok {E A} (r : result E A) : bool :=
  match r with Ok _ => true | Err _ => false end.

Lemma result_bind_ok {E A B} (r : result E A) (f : A → result E B) b :
  r ≫= f = Ok b ↔ ∃ a, r = Ok a ∧ f a = Ok b.
Proof. destruct r; naive_solver. Qed.

Lemma result_bind_err {E A B} (r : result E A) (f : A → result E B) e :
  r ≫= f = Err e ↔ r = Err e ∨ ∃ a, r = Ok a ∧ f a = Err e.
Proof. destruct r; naive_solver. Qed.

(** [for _, x := range l { if err := f(x); err != nil { return err } }]. *)
Fixpoint for_each {E A} (f : A → result E unit) (l : list A) : result E unit :=
  match l with
  | [] => Ok tt
  | x :: l => match f x with Ok _ => for_each f l | Err e => Err e end
  end.

Lemma for_each_ok {E A} (f : A → result E unit) l :
  for_each f l = Ok tt ↔ Forall (λ x, f x = Ok tt) l.
Proof.
  induction l as [|x l IH]; simpl; [split; auto|].
  rewrite Forall_cons. destruct (f x) as [[]|e]; naive_solver.
Qed.

(** The first failing element decides the error. *)
Lemma for_each_err {E A} (f : A → result E unit) l e :
  for_each f l = Err e ↔
  ∃ l1 x l2, l = l1 ++ x :: l2 ∧ Forall (λ y, f y = Ok tt) l1 ∧ f x = Err e.
Proof.
  split.
  - induction l as [|x l IH]; simpl; [done|].
    destruct (f x) as [[]|e'] eqn:Hx.
    + intros (l1 & y & l2 & -> & Hl & Hy)%IH. exists (x :: l1), y, l2. eauto.
    + intros [= ->]. by exists [], x, l.
  - intros (l1 & x & l2 & -> & Hl & Hx).
    induction Hl as [|y l1 Hy Hl IH]; simpl; [by rewrite Hx|by rewrite Hy].
Qed.

(** * Machine integers

    Go's [int64], [time.Duration] and (on the supported platforms) [int] are
    64-bit two's complement; [uint64] wraps modulo 2^64. *)
Definition min_int64 : Z := - 2 ^ 63.
Definition max_int64 : Z := 2 ^ 63 - 1.

Definition wrap64 (z : Z) : Z := (z + 2 ^ 63) `mod` 2 ^ 64 - 2 ^ 63.
Definition wrapu64 (z : Z) : Z := z `mod` 2 ^ 64.

Definition in_int64 (z : Z) : Prop := (min_int64 ≤ z ≤ max_int64)%Z.

Lemma wrap64_id z : in_int64 z → wrap64 z = z.
Proof.
  unfold in_int64, min_int64, max_int64, wrap64. intros H.
  rewrite Z.mod_small; lia.
Qed.

Lemma wrap64_range z : in_int64 (wrap64 z).
Proof.
  unfold in_int64, min_int64, max_int64, wrap64.
  pose proof (Z.mod_pos_bound (z + 2 ^ 63) (2 ^ 64) ltac:(lia)). lia.
Qed.

Lemma wrapu64_id z : (0 ≤ z < 2 ^ 64)%Z → wrapu64 z = z.
Proof. intros H. unfold wrapu64. by rewrite Z.mod_small. Qed.

(** * Time

    A [time.Time] is an instant in nanoseconds since the Unix epoch; the zero
    [time.Time] is January 1, year 1. [time.Duration] is an [int64] of
    nanoseconds and [Time.Sub] saturates at its bounds. *)
Definition second : Z := 1000000000.
Definition minute : Z := 60 * second.
Definition hour : Z := 60 * minute.

Definition zero_time : Z := -62135596800 * second.
Definition is_zero_time (t : Z) : bool := bool_decide (t = zero_time).

Definition time_sub (a b : Z) : Z := Z.max min_int64 (Z.min max_int64 (a - b)).
Definition time_after (a b : Z) : bool := bool_decide (b < a)%Z.

Lemma time_sub_id a b : in_int64 (a - b) → time_sub a b = (a - b)%Z.
Proof. unfold in_int64, time_sub. lia. Qed.

Lemma time_sub_range a b : in_int64 (time_sub a b).
Proof. unfold in_int64, time_sub, min_int64, max_int64. lia. Qed.

(** Saturation never changes the outcome of comparing an elapsed time with a
    duration. *)
Lemma time_sub_lt a b d : in_int64 d → (time_sub a b < d)%Z ↔ (a - b < d)%Z ∧ d ≠ min_int64.
Proof. unfold in_int64, time_sub, min_int64, max_int64. lia. Qed.

Lemma time_sub_gt a b d : in_int64 d → (d < time_sub a b)%Z ↔ (d < a - b)%Z ∧ d ≠ max_int64.
Proof. unfold in_int64, time_sub, min_int64, max_int64. lia. Qed.

(** * Unspecified orders of the Go runtime

    [range] over a map visits the entries in an unspecified order, and
    [slices.SortFunc] is not stable. Definitions that depend on either take the
    order as a class parameter, so their theorems hold for every order. *)
Class MapRange := {
  map_range {K V} `{Countable K} : gmap K V → list (K * V);
  map_range_perm {K V} `{Countable K} (m : gmap K V) : map_range m ≡ₚ map_to_list m;
}.

Class SortFunc := {
  sort_by {A} : (A → string) → list A → list A;
  sort_by_perm {A} (key : A → string) (l : list A) : sort_by key l ≡ₚ l;
  sort_by_sorted {A} (key : A → string) (l : list A) :
    Sorted (λ x y, String.le (key x) (key y)) (sort_by key l);
}.

(** One admissible choice of each, for evaluating the model. *)
Definition map_range_to_list : MapRange :=
  {| map_range K V _ _ m := map_to_list m; map_range_perm K V _ _ m := reflexivity _ |}.

Lemma reverse_map_to_list_perm {K V} `{Countable K} (m : gmap K V) :
  reverse (map_to_list m) ≡ₚ map_to_list m.
Proof. apply reverse_Permutation. Qed.

(** Another choice, for showing two runs that range differently. *)
Definition map_range_reversed : MapRange :=
  {| map_range K V _ _ m := reverse (map_to_list m);
     map_range_perm K V _ _ m := reverse_map_to_list_perm m |}.

Lemma key_le_total {A} (key : A → string) : Total (λ x y, String.le (key x) (key y)).
Proof. intros x y. apply (total String.le). Qed.

Definition sort_by_merge_sort : SortFunc :=
  {| sort_by A key l := merge_sort (λ x y, String.le (key x) (key y)) l;
     sort_by_perm A key l := merge_sort_Permutation _ l;
     sort_by_sorted A key l := @Sorted_merge_sort _ _ _ (key_le_total key) l |}.

Section map_range.
Context `{!MapRange} `{Countable K} {V : Type}.
Implicit Types m : gmap K V.

Lemma elem_of_map_range m k v : (k, v) ∈ map_range m ↔ m !! k = Some v.
Proof. by rewrite map_range_perm, elem_of_map_to_list. Qed.

Lemma NoDup_map_range m : NoDup (map_range m).*1.
Proof. rewrite map_range_perm. apply NoDup_fst_map_to_list. Qed.

Lemma length_map_range m : length (map_range m) = size m.
Proof. by rewrite map_range_perm, length_map_to_list. Qed.
End map_range.

(** * Lists of strings *)

(** [for _, v := range values { if v == want { return true } }; return false]. *)
Definition list_contains (l : list string) (x : string) : bool := bool_decide (x ∈ l).

Lemma list_contains_true l x : list_contains l x = true ↔ x ∈ l.
Proof. unfold list_contains. by rewrite bool_decide_eq_true. Qed.

Lemma list_contains_false l x : list_contains l x = false ↔ x ∉ l.
Proof. unfold list_contains. by rewrite bool_decide_eq_false. Qed.

(** The [seen]-map loop that keeps the first occurrence of every value. *)
Fixpoint dedup_seen `{Countable A} (seen : gset A) (l : list A) : list A :=
  match l with
  | [] => []
  | x :: l => if decide (x ∈ seen) then dedup_seen seen l
              else x :: dedup_seen ({[x]} ∪ seen) l
  end.

Definition dedup `{Countable A} (l : list A) : list A := dedup_seen ∅ l.

Section dedup.
Context `{Countable A}.
Implicit Types (seen : gset A) (l : list A).

Lemma elem_of_dedup_seen seen l x : x ∈ dedup_seen seen l ↔ x ∈ l ∧ x ∉ seen.
Proof.
  revert seen. induction l as [|y l IH]; intros seen; simpl.
  { rewrite elem_of_nil. naive_solver. }
  case_decide; rewrite ?elem_of_cons, IH; [naive_solver|].
  rewrite not_elem_of_union, not_elem_of_singleton.
  destruct (decide (x = y)); naive_solver.
Qed.

Lemma NoDup_dedup_seen seen l : NoDup (dedup_seen seen l).
Proof.
  revert seen. induction l as [|y l IH]; intros seen; simpl; [constructor|].
  case_decide; [done|]. constructor; [|done].
  rewrite elem_of_dedup_seen. set_solver.
Qed.

Lemma elem_of_dedup l x : x ∈ dedup l ↔ x ∈ l.
Proof. unfold dedup. rewrite elem_of_dedup_seen. set_solver. Qed.

Lemma NoDup_dedup l : NoDup (dedup l).
Proof. apply NoDup_dedup_seen. Qed.

Lemma dedup_seen_snoc seen l x :
  dedup_seen seen (l ++ [x]) =
  dedup_seen seen l ++ (if decide (x ∈ seen ∨ x ∈ l) then [] else [x]).
Proof.
  revert seen. induction l as [|y l IH]; intros seen; simpl.
  { destruct (decide (x ∈ seen)) as [Hx|Hx].
    - by rewrite decide_True by auto.
    - rewrite decide_False; [done|]. rewrite elem_of_nil. tauto. }
  destruct (decide (y ∈ seen)) as [Hy|Hy]; rewrite IH; [|simpl; f_equal]; f_equal;
    apply decide_ext; rewrite elem_of_cons, ?elem_of_union, ?elem_of_singleton; [|tauto].
  split; [tauto|]. intros [?|[->|?]]; auto.
Qed.

Lemma dedup_snoc l x : dedup (l ++ [x]) = dedup l ++ (if decide (x ∈ l) then [] else [x]).
Proof.
  unfold dedup. rewrite dedup_seen_snoc. f_equal. apply decide_ext. set_solver.
Qed.
End dedup.

(** A field that is unique in a list identifies its element. *)
Lemma NoDup_fmap_elem_eq {A B} (f : A → B) l x y :
  NoDup (f <$> l) → x ∈ l → y ∈ l → f x = f y → x = y.
Proof.
  induction l as [|z l IH]; simpl; [by intros _ ?%elem_of_nil|].
  intros [Hz Hnd]%NoDup_cons [->|Hx]%elem_of_cons [->|Hy]%elem_of_cons Hf; [done|..|by apply IH].
  - destruct Hz. rewrite Hf. by apply list_elem_of_fmap_2.
  - destruct Hz. rewrite <- Hf. by apply list_elem_of_fmap_2.
Qed.

(** [sort.Strings] and [slices.Sort]: equal strings are indistinguishable, so
    every sorting algorithm computes this function. *)
Definition sort_strings (l : list string) : list string := merge_sort String.le l.

Lemma sort_strings_perm l : sort_strings l ≡ₚ l.
Proof. apply merge_sort_Permutation. Qed.

Lemma sort_strings_sorted l : Sorted String.le (sort_strings l).
Proof. apply Sorted_merge_sort; apply _. Qed.

Lemma sorted_strings_unique l1 l2 :
  Sorted String.le l1 → Sorted String.le l2 → l1 ≡ₚ l2 → l1 = l2.
Proof. apply (Sorted_unique String.le). Qed.

Lemma sort_strings_unique l l' : Sorted String.le l' → l' ≡ₚ l → l' = sort_strings l.
Proof.
  intros Hs Hp. apply sorted_strings_unique; [done|apply sort_strings_sorted|].
  by rewrite sort_strings_perm.
Qed.

#[export] Instance sort_strings_proper : Proper ((≡ₚ) ==> (=)) sort_strings.
Proof.
  intros l1 l2 Hl. apply sort_strings_unique; [apply sort_strings_sorted|].
  by rewrite sort_strings_perm.
Qed.

Lemma elem_of_sort_strings l x : x ∈ sort_strings l ↔ x ∈ l.
Proof. by rewrite sort_strings_perm. Qed.

(** Two duplicate-free lists with the same elements are permutations, so they
    sort to the same list. *)
Lemma sort_strings_ext l1 l2 :
  NoDup l1 → NoDup l2 → (∀ x, x ∈ l1 ↔ x ∈ l2) → sort_strings l1 = sort_strings l2.
Proof. intros H1 H2 Hx. by rewrite (NoDup_Permutation l1 l2). Qed.

(** * Automation *)
Create HintDb kollect discriminated.
Create Rewrite HintDb kollect.

#[export] Hint Resolve NoDup_dedup NoDup_dedup_seen sort_strings_sorted : kollect.
#[export] Hint Rewrite @elem_of_dedup @elem_of_sort_strings list_contains_true
  list_contains_false : kollect.

(** Split the guards of a translated body: boolean tests and [decide]s in the
    goal or in an equation about the result. *)
Ltac split_guard :=
  match goal with
  | |- context [if decide ?P then _ else _] => destruct (decide P)
  | H : context [if decide ?P then _ else _] |- _ => destruct (decide P)
  | |- context [if ?b then _ else _] => destruct b eqn:?
  | H : context [if ?b then _ else _] |- _ => destruct b eqn:?
  end.
Ltac split_guards := repeat (split_guard; simplify_eq/=).

(** Turn boolean equations into propositions. *)
Ltac to_prop :=
  repeat match goal with
  | H : _ && _ = true |- _ => apply andb_true_iff in H as [? ?]
  | H : _ || _ = true |- _ => apply orb_true_iff in H
  | H : _ || _ = false |- _ => apply orb_false_iff in H as [? ?]
  | H : _ && _ = false |- _ => apply andb_false_iff in H
  | H : negb _ = true |- _ => apply negb_true_iff in H
  | H : negb _ = false |- _ => apply negb_false_iff in H
  | H : bool_decide _ = true |- _ => apply bool_decide_eq_true in H
  | H : bool_decide _ = false |- _ => apply bool_decide_eq_false in H
  | H : list_contains _ _ = true |- _ => apply list_contains_true in H
  | H : list_contains _ _ = false |- _ => apply list_contains_false in H
  end.
