(* ===== verification/GoStrings.v ===== *)
(** The part of Go's [strings] and [strconv] packages the program uses.

    A Go string is a sequence of bytes, here [string] (a list of 8-bit
    [ascii]). Operations whose result depends on the Unicode tables
    ([strings.ToLower], [strings.EqualFold] on non-ASCII input) take those
    tables as the class [UnicodeCase]; everything else is byte-exact,
    [strings.TrimSpace] included, whose White_Space code points are listed by
    their UTF-8 encodings. *)

From S2P Require Import Prelude.

Implicit Types (s t p q : string) (c : ascii).

(** * Concatenation and length *)

Lemma app_nil_r s : s +:+ "" = s.
Proof. induction s as [|c s IH]; [done|]. unfold String.app; simpl. f_equal. apply IH. Qed.

Lemma app_cons c s t : String c s +:+ t = String c (s +:+ t).
Proof. done. Qed.

Lemma app_assoc s t p : (s +:+ t) +:+ p = s +:+ (t +:+ p).
Proof. induction s as [|c s IH]; [done|]. rewrite !app_cons. by f_equal. Qed.

Lemma length_app s t : String.length (s +:+ t) = String.length s + String.length t.
Proof. induction s as [|c s IH]; [done|]. rewrite app_cons. simpl. by rewrite IH. Qed.

Lemma app_eq_nil s t : s +:+ t = "" ↔ s = "" ∧ t = "".
Proof. destruct s; [naive_solver|]. rewrite app_cons. naive_solver. Qed.

Lemma app_inv_l s t p : s +:+ t = s +:+ p → t = p.
Proof. induction s as [|c s IH]; [done|]. rewrite !app_cons. intros [=]. auto. Qed.

Lemma app_inv_r s t p : s +:+ p = t +:+ p → s = t.
Proof.
  revert t. induction s as [|c s IH]; intros [|d t] H.
  - done.
  - apply (f_equal String.length) in H. rewrite !length_app in H. simpl in H. lia.
  - apply (f_equal String.length) in H. rewrite !length_app in H. simpl in H. lia.
  - rewrite !app_cons in H. injection H as -> H. by rewrite (IH t).
Qed.

(** The decomposition of an equation between two concatenations. *)
Lemma app_eq_app s t p q :
  s +:+ t = p +:+ q →
  (∃ r, p = s +:+ r ∧ t = r +:+ q) ∨ (∃ r, s = p +:+ r ∧ q = r +:+ t).
Proof.
  revert p. induction s as [|c s IH]; intros [|d p] H.
  - right. exists "". eauto.
  - left. exists (String d p). eauto.
  - right. exists (String c s). split; [done|exact (eq_sym H)].
  - rewrite !app_cons in H. injection H as -> H.
    destruct (IH _ H) as [(r & -> & ->)|(r & -> & ->)]; [left|right]; eauto.
Qed.

(** * Prefixes, suffixes, substrings *)

(** [strings.HasPrefix], [strings.CutPrefix]. *)
Fixpoint cut_prefix (p s : string) : option string :=
  match p, s with
  | "", _ => Some s
  | String c p, String d s => if decide (c = d) then cut_prefix p s else None
  | String _ _, "" => None
  end.

Definition has_prefix (p s : string) : bool := bool_decide (is_Some (cut_prefix p s)).

(** [strings.TrimPrefix]. *)
Definition trim_prefix (p s : string) : string := default s (cut_prefix p s).

Lemma cut_prefix_Some p s r : cut_prefix p s = Some r ↔ s = p +:+ r.
Proof.
  revert s. induction p as [|c p IH]; intros s; simpl; [naive_solver|].
  destruct s as [|d s]; [naive_solver|]. case_decide as Hc.
  - subst. rewrite IH, app_cons. naive_solver.
  - split; [done|]. rewrite app_cons. naive_solver.
Qed.

Lemma cut_prefix_app p r : cut_prefix p (p +:+ r) = Some r.
Proof. by apply cut_prefix_Some. Qed.

Lemma has_prefix_true p s : has_prefix p s = true ↔ ∃ r, s = p +:+ r.
Proof.
  unfold has_prefix. rewrite bool_decide_eq_true. unfold is_Some.
  by setoid_rewrite cut_prefix_Some.
Qed.

Lemma has_prefix_app p r : has_prefix p (p +:+ r) = true.
Proof. apply has_prefix_true. eauto. Qed.

Lemma trim_prefix_app p r : trim_prefix p (p +:+ r) = r.
Proof. unfold trim_prefix. by rewrite cut_prefix_app. Qed.

(** [strings.CutSuffix]; [strings.TrimSuffix]; [strings.HasSuffix]. *)
Fixpoint cut_suffix (q s : string) : option string :=
  if decide (s = q) then Some ""
  else match s with
       | "" => None
       | String c s => String c <$> cut_suffix q s
       end.

Definition has_suffix (q s : string) : bool := bool_decide (is_Some (cut_suffix q s)).
Definition trim_suffix (q s : string) : string := default s (cut_suffix q s).

Lemma cut_suffix_Some q s r : cut_suffix q s = Some r ↔ s = r +:+ q.
Proof.
  revert r. induction s as [|c s IH]; intros r; simpl; case_decide as Hq.
  - split; [naive_solver|]. subst q. intros [-> _]%eq_sym%app_eq_nil. done.
  - split; [done|]. intros H. by apply eq_sym, app_eq_nil in H as [_ ->].
  - subst q. split; [naive_solver|].
    intros H. f_equal. symmetry. apply (app_inv_r _ _ (String c s)).
    rewrite <-H. done.
  - rewrite fmap_Some. setoid_rewrite IH. split.
    + intros (x & -> & ->). done.
    + destruct r as [|d r]; [intros H; exfalso; apply Hq; exact H|]. rewrite app_cons. intros [= -> ->]. eauto.
Qed.

Lemma cut_suffix_app q r : cut_suffix q (r +:+ q) = Some r.
Proof. by apply cut_suffix_Some. Qed.

Lemma has_suffix_true q s : has_suffix q s = true ↔ ∃ r, s = r +:+ q.
Proof.
  unfold has_suffix. rewrite bool_decide_eq_true. unfold is_Some.
  by setoid_rewrite cut_suffix_Some.
Qed.

Lemma trim_suffix_app q r : trim_suffix q (r +:+ q) = r.
Proof. unfold trim_suffix. by rewrite cut_suffix_app. Qed.

(** [strings.Contains]. *)
Fixpoint contains (s sub : string) : bool :=
  has_prefix sub s || match s with "" => false | String _ s => contains s sub end.

Lemma contains_true s sub : contains s sub = true ↔ ∃ r1 r2, s = r1 +:+ sub +:+ r2.
Proof.
  induction s as [|c s IH]; simpl; rewrite orb_true_iff, has_prefix_true.
  - split.
    + intros [[r Hr]|?]; [|done]. by exists "", r.
    + intros (r1 & r2 & H). left. exists r2.
      apply eq_sym, app_eq_nil in H as [_ H]. by rewrite H.
  - rewrite IH. split.
    + intros [[r Hr]|(r1 & r2 & ->)]; [by exists "", r|by exists (String c r1), r2].
    + intros ([|d r1] & r2 & H); [left; eauto|].
      rewrite app_cons in H. injection H as -> ->. eauto.
Qed.

(** [strings.Count(s, string(c))] and membership of one byte. *)
Fixpoint count_byte (c : ascii) (s : string) : nat :=
  match s with
  | "" => 0
  | String d s => (if decide (c = d) then 1 else 0) + count_byte c s
  end.

Definition has_byte (c : ascii) (s : string) : bool := negb (count_byte c s =? 0).

Lemma count_byte_app c s t : count_byte c (s +:+ t) = count_byte c s + count_byte c t.
Proof. induction s as [|d s IH]; [done|]. rewrite app_cons. simpl. rewrite IH. lia. Qed.

Lemma has_byte_true c s : has_byte c s = true ↔ ∃ r1 r2, s = r1 +:+ String c r2.
Proof.
  unfold has_byte. rewrite negb_true_iff, Nat.eqb_neq. split.
  - induction s as [|d s IH]; simpl; [lia|]. case_decide as Hd.
    + subst. intros _. by exists "", s.
    + intros (r1 & r2 & ->)%IH. by exists (String d r1), r2.
  - intros (r1 & r2 & ->). rewrite count_byte_app. simpl. case_decide; [lia|done].
Qed.

Lemma has_byte_app c s t : has_byte c (s +:+ t) = has_byte c s || has_byte c t.
Proof.
  unfold has_byte. rewrite count_byte_app.
  destruct (count_byte c s), (count_byte c t); done.
Qed.

(** * Splitting and joining at a byte *)

(** [strings.Cut(s, string(c))]: the text before and after the first [c]. *)
Fixpoint cut_byte (c : ascii) (s : string) : option (string * string) :=
  match s with
  | "" => None
  | String d s =>
      if decide (c = d) then Some ("", s)
      else prod_map (String d) id <$> cut_byte c s
  end.

Lemma cut_byte_Some c s a b :
  cut_byte c s = Some (a, b) ↔ s = a +:+ String c b ∧ has_byte c a = false.
Proof.
  revert a b. induction s as [|d s IH]; intros a b; simpl.
  { split; [done|]. intros [H _]. by destruct a. }
  case_decide as Hd.
  - subst d. split; [by intros [= <- <-]|]. intros [H Ha].
    destruct a as [|e a]; [by injection H as ->|].
    rewrite app_cons in H. injection H as <- _.
    unfold has_byte in Ha. simpl in Ha. rewrite decide_True in Ha by done. done.
  - rewrite fmap_Some. split.
    + intros ([a' b'] & [-> Ha']%IH & [= -> ->]). split; [done|].
      unfold has_byte in *. simpl. by rewrite decide_False.
    + intros [H Ha]. destruct a as [|e a]; [by injection H as -> _|].
      rewrite app_cons in H. injection H as <- H. exists (a, b). split; [|done].
      apply IH. split; [done|]. unfold has_byte in *. simpl in Ha.
      by rewrite decide_False in Ha.
Qed.

Lemma cut_byte_None c s : cut_byte c s = None ↔ has_byte c s = false.
Proof.
  unfold has_byte. induction s as [|d s IH]; simpl; [done|].
  case_decide; simpl; [done|]. by rewrite fmap_None, IH.
Qed.

(** [strings.Split(s, string(c))], never empty. *)
Fixpoint split_byte (c : ascii) (s : string) : list string :=
  match s with
  | "" => [""]
  | String d s =>
      match split_byte c s with
      | [] => [] (* unreachable: [split_byte_cons] *)
      | w :: ws => if decide (c = d) then "" :: w :: ws else String d w :: ws
      end
  end.

(** [strings.Join]. *)
Definition join (sep : string) (l : list string) : string := String.concat sep l.

Lemma split_byte_cons c s : ∃ w ws, split_byte c s = w :: ws.
Proof.
  induction s as [|d s (w & ws & IH)]; simpl; [eauto|]. rewrite IH.
  case_decide; eauto.
Qed.

Lemma join_cons sep w v ws : join sep (w :: v :: ws) = w +:+ sep +:+ join sep (v :: ws).
Proof. done. Qed.

Lemma join_split_byte c s : join (String c "") (split_byte c s) = s.
Proof.
  induction s as [|d s IH]; [done|]. simpl.
  destruct (split_byte_cons c s) as (w & ws & Hw). rewrite Hw in *.
  case_decide as Hd.
  - subst d. rewrite join_cons, IH. done.
  - destruct ws as [|v ws]; [simpl in *; by subst|].
    rewrite join_cons in *. rewrite app_cons. by f_equal.
Qed.

Lemma split_byte_free c s : Forall (λ w, has_byte c w = false) (split_byte c s).
Proof.
  induction s as [|d s IH]; simpl; [by repeat constructor|].
  destruct (split_byte_cons c s) as (w & ws & Hw). rewrite Hw in *.
  apply Forall_cons in IH as [Hw0 Hws]. case_decide as Hd.
  - repeat constructor; done.
  - constructor; [|done]. unfold has_byte in *. simpl. by rewrite decide_False.
Qed.

Lemma split_byte_none c s : has_byte c s = false → split_byte c s = [s].
Proof.
  unfold has_byte. induction s as [|d s IH]; simpl; [done|].
  case_decide; simpl; [done|]. intros H0. by rewrite IH.
Qed.

Lemma split_byte_app c s t :
  has_byte c s = false → split_byte c (s +:+ String c t) = s :: split_byte c t.
Proof.
  unfold has_byte. induction s as [|d s IH]; simpl.
  - intros _. destruct (split_byte_cons c t) as (w & ws & ->). by rewrite decide_True.
  - case_decide; simpl; [done|]. intros H0. by rewrite IH.
Qed.

(** Splitting a join of separator-free words gives the words back. *)
Lemma split_byte_join c w ws :
  Forall (λ v, has_byte c v = false) (w :: ws) →
  split_byte c (join (String c "") (w :: ws)) = w :: ws.
Proof.
  revert w. induction ws as [|v ws IH]; intros w [Hw Hws]%Forall_cons.
  - by apply split_byte_none.
  - rewrite join_cons. change (String c "" +:+ ?x) with (String c x).
    rewrite split_byte_app by done. f_equal. by apply IH.
Qed.

(** * Trimming *)

(** Strip from the left while the predicate holds; [strings.TrimLeft]. *)
Fixpoint trim_left (f : ascii → bool) (s : string) : string :=
  match s with
  | "" => ""
  | String c s' => if f c then trim_left f s' else s
  end.

(** Strip from the right while the predicate holds; [strings.TrimRight]. *)
Fixpoint trim_right (f : ascii → bool) (s : string) : string :=
  match s with
  | "" => ""
  | String c s => match trim_right f s with
                  | "" => if f c then "" else String c ""
                  | t => String c t
                  end
  end.

(** [strings.Trim(s, cutset)] for a cutset of ASCII bytes. *)
Definition trim (cutset : list ascii) (s : string) : string :=
  let f c := bool_decide (c ∈ cutset) in trim_right f (trim_left f s).

Lemma trim_left_suffix f s : ∃ r, s = r +:+ trim_left f s.
Proof.
  induction s as [|c s [r IH]]; simpl; [by exists ""|].
  destruct (f c); [|by exists ""]. exists (String c r). rewrite app_cons. by f_equal.
Qed.

Lemma trim_right_prefix f s : ∃ r, s = trim_right f s +:+ r.
Proof.
  induction s as [|c s [r IH]]; simpl; [by exists ""|].
  destruct (trim_right f s) as [|d t] eqn:Ht.
  - destruct (f c); [by exists (String c s)|by exists s].
  - exists r. rewrite app_cons. by f_equal.
Qed.

(** A property of the bytes is inherited by anything trimming leaves. *)
Lemma trim_free c cutset s : has_byte c s = false → has_byte c (trim cutset s) = false.
Proof.
  unfold trim. set (f := λ c, bool_decide (c ∈ cutset)). intros H.
  destruct (trim_left_suffix f s) as [r1 H1].
  destruct (trim_right_prefix f (trim_left f s)) as [r2 H2].
  rewrite H1, has_byte_app in H. apply orb_false_iff in H as [_ H].
  rewrite H2, has_byte_app in H. by apply orb_false_iff in H as [H _].
Qed.

(** The UTF-8 encodings of the White_Space code points ([unicode.IsSpace]). *)
Definition utf8_spaces : list string :=
  let b (l : list nat) := foldr (λ n s, String (ascii_of_nat n) s) "" l in
  map b ([[9]; [10]; [11]; [12]; [13]; [32]; [194; 133]; [194; 160];
          [225; 154; 128]; [226; 128; 168]; [226; 128; 169]; [226; 128; 175];
          [226; 129; 159]; [227; 128; 128]] ++
         map (λ n, [226; 128; n]) (seq 128 11)).

(** The remainder after one leading (trailing) white-space code point. *)
Definition cut_space_left (s : string) : option string :=
  list_find (λ w, is_Some (cut_prefix w s)) utf8_spaces ≫= λ '(_, w), cut_prefix w s.
Definition cut_space_right (s : string) : option string :=
  list_find (λ w, is_Some (cut_suffix w s)) utf8_spaces ≫= λ '(_, w), cut_suffix w s.

Fixpoint trim_space_by (cut : string → option string) (fuel : nat) (s : string) : string :=
  match fuel with
  | 0 => s
  | S fuel => match cut s with Some s' => trim_space_by cut fuel s' | None => s end
  end.

(** [strings.TrimSpace]; each step removes at least one byte, so the length is
    enough fuel. *)
Definition trim_space (s : string) : string :=
  let s := trim_space_by cut_space_left (String.length s) s in
  trim_space_by cut_space_right (String.length s) s.

Lemma cut_space_left_prefix s r : cut_space_left s = Some r → ∃ w, w ∈ utf8_spaces ∧ s = w +:+ r.
Proof.
  unfold cut_space_left. intros ([i w] & [Hi _]%list_find_Some & Hr)%bind_Some.
  exists w. split; [by eapply list_elem_of_lookup_2|]. by apply cut_prefix_Some.
Qed.

Lemma cut_space_right_suffix s r : cut_space_right s = Some r → ∃ w, w ∈ utf8_spaces ∧ s = r +:+ w.
Proof.
  unfold cut_space_right. intros ([i w] & [Hi _]%list_find_Some & Hr)%bind_Some.
  exists w. split; [by eapply list_elem_of_lookup_2|]. by apply cut_suffix_Some.
Qed.

Lemma utf8_spaces_nonempty w : w ∈ utf8_spaces → String.length w ≠ 0.
Proof.
  intros Hw.
  assert (Forall (λ w, String.length w ≠ 0) utf8_spaces) as H.
  { vm_compute. repeat constructor; discriminate. }
  rewrite Forall_forall in H. by apply H.
Qed.

(** No white space is left to cut. *)
Lemma trim_space_by_done cut fuel s :
  (∀ s r, cut s = Some r → String.length r < String.length s) →
  String.length s ≤ fuel → cut (trim_space_by cut fuel s) = None.
Proof.
  intros Hcut. revert s. induction fuel as [|fuel IH]; intros s Hf; simpl.
  - destruct (cut s) as [r|] eqn:Hr; [|done]. apply Hcut in Hr. lia.
  - destruct (cut s) as [r|] eqn:Hr; [|done]. apply IH. apply Hcut in Hr. lia.
Qed.

Lemma cut_space_left_shorter s r : cut_space_left s = Some r → String.length r < String.length s.
Proof.
  intros (w & Hw%utf8_spaces_nonempty & ->)%cut_space_left_prefix.
  rewrite length_app. lia.
Qed.

Lemma cut_space_right_shorter s r : cut_space_right s = Some r → String.length r < String.length s.
Proof.
  intros (w & Hw%utf8_spaces_nonempty & ->)%cut_space_right_suffix.
  rewrite length_app. lia.
Qed.

Lemma trim_space_by_left fuel s : ∃ r, s = r +:+ trim_space_by cut_space_left fuel s.
Proof.
  revert s. induction fuel as [|fuel IH]; intros s; simpl; [by exists ""|].
  destruct (cut_space_left s) as [t|] eqn:Ht; [|by exists ""].
  apply cut_space_left_prefix in Ht as (w & _ & ->). destruct (IH t) as [r Hr].
  exists (w +:+ r). rewrite app_assoc. by f_equal.
Qed.

Lemma trim_space_by_right fuel s : ∃ r, s = trim_space_by cut_space_right fuel s +:+ r.
Proof.
  revert s. induction fuel as [|fuel IH]; intros s; simpl; [exists ""; by rewrite app_nil_r|].
  destruct (cut_space_right s) as [t|] eqn:Ht; [|exists ""; by rewrite app_nil_r].
  apply cut_space_right_suffix in Ht as (w & _ & ->). destruct (IH t) as [r Hr].
  exists (r +:+ w). rewrite <-app_assoc. by f_equal.
Qed.

Lemma trim_space_sub s : ∃ r1 r2, s = r1 +:+ trim_space s +:+ r2.
Proof.
  unfold trim_space. set (t := trim_space_by cut_space_left _ s).
  destruct (trim_space_by_left (String.length s) s) as [r1 H1]. fold t in H1.
  destruct (trim_space_by_right (String.length t) t) as [r2 H2].
  exists r1, r2. by rewrite <-H2.
Qed.

Lemma cut_space_left_None_prefix s t : cut_space_left (s +:+ t) = None → cut_space_left s = None.
Proof.
  intros H. destruct (cut_space_left s) as [r|] eqn:Hr; [|done].
  apply cut_space_left_prefix in Hr as (w & Hw & ->).
  unfold cut_space_left in H. apply bind_None in H as [H|([i v] & [Hi Hv]%list_find_Some & H)].
  - apply list_find_None in H. rewrite Forall_forall in H. exfalso. apply (H w Hw).
    exists (r +:+ t). apply cut_prefix_Some. by rewrite app_assoc.
  - destruct Hv as [[r' Hr'] _]. congruence.
Qed.

(** [strings.TrimSpace] leaves nothing to trim, so applying it again changes
    nothing. *)
Lemma trim_space_idemp s : trim_space (trim_space s) = trim_space s.
Proof.
  assert (cut_space_left (trim_space s) = None) as Hl.
  { unfold trim_space. set (t := trim_space_by cut_space_left _ s).
    destruct (trim_space_by_right (String.length t) t) as [r Hr].
    apply (cut_space_left_None_prefix _ r). rewrite <-Hr.
    apply trim_space_by_done; [apply cut_space_left_shorter|done]. }
  assert (cut_space_right (trim_space s) = None) as Hr.
  { unfold trim_space. apply trim_space_by_done; [apply cut_space_right_shorter|done]. }
  unfold trim_space at 1.
  assert (∀ cut fuel t, cut t = None → trim_space_by cut fuel t = t) as Hid.
  { intros cut [|fuel] t Ht; simpl; by rewrite ?Ht. }
  rewrite (Hid cut_space_left) by done. by rewrite Hid.
Qed.

Lemma trim_space_free c s : has_byte c s = false → has_byte c (trim_space s) = false.
Proof.
  destruct (trim_space_sub s) as (r1 & r2 & Hs). intros H.
  rewrite Hs, !has_byte_app in H. by apply orb_false_iff in H as [_ [H _]%orb_false_iff].
Qed.

(** * Case mapping *)

Fixpoint string_map (f : ascii → ascii) (s : string) : string :=
  match s with "" => "" | String c s => String (f c) (string_map f s) end.

Fixpoint string_forall (f : ascii → bool) (s : string) : bool :=
  match s with "" => true | String c s => f c && string_forall f s end.

Definition is_ascii (s : string) : bool := string_forall (λ c, nat_of_ascii c <? 128) s.

Definition lower_byte (c : ascii) : ascii :=
  let n := nat_of_ascii c in
  if (65 <=? n) && (n <=? 90) then ascii_of_nat (n + 32) else c.

(** The Unicode case tables, consulted for non-ASCII input only. *)
Class UnicodeCase := {
  utf8_to_lower : string → string;
  utf8_equal_fold : string → string → bool;
}.

(** [strings.ToLower]. *)
Definition to_lower `{!UnicodeCase} (s : string) : string :=
  if is_ascii s then string_map lower_byte s else utf8_to_lower s.

(** [strings.EqualFold]. *)
Definition equal_fold `{!UnicodeCase} (s t : string) : bool :=
  if is_ascii s && is_ascii t
  then bool_decide (string_map lower_byte s = string_map lower_byte t)
  else utf8_equal_fold s t.

(** A choice of tables for evaluating the model on ASCII input. *)
Definition ascii_only_case : UnicodeCase :=
  {| utf8_to_lower s := s; utf8_equal_fold s t := bool_decide (s = t) |}.

(** * Replacement *)

(** The scan of [strings.ReplaceAll] for a non-empty [old]; [skip] counts the
    bytes of a match still to be dropped. *)
Fixpoint replace_all_go (old new s : string) (skip : nat) : string :=
  match s with
  | "" => ""
  | String c s' =>
      match skip with
      | S k => replace_all_go old new s' k
      | 0 => if has_prefix old s
             then new +:+ replace_all_go old new s' (String.length old - 1)
             else String c (replace_all_go old new s' 0)
      end
  end.

Definition replace_all (old new s : string) : string := replace_all_go old new s 0.

Lemma replace_all_go_skip old new w s : replace_all_go old new (w +:+ s) (String.length w) = replace_all_go old new s 0.
Proof. induction w as [|c w IH]; [by destruct s|]. done. Qed.

Lemma replace_all_hit c old new s :
  replace_all (String c old) new (String c old +:+ s) = new +:+ replace_all (String c old) new s.
Proof.
  unfold replace_all. rewrite app_cons. simpl replace_all_go at 1.
  rewrite <- app_cons, has_prefix_app. f_equal.
  rewrite Nat.sub_0_r. apply replace_all_go_skip.
Qed.

Lemma replace_all_miss old new c s :
  has_prefix old (String c s) = false →
  replace_all old new (String c s) = String c (replace_all old new s).
Proof. intros H. unfold replace_all. simpl. by rewrite H. Qed.

(** * The last occurrence of a byte; [strings.LastIndexByte] *)

Fixpoint cut_last_byte (c : ascii) (s : string) : option (string * string) :=
  match s with
  | "" => None
  | String d s =>
      match cut_last_byte c s with
      | Some (a, b) => Some (String d a, b)
      | None => if decide (c = d) then Some ("", s) else None
      end
  end.

Lemma cut_last_byte_None c s : cut_last_byte c s = None ↔ has_byte c s = false.
Proof.
  unfold has_byte. induction s as [|d s IH]; simpl; [done|].
  destruct (cut_last_byte c s) as [[a b]|]; simpl.
  - split; [done|]. intros H%negb_false_iff%Nat.eqb_eq.
    destruct IH as [_ IH]. discriminate IH. apply negb_false_iff, Nat.eqb_eq. lia.
  - case_decide; simpl; [done|]. tauto.
Qed.

Lemma cut_last_byte_Some c s a b :
  cut_last_byte c s = Some (a, b) → s = a +:+ String c b ∧ has_byte c b = false.
Proof.
  revert a. induction s as [|d s IH]; intros a; simpl; [done|].
  destruct (cut_last_byte c s) as [[a' b']|] eqn:Hc.
  - intros [= <- ->]. destruct (IH a') as [-> ?]; done.
  - case_decide as Hd; [|done]. intros [= <- <-]. subst d. split; [done|].
    by apply cut_last_byte_None.
Qed.

(** * Decimal formatting *)

(** [fmt.Sprintf("%d", z)] and [strconv.FormatInt(z, 10)]. *)
Definition fmt_d (z : Z) : string := pretty z.

Fixpoint zeros (n : nat) : string := match n with 0 => "" | S n => String "0" (zeros n) end.

(** [fmt.Sprintf("%04d", n)] for a non-negative [n]: a minimum width of 4. *)
Definition fmt_04d (n : nat) : string :=
  let d := pretty (N.of_nat n) in zeros (4 - String.length d) +:+ d.

Fixpoint dec_value (acc : N) (s : string) : N :=
  match s with
  | "" => acc
  | String c s => dec_value (10 * acc + (N_of_ascii c - 48)) s
  end.

Lemma pretty_N_char_value d : (d < 10)%N → (N_of_ascii (pretty_N_char d) - 48)%N = d.
Proof.
  intros Hd.
  assert (d = 0 ∨ d = 1 ∨ d = 2 ∨ d = 3 ∨ d = 4 ∨ d = 5 ∨ d = 6 ∨ d = 7 ∨ d = 8 ∨ d = 9)%N
    as Hc by lia.
  destruct_or!; by subst.
Qed.

Lemma dec_value_pretty_N_go x s : dec_value 0 (pretty_N_go x s) = dec_value x s.
Proof.
  revert s. induction (N.lt_wf_0 x) as [x _ IH]. intros s.
  destruct (decide (0 < x)%N) as [Hx|Hx].
  - rewrite pretty_N_go_step, IH by (done || by apply N.div_lt).
    simpl. rewrite pretty_N_char_value by (by apply N.mod_lt).
    f_equal. rewrite (N.Div0.div_mod x 10) at 3. lia.
  - assert (x = 0)%N as -> by lia. done.
Qed.

Lemma dec_value_pretty (n : N) : dec_value 0 (pretty n) = n.
Proof.
  unfold pretty, pretty_N. case_decide as Hn; [by subst|].
  rewrite dec_value_pretty_N_go. done.
Qed.

Lemma dec_value_zeros k s : dec_value 0 (zeros k +:+ s) = dec_value 0 s.
Proof. induction k as [|k IH]; [done|]. exact IH. Qed.

#[export] Instance fmt_04d_inj : Inj (=) (=) fmt_04d.
Proof.
  intros n m H. apply (f_equal (dec_value 0)) in H. unfold fmt_04d in H.
  rewrite !dec_value_zeros, !dec_value_pretty in H. lia.
Qed.

(** Printing a larger number takes at least as many digits. *)
Lemma length_pretty_N_go_mono x y s t :
  (x ≤ y)%N → String.length s ≤ String.length t →
  String.length (pretty_N_go x s) ≤ String.length (pretty_N_go y t).
Proof.
  revert y s t. induction (N.lt_wf_0 x) as [x _ IH]. intros y s t Hxy Hst.
  destruct (decide (0 < x)%N) as [Hx|Hx].
  - rewrite (pretty_N_go_step x), (pretty_N_go_step y) by lia.
    apply IH; [by apply N.div_lt| |simpl; lia]. by apply N.Div0.div_le_mono.
  - assert (x = 0)%N as -> by lia. change (pretty_N_go 0 s) with s.
    clear IH Hxy Hx. revert t Hst. induction (N.lt_wf_0 y) as [y _ IH]. intros t Hst.
    destruct (decide (0 < y)%N) as [Hy|Hy].
    + rewrite pretty_N_go_step by lia. apply IH; [by apply N.div_lt|simpl; lia].
    + assert (y = 0)%N as -> by lia. done.
Qed.

Lemma length_fmt_d_mono (n m : nat) :
  n ≤ m → String.length (fmt_d (Z.of_nat n)) ≤ String.length (fmt_d (Z.of_nat m)).
Proof.
  intros H. unfold fmt_d, pretty, pretty_Z.
  assert (∀ k : nat, match Z.of_nat k with
    | Z0 => "0" | Zpos x => pretty (Npos x) | Zneg x => "-" +:+ pretty (Npos x) end
    = pretty (N.of_nat k)) as Hk by (by intros [|k]).
  rewrite !Hk. clear Hk. unfold pretty, pretty_N.
  case_decide as Hn; case_decide as Hm; [done| |lia|].
  - change (String.length "0") with 1. rewrite pretty_N_go_step by lia.
    etrans; [|apply (length_pretty_N_go_mono 0 _ (String (pretty_N_char 0) ""))];
      [done|apply N.le_0_l|done].
  - apply length_pretty_N_go_mono; [lia|done].
Qed.

(** * Decimal parsing; [strconv.Atoi] on a 64-bit platform *)

Definition is_digit (c : ascii) : bool :=
  let n := nat_of_ascii c in (48 <=? n) && (n <=? 57).

Definition atoi_digits (s : string) : option Z :=
  if bool_decide (s ≠ "") && string_forall is_digit s then Some (Z.of_N (dec_value 0 s)) else None.

(** An optional sign, at least one digit, and a value in range. *)
Definition atoi (s : string) : option Z :=
  z ← match s with
      | String "-" r => Z.opp <$> atoi_digits r
      | String "+" r => atoi_digits r
      | _ => atoi_digits s
      end;
  if bool_decide (min_int64 ≤ z ≤ max_int64)%Z then Some z else None.

(** * Replacement of escape sequences *)

Fixpoint string_bind (f : ascii → string) (s : string) : string :=
  match s with "" => "" | String c s => f c +:+ string_bind f s end.

(** Decimal numbers are made of digits. *)
Lemma pretty_N_go_free c x s :
  is_digit c = false → has_byte c s = false → has_byte c (pretty_N_go x s) = false.
Proof.
  intros Hc. revert s. induction (N.lt_wf_0 x) as [x _ IH]. intros s Hs.
  destruct (decide (0 < x)%N) as [Hx|Hx].
  - rewrite pretty_N_go_step by done. apply IH; [by apply N.div_lt|].
    assert (x `mod` 10 < 10)%N as Hd by (by apply N.mod_lt).
    change (String ?d s) with (String d "" +:+ s). rewrite has_byte_app, Hs, orb_false_r.
    unfold has_byte. simpl. case_decide as He; [|done]. exfalso. revert Hc. rewrite He.
    assert (∀ d, (d < 10)%N → is_digit (pretty_N_char d) = true) as Hdig.
    { intros d ?. assert (d = 0 ∨ d = 1 ∨ d = 2 ∨ d = 3 ∨ d = 4 ∨ d = 5 ∨ d = 6 ∨ d = 7 ∨ d = 8 ∨ d = 9)%N
        as Hcase by lia. destruct_or!; by subst. }
    by rewrite Hdig.
  - assert (x = 0)%N as -> by lia. done.
Qed.

Lemma fmt_04d_free c n : is_digit c = false → has_byte c (fmt_04d n) = false.
Proof.
  intros Hc. unfold fmt_04d. rewrite has_byte_app. apply orb_false_iff. split.
  - generalize (4 - String.length (pretty (N.of_nat n))). intros k. induction k as [|k IH]; [done|].
    change (zeros (S k)) with ("0" +:+ zeros k). rewrite has_byte_app, IH, orb_false_r.
    unfold has_byte. simpl. case_decide as He; [by subst c|done].
  - unfold pretty, pretty_N. case_decide.
    + unfold has_byte. simpl. case_decide as He; [by subst c|done].
    + by apply pretty_N_go_free.
Qed.
