(* ===== verification/GoPath.v ===== *)
(** [path.Clean], [path.Join] and [path.Split] of the standard library, on
    slash-separated paths. *)

From S2P Require Import Prelude GoStrings.

(** The lexical elements of a path, processed from the left: empty elements and
    ["."] are dropped, [".."] removes the element before it when there is one that
    is not itself [".."], and stays at the front of a relative path. [rev] is the
    stack of elements kept so far, last first. *)
Fixpoint clean_elems (rooted : bool) (rev : list string) (elems : list string) : list string :=
  match elems with
  | [] => reverse rev
  | e :: elems =>
      if decide (e = "" ∨ e = ".") then clean_elems rooted rev elems
      else if decide (e = "..") then
        match rev with
        | [] => if rooted then clean_elems rooted [] elems else clean_elems rooted [".."] elems
        | top :: rest =>
            if decide (top = "..") then clean_elems rooted (".." :: rev) elems
            else clean_elems rooted rest elems
        end
      else clean_elems rooted (e :: rev) elems
  end.

Definition path_elems (p : string) : list string :=
  clean_elems (has_prefix "/" p) [] (split_byte "/" p).

(** [path.Clean]. *)
Definition path_clean (p : string) : string :=
  let body := join "/" (path_elems p) in
  if has_prefix "/" p then "/" +:+ body
  else if decide (body = "") then "." else body.

(** [path.Join(a, b)]: empty arguments are ignored. *)
Definition path_join (a b : string) : string :=
  if decide (a = "") then (if decide (b = "") then "" else path_clean b)
  else if decide (b = "") then path_clean a
  else path_clean (a +:+ "/" +:+ b).

(** [path.Split]: the directory with its slash, and the file. *)
Definition path_split (p : string) : string * string :=
  match cut_last_byte "/" p with
  | None => ("", p)
  | Some (dir, file) => (dir +:+ "/", file)
  end.

Example path_clean_examples :
  path_clean "a//b/./../c" = "a/c" ∧ path_clean "../../a" = "../../a" ∧
  path_clean "/../a/.." = "/" ∧ path_clean "" = "." ∧ path_clean "a/.." = ".".
Proof. by vm_compute. Qed.

Lemma path_split_file p dir file : path_split p = (dir, file) → p = dir +:+ file ∧ has_byte "/" file = false.
Proof.
  unfold path_split. destruct (cut_last_byte "/" p) as [[a b]|] eqn:Hc.
  - intros [= <- <-]. apply cut_last_byte_Some in Hc as [-> ?]. split; [|done].
    by rewrite app_assoc.
  - intros [= <- <-]. split; [done|]. by apply cut_last_byte_None.
Qed.

(** An ordinary last element stays the last element. *)
Lemma clean_elems_snoc rooted rev elems e :
  e ≠ "" → e ≠ "." → e ≠ ".." →
  clean_elems rooted rev (elems ++ [e]) = clean_elems rooted rev elems ++ [e].
Proof.
  intros H1 H2 H3. revert rev. induction elems as [|x elems IH]; intros rev; simpl.
  - rewrite decide_False by tauto. rewrite decide_False by done. by rewrite reverse_cons.
  - case_decide; [apply IH|]. case_decide; [|apply IH].
    destruct rev as [|top rest]; [destruct rooted; apply IH|]. case_decide; apply IH.
Qed.

Lemma split_byte_snoc s file :
  has_byte "/" file = false → split_byte "/" (s +:+ "/" +:+ file) = split_byte "/" s ++ [file].
Proof.
  intros Hf. induction s as [|c s IH].
  - change ("" +:+ "/" +:+ file) with (String "/" file). cbn [split_byte].
    rewrite split_byte_none by done. done.
  - rewrite app_cons. cbn [split_byte]. rewrite IH.
    destruct (split_byte_cons "/" s) as (w & ws & ->). simpl. by case_decide.
Qed.

(** Joining a directory with an ordinary file name: the file stays the last
    element, whatever the directory is. *)
Lemma path_join_elems dir file :
  file ≠ "" → file ≠ "." → file ≠ ".." → has_byte "/" file = false →
  ∃ root body, path_join dir file = root +:+ join "/" (body ++ [file]) ∧
    (root = "" ∨ root = "/") ∧
    ∀ file', file' ≠ "" → file' ≠ "." → file' ≠ ".." → has_byte "/" file' = false →
      path_join dir file' = root +:+ join "/" (body ++ [file']).
Proof.
  intros H1 H2 H3 H4.
  assert (∀ f, has_byte "/" f = false → has_prefix "/" f = false) as Hnp.
  { intros f Hf. apply not_true_iff_false. intros [r ->]%has_prefix_true.
    rewrite has_byte_app in Hf. done. }
  assert (∀ b f, f ≠ "" → join "/" (b ++ [f]) ≠ "") as Hjne.
  { intros b f Hf. destruct b as [|x [|y b]]; simpl; [done|..]; intros H;
      apply app_eq_nil in H as [_ H]; by destruct f. }
  destruct (decide (dir = "")) as [->|Hd].
  - assert (∀ f, f ≠ "" → f ≠ "." → f ≠ ".." → has_byte "/" f = false →
        path_join "" f = "" +:+ join "/" ([] ++ [f])) as Hone.
    { intros f ????. unfold path_join. rewrite decide_True, decide_False by done.
      unfold path_clean, path_elems. rewrite Hnp, split_byte_none by done.
      rewrite (clean_elems_snoc _ [] [] f) by done. simpl. by rewrite decide_False. }
    exists "", []. split_and!; [by apply Hone|by left|by intros; apply Hone].
  - set (root := if has_prefix "/" dir then "/" else "").
    set (body := clean_elems (has_prefix "/" dir) [] (split_byte "/" dir)).
    assert (∀ f, f ≠ "" → f ≠ "." → f ≠ ".." → has_byte "/" f = false →
        path_join dir f = root +:+ join "/" (body ++ [f])) as Hone.
    { intros f Hf1 Hf2 Hf3 Hf4. unfold path_join. rewrite !decide_False by done.
      unfold path_clean, path_elems. rewrite split_byte_snoc by done.
      assert (has_prefix "/" (dir +:+ "/" +:+ f) = has_prefix "/" dir) as ->.
      { destruct dir as [|c dir]; [done|]. rewrite app_cons. unfold has_prefix. simpl.
        by case_decide. }
      rewrite clean_elems_snoc by done. fold body. unfold root.
      destruct (has_prefix "/" dir); [done|]. rewrite decide_False; [done|]. by apply Hjne. }
    exists root, body. split_and!; [by apply Hone|unfold root; case_match; tauto|by intros; apply Hone].
Qed.

Lemma join_snoc_inj sep body f f' : join sep (body ++ [f]) = join sep (body ++ [f']) → f = f'.
Proof.
  induction body as [|x [|y body] IH]; simpl; [done|..].
  - intros H. by do 2 apply app_inv_l in H.
  - intros H. do 2 apply app_inv_l in H. by apply IH.
Qed.

(** ... so distinct files of one directory have distinct paths. *)
Lemma path_join_inj dir f f' :
  f ≠ "" → f ≠ "." → f ≠ ".." → has_byte "/" f = false →
  f' ≠ "" → f' ≠ "." → f' ≠ ".." → has_byte "/" f' = false →
  path_join dir f = path_join dir f' → f = f'.
Proof.
  intros H1 H2 H3 H4 H5 H6 H7 H8 Heq.
  destruct (path_join_elems dir f H1 H2 H3 H4) as (root & body & Hf & _ & Hf').
  rewrite Hf, (Hf' f') in Heq by done. apply app_inv_l in Heq. by apply join_snoc_inj in Heq.
Qed.

(** * Relative paths that stay below their root *)

(** An element that names something: not empty, not ["."], not [".."]. *)
Definition ordinary (e : string) : Prop := e ≠ "" ∧ e ≠ "." ∧ e ≠ ".." ∧ has_byte "/" e = false.

#[export] Instance ordinary_dec e : Decision (ordinary e) := _.

(** Walking the elements from [depth] levels below the root leaves the root. *)
Fixpoint escapes (depth : nat) (elems : list string) : bool :=
  match elems with
  | [] => false
  | e :: elems =>
      if decide (e = "" ∨ e = ".") then escapes depth elems
      else if decide (e = "..") then match depth with 0 => true | S d => escapes d elems end
      else escapes (S depth) elems
  end.

Lemma clean_elems_ordinary rooted rev l :
  Forall ordinary l → clean_elems rooted rev l = reverse rev ++ l.
Proof.
  intros Hl. revert rev. induction Hl as [|e l (H1 & H2 & H3 & _) _ IH]; intros rev; simpl.
  - by rewrite List.app_nil_r.
  - rewrite decide_False by tauto. rewrite decide_False by done. rewrite IH, reverse_cons.
    by rewrite <- List.app_assoc.
Qed.

(** A leading [".."] is never removed. *)
Lemma clean_elems_escaped rev elems :
  ∃ l, clean_elems false (rev ++ [".."]) elems = ".." :: l.
Proof.
  revert rev. induction elems as [|e elems IH]; intros rev; simpl.
  - rewrite reverse_app. by eexists.
  - case_decide; [apply IH|]. case_decide; [|apply (IH (e :: rev))].
    destruct rev as [|top rest]; simpl.
    + apply (IH [".."]).
    + case_decide; [apply (IH (".." :: top :: rest))|apply IH].
Qed.

Lemma clean_elems_confined rev elems :
  Forall ordinary rev → Forall (λ e, has_byte "/" e = false) elems →
  if escapes (length rev) elems then ∃ l, clean_elems false rev elems = ".." :: l
  else Forall ordinary (clean_elems false rev elems).
Proof.
  intros Hrev Hel. revert rev Hrev. induction Hel as [|e elems He _ IH]; intros rev Hrev; simpl.
  - by apply Forall_reverse.
  - case_decide; [by apply IH|]. case_decide as Hd.
    + destruct Hrev as [|top rest (?&?&?&?) Hrest]; simpl; [apply (clean_elems_escaped [])|].
      rewrite decide_False by done. by apply IH.
    + apply (IH (e :: rev)). constructor; [|done]. unfold ordinary. tauto.
Qed.

Lemma join_nonempty sep l : l ≠ [] → Forall ordinary l → join sep l ≠ "".
Proof.
  intros Hne Hl. destruct Hl as [|e l (He & _) _]; [done|]. destruct l as [|e' l]; simpl; [done|].
  intros [? _]%app_eq_nil. done.
Qed.

Lemma join_not_rooted l : Forall ordinary l → has_prefix "/" (join "/" l) = false.
Proof.
  intros Hl. apply not_true_iff_false. intros [r Hr]%has_prefix_true.
  destruct Hl as [|e l (He & _ & _ & Hs) _]; [done|].
  assert (∃ t, join "/" (e :: l) = e +:+ t) as [t Ht].
  { destruct l as [|e' l]; [exists ""; by rewrite app_nil_r|by eexists]. }
  rewrite Ht in Hr. destruct e as [|c e]; [done|]. rewrite app_cons in Hr. injection Hr as -> _. done.
Qed.

Lemma split_join_ordinary l : l ≠ [] → Forall ordinary l → split_byte "/" (join "/" l) = l.
Proof.
  intros Hne Hl. destruct l as [|e l]; [done|]. apply split_byte_join.
  eapply Forall_impl; [exact Hl|]. by intros x (_&_&_&?).
Qed.

(** A path made of ordinary elements is clean. *)
Lemma path_clean_ordinary l : l ≠ [] → Forall ordinary l → path_clean (join "/" l) = join "/" l.
Proof.
  intros Hne Hl. unfold path_clean, path_elems. rewrite join_not_rooted by done.
  rewrite split_join_ordinary, clean_elems_ordinary by done. simpl.
  rewrite decide_False; [done|by apply join_nonempty].
Qed.

Lemma clean_elems_nil_r rooted rev l : clean_elems rooted rev (l ++ [""]) = clean_elems rooted rev l.
Proof.
  revert rev. induction l as [|e l IH]; intros rev; simpl; [done|].
  repeat case_decide; try apply IH. destruct rev as [|top rest]; [destruct rooted; apply IH|].
  case_decide; apply IH.
Qed.

Lemma path_join_ordinary l f :
  Forall ordinary (l ++ [f]) → path_join (join "/" l +:+ (if decide (l = []) then "" else "/")) f = join "/" (l ++ [f]).
Proof.
  intros Hl. assert (ordinary f) as Hf by (apply Forall_app in Hl as [_ Hf]; by inversion Hf).
  assert (Forall ordinary l) as Hll by (by apply Forall_app in Hl as [? _]).
  assert (path_clean f = f) as Hcf.
  { change f with (join "/" [f]) at 2. rewrite <- (path_clean_ordinary [f]); [done|done|by constructor]. }
  case_decide as Hd.
  - subst l. unfold path_join. rewrite decide_True, decide_False by (done || apply Hf). done.
  - unfold path_join. rewrite !decide_False.
    2: apply Hf. 2:{ intros [_ ?]%app_eq_nil. done. }
    unfold path_clean, path_elems.
    assert (has_prefix "/" ((join "/" l +:+ "/") +:+ "/" +:+ f) = false) as ->.
    { apply not_true_iff_false. intros [r Hr]%has_prefix_true. pose proof (join_not_rooted l Hll) as Hn.
      pose proof (join_nonempty "/" l Hd Hll) as Hne. destruct (join "/" l) as [|c t]; [done|].
      rewrite !app_cons in Hr. injection Hr as -> _. apply not_true_iff_false in Hn. apply Hn.
      apply has_prefix_true. by exists t. }
    rewrite split_byte_snoc by apply Hf. change (join "/" l +:+ "/") with (join "/" l +:+ "/" +:+ "").
    rewrite (split_byte_snoc (join "/" l) "") by done.
    rewrite (split_join_ordinary l), clean_elems_snoc by (done || apply Hf).
    assert (clean_elems false [] (l ++ [""]) = l) as ->.
    { rewrite clean_elems_nil_r. by apply (clean_elems_ordinary false [] l). }
    rewrite decide_False; [done|]. by apply join_nonempty; [destruct l|].
Qed.

(** Splitting at every slash, of a path with a slash. *)
Lemma split_byte_sep r t : split_byte "/" (r +:+ "/" +:+ t) = split_byte "/" r ++ split_byte "/" t.
Proof.
  induction r as [|c r IH].
  - change ("" +:+ "/" +:+ t) with (String "/" t). cbn [split_byte].
    destruct (split_byte_cons "/" t) as (w & ws & ->). by rewrite decide_True.
  - rewrite app_cons. cbn [split_byte]. rewrite IH. destruct (split_byte_cons "/" r) as (w & ws & ->).
    simpl. by case_decide.
Qed.

(** * Paths in normal form *)

Definition normal_path (p : string) : Prop := Forall ordinary (split_byte "/" p).

#[export] Instance normal_path_dec p : Decision (normal_path p) := _.

Lemma normal_join l : l ≠ [] → Forall ordinary l → normal_path (join "/" l).
Proof. intros Hne Hl. unfold normal_path. by rewrite split_join_ordinary. Qed.

Lemma normal_clean p : normal_path p → path_clean p = p.
Proof.
  intros Hp. pose proof (path_clean_ordinary (split_byte "/" p)) as Hc. rewrite join_split_byte in Hc. apply Hc; [|done].
  destruct (split_byte_cons "/" p) as (w & ws & ->). done.
Qed.

Lemma normal_nonempty p : normal_path p → p ≠ "".
Proof. intros Hp ->. unfold normal_path in Hp. cbn in Hp. by apply Forall_cons in Hp as [[? _] _]. Qed.

Lemma normal_app p q : normal_path (p +:+ "/" +:+ q) ↔ normal_path p ∧ normal_path q.
Proof. unfold normal_path. by rewrite split_byte_sep, Forall_app. Qed.

Lemma normal_path_join p q : normal_path p → normal_path q → path_join p q = p +:+ "/" +:+ q.
Proof.
  intros Hp Hq. unfold path_join. rewrite !decide_False by (by apply normal_nonempty).
  by apply normal_clean, normal_app.
Qed.

Lemma normal_no_slash p : normal_path p → has_suffix "/" p = false ∧ has_prefix "/" p = false.
Proof.
  intros Hp. split; apply not_true_iff_false.
  - intros [r ->]%has_suffix_true. unfold normal_path in Hp. change "/" with ("/" +:+ "") in Hp.
    rewrite split_byte_sep, Forall_app in Hp. destruct Hp as [_ Hp]. by apply Forall_cons in Hp as [[? _] _].
  - intros [r ->]%has_prefix_true. change ("/" +:+ r) with ("" +:+ "/" +:+ r) in Hp. rewrite normal_app in Hp.
    destruct Hp as [Hp _]. by apply normal_nonempty in Hp.
Qed.

Lemma normal_trim_suffix p : normal_path p → trim_suffix "/" p = p.
Proof.
  intros [Hp _]%normal_no_slash. unfold trim_suffix. destruct (cut_suffix "/" p) as [r|] eqn:Hc; [|done].
  apply cut_suffix_Some in Hc as ->. rewrite <- not_true_iff_false in Hp. destruct Hp. apply has_suffix_true. by exists r.
Qed.
