(* ===== verification/Values.v ===== *)
(** Dynamically typed values ([any]): the [map[string]any] trees that Kubernetes
    objects decode to, that CEL and JSONPath extraction produce and that items carry
    as attributes. [VOther] is a value of any other Go type, such as the
    [[]ref.Val] and [map[ref.Val]ref.Val] behind a list or a map that a CEL
    expression builds: the code only passes such a value on and encodes it, so it
    is known by its JSON encoding, [None] when the encoder refuses it.

    A Go map is an association list with pairwise distinct keys ([wf_value]); the
    program never depends on the order of the entries except through JSON
    encoding, which sorts them. *)

From S2P Require Import Prelude.

Inductive value : Type :=
  | VNull
  | VBool (b : bool)
  | VInt (z : Z)
  | VFloat (repr : string)
  | VString (s : string)
  | VList (l : list value)
  | VMap (m : list (string * value))
  | VOther (json : option string).

(** Induction with hypotheses for the elements of lists and maps. *)
Section value_ind.
Variable P : value → Prop.
Hypothesis Hnull : P VNull.
Hypothesis Hbool : ∀ b, P (VBool b).
Hypothesis Hint : ∀ z, P (VInt z).
Hypothesis Hfloat : ∀ r, P (VFloat r).
Hypothesis Hstring : ∀ s, P (VString s).
Hypothesis Hlist : ∀ l, Forall P l → P (VList l).
Hypothesis Hmap : ∀ m, Forall (λ kv, P kv.2) m → P (VMap m).
Hypothesis Hother : ∀ j, P (VOther j).

Fixpoint value_ind' (v : value) : P v :=
  match v with
  | VNull => Hnull
  | VBool b => Hbool b
  | VInt z => Hint z
  | VFloat r => Hfloat r
  | VString s => Hstring s
  | VList l =>
      Hlist l ((fix go l : Forall P l :=
        match l with
        | [] => Forall_nil_2 P
        | x :: l => Forall_cons_2 P x l (value_ind' x) (go l)
        end) l)
  | VMap m =>
      Hmap m ((fix go m : Forall (λ kv, P kv.2) m :=
        match m with
        | [] => Forall_nil_2 _
        | kv :: m => Forall_cons_2 (λ kv, P kv.2) kv m (value_ind' kv.2) (go m)
        end) m)
  | VOther j => Hother j
  end.
End value_ind.

#[export] Instance value_eq_dec : EqDecision value.
Proof.
  hnf. fix go 1. intros v w.
  pose proof (go : EqDecision value).
  destruct v, w; try (right; discriminate); try (left; reflexivity).
  - destruct (decide (b = b0)) as [->|]; [by left|right; congruence].
  - destruct (decide (z = z0)) as [->|]; [by left|right; congruence].
  - destruct (decide (repr = repr0)) as [->|]; [by left|right; congruence].
  - destruct (decide (s = s0)) as [->|]; [by left|right; congruence].
  - destruct (decide (l = l0)) as [->|]; [by left|right; congruence].
  - destruct (decide (m = m0)) as [->|]; [by left|right; congruence].
  - destruct (decide (json = json0)) as [->|]; [by left|right; congruence].
Defined.

(** * Maps as association lists *)

(** [m[k]] with its [ok]. *)
Fixpoint assoc_get {A} (k : string) (m : list (string * A)) : option A :=
  match m with
  | [] => None
  | (k', v) :: m => if decide (k = k') then Some v else assoc_get k m
  end.

(** [m[k] = v]: an existing entry is overwritten in place, a new one is added. *)
Fixpoint assoc_set {A} (k : string) (v : A) (m : list (string * A)) : list (string * A) :=
  match m with
  | [] => [(k, v)]
  | (k', w) :: m => if decide (k = k') then (k, v) :: m else (k', w) :: assoc_set k v m
  end.

(** [delete(m, k)]. *)
Definition assoc_del {A} (k : string) (m : list (string * A)) : list (string * A) :=
  filter (λ kv, kv.1 ≠ k) m.

(** Update the value stored at [k], if any. *)
Fixpoint assoc_alter {A} (f : A → A) (k : string) (m : list (string * A)) : list (string * A) :=
  match m with
  | [] => []
  | (k', v) :: m => if decide (k = k') then (k', f v) :: m else (k', v) :: assoc_alter f k m
  end.

Section assoc.
Context {A : Type}.
Implicit Types (m : list (string * A)) (k : string) (v : A).

Lemma assoc_get_set k v m : assoc_get k (assoc_set k v m) = Some v.
Proof.
  induction m as [|[k' w] m IH]; simpl; [by rewrite decide_True|].
  case_decide; simpl; [by rewrite decide_True|by rewrite decide_False].
Qed.

Lemma assoc_get_set_ne k k' v m : k ≠ k' → assoc_get k (assoc_set k' v m) = assoc_get k m.
Proof.
  intros Hk. induction m as [|[k1 w] m IH]; simpl; [by rewrite decide_False|].
  case_decide as H1; simpl; subst.
  - by rewrite !decide_False.
  - by rewrite IH.
Qed.

Lemma assoc_get_del k m : assoc_get k (assoc_del k m) = None.
Proof.
  induction m as [|[k' w] m IH]; [done|]. unfold assoc_del. rewrite filter_cons.
  case_decide as Hk; simpl; [|done]. simpl in Hk. by rewrite decide_False by congruence.
Qed.

Lemma assoc_get_del_ne k k' m : k ≠ k' → assoc_get k (assoc_del k' m) = assoc_get k m.
Proof.
  intros Hk. induction m as [|[k1 w] m IH]; [done|]. unfold assoc_del. rewrite filter_cons.
  case_decide as H1; simpl in *; [by rewrite <-IH|].
  subst. by rewrite decide_False.
Qed.

Lemma assoc_get_alter f k m : assoc_get k (assoc_alter f k m) = f <$> assoc_get k m.
Proof.
  induction m as [|[k' w] m IH]; simpl; [done|].
  case_decide as Hk; simpl; [by rewrite decide_True|by rewrite decide_False].
Qed.

Lemma assoc_get_alter_ne f k k' m :
  k ≠ k' → assoc_get k (assoc_alter f k' m) = assoc_get k m.
Proof.
  intros Hk. induction m as [|[k1 w] m IH]; simpl; [done|].
  case_decide as Hk1; simpl; [by subst; rewrite !decide_False|by rewrite IH].
Qed.

Lemma assoc_get_elem k v m : assoc_get k m = Some v → (k, v) ∈ m.
Proof.
  induction m as [|[k' w] m IH]; simpl; [done|]. case_decide as Hk.
  - intros [= ->]. subst. by left.
  - right. auto.
Qed.

Lemma assoc_elem_get k v m : NoDup m.*1 → (k, v) ∈ m → assoc_get k m = Some v.
Proof.
  induction m as [|[k' w] m IH]; simpl; [by intros _ ?%elem_of_nil|].
  intros [Hn Hm]%NoDup_cons [[= -> ->]|Hin]%elem_of_cons; [by rewrite decide_True|].
  rewrite decide_False; [auto|]. intros ->. apply Hn.
  apply list_elem_of_fmap. by exists (k', v).
Qed.

Lemma assoc_get_None k m : assoc_get k m = None ↔ k ∉ m.*1.
Proof.
  induction m as [|[k' w] m IH]; simpl; [split; [by intros _ ?%elem_of_nil|done]|].
  rewrite not_elem_of_cons, <-IH. case_decide; naive_solver.
Qed.

Lemma assoc_del_keys k m : (assoc_del k m).*1 = filter (λ k', k' ≠ k) m.*1.
Proof.
  induction m as [|[k' w] m IH]; [done|]. unfold assoc_del in *.
  rewrite fmap_cons, !filter_cons. simpl. case_decide; [by rewrite <-IH|done].
Qed.

Lemma assoc_alter_keys f k m : (assoc_alter f k m).*1 = m.*1.
Proof.
  induction m as [|[k' w] m IH]; [done|]. simpl.
  case_decide; rewrite !fmap_cons; [done|]. by rewrite IH.
Qed.

Lemma assoc_set_keys_NoDup k v m : NoDup m.*1 → NoDup (assoc_set k v m).*1.
Proof.
  induction m as [|[k' w] m IH]; simpl; intros Hm; [by repeat constructor; intros ?%elem_of_nil|].
  apply NoDup_cons in Hm as [Hn Hm]. case_decide as Hk; simpl.
  - subst. by constructor.
  - constructor; [|auto]. clear IH Hm.
    induction m as [|[k1 w1] m IH]; simpl in *.
    + rewrite list_elem_of_singleton. congruence.
    + case_decide as Hk1; simpl in *; [subst|]; rewrite elem_of_cons in *; naive_solver.
Qed.
End assoc.

Lemma Forall_assoc_set {A} (P : string * A → Prop) k v (m : list (string * A)) :
  P (k, v) → Forall P m → Forall P (assoc_set k v m).
Proof.
  intros Hp. induction 1 as [|[k' w] m Hw Hm IH]; simpl; [by constructor|].
  case_decide; subst; by constructor.
Qed.

#[export] Hint Rewrite @assoc_get_set @assoc_get_del @assoc_get_alter : kollect.

Lemma assoc_del_None {A} k (m : list (string * A)) : assoc_get k m = None → assoc_del k m = m.
Proof.
  induction m as [|[k' a] m IH]; [done|]. simpl. case_decide; [done|]. intros Hm.
  unfold assoc_del in *. rewrite filter_cons_True by (simpl; congruence). by rewrite IH.
Qed.

Lemma assoc_alter_None {A} (f : A → A) k (m : list (string * A)) :
  assoc_get k m = None → assoc_alter f k m = m.
Proof.
  induction m as [|[k' a] m IH]; [done|]. simpl. intros Hm. case_decide; [done|]. by rewrite IH.
Qed.

Lemma assoc_alter_id {A} (f : A → A) k x (m : list (string * A)) :
  assoc_get k m = Some x → f x = x → assoc_alter f k m = m.
Proof.
  intros Hx Hf. induction m as [|[k' a] m IH]; [done|]. simpl in *.
  case_decide; [congruence|]. by rewrite IH.
Qed.

(** Every map in the tree has pairwise distinct keys. *)
Fixpoint wf_value (v : value) : Prop :=
  match v with
  | VList l => (fix go l := match l with [] => True | x :: l => wf_value x ∧ go l end) l
  | VMap m => NoDup m.*1 ∧
      (fix go m := match m with [] => True | (_, x) :: m => wf_value x ∧ go m end) m
  | _ => True
  end.

Lemma wf_VList l : wf_value (VList l) ↔ Forall wf_value l.
Proof.
  simpl. induction l as [|x l IH]; [by split|]. rewrite Forall_cons, <-IH. done.
Qed.

Lemma wf_VMap m : wf_value (VMap m) ↔ NoDup m.*1 ∧ Forall (λ kv, wf_value kv.2) m.
Proof.
  simpl. apply and_iff_compat_l. induction m as [|[k x] m IH]; [by split|].
  rewrite Forall_cons, <-IH. done.
Qed.

(** [typed, ok := v.(map[string]any)]. *)
Definition as_map (v : value) : option (list (string * value)) :=
  match v with VMap m => Some m | _ => None end.
