(* ===== verification/Store.v ===== *)
(** The in-memory collection store, [src/internal/collect/store.go].

    [Module Store] translates the sharded store operation by operation,
    [Module RowSpec] is the contract it promises (one flat map of rows), and the
    refinement theorems relate the two over arbitrary sequences of operations.
    Each operation runs under the shard lock in the source, so it is one atomic
    step here. *)

From S2P Require Import Prelude Values.

(** One collected row; [None] attributes are a nil map.
    Go: internal/collect/store.go:10-21 [Item] *)
Record Item := mkItem {
  TargetNamespace : string;
  TargetName : string;
  Namespace : string;
  Name : string;
  Group : string;
  Version : string;
  Kind : string;
  UID : string;
  Attributes : option (list (string * value));
}.

#[export] Instance item_eq_dec : EqDecision Item.
Proof. solve_decision. Defined.

Module Store.

(** One shard ([storeShard]): target name -> resource UID -> item. *)
Abbreviation storeShard := (gmap string (gmap string Item)) (only parsing).

(** The store. [watchers] maps a subscribed channel to the number of signals
    buffered in it, [nsWatchers] to the namespaces buffered in it; [next_chan]
    names the next channel [make] allocates.
    Go: internal/collect/store.go:23-51 [Store] *)
Record StoreState := mkStore {
  shards : gmap string storeShard;
  watchers : gmap nat nat;
  nsWatchers : gmap nat (list string);
  versions : gmap string Z;
  next_chan : nat;
}.

(** Go: internal/collect/store.go:53-61 [NewStore] *)
Definition NewStore : StoreState := mkStore ∅ ∅ ∅ ∅ 0.

Definition set_shards (f : gmap string storeShard → gmap string storeShard) (s : StoreState) : StoreState :=
  mkStore (f (shards s)) (watchers s) (nsWatchers s) (versions s) (next_chan s).

(** Go: internal/collect/store.go:63-73 [Subscribe] *)
Definition Subscribe (s : StoreState) : nat * StoreState :=
  (next_chan s,
   mkStore (shards s) (<[next_chan s := 0]> (watchers s)) (nsWatchers s) (versions s)
     (S (next_chan s))).

(** Go: internal/collect/store.go:75-80 [Unsubscribe] *)
Definition Unsubscribe (ch : nat) (s : StoreState) : StoreState :=
  mkStore (shards s) (delete ch (watchers s)) (nsWatchers s) (versions s) (next_chan s).

(** Go: internal/collect/store.go:82-92 [SubscribeNamespaces] *)
Definition SubscribeNamespaces (s : StoreState) : nat * StoreState :=
  (next_chan s,
   mkStore (shards s) (watchers s) (<[next_chan s := []]> (nsWatchers s)) (versions s)
     (S (next_chan s))).

(** Go: internal/collect/store.go:94-99 [UnsubscribeNamespaces] *)
Definition UnsubscribeNamespaces (ch : nat) (s : StoreState) : StoreState :=
  mkStore (shards s) (watchers s) (delete ch (nsWatchers s)) (versions s) (next_chan s).

(** A non-blocking send into a channel of capacity 1 and of capacity 8. *)
Definition send_signal (pending : nat) : nat := if decide (pending < 1) then S pending else pending.
Definition send_namespace (ns : string) (buf : list string) : list string :=
  if decide (length buf < 8) then buf ++ [ns] else buf.

(** Go: internal/collect/store.go:101-118 [notifyWatchers] *)
Definition notifyWatchers (targetNamespace : string) (s : StoreState) : StoreState :=
  mkStore (shards s) (send_signal <$> watchers s)
    (send_namespace targetNamespace <$> nsWatchers s) (versions s) (next_chan s).

(** Go: internal/collect/store.go:120-122 [targetKey] *)
Definition targetKey (namespace name : string) : string := namespace +:+ "/" +:+ name.

(** Find the shard of a namespace, creating it when it is missing; reads create
    it too. Go: internal/collect/store.go:124-143 [shardFor] *)
Definition shardFor (targetNamespace : string) (s : StoreState) : storeShard * StoreState :=
  match shards s !! targetNamespace with
  | Some sh => (sh, s)
  | None => (∅, set_shards <[targetNamespace := ∅]> s)
  end.

(** Writes made through the shard pointer. *)
Definition write_shard (targetNamespace : string) (sh : storeShard) (s : StoreState) : StoreState :=
  set_shards <[targetNamespace := sh]> s.

(** Go: internal/collect/store.go:166-172 [bumpNamespaceVersion] *)
Definition bumpNamespaceVersion (namespace : string) (s : StoreState) : StoreState :=
  mkStore (shards s) (watchers s) (nsWatchers s)
    (<[namespace := wrapu64 (default 0%Z (versions s !! namespace) + 1)]> (versions s))
    (next_chan s).

(** Go: internal/collect/store.go:174-192 [NamespaceVersion] *)
Definition NamespaceVersion (namespace : string) (s : StoreState) : Z :=
  default 0%Z (versions s !! namespace).

(** Go: internal/collect/store.go:145-164 [Upsert] *)
Definition Upsert (item : Item) (s : StoreState) : StoreState :=
  let '(sh, s) := shardFor (TargetNamespace item) s in
  let bucket := default ∅ (sh !! TargetName item) in
  let sh := <[TargetName item := <[UID item := item]> bucket]> sh in
  let s := write_shard (TargetNamespace item) sh s in
  let s := bumpNamespaceVersion (TargetNamespace item) s in
  notifyWatchers (TargetNamespace item) s.

(** Go: internal/collect/store.go:194-204 [RemoveTarget] *)
Definition RemoveTarget (targetNamespace targetName : string) (s : StoreState) : StoreState :=
  let '(sh, s) := shardFor targetNamespace s in
  let s := write_shard targetNamespace (delete targetName sh) s in
  let s := bumpNamespaceVersion targetNamespace s in
  notifyWatchers targetNamespace s.

(** Go: internal/collect/store.go:206-214 [CountForTarget] *)
Definition CountForTarget (targetNamespace targetName : string) (s : StoreState) : nat * StoreState :=
  let '(sh, s) := shardFor targetNamespace s in
  (size (default ∅ (sh !! targetName)), s).

(** Go: internal/collect/store.go:244-259 [Remove] *)
Definition Remove (targetNamespace targetName uid : string) (s : StoreState) : StoreState :=
  let '(sh, s) := shardFor targetNamespace s in
  let s :=
    match sh !! targetName with
    | None => s
    | Some bucket =>
        let bucket := delete uid bucket in
        let sh := if decide (bucket = ∅) then delete targetName sh
                  else <[targetName := bucket]> sh in
        bumpNamespaceVersion targetNamespace (write_shard targetNamespace sh s)
    end in
  notifyWatchers targetNamespace s.

Section snapshots.
Context `{!MapRange}.

(** Go: internal/collect/store.go:216-234 [SnapshotTarget] *)
Definition SnapshotTarget (targetNamespace targetName : string) (s : StoreState) : list Item * StoreState :=
  let '(sh, s) := shardFor targetNamespace s in
  ((map_range (default ∅ (sh !! targetName))).*2, s).

(** The nested [range] over the buckets of one shard. *)
Definition shard_items (sh : storeShard) : list Item :=
  (map_range sh).*2 ≫= λ bucket, (map_range bucket).*2.

(** Go: internal/collect/store.go:276-291 [SnapshotNamespace] *)
Definition SnapshotNamespace (namespace : string) (s : StoreState) : list Item * StoreState :=
  let '(sh, s) := shardFor namespace s in (shard_items sh, s).

(** Go: internal/collect/store.go:261-274 [CountForNamespace] *)
Definition CountForNamespace (namespace : string) (s : StoreState) : nat * StoreState :=
  let '(sh, s) := shardFor namespace s in
  (sum_list ((λ b, size b) <$> (map_range sh).*2), s).

(** Go: internal/collect/store.go:308-327 [Len] *)
Definition Len (s : StoreState) : nat :=
  sum_list ((λ sh, sum_list ((λ b, size b) <$> (map_range sh).*2)) <$> (map_range (shards s)).*2).

(** Go: internal/collect/store.go:303-306 [TotalCount] *)
Definition TotalCount (s : StoreState) : nat := Len s.

(** Go: internal/collect/store.go:350-370 [snapshotAll] *)
Definition snapshotAll (s : StoreState) : list Item := (map_range (shards s)).*2 ≫= shard_items.

(** Go: internal/collect/store.go:329-334 [NamespaceSummary] *)
Record NamespaceSummary := mkSummary {
  summary_Namespace : string;
  summary_ItemCount : nat;
  summary_Items : list Item;
}.

(** Go: internal/collect/store.go:336-348 [Summary] *)
Definition Summary (namespace : string) (s : StoreState) : NamespaceSummary * StoreState :=
  let '(items, s) := SnapshotNamespace namespace s in
  let items := if decide (namespace = "") then snapshotAll s else items in
  (mkSummary namespace (length items) items, s).
End snapshots.
End Store.

(** * The contract: one flat map of rows *)
Module RowSpec.
Abbreviation key := ((string * string) * string)%type (only parsing).
Abbreviation rows := (gmap ((string * string) * string) Item) (only parsing).

Definition key_of (item : Item) : key := (TargetNamespace item, TargetName item, UID item).

Definition upsert (item : Item) (a : rows) : rows := <[key_of item := item]> a.
Definition remove (ns tn uid : string) (a : rows) : rows := delete (ns, tn, uid) a.
Definition remove_target (ns tn : string) (a : rows) : rows :=
  filter (λ kv, kv.1.1 ≠ (ns, tn)) a.
Definition target_rows (ns tn : string) (a : rows) : rows :=
  filter (λ kv, kv.1.1 = (ns, tn)) a.
Definition namespace_rows (ns : string) (a : rows) : rows :=
  filter (λ kv, kv.1.1.1 = ns) a.
End RowSpec.

(** * Abstraction *)
Section refinement.
Import Store.
Implicit Types (s : Store.StoreState) (a : RowSpec.rows).

(** The rows a store holds. *)
Definition rows (s : Store.StoreState) : RowSpec.rows :=
  map_uncurry (M1 := gmap (string * string)) (M2 := gmap string)
    (map_uncurry (M1 := gmap string) (M2 := gmap string) (M12 := gmap (string * string))
      (Store.shards s)).

Lemma lookup_rows s ns tn uid :
  rows s !! (ns, tn, uid) = Store.shards s !! ns ≫= λ sh, sh !! tn ≫= λ b, b !! uid.
Proof.
  unfold rows. rewrite !lookup_map_uncurry.
  destruct (Store.shards s !! ns); done.
Qed.

Lemma rows_shardFor ns s sh s' : shardFor ns s = (sh, s') → rows s' = rows s.
Proof.
  unfold shardFor. destruct (Store.shards s !! ns) as [sh0|] eqn:Hs; intros [= <- <-]; [done|].
  apply map_eq. intros [[n t] u]. rewrite !lookup_rows. simpl. rewrite lookup_insert.
  case_decide; [subst; by rewrite Hs|done].
Qed.

Lemma shardFor_lookup ns s sh s' :
  shardFor ns s = (sh, s') → Store.shards s' !! ns = Some sh ∧ Store.versions s' = Store.versions s
    ∧ ∀ n, n ≠ ns → Store.shards s' !! n = Store.shards s !! n.
Proof.
  unfold shardFor. destruct (Store.shards s !! ns) as [sh0|] eqn:Hs; intros [= <- <-]; [done|].
  simpl. rewrite lookup_insert_eq. split_and!; [done|done|]. intros n Hn. by rewrite lookup_insert_ne.
Qed.

Lemma shards_notify ns s : Store.shards (notifyWatchers ns s) = Store.shards s.
Proof. done. Qed.
Lemma shards_bump ns s : Store.shards (bumpNamespaceVersion ns s) = Store.shards s.
Proof. done. Qed.

Lemma rows_Upsert item s : rows (Upsert item s) = RowSpec.upsert item (rows s).
Proof.
  unfold Upsert. destruct (shardFor _ s) as [sh s1] eqn:Hsh.
  rewrite <-(rows_shardFor _ _ _ _ Hsh). apply shardFor_lookup in Hsh as (Hsh & _ & _).
  apply map_eq. intros [[n t] u]. unfold RowSpec.upsert, RowSpec.key_of.
  rewrite lookup_insert, !lookup_rows, shards_notify, shards_bump. simpl.
  rewrite lookup_insert. case_decide as H1; simpl.
  - subst n. rewrite Hsh. simpl. rewrite lookup_insert. case_decide as H2; simpl.
    + subst t. rewrite lookup_insert. case_decide as H3; simpl.
      * subst u. by rewrite decide_True.
      * rewrite decide_False by congruence. by destruct (sh !! TargetName item).
    + by rewrite decide_False by congruence.
  - by rewrite decide_False by congruence.
Qed.

Lemma rows_RemoveTarget ns tn s : rows (RemoveTarget ns tn s) = RowSpec.remove_target ns tn (rows s).
Proof.
  unfold RemoveTarget. destruct (shardFor _ s) as [sh s1] eqn:Hsh.
  rewrite <-(rows_shardFor _ _ _ _ Hsh). apply shardFor_lookup in Hsh as (Hsh & _ & _).
  apply map_eq. intros [[n t] u]. unfold RowSpec.remove_target.
  rewrite map_lookup_filter, !lookup_rows, shards_notify, shards_bump. simpl.
  rewrite lookup_insert. case_decide as H1; simpl.
  - subst n. rewrite Hsh. simpl. rewrite lookup_delete. case_decide as H2; simpl.
    + subst t. by destruct (sh !! tn ≫= λ b, b !! u); simpl; rewrite ?option_guard_False by naive_solver.
    + destruct (sh !! t ≫= λ b, b !! u); simpl; [|done].
      by rewrite option_guard_True by naive_solver.
  - destruct (Store.shards s1 !! n ≫= _); simpl; [|done].
    by rewrite option_guard_True by naive_solver.
Qed.

Lemma rows_Remove ns tn uid s : rows (Remove ns tn uid s) = RowSpec.remove ns tn uid (rows s).
Proof.
  unfold Remove. destruct (shardFor _ s) as [sh s1] eqn:Hsh.
  rewrite <-(rows_shardFor _ _ _ _ Hsh). apply shardFor_lookup in Hsh as (Hsh & _ & _).
  apply map_eq. intros [[n t] u]. unfold RowSpec.remove.
  rewrite lookup_delete, !lookup_rows, shards_notify.
  destruct (sh !! tn) as [bucket|] eqn:Hb.
  - rewrite shards_bump. simpl. rewrite lookup_insert.
    destruct (decide (ns = n)) as [<-|]; simpl; [|by rewrite decide_False by congruence].
    rewrite Hsh. simpl.
    destruct (decide (tn = t)) as [<-|].
    + rewrite Hb. simpl. destruct (decide (uid = u)) as [<-|].
      * rewrite (decide_True (P := (ns, tn, uid) = (ns, tn, uid))) by done.
        case_decide; [by rewrite lookup_delete_eq|].
        rewrite lookup_insert_eq. simpl. by rewrite lookup_delete_eq.
      * rewrite (decide_False (P := (ns, tn, uid) = (ns, tn, u))) by congruence.
        case_decide as He.
        -- rewrite lookup_delete_eq. simpl. symmetry.
           rewrite <-(lookup_delete_ne _ uid) by done. by rewrite He.
        -- rewrite lookup_insert_eq. simpl. by rewrite lookup_delete_ne.
    + rewrite (decide_False (P := (ns, tn, uid) = (ns, t, u))) by congruence.
      case_decide; by rewrite ?lookup_delete_ne, ?lookup_insert_ne by done.
  - case_decide as Hk; [|done]. simplify_eq. rewrite Hsh. simpl. by rewrite Hb.
Qed.

(** ** Sequences of operations *)

Inductive op : Type :=
  | OpUpsert (item : Item)
  | OpRemoveTarget (ns tn : string)
  | OpRemove (ns tn uid : string)
  | OpRead (ns : string)
  | OpSubscribe
  | OpUnsubscribe (ch : nat)
  | OpSubscribeNamespaces
  | OpUnsubscribeNamespaces (ch : nat).

(** Every read of one namespace touches the store only through [shardFor]. *)
Definition exec (o : op) (s : Store.StoreState) : Store.StoreState :=
  match o with
  | OpUpsert item => Upsert item s
  | OpRemoveTarget ns tn => RemoveTarget ns tn s
  | OpRemove ns tn uid => Remove ns tn uid s
  | OpRead ns => (shardFor ns s).2
  | OpSubscribe => (Subscribe s).2
  | OpUnsubscribe ch => Unsubscribe ch s
  | OpSubscribeNamespaces => (SubscribeNamespaces s).2
  | OpUnsubscribeNamespaces ch => UnsubscribeNamespaces ch s
  end.

Definition spec_exec (o : op) (a : RowSpec.rows) : RowSpec.rows :=
  match o with
  | OpUpsert item => RowSpec.upsert item a
  | OpRemoveTarget ns tn => RowSpec.remove_target ns tn a
  | OpRemove ns tn uid => RowSpec.remove ns tn uid a
  | _ => a
  end.

Definition run (ops : list op) (s : Store.StoreState) : Store.StoreState := foldl (flip exec) s ops.
Definition spec_run (ops : list op) (a : RowSpec.rows) : RowSpec.rows := foldl (flip spec_exec) a ops.

Lemma rows_exec o s : rows (exec o s) = spec_exec o (rows s).
Proof.
  destruct o; simpl; try done.
  - apply rows_Upsert.
  - apply rows_RemoveTarget.
  - apply rows_Remove.
  - destruct (shardFor ns s) as [sh s'] eqn:H. by apply rows_shardFor in H.
Qed.

Lemma rows_run ops s : rows (run ops s) = spec_run ops (rows s).
Proof.
  revert s. induction ops as [|o ops IH]; intros s; [done|]. simpl. by rewrite IH, rows_exec.
Qed.

Lemma rows_NewStore : rows NewStore = ∅.
Proof. apply map_eq. intros [[n t] u]. by rewrite lookup_rows. Qed.

(** C1. The sharded store implements the flat row map: after any sequence of
    mutations, reads and (un)subscriptions of a new store, the rows it holds are
    those of the specification run on the empty map. *)
Theorem store_refines_rows ops : rows (run ops NewStore) = spec_run ops ∅.
Proof. rewrite rows_run. by rewrite rows_NewStore. Qed.

(** ** Representation invariant *)

(** Items sit under their own keys and no target bucket is empty. *)
Definition store_ok (s : Store.StoreState) : Prop :=
  ∀ ns sh tn b, Store.shards s !! ns = Some sh → sh !! tn = Some b →
    b ≠ ∅ ∧ ∀ uid item, b !! uid = Some item → RowSpec.key_of item = (ns, tn, uid).

Lemma store_ok_shardFor ns s : store_ok s → store_ok (shardFor ns s).2.
Proof.
  intros Hok. unfold shardFor. destruct (Store.shards s !! ns) eqn:Hs; [done|].
  intros n sh tn b Hn Hb. simpl in Hn. rewrite lookup_insert in Hn. case_decide; [|by eapply Hok].
  by simplify_eq.
Qed.

(** Replacing one shard by one that satisfies the bucket condition. *)
Lemma store_ok_write ns sh s :
  store_ok s →
  (∀ tn b, sh !! tn = Some b →
     b ≠ ∅ ∧ ∀ uid item, b !! uid = Some item → RowSpec.key_of item = (ns, tn, uid)) →
  store_ok (write_shard ns sh s).
Proof.
  intros Hok Hsh n sh' tn b Hn Hb. simpl in Hn. rewrite lookup_insert in Hn.
  case_decide; [|by eapply Hok]. simplify_eq. by apply Hsh.
Qed.

Lemma store_ok_exec o s : store_ok s → store_ok (exec o s).
Proof.
  intros Hok. destruct o as [item|ns tn|ns tn uid|ns| | | |]; try exact Hok; simpl;
    [..|by apply store_ok_shardFor].
  - unfold Upsert. pose proof (store_ok_shardFor (TargetNamespace item) s Hok) as Hok1.
    destruct (shardFor _ s) as [sh s1] eqn:Hsh. apply shardFor_lookup in Hsh as (Hsh & _ & _).
    apply store_ok_write; [done|]. intros tn b Hb. rewrite lookup_insert in Hb.
    case_decide; [|by eapply Hok1]. simplify_eq. split; [apply insert_non_empty|].
    intros uid i Hi. rewrite lookup_insert in Hi. case_decide; [by simplify_eq|].
    destruct (sh !! TargetName item) as [b0|] eqn:Hb0; [|done]. by eapply Hok1.
  - unfold RemoveTarget. pose proof (store_ok_shardFor ns s Hok) as Hok1.
    destruct (shardFor _ s) as [sh s1] eqn:Hsh. apply shardFor_lookup in Hsh as (Hsh & _ & _).
    apply store_ok_write; [done|]. intros tn' b [_ Hb]%lookup_delete_Some. by eapply Hok1.
  - unfold Remove. pose proof (store_ok_shardFor ns s Hok) as Hok1.
    destruct (shardFor _ s) as [sh s1] eqn:Hsh. apply shardFor_lookup in Hsh as (Hsh & _ & _).
    destruct (sh !! tn) as [bucket|] eqn:Hb; [|done].
    apply store_ok_write; [done|]. intros tn' b Hb'. case_decide as He.
    + apply lookup_delete_Some in Hb' as [_ Hb']. by eapply Hok1.
    + rewrite lookup_insert in Hb'. case_decide; [|by eapply Hok1]. simplify_eq.
      split; [done|]. intros u i [_ Hi]%lookup_delete_Some. by eapply Hok1.
Qed.

Lemma store_ok_run ops s : store_ok s → store_ok (run ops s).
Proof.
  revert s. induction ops as [|o ops IH]; intros s Hs; [done|]. apply IH. by apply store_ok_exec.
Qed.

Lemma store_ok_NewStore : store_ok NewStore.
Proof. intros ns sh tn b Hn. simpl in Hn. by rewrite lookup_empty in Hn. Qed.

(** Every store reachable from [NewStore] keeps each item under its own
    target namespace, target name and UID, and holds no empty target bucket. *)
Theorem store_run_ok ops : store_ok (run ops NewStore).
Proof. apply store_ok_run, store_ok_NewStore. Qed.

(** ** Namespace versions *)

Lemma version_shardFor ns n s : NamespaceVersion n (shardFor ns s).2 = NamespaceVersion n s.
Proof. unfold shardFor. by destruct (Store.shards s !! ns). Qed.

Lemma version_bump ns n s :
  NamespaceVersion n (bumpNamespaceVersion ns s) =
  if decide (ns = n) then wrapu64 (NamespaceVersion n s + 1) else NamespaceVersion n s.
Proof.
  unfold NamespaceVersion. simpl. rewrite lookup_insert. case_decide; [by subst|done].
Qed.

Lemma version_Upsert item n s :
  NamespaceVersion n (Upsert item s) =
  if decide (TargetNamespace item = n) then wrapu64 (NamespaceVersion n s + 1)
  else NamespaceVersion n s.
Proof.
  unfold Upsert. rewrite <-(version_shardFor (TargetNamespace item) n s).
  destruct (shardFor _ s) as [sh s1]. etrans; [apply version_bump|done].
Qed.

Lemma version_RemoveTarget ns tn n s :
  NamespaceVersion n (RemoveTarget ns tn s) =
  if decide (ns = n) then wrapu64 (NamespaceVersion n s + 1) else NamespaceVersion n s.
Proof.
  unfold RemoveTarget. rewrite <-(version_shardFor ns n s).
  destruct (shardFor _ s) as [sh s1]. etrans; [apply version_bump|done].
Qed.

(** [Remove] bumps the version exactly when the target has a bucket. *)
Lemma version_Remove ns tn uid n s :
  NamespaceVersion n (Remove ns tn uid s) =
  if decide (ns = n ∧ is_Some (Store.shards s !! ns ≫= λ sh, sh !! tn))
  then wrapu64 (NamespaceVersion n s + 1) else NamespaceVersion n s.
Proof.
  assert (Store.shards s !! ns ≫= (λ sh, sh !! tn) = (shardFor ns s).1 !! tn) as ->.
  { unfold shardFor. by destruct (Store.shards s !! ns). }
  unfold Remove. rewrite <-(version_shardFor ns n s).
  destruct (shardFor ns s) as [sh s1]. simpl.
  change (NamespaceVersion n (notifyWatchers ?a ?b)) with (NamespaceVersion n b).
  destruct (sh !! tn) as [b|].
  - rewrite version_bump. destruct (decide (ns = n)) as [->|Hn].
    + rewrite (decide_True (P := n = n ∧ _)); [done|]. by split; [|exists b].
    + rewrite (decide_False (P := ns = n ∧ _)); [done|]. by intros [? _].
  - rewrite decide_False; [done|]. intros [_ [x Hx]]. done.
Qed.

Lemma namespace_rows_ext n a a' :
  (∀ t u, a !! (n, t, u) = a' !! (n, t, u)) →
  RowSpec.namespace_rows n a = RowSpec.namespace_rows n a'.
Proof.
  intros H. apply map_eq. intros [[n' t] u]. apply option_eq. intros i.
  unfold RowSpec.namespace_rows. rewrite !map_lookup_filter_Some. simpl.
  split; intros [Hl ->]; [rewrite H in Hl|rewrite <-H in Hl]; done.
Qed.

(** Rows of a namespace change only together with its version. *)
Lemma exec_version o n s :
  (NamespaceVersion n (exec o s) = NamespaceVersion n s ∧
     RowSpec.namespace_rows n (rows (exec o s)) = RowSpec.namespace_rows n (rows s)) ∨
  NamespaceVersion n (exec o s) = wrapu64 (NamespaceVersion n s + 1).
Proof.
  rewrite rows_exec. destruct o as [item|ns tn|ns tn uid|ns| | | |]; simpl; try by left.
  - rewrite version_Upsert. case_decide; [by right|left]. split; [done|].
    apply namespace_rows_ext. intros t u. apply lookup_insert_ne. unfold RowSpec.key_of. congruence.
  - rewrite version_RemoveTarget. case_decide; [by right|left]. split; [done|].
    apply namespace_rows_ext. intros t u. unfold RowSpec.remove_target. apply option_eq. intros i.
    rewrite map_lookup_filter_Some. naive_solver.
  - rewrite version_Remove. case_decide as Hd; [by right|left]. split; [done|].
    apply namespace_rows_ext. intros t u. unfold RowSpec.remove. rewrite lookup_delete.
    case_decide as Hk; [|done]. simplify_eq. rewrite lookup_rows.
    destruct (Store.shards s !! n) as [sh|]; [|done]. simpl in *.
    destruct (sh !! t) as [b|]; [|done]. destruct Hd. by split; [|exists b].
  - left. by rewrite version_shardFor.
Qed.

Lemma exec_version_range o n s :
  (0 ≤ NamespaceVersion n s < 2 ^ 64)%Z → (0 ≤ NamespaceVersion n (exec o s) < 2 ^ 64)%Z.
Proof.
  intros H. destruct (exec_version o n s) as [[-> _]| ->]; [done|].
  apply Z.mod_pos_bound. lia.
Qed.

(** A run bumps the version of [n] some number of times, at most once per
    operation; with no bump the rows of [n] are unchanged. *)
Lemma run_version ops n s :
  (0 ≤ NamespaceVersion n s < 2 ^ 64)%Z →
  ∃ k : nat, k ≤ length ops ∧
    NamespaceVersion n (run ops s) = wrapu64 (NamespaceVersion n s + Z.of_nat k) ∧
    (k = 0 → RowSpec.namespace_rows n (rows (run ops s)) = RowSpec.namespace_rows n (rows s)).
Proof.
  revert s. induction ops as [|o ops IH]; intros s Hs; simpl.
  - exists 0. split_and!; [done| |done]. rewrite Z.add_0_r. by rewrite wrapu64_id.
  - destruct (IH (exec o s) ltac:(by apply exec_version_range)) as (k & Hk & Hv & Hr).
    unfold run in *. simpl. rewrite Hv.
    destruct (exec_version o n s) as [[Hv0 Hr0]|Hv0].
    + exists k. rewrite Hv0. split_and!; [lia|done|]. intros ->. by rewrite Hr.
    + exists (S k). split_and!; [lia| |lia]. rewrite Hv0. unfold wrapu64.
      rewrite Zplus_mod_idemp_l. f_equal. lia.
Qed.

(** Two reads of [NamespaceVersion] that return the same value, with fewer
    than 2^64 operations in between, guarantee that the rows of that namespace
    have not changed. *)
Theorem same_version_same_rows ops1 ops2 n :
  (Z.of_nat (length ops2) < 2 ^ 64)%Z →
  let s1 := run ops1 NewStore in
  let s2 := run ops2 s1 in
  NamespaceVersion n s2 = NamespaceVersion n s1 →
  RowSpec.namespace_rows n (rows s2) = RowSpec.namespace_rows n (rows s1).
Proof.
  intros Hlen s1 s2 Hv.
  assert (0 ≤ NamespaceVersion n s1 < 2 ^ 64)%Z as Hs1.
  { unfold s1. destruct (run_version ops1 n NewStore) as (k & _ & -> & _); [done|].
    apply Z.mod_pos_bound. lia. }
  destruct (run_version ops2 n s1 Hs1) as (k & Hk & Hv2 & Hr). apply Hr.
  fold s2 in Hv2. rewrite Hv in Hv2. unfold wrapu64 in Hv2.
  destruct (decide (NamespaceVersion n s1 + Z.of_nat k < 2 ^ 64)%Z).
  - rewrite Z.mod_small in Hv2 by lia. lia.
  - rewrite <-(Z_mod_plus_full _ (-1)), Z.mod_small in Hv2 by lia. lia.
Qed.

(** ** Snapshots *)
Section snapshots.
Context `{!MapRange}.

Lemma length_bind_sum {A B} (f : A → list B) (l : list A) :
  length (l ≫= f) = sum_list ((λ x, length (f x)) <$> l).
Proof. induction l as [|x l IH]; [done|]. by rewrite bind_cons, length_app, IH. Qed.

Lemma bind_snd {A B C} (f : B → list C) (l : list (A * B)) :
  l.*2 ≫= f = l ≫= λ kv, f kv.2.
Proof. induction l as [|[a b] l IH]; [done|]. by rewrite fmap_cons, !bind_cons, IH. Qed.

(** The rows of a shard, with their keys. *)
Definition keyed_items (ns : string) (sh : storeShard) : list (RowSpec.key * Item) :=
  map_range sh ≫= λ tb, (λ ui, ((ns, tb.1, ui.1), ui.2)) <$> map_range tb.2.

Lemma keyed_items_snd ns sh : (keyed_items ns sh).*2 = shard_items sh.
Proof.
  unfold keyed_items, shard_items. rewrite bind_snd.
  induction (map_range sh) as [|[t b] l IH]; [done|].
  rewrite !bind_cons, fmap_app, IH. f_equal. by rewrite <-list_fmap_compose.
Qed.

Lemma elem_of_keyed_items ns sh n t u i :
  ((n, t, u), i) ∈ keyed_items ns sh ↔ n = ns ∧ ∃ b, sh !! t = Some b ∧ b !! u = Some i.
Proof.
  unfold keyed_items. rewrite list_elem_of_bind. split.
  - intros ([t' b] & ([u' i'] & [= -> -> -> ->] & Hu)%list_elem_of_fmap & Hb).
    apply elem_of_map_range in Hu, Hb. eauto.
  - intros (-> & b & Hb & Hu). exists (t, b). split; [|by apply elem_of_map_range].
    apply list_elem_of_fmap. exists (u, i). split; [done|]. by apply elem_of_map_range.
Qed.

Lemma NoDup_keyed_items ns sh : NoDup (keyed_items ns sh).
Proof.
  apply NoDup_bind.
  - intros [t1 b1] [t2 b2] [[[n t] u] i] H1 H2
      ([u1 i1] & [= -> -> -> ->] & _)%list_elem_of_fmap
      ([u2 i2] & [= Ht _ _] & _)%list_elem_of_fmap. simpl in Ht. subst t2.
    apply elem_of_map_range in H1, H2. congruence.
  - intros [t b] _. apply NoDup_fmap_2_strong.
    + intros [u1 i1] [u2 i2] _ _. simpl. congruence.
    + eapply NoDup_fmap_1. apply NoDup_map_range.
  - eapply NoDup_fmap_1. apply NoDup_map_range.
Qed.

Lemma keyed_items_rows ns s sh :
  Store.shards s !! ns = Some sh →
  keyed_items ns sh ≡ₚ map_to_list (RowSpec.namespace_rows ns (rows s)).
Proof.
  intros Hsh. apply NoDup_Permutation; [apply NoDup_keyed_items|apply NoDup_map_to_list|].
  intros [[[n t] u] i]. rewrite elem_of_keyed_items, elem_of_map_to_list.
  unfold RowSpec.namespace_rows. rewrite map_lookup_filter_Some, lookup_rows. simpl. split.
  - intros (-> & b & Hb & Hu). rewrite Hsh. simpl. rewrite Hb. done.
  - intros [Hl ->]. rewrite Hsh in Hl. simpl in Hl. split; [done|].
    by apply bind_Some in Hl as (b & Hb & Hu); eauto.
Qed.

Lemma snapshotAll_rows s : snapshotAll s ≡ₚ (map_to_list (rows s)).*2.
Proof.
  assert (snapshotAll s = (map_range (Store.shards s) ≫= λ nsh, keyed_items nsh.1 nsh.2).*2) as ->.
  { unfold snapshotAll. rewrite bind_snd.
    induction (map_range (Store.shards s)) as [|[n sh] l IH]; [done|].
    by rewrite !bind_cons, fmap_app, IH, keyed_items_snd. }
  apply fmap_Permutation, NoDup_Permutation; [|apply NoDup_map_to_list|].
  - apply NoDup_bind.
    + intros [n1 sh1] [n2 sh2] [[[n t] u] i] H1 H2 [-> _]%elem_of_keyed_items
        [Hn _]%elem_of_keyed_items. simpl in Hn. subst n2.
      apply elem_of_map_range in H1, H2. congruence.
    + intros [n sh] _. apply NoDup_keyed_items.
    + eapply NoDup_fmap_1. apply NoDup_map_range.
  - intros [[[n t] u] i]. rewrite list_elem_of_bind, elem_of_map_to_list, lookup_rows. split.
    + intros ([n' sh] & (-> & b & Hb & Hu)%elem_of_keyed_items & Hsh%elem_of_map_range).
      simpl in *. rewrite Hsh. simpl. by rewrite Hb.
    + intros (sh & Hsh & (b & Hb & Hu)%bind_Some)%bind_Some. exists (n, sh).
      split; [|by apply elem_of_map_range]. apply elem_of_keyed_items. eauto.
Qed.

(** The rows of a well-formed store sit under their own keys. *)
Lemma rows_key_of s k item : store_ok s → rows s !! k = Some item → RowSpec.key_of item = k.
Proof.
  destruct k as [[ns tn] uid]. intros Hok. rewrite lookup_rows.
  intros (sh & Hsh & (b & Hb & Hu)%bind_Some)%bind_Some. by eapply (Hok ns sh tn b).
Qed.

(** A namespace snapshot lists the rows of the namespace. *)
Lemma SnapshotNamespace_rows ns s :
  (SnapshotNamespace ns s).1 ≡ₚ (map_to_list (RowSpec.namespace_rows ns (rows s))).*2.
Proof.
  unfold SnapshotNamespace. destruct (shardFor ns s) as [sh s'] eqn:Hsh.
  pose proof (rows_shardFor _ _ _ _ Hsh) as <-.
  apply shardFor_lookup in Hsh as (Hsh & _ & _). simpl.
  by rewrite <- (keyed_items_rows _ _ _ Hsh), keyed_items_snd.
Qed.

(** Reads report the rows: a namespace snapshot lists exactly the rows of
    the namespace, a target snapshot those of the target, each row once and
    in an unspecified order; the counts are the numbers of rows; and no read
    changes the rows. *)
Theorem reads_report_rows ns tn s :
  let '(snap, s1) := SnapshotNamespace ns s in
  let '(tsnap, s2) := SnapshotTarget ns tn s in
  let '(n, s3) := CountForNamespace ns s in
  let '(tn_count, s4) := CountForTarget ns tn s in
  (snap ≡ₚ (map_to_list (RowSpec.namespace_rows ns (rows s))).*2 ∧
   tsnap ≡ₚ (map_to_list (RowSpec.target_rows ns tn (rows s))).*2 ∧
   n = size (RowSpec.namespace_rows ns (rows s)) ∧
   tn_count = size (RowSpec.target_rows ns tn (rows s))) ∧
  snapshotAll s ≡ₚ (map_to_list (rows s)).*2 ∧ Len s = size (rows s) ∧
  rows s1 = rows s ∧ rows s2 = rows s ∧ rows s3 = rows s ∧ rows s4 = rows s.
Proof.
  unfold SnapshotNamespace, SnapshotTarget, CountForNamespace, CountForTarget.
  destruct (shardFor ns s) as [sh s'] eqn:Hsh. pose proof (rows_shardFor _ _ _ _ Hsh) as Hr.
  apply shardFor_lookup in Hsh as (Hsh & _ & _). rewrite <-Hr.
  pose proof (keyed_items_rows _ _ _ Hsh) as Hk.
  assert ((map_range (default ∅ (sh !! tn))).*2
    ≡ₚ (map_to_list (RowSpec.target_rows ns tn (rows s'))).*2) as Ht.
  { transitivity ((λ ui : string * Item, ((ns, tn, ui.1), ui.2))
      <$> map_range (default ∅ (sh !! tn))).*2.
    { by rewrite <-list_fmap_compose. }
    apply fmap_Permutation, NoDup_Permutation; [|apply NoDup_map_to_list|].
    { apply NoDup_fmap_2_strong; [|eapply NoDup_fmap_1, NoDup_map_range].
      intros [u1 i1] [u2 i2] _ _. simpl. congruence. }
    intros [[[n t] u] i]. rewrite list_elem_of_fmap, elem_of_map_to_list.
    unfold RowSpec.target_rows. rewrite map_lookup_filter_Some, lookup_rows. simpl. split.
    - intros ([u' i'] & [= -> -> -> ->] & Hu%elem_of_map_range). rewrite Hsh. simpl.
      destruct (sh !! tn); [done|]. simpl in Hu. by rewrite lookup_empty in Hu.
    - intros [Hl [= -> ->]]. exists (u, i). split; [done|]. apply elem_of_map_range.
      rewrite Hsh in Hl. simpl in Hl. by destruct (sh !! tn). }
  split_and!; try done.
  - rewrite <-keyed_items_snd with (ns := ns). by rewrite Hk.
  - rewrite <-length_map_to_list, <-Hk. unfold keyed_items. rewrite length_bind_sum.
    rewrite <-list_fmap_compose. f_equal. apply list_fmap_ext. intros j [t b] _. simpl.
    by rewrite length_fmap, length_map_range.
  - apply Permutation_length in Ht.
    by rewrite !length_fmap, length_map_range, length_map_to_list in Ht.
  - rewrite Hr. apply snapshotAll_rows.
  - rewrite Hr. pose proof (Permutation_length (snapshotAll_rows s)) as Hl.
    rewrite length_fmap, length_map_to_list in Hl. rewrite <-Hl.
    unfold Len, snapshotAll. rewrite length_bind_sum. f_equal.
    apply list_fmap_ext. intros j sh' _. unfold shard_items. rewrite length_bind_sum.
    f_equal. apply list_fmap_ext. intros j' b _. by rewrite length_fmap, length_map_range.
Qed.
End snapshots.

(** ** Change notification *)

(** The mutations of the store. *)
Definition mutation_ns (o : op) : option string :=
  match o with
  | OpUpsert item => Some (TargetNamespace item)
  | OpRemoveTarget ns _ | OpRemove ns _ _ => Some ns
  | _ => None
  end.

Lemma exec_notifies o ns s :
  mutation_ns o = Some ns →
  Store.watchers (exec o s) = send_signal <$> Store.watchers s ∧
  Store.nsWatchers (exec o s) = send_namespace ns <$> Store.nsWatchers s.
Proof.
  assert (∀ n, Store.watchers (shardFor n s).2 = Store.watchers s ∧
               Store.nsWatchers (shardFor n s).2 = Store.nsWatchers s) as Hsf.
  { intros n. unfold shardFor. by destruct (Store.shards s !! n). }
  intros Ho. destruct o; simplify_eq/=; [unfold Upsert|unfold RemoveTarget|unfold Remove];
    match goal with |- context [shardFor ?n s] =>
      destruct (Hsf n) as [Hw Hn]; destruct (shardFor n s) as [sh s1] end;
    simpl in *; rewrite <-Hw, <-Hn; [done..|by destruct (sh !! tn)].
Qed.

(** No wake-up of [Subscribe] is lost: after a mutation every subscribed
    channel holds a signal. A [SubscribeNamespaces] channel receives the mutated
    namespace exactly when fewer than 8 namespaces are buffered in it; with a
    full buffer the notification is dropped. *)
Theorem mutation_wakes_watchers o ns s :
  mutation_ns o = Some ns →
  (∀ ch n, Store.watchers (exec o s) !! ch = Some n → 0 < n) ∧
  (∀ ch buf, Store.nsWatchers s !! ch = Some buf →
     Store.nsWatchers (exec o s) !! ch =
       Some (if decide (length buf < 8) then buf ++ [ns] else buf)).
Proof.
  intros Ho. destruct (exec_notifies o ns s Ho) as [Hw Hn]. split.
  - intros ch n. rewrite Hw, lookup_fmap. intros (m & _ & ->)%fmap_Some.
    unfold send_signal. case_decide; lia.
  - intros ch buf Hb. by rewrite Hn, lookup_fmap, Hb.
Qed.
End refinement.

(** ** Witnesses *)
Definition demo_item (tn uid : string) : Item :=
  mkItem "team-a" tn "shop" "web" "apps" "v1" "Deployment" uid None.

Lemma same_version_same_rows_witness :
  let s1 := run [OpUpsert (demo_item "t" "u1")] Store.NewStore in
  RowSpec.namespace_rows "team-a"
    (rows (run [OpRead "team-a"; OpRemove "team-b" "t" "u1"] s1)) =
  RowSpec.namespace_rows "team-a" (rows s1).
Proof.
  apply (same_version_same_rows [OpUpsert (demo_item "t" "u1")]
           [OpRead "team-a"; OpRemove "team-b" "t" "u1"] "team-a"); reflexivity.
Defined.

Lemma mutation_wakes_watchers_witness :
  let s := (Store.SubscribeNamespaces (Store.Subscribe Store.NewStore).2).2 in
  Store.nsWatchers (exec (OpUpsert (demo_item "t" "u1")) s) !! 1 = Some ["team-a"].
Proof.
  apply (proj2 (mutation_wakes_watchers (OpUpsert (demo_item "t" "u1")) "team-a"
    (Store.SubscribeNamespaces (Store.Subscribe Store.NewStore).2).2 eq_refl) 1 []).
  reflexivity.
Defined.
