(* ===== verification/Api.v ===== *)
(** The API types the core logic reads, [src/api/v1alpha1], and the parts of the
    Kubernetes libraries it calls.

    The structs are records with the fields of the source; a pointer field is
    an [option], and a nil receiver is [None]. [metav1.LabelSelector] and the
    other library types carry the fields of their published schema, and the
    library functions on them are the methods of a class. *)

From S2P Require Import Prelude GoStrings Values.

(** * Kubernetes library types *)

Abbreviation labels := (gmap string string) (only parsing).

(** A read [m[key]] of a [map[string]string]: a missing key reads as the empty
    string. *)
Definition map_get (key : string) (m : labels) : string := default "" (m !! key).

(** [metav1.LabelSelectorRequirement] and [metav1.LabelSelector]. *)
Record LabelSelectorRequirement := mkRequirement {
  req_key : string;
  req_operator : string;
  req_values : list string;
}.

Record LabelSelector := mkLabelSelector {
  sel_matchLabels : labels;
  sel_matchExpressions : list LabelSelectorRequirement;
}.

(** [labels.Selector]: a predicate on label sets. *)
Abbreviation selector := (gmap string string → bool) (only parsing).

(** [labels.Everything()]. *)
Definition Everything : selector := λ _, true.

(** [schema.GroupVersionResource]. *)
Record GroupVersionResource := mkGVR {
  gvr_Group : string;
  gvr_Version : string;
  gvr_Resource : string;
}.

#[export] Instance gvr_eq_dec : EqDecision GroupVersionResource.
Proof. solve_decision. Defined.
#[export] Instance gvr_countable : Countable GroupVersionResource.
Proof.
  apply (inj_countable' (λ g, (gvr_Group g, gvr_Version g, gvr_Resource g))
           (λ '(a, b, c), mkGVR a b c)).
  by intros [].
Defined.

(** An unstructured object: the decoded JSON document. *)
Abbreviation object := (list (string * value)) (only parsing).

(** * API types *)

(** Go: api/v1alpha1/kollectprofile_types.go:39-52 [GroupVersionKind] *)
Record GroupVersionKind := mkGVK {
  gvk_Group : string;
  gvk_Version : string;
  gvk_Kind : string;
}.

#[export] Instance gvk_eq_dec : EqDecision GroupVersionKind.
Proof. solve_decision. Defined.

(** What the code calls of the Kubernetes libraries: parsing a label selector
    (which may fail), guessing the resource of a kind, and the accessors of
    [unstructured.Unstructured]. *)
Class KubeApi := {
  LabelSelectorAsSelector : LabelSelector → option selector;
  UnsafeGuessKindToResource : GroupVersionKind → GroupVersionResource;
  GetNamespace : object → string;
  GetName : object → string;
  GetLabels : object → labels;
  GetUID : object → string;
  GetGeneration : object → Z;
}.

(** What the code calls of the CEL library. [cel_eval] is [Program.Eval] on the
    activation that binds [object]; its value is a [types.Bool], another
    [ref.Val] with the outcome of converting it to [BoolType], or neither. *)
Inductive cel_out :=
  | CelBool (b : bool)
  | CelVal (converted : option bool)
  | CelOther.

Class CelApi := {
  cel_program : Type;
  cel_compile : string → option cel_program;
  cel_eval : cel_program → object → option cel_out;
}.

(** Go: api/v1alpha1/collection_filter_types.go:35-58 [ResourceRule] *)
Record ResourceRule := mkResourceRule {
  rule_GVK : GroupVersionKind;
  rule_NamespaceSelector : option LabelSelector;
  rule_MatchLabels : labels;
  rule_MatchExpressions : list LabelSelectorRequirement;
  rule_MatchPolicy : string;
}.

(** Go: api/v1alpha1/collection_filter_types.go:10-33 [CollectionFilterSpec] *)
Record CollectionFilterSpec := mkCollectionFilterSpec {
  IncludedNamespaces : list string;
  ExcludedNamespaces : list string;
  NamespaceExcludeSelector : option LabelSelector;
  ResourceRules : list ResourceRule;
}.

(** Go: api/v1alpha1/collection_filter_types.go:78-99 [ScopeCeilingSpec] *)
Record ScopeCeilingSpec := mkScopeCeilingSpec {
  AllowedGVKs : list GroupVersionKind;
  AllowedNamespaces : list string;
  DeniedNamespaces : list string;
  MinExportInterval : option Z;
}.

(** Go: api/v1alpha1/kollectscope_types.go:10-28 [KollectScopeSpec] *)
Record KollectScopeSpec := mkKollectScopeSpec {
  scope_Ceiling : ScopeCeilingSpec;
  scope_SnapshotSinkRefs : list string;
  scope_DatabaseSinkRefs : list string;
  scope_EventSinkRefs : list string;
}.

(** A scope object: its [ObjectMeta] name and its spec.
    Go: api/v1alpha1/kollectscope_types.go:33-40 [KollectScope] *)
Record KollectScope := mkKollectScope {
  scope_Name : string;
  scope_Spec : KollectScopeSpec;
}.

(** Go: api/v1alpha1/kollectclusterscope_types.go:10-34 [KollectClusterScopeSpec] *)
Record KollectClusterScopeSpec := mkKollectClusterScopeSpec {
  cscope_Ceiling : ScopeCeilingSpec;
  cscope_SnapshotSinkRefs : list string;
  cscope_DatabaseSinkRefs : list string;
  cscope_EventSinkRefs : list string;
  cscope_AllowedStaticRefNamespaces : list string;
}.

(** Go: api/v1alpha1/kollectclusterscope_types.go:39-46 [KollectClusterScope] *)
Record KollectClusterScope := mkKollectClusterScope {
  cscope_Name : string;
  cscope_Spec : KollectClusterScopeSpec;
}.

(** Go: api/v1alpha1/kollecttarget_types.go:13-45 [KollectTargetSpec] *)
Record KollectTargetSpec := mkKollectTargetSpec {
  target_ProfileRef : string;
  target_NamespaceSelector : option LabelSelector;
  target_Filter : CollectionFilterSpec;
  target_LabelSelector : option LabelSelector;
  target_Names : list string;
  target_Suspend : bool;
  target_WatchMode : string;
}.

(** The [ObjectMeta] fields the code reads and the spec. *)
Record KollectTarget := mkKollectTarget {
  target_Namespace : string;
  target_Name : string;
  target_Generation : Z;
  target_Spec : KollectTargetSpec;
}.

(** Go: api/v1alpha1/kollectprofile_types.go:54-71 [AttributeSpec] *)
Record AttributeSpec := mkAttributeSpec {
  attr_Name : string;
  attr_Path : string;
  attr_Type : string;
  attr_Optional : bool;
}.

(** * Full-resource export *)

(** Go: api/v1alpha1/export_spec_types.go:66-90 [PruneSpec] *)
Record PruneSpec := mkPruneSpec {
  prune_Defaults : option bool;
  prune_JSONPointers : list string;
  prune_JSONPaths : list string;
  prune_ScrubKeys : list string;
  prune_CEL : list string;
}.

(** Go: api/v1alpha1/export_spec_types.go:32-64 [ExportSpec] *)
Record ExportSpec := mkExportSpec {
  export_Mode : string;
  export_As : string;
  export_Include : string;
  export_DedupeIdentity : option bool;
  export_Prune : option PruneSpec;
}.

Definition ExportModeAttributes : string := "Attributes".
Definition ExportModeResource : string := "Resource".
Definition ExportIncludeMetadataOnly : string := "MetadataOnly".
Definition ExportIncludeSpecOnly : string := "SpecOnly".
Definition ExportIncludeStatusOnly : string := "StatusOnly".
Definition ExportIncludeSpecAndStatus : string := "SpecAndStatus".
Definition ExportIncludeAll : string := "All".
Definition DefaultExportAs : string := "resource".

(** Go: api/v1alpha1/export_spec_types.go:92-95 [ResourceExportEnabled] *)
Definition ResourceExportEnabled (e : option ExportSpec) : bool :=
  match e with
  | None => false
  | Some e => bool_decide (export_Mode e = ExportModeResource)
  end.

(** Go: api/v1alpha1/export_spec_types.go:97-104 [AttributeKey] *)
Definition AttributeKey (e : option ExportSpec) : string :=
  match e with
  | None => DefaultExportAs
  | Some e => if decide (export_As e = "") then DefaultExportAs else export_As e
  end.

(** Go: api/v1alpha1/export_spec_types.go:106-113 [IncludeOrDefault] *)
Definition IncludeOrDefault (e : option ExportSpec) : string :=
  match e with
  | None => ExportIncludeSpecAndStatus
  | Some e => if decide (export_Include e = "") then ExportIncludeSpecAndStatus else export_Include e
  end.

(** Go: api/v1alpha1/export_spec_types.go:115-122 [DedupeIdentityEnabled] *)
Definition DedupeIdentityEnabled (e : option ExportSpec) : bool :=
  match e with
  | None => true
  | Some e => default true (export_DedupeIdentity e)
  end.

(** Go: api/v1alpha1/export_spec_types.go:124-131 [DefaultsEnabled] *)
Definition DefaultsEnabled (p : option PruneSpec) : bool :=
  match p with
  | None => true
  | Some p => default true (prune_Defaults p)
  end.

(** Go: api/v1alpha1/metrics_types.go:6-23 [MetricSpec] *)
Record MetricSpec := mkMetricSpec {
  metric_Name : string;
  metric_Path : string;
  metric_Labels : list string;
}.

(** Go: api/v1alpha1/kollectprofile_types.go:13-37 [KollectProfileSpec] *)
Record KollectProfileSpec := mkKollectProfileSpec {
  profile_TargetGVK : GroupVersionKind;
  profile_Attributes : list AttributeSpec;
  profile_Export : option ExportSpec;
  profile_Metrics : list MetricSpec;
}.

Record KollectProfile := mkKollectProfile {
  profile_Namespace : string;
  profile_Name : string;
  profile_Generation : Z;
  profile_Spec : KollectProfileSpec;
}.

(** * Watch and annotation constants *)
Definition LabelWatch : string := "kollect.dev/watch".
Definition AnnotationNamespaceWatch : string := "kollect.dev/namespace-watch".
Definition WatchValueEnabled : string := "enabled".
Definition WatchValueDisabled : string := "disabled".
Definition WatchModeAll : string := "All".
Definition WatchModeOptIn : string := "OptIn".
Definition AnnotationCollectedGeneration : string := "kollect.dev/collectedGeneration".
Definition NamespaceDefault : string := "default".

(** * Inventories and sink references *)

(** Go: api/v1alpha1/export_interval_types.go:20-44 [InventorySinkRef] *)
Record InventorySinkRef := mkInventorySinkRef {
  ref_Name : string;
  ref_Namespace : string;
  ref_ExportMinInterval : option Z;
  ref_MaxExportBytes : option Z;
}.

#[export] Instance inventory_sink_ref_eq_dec : EqDecision InventorySinkRef.
Proof. solve_decision. Defined.

Abbreviation InventorySinkRefList := (list InventorySinkRef) (only parsing).

(** Go: api/v1alpha1/export_interval_types.go:84-93 [Names] *)
Definition Names (l : InventorySinkRefList) : list string :=
  filter (λ n, n ≠ "") (ref_Name <$> l).

(** Go: api/v1alpha1/export_interval_types.go:95-102 [NewSinkRefList] *)
Definition NewSinkRefList (names : list string) : InventorySinkRefList :=
  (λ n, mkInventorySinkRef n "" None None) <$> names.

(** Go: api/v1alpha1/object_reference.go:8-22 [NamespacedObjectReference] *)
Record NamespacedObjectReference := mkNamespacedObjectReference {
  nref_Name : string;
  nref_Namespace : string;
}.

(** Go: api/v1alpha1/object_reference.go:24-31 [EffectiveNamespace] *)
Definition EffectiveNamespace (r : NamespacedObjectReference) (defaultNamespace : string) : string :=
  if decide (trim_space (nref_Namespace r) ≠ "") then nref_Namespace r else defaultNamespace.

(** Go: api/v1alpha1/object_reference.go:33-36 [IsZero] *)
Definition IsZero (r : NamespacedObjectReference) : bool :=
  bool_decide (trim_space (nref_Name r) = "") && bool_decide (trim_space (nref_Namespace r) = "").

(** Go: api/v1alpha1/kollectinventory_types.go:49-60 [HTTPEndpointConfig] *)
Record HTTPEndpointConfig := mkHTTPEndpointConfig {
  http_Enabled : bool;
  http_Port : Z;
}.

(** Go: api/v1alpha1/kollectinventory_types.go:13-47 [KollectInventorySpec] *)
Record KollectInventorySpec := mkKollectInventorySpec {
  inv_SnapshotSinkRefs : InventorySinkRefList;
  inv_DatabaseSinkRefs : InventorySinkRefList;
  inv_EventSinkRefs : InventorySinkRefList;
  inv_ExportMinInterval : option Z;
  inv_MaxExportBytes : option Z;
  inv_Suspend : bool;
  inv_HTTPEndpoint : option HTTPEndpointConfig;
}.

(** Go: api/v1alpha1/kollectclusterinventory_types.go:16-83 [KollectClusterInventorySpec] *)
Record KollectClusterInventorySpec := mkKollectClusterInventorySpec {
  cinv_ProfileRef : option NamespacedObjectReference;
  cinv_TargetRefs : list string;
  cinv_TargetSelector : option LabelSelector;
  cinv_NamespaceSelector : option LabelSelector;
  cinv_Namespaces : list string;
  cinv_SnapshotSinkRefs : InventorySinkRefList;
  cinv_DatabaseSinkRefs : InventorySinkRefList;
  cinv_EventSinkRefs : InventorySinkRefList;
  cinv_SinkNamespace : string;
  cinv_ExportMinInterval : option Z;
  cinv_Dedupe : string;
  cinv_Suspend : bool;
}.

Definition SinkFamilySnapshot : string := "snapshot".
Definition SinkFamilyDatabase : string := "database".
Definition SinkFamilyEvent : string := "event".

(** Go: api/v1alpha1/inventory_sink_bindings.go:6-11 [InventorySinkBinding] *)
Record InventorySinkBinding := mkInventorySinkBinding {
  binding_Name : string;
  binding_Family : string;
  binding_Ref : InventorySinkRef;
}.

(** Go: api/v1alpha1/inventory_sink_bindings.go:27-40 [collectSinkBindings] *)
Definition collectSinkBindings (snapshot database event : InventorySinkRefList) :
    list InventorySinkBinding :=
  let appendBindings family refs :=
    (λ r, mkInventorySinkBinding (ref_Name r) family r) <$> refs in
  appendBindings SinkFamilySnapshot snapshot ++
  appendBindings SinkFamilyDatabase database ++
  appendBindings SinkFamilyEvent event.

(** Go: api/v1alpha1/inventory_sink_bindings.go:13-18 [CollectInventorySinkBindings] *)
Definition CollectInventorySinkBindings (spec : KollectInventorySpec) : list InventorySinkBinding :=
  collectSinkBindings (inv_SnapshotSinkRefs spec) (inv_DatabaseSinkRefs spec)
    (inv_EventSinkRefs spec).

(** Go: api/v1alpha1/inventory_sink_bindings.go:20-25 [CollectClusterInventorySinkBindings] *)
Definition CollectClusterInventorySinkBindings (spec : KollectClusterInventorySpec) :
    list InventorySinkBinding :=
  collectSinkBindings (cinv_SnapshotSinkRefs spec) (cinv_DatabaseSinkRefs spec)
    (cinv_EventSinkRefs spec).

(** Go: api/v1alpha1/inventory_sink_bindings.go:42-48 [TotalInventorySinkRefCount] *)
Definition TotalInventorySinkRefCount (spec : option KollectInventorySpec) : nat :=
  match spec with
  | None => 0
  | Some spec => length (inv_SnapshotSinkRefs spec) + length (inv_DatabaseSinkRefs spec)
                 + length (inv_EventSinkRefs spec)
  end.

(** Go: api/v1alpha1/inventory_sink_bindings.go:50-56 [TotalClusterInventorySinkRefCount] *)
Definition TotalClusterInventorySinkRefCount (spec : option KollectClusterInventorySpec) : nat :=
  match spec with
  | None => 0
  | Some spec => length (cinv_SnapshotSinkRefs spec) + length (cinv_DatabaseSinkRefs spec)
                 + length (cinv_EventSinkRefs spec)
  end.

(** Go: api/v1alpha1/inventory_sink_bindings.go:58-64 [AllInventorySinkRefLists] *)
Definition AllInventorySinkRefLists (spec : option KollectInventorySpec) :
    list InventorySinkRefList :=
  match spec with
  | None => []
  | Some spec => [inv_SnapshotSinkRefs spec; inv_DatabaseSinkRefs spec; inv_EventSinkRefs spec]
  end.

(** Go: api/v1alpha1/inventory_sink_bindings.go:66-72 [AllClusterInventorySinkRefLists] *)
Definition AllClusterInventorySinkRefLists (spec : option KollectClusterInventorySpec) :
    list InventorySinkRefList :=
  match spec with
  | None => []
  | Some spec => [cinv_SnapshotSinkRefs spec; cinv_DatabaseSinkRefs spec; cinv_EventSinkRefs spec]
  end.

(** Go: api/v1alpha1/inventory_sink_bindings.go:74-77 [ClusterInventoryUsesClusterSinks] *)
Definition ClusterInventoryUsesClusterSinks (spec : option KollectClusterInventorySpec) : bool :=
  bool_decide (0 < TotalClusterInventorySinkRefCount spec).

(** Every reference of the three lists has exactly one binding, and the three
    ways of walking the lists agree on it. *)
Lemma bindings_refs spec :
  binding_Ref <$> CollectInventorySinkBindings spec =
  concat (AllInventorySinkRefLists (Some spec)).
Proof.
  unfold CollectInventorySinkBindings, collectSinkBindings. simpl.
  rewrite !fmap_app, <- !list_fmap_compose.
  change (binding_Ref ∘ ?f) with (@id InventorySinkRef).
  by rewrite !list_fmap_id, List.app_nil_r.
Qed.

Lemma bindings_count spec :
  length (CollectInventorySinkBindings spec) = TotalInventorySinkRefCount (Some spec).
Proof.
  unfold CollectInventorySinkBindings, collectSinkBindings. simpl.
  rewrite !List.length_app, !length_fmap. lia.
Qed.
