(* ===== verification/Filter.v ===== *)
(** Collection filtering, [src/internal/collect/collection_filter.go],
    [filter.go] and the selector helper of [namespace_scope.go]: which
    namespaces and which objects a target collects.

    [MatchIntentNamespaces] ranges over a Go map, so it is parameterised by the
    iteration order; the characterisations below hold for every order. *)

From S2P Require Import Prelude GoStrings Values Api.

(** * Namespaces *)

(** Go: internal/collect/filter.go:17-21 [NamespaceMeta] *)
Record NamespaceMeta := mkNamespaceMeta {
  meta_Labels : labels;
  meta_Annotations : labels;
}.

Definition empty_meta : NamespaceMeta := mkNamespaceMeta ∅ ∅.

(** Go: internal/collect/collection_filter.go:22-26 [NamespaceDefaults] *)
Record NamespaceDefaults := mkNamespaceDefaults {
  defaults_Included : list string;
  defaults_Excluded : list string;
}.

(** Go: internal/collect/collection_filter.go:28-34 [ScopeCeiling] *)
Record ScopeCeiling := mkScopeCeiling {
  ceiling_AllowedNamespaces : list string;
  ceiling_DeniedNamespaces : list string;
}.

(** Go: internal/collect/collection_filter.go:306-314 [containsString] *)
Fixpoint containsString (values : list string) (want : string) : bool :=
  match values with
  | [] => false
  | v :: values => if decide (v = want) then true else containsString values want
  end.

(** The [seen]-map loop of [unionStrings] and [sortedUniqueStrings]: drop the
    empty string and every repetition. *)
Definition unique_nonempty (values : list string) : list string :=
  dedup (filter (λ v, v ≠ "") values).

(** Go: internal/collect/collection_filter.go:316-341 [unionStrings] *)
Definition unionStrings (a b : list string) : list string :=
  match a, b with
  | [], _ => b
  | _, [] => a
  | _, _ => unique_nonempty (a ++ b)
  end.

(** [a < b] on Go strings. *)
Definition string_ltb (a b : string) : bool := negb (bool_decide (String.le b a)).

(** One run of the inner loop of the exchange sort: [x] is [out[i]], the list is
    [out[i+1:]]; every smaller element met is swapped into position [i]. *)
Fixpoint exchange_pass (x : string) (l : list string) : string * list string :=
  match l with
  | [] => (x, [])
  | y :: l =>
      if string_ltb y x then let '(m, l') := exchange_pass y l in (m, x :: l')
      else let '(m, l') := exchange_pass x l in (m, y :: l')
  end.

(** The outer loop, for [n] positions. *)
Fixpoint exchange_sort (n : nat) (l : list string) : list string :=
  match n, l with
  | S n, x :: l => let '(m, l') := exchange_pass x l in m :: exchange_sort n l'
  | _, _ => l
  end.

(** Go: internal/collect/collection_filter.go:343-373 [sortedUniqueStrings] *)
Definition sortedUniqueStrings (values : list string) : list string :=
  let out := unique_nonempty values in
  exchange_sort (length out) out.

Section kube.
Context `{!KubeApi}.

(** Go: internal/collect/namespace_scope.go:12-25 [namespaceMatchesSelector] *)
Definition namespaceMatchesSelector (sel : option LabelSelector) (nsLabels : labels) : bool :=
  match sel with
  | None => true
  | Some sel =>
      match LabelSelectorAsSelector sel with
      | None => false
      | Some matches => matches nsLabels
      end
  end.

(** The guards of the loop body of [MatchIntentNamespaces]. *)
Definition intent_matches (flt : CollectionFilterSpec) (namespaceSelector : option LabelSelector)
    (defaults : NamespaceDefaults) (nsName : string) (meta : NamespaceMeta) : bool :=
  let included := if decide (length (IncludedNamespaces flt) = 0)
                  then defaults_Included defaults else IncludedNamespaces flt in
  let excluded := unionStrings (ExcludedNamespaces flt) (defaults_Excluded defaults) in
  if bool_decide (0 < length included) && negb (containsString included nsName) then false
  else if negb (namespaceMatchesSelector namespaceSelector (meta_Labels meta)) then false
  else if containsString excluded nsName then false
  else match NamespaceExcludeSelector flt with
       | Some _ => negb (namespaceMatchesSelector (NamespaceExcludeSelector flt) (meta_Labels meta))
       | None => true
       end.

(** Go: internal/collect/collection_filter.go:45-84 [MatchIntentNamespaces] *)
Definition MatchIntentNamespaces `{!MapRange} (flt : CollectionFilterSpec)
    (namespaceSelector : option LabelSelector) (nsMeta : gmap string NamespaceMeta)
    (defaults : NamespaceDefaults) : list string :=
  let matched :=
    filter (λ kv, Is_true (intent_matches flt namespaceSelector defaults kv.1 kv.2))
      (map_range nsMeta) in
  sortedUniqueStrings matched.*1.
End kube.

(** Go: internal/collect/collection_filter.go:86-112 [EffectiveNamespaces] *)
Definition EffectiveNamespaces (matched : list string) (ceiling : ScopeCeiling)
    (flt : CollectionFilterSpec) (defaults : NamespaceDefaults) : list string :=
  let excluded := unionStrings (ExcludedNamespaces flt) (defaults_Excluded defaults) in
  let excluded := unionStrings excluded (ceiling_DeniedNamespaces ceiling) in
  let allowed := ceiling_AllowedNamespaces ceiling in
  let effective :=
    filter (λ ns, Is_true
      (if containsString excluded ns then false
       else if bool_decide (0 < length allowed) && negb (containsString allowed ns) then false
       else true)) matched in
  sortedUniqueStrings effective.

(** Go: internal/collect/collection_filter.go:375-385 [ScopeCeilingFromScope] *)
Definition ScopeCeilingFromScope (scope : option KollectScope) : ScopeCeiling :=
  match scope with
  | None => mkScopeCeiling [] []
  | Some s => mkScopeCeiling (AllowedNamespaces (scope_Ceiling (scope_Spec s)))
                (DeniedNamespaces (scope_Ceiling (scope_Spec s)))
  end.

(** Go: internal/collect/collection_filter.go:387-397 [ScopeCeilingFromClusterScope] *)
Definition ScopeCeilingFromClusterScope (scope : option KollectClusterScope) : ScopeCeiling :=
  match scope with
  | None => mkScopeCeiling [] []
  | Some s => mkScopeCeiling (AllowedNamespaces (cscope_Ceiling (cscope_Spec s)))
                (DeniedNamespaces (cscope_Ceiling (cscope_Spec s)))
  end.

(** Go: internal/collect/collection_filter.go:414-421 [CeilingRestrictsNamespaces] *)
Definition CeilingRestrictsNamespaces (ceiling : ScopeCeiling) : bool :=
  bool_decide (0 < length (ceiling_AllowedNamespaces ceiling)) ||
  bool_decide (0 < length (ceiling_DeniedNamespaces ceiling)).

(** Go: internal/collect/collection_filter.go:423-434 [EffectiveNamespaceSet] *)
Definition EffectiveNamespaceSet (namespaces : list string) : gset string :=
  list_to_set namespaces.

(** Go: internal/collect/collection_filter.go:399-412 [ComputeFilterStatus] *)
Definition ComputeFilterStatus `{!KubeApi, !MapRange} (flt : CollectionFilterSpec)
    (namespaceSelector : option LabelSelector) (nsMeta : gmap string NamespaceMeta)
    (ceiling : ScopeCeiling) (defaults : NamespaceDefaults) : list string * list string * nat :=
  let matched := MatchIntentNamespaces flt namespaceSelector nsMeta defaults in
  let effective := EffectiveNamespaces matched ceiling flt defaults in
  (matched, effective, length (ResourceRules flt)).

(** Go: internal/collect/filter.go:53-105 [ShouldCollect] *)
Definition ShouldCollect (resourceLabels : labels) (ns : NamespaceMeta) (target : KollectTarget) :
    bool :=
  let watchMode := if decide (target_WatchMode (target_Spec target) = "") then WatchModeAll
                   else target_WatchMode (target_Spec target) in
  if decide (map_get LabelWatch resourceLabels = WatchValueDisabled) then false
  else if decide (map_get LabelWatch resourceLabels = WatchValueEnabled) then true
  else
    let nsDisabled :=
      bool_decide (map_get LabelWatch (meta_Labels ns) = WatchValueDisabled) ||
      bool_decide (map_get AnnotationNamespaceWatch (meta_Annotations ns) = WatchValueDisabled) in
    let nsEnabled :=
      bool_decide (map_get LabelWatch (meta_Labels ns) = WatchValueEnabled) ||
      bool_decide (map_get AnnotationNamespaceWatch (meta_Annotations ns) = WatchValueEnabled) in
    if nsDisabled then false
    else if decide (watchMode = WatchModeOptIn) then nsEnabled else true.

(** * Resource rules *)
Section rules.
Context `{!KubeApi, !CelApi}.

(** Go: internal/collect/engine.go:1138-1146 [gvrFromProfile] *)
Definition gvrFromProfile (gvk : GroupVersionKind) : GroupVersionResource :=
  UnsafeGuessKindToResource gvk.

(** Go: internal/collect/collection_filter.go:36-43 [CompiledResourceRule] *)
Record CompiledResourceRule := mkCompiledRule {
  compiled_Rule : ResourceRule;
  compiled_GVR : GroupVersionResource;
  compiled_NamespaceSel : option selector;
  compiled_ResourceSel : option selector;
  compiled_MatchPolicyProg : option cel_program;
}.

(** The error sites of [CompileResourceRules]; the number is the rule's index. *)
Inductive compile_error :=
  | ErrGVKRequired (i : nat)
  | ErrNamespaceSelector (i : nat)
  | ErrResourceSelector (i : nat)
  | ErrMatchPolicy (i : nat).

(** Go: internal/collect/collection_filter.go:284-290 [selectorFromOptional] *)
Definition selectorFromOptional (sel : option LabelSelector) : option selector :=
  match sel with
  | None => Some Everything
  | Some sel => LabelSelectorAsSelector sel
  end.

(** Go: internal/collect/collection_filter.go:292-304 [resourceLabelSelector] *)
Definition resourceLabelSelector (matchLabels : labels)
    (matchExpressions : list LabelSelectorRequirement) : option selector :=
  if bool_decide (size matchLabels = 0) && bool_decide (length matchExpressions = 0)
  then Some Everything
  else LabelSelectorAsSelector (mkLabelSelector matchLabels matchExpressions).

(** Go: internal/collect/collection_filter.go:244-261 [compileMatchPolicy] *)
Definition compileMatchPolicy (expr : string) : option cel_program :=
  let expr := trim_space expr in
  if decide (expr = "") then None else cel_compile expr.

(** [None] is an error return.
    Go: internal/collect/collection_filter.go:263-282 [evalMatchPolicy] *)
Definition evalMatchPolicy (prog : cel_program) (obj : object) : option bool :=
  match cel_eval prog obj with
  | None => None
  | Some (CelBool b) => Some b
  | Some (CelVal converted) => converted
  | Some CelOther => None
  end.

(** One iteration of the compile loop. *)
Definition compile_rule (i : nat) (rule : ResourceRule) : result compile_error CompiledResourceRule :=
  if bool_decide (gvk_Version (rule_GVK rule) = "") || bool_decide (gvk_Kind (rule_GVK rule) = "")
  then Err (ErrGVKRequired i)
  else
    match selectorFromOptional (rule_NamespaceSelector rule) with
    | None => Err (ErrNamespaceSelector i)
    | Some nsSel =>
        match resourceLabelSelector (rule_MatchLabels rule) (rule_MatchExpressions rule) with
        | None => Err (ErrResourceSelector i)
        | Some resSel =>
            let compiled prog :=
              mkCompiledRule rule (gvrFromProfile (rule_GVK rule)) (Some nsSel) (Some resSel) prog in
            if decide (trim_space (rule_MatchPolicy rule) = "") then Ok (compiled None)
            else match compileMatchPolicy (rule_MatchPolicy rule) with
                 | None => Err (ErrMatchPolicy i)
                 | Some prog => Ok (compiled (Some prog))
                 end
        end
    end.

Fixpoint compile_from (i : nat) (rules : list ResourceRule) :
    result compile_error (list CompiledResourceRule) :=
  match rules with
  | [] => Ok []
  | rule :: rules =>
      c ← compile_rule i rule; cs ← compile_from (S i) rules; Ok (c :: cs)
  end.

(** Go: internal/collect/collection_filter.go:114-154 [CompileResourceRules] *)
Definition CompileResourceRules (rules : list ResourceRule) :
    result compile_error (list CompiledResourceRule) :=
  compile_from 0 rules.

(** Go: internal/collect/collection_filter.go:206-242 [resourceMatchesLegacy] *)
Definition resourceMatchesLegacy (u : object) (target : KollectTarget) (profile : KollectProfile)
    (gvr : GroupVersionResource) : bool :=
  if decide (gvrFromProfile (profile_TargetGVK (profile_Spec profile)) ≠ gvr) then false
  else if bool_decide (0 < length (target_Names (target_Spec target))) &&
          negb (containsString (target_Names (target_Spec target)) (GetName u)) then false
  else match target_LabelSelector (target_Spec target) with
       | None => true
       | Some sel =>
           match LabelSelectorAsSelector sel with
           | None => false
           | Some matches => matches (GetLabels u)
           end
       end.

(** The namespace an object is attributed to. *)
Definition resource_namespace (u : object) : string :=
  if decide (GetNamespace u = "") then NamespaceDefault else GetNamespace u.

(** The guards of the loop body of [ResourceMatchesRules]. *)
Definition rule_matches (u : object) (gvr : GroupVersionResource) (meta : NamespaceMeta)
    (rule : CompiledResourceRule) : bool :=
  if decide (compiled_GVR rule ≠ gvr) then false
  else if negb (default Everything (compiled_NamespaceSel rule) (meta_Labels meta)) then false
  else if negb (default Everything (compiled_ResourceSel rule) (GetLabels u)) then false
  else match compiled_MatchPolicyProg rule with
       | None => true
       | Some prog => default false (evalMatchPolicy prog u)
       end.

(** Go: internal/collect/collection_filter.go:156-204 [ResourceMatchesRules] *)
Definition ResourceMatchesRules (u : object) (gvr : GroupVersionResource) (target : KollectTarget)
    (profile : KollectProfile) (rules : list CompiledResourceRule)
    (nsMeta : gmap string NamespaceMeta) : bool :=
  if decide (length rules = 0) then resourceMatchesLegacy u target profile gvr
  else
    let meta := default empty_meta (nsMeta !! resource_namespace u) in
    existsb (rule_matches u gvr meta) rules.
End rules.

(** * Lemmas *)

Lemma containsString_true l x : containsString l x = true ↔ x ∈ l.
Proof.
  induction l as [|y l IH]; simpl; [rewrite elem_of_nil; naive_solver|].
  rewrite elem_of_cons. case_decide; naive_solver.
Qed.

Lemma containsString_false l x : containsString l x = false ↔ x ∉ l.
Proof. rewrite <- not_true_iff_false, containsString_true. done. Qed.

#[export] Hint Rewrite containsString_true containsString_false : kollect.

(** [len(allow) > 0 && !containsString(allow, ns)]: the list restricts and the
    name is not on it. *)
Lemma allowlist_rejects l x :
  bool_decide (0 < length l) && negb (containsString l x) = false ↔ l = [] ∨ x ∈ l.
Proof.
  rewrite andb_false_iff, negb_false_iff, containsString_true, bool_decide_eq_false.
  destruct l as [|y l]; simpl; [split; intros _; left; [done|lia]|].
  split; (intros [H|H]; [|by right]); [lia|done].
Qed.

Lemma elem_of_unique_nonempty l x : x ∈ unique_nonempty l ↔ x ∈ l ∧ x ≠ "".
Proof. unfold unique_nonempty. rewrite elem_of_dedup, list_elem_of_filter. naive_solver. Qed.

Lemma NoDup_unique_nonempty l : NoDup (unique_nonempty l).
Proof. apply NoDup_dedup. Qed.

Lemma elem_of_unionStrings a b x : x ≠ "" → x ∈ unionStrings a b ↔ x ∈ a ∨ x ∈ b.
Proof.
  intros Hx. unfold unionStrings. destruct a as [|y a].
  { rewrite elem_of_nil. naive_solver. }
  destruct b as [|z b]; [rewrite elem_of_nil; naive_solver|].
  rewrite elem_of_unique_nonempty, elem_of_app. naive_solver.
Qed.

Lemma string_ltb_true a b : string_ltb a b = true → String.le a b.
Proof.
  unfold string_ltb. rewrite negb_true_iff, bool_decide_eq_false. intros H.
  by destruct (total String.le a b).
Qed.

Lemma string_ltb_false a b : string_ltb a b = false ↔ String.le b a.
Proof. unfold string_ltb. by rewrite negb_false_iff, bool_decide_eq_true. Qed.

(** One pass leaves the least of the remaining elements in position [i]. *)
Lemma exchange_pass_spec x l m l' :
  exchange_pass x l = (m, l') →
  m :: l' ≡ₚ x :: l ∧ length l' = length l ∧ Forall (String.le m) (x :: l').
Proof.
  revert x m l'. induction l as [|y l IH]; intros x m l' H; simplify_eq/=.
  { repeat constructor. reflexivity. }
  destruct (string_ltb y x) eqn:Hc;
    [destruct (exchange_pass y l) as [m' l''] eqn:Hp | destruct (exchange_pass x l) as [m' l''] eqn:Hp];
    simplify_eq; apply IH in Hp as (Hperm & Hlen & [Hx Hle]%Forall_cons).
  - apply string_ltb_true in Hc.
    split_and!; [|simpl; lia|repeat constructor; try done; by trans y].
    by rewrite <- Hperm, Permutation_swap.
  - apply string_ltb_false in Hc.
    split_and!; [|simpl; lia|repeat constructor; try done; by trans x].
    by rewrite (Permutation_swap y x l), <- Hperm, Permutation_swap.
Qed.

Lemma exchange_sort_spec n l :
  length l ≤ n → exchange_sort n l ≡ₚ l ∧ Sorted String.le (exchange_sort n l).
Proof.
  revert l. induction n as [|n IH]; intros [|x l] Hl; simpl in *; try (by repeat constructor); [lia|].
  destruct (exchange_pass x l) as [m l'] eqn:Hp.
  apply exchange_pass_spec in Hp as (Hperm & Hlen & [_ Hle]%Forall_cons).
  destruct (IH l') as [IHp IHs]; [lia|]. split; [by rewrite IHp|].
  constructor; [done|]. rewrite <- IHp in Hle.
  destruct (exchange_sort n l'); [done|]. apply Forall_cons in Hle as [? _]. by constructor.
Qed.

(** The exchange sort computes the same list as any other sort. *)
Lemma sortedUniqueStrings_sort l : sortedUniqueStrings l = sort_strings (unique_nonempty l).
Proof.
  unfold sortedUniqueStrings.
  destruct (exchange_sort_spec (length (unique_nonempty l)) (unique_nonempty l)) as [Hp Hs]; [done|].
  by apply sort_strings_unique.
Qed.

Lemma elem_of_sortedUniqueStrings l x : x ∈ sortedUniqueStrings l ↔ x ∈ l ∧ x ≠ "".
Proof. by rewrite sortedUniqueStrings_sort, elem_of_sort_strings, elem_of_unique_nonempty. Qed.

Lemma NoDup_sortedUniqueStrings l : NoDup (sortedUniqueStrings l).
Proof. rewrite sortedUniqueStrings_sort, sort_strings_perm. apply NoDup_unique_nonempty. Qed.

Lemma sortedUniqueStrings_ext l1 l2 :
  (∀ x, x ∈ l1 ↔ x ∈ l2) → sortedUniqueStrings l1 = sortedUniqueStrings l2.
Proof.
  intros H. rewrite !sortedUniqueStrings_sort.
  apply sort_strings_ext; [apply NoDup_unique_nonempty..|].
  intros x. by rewrite !elem_of_unique_nonempty, H.
Qed.

Lemma sorted_sortedUniqueStrings l : Sorted String.le (sortedUniqueStrings l).
Proof. rewrite sortedUniqueStrings_sort. apply sort_strings_sorted. Qed.

#[export] Hint Resolve NoDup_sortedUniqueStrings sorted_sortedUniqueStrings : kollect.

(** * What a target's namespace intent means *)

(** The allowlist in force: the target's own list, else the defaults'. *)
Definition include_list (flt : CollectionFilterSpec) (d : NamespaceDefaults) : list string :=
  match IncludedNamespaces flt with [] => defaults_Included d | l => l end.

(** A namespace is intended when it exists, the allowlist in force (if any)
    names it, the namespace selector accepts its labels, no denylist names it
    and the exclude selector (if any) does not accept its labels. *)
Definition intended `{!KubeApi} (flt : CollectionFilterSpec) (sel : option LabelSelector)
    (nsMeta : gmap string NamespaceMeta) (d : NamespaceDefaults) (ns : string) : Prop :=
  ns ≠ "" ∧
  (include_list flt d = [] ∨ ns ∈ include_list flt d) ∧
  ns ∉ ExcludedNamespaces flt ∧ ns ∉ defaults_Excluded d ∧
  ∃ meta, nsMeta !! ns = Some meta ∧
    namespaceMatchesSelector sel (meta_Labels meta) = true ∧
    (∀ ex, NamespaceExcludeSelector flt = Some ex →
           namespaceMatchesSelector (Some ex) (meta_Labels meta) = false).

(** What the ceiling and the denylists leave of a list of namespaces. *)
Definition permitted (ceiling : ScopeCeiling) (flt : CollectionFilterSpec) (d : NamespaceDefaults)
    (ns : string) : Prop :=
  ns ∉ ExcludedNamespaces flt ∧ ns ∉ defaults_Excluded d ∧
  ns ∉ ceiling_DeniedNamespaces ceiling ∧
  (ceiling_AllowedNamespaces ceiling = [] ∨ ns ∈ ceiling_AllowedNamespaces ceiling).

Lemma include_list_eq flt d :
  (if decide (length (IncludedNamespaces flt) = 0) then defaults_Included d
   else IncludedNamespaces flt) = include_list flt d.
Proof. unfold include_list. by destruct (IncludedNamespaces flt). Qed.

Section namespaces.
Context `{!KubeApi}.
Implicit Types (flt : CollectionFilterSpec) (d : NamespaceDefaults).

Lemma intent_matches_true flt sel d ns meta :
  ns ≠ "" →
  intent_matches flt sel d ns meta = true ↔
  (include_list flt d = [] ∨ ns ∈ include_list flt d) ∧
  ns ∉ ExcludedNamespaces flt ∧ ns ∉ defaults_Excluded d ∧
  namespaceMatchesSelector sel (meta_Labels meta) = true ∧
  (∀ ex, NamespaceExcludeSelector flt = Some ex →
         namespaceMatchesSelector (Some ex) (meta_Labels meta) = false).
Proof.
  intros Hns. unfold intent_matches. rewrite include_list_eq, <- allowlist_rejects.
  destruct (bool_decide _ && _); [naive_solver|].
  destruct (namespaceMatchesSelector sel (meta_Labels meta)); [|naive_solver].
  simpl negb. cbv iota.
  destruct (containsString _ _) eqn:He.
  { apply containsString_true in He. rewrite elem_of_unionStrings in He by done. naive_solver. }
  apply containsString_false in He. rewrite elem_of_unionStrings in He by done.
  destruct (NamespaceExcludeSelector flt) as [ex|]; [rewrite negb_true_iff|]; naive_solver.
Qed.

Lemma elem_of_MatchIntentNamespaces `{!MapRange} flt sel nsMeta d ns :
  ns ∈ MatchIntentNamespaces flt sel nsMeta d ↔ intended flt sel nsMeta d ns.
Proof.
  unfold MatchIntentNamespaces, intended.
  rewrite elem_of_sortedUniqueStrings, list_elem_of_fmap. split.
  - intros [([n meta] & -> & [Hm Hin]%list_elem_of_filter) Hne]. simpl in *.
    apply elem_of_map_range in Hin. apply Is_true_true, intent_matches_true in Hm; naive_solver.
  - intros (Hne & Hinc & He & Hd & meta & Hl & Hs & Hx). split; [|done].
    exists (ns, meta). split; [done|]. apply list_elem_of_filter.
    split; [|by apply elem_of_map_range]. by apply Is_true_true, intent_matches_true.
Qed.
End namespaces.

Lemma elem_of_EffectiveNamespaces matched ceiling flt d ns :
  ns ∈ EffectiveNamespaces matched ceiling flt d ↔
  ns ∈ matched ∧ ns ≠ "" ∧ permitted ceiling flt d ns.
Proof.
  unfold EffectiveNamespaces, permitted. rewrite elem_of_sortedUniqueStrings, list_elem_of_filter.
  destruct (decide (ns = "")) as [->|Hne]; [naive_solver|].
  rewrite <- allowlist_rejects.
  destruct (containsString _ ns) eqn:He.
  - apply containsString_true in He. rewrite !elem_of_unionStrings in He by done. simpl. naive_solver.
  - apply containsString_false in He. rewrite !elem_of_unionStrings in He by done.
    destruct (bool_decide _ && _); simpl; naive_solver.
Qed.

(** * Properties *)

(** The filter status of a target is exactly its intent cut by the scope
    ceiling: the matched namespaces are the existing namespaces the target
    intends, the effective ones are those the ceiling and every denylist permit,
    both lists are sorted and duplicate-free, and neither depends on the order in
    which the namespace map is ranged over. *)
Theorem filter_status_exact `{!KubeApi} (mr mr' : MapRange) flt sel nsMeta ceiling d :
  let '(matched, effective, n) := @ComputeFilterStatus _ mr flt sel nsMeta ceiling d in
  (∀ ns, ns ∈ matched ↔ intended flt sel nsMeta d ns) ∧
  (∀ ns, ns ∈ effective ↔ intended flt sel nsMeta d ns ∧ permitted ceiling flt d ns) ∧
  (Sorted String.le matched ∧ NoDup matched) ∧ (Sorted String.le effective ∧ NoDup effective) ∧
  @ComputeFilterStatus _ mr' flt sel nsMeta ceiling d = (matched, effective, n).
Proof.
  unfold ComputeFilterStatus. simpl. split_and!.
  - intros ns. apply elem_of_MatchIntentNamespaces.
  - intros ns. rewrite elem_of_EffectiveNamespaces, elem_of_MatchIntentNamespaces.
    unfold intended. naive_solver.
  - unfold MatchIntentNamespaces. auto with kollect.
  - unfold MatchIntentNamespaces. auto with kollect.
  - unfold EffectiveNamespaces. auto with kollect.
  - unfold EffectiveNamespaces. auto with kollect.
  - assert (@MatchIntentNamespaces _ mr' flt sel nsMeta d = @MatchIntentNamespaces _ mr flt sel nsMeta d) as ->; [|done].
    apply sortedUniqueStrings_ext. intros x.
    rewrite !list_elem_of_fmap. by setoid_rewrite list_elem_of_filter; setoid_rewrite map_range_perm.
Qed.

(** The hand-written exchange sort behind every namespace list of the status
    computes the sorted list of the distinct non-empty strings, whatever the
    input. *)
Theorem sortedUniqueStrings_correct l :
  sortedUniqueStrings l = sort_strings (unique_nonempty l) ∧
  (∀ x, x ∈ sortedUniqueStrings l ↔ x ∈ l ∧ x ≠ "") ∧
  NoDup (sortedUniqueStrings l) ∧
  sortedUniqueStrings (sortedUniqueStrings l) = sortedUniqueStrings l.
Proof.
  split_and!; [apply sortedUniqueStrings_sort|apply elem_of_sortedUniqueStrings|auto with kollect|].
  rewrite !sortedUniqueStrings_sort.
  apply sort_strings_ext; [apply NoDup_unique_nonempty..|]. intros x.
  rewrite !elem_of_unique_nonempty, elem_of_sort_strings, elem_of_unique_nonempty. naive_solver.
Qed.

Section rule_semantics.
Context `{!KubeApi, !CelApi}.

(** What one resource rule of the API means for an object, read off the rule as
    the user wrote it: the kinds agree, both selectors parse and accept, and the
    policy (when it is not blank) compiles and evaluates to true. *)
Definition rule_accepts (u : object) (gvr : GroupVersionResource) (nsLabels : labels)
    (rule : ResourceRule) : Prop :=
  UnsafeGuessKindToResource (rule_GVK rule) = gvr ∧
  (∃ m, selectorFromOptional (rule_NamespaceSelector rule) = Some m ∧ m nsLabels = true) ∧
  (∃ m, resourceLabelSelector (rule_MatchLabels rule) (rule_MatchExpressions rule) = Some m ∧
        m (GetLabels u) = true) ∧
  (trim_space (rule_MatchPolicy rule) = "" ∨
   ∃ prog, cel_compile (trim_space (rule_MatchPolicy rule)) = Some prog ∧
           evalMatchPolicy prog u = Some true).

Lemma compile_rule_accepts i rule c u gvr meta :
  compile_rule i rule = Ok c →
  rule_matches u gvr meta c = true ↔ rule_accepts u gvr (meta_Labels meta) rule.
Proof.
  unfold compile_rule, compileMatchPolicy, gvrFromProfile, rule_accepts. intros Hok.
  destruct (bool_decide _ || _); [done|].
  destruct (selectorFromOptional _) as [nsSel|]; [|done].
  destruct (resourceLabelSelector _ _) as [resSel|]; [|done].
  destruct (decide (trim_space (rule_MatchPolicy rule) = "")) as [Hp|Hp];
    [|destruct (cel_compile _) as [prog|] eqn:Hc; [|done]]; simplify_eq;
    unfold rule_matches; simpl;
    (case_decide; [naive_solver|]);
    destruct (nsSel _) eqn:?, (resSel _) eqn:?; simpl; try naive_solver.
  destruct (evalMatchPolicy prog u) as [[]|] eqn:?; naive_solver.
Qed.

Lemma compile_from_exists i rules cs u gvr meta :
  compile_from i rules = Ok cs →
  length cs = length rules ∧
  (existsb (rule_matches u gvr meta) cs = true ↔
   ∃ rule, rule ∈ rules ∧ rule_accepts u gvr (meta_Labels meta) rule).
Proof.
  revert i cs. induction rules as [|rule rules IH]; intros i cs Hok; simpl in Hok.
  { simplify_eq. split; [done|]. setoid_rewrite elem_of_nil. naive_solver. }
  apply result_bind_ok in Hok as (c & Hc & (cs' & Hcs & [= <-])%result_bind_ok).
  apply IH in Hcs as [Hlen Hex]. split; [simpl; lia|].
  setoid_rewrite elem_of_cons. simpl.
  rewrite orb_true_iff, Hex, (compile_rule_accepts _ _ _ _ _ _ Hc). naive_solver.
Qed.
End rule_semantics.

(** Once a target's resource rules compile, an object is accepted exactly
    when one of the rules as written accepts it (the rules form a union, and a
    selector that rejects or a policy that fails to evaluate rejects its rule);
    the compiled list keeps every rule, so a target with rules never falls back
    to the legacy name and label matching. *)
Theorem resource_rules_union `{!KubeApi, !CelApi} rules cs u gvr target profile nsMeta :
  CompileResourceRules rules = Ok cs → rules ≠ [] →
  ResourceMatchesRules u gvr target profile cs nsMeta = true ↔
  ∃ rule, rule ∈ rules ∧
    rule_accepts u gvr (meta_Labels (default empty_meta (nsMeta !! resource_namespace u))) rule.
Proof.
  intros Hc Hne. unfold ResourceMatchesRules.
  destruct (compile_from_exists 0 rules cs u gvr
    (default empty_meta (nsMeta !! resource_namespace u)) Hc) as [Hlen Hex].
  rewrite decide_False; [apply Hex|]. rewrite Hlen. by destruct rules.
Qed.

(** Watch labels take precedence in the documented order: the resource's own
    label decides against everything else; without it a disabled namespace
    refuses; without either the watch mode decides, and opt-in never collects
    what the default mode would not. *)
Theorem watch_precedence lbls ns target :
  let res := map_get LabelWatch lbls in
  let ns_says v := map_get LabelWatch (meta_Labels ns) = v ∨
                   map_get AnnotationNamespaceWatch (meta_Annotations ns) = v in
  (ShouldCollect lbls ns target = true ↔
   res ≠ WatchValueDisabled ∧
   (res = WatchValueEnabled ∨
    ~ ns_says WatchValueDisabled ∧
    (target_WatchMode (target_Spec target) = WatchModeOptIn → ns_says WatchValueEnabled))).
Proof.
  cbv zeta. unfold ShouldCollect.
  destruct (decide (map_get LabelWatch lbls = WatchValueDisabled)) as [Hd|Hd]; [naive_solver|].
  destruct (decide (map_get LabelWatch lbls = WatchValueEnabled)) as [He|He]; [naive_solver|].
  destruct (_ || _) eqn:Hdis.
  { apply orb_true_iff in Hdis. rewrite !bool_decide_eq_true in Hdis. naive_solver. }
  apply orb_false_iff in Hdis. rewrite !bool_decide_eq_false in Hdis.
  destruct (decide (target_WatchMode (target_Spec target) = "")) as [Hm|Hm].
  { rewrite decide_False by done. rewrite Hm. unfold WatchModeOptIn. naive_solver. }
  case_decide; [rewrite orb_true_iff, !bool_decide_eq_true|]; naive_solver.
Qed.

(** * Witnesses *)

(** A small instance of the libraries: a selector accepts when its [matchLabels]
    are included, an object's name and namespace are top-level fields, and the
    only CEL program answers whether the object carries the named field. *)
Definition demo_string (k : string) (o : object) : string :=
  match assoc_get k o with Some (VString s) => s | _ => "" end.

Definition demo_kube : KubeApi := {|
  LabelSelectorAsSelector sel :=
    match sel_matchExpressions sel with
    | [] => Some (λ l, bool_decide (map_Forall (λ k v, l !! k = Some v) (sel_matchLabels sel)))
    | _ => None
    end;
  UnsafeGuessKindToResource gvk := mkGVR (gvk_Group gvk) (gvk_Version gvk) (gvk_Kind gvk);
  GetNamespace := demo_string "namespace";
  GetName := demo_string "name";
  GetLabels o := {[ "app" := demo_string "app" o ]};
  GetUID := demo_string "uid";
  GetGeneration _ := 0%Z;
|}.

Definition demo_cel : CelApi := {|
  cel_program := string;
  cel_compile e := Some e;
  cel_eval e o := Some (CelBool (bool_decide (is_Some (assoc_get e o))));
|}.

Lemma resource_rules_union_witness :
  let _ := demo_kube in let _ := demo_cel in
  let rule app policy := mkResourceRule (mkGVK "" "v1" "Pod") None {[ "app" := app ]} [] policy in
  let u := [("name", VString "p"); ("namespace", VString "ns"); ("app", VString "web");
            ("spec", VNull)] in
  let target := mkKollectTarget "t" "t" 1 (mkKollectTargetSpec "p" None
                  (mkCollectionFilterSpec [] [] None []) None [] false "") in
  let profile := mkKollectProfile "t" "p" 1 (mkKollectProfileSpec (mkGVK "" "v1" "Pod") [] None []) in
  ∃ cs, CompileResourceRules [rule "db" ""; rule "web" " spec "] = Ok cs ∧
  ResourceMatchesRules u (mkGVR "" "v1" "Pod") target profile cs ∅ = true.
Proof.
  intros K C rule u target profile. eexists. split; [reflexivity|].
  apply (resource_rules_union [rule "db" ""; rule "web" " spec "]); [reflexivity|done|].
  exists (rule "web" " spec "). split; [by right; left|].
  split_and!; [done|by exists Everything| |right; by exists "spec"].
  eexists. split; [reflexivity|]. vm_compute. reflexivity.
Defined.
