(* ===== verification/Scope.v ===== *)
(** Tenancy scopes, [src/internal/scope]: loading the scope in force and the
    admission checks against it.

    The client's [List] is a parameter: the definitions take the listed objects,
    or [None] when the call failed. *)

From S2P Require Import Prelude GoStrings Values Api Filter.

(** The violations the checks report, by the value they name. *)
Inductive violation :=
  | ErrListScopes
  | ErrGVKNotAllowed (gvk : GroupVersionKind)
  | ErrNamespaceNotAllowed (ns : string)
  | ErrNamespaceDenied (ns : string)
  | ErrSinkRefNotAllowed (family name : string)
  | ErrStaticRefNamespace (ns : string).

Abbreviation check := (result violation unit) (only parsing).

(** [make(map[string]struct{})] filled from a list and probed: list membership. *)
Definition in_set (l : list string) (x : string) : bool := bool_decide (x ∈ (list_to_set l : gset string)).

(** Go: internal/scope/scope.go:16-21 [Binding] *)
Record Binding := mkBinding {
  Enforced : bool;
  binding_Scope : option KollectScope;
}.

(** [scope := list[0]; for i := 1.. { if list[i].Name < scope.Name {..} }]. *)
Definition least_name {A} (name : A → string) (x : A) (l : list A) : A :=
  fold_left (λ best y, if string_ltb (name y) (name best) then y else best) l x.

(** Go: internal/scope/scope.go:23-42 [Load] *)
Definition Load (listed : option (list KollectScope)) : result violation Binding :=
  match listed with
  | None => Err ErrListScopes
  | Some [] => Ok (mkBinding false None)
  | Some (s :: l) => Ok (mkBinding true (Some (least_name scope_Name s l)))
  end.

(** Go: internal/scope/cluster.go:15-19 [ClusterBinding] *)
Record ClusterBinding := mkClusterBinding {
  cluster_Enforced : bool;
  cluster_Scope : option KollectClusterScope;
}.

(** Go: internal/scope/cluster.go:21-40 [LoadCluster] *)
Definition LoadCluster (listed : option (list KollectClusterScope)) : result violation ClusterBinding :=
  match listed with
  | None => Err ErrListScopes
  | Some [] => Ok (mkClusterBinding false None)
  | Some (s :: l) => Ok (mkClusterBinding true (Some (least_name cscope_Name s l)))
  end.

Section kinds.
Context `{!UnicodeCase}.

(** Go: internal/scope/scope.go:143-147 [gvkMatches] *)
Definition gvkMatches (allowed got : GroupVersionKind) : bool :=
  equal_fold (gvk_Group allowed) (gvk_Group got) &&
  equal_fold (gvk_Version allowed) (gvk_Version got) &&
  equal_fold (gvk_Kind allowed) (gvk_Kind got).

(** Go: internal/scope/scope.go:44-60 [ValidateTargetGVK] *)
Definition ValidateTargetGVK (scope : option KollectScope) (gvk : GroupVersionKind) : check :=
  match scope with
  | None => Ok tt
  | Some s =>
      let allowed := AllowedGVKs (scope_Ceiling (scope_Spec s)) in
      if decide (length allowed = 0) then Ok tt
      else if existsb (λ a, gvkMatches a gvk) allowed then Ok tt
      else Err (ErrGVKNotAllowed gvk)
  end.

(** Go: internal/scope/collection.go:54-70 [ValidateResourceRuleGVKs] *)
Definition ValidateResourceRuleGVKs (scope : option KollectScope) (gvks : list GroupVersionKind) : check :=
  match scope with
  | None => Ok tt
  | Some s =>
      if decide (length (AllowedGVKs (scope_Ceiling (scope_Spec s))) = 0) then Ok tt
      else for_each (ValidateTargetGVK scope) gvks
  end.

(** Go: internal/scope/collection.go:126-145 [ValidateClusterScopeGVKs] *)
Definition ValidateClusterScopeGVKs (scope : option KollectClusterScope) (gvk : GroupVersionKind) : check :=
  match scope with
  | None => Ok tt
  | Some s =>
      let allowed := AllowedGVKs (cscope_Ceiling (cscope_Spec s)) in
      if decide (length allowed = 0) then Ok tt
      else if existsb (λ a, gvkMatches a gvk) allowed then Ok tt
      else Err (ErrGVKNotAllowed gvk)
  end.
End kinds.

(** The allowlist and denylist loops. *)
Definition check_allowed (allowed : list string) (ns : string) : check :=
  if in_set allowed ns then Ok tt else Err (ErrNamespaceNotAllowed ns).
Definition check_denied (denied : list string) (ns : string) : check :=
  if in_set denied ns then Err (ErrNamespaceDenied ns) else Ok tt.

(** Go: internal/scope/scope.go:62-84 [ValidateWorkloadNamespaces] *)
Definition ValidateWorkloadNamespaces (scope : option KollectScope) (namespaces : list string) : check :=
  match scope with
  | None => Ok tt
  | Some s =>
      let allowed := AllowedNamespaces (scope_Ceiling (scope_Spec s)) in
      if decide (length allowed = 0) then Ok tt
      else for_each (check_allowed allowed) namespaces
  end.

(** Go: internal/scope/collection.go:18-39 [ValidateDeniedNamespaces] *)
Definition ValidateDeniedNamespaces (scope : option KollectScope) (namespaces : list string) : check :=
  match scope with
  | None => Ok tt
  | Some s =>
      let denied := DeniedNamespaces (scope_Ceiling (scope_Spec s)) in
      if decide (length denied = 0) then Ok tt
      else for_each (check_denied denied) namespaces
  end.

(** Go: internal/scope/collection.go:41-52 [ValidateTargetIncludedNamespaces] *)
Definition ValidateTargetIncludedNamespaces (scope : option KollectScope) (namespaces : list string) : check :=
  match scope with
  | None => Ok tt
  | Some _ => ValidateDeniedNamespaces scope namespaces;; ValidateWorkloadNamespaces scope namespaces
  end.

(** Go: internal/scope/collection.go:72-93 [ValidateClusterScopeDeniedNamespaces] *)
Definition ValidateClusterScopeDeniedNamespaces (scope : option KollectClusterScope)
    (namespaces : list string) : check :=
  match scope with
  | None => Ok tt
  | Some s =>
      let denied := DeniedNamespaces (cscope_Ceiling (cscope_Spec s)) in
      if decide (length denied = 0) then Ok tt
      else for_each (check_denied denied) namespaces
  end.

(** Go: internal/scope/collection.go:95-124 [ValidateClusterScopeNamespaces] *)
Definition ValidateClusterScopeNamespaces (scope : option KollectClusterScope)
    (namespaces : list string) : check :=
  match scope with
  | None => Ok tt
  | Some s =>
      ValidateClusterScopeDeniedNamespaces scope namespaces;;
      let allowed := AllowedNamespaces (cscope_Ceiling (cscope_Spec s)) in
      if decide (length allowed = 0) then Ok tt
      else for_each (check_allowed allowed) namespaces
  end.

(** Go: internal/scope/scope.go:115-127 [validateRefInAllowlist] *)
Definition validateRefInAllowlist (name : string) (allowed : list string) (family : string) : check :=
  if in_set allowed name then Ok tt else Err (ErrSinkRefNotAllowed family name).

(** The [switch] on the family: [None] is the [default: continue] arm. *)
Definition family_allowlist (snapshot database event : list string) (family : string) :
    option (list string) :=
  if decide (family = SinkFamilySnapshot) then Some snapshot
  else if decide (family = SinkFamilyDatabase) then Some database
  else if decide (family = SinkFamilyEvent) then Some event
  else None.

(** One iteration of the loop over the bindings. *)
Definition check_binding (allow : string → option (list string)) (b : InventorySinkBinding) : check :=
  match allow (binding_Family b) with
  | None => Ok tt
  | Some allowed =>
      if decide (length allowed = 0) then Ok tt
      else validateRefInAllowlist (binding_Name b) allowed (binding_Family b)
  end.

(** Go: internal/scope/scope.go:86-113 [ValidateInventoryFamilySinkRefs] *)
Definition ValidateInventoryFamilySinkRefs (scope : option KollectScope)
    (bindings : list InventorySinkBinding) : check :=
  match scope with
  | None => Ok tt
  | Some s =>
      for_each (check_binding (family_allowlist (scope_SnapshotSinkRefs (scope_Spec s))
        (scope_DatabaseSinkRefs (scope_Spec s)) (scope_EventSinkRefs (scope_Spec s)))) bindings
  end.

(** Go: internal/scope/scope.go:129-141 [ValidateSinkRefs] *)
Definition ValidateSinkRefs (scope : option KollectScope) (refs : list string) : check :=
  match scope with
  | None => Ok tt
  | Some _ =>
      ValidateInventoryFamilySinkRefs scope
        ((λ r, mkInventorySinkBinding r SinkFamilySnapshot (mkInventorySinkRef "" "" None None)) <$> refs)
  end.

(** Go: internal/scope/collection.go:209-239 [ValidateClusterInventoryClusterScopeSinkRefs] *)
Definition ValidateClusterInventoryClusterScopeSinkRefs (scope : option KollectClusterScope)
    (bindings : list InventorySinkBinding) : check :=
  match scope with
  | None => Ok tt
  | Some s =>
      for_each (check_binding (family_allowlist (cscope_SnapshotSinkRefs (cscope_Spec s))
        (cscope_DatabaseSinkRefs (cscope_Spec s)) (cscope_EventSinkRefs (cscope_Spec s)))) bindings
  end.

(** Go: internal/scope/collection.go:147-162 [CollectRuleGVKs] *)
Definition CollectRuleGVKs (flt : CollectionFilterSpec) (profileGVK : GroupVersionKind) :
    list GroupVersionKind :=
  if decide (length (ResourceRules flt) = 0) then [profileGVK] else rule_GVK <$> ResourceRules flt.

(** Go: internal/scope/collection.go:164-187 [NormalizeNamespaceList] *)
Definition NormalizeNamespaceList (values : list string) : list string :=
  unique_nonempty (trim_space <$> values).

(** Go: internal/scope/collection.go:189-207 [ValidateClusterScopeStaticRefNamespace] *)
Definition ValidateClusterScopeStaticRefNamespace (scope : option KollectClusterScope) (ns : string) : check :=
  match scope with
  | None => Ok tt
  | Some s =>
      let allowed := cscope_AllowedStaticRefNamespaces (cscope_Spec s) in
      if decide (length allowed = 0) then Ok tt
      else
        let ns := trim_space ns in
        if containsString allowed ns then Ok tt else Err (ErrStaticRefNamespace ns)
  end.

(** The namespace a binding of a cluster inventory resolves in. *)
Definition binding_namespace (defaultSinkNS : string) (b : InventorySinkBinding) : string :=
  let ns := trim_space (ref_Namespace (binding_Ref b)) in
  if decide (ns = "") then defaultSinkNS else ns.

(** Go: internal/scope/collection.go:241-273 [ClusterInventoryStaticRefNamespaces] *)
Definition ClusterInventoryStaticRefNamespaces (spec : option KollectClusterInventorySpec)
    (defaultSinkNS : string) : list string :=
  match spec with
  | None => []
  | Some spec =>
      let defaultSinkNS := trim_space defaultSinkNS in
      let seen : gset string :=
        match cinv_ProfileRef spec with
        | Some r => let ns := trim_space (nref_Namespace r) in
                    if decide (ns = "") then ∅ else {[ns]}
        | None => ∅
        end in
      let add (seen : gset string) b :=
        let ns := binding_namespace defaultSinkNS b in
        if decide (ns = "") then seen else {[ns]} ∪ seen in
      sort_strings (elements (fold_left add (CollectClusterInventorySinkBindings spec) seen))
  end.

(** * Lemmas *)

Lemma in_set_true l x : in_set l x = true ↔ x ∈ l.
Proof. unfold in_set. by rewrite bool_decide_eq_true, elem_of_list_to_set. Qed.

Lemma in_set_false l x : in_set l x = false ↔ x ∉ l.
Proof. unfold in_set. by rewrite bool_decide_eq_false, elem_of_list_to_set. Qed.

#[export] Hint Rewrite in_set_true in_set_false : kollect.

(** An empty list skips its check. *)
Lemma allow_check_ok allowed nss :
  (if decide (length allowed = 0) then Ok tt else for_each (check_allowed allowed) nss) = Ok tt ↔
  allowed = [] ∨ Forall (λ ns, ns ∈ allowed) nss.
Proof.
  destruct allowed as [|a allowed]; simpl; [by split; auto|].
  rewrite for_each_ok. trans (Forall (λ ns, ns ∈ a :: allowed) nss); [|split; [by right|by intros [?|?]]].
  apply Forall_iff. intros ns. unfold check_allowed. rewrite <- in_set_true.
  destruct (in_set _ _); naive_solver.
Qed.

Lemma deny_check_ok denied nss :
  (if decide (length denied = 0) then Ok tt else for_each (check_denied denied) nss) = Ok tt ↔
  Forall (λ ns, ns ∉ denied) nss.
Proof.
  destruct denied as [|a denied]; simpl.
  { split; [|done]. intros _. apply Forall_forall. intros x _. apply not_elem_of_nil. }
  rewrite for_each_ok. apply Forall_iff. intros ns. unfold check_denied. rewrite <- in_set_false.
  destruct (in_set _ _); naive_solver.
Qed.

Lemma least_name_in {A} (name : A → string) x l : least_name name x l ∈ x :: l.
Proof.
  unfold least_name. revert x. induction l as [|y l IH]; intros x; simpl; [by left|].
  destruct (string_ltb _ _).
  - right. apply IH.
  - specialize (IH x). apply elem_of_cons in IH as [->|H]; [by left|by right; right].
Qed.

Lemma least_name_le {A} (name : A → string) x l y :
  y ∈ x :: l → String.le (name (least_name name x l)) (name y).
Proof.
  unfold least_name. revert x y. induction l as [|z l IH]; intros x y H; simpl.
  { by apply list_elem_of_singleton in H as ->. }
  destruct (string_ltb (name z) (name x)) eqn:Hc.
  - apply elem_of_cons in H as [->|H]; [|by apply IH].
    trans (name z); [apply IH; by left|by apply string_ltb_true].
  - apply string_ltb_false in Hc. rewrite !elem_of_cons in H.
    destruct H as [->|[->|H]]; [apply IH; by left| |apply IH; by right].
    trans (name x); [apply IH; by left|done].
Qed.

Lemma family_allowlist_Some snapshot database event fam l :
  family_allowlist snapshot database event fam = Some l ↔
  fam = SinkFamilySnapshot ∧ l = snapshot ∨ fam = SinkFamilyDatabase ∧ l = database ∨
  fam = SinkFamilyEvent ∧ l = event.
Proof.
  unfold family_allowlist, SinkFamilySnapshot, SinkFamilyDatabase, SinkFamilyEvent.
  repeat case_decide; naive_solver.
Qed.

Lemma check_binding_ok allow b :
  check_binding allow b = Ok tt ↔
  ∀ l, allow (binding_Family b) = Some l → l = [] ∨ binding_Name b ∈ l.
Proof.
  unfold check_binding, validateRefInAllowlist.
  destruct (allow _) as [[|a l]|]; simpl; [naive_solver| |naive_solver].
  destruct (in_set _ _) eqn:Hin.
  - apply in_set_true in Hin. naive_solver.
  - apply in_set_false in Hin. split; [done|]. intros Hl. by destruct (Hl _ eq_refl).
Qed.

(** * Properties *)

(** Admission and collection enforce the same ceiling: a scope admits a list
    of namespaces exactly when every one of them is permitted by the ceiling the
    collector derives from that scope, and then the collector keeps each of the
    (non-empty) names that no denylist of the target or the defaults removes. *)
Theorem admission_agrees_with_ceiling s nss flt d :
  let ceiling := ScopeCeilingFromScope (Some s) in
  (ValidateTargetIncludedNamespaces (Some s) nss = Ok tt ↔
   Forall (λ ns, ns ∉ ceiling_DeniedNamespaces ceiling ∧
     (ceiling_AllowedNamespaces ceiling = [] ∨ ns ∈ ceiling_AllowedNamespaces ceiling)) nss) ∧
  (ValidateTargetIncludedNamespaces (Some s) nss = Ok tt →
   ∀ ns, ns ∈ EffectiveNamespaces nss ceiling flt d ↔
     ns ∈ nss ∧ ns ≠ "" ∧ ns ∉ ExcludedNamespaces flt ∧ ns ∉ defaults_Excluded d).
Proof.
  intros ceiling.
  assert (ValidateTargetIncludedNamespaces (Some s) nss = Ok tt ↔
   Forall (λ ns, ns ∉ ceiling_DeniedNamespaces ceiling ∧
     (ceiling_AllowedNamespaces ceiling = [] ∨ ns ∈ ceiling_AllowedNamespaces ceiling)) nss) as Hv.
  { unfold ValidateTargetIncludedNamespaces. rewrite result_bind_ok.
    trans (Forall (λ ns, ns ∉ ceiling_DeniedNamespaces ceiling) nss ∧
           (ceiling_AllowedNamespaces ceiling = [] ∨
            Forall (λ ns, ns ∈ ceiling_AllowedNamespaces ceiling) nss)).
    - unfold ValidateDeniedNamespaces, ValidateWorkloadNamespaces.
      rewrite <- allow_check_ok, <- deny_check_ok. simpl.
      split; [intros ([] & ? & ?)|intros [? ?]; exists tt]; done.
    - rewrite Forall_and. apply and_iff_compat_l.
      destruct (ceiling_AllowedNamespaces ceiling) as [|a l].
      + split; [|by left]. intros _. apply Forall_forall. by left.
      + trans (Forall (λ ns, ns ∈ a :: l) nss); [split; [by intros [?|?]|by right]|].
        apply Forall_iff. intros ns. split; [by right|by intros [?|?]]. }
  split; [done|]. intros Hok ns. apply Hv in Hok. rewrite Forall_forall in Hok.
  rewrite elem_of_EffectiveNamespaces. unfold permitted. split.
  - intros (? & ? & ? & ? & _). done.
  - intros (Hin & ? & ? & ?). destruct (Hok _ Hin). done.
Qed.

Lemma admission_agrees_with_ceiling_witness :
  let s := mkKollectScope "s" (mkKollectScopeSpec (mkScopeCeilingSpec [] ["a"; "b"] ["c"] None) [] [] []) in
  "a" ∈ EffectiveNamespaces ["a"; "b"] (ScopeCeilingFromScope (Some s))
          (mkCollectionFilterSpec [] ["b"] None []) (mkNamespaceDefaults [] []).
Proof.
  intros s.
  apply (proj2 (admission_agrees_with_ceiling s ["a"; "b"] (mkCollectionFilterSpec [] ["b"] None [])
    (mkNamespaceDefaults [] []))); [vm_compute; reflexivity|].
  split_and!; [by left|done|by intros [?|?%elem_of_nil]%elem_of_cons|by intros ?%elem_of_nil].
Defined.

(** A namespace with several scopes is governed by one of them, the one with
    the least name, whatever the order in which the API server lists them: when
    no two scopes share a name, the choice depends only on the set of scopes. *)
Theorem load_picks_least_name l l' b b' s :
  NoDup (scope_Name <$> l) → l ≡ₚ l' → Load (Some l) = Ok b → Load (Some l') = Ok b' →
  b = b' ∧ Enforced b = bool_decide (l ≠ []) ∧
  (binding_Scope b = Some s → s ∈ l ∧ ∀ t, t ∈ l → String.le (scope_Name s) (scope_Name t)).
Proof.
  intros Hnd Hp Hb Hb'. destruct l as [|x l].
  { apply Permutation_nil in Hp as ->. by simplify_eq/=. }
  destruct l' as [|x' l']; [by apply Permutation_nil_r in Hp|].
  simpl in Hb, Hb'. simplify_eq.
  pose proof (least_name_in scope_Name x l) as H1. pose proof (least_name_in scope_Name x' l') as H2.
  rewrite <- Hp in H2. split_and!; [|done|].
  - do 2 f_equal. apply (NoDup_fmap_elem_eq scope_Name (x :: l)); [done..|].
    apply (anti_symm String.le); apply least_name_le; [done|by rewrite <- Hp].
  - intros [= <-]. split; [done|]. intros t. apply least_name_le.
Qed.

Lemma load_picks_least_name_witness :
  let sc n := mkKollectScope n (mkKollectScopeSpec (mkScopeCeilingSpec [] [] [] None) [] [] []) in
  Load (Some [sc "b"; sc "a"]) = Load (Some [sc "a"; sc "b"]).
Proof.
  intros sc. assert (mkBinding true (Some (sc "a")) = mkBinding true (Some (sc "a"))) as Heq.
  { apply (load_picks_least_name [sc "b"; sc "a"] [sc "a"; sc "b"] _ _ (sc "a")).
    - apply (bool_decide_unpack (NoDup ["b"; "a"])). vm_compute. exact I.
    - apply Permutation_swap.
    - reflexivity.
    - reflexivity. }
  exact (f_equal Ok Heq).
Defined.

(** A scope's sink allowlists bound what an inventory may bind: the check
    passes exactly when every binding of a family with a non-empty allowlist is
    on it, a cluster scope with the same lists gives the same verdict, and a
    failure names the first offending binding. *)
Theorem sink_ref_allowlists s bindings :
  let lists := family_allowlist (scope_SnapshotSinkRefs (scope_Spec s))
                 (scope_DatabaseSinkRefs (scope_Spec s)) (scope_EventSinkRefs (scope_Spec s)) in
  (ValidateInventoryFamilySinkRefs (Some s) bindings = Ok tt ↔
   ∀ b l, b ∈ bindings → lists (binding_Family b) = Some l → l = [] ∨ binding_Name b ∈ l) ∧
  (∀ n c a,
   ValidateClusterInventoryClusterScopeSinkRefs
     (Some (mkKollectClusterScope n (mkKollectClusterScopeSpec c
       (scope_SnapshotSinkRefs (scope_Spec s)) (scope_DatabaseSinkRefs (scope_Spec s))
       (scope_EventSinkRefs (scope_Spec s)) a))) bindings =
   ValidateInventoryFamilySinkRefs (Some s) bindings) ∧
  (∀ e, ValidateInventoryFamilySinkRefs (Some s) bindings = Err e →
   ∃ b l, b ∈ bindings ∧ lists (binding_Family b) = Some l ∧ l ≠ [] ∧ binding_Name b ∉ l ∧
     e = ErrSinkRefNotAllowed (binding_Family b) (binding_Name b)).
Proof.
  intros lists. unfold ValidateInventoryFamilySinkRefs. split_and!; [|done|].
  - rewrite for_each_ok, Forall_forall. setoid_rewrite check_binding_ok. naive_solver.
  - intros e (l1 & b & l2 & -> & _ & He)%for_each_err. unfold check_binding, validateRefInAllowlist in He.
    fold lists in He. destruct (lists (binding_Family b)) as [[|x l]|] eqn:Hl; simplify_eq/=.
    destruct (in_set _ _) eqn:Hin; simplify_eq. apply in_set_false in Hin.
    exists b, (x :: l). split_and!; [set_solver|done..].
Qed.

Lemma elem_of_static_seen defaultSinkNS bs seen x :
  x ∈ fold_left (λ (seen : gset string) b,
        if decide (binding_namespace defaultSinkNS b = "") then seen
        else {[binding_namespace defaultSinkNS b]} ∪ seen) bs seen ↔
  x ∈ seen ∨ x ≠ "" ∧ x ∈ binding_namespace defaultSinkNS <$> bs.
Proof.
  revert seen. induction bs as [|b bs IH]; intros seen; simpl; [rewrite elem_of_nil; naive_solver|].
  rewrite IH, elem_of_cons. case_decide as Hd; [rewrite Hd; naive_solver|].
  rewrite elem_of_union, elem_of_singleton. naive_solver.
Qed.

(** The static namespaces of a cluster inventory are exactly the non-blank
    namespaces of its profile reference and of its sink bindings (with the
    default for those that name none), sorted and without repetition. *)
Theorem static_ref_namespaces_exact spec dflt :
  let l := ClusterInventoryStaticRefNamespaces (Some spec) dflt in
  Sorted String.le l ∧ NoDup l ∧
  ∀ ns, ns ∈ l ↔ ns ≠ "" ∧
    ((∃ r, cinv_ProfileRef spec = Some r ∧ ns = trim_space (nref_Namespace r)) ∨
     (∃ b, b ∈ CollectClusterInventorySinkBindings spec ∧
           ns = binding_namespace (trim_space dflt) b)).
Proof.
  cbv zeta. unfold ClusterInventoryStaticRefNamespaces. split_and!; [auto with kollect| |].
  { rewrite sort_strings_perm. apply NoDup_elements. }
  intros ns. rewrite elem_of_sort_strings, elem_of_elements, elem_of_static_seen, list_elem_of_fmap.
  assert (∀ P Q R : Prop, (P ↔ Q) → (P ∨ ns ≠ "" ∧ R) ↔ Q ∨ ns ≠ "" ∧ R) as Hcase by tauto.
  rewrite (Hcase _ (ns ≠ "" ∧ ∃ r, cinv_ProfileRef spec = Some r ∧ ns = trim_space (nref_Namespace r))).
  - naive_solver.
  - destruct (cinv_ProfileRef spec) as [r|]; [|set_solver].
    case_decide as Hd; [rewrite elem_of_empty; naive_solver|].
    rewrite elem_of_singleton. naive_solver.
Qed.
