(* ===== verification/Errors.v ===== *)
(** Reconcile error classes, [src/internal/errors/errors.go], and the
    aggregation of per-sink export errors of
    [src/internal/controller/per_sink_export.go].

    A Go error is a tree: [errors.New] values are leaves with an identity,
    [fmt.Errorf("%w")] has one child, [errors.Join] a list of them, and the
    package's own wrappers are nodes of their own. [errors.Is] and [errors.As]
    walk the tree in pre-order. *)

From S2P Require Import Prelude GoStrings.

Inductive err : Type :=
  | Leaf (id : nat) (text : string)
  | Wrap (text : string) (e : err)
  | Join (es : list err)
  | ClassError (Class Err : option err)
  | inventoryScopedError (e : err).

(** The sentinels are leaves with the first identities. *)
Definition sentinel_transient : nat := 0.
Definition sentinel_terminal : nat := 1.
Definition sentinel_forbidden : nat := 2.
Definition sentinel_inventory_scoped : nat := 3.

Definition ErrTransient : err := Leaf sentinel_transient "transient".
Definition ErrTerminal : err := Leaf sentinel_terminal "terminal".
Definition ErrForbidden : err := Leaf sentinel_forbidden "forbidden".
Definition ErrInventoryScoped : err := Leaf sentinel_inventory_scoped "inventory-scoped".

Definition ClassTransient : string := "transient".
Definition ClassTerminal : string := "terminal".
Definition ClassForbidden : string := "forbidden".

(** The [Error] methods: [ClassError] and [inventoryScopedError] are
    transparent, [errors.Join] puts a newline between its parts.
    Go: internal/errors/errors.go:34-40 [Error] *)
Fixpoint error_text (e : err) : string :=
  match e with
  | Leaf _ text => text
  | Wrap text _ => text
  | Join es => String.concat (String (ascii_of_nat 10) "") (List.map error_text es)
  | ClassError _ None => ""
  | ClassError _ (Some e) => error_text e
  | inventoryScopedError e => error_text e
  end.

(** [errors.Is] against the leaf with identity [t], with the [Is] and [Unwrap]
    methods of the two wrappers.
    Go: internal/errors/errors.go:42-56 [Is] *)
Fixpoint errors_is (t : nat) (e : err) : bool :=
  match e with
  | Leaf id _ => bool_decide (id = t)
  | Wrap _ e => errors_is t e
  | Join es => existsb (errors_is t) es
  | ClassError c e =>
      match c with Some c => errors_is t c | None => false end ||
      match e with Some e => errors_is t e | None => false end
  | inventoryScopedError e => bool_decide (t = sentinel_inventory_scoped) || errors_is t e
  end.

(** [errors.As(err, &ce)] for [*ClassError]: the [Class] field of the first one
    met in pre-order. *)
Fixpoint as_class_error (e : err) : option (option err) :=
  match e with
  | Leaf _ _ => None
  | Wrap _ e => as_class_error e
  | Join es =>
      (fix first (es : list err) : option (option err) :=
        match es with
        | [] => None
        | e :: es => match as_class_error e with Some c => Some c | None => first es end
        end) es
  | ClassError c _ => Some c
  | inventoryScopedError e => as_class_error e
  end.

(** The predicates of [k8s.io/apimachinery/pkg/api/errors]. *)
Class ApiErrors := {
  api_IsNotFound : err → bool;
  api_IsInvalid : err → bool;
  api_IsBadRequest : err → bool;
  api_IsForbidden : err → bool;
}.

(** Go: internal/errors/errors.go:58-65 [Transient] *)
Definition Transient (e : option err) : option err :=
  match e with None => None | Some _ => Some (ClassError (Some ErrTransient) e) end.

(** Go: internal/errors/errors.go:67-74 [Terminal] *)
Definition Terminal (e : option err) : option err :=
  match e with None => None | Some _ => Some (ClassError (Some ErrTerminal) e) end.

(** Go: internal/errors/errors.go:76-83 [Forbidden] *)
Definition Forbidden (e : option err) : option err :=
  match e with None => None | Some _ => Some (ClassError (Some ErrForbidden) e) end.

(** Go: internal/errors/errors.go:141-149 [Format] *)
Definition Format (class : option err) (msg : err) : err :=
  match class with
  | None => msg
  | Some _ => ClassError class (Some msg)
  end.

(** Go: internal/errors/errors.go:155-165 [InventoryScoped] *)
Definition InventoryScoped (e : option err) : option err :=
  match e with
  | None => None
  | Some e => Terminal (Some (inventoryScopedError e))
  end.

(** Go: internal/errors/errors.go:167-170 [IsInventoryScoped] *)
Definition IsInventoryScoped (e : option err) : bool :=
  match e with None => false | Some e => errors_is sentinel_inventory_scoped e end.

Section classes.
Context `{!ApiErrors}.

(** Go: internal/errors/errors.go:85-108 [ClassOf] *)
Definition ClassOf (e : option err) : string :=
  match e with
  | None => ClassTransient
  | Some e =>
      match as_class_error e with
      | Some (Some c) =>
          if errors_is sentinel_terminal c then ClassTerminal
          else if errors_is sentinel_forbidden c then ClassForbidden
          else ClassTransient
      | _ =>
          if api_IsNotFound e || api_IsInvalid e || api_IsBadRequest e then ClassTerminal
          else if api_IsForbidden e then ClassForbidden
          else ClassTransient
      end
  end.

(** Go: internal/errors/errors.go:110-113 [IsTransient] *)
Definition IsTransient (e : option err) : bool := bool_decide (ClassOf e = ClassTransient).

(** Go: internal/errors/errors.go:115-118 [IsTerminal] *)
Definition IsTerminal (e : option err) : bool := bool_decide (ClassOf e = ClassTerminal).

(** Go: internal/errors/errors.go:120-123 [IsForbidden] *)
Definition IsForbidden (e : option err) : bool := bool_decide (ClassOf e = ClassForbidden).

(** Go: internal/errors/errors.go:125-139 [ClassifyAPI] *)
Definition ClassifyAPI (e : option err) : option err :=
  match e with
  | None => None
  | Some e' =>
      if api_IsNotFound e' || api_IsInvalid e' || api_IsBadRequest e' then Terminal e
      else if api_IsForbidden e' then Forbidden e
      else Transient e
  end.

(** Go: internal/controller/per_sink_export.go:272-293 [aggregateExportErrs] *)
Definition aggregateExportErrs (errs : list err) : option err :=
  match errs with
  | [] => None
  | [e] => Some e
  | _ =>
      let joined := Some (Join errs) in
      if existsb (λ e, negb (IsTerminal (Some e))) errs then Transient joined else Terminal joined
  end.
End classes.

(** Wrapping with [%w] any number of times, with the messages given outermost
    first. *)
Definition wrap_all (msgs : list string) (e : err) : err := foldr Wrap e msgs.

(** * Lemmas *)

Lemma as_class_error_wrap_all msgs e : as_class_error (wrap_all msgs e) = as_class_error e.
Proof. by induction msgs. Qed.

Lemma errors_is_wrap_all t msgs e : errors_is t (wrap_all msgs e) = errors_is t e.
Proof. by induction msgs. Qed.

(** Joining and classifying hides no part from [errors.Is]. *)
Lemma errors_is_class_join t c e es :
  e ∈ es → errors_is t e = true → errors_is t (ClassError c (Some (Join es))) = true.
Proof.
  intros Hin Ht. change (match c with Some c => errors_is t c | None => false end ||
    existsb (errors_is t) es = true).
  apply orb_true_iff. right. apply existsb_exists. exists e. by rewrite <- list_elem_of_In.
Qed.

Section class_lemmas.
Context `{!ApiErrors}.

(** Every class wrapper decides the class, however it is wrapped afterwards and
    whatever it wraps. *)
Lemma ClassOf_class_error msgs c text e :
  ClassOf (Some (wrap_all msgs (ClassError (Some (Leaf c text)) e))) =
  if decide (c = sentinel_terminal) then ClassTerminal
  else if decide (c = sentinel_forbidden) then ClassForbidden else ClassTransient.
Proof.
  unfold ClassOf. rewrite as_class_error_wrap_all. simpl.
  unfold bool_decide. by repeat case_decide.
Qed.

Lemma existsb_nonterminal errs :
  existsb (λ e, negb (IsTerminal (Some e))) errs = false ↔
  Forall (λ e, IsTerminal (Some e) = true) errs.
Proof.
  rewrite <- not_true_iff_false, existsb_exists, Forall_forall.
  setoid_rewrite negb_true_iff. setoid_rewrite <- not_true_iff_false.
  setoid_rewrite list_elem_of_In. split; [|naive_solver].
  intros Hall e He. destruct (IsTerminal (Some e)) eqn:Ht; [done|].
  destruct Hall. exists e. split; [done|]. by rewrite Ht.
Qed.
End class_lemmas.

(** * Properties *)

(** An export to several sinks stops being retried only when every failure
    is terminal: the aggregate of a non-empty list of errors is terminal exactly
    when each of them is, a mixed aggregate of two or more is transient, and
    every sentinel carried by one of the errors is still found in the aggregate. *)
Theorem aggregate_terminal_iff_all `{!ApiErrors} errs :
  (IsTerminal (aggregateExportErrs errs) = true ↔
   errs ≠ [] ∧ Forall (λ e, IsTerminal (Some e) = true) errs) ∧
  (2 ≤ length errs → IsTerminal (aggregateExportErrs errs) = false →
   IsTransient (aggregateExportErrs errs) = true) ∧
  (∀ e t, e ∈ errs → errors_is t e = true →
   ∃ a, aggregateExportErrs errs = Some a ∧ errors_is t a = true).
Proof.
  destruct errs as [|e1 [|e2 errs]].
  - split_and!; [split; [done|naive_solver]|simpl; lia|by intros ?? ?%elem_of_nil].
  - split_and!; [rewrite Forall_singleton; naive_solver|simpl; lia|].
    intros e t ->%list_elem_of_singleton ?. by exists e1.
  - unfold aggregateExportErrs. set (errs' := e1 :: e2 :: errs).
    destruct (existsb _ errs') eqn:He.
    + apply not_false_iff_true in He. rewrite existsb_nonterminal in He.
      split_and!; [naive_solver|done|eauto using errors_is_class_join].
    + apply existsb_nonterminal in He.
      split_and!; [naive_solver|done|eauto using errors_is_class_join].
Qed.

(** A small instance of the API predicates: no error is an API status. *)
Definition no_api_errors : ApiErrors := {|
  api_IsNotFound _ := false; api_IsInvalid _ := false;
  api_IsBadRequest _ := false; api_IsForbidden _ := false |}.

(** The join alone would take the class of its first part: the re-wrap in
    [aggregateExportErrs] is what makes a mixed failure retryable. *)
Example join_takes_first_class :
  let _ := no_api_errors in
  let bad := ClassError (Some ErrTerminal) (Some (Leaf 7 "bad config")) in
  let net := ClassError (Some ErrTransient) (Some (Leaf 8 "timeout")) in
  ClassOf (Some (Join [bad; net])) = ClassTerminal ∧
  ClassOf (aggregateExportErrs [bad; net]) = ClassTransient.
Proof. by vm_compute. Qed.

(** Marking an error as inventory-scoped always makes it terminal, whatever
    class it carried and however it is wrapped afterwards; the marker is found
    through the wrapping, the text is unchanged, and everything [errors.Is] found
    in the original error is still found. *)
Theorem inventory_scoped_always_terminal `{!ApiErrors} e msgs :
  ∃ m, InventoryScoped (Some e) = Some m ∧
    ClassOf (Some (wrap_all msgs m)) = ClassTerminal ∧
    IsInventoryScoped (Some (wrap_all msgs m)) = true ∧
    error_text m = error_text e ∧
    (∀ t, errors_is t e = true → errors_is t (wrap_all msgs m) = true).
Proof.
  eexists. split; [done|]. split_and!.
  - apply (ClassOf_class_error msgs sentinel_terminal).
  - unfold IsInventoryScoped. rewrite errors_is_wrap_all. done.
  - done.
  - intros t Ht. rewrite errors_is_wrap_all. simpl. by rewrite Ht, !orb_true_r.
Qed.

(** Each wrapper reports its own class (the outermost class wins through any
    further wrapping and over any inner class), and classifying an API error
    gives the class [ClassOf] would have reported for it when it carried no class
    yet. *)
Theorem wrappers_decide_class `{!ApiErrors} e msgs :
  (∀ a, Terminal (Some e) = Some a → ClassOf (Some (wrap_all msgs a)) = ClassTerminal) ∧
  (∀ a, Forbidden (Some e) = Some a → ClassOf (Some (wrap_all msgs a)) = ClassForbidden) ∧
  (∀ a, Transient (Some e) = Some a → ClassOf (Some (wrap_all msgs a)) = ClassTransient) ∧
  (as_class_error e = None → ClassOf (ClassifyAPI (Some e)) = ClassOf (Some e)).
Proof.
  split_and!; [intros a [= <-]..|].
  - apply (ClassOf_class_error msgs sentinel_terminal).
  - apply (ClassOf_class_error msgs sentinel_forbidden).
  - apply (ClassOf_class_error msgs sentinel_transient).
  - intros Hn. unfold ClassifyAPI. simpl. rewrite Hn. repeat split_guard; done.
Qed.
