(* ===== verification/Scrub.v ===== *)
(** Redaction of sensitive keys, [src/internal/collect/scrub.go].

    [Scrub] recurses through maps and slices; a redacted entry is replaced by a
    marker map and not visited, and a value of any other Go type is passed on as it
    is. [secret_entry] says which entries are to go, in the words of ADR-0303 and
    not of the code; [scrubbed] relates a value to its scrubbed form and
    [secret_free] says what is left. *)

From S2P Require Import Prelude GoStrings Values.

(** Go: internal/collect/scrub.go:10-26 [defaultScrubKeys] *)
Definition defaultScrubKeys : list string :=
  ["password"; "passwd"; "secret"; "token"; "apikey"; "api_key"; "privatekey"; "private_key";
   "credential"; "auth"; "clientsecret"; "connectionstring"; "authorization";
   "proxyauthorization"; "bearertoken"].

(** Go: internal/collect/scrub.go:28-32 [highRiskStems] *)
Definition highRiskStems : list string := ["authorization"; "bearer"].

Definition scrubReason : string := "sensitive-key".

(** Go: internal/collect/scrub.go:34-39 [redactedValue] *)
Definition redactedValue : value := VMap [("redacted", VBool true); ("reason", VString scrubReason)].

(** Go: internal/collect/scrub.go:41-44 [Scrubber] *)
Record Scrubber := mkScrubber { keys : gset string }.

Section scrub.
Context `{!UnicodeCase}.

(** Go: internal/collect/scrub.go:63-65 [normalizeScrubKey] *)
Definition normalizeScrubKey (key : string) : string := to_lower (trim_space key).

(** Go: internal/collect/scrub.go:46-61 [NewScrubber] *)
Definition NewScrubber (extraKeys : list string) : Scrubber :=
  mkScrubber (list_to_set (normalizeScrubKey <$> defaultScrubKeys) ∪
              list_to_set (filter (λ k, k ≠ "") (normalizeScrubKey <$> extraKeys))).

(** Go: internal/collect/scrub.go:121-144 [isSensitiveKey] *)
Definition isSensitiveKey (s : Scrubber) (key : string) : bool :=
  let normalized := normalizeScrubKey key in
  if decide (normalized = "") then false
  else if decide (normalized ∈ keys s) then true
  else if existsb (λ deny, bool_decide (2 < String.length deny) && has_suffix deny normalized)
            (elements (keys s)) then true
  else existsb (λ stem, has_prefix stem normalized) highRiskStems.

(** Go: internal/collect/scrub.go:146-166 [isCredentialCarrier] *)
Definition isCredentialCarrier (key : string) (val : value) : bool :=
  match val with
  | VMap m =>
      let k := normalizeScrubKey key in
      if decide (k = "valuefrom") then bool_decide (is_Some (assoc_get "secretKeyRef" m))
      else if decide (k = "secretkeyref" ∨ k = "secretref") then true
      else if decide (k = "tls") then bool_decide (is_Some (assoc_get "key" m))
      else false
  | _ => false
  end.

(** Go: internal/collect/scrub.go:113-119 [shouldRedactKey] *)
Definition shouldRedactKey (s : Scrubber) (key : string) (val : value) : bool :=
  if isSensitiveKey s key then true else isCredentialCarrier key val.

(** [Scrub] and [scrubMap]; the default branch returns scalars and values of other
    Go types unchanged.
    Go: internal/collect/scrub.go:81-111 [Scrub] *)
Fixpoint Scrub (s : Scrubber) (v : value) : value :=
  match v with
  | VMap m =>
      VMap (List.map (λ kv, (kv.1, if shouldRedactKey s kv.1 kv.2 then redactedValue
                                   else Scrub s kv.2)) m)
  | VList l => VList (List.map (Scrub s) l)
  | _ => v
  end.

(** Go: internal/collect/scrub.go:67-79 [ScrubAttributes] *)
Definition ScrubAttributes (s : Scrubber) (attrs : list (string * value)) : list (string * value) :=
  List.map (λ kv, (kv.1, Scrub s kv.2)) attrs.

(** * What the scrubber promises *)

(** The keys ADR-0303 denies, and those the code adds for bearer material. *)
Definition denied_words : list string :=
  ["password"; "passwd"; "secret"; "token"; "apikey"; "api_key"; "privatekey"; "private_key"; "credential"; "auth";
   "clientsecret"; "connectionstring"; "authorization"; "proxyauthorization"; "bearertoken"].

(** A key is denied, whatever its case and the blanks around it, when it ends in a
    denied word, is or (for words longer than two bytes) ends in a word the operator
    added, or starts like an authorization or bearer header. *)
Definition denied_key (extra : list string) (key : string) : Prop :=
  let k := to_lower (trim_space key) in
  (∃ w r, w ∈ denied_words ∧ k = r +:+ w) ∨
  (∃ w, w ∈ extra ∧ let w := to_lower (trim_space w) in w ≠ "" ∧ (k = w ∨ 2 < String.length w ∧ ∃ r, k = r +:+ w)) ∨
  ∃ r, k = "authorization" +:+ r ∨ k = "bearer" +:+ r.

(** Credential carriers: [valueFrom.secretKeyRef], a [secretKeyRef] or [secretRef],
    and TLS key material. *)
Definition credential_carrier (key : string) (val : value) : Prop :=
  let k := to_lower (trim_space key) in
  match val with
  | VMap m => k = "valuefrom" ∧ is_Some (assoc_get "secretKeyRef" m) ∨ k = "secretkeyref" ∨ k = "secretref" ∨
              k = "tls" ∧ is_Some (assoc_get "key" m)
  | _ => False
  end.

Definition secret_entry (extra : list string) (key : string) (val : value) : Prop := denied_key extra key ∨ credential_carrier key val.

Definition marker : value := VMap [("redacted", VBool true); ("reason", VString "sensitive-key")].

(** The scrubbed form of a value: in maps and lists at every depth, an entry that is
    to go is the marker, every other one keeps its key and place. *)
Inductive scrubbed (extra : list string) : value → value → Prop :=
  | scrubbed_map m m' :
      Forall2 (λ kv kv', kv'.1 = kv.1 ∧
        (secret_entry extra kv.1 kv.2 ∧ kv'.2 = marker ∨ (secret_entry extra kv.1 kv.2 → False) ∧ scrubbed extra kv.2 kv'.2)) m m' →
      scrubbed extra (VMap m) (VMap m')
  | scrubbed_list l l' : Forall2 (scrubbed extra) l l' → scrubbed extra (VList l) (VList l')
  | scrubbed_leaf v : match v with VMap _ | VList _ => False | _ => True end → scrubbed extra v v.

(** No entry that is to go is left, at any depth of maps and lists. *)
Fixpoint secret_free (extra : list string) (v : value) : Prop :=
  match v with
  | VMap m =>
      (fix go m := match m with
       | [] => True
       | (k, v) :: m => (v = marker ∨ (secret_entry extra k v → False) ∧ secret_free extra v) ∧ go m
       end) m
  | VList l => (fix go l := match l with [] => True | v :: l => secret_free extra v ∧ go l end) l
  | _ => True
  end.

Lemma secret_free_VMap extra m :
  secret_free extra (VMap m) ↔ Forall (λ kv, kv.2 = marker ∨ (secret_entry extra kv.1 kv.2 → False) ∧ secret_free extra kv.2) m.
Proof. simpl. induction m as [|[k v] m IH]; [by split|]. rewrite Forall_cons, <- IH. done. Qed.

Lemma secret_free_VList extra l : secret_free extra (VList l) ↔ Forall (secret_free extra) l.
Proof. simpl. induction l as [|v l IH]; [by split|]. rewrite Forall_cons, <- IH. done. Qed.

(** * The scrubber's own notion *)

(** A fixed point of the scrubber: every entry is the marker or one it would not
    redact. *)
Fixpoint clean (s : Scrubber) (v : value) : Prop :=
  match v with
  | VMap m =>
      (fix go m := match m with
       | [] => True
       | (k, v) :: m =>
           (v = redactedValue ∨ shouldRedactKey s k v = false ∧ clean s v) ∧ go m
       end) m
  | VList l => (fix go l := match l with [] => True | v :: l => clean s v ∧ go l end) l
  | _ => True
  end.

Lemma clean_VMap s m :
  clean s (VMap m) ↔
  Forall (λ kv, kv.2 = redactedValue ∨ shouldRedactKey s kv.1 kv.2 = false ∧ clean s kv.2) m.
Proof.
  simpl. induction m as [|[k v] m IH]; [by split|]. rewrite Forall_cons, <- IH. done.
Qed.

Lemma clean_VList s l : clean s (VList l) ↔ Forall (clean s) l.
Proof. simpl. induction l as [|v l IH]; [by split|]. rewrite Forall_cons, <- IH. done. Qed.

(** The steps of a path and the value a path leads to. *)
Inductive step := Key (k : string) | Index (i : nat).

Fixpoint get_path (p : list step) (v : value) : option value :=
  match p with
  | [] => Some v
  | Key k :: p => match v with VMap m => assoc_get k m ≫= get_path p | _ => None end
  | Index i :: p => match v with VList l => l !! i ≫= get_path p | _ => None end
  end.

(** No entry the path goes through is one the scrubber redacts. *)
Fixpoint path_kept (s : Scrubber) (p : list step) (v : value) : bool :=
  match p with
  | [] => true
  | Key k :: p =>
      match v with
      | VMap m => match assoc_get k m with
                  | Some x => negb (shouldRedactKey s k x) && path_kept s p x
                  | None => false
                  end
      | _ => false
      end
  | Index i :: p =>
      match v with
      | VList l => match l !! i with Some x => path_kept s p x | None => false end
      | _ => false
      end
  end.

(** * Lemmas *)

Lemma assoc_get_map {A B} (f : string → A → B) k (m : list (string * A)) :
  assoc_get k (List.map (λ kv, (kv.1, f kv.1 kv.2)) m) = f k <$> assoc_get k m.
Proof.
  induction m as [|[k' a] m IH]; simpl; [done|]. by case_decide; subst.
Qed.

Lemma keys_map {A B} (f : string → A → B) (m : list (string * A)) :
  (List.map (λ kv, (kv.1, f kv.1 kv.2)) m).*1 = m.*1.
Proof. induction m as [|[k a] m IH]; simpl; by f_equal. Qed.

(** What the scrubber does to one entry. *)
Definition scrub_entry (s : Scrubber) (k : string) (v : value) : value :=
  if shouldRedactKey s k v then redactedValue else Scrub s v.

Lemma Scrub_VMap s m : Scrub s (VMap m) = VMap (List.map (λ kv, (kv.1, scrub_entry s kv.1 kv.2)) m).
Proof. done. Qed.

Lemma assoc_get_scrub s k m :
  assoc_get k (List.map (λ kv, (kv.1, scrub_entry s kv.1 kv.2)) m) = scrub_entry s k <$> assoc_get k m.
Proof. apply (assoc_get_map (scrub_entry s)). Qed.

(** Scrubbing cannot turn a harmless entry into one that must be redacted: keys
    are unchanged and no entry appears. *)
Lemma shouldRedactKey_Scrub s k v :
  shouldRedactKey s k v = false → shouldRedactKey s k (Scrub s v) = false.
Proof.
  unfold shouldRedactKey. destruct (isSensitiveKey s k); [done|].
  destruct v as [| | | | | |m|]; try done.
  rewrite Scrub_VMap. unfold isCredentialCarrier. rewrite !assoc_get_scrub.
  repeat case_decide; try done; rewrite !bool_decide_eq_false; by rewrite fmap_is_Some.
Qed.

Lemma Scrub_clean s v : clean s (Scrub s v).
Proof.
  induction v as [| | | | |l IH|m IH|] using value_ind'; try done.
  - apply clean_VList. apply Forall_map. eapply Forall_impl; [exact IH|]. done.
  - rewrite Scrub_VMap. apply clean_VMap, Forall_map. eapply Forall_impl; [exact IH|].
    intros [k x] Hx. unfold scrub_entry; simpl in *.
    destruct (shouldRedactKey s k x) eqn:Hr; [by left|right].
    split; [by apply shouldRedactKey_Scrub|done].
Qed.

Lemma Scrub_wf s v : wf_value v → wf_value (Scrub s v).
Proof.
  induction v as [| | | | |l IH|m IH|] using value_ind'; try done.
  - rewrite wf_VList. change (Scrub s (VList l)) with (VList (List.map (Scrub s) l)).
    rewrite wf_VList, Forall_map. intros Hl. rewrite Forall_forall in *. auto.
  - rewrite Scrub_VMap, !wf_VMap, (keys_map (scrub_entry s)), Forall_map.
    intros [Hnd Hm]. split; [done|]. rewrite Forall_forall in *.
    intros [k x] Hin. simpl. unfold scrub_entry. destruct (shouldRedactKey s k x).
    + simpl. split; [|done]. apply (bool_decide_unpack (NoDup ["redacted"; "reason"])).
      by vm_compute.
    + by apply (IH _ Hin), (Hm _ Hin).
Qed.

Lemma Scrub_kept s p v x :
  path_kept s p v = true → get_path p v = Some x → get_path p (Scrub s v) = Some (Scrub s x).
Proof.
  revert v. induction p as [|[k|i] p IH]; intros v; [by intros _ [= ->]|..];
    destruct v as [| | | | |l|m|]; try done; simpl path_kept; simpl get_path.
  - destruct (assoc_get k m) as [y|] eqn:Hk; [|done]. simpl.
    intros [Hr Hp]%andb_true_iff Hg. apply negb_true_iff in Hr.
    pose proof (assoc_get_scrub s k m) as Hs. unfold scrub_entry in Hs.
    rewrite Hs, Hk. simpl. rewrite Hr. by apply IH.
  - destruct (l !! i) as [y|] eqn:Hi; [|done]. simpl. intros Hp Hg.
    rewrite list_lookup_fmap, Hi. simpl. by apply IH.
Qed.

(** The first redacted entry of a path is where the marker is. *)
Lemma Scrub_redacted s p k v x :
  path_kept s p v = true → get_path (p ++ [Key k]) v = Some x → shouldRedactKey s k x = true →
  get_path (p ++ [Key k]) (Scrub s v) = Some redactedValue.
Proof.
  revert v. induction p as [|[k'|i] p IH]; intros v Hp Hg Hr; destruct v as [| | | | |l|m|];
    try done; simpl in Hp, Hg |- *.
  - pose proof (assoc_get_scrub s k m) as Hs. unfold scrub_entry in Hs. rewrite Hs.
    destruct (assoc_get k m) as [y|]; simplify_eq/=. by rewrite Hr.
  - pose proof (assoc_get_scrub s k' m) as Hs. unfold scrub_entry in Hs. rewrite Hs.
    destruct (assoc_get k' m) as [y|]; [|done]. simpl in *.
    apply andb_true_iff in Hp as [Hk Hp]. apply negb_true_iff in Hk. rewrite Hk. by apply IH.
  - rewrite list_lookup_fmap. destruct (l !! i) as [y|]; [|done]. by apply IH.
Qed.

(** A scrubber that knows more keys leaves less. *)
Lemma isSensitiveKey_mono s s' k :
  keys s ⊆ keys s' → isSensitiveKey s k = true → isSensitiveKey s' k = true.
Proof.
  intros Hsub. unfold isSensitiveKey. case_decide; [done|].
  destruct (decide (normalizeScrubKey k ∈ keys s)) as [Hin|Hin]; [by rewrite decide_True by auto|].
  case_decide; [done|]. destruct (existsb _ (elements (keys s))) eqn:He.
  - intros _. apply existsb_exists in He as (d & Hd & Hm).
    assert (existsb (λ deny, bool_decide (2 < String.length deny) && has_suffix deny (normalizeScrubKey k))
      (elements (keys s')) = true) as ->; [|done].
    apply existsb_exists. exists d. split; [|done].
    apply list_elem_of_In, elem_of_elements, Hsub, elem_of_elements. by apply list_elem_of_In.
  - by destruct (existsb _ (elements (keys s'))).
Qed.

Lemma clean_mono s s' v : keys s ⊆ keys s' → clean s' v → clean s v.
Proof.
  intros Hsub. induction v as [| | | | |l IH|m IH|] using value_ind'; try done.
  - rewrite !clean_VList, !Forall_forall in *. eauto.
  - rewrite !clean_VMap, !Forall_forall in *. intros Hm [k x] Hin.
    destruct (Hm _ Hin) as [?|[Hr Hc]]; [by left|right]. simpl in *. split; [|by apply (IH _ Hin)].
    unfold shouldRedactKey in *. destruct (isSensitiveKey s k) eqn:Hs; [|by destruct (isSensitiveKey s' k)].
    by rewrite (isSensitiveKey_mono _ _ _ Hsub Hs) in Hr.
Qed.

Lemma NewScrubber_mono ks : keys (NewScrubber []) ⊆ keys (NewScrubber ks).
Proof. unfold NewScrubber. cbn [keys]. intros x. rewrite !elem_of_union. intros [?|Hx]; [by left|]. by apply elem_of_list_to_set, list_elem_of_filter in Hx as [_ ?%elem_of_nil]. Qed.

(** Scrubbing again changes nothing, as long as the keys of the marker itself are
    not declared sensitive. *)
Lemma Scrub_idemp s v :
  isSensitiveKey s "redacted" = false → isSensitiveKey s "reason" = false →
  Scrub s (Scrub s v) = Scrub s v.
Proof.
  intros H1 H2.
  assert (Scrub s redactedValue = redactedValue) as Hm.
  { unfold redactedValue. simpl. unfold shouldRedactKey. by rewrite H1, H2. }
  induction v as [| | | | |l IH|m IH|] using value_ind'; try done.
  - simpl. f_equal. rewrite List.map_map. apply List.map_ext_in.
    intros x Hx%list_elem_of_In. rewrite Forall_forall in IH. auto.
  - rewrite !Scrub_VMap. f_equal. rewrite List.map_map. apply List.map_ext_in.
    intros [k x] Hx%list_elem_of_In. rewrite Forall_forall in IH. simpl. f_equal.
    unfold scrub_entry. destruct (shouldRedactKey s k x) eqn:Hr.
    + rewrite Hm. by destruct (shouldRedactKey s k redactedValue).
    + rewrite (shouldRedactKey_Scrub _ _ _ Hr). apply (IH _ Hx).
Qed.
End scrub.

(** * The scrubber meets its specification *)

Section spec.
Context `{!UnicodeCase}.

Lemma default_words : normalizeScrubKey <$> defaultScrubKeys = denied_words.
Proof. by vm_compute. Qed.

Lemma denied_words_long w : w ∈ denied_words → 2 < String.length w.
Proof. revert w. apply Forall_forall. apply (bool_decide_unpack (Forall _ denied_words)). vm_compute. exact I. Qed.

Lemma elem_of_keys extra w :
  w ∈ keys (NewScrubber extra) ↔ w ∈ denied_words ∨ ∃ e, e ∈ extra ∧ w = to_lower (trim_space e) ∧ w ≠ "".
Proof.
  unfold NewScrubber. cbn [keys]. rewrite default_words, elem_of_union, !elem_of_list_to_set, list_elem_of_filter, list_elem_of_fmap.
  unfold normalizeScrubKey. naive_solver.
Qed.

Lemma isSensitiveKey_spec extra k : isSensitiveKey (NewScrubber extra) k = true ↔ denied_key extra k.
Proof.
  unfold isSensitiveKey, denied_key, normalizeScrubKey. cbv zeta. set (n := to_lower (trim_space k)).
  assert (∀ w, w ∈ keys (NewScrubber extra) → (n = w ∨ 2 < String.length w ∧ ∃ r, n = r +:+ w) → denied_key extra k) as Hin.
  { intros w [Hw|(e & He & -> & Hne)]%elem_of_keys Hn; [left; exists w|right; left; by exists e].
    destruct Hn as [Hn|[_ [r Hn]]]; [by exists ""|by exists r]. }
  split.
  - case_decide as Hne; [done|]. case_decide as Hk; [intros _; apply (Hin n); auto|].
    destruct (existsb _ (elements _)) eqn:He.
    + intros _. apply existsb_exists in He as (w & Hw & [Hl%bool_decide_eq_true Hs%has_suffix_true]%andb_true_iff).
      apply (Hin w); [by apply elem_of_elements, list_elem_of_In|by right].
    + cbn. rewrite orb_false_r, orb_true_iff, !has_prefix_true. intros [[r Hr]|[r Hr]]; right; right; exists r; auto.
  - assert (∀ w, w ∈ keys (NewScrubber extra) → 2 < String.length w → (∃ r, n = r +:+ w) →
      existsb (λ deny, bool_decide (2 < String.length deny) && has_suffix deny n) (elements (keys (NewScrubber extra))) = true) as Hsuf.
    { intros w Hw Hl Hr. apply existsb_exists. exists w. rewrite <- list_elem_of_In, elem_of_elements. split; [done|].
      apply andb_true_iff. by rewrite bool_decide_eq_true, has_suffix_true. }
    assert (∀ w r, 0 < String.length w → n = r +:+ w ∨ n = w +:+ r → n ≠ "") as Hlong.
    { intros w r Hl Hn ->. destruct Hn as [Hn|Hn]; apply (f_equal String.length) in Hn; rewrite length_app in Hn; cbn in Hn; lia. }
    intros [(w & r & Hw & Hr)|[(e & He & Hne & Hr)|[r Hr]]].
    + pose proof (denied_words_long w Hw). rewrite decide_False by (apply (Hlong w r); [lia|auto]). case_decide; [done|].
      rewrite (Hsuf w); [done|by apply elem_of_keys; left|done|by exists r].
    + assert (to_lower (trim_space e) ∈ keys (NewScrubber extra)) as Hk by (apply elem_of_keys; right; by exists e).
      destruct Hr as [Hr|[Hl [r Hr]]].
      * rewrite Hr. rewrite decide_False by done. by rewrite decide_True.
      * rewrite decide_False by (apply (Hlong (to_lower (trim_space e)) r); [lia|auto]). case_decide; [done|].
        rewrite (Hsuf _ Hk Hl); [done|by exists r].
    + assert (has_prefix "authorization" n || has_prefix "bearer" n = true) as Hp.
      { apply orb_true_iff. rewrite !has_prefix_true. destruct Hr as [Hr|Hr]; [left|right]; by exists r. }
      rewrite decide_False by (destruct Hr; [apply (Hlong "authorization" r)|apply (Hlong "bearer" r)]; cbn; auto; lia).
      case_decide; [done|]. destruct (existsb _ (elements _)); [done|]. cbn. by rewrite orb_false_r.
Qed.

Lemma isCredentialCarrier_spec k v : isCredentialCarrier k v = true ↔ credential_carrier k v.
Proof.
  unfold isCredentialCarrier, credential_carrier, normalizeScrubKey. destruct v as [| | | | | |m|]; try done. cbv zeta.
  set (n := to_lower (trim_space k)). repeat case_decide; rewrite ?bool_decide_eq_true; naive_solver congruence.
Qed.

Lemma shouldRedactKey_spec extra k v : shouldRedactKey (NewScrubber extra) k v = true ↔ secret_entry extra k v.
Proof.
  unfold shouldRedactKey, secret_entry. rewrite <- isSensitiveKey_spec, <- isCredentialCarrier_spec.
  destruct (isSensitiveKey _ k); naive_solver.
Qed.

Lemma shouldRedactKey_spec_false extra k v : shouldRedactKey (NewScrubber extra) k v = false ↔ (secret_entry extra k v → False).
Proof. rewrite <- shouldRedactKey_spec. by destruct (shouldRedactKey _ k v); naive_solver. Qed.

Lemma clean_secret_free extra v : clean (NewScrubber extra) v → secret_free extra v.
Proof.
  induction v as [| | | | |l IH|m IH|] using value_ind'; try done.
  - rewrite clean_VList, secret_free_VList, !Forall_forall in *. eauto.
  - rewrite clean_VMap, secret_free_VMap, !Forall_forall in *. intros Hm kv Hin.
    destruct (Hm kv Hin) as [?|[Hr Hc]]; [by left|right]. rewrite shouldRedactKey_spec_false in Hr. auto.
Qed.

Lemma Scrub_scrubbed extra v : scrubbed extra v (Scrub (NewScrubber extra) v).
Proof.
  induction v as [| | | | |l IH|m IH|] using value_ind'; try by constructor.
  - constructor. apply Forall2_fmap_r. by apply Forall_Forall2_diag.
  - rewrite Scrub_VMap. constructor. apply Forall2_fmap_r, Forall_Forall2_diag. eapply Forall_impl; [exact IH|].
    intros [k x] Hx. simpl in *. split; [done|]. unfold scrub_entry. destruct (shouldRedactKey (NewScrubber extra) k x) eqn:Hr.
    + left. split; [by apply shouldRedactKey_spec|reflexivity].
    + right. split; [by apply shouldRedactKey_spec_false|done].
Qed.

(** A value scrubbed with more keys than the built-in ones. *)
Lemma Scrub_secret_free ks v : secret_free [] (Scrub (NewScrubber ks) v).
Proof. apply clean_secret_free, (clean_mono _ (NewScrubber ks)), Scrub_clean. apply NewScrubber_mono. Qed.
End spec.

(** * Properties *)

(** C15. Scrubbing redacts what it should and nothing else, in maps and lists at any
    depth: exactly the entries ADR-0303 denies (keys that end in a denied word or in
    one of the operator's, whatever their case, keys that start like a bearer header,
    and the credential carriers) are replaced by the marker in place, every other
    entry keeps its key and its own scrubbed value, scalars are unchanged; and no
    entry that is to go is left in the result. A value that is neither a map of
    strings nor a list of [any], such as one a CEL expression builds, is passed on
    unread. *)
Theorem scrub_leaves_nothing_sensitive `{!UnicodeCase} extra v :
  scrubbed extra v (Scrub (NewScrubber extra) v) ∧ secret_free extra (Scrub (NewScrubber extra) v).
Proof. split; [apply Scrub_scrubbed|]. apply clean_secret_free, Scrub_clean. Qed.

(** Scrubbing changes nothing else: a value reached through entries that
    need no redaction is reached by the same path afterwards, scrubbed itself
    (scalars unchanged), and the first entry that needs redaction is replaced by
    the marker in place. *)
Theorem scrub_preserves_the_rest `{!UnicodeCase} s p v x :
  path_kept s p v = true → get_path p v = Some x →
  get_path p (Scrub s v) = Some (Scrub s x) ∧
  (∀ m k y, x = VMap m → assoc_get k m = Some y → shouldRedactKey s k y = true →
     get_path (p ++ [Key k]) (Scrub s v) = Some redactedValue).
Proof.
  intros Hp Hg. split; [by apply Scrub_kept|]. intros m k y -> Hk Hr.
  apply Scrub_redacted with y; [done| |done].
  revert v Hp Hg. induction p as [|[k'|i] p IH]; intros v Hp Hg; simpl in Hp, Hg |- *.
  - simplify_eq. simpl. by rewrite Hk.
  - destruct v as [| | | | |l|m'|]; try done.
    destruct (assoc_get k' m') as [z|]; [|done]. apply andb_true_iff in Hp as [_ Hp]. by apply IH.
  - destruct v as [| | | | |l|m'|]; try done. destruct (l !! i) as [z|]; [|done]. by apply IH.
Qed.

Lemma scrub_preserves_the_rest_witness :
  let _ := ascii_only_case in
  let v := VMap [("spec", VList [VMap [("image", VString "nginx"); ("dbPassword", VString "x")]])] in
  get_path [Key "spec"; Index 0; Key "dbPassword"] (Scrub (NewScrubber []) v) = Some redactedValue.
Proof.
  intros C v.
  exact (proj2 (scrub_preserves_the_rest (NewScrubber []) [Key "spec"; Index 0] v
    (VMap [("image", VString "nginx"); ("dbPassword", VString "x")])
    ltac:(vm_compute; reflexivity) ltac:(reflexivity)) _ "dbPassword" (VString "x")
    eq_refl eq_refl ltac:(vm_compute; reflexivity)).
Defined.
