(* ===== verification/Prune.v ===== *)
(** Full-resource export, [src/internal/collect/prune.go]: the pruned copy of an
    object embedded in an item.

    The source mutates a deep copy in place; no two parts of the copy are shared,
    so each mutation is a functional update of the tree here. *)

From S2P Require Import Prelude GoStrings Values Api Scrub.

(** Go: internal/collect/prune.go:15-24 [builtinPrunePointers] *)
Definition builtinPrunePointers : list string :=
  ["/metadata/managedFields";
   "/metadata/resourceVersion";
   "/metadata/generation";
   "/metadata/annotations/kubectl.kubernetes.io~1last-applied-configuration";
   "/metadata/annotations/argocd.argoproj.io~1tracking-id"].

(** Go: internal/collect/prune.go:185-190 [unescapeJSONPointerToken] *)
Definition unescapeJSONPointerToken (token : string) : string :=
  replace_all "~0" "~" (replace_all "~1" "/" token).

(** Walk the tokens through maps and slices and delete the leaf; an element of a
    slice is set to nil.
    Go: internal/collect/prune.go:192-227 [removeByTokens] *)
Fixpoint removeByTokens (tokens : list string) (node : value) : value :=
  match tokens with
  | [] => node
  | token :: rest =>
      match node with
      | VMap m =>
          VMap (match rest with
                | [] => assoc_del token m
                | _ => assoc_alter (removeByTokens rest) token m
                end)
      | VList l =>
          match atoi token with
          | Some idx =>
              if bool_decide (idx < 0)%Z || bool_decide (Z.of_nat (length l) ≤ idx)%Z then node
              else VList (match rest with
                          | [] => <[Z.to_nat idx := VNull]> l
                          | _ => alter (removeByTokens rest) (Z.to_nat idx) l
                          end)
          | None => node
          end
      | _ => node
      end
  end.

(** Go: internal/collect/prune.go:166-183 [removeJSONPointer] *)
Definition removeJSONPointer (root : value) (pointer : string) : value :=
  let pointer := trim_space pointer in
  if decide (pointer = "" ∨ pointer = "/") then root
  else match cut_prefix "/" pointer with
       | None => root
       | Some rest => removeByTokens (unescapeJSONPointerToken <$> split_byte "/" rest) root
       end.

(** The bytes up to the next ['.'] or ['[']. *)
Fixpoint span_segment (s : string) : string * string :=
  match s with
  | "" => ("", "")
  | String c s' =>
      if decide (c = "."%char ∨ c = "["%char) then ("", s)
      else let '(a, b) := span_segment s' in (String c a, b)
  end.

Definition quotes : list ascii := [ascii_of_nat 34; ascii_of_nat 39].

(** One call scans one construct; [fuel] bounds the number of constructs, and the
    length of the path is enough of it ([json_path_scan_fuel]). *)
Fixpoint json_path_scan (fuel : nat) (path : string) : option (list string) :=
  match fuel with
  | 0 => match path with "" => Some [] | _ => None end
  | S fuel =>
      match path with
      | "" => Some []
      | String c rest =>
          if decide (c = "."%char) then json_path_scan fuel rest
          else if decide (c = "["%char) then
            '(inner, rest) ← cut_byte "]" rest;
            let inner := trim_space inner in
            if bool_decide (inner = "*") || has_prefix "?" inner then None
            else cons (trim quotes inner) <$> json_path_scan fuel rest
          else
            let '(seg, rest) := span_segment path in
            let seg := trim_space seg in
            if decide (seg = "*") then None
            else if decide (seg = "") then json_path_scan fuel rest
            else cons seg <$> json_path_scan fuel rest
      end
  end.

(** Go: internal/collect/prune.go:240-289 [jsonPathTokens] *)
Definition jsonPathTokens (path : string) : option (list string) :=
  let path := trim_prefix "$" (trim_space path) in
  json_path_scan (String.length path) path.

(** Go: internal/collect/prune.go:229-238 [removeJSONPath] *)
Definition removeJSONPath (root : value) (path : string) : value :=
  match jsonPathTokens path with
  | None | Some [] => root
  | Some tokens => removeByTokens tokens root
  end.

(** Go: internal/collect/prune.go:110-143 [selectIncludeSections] *)
Definition selectIncludeSections (root : object) (include : string) : object :=
  if decide (include = ExportIncludeAll) then root
  else
    let keep section : object := match assoc_get section root with Some v => [(section, v)] | None => [] end in
    keep "apiVersion" ++ keep "kind" ++
    (if decide (include = ExportIncludeMetadataOnly) then keep "metadata"
     else if decide (include = ExportIncludeSpecOnly) then keep "spec"
     else if decide (include = ExportIncludeStatusOnly) then keep "status"
     else keep "spec" ++ keep "status").

(** Go: internal/collect/prune.go:145-164 [dropEnvelopeIdentity] *)
Definition dropEnvelopeIdentity (root : object) : object :=
  match assoc_get "metadata" root with
  | Some (VMap meta) =>
      assoc_alter (λ _, VMap (assoc_del "uid" (assoc_del "namespace" (assoc_del "name" meta))))
        "metadata" root
  | _ => root
  end.

(** Go: internal/collect/prune.go:84-108 [stampCollectedGeneration] *)
Definition stampCollectedGeneration (root : object) (generation : Z) : object :=
  match assoc_get "metadata" root with
  | Some (VMap meta) =>
      let annotations :=
        match assoc_get "annotations" meta with Some (VMap a) => a | _ => [] end in
      let annotations :=
        assoc_set AnnotationCollectedGeneration (VString (fmt_d generation)) annotations in
      assoc_alter (λ _, VMap (assoc_set "annotations" (VMap annotations) meta)) "metadata" root
  | _ => root
  end.

(** The object under a map value; the tree functions above keep a map a map. *)
Definition unmap (v : value) : object := default [] (as_map v).

(** The pruning up to the scrubber: sections, identity, pointers and paths. *)
Definition prune_sections (root : object) (export : ExportSpec) : value :=
  let root := selectIncludeSections root (IncludeOrDefault (Some export)) in
  let root := if DedupeIdentityEnabled (Some export) then dropEnvelopeIdentity root else root in
  let prune := export_Prune export in
  let root := VMap root in
  let root := if DefaultsEnabled prune then foldl removeJSONPointer root builtinPrunePointers else root in
  match prune with
  | None => root
  | Some p => foldl removeJSONPath (foldl removeJSONPointer root (prune_JSONPointers p)) (prune_JSONPaths p)
  end.

Section prune.
Context `{!UnicodeCase, !KubeApi}.

(** Go: internal/collect/prune.go:34-82 [PruneResource] *)
Definition PruneResource (obj : object) (export : ExportSpec) (scrubber : option Scrubber) : object :=
  let root := prune_sections obj export in
  let root := match scrubber with
              | None => root
              | Some s => match Scrub s root with VMap m => VMap m | _ => root end
              end in
  stampCollectedGeneration (unmap root) (GetGeneration obj).
End prune.

(** * Paths *)

(** The path the tokens address in a tree, if there is a node there. *)
Fixpoint resolve (tokens : list string) (node : value) : option (list step) :=
  match tokens with
  | [] => Some []
  | token :: rest =>
      match node with
      | VMap m => x ← assoc_get token m; cons (Key token) <$> resolve rest x
      | VList l =>
          idx ← atoi token;
          if bool_decide (idx < 0)%Z then None
          else x ← l !! Z.to_nat idx; cons (Index (Z.to_nat idx)) <$> resolve rest x
      | _ => None
      end
  end.

(** Neither path is below the other. *)
Definition diverge (p q : list step) : Prop := ~ p `prefix_of` q ∧ ~ q `prefix_of` p.

Lemma diverge_cons x p q : diverge (x :: p) (x :: q) → diverge p q.
Proof.
  intros [H1 H2]. split; intros H; [apply H1|apply H2]; by apply prefix_cons.
Qed.

(** Updating the entry a path starts with. *)
Lemma get_path_alter_map f k m x q :
  assoc_get k m = Some x →
  get_path (Key k :: q) (VMap (assoc_alter f k m)) = get_path q (f x).
Proof. intros Hk. simpl. by rewrite assoc_get_alter, Hk. Qed.

Lemma get_path_alter_list f i l x q :
  l !! i = Some x → get_path (Index i :: q) (VList (alter f i l)) = get_path q (f x).
Proof. intros Hi. simpl. by rewrite list_lookup_alter_eq, Hi. Qed.

Lemma resolve_get tokens v p : resolve tokens v = Some p → is_Some (get_path p v).
Proof.
  revert v p. induction tokens as [|t ts IH]; intros v p; [by intros [= <-]|].
  destruct v as [| | | | |l|m|]; try done; simpl.
  - intros (idx & _ & Hp)%bind_Some. case_bool_decide; [done|].
    apply bind_Some in Hp as (x & Hx & (p' & Hp & ->)%fmap_Some). simpl. rewrite Hx. eauto.
  - intros (x & Hx & (p' & Hp & ->)%fmap_Some)%bind_Some. simpl. rewrite Hx. eauto.
Qed.

Lemma lookup_range (l : list value) idx :
  bool_decide (idx < 0)%Z = false →
  bool_decide (Z.of_nat (length l) ≤ idx)%Z = bool_decide (l !! Z.to_nat idx = None).
Proof.
  intros H%bool_decide_eq_false. apply bool_decide_ext. rewrite lookup_ge_None. lia.
Qed.

(** Tokens that address nothing change nothing. *)
Lemma removeByTokens_None tokens v : resolve tokens v = None → removeByTokens tokens v = v.
Proof.
  revert v. induction tokens as [|t ts IH]; intros v; [done|].
  destruct v as [| | | | |l|m|]; try done; simpl.
  - destruct (atoi t) as [idx|]; [|done]. simpl.
    destruct (bool_decide (idx < 0)%Z) eqn:Hneg; [done|]. simpl. rewrite lookup_range by done.
    destruct (l !! Z.to_nat idx) as [x|] eqn:Hx; [|done]. simpl.
    destruct ts as [|t' ts]; [done|]. intros Hr%fmap_None. f_equal.
    apply list_eq. intros i. destruct (decide (i = Z.to_nat idx)) as [->|].
    + rewrite list_lookup_alter_eq, Hx.
      change (Some (removeByTokens (t' :: ts) x) = Some x). by rewrite IH.
    + by rewrite list_lookup_alter_ne.
  - destruct (assoc_get t m) as [x|] eqn:Hx; simpl.
    + destruct ts as [|t' ts]; [done|]. intros Hr%fmap_None. f_equal.
      apply (assoc_alter_id _ _ x); [done|]. by apply IH.
    + intros _. destruct ts; [by rewrite assoc_del_None|by rewrite assoc_alter_None].
Qed.

(** Tokens that address a node remove that node (an element of a slice becomes
    nil) and leave every path that diverges from it as it was. *)
Lemma removeByTokens_Some tokens v p :
  resolve tokens v = Some p → p ≠ [] →
  (get_path p (removeByTokens tokens v) = None ∨ get_path p (removeByTokens tokens v) = Some VNull) ∧
  ∀ q, diverge p q → get_path q (removeByTokens tokens v) = get_path q v.
Proof.
  revert v p. induction tokens as [|t ts IH]; intros v p; [by intros [= <-]|].
  destruct v as [| | | | |l|m|]; try done; simpl.
  - destruct (atoi t) as [idx|]; [|done]. simpl.
    destruct (bool_decide (idx < 0)%Z) eqn:Hneg; [done|]. rewrite lookup_range by done.
    destruct (l !! Z.to_nat idx) as [x|] eqn:Hx; [|done]. simpl.
    intros (p' & Hp & ->)%fmap_Some _. set (i := Z.to_nat idx) in *.
    destruct ts as [|t' ts].
    + injection Hp as <-. simpl. rewrite list_lookup_insert_eq by (by apply lookup_lt_is_Some_1; eauto).
      split; [by right|]. intros q [Hq1 Hq2]. destruct q as [|[k|j] q]; [by destruct Hq2; apply prefix_nil|done|].
      simpl. rewrite list_lookup_insert_ne; [done|]. intros ->. destruct Hq1. by exists q.
    + destruct (IH x p' Hp) as [Hgone Hframe]; [by destruct x; simplify_option_eq|].
      rewrite (get_path_alter_list _ i l x) by done. split; [done|].
      intros q Hq. destruct q as [|[k|j] q]; [by destruct Hq as [_ Hq]; destruct Hq; apply prefix_nil|done|].
      destruct (decide (j = i)) as [->|Hj].
      * rewrite (get_path_alter_list _ i l x) by done. simpl. rewrite Hx. simpl.
        by apply Hframe, (diverge_cons (Index i)).
      * simpl. by rewrite list_lookup_alter_ne.
  - destruct (assoc_get t m) as [x|] eqn:Hx; [|done]. simpl.
    intros (p' & Hp & ->)%fmap_Some _. destruct ts as [|t' ts].
    + injection Hp as <-. simpl. rewrite assoc_get_del. split; [by left|].
      intros q [Hq1 Hq2]. destruct q as [|[k|j] q]; [by destruct Hq2; apply prefix_nil| |done].
      simpl. rewrite assoc_get_del_ne; [done|]. intros ->. destruct Hq1. by exists q.
    + destruct (IH x p' Hp) as [Hgone Hframe]; [by destruct x; simplify_option_eq|].
      rewrite (get_path_alter_map _ t m x) by done. split; [done|].
      intros q Hq. destruct q as [|[k|j] q]; [by destruct Hq as [_ Hq]; destruct Hq; apply prefix_nil| |done].
      destruct (decide (k = t)) as [->|Hk].
      * rewrite (get_path_alter_map _ t m x) by done. simpl. rewrite Hx. simpl.
        by apply Hframe, (diverge_cons (Key t)).
      * simpl. by rewrite assoc_get_alter_ne.
Qed.

(** Removal never makes a path appear. *)
Lemma removeByTokens_no_new tokens v q :
  is_Some (get_path q (removeByTokens tokens v)) → is_Some (get_path q v).
Proof.
  revert v q. induction tokens as [|t ts IH]; intros v q; [done|].
  destruct v as [| | | | |l|m|]; try done; simpl.
  - destruct (atoi t) as [idx|]; [|done]. destruct (_ || _); [done|].
    destruct q as [|[k|j] q]; [by eauto|done|]. intros Hq. simpl in *.
    destruct (decide (j = Z.to_nat idx)) as [->|Hj].
    + destruct ts as [|t' ts].
      * destruct (l !! Z.to_nat idx) as [x|] eqn:Hx; simpl.
        -- rewrite list_lookup_insert_eq in Hq by (by apply lookup_lt_is_Some_1; eauto).
           destruct q as [|[] q]; [by eauto|by destruct Hq..].
        -- rewrite list_insert_ge in Hq by (by apply lookup_ge_None). by rewrite Hx in Hq.
      * rewrite list_lookup_alter_eq in Hq. destruct (l !! Z.to_nat idx) as [x|]; [|done].
        by apply IH.
    + destruct ts; [rewrite list_lookup_insert_ne in Hq by done|rewrite list_lookup_alter_ne in Hq by done]; done.
  - destruct q as [|[k|j] q]; [by eauto| |done]. intros Hq. simpl in *.
    destruct (decide (k = t)) as [->|Hk].
    + destruct ts as [|t' ts]; [rewrite assoc_get_del in Hq; by destruct Hq|].
      rewrite assoc_get_alter in Hq. destruct (assoc_get t m) as [x|]; [|done]. by apply IH.
    + destruct ts; [rewrite assoc_get_del_ne in Hq by done|rewrite assoc_get_alter_ne in Hq by done]; done.
Qed.

(** * JSON pointers: the parser inverts the RFC 6901 encoding *)

Definition escape_byte (c : ascii) : string :=
  if decide (c = "~"%char) then "~0" else if decide (c = "/"%char) then "~1" else String c "".
Definition escape (t : string) : string := string_bind escape_byte t.
Definition pointer_of (tokens : list string) : string := String "/" (join "/" (escape <$> tokens)).

(** A byte other than the first of the pattern is copied. *)
Lemma replace_all_other d old new c s :
  c ≠ d → replace_all (String d old) new (String c s) = String c (replace_all (String d old) new s).
Proof.
  intros Hc. apply replace_all_miss. unfold has_prefix. simpl. by rewrite decide_False by congruence.
Qed.

Lemma unescape_slash t :
  replace_all "~1" "/" (escape t) =
  string_bind (λ c, if decide (c = "~"%char) then "~0" else String c "") t.
Proof.
  unfold escape. induction t as [|c t IH]; [done|].
  cbn [string_bind]. unfold escape_byte at 1.
  destruct (decide (c = "~"%char)) as [->|H1].
  { change ("~0" +:+ ?x) with (String "~" (String "0" x)).
    rewrite replace_all_miss by done. by rewrite replace_all_other, IH. }
  destruct (decide (c = "/"%char)) as [->|H2]; [by rewrite replace_all_hit, IH|].
  change (String c "" +:+ ?x) with (String c x). by rewrite replace_all_other, IH.
Qed.

Lemma unescape_escape t : unescapeJSONPointerToken (escape t) = t.
Proof.
  unfold unescapeJSONPointerToken. rewrite unescape_slash.
  induction t as [|c t IH]; [done|]. cbn [string_bind].
  destruct (decide (c = "~"%char)) as [->|H1]; [by rewrite replace_all_hit, IH|].
  change (String c "" +:+ ?x) with (String c x). by rewrite replace_all_other, IH.
Qed.

Lemma escape_no_slash t : has_byte "/" (escape t) = false.
Proof.
  unfold escape. induction t as [|c t IH]; [done|]. simpl. rewrite has_byte_app, IH, orb_false_r.
  unfold escape_byte. repeat case_decide; try done. unfold has_byte. simpl.
  by rewrite decide_False by congruence.
Qed.

Lemma removeJSONPointer_pointer_of root t ts :
  trim_space (pointer_of (t :: ts)) = pointer_of (t :: ts) → t :: ts ≠ [""] →
  removeJSONPointer root (pointer_of (t :: ts)) = removeByTokens (t :: ts) root.
Proof.
  intros Htrim Hne. unfold removeJSONPointer. rewrite Htrim. unfold pointer_of in *.
  assert (split_byte "/" (join "/" (escape <$> t :: ts)) = escape <$> t :: ts) as Hsplit.
  { apply (split_byte_join "/"). change (Forall (λ v, has_byte "/" v = false) (escape <$> t :: ts)).
    apply Forall_fmap, Forall_true. intros x. apply escape_no_slash. }
  assert (unescapeJSONPointerToken <$> (escape <$> t :: ts) = t :: ts) as Hun.
  { rewrite <- list_fmap_compose. rewrite <- (list_fmap_id (t :: ts)) at 2. apply list_fmap_ext.
    intros i x _. apply unescape_escape. }
  rewrite decide_False.
  - change (String "/" ?x) with ("/" +:+ x). by rewrite cut_prefix_app, Hsplit, Hun.
  - intros [?|[= Hj]]; [done|]. apply Hne. rewrite <- Hun, <- Hsplit.
    change (join "/" (escape <$> t :: ts) = "") in Hj. by rewrite Hj.
Qed.

(** * JSON paths: termination and the printed form *)

Lemma span_segment_app s a b : span_segment s = (a, b) → s = a +:+ b.
Proof.
  revert a b. induction s as [|c s IH]; intros a b; simpl; [by intros [= <- <-]|].
  case_decide; [by intros [= <- <-]|]. destruct (span_segment s) as [a' b'].
  intros [= <- <-]. by rewrite (IH a' b').
Qed.

(** Every construct consumes at least one byte, so the length of the path is
    enough fuel and more fuel changes nothing. *)
Lemma json_path_scan_fuel f1 f2 path :
  String.length path ≤ f1 → String.length path ≤ f2 →
  json_path_scan f1 path = json_path_scan f2 path.
Proof.
  revert f2 path. induction f1 as [|f1 IH]; intros f2 path H1 H2.
  { destruct path; [by destruct f2|simpl in *; lia]. }
  destruct f2 as [|f2]; [destruct path; [done|simpl in *; lia]|].
  destruct path as [|c rest]; [done|]. cbn [json_path_scan]. simpl in H1, H2.
  case_decide as Hdot; [apply IH; lia|]. case_decide as Hbr.
  - destruct (cut_byte "]" rest) as [[inner rest']|] eqn:Hc; [|done]. simpl.
    destruct (_ || _); [done|]. apply cut_byte_Some in Hc as [-> _].
    rewrite length_app in H1, H2. simpl in H1, H2. f_equal. apply IH; lia.
  - destruct (span_segment (String c rest)) as [seg rest'] eqn:Hs.
    assert (String.length rest' < S (String.length rest)) as Hlen.
    { simpl in Hs. rewrite decide_False in Hs by tauto.
      destruct (span_segment rest) as [a b] eqn:Hr. injection Hs as <- <-.
      apply span_segment_app in Hr as ->. rewrite length_app. lia. }
    case_decide; [done|]. case_decide; [apply IH; lia|]. f_equal. apply IH; lia.
Qed.

(** A key that needs no brackets in a path. *)
Definition plain_key (k : string) : bool :=
  bool_decide (k ≠ "") && bool_decide (trim_space k = k) && bool_decide (k ≠ "*") &&
  negb (has_byte "." k) && negb (has_byte "[" k).

Fixpoint dotted (ks : list string) : string :=
  match ks with [] => "" | k :: ks => String "." (k +:+ dotted ks) end.
Definition path_of (ks : list string) : string := String "$" (dotted ks).

Lemma span_segment_key k rest :
  has_byte "." k = false → has_byte "[" k = false →
  rest = "" ∨ (∃ r, rest = String "." r) → span_segment (k +:+ rest) = (k, rest).
Proof.
  intros H1 H2 Hrest. revert H1 H2. induction k as [|c k IH]; intros H1 H2.
  { by destruct Hrest as [->|[r ->]]. }
  rewrite app_cons. simpl. change (String c k) with (String c "" +:+ k) in H1, H2.
  rewrite has_byte_app in H1, H2. apply orb_false_iff in H1 as [Hd H1], H2 as [Hb H2].
  rewrite decide_False by (by intros [->| ->]). by rewrite IH.
Qed.

Lemma json_path_scan_dotted ks f :
  Forall (λ k, plain_key k = true) ks → String.length (dotted ks) ≤ f →
  json_path_scan f (dotted ks) = Some ks.
Proof.
  intros Hks. revert f. induction Hks as [|k ks Hk Hks IH]; intros f Hf; [by destruct f|].
  unfold plain_key in Hk. to_prop. destruct k as [|c k]; [done|].
  simpl dotted in *. simpl in Hf. rewrite length_app in Hf. simpl in Hf.
  destruct f as [|[|f]]; [lia..|].
  change (json_path_scan (S f) (String c k +:+ dotted ks) = Some (String c k :: ks)).
  rewrite app_cons. cbn [json_path_scan].
  assert (c ≠ "."%char ∧ c ≠ "["%char) as [Hd Hb] by (split; intros ->; done).
  rewrite !decide_False by done.
  rewrite <- app_cons, span_segment_key by (done || (destruct ks; simpl; eauto)).
  replace (trim_space (String c k)) with (String c k) by done.
  rewrite !decide_False by done. rewrite IH by lia. done.
Qed.

(** * What the pruned copy contains *)

(** A field of the copy's metadata. *)
Definition meta_path (k : string) : list step := [Key "metadata"; Key k].

Lemma removeJSONPointer_no_new root ptr q :
  is_Some (get_path q (removeJSONPointer root ptr)) → is_Some (get_path q root).
Proof.
  unfold removeJSONPointer. case_decide; [done|]. destruct (cut_prefix _ _); [|done].
  apply removeByTokens_no_new.
Qed.

Lemma removeJSONPath_no_new root jp q :
  is_Some (get_path q (removeJSONPath root jp)) → is_Some (get_path q root).
Proof.
  unfold removeJSONPath. destruct (jsonPathTokens jp) as [[|t ts]|]; try done.
  apply removeByTokens_no_new.
Qed.

(** A loop of removals never makes a path appear. *)
Lemma foldl_no_new (rm : value → string → value) root ptrs q :
  (∀ root ptr, is_Some (get_path q (rm root ptr)) → is_Some (get_path q root)) →
  is_Some (get_path q (foldl rm root ptrs)) → is_Some (get_path q root).
Proof. intros Hrm. revert root. induction ptrs as [|p ptrs IH]; intros root; [done|]. simpl. eauto. Qed.

(** ... so what one of them removed stays removed. *)
Lemma foldl_removed root ptrs ptr q :
  ptr ∈ ptrs → (∀ root, get_path q (removeJSONPointer root ptr) = None) →
  get_path q (foldl removeJSONPointer root ptrs) = None.
Proof.
  intros Hin Hrm. apply eq_None_not_Some. intros Hs.
  apply list_elem_of_split in Hin as (l1 & l2 & ->). rewrite foldl_app in Hs. simpl in Hs.
  apply foldl_no_new in Hs; [|intros ??; apply removeJSONPointer_no_new].
  rewrite Hrm in Hs. by destruct Hs.
Qed.

Lemma remove_meta_key k root : get_path (meta_path k) (removeByTokens ["metadata"; k] root) = None.
Proof.
  destruct root as [| | | | |l|m|]; try done.
  cbn [removeByTokens meta_path get_path]. rewrite assoc_get_alter.
  destruct (assoc_get "metadata" m) as [x|]; [|done].
  destruct x as [| | | | |l|m'|]; try done; simpl.
  - destruct (atoi k) as [i|]; [|done]. by destruct (bool_decide _ || bool_decide _).
  - by rewrite assoc_get_del.
Qed.

(** The built-in pointers, as the tokens they address. *)
Lemma builtin_pointer_tokens root k :
  k ∈ ["managedFields"; "resourceVersion"; "generation"] →
  removeJSONPointer root ("/metadata/" +:+ k) = removeByTokens ["metadata"; k] root.
Proof. intros Hk. repeat (apply elem_of_cons in Hk as [->|Hk]; [reflexivity|]). by apply elem_of_nil in Hk. Qed.

Lemma builtin_removes root k :
  k ∈ ["managedFields"; "resourceVersion"; "generation"] →
  get_path (meta_path k) (foldl removeJSONPointer root builtinPrunePointers) = None.
Proof.
  intros Hk. apply (foldl_removed _ _ ("/metadata/" +:+ k)).
  - unfold builtinPrunePointers.
    repeat (apply elem_of_cons in Hk as [->|Hk]; [set_solver|]). by apply elem_of_nil in Hk.
  - intros r. rewrite builtin_pointer_tokens by done. apply remove_meta_key.
Qed.

Lemma dropEnvelopeIdentity_gone root k :
  k ∈ ["name"; "namespace"; "uid"] → get_path (meta_path k) (VMap (dropEnvelopeIdentity root)) = None.
Proof.
  intros Hk. unfold dropEnvelopeIdentity, meta_path. cbn [get_path].
  destruct (assoc_get "metadata" root) as [[| | | | | |m|]|] eqn:Hm; rewrite ?Hm; try done.
  rewrite assoc_get_alter, Hm. cbn [fmap option_fmap option_map mbind option_bind].
  repeat (apply elem_of_cons in Hk as [->|Hk]).
  - by rewrite (assoc_get_del_ne _ "uid"), (assoc_get_del_ne _ "namespace"), assoc_get_del.
  - by rewrite (assoc_get_del_ne _ "uid"), assoc_get_del.
  - by rewrite assoc_get_del.
  - by apply elem_of_nil in Hk.
Qed.

(** Pruning with author pointers and paths adds nothing. *)
Lemma author_prune_no_new root p q :
  is_Some (get_path q (foldl removeJSONPath (foldl removeJSONPointer root (prune_JSONPointers p))
                         (prune_JSONPaths p))) → is_Some (get_path q root).
Proof.
  intros Hs. eapply foldl_no_new in Hs; [|intros ??; apply removeJSONPath_no_new].
  eapply foldl_no_new in Hs; [done|intros ??; apply removeJSONPointer_no_new].
Qed.

Lemma prune_sections_no_noise root export k :
  DefaultsEnabled (export_Prune export) = true →
  k ∈ ["managedFields"; "resourceVersion"; "generation"] →
  get_path (meta_path k) (prune_sections root export) = None.
Proof.
  intros Hd Hk. apply eq_None_not_Some. unfold prune_sections. rewrite Hd. intros Hs.
  destruct (export_Prune export) as [p|];
    [apply author_prune_no_new in Hs|]; rewrite builtin_removes in Hs by done; by destruct Hs.
Qed.

Lemma prune_sections_no_identity root export k :
  DedupeIdentityEnabled (Some export) = true → k ∈ ["name"; "namespace"; "uid"] →
  get_path (meta_path k) (prune_sections root export) = None.
Proof.
  intros Hd Hk. apply eq_None_not_Some. unfold prune_sections. rewrite Hd. intros Hs.
  assert (∀ b : bool, is_Some (get_path (meta_path k) (if b then foldl removeJSONPointer
      (VMap (dropEnvelopeIdentity (selectIncludeSections root (IncludeOrDefault (Some export)))))
      builtinPrunePointers
    else VMap (dropEnvelopeIdentity (selectIncludeSections root (IncludeOrDefault (Some export)))))) → False) as Hno.
  { intros b Hb. destruct b; [eapply foldl_no_new in Hb; [|intros ??; apply removeJSONPointer_no_new]|];
      rewrite dropEnvelopeIdentity_gone in Hb by done; by destruct Hb. }
  destruct (export_Prune export) as [p|]; [apply author_prune_no_new in Hs|]; by eapply Hno.
Qed.

(** Every step keeps the root a map. *)
Lemma removeByTokens_map ts m : ∃ m', removeByTokens ts (VMap m) = VMap m'.
Proof. destruct ts; simpl; eauto. Qed.

Lemma removeJSONPointer_map m ptr : ∃ m', removeJSONPointer (VMap m) ptr = VMap m'.
Proof.
  unfold removeJSONPointer. case_decide; [eauto|]. destruct (cut_prefix _ _); [|eauto].
  apply removeByTokens_map.
Qed.

Lemma removeJSONPath_map m jp : ∃ m', removeJSONPath (VMap m) jp = VMap m'.
Proof.
  unfold removeJSONPath. destruct (jsonPathTokens jp) as [[|t ts]|]; eauto using removeByTokens_map.
Qed.

Lemma foldl_map (rm : value → string → value) m ptrs :
  (∀ m ptr, ∃ m', rm (VMap m) ptr = VMap m') → ∃ m', foldl rm (VMap m) ptrs = VMap m'.
Proof.
  intros Hrm. revert m. induction ptrs as [|p ptrs IH]; intros m; simpl; [eauto|].
  destruct (Hrm m p) as [m' ->]. apply IH.
Qed.

Lemma prune_sections_map root export : ∃ m, prune_sections root export = VMap m.
Proof.
  unfold prune_sections.
  assert (∀ (b : bool) m, ∃ m', (if b then foldl removeJSONPointer (VMap m) builtinPrunePointers else VMap m) = VMap m') as Hb.
  { intros [] m; [apply foldl_map, removeJSONPointer_map|eauto]. }
  destruct (Hb (DefaultsEnabled (export_Prune export))
    (if DedupeIdentityEnabled (Some export)
     then dropEnvelopeIdentity (selectIncludeSections root (IncludeOrDefault (Some export)))
     else selectIncludeSections root (IncludeOrDefault (Some export)))) as [m1 Hm1].
  rewrite Hm1. destruct (export_Prune export) as [p|]; [|eauto].
  destruct (foldl_map removeJSONPointer m1 (prune_JSONPointers p) removeJSONPointer_map) as [m2 ->].
  apply foldl_map, removeJSONPath_map.
Qed.

Lemma stamp_other_meta root g k :
  k ≠ "annotations" →
  get_path (meta_path k) (VMap (stampCollectedGeneration root g)) = get_path (meta_path k) (VMap root).
Proof.
  intros Hk. unfold stampCollectedGeneration.
  destruct (assoc_get "metadata" root) as [[| | | | | |m|]|] eqn:Hm; try done.
  unfold meta_path. rewrite (get_path_alter_map _ _ _ (VMap m)) by done. simpl.
  rewrite assoc_get_set_ne by done. by rewrite Hm.
Qed.

Section prune_lemmas.
Context `{!UnicodeCase, !KubeApi}.

(** The copy before it is stamped. *)
Definition pruned_copy (obj : object) (export : ExportSpec) (scrubber : option Scrubber) : object :=
  unmap (match scrubber with
         | None => prune_sections obj export
         | Some s => Scrub s (prune_sections obj export)
         end).

Lemma PruneResource_stamp obj export scrubber :
  PruneResource obj export scrubber =
  stampCollectedGeneration (pruned_copy obj export scrubber) (GetGeneration obj).
Proof.
  unfold PruneResource, pruned_copy. destruct (prune_sections_map obj export) as [m ->].
  by destruct scrubber.
Qed.

Lemma pruned_copy_no_new obj export scrubber k :
  k ≠ "redacted" → k ≠ "reason" →
  get_path (meta_path k) (prune_sections obj export) = None →
  get_path (meta_path k) (VMap (pruned_copy obj export scrubber)) = None.
Proof.
  intros H1 H2 Hno. unfold pruned_copy. destruct (prune_sections_map obj export) as [m Hm].
  rewrite Hm in *. destruct scrubber as [s|]; [|done]. rewrite Scrub_VMap. unfold meta_path in *.
  cbn [unmap as_map default id get_path] in *. rewrite assoc_get_scrub.
  destruct (assoc_get "metadata" m) as [x|]; [|done]. simpl in Hno |- *. unfold scrub_entry.
  destruct (shouldRedactKey s "metadata" x); simpl.
  - by rewrite !decide_False.
  - destruct x as [| | | | | |m'|]; try done. rewrite Scrub_VMap. cbn [get_path].
    rewrite assoc_get_scrub. by destruct (assoc_get k m').
Qed.
End prune_lemmas.

(** * Properties *)

(** A path exclusion removes exactly the node it names: the RFC 6901 pointer
    (or the dotted path, for plain keys) that encodes a token list removes the
    node those tokens address and no path that diverges from it, and changes
    nothing when they address no node. *)
Theorem prune_removes_exactly v t ts :
  trim_space (pointer_of (t :: ts)) = pointer_of (t :: ts) → t :: ts ≠ [""] →
  (Forall (λ k, plain_key k = true) (t :: ts) → trim_space (path_of (t :: ts)) = path_of (t :: ts) →
   removeJSONPath v (path_of (t :: ts)) = removeJSONPointer v (pointer_of (t :: ts))) ∧
  match resolve (t :: ts) v with
  | None => removeJSONPointer v (pointer_of (t :: ts)) = v
  | Some p =>
      let v' := removeJSONPointer v (pointer_of (t :: ts)) in
      (get_path p v' = None ∨ get_path p v' = Some VNull) ∧
      ∀ q, diverge p q → get_path q v' = get_path q v
  end.
Proof.
  intros Htrim Hne. rewrite removeJSONPointer_pointer_of by done. split.
  - intros Hk Hp. unfold removeJSONPath, jsonPathTokens. rewrite Hp.
    replace (trim_prefix "$" (path_of (t :: ts))) with (dotted (t :: ts)) by reflexivity.
    by rewrite json_path_scan_dotted.
  - destruct (resolve (t :: ts) v) as [p|] eqn:Hr; [|by apply removeByTokens_None].
    apply removeByTokens_Some; [done|]. intros ->. by destruct v; simplify_option_eq.
Qed.

Lemma prune_removes_exactly_witness :
  let v := VMap [("spec", VMap [("a/b", VInt 1); ("c", VInt 2)])] in
  removeJSONPointer v "/spec/a~1b" = VMap [("spec", VMap [("c", VInt 2)])] ∧
  get_path [Key "spec"; Key "a/b"] (removeJSONPointer v (pointer_of ["spec"; "a/b"])) = None.
Proof.
  intros v. split; [reflexivity|].
  destruct (prune_removes_exactly v "spec" ["a/b"] ltac:(reflexivity) ltac:(done)) as [_ H].
  simpl in H. destruct H as [[H|H] _]; [exact H|discriminate H].
Defined.

(** The embedded copy of a resource carries no server-side noise and no
    duplicated identity: with the built-in defaults the managed fields, resource
    version and generation are gone, and with identity deduplication so are name,
    namespace and uid, whatever else the profile prunes or scrubs. *)
Theorem pruned_copy_has_no_noise `{!UnicodeCase, !KubeApi} obj export scrubber k :
  (DefaultsEnabled (export_Prune export) = true ∧
     k ∈ ["managedFields"; "resourceVersion"; "generation"] ∨
   DedupeIdentityEnabled (Some export) = true ∧ k ∈ ["name"; "namespace"; "uid"]) →
  get_path (meta_path k) (VMap (PruneResource obj export scrubber)) = None.
Proof.
  intros Hk.
  assert (k ≠ "annotations" ∧ k ≠ "redacted" ∧ k ≠ "reason") as (Ha & Hr & Hs).
  { destruct Hk as [[_ Hk]|[_ Hk]]; repeat (apply elem_of_cons in Hk as [->|Hk]; [done|]);
      by apply elem_of_nil in Hk. }
  rewrite PruneResource_stamp, stamp_other_meta by done. apply pruned_copy_no_new; [done..|].
  destruct Hk as [[? ?]|[? ?]]; [by apply prune_sections_no_noise|by apply prune_sections_no_identity].
Qed.

Lemma pruned_copy_has_no_noise_witness :
  let _ := ascii_only_case in
  let _ := {| LabelSelectorAsSelector _ := None; UnsafeGuessKindToResource _ := mkGVR "" "" "";
              GetNamespace _ := ""; GetName _ := ""; GetLabels _ := ∅; GetUID _ := "";
              GetGeneration _ := 7%Z |} in
  get_path (meta_path "managedFields")
    (VMap (PruneResource [("metadata", VMap [("managedFields", VNull); ("name", VString "x")])]
             (mkExportSpec "Resource" "" "All" None None) None)) = None.
Proof. intros C K. apply pruned_copy_has_no_noise. left. split; [reflexivity|by left]. Defined.

(** The generation stamp cannot be pruned or redacted: a copy that kept a
    metadata map carries the source's generation in its annotations, whatever the
    profile's paths and scrub keys are; a copy without one is not given one; and
    everything the stamp is added to has been scrubbed. *)
Theorem generation_stamp_survives `{!UnicodeCase, !KubeApi} obj export s :
  let copy := PruneResource obj export (Some s) in
  (∀ meta, assoc_get "metadata" copy = Some (VMap meta) →
     get_path [Key "metadata"; Key "annotations"; Key AnnotationCollectedGeneration] (VMap copy) =
     Some (VString (fmt_d (GetGeneration obj)))) ∧
  (is_Some (assoc_get "metadata" copy) ↔ is_Some (assoc_get "metadata" (pruned_copy obj export (Some s)))) ∧
  clean s (VMap (pruned_copy obj export (Some s))) ∧
  (∀ k, k ≠ "metadata" → assoc_get k copy = assoc_get k (pruned_copy obj export (Some s))).
Proof.
  cbv zeta. rewrite PruneResource_stamp. set (root := pruned_copy obj export (Some s)).
  split_and!.
  - intros meta. unfold stampCollectedGeneration.
    destruct (assoc_get "metadata" root) as [[| | | | | |m|]|] eqn:Hm; try (by rewrite Hm).
    intros _. rewrite (get_path_alter_map _ _ _ (VMap m)) by done.
    cbn [get_path]. rewrite assoc_get_set. cbn [mbind option_bind get_path].
    by rewrite assoc_get_set.
  - unfold stampCollectedGeneration.
    destruct (assoc_get "metadata" root) as [[| | | | | |m|]|] eqn:Hm; rewrite ?Hm; try done.
    rewrite assoc_get_alter, Hm. by rewrite fmap_is_Some.
  - unfold root, pruned_copy. destruct (prune_sections_map obj export) as [m ->].
    apply (Scrub_clean s (VMap m)).
  - intros k Hk. unfold stampCollectedGeneration.
    destruct (assoc_get "metadata" root) as [[| | | | | |m|]|]; try done.
    by rewrite assoc_get_alter_ne.
Qed.
