(* ===== verification/Aggregate.v ===== *)
(** Collapsing overlapping target rows, [src/internal/aggregate/dedupe.go]. *)

From S2P Require Import Prelude GoStrings Values Store Api.

(** Go: internal/aggregate/dedupe.go:16-23 [RowIdentity] *)
Record RowIdentity := mkRowIdentity {
  row_TargetNamespace : string;
  row_TargetName : string;
  row_Namespace : string;
  row_Name : string;
  row_UID : string;
}.

(** Go: internal/aggregate/dedupe.go:25-34 [IdentityFromItem] *)
Definition IdentityFromItem (item : Item) : RowIdentity :=
  mkRowIdentity (TargetNamespace item) (TargetName item) (Namespace item) (Name item) (UID item).

(** The pair of namespace and uid.
    Go: internal/aggregate/dedupe.go:36-40 [ResourceUID] *)
Definition ResourceUID : Type := string * string.

(** Go: internal/aggregate/dedupe.go:42-45 [ResourceKeyFromItem] *)
Definition ResourceKeyFromItem (item : Item) : string * string := (Namespace item, UID item).

(** Go: internal/aggregate/dedupe.go:52-60 [DedupeMode] *)
Inductive DedupeMode := DedupeKeepAll | DedupeByResourceUID.

#[export] Instance dedupe_mode_eq_dec : EqDecision DedupeMode.
Proof. solve_decision. Defined.

(** One iteration of the merge loop; the state is the index [seen] and the rows
    [out]. *)
Definition merge_step (st : gmap (string * string) nat * list Item) (item : Item) :
    gmap (string * string) nat * list Item :=
  let '(seen, out) := st in
  let key := ResourceKeyFromItem item in
  match seen !! key with
  | Some idx => (seen, <[idx := item]> out)
  | None => (<[key := length out]> seen, out ++ [item])
  end.

(** Go: internal/aggregate/dedupe.go:62-83 [MergeRows] *)
Definition MergeRows (items : list Item) (mode : DedupeMode) : list Item :=
  match items, mode with
  | [], _ | _, DedupeKeepAll => items
  | _, DedupeByResourceUID => (fold_left merge_step items (∅, [])).2
  end.

(** Go: internal/aggregate/dedupe.go:85-97 [DedupeModeFromSpec] *)
Definition DedupeModeFromSpec (spec : option KollectClusterInventorySpec) : DedupeMode :=
  match spec with
  | None => DedupeKeepAll
  | Some spec => if decide (cinv_Dedupe spec = "byResourceUID") then DedupeByResourceUID else DedupeKeepAll
  end.

(** [item] is the last row of its resource in [items]. *)
Definition last_row (items : list Item) (item : Item) : Prop :=
  ∃ l1 l2, items = l1 ++ item :: l2 ∧ ResourceKeyFromItem item ∉ ResourceKeyFromItem <$> l2.

Lemma last_row_snoc items x item :
  last_row (items ++ [x]) item ↔
  item = x ∨ last_row items item ∧ ResourceKeyFromItem item ≠ ResourceKeyFromItem x.
Proof.
  split.
  - intros (l1 & l2 & Heq & Hn). destruct l2 as [|y l2 _] using rev_ind.
    + left. by apply app_inj_tail in Heq as [_ ->].
    + right. rewrite app_comm_cons, (assoc_L (++)) in Heq.
      apply app_inj_tail in Heq as [-> ->]. rewrite fmap_app, not_elem_of_app in Hn.
      destruct Hn as [Hn Hx]. split; [by exists l1, l2|]. by apply not_elem_of_cons in Hx as [? _].
  - intros [->|[(l1 & l2 & -> & Hn) Hne]].
    + exists items, []. split; [done|]. apply not_elem_of_nil.
    + exists l1, (l2 ++ [x]). split; [by rewrite <- (assoc_L (++))|].
      rewrite fmap_app, not_elem_of_app. split; [done|]. by intros ?%list_elem_of_singleton.
Qed.

Lemma fmap_snoc {A B} (f : A → B) l x : f <$> l ++ [x] = (f <$> l) ++ [f x].
Proof. by rewrite fmap_app. Qed.

(** The loop invariant: [seen] indexes the rows by their key, the rows appear in
    the order in which their keys were first met, and each is the last of its
    key. *)
Record merge_inv (items : list Item) (seen : gmap (string * string) nat) (out : list Item) : Prop := {
  inv_index : ∀ k i, seen !! k = Some i ↔ ∃ x, out !! i = Some x ∧ ResourceKeyFromItem x = k;
  inv_keys : ResourceKeyFromItem <$> out = dedup (ResourceKeyFromItem <$> items);
  inv_last : ∀ x, x ∈ out ↔ last_row items x;
}.

Lemma merge_inv_NoDup items seen out : merge_inv items seen out → NoDup (ResourceKeyFromItem <$> out).
Proof. intros [_ -> _]. apply NoDup_dedup. Qed.

Lemma merge_inv_seen items seen out k :
  merge_inv items seen out → is_Some (seen !! k) ↔ k ∈ ResourceKeyFromItem <$> items.
Proof.
  intros [Hi Hk _]. rewrite <- (elem_of_dedup (ResourceKeyFromItem <$> items)), <- Hk, list_elem_of_fmap. split.
  - intros [i (x & Hx & <-)%Hi]. exists x. split; [done|]. by eapply list_elem_of_lookup_2.
  - intros (x & -> & [i Hx]%list_elem_of_lookup). exists i. apply Hi. eauto.
Qed.

Lemma merge_step_inv items seen out item :
  merge_inv items seen out →
  let '(seen', out') := merge_step (seen, out) item in merge_inv (items ++ [item]) seen' out'.
Proof.
  intros Hinv. pose proof (merge_inv_NoDup _ _ _ Hinv) as Hnd.
  pose proof (merge_inv_seen _ _ _ (ResourceKeyFromItem item) Hinv) as Hseen.
  destruct Hinv as [Hi Hk Hl]. simpl. destruct (seen !! ResourceKeyFromItem item) as [idx|] eqn:Hs.
  - pose proof Hs as (y & Hy & Hyk)%Hi.
    assert (ResourceKeyFromItem <$> <[idx := item]> out = ResourceKeyFromItem <$> out) as Hsame.
    { rewrite list_fmap_insert. apply list_insert_id. by rewrite list_lookup_fmap, Hy, <- Hyk. }
    split.
    + intros k i. rewrite Hi. destruct (decide (i = idx)) as [->|Hne].
      * rewrite Hy, list_lookup_insert_eq by (by eapply lookup_lt_Some).
        split; intros (x & [= <-] & <-); eauto.
      * by rewrite list_lookup_insert_ne.
    + rewrite Hsame, Hk, fmap_snoc, dedup_snoc, decide_True; [by rewrite List.app_nil_r|].
      apply Hseen. eauto.
    + intros x. rewrite last_row_snoc, <- Hl. split.
      * intros [i Hx]%list_elem_of_lookup. apply list_lookup_insert_Some in Hx as [(-> & -> & _)|[Hne Hx]]; [by left|].
        right. split; [by eapply list_elem_of_lookup_2|]. intros Heq. apply Hne.
        eapply (NoDup_lookup _ idx i (ResourceKeyFromItem item)); [exact Hnd|..];
          rewrite list_lookup_fmap; [by rewrite Hy, <- Hyk|by rewrite Hx, <- Heq].
      * intros [->|[[i Hx]%list_elem_of_lookup Hne]]; apply list_elem_of_lookup.
        -- exists idx. apply list_lookup_insert_eq. by eapply lookup_lt_Some.
        -- exists i. rewrite list_lookup_insert_ne; [done|]. intros <-. apply Hne. congruence.
  - assert (ResourceKeyFromItem item ∉ ResourceKeyFromItem <$> items) as Hnew.
    { intros [? ?]%Hseen. congruence. }
    split.
    + intros k i. rewrite lookup_insert_Some, Hi. setoid_rewrite lookup_app_Some. split.
      * intros [[<- <-]|[Hne (x & Hx & <-)]]; [|by eauto].
        exists item. split; [|done]. right. by rewrite Nat.sub_diag.
      * intros (x & [Hx|[Hge Hx]] & <-).
        -- right. split; [|eauto]. intros Heq. apply Hnew.
           rewrite <- (elem_of_dedup (ResourceKeyFromItem <$> items)), <- Hk, Heq.
           apply list_elem_of_fmap_2. by eapply list_elem_of_lookup_2.
        -- apply list_lookup_singleton_Some in Hx as [? <-]. left. split; [done|lia].
    + by rewrite !fmap_snoc, Hk, dedup_snoc, decide_False by done.
    + intros x. rewrite elem_of_app, list_elem_of_singleton, last_row_snoc, Hl. split; [|tauto].
      intros [Hx|Hx]; [|by left]. right. split; [done|]. intros Heq. apply Hnew. rewrite <- Heq.
      destruct Hx as (l1 & l2 & -> & _). apply list_elem_of_fmap_2, elem_of_app. right. by left.
Qed.

Lemma merge_loop_inv items :
  let '(seen, out) := fold_left merge_step items (∅, []) in merge_inv items seen out.
Proof.
  induction items as [|x items IH] using rev_ind; simpl.
  - split; [|done|].
    + intros k i. rewrite lookup_empty. split; [done|]. intros (x & Hx & _). by rewrite lookup_nil in Hx.
    + intros x. split; [by intros ?%elem_of_nil|]. intros (l1 & l2 & Hl & _). by destruct l1.
  - rewrite fold_left_app. simpl. destruct (fold_left merge_step items (∅, [])) as [seen out].
    by apply merge_step_inv.
Qed.

(** Collapsing rows by resource keeps exactly the last row of every resource
    and one row per resource, in the order in which the resources first appear;
    the default mode keeps every row. *)
Theorem merge_rows_last_wins items :
  MergeRows items DedupeKeepAll = items ∧
  let out := MergeRows items DedupeByResourceUID in
  (∀ x, x ∈ out ↔ last_row items x) ∧
  ResourceKeyFromItem <$> out = dedup (ResourceKeyFromItem <$> items) ∧
  NoDup (ResourceKeyFromItem <$> out).
Proof.
  split; [by destruct items|]. cbv zeta.
  replace (MergeRows items DedupeByResourceUID) with (fold_left merge_step items (∅, [])).2
    by (by destruct items).
  pose proof (merge_loop_inv items) as Hinv.
  destruct (fold_left merge_step items (∅, [])) as [seen out]. simpl.
  split_and!; [apply (inv_last _ _ _ Hinv)|apply (inv_keys _ _ _ Hinv)|by eapply merge_inv_NoDup].
Qed.
