(* ===== verification/Json.v ===== *)
(** The JSON and time encodings of the standard library that the export path
    relies on: [encoding/json] on the value tree and [time.RFC3339Nano]. They are
    byte-exact, because the size limits of the export are limits on these bytes. *)

From S2P Require Import Prelude GoStrings Values.

(** * Strings *)

Definition dquote : string := String (ascii_of_nat 34) "".
Definition backslash : string := String (ascii_of_nat 92) "".

Definition hex_digit (n : nat) : ascii :=
  if n <? 10 then ascii_of_nat (48 + n) else ascii_of_nat (87 + n).

(** The encoding of one ASCII byte: quotes, backslashes, control bytes and the
    HTML-sensitive bytes are escaped. *)
Definition json_ascii (c : ascii) : string :=
  let n := nat_of_ascii c in
  if decide (n = 34 ∨ n = 92) then backslash +:+ String c ""
  else if decide (n = 8) then backslash +:+ "b"
  else if decide (n = 12) then backslash +:+ "f"
  else if decide (n = 10) then backslash +:+ "n"
  else if decide (n = 13) then backslash +:+ "r"
  else if decide (n = 9) then backslash +:+ "t"
  else if decide (n < 32 ∨ n = 60 ∨ n = 62 ∨ n = 38) then
    backslash +:+ "u00" +:+ String (hex_digit (n / 16)) (String (hex_digit (n `mod` 16)) "")
  else String c "".

Definition byte_in (lo hi : nat) (c : ascii) : bool :=
  (lo <=? nat_of_ascii c) && (nat_of_ascii c <=? hi).

(** The number of continuation bytes of the well-formed UTF-8 sequence at the
    head of a string whose first byte is not ASCII; [None] when it is ill-formed. *)
Definition utf8_tail (s : string) : option nat :=
  match s with
  | String c s1 =>
      let n := nat_of_ascii c in
      let cont := byte_in 128 191 in
      match s1 with
      | String c1 s2 =>
          if (194 <=? n) && (n <=? 223) then if cont c1 then Some 1 else None
          else
            match s2 with
            | String c2 s3 =>
                if (224 <=? n) && (n <=? 239) then
                  let lo := if n =? 224 then 160 else 128 in
                  let hi := if n =? 237 then 159 else 191 in
                  if byte_in lo hi c1 && cont c2 then Some 2 else None
                else
                  match s3 with
                  | String c3 _ =>
                      if (240 <=? n) && (n <=? 244) then
                        let lo := if n =? 240 then 144 else 128 in
                        let hi := if n =? 244 then 143 else 191 in
                        if byte_in lo hi c1 && cont c2 && cont c3 then Some 3 else None
                      else None
                  | "" => None
                  end
            | "" => None
            end
      | "" => None
      end
  | "" => None
  end.

(** U+2028 and U+2029, which are escaped too. *)
Definition line_separator : string :=
  String (ascii_of_nat 226) (String (ascii_of_nat 128) (String (ascii_of_nat 168) "")).
Definition paragraph_separator : string :=
  String (ascii_of_nat 226) (String (ascii_of_nat 128) (String (ascii_of_nat 169) "")).

(** [copy] bytes are still to be copied and then [drop] bytes to be skipped of
    the rune in progress. *)
Fixpoint json_chars (copy drop : nat) (s : string) : string :=
  match s with
  | "" => ""
  | String c s' =>
      match copy, drop with
      | S k, _ => String c (json_chars k drop s')
      | 0, S k => json_chars 0 k s'
      | 0, 0 =>
          if nat_of_ascii c <? 128 then json_ascii c +:+ json_chars 0 0 s'
          else if has_prefix line_separator s then backslash +:+ "u2028" +:+ json_chars 0 2 s'
          else if has_prefix paragraph_separator s then backslash +:+ "u2029" +:+ json_chars 0 2 s'
          else match utf8_tail s with
               | Some k => String c (json_chars k 0 s')
               | None => backslash +:+ "ufffd" +:+ json_chars 0 0 s'
               end
      end
  end.

Definition json_string (s : string) : string := dquote +:+ json_chars 0 0 s +:+ dquote.

(** * Values *)

(** [{"k":v,...}] and [[v,...]] from encoded parts. *)
Definition json_object (fields : list (string * string)) : string :=
  "{" +:+ join "," ((λ kv, json_string kv.1 +:+ ":" +:+ kv.2) <$> fields) +:+ "}".
Definition json_array (elems : list string) : string := "[" +:+ join "," elems +:+ "]".

(** The keys of a map are written in increasing order. *)
Definition sort_fields {A} (m : list (string * A)) : list (string * A) :=
  merge_sort (λ x y, String.le x.1 y.1) m.

(** [json.Marshal]; [None] is the error for a number or a type JSON cannot represent. *)
Fixpoint json_value (v : value) : option string :=
  match v with
  | VNull => Some "null"
  | VBool b => Some (if b then "true" else "false")
  | VInt z => Some (fmt_d z)
  | VFloat r => if decide (r = "NaN" ∨ r = "+Inf" ∨ r = "-Inf") then None else Some r
  | VString s => Some (json_string s)
  | VList l => json_array <$> mapM id (List.map json_value l)
  | VMap m =>
      json_object <$>
        mapM (λ kv, pair kv.1 <$> kv.2) (sort_fields (List.map (λ kv, (kv.1, json_value kv.2)) m))
  | VOther j => j
  end.

(** An [omitempty] field. *)
Definition json_opt (k : string) (present : bool) (v : string) : list (string * string) :=
  if present then [(k, v)] else [].

(** * Time *)

Definition pad (width : nat) (s : string) : string := zeros (width - String.length s) +:+ s.

(** The civil date of a day number counted from 1970-01-01. *)
Definition civil_of_days (z : Z) : Z * Z * Z :=
  let z := (z + 719468)%Z in
  let era := (z / 146097)%Z in
  let doe := (z - era * 146097)%Z in
  let yoe := ((doe - doe / 1460 + doe / 36524 - doe / 146096) / 365)%Z in
  let doy := (doe - (365 * yoe + yoe / 4 - yoe / 100))%Z in
  let mp := ((5 * doy + 2) / 153)%Z in
  let d := (doy - (153 * mp + 2) / 5 + 1)%Z in
  let m := (if decide (mp < 10) then mp + 3 else mp - 9)%Z in
  ((yoe + era * 400 + (if decide (m <= 2) then 1 else 0))%Z, m, d).

(** The fraction of a second, without trailing zeros. *)
Definition fraction (ns : Z) : string :=
  if decide (ns = 0)%Z then ""
  else "." +:+ trim_right (λ c, bool_decide (c = "0"%char)) (pad 9 (fmt_d ns)).

(** [t.UTC().Format(time.RFC3339Nano)] for years 0 to 9999. *)
Definition rfc3339nano (t : Z) : string :=
  let secs := (t / second)%Z in
  let ns := (t `mod` second)%Z in
  let '(y, m, d) := civil_of_days (secs / 86400) in
  let sod := (secs `mod` 86400)%Z in
  pad 4 (fmt_d y) +:+ "-" +:+ pad 2 (fmt_d m) +:+ "-" +:+ pad 2 (fmt_d d) +:+ "T" +:+
  pad 2 (fmt_d (sod / 3600)) +:+ ":" +:+ pad 2 (fmt_d ((sod / 60) `mod` 60)) +:+ ":" +:+
  pad 2 (fmt_d (sod `mod` 60)) +:+ fraction ns +:+ "Z".

Example rfc3339nano_epoch : rfc3339nano 0 = "1970-01-01T00:00:00Z".
Proof. reflexivity. Qed.
Example rfc3339nano_leap : rfc3339nano (1709210096 * second + 120000000) = "2024-02-29T12:34:56.12Z".
Proof. vm_compute. reflexivity. Qed.
Example rfc3339nano_zero : rfc3339nano zero_time = "0001-01-01T00:00:00Z".
Proof. vm_compute. reflexivity. Qed.

Example json_escapes :
  json_string "a<b" = dquote +:+ "a" +:+ backslash +:+ "u003cb" +:+ dquote ∧
  json_string (String (ascii_of_nat 255) "x") = dquote +:+ backslash +:+ "ufffdx" +:+ dquote ∧
  json_string (String (ascii_of_nat 195) (String (ascii_of_nat 169) "")) =
    dquote +:+ String (ascii_of_nat 195) (String (ascii_of_nat 169) "") +:+ dquote.
Proof. vm_compute. done. Qed.
