(* ===== verification/Envelope.v ===== *)
(** The export envelope, [src/internal/collect/export_envelope.go] and
    [src/internal/export/{contract,envelope,envelope_meta,spill}.go]: the bytes
    one export writes, their fingerprint and the size policy.

    [crypto/sha256] is the class [Sha256]; the JSON decoder is the class
    [JsonDecode]; the current time is an argument where the code reads it. *)

From S2P Require Import Prelude GoStrings Values Store Json.

Definition is_hex (c : ascii) : bool := is_digit c || byte_in 97 102 c.

(** [hex.EncodeToString(sha256.Sum256(payload))]: 32 bytes in hexadecimal. *)
Class Sha256 := {
  sha256_hex : string → string;
  sha256_hex_length payload : String.length (sha256_hex payload) = 64;
  sha256_hex_digits payload : string_forall is_hex (sha256_hex payload) = true;
}.

Definition ExportSchemaVersion : string := "kollect.dev/v1alpha1".

(** Go: internal/collect/export_envelope.go:21-34 [ExportMetadata] *)
Record ExportMetadata := mkMetadata {
  Generation : Z;
  Cluster : string;
  ExportedAt : Z;
  PartIndex : Z;
  PartTotal : Z;
}.

(** Go: internal/collect/export_envelope.go:36-56 [ExportEnvelope] *)
Record ExportEnvelope := mkEnvelope {
  env_SchemaVersion : string;
  env_Checksum : string;
  env_Generation : Z;
  env_PartIndex : Z;
  env_PartTotal : Z;
  env_ItemCount : Z;
  env_ExportedAt : string;
  env_Cluster : string;
  env_Items : list Item;
}.

(** [json.Marshal] of an [Item], following its field tags. *)
Definition json_item (item : Item) : option string :=
  attrs ← json_value (match Attributes item with None => VNull | Some m => VMap m end);
  Some (json_object
    ([("targetNamespace", json_string (TargetNamespace item));
      ("targetName", json_string (TargetName item));
      ("namespace", json_string (Namespace item));
      ("name", json_string (Name item))] ++
     json_opt "group" (bool_decide (Group item ≠ "")) (json_string (Group item)) ++
     [("version", json_string (Version item));
      ("kind", json_string (Kind item));
      ("uid", json_string (UID item));
      ("attributes", attrs)])).

Definition json_items (items : list Item) : option string := json_array <$> mapM json_item items.

(** The header and the items of an envelope, following its field tags. *)
Definition envelope_fields (e : ExportEnvelope) (items : string) : list (string * string) :=
  [("schemaVersion", json_string (env_SchemaVersion e));
   ("checksum", json_string (env_Checksum e))] ++
  json_opt "generation" (bool_decide (env_Generation e ≠ 0%Z)) (fmt_d (env_Generation e)) ++
  json_opt "partIndex" (bool_decide (env_PartIndex e ≠ 0%Z)) (fmt_d (env_PartIndex e)) ++
  json_opt "partTotal" (bool_decide (env_PartTotal e ≠ 0%Z)) (fmt_d (env_PartTotal e)) ++
  [("itemCount", fmt_d (env_ItemCount e));
   ("exportedAt", json_string (env_ExportedAt e))] ++
  json_opt "cluster" (bool_decide (env_Cluster e ≠ "")) (json_string (env_Cluster e)) ++
  [("items", items)].

Definition json_envelope (e : ExportEnvelope) : option string :=
  items ← json_items (env_Items e); Some (json_object (envelope_fields e items)).

Definition nul : string := String (ascii_of_nat 0) "".

(** Go: internal/collect/export_envelope.go:58-78 [itemCanonicalKey] *)
Definition itemCanonicalKey (item : Item) : string :=
  TargetNamespace item +:+ nul +:+ TargetName item +:+ nul +:+ Namespace item +:+ nul +:+
  Name item +:+ nul +:+ UID item +:+ nul +:+ Group item +:+ nul +:+ Version item +:+ nul +:+
  Kind item.

(** The error sites of the package. *)
Inductive envelope_error :=
  | ErrMarshalItems
  | ErrMarshalEnvelope
  | ErrUnsupportedSchemaVersion (v : string)
  | ErrDecodePayload.

Section envelope.
Context `{!SortFunc, !Sha256}.

(** Go: internal/collect/export_envelope.go:80-92 [canonicalItems] *)
Definition canonicalItems (items : list Item) : list Item := sort_by itemCanonicalKey items.

(** Go: internal/collect/export_envelope.go:163-167 [exportContentHash] *)
Definition exportContentHash (payload : string) : string := sha256_hex payload.

(** Go: internal/collect/export_envelope.go:94-121 [MarshalExportEnvelope] *)
Definition MarshalExportEnvelope (now : Z) (items : list Item) (meta : ExportMetadata) :
    result envelope_error string :=
  let items := canonicalItems items in
  match json_items items with
  | None => Err ErrMarshalItems
  | Some itemsJSON =>
      let exportedAt := if is_zero_time (ExportedAt meta) then now else ExportedAt meta in
      let env :=
        mkEnvelope ExportSchemaVersion (exportContentHash itemsJSON) (Generation meta)
          (PartIndex meta) (PartTotal meta) (Z.of_nat (length items)) (rfc3339nano exportedAt)
          (Cluster meta) items in
      match json_envelope env with
      | None => Err ErrMarshalEnvelope
      | Some s => Ok s
      end
  end.

(** Go: internal/export/envelope.go:30-39 [MarshalEnvelope] *)
Definition MarshalEnvelope (now : Z) (items : list Item) (meta : ExportMetadata) :
    result envelope_error string := MarshalExportEnvelope now items meta.

(** Go: internal/collect/export_envelope.go:123-133 [ItemsFingerprint] *)
Definition ItemsFingerprint (items : list Item) : result envelope_error string :=
  match json_items (canonicalItems items) with
  | None => Err ErrMarshalItems
  | Some itemsJSON => Ok (exportContentHash itemsJSON)
  end.
End envelope.

(** [json.Unmarshal] into an envelope and into a bare array of items. *)
Class JsonDecode := {
  decode_envelope : string → option ExportEnvelope;
  decode_items : string → option (list Item);
  parse_rfc3339nano : string → option Z;
}.

Section decode.
Context `{!JsonDecode}.

(** Go: internal/collect/export_envelope.go:135-161 [ItemsFromExportPayload] *)
Definition ItemsFromExportPayload (payload : string) : result envelope_error (list Item) :=
  if decide (payload = "") then Ok []
  else if decide (payload = "[]" ∨ payload = "null") then Ok []
  else
    match decode_envelope payload with
    | Some env =>
        if decide (env_SchemaVersion env ≠ "") then
          if decide (env_SchemaVersion env ≠ ExportSchemaVersion)
          then Err (ErrUnsupportedSchemaVersion (env_SchemaVersion env))
          else Ok (env_Items env)
        else match decode_items payload with None => Err ErrDecodePayload | Some items => Ok items end
    | None =>
        match decode_items payload with None => Err ErrDecodePayload | Some items => Ok items end
    end.

(** A nil slice encodes as [null]; the decoder gives a slice that is not nil.
    Go: internal/export/envelope.go:51-59 [ItemsJSONFromEnvelope] *)
Definition ItemsJSONFromEnvelope (payload : string) : result envelope_error string :=
  items ← ItemsFromExportPayload payload;
  if decide (payload = "" ∨ payload = "[]" ∨ payload = "null") then Ok "null" else
  match json_items items with None => Err ErrMarshalItems | Some s => Ok s end.

(** Go: internal/export/envelope.go:61-69 [GenerationFromEnvelope] *)
Definition GenerationFromEnvelope (payload : string) : Z :=
  match decode_envelope payload with None => 0%Z | Some env => env_Generation env end.

(** Go: internal/export/envelope_meta.go:13-26 [EnvelopeMeta] *)
Record EnvelopeMeta := mkEnvelopeMeta {
  emeta_Generation : Z;
  emeta_Cluster : string;
  emeta_ItemCount : Z;
  emeta_Checksum : string;
  emeta_ExportedAt : Z;
  emeta_PartIndex : Z;
  emeta_PartTotal : Z;
}.

(** Go: internal/export/envelope_meta.go:28-50 [EnvelopeMetaFromPayload] *)
Definition EnvelopeMetaFromPayload (payload : string) : EnvelopeMeta :=
  match decode_envelope payload with
  | None => mkEnvelopeMeta 0 "" 0 "" zero_time 0 0
  | Some env =>
      let t := if decide (env_ExportedAt env = "") then zero_time
               else default zero_time (parse_rfc3339nano (env_ExportedAt env)) in
      mkEnvelopeMeta (env_Generation env) (env_Cluster env) (env_ItemCount env) (env_Checksum env)
        t (env_PartIndex env) (env_PartTotal env)
  end.
End decode.

(** Go: internal/export/contract.go:22-29 [NormalizeSchemaVersion] *)
Definition NormalizeSchemaVersion (v : string) : string :=
  if decide (v = "") then ExportSchemaVersion else v.

(** Go: internal/export/contract.go:31-39 [ValidateSchemaVersion] *)
Definition ValidateSchemaVersion (v : string) : result envelope_error unit :=
  let v := NormalizeSchemaVersion v in
  if decide (v = ExportSchemaVersion) then Ok tt else Err (ErrUnsupportedSchemaVersion v).

(** Go: internal/export/envelope.go:71-79 [ValidateEnvelopeSchemaVersion] *)
Definition ValidateEnvelopeSchemaVersion (v : string) : result envelope_error unit :=
  let v := NormalizeSchemaVersion v in
  if decide (v ≠ ExportSchemaVersion) then Err (ErrUnsupportedSchemaVersion v) else Ok tt.

(** * Size policy *)

Definition SpillWarnBytes : Z := 2 ^ 20.
Definition SpillMandatoryBytes : Z := 2 ^ 20.

(** Go: internal/export/spill.go:12-19 [SpillAssessment] *)
Record SpillAssessment := mkSpillAssessment {
  spill_Size : Z;
  spill_Cap : Z;
  spill_Warn : bool;
  spill_RequiresSpill : bool;
  spill_ExceedsCap : bool;
}.

(** Go: internal/export/spill.go:21-35 [AssessSpill] *)
Definition AssessSpill (size maxBytes : Z) : SpillAssessment :=
  mkSpillAssessment size maxBytes (bool_decide (SpillWarnBytes ≤ size)%Z)
    (bool_decide (SpillMandatoryBytes < size)%Z)
    (bool_decide (0 < maxBytes)%Z && bool_decide (maxBytes < size)%Z).

(** Go: internal/export/spill.go:37-40 [IsObjectStoreSinkType] *)
Definition IsObjectStoreSinkType (sinkType : string) : bool :=
  bool_decide (sinkType = "s3") || bool_decide (sinkType = "gcs").

(** * Lemmas *)

Lemma json_items_perm_ok l1 l2 : l1 ≡ₚ l2 → is_Some (json_items l1) → is_Some (json_items l2).
Proof.
  unfold json_items. rewrite !fmap_is_Some, !mapM_is_Some. intros Hp. by rewrite Hp.
Qed.

Lemma json_items_is_Some items : is_Some (json_items items) ↔ Forall (λ i, is_Some (json_item i)) items.
Proof. unfold json_items. by rewrite fmap_is_Some, mapM_is_Some. Qed.

(** Rows with distinct canonical keys have only one sorted order. *)
Lemma sort_by_unique `{!SortFunc} {A} (key : A → string) l l' :
  NoDup (key <$> l) → l ≡ₚ l' → Sorted (λ x y, String.le (key x) (key y)) l' → sort_by key l = l'.
Proof.
  intros Hnd Hp Hs. pose proof (sort_by_perm key l) as Hp1. pose proof (sort_by_sorted key l) as Hs1.
  assert (sort_by key l ≡ₚ l') as Hpp by (by rewrite Hp1).
  assert (NoDup (key <$> sort_by key l)) as Hnd1 by (by rewrite Hp1).
  revert Hpp Hnd1 Hs1 Hs. generalize (sort_by key l) as l1. clear. intros l1.
  revert l'. induction l1 as [|x l1 IH]; intros l' Hp Hnd Hs1 Hs2.
  { by apply Permutation_nil in Hp as ->. }
  destruct l' as [|y l']; [by apply Permutation_nil_r in Hp|].
  assert (Transitive (λ x y, String.le (key x) (key y))) as Htr.
  { intros a b c ??. by trans (key b). }
  apply Sorted_StronglySorted in Hs1, Hs2; [|done..].
  assert (x = y) as ->.
  { apply (NoDup_fmap_elem_eq key (x :: l1)); [done|by left|rewrite Hp; by left|].
    apply (anti_symm String.le).
    - assert (y ∈ x :: l1) as [->|Hy]%elem_of_cons by (rewrite Hp; by left); [done|].
      apply StronglySorted_inv in Hs1 as [_ Hs1]. rewrite Forall_forall in Hs1. by apply Hs1.
    - assert (x ∈ y :: l') as [->|Hx]%elem_of_cons by (rewrite <- Hp; by left); [done|].
      apply StronglySorted_inv in Hs2 as [_ Hs2]. rewrite Forall_forall in Hs2. by apply Hs2. }
  f_equal. apply Permutation_cons_inv in Hp. apply NoDup_cons in Hnd as [_ Hnd].
  apply StronglySorted_inv in Hs1 as [Hs1 _], Hs2 as [Hs2 _].
  apply IH; eauto using StronglySorted_Sorted.
Qed.

(** The canonical key determines the identity of a row whose fields hold no NUL
    byte. *)
Definition nul_free (item : Item) : bool :=
  forallb (λ s, negb (has_byte (ascii_of_nat 0) s))
    [TargetNamespace item; TargetName item; Namespace item; Name item; UID item; Group item;
     Version item; Kind item].

Lemma nul_cut a b c d :
  has_byte (ascii_of_nat 0) a = false → has_byte (ascii_of_nat 0) c = false →
  a +:+ nul +:+ b = c +:+ nul +:+ d → a = c ∧ b = d.
Proof.
  intros Ha Hc Heq.
  assert (cut_byte (ascii_of_nat 0) (a +:+ nul +:+ b) = Some (a, b)) as H1 by (by apply cut_byte_Some).
  assert (cut_byte (ascii_of_nat 0) (c +:+ nul +:+ d) = Some (c, d)) as H2 by (by apply cut_byte_Some).
  rewrite Heq, H2 in H1. by simplify_eq.
Qed.

Lemma itemCanonicalKey_inj x y :
  nul_free x = true → nul_free y = true → itemCanonicalKey x = itemCanonicalKey y →
  TargetNamespace x = TargetNamespace y ∧ TargetName x = TargetName y ∧ UID x = UID y.
Proof.
  unfold nul_free, itemCanonicalKey. cbn [forallb]. intros Hx Hy Heq. to_prop.
  apply nul_cut in Heq as [Htn Heq]; [|done..]. apply nul_cut in Heq as [Ht Heq]; [|done..].
  apply nul_cut in Heq as [_ Heq]; [|done..]. apply nul_cut in Heq as [_ Heq]; [|done..].
  apply nul_cut in Heq as [Hu _]; [|done..]. done.
Qed.

(** * Properties *)

(** The rows of a namespace have pairwise distinct canonical keys. *)
Lemma snapshot_keys_NoDup `{!MapRange} ns s :
  store_ok s → Forall (λ i, nul_free i = true) (Store.SnapshotNamespace ns s).1 →
  NoDup (itemCanonicalKey <$> (Store.SnapshotNamespace ns s).1).
Proof.
  intros Hok Hnul. rewrite SnapshotNamespace_rows in *. rewrite Forall_forall in Hnul.
  rewrite <- list_fmap_compose. apply NoDup_fmap_2_strong; [|apply NoDup_map_to_list].
  intros [k1 x] [k2 y] Hx Hy Heq. simpl in Heq.
  apply itemCanonicalKey_inj in Heq as (H1 & H2 & H3);
    [|apply Hnul, list_elem_of_fmap; by eexists (_, _)..].
  apply elem_of_map_to_list in Hx, Hy. unfold RowSpec.namespace_rows in Hx, Hy.
  apply map_lookup_filter_Some in Hx as [Hx _], Hy as [Hy _].
  pose proof (rows_key_of _ _ _ Hok Hx) as Hkx. pose proof (rows_key_of _ _ _ Hok Hy) as Hky.
  assert (k1 = k2) as <- by (rewrite <- Hkx, <- Hky; unfold RowSpec.key_of; congruence).
  by simplify_eq.
Qed.

(** An export is a function of the stored rows alone: for a namespace of any
    reachable store (whose names hold no NUL byte), neither the bytes of the
    envelope nor the fingerprint depend on the order in which the store's maps
    are ranged over or on how the sort orders equal keys. *)
Theorem export_independent_of_map_order `{!Sha256} (mr mr' : MapRange) (sf sf' : SortFunc)
    ops ns now meta :
  let s := run ops Store.NewStore in
  let items := (@Store.SnapshotNamespace mr ns s).1 in
  let items' := (@Store.SnapshotNamespace mr' ns s).1 in
  Forall (λ i, nul_free i = true) items →
  @MarshalExportEnvelope sf _ now items meta = @MarshalExportEnvelope sf' _ now items' meta ∧
  @ItemsFingerprint sf _ items = @ItemsFingerprint sf' _ items'.
Proof.
  intros s items items' Hnul.
  assert (@canonicalItems sf items = @canonicalItems sf' items') as Heq.
  { unfold canonicalItems. apply sort_by_unique.
    - apply snapshot_keys_NoDup; [|done]. apply store_ok_run, store_ok_NewStore.
    - rewrite sort_by_perm. unfold items, items'. by rewrite !SnapshotNamespace_rows.
    - apply sort_by_sorted. }
  unfold MarshalExportEnvelope, ItemsFingerprint. by rewrite Heq.
Qed.

(** A stand-in digest of the documented length, for evaluating the model. *)
Definition demo_sha256 : Sha256 :=
  {| sha256_hex payload := "0123456789abcdef0123456789abcdef0123456789abcdef0123456789abcdef";
     sha256_hex_length payload := eq_refl;
     sha256_hex_digits payload := eq_refl |}.

Lemma export_independent_of_map_order_witness :
  let _ := demo_sha256 in
  let s := run [OpUpsert (demo_item "t" "u1"); OpUpsert (demo_item "t" "u2")] Store.NewStore in
  @ItemsFingerprint sort_by_merge_sort _ (@Store.SnapshotNamespace map_range_to_list "team-a" s).1 =
  @ItemsFingerprint sort_by_merge_sort _ (@Store.SnapshotNamespace map_range_reversed "team-a" s).1.
Proof.
  intros D s.
  apply (export_independent_of_map_order map_range_to_list map_range_reversed sort_by_merge_sort
    sort_by_merge_sort [OpUpsert (demo_item "t" "u1"); OpUpsert (demo_item "t" "u2")] "team-a" 0
    (mkMetadata 0 "" 0 0 0)).
  apply (bool_decide_unpack _). vm_compute. exact I.
Defined.
