(* ===== verification/FingerprintCache.v ===== *)
(** The memo of a namespace's content fingerprint that all reconciles of
    namespaced inventories share ([namespaceFingerprintCache] of
    [src/internal/controller/kollectinventory_controller.go]), and its
    interleaving with the mutations of the store.

    A lookup and a store each run under the cache's lock and the computation runs
    under neither, so a call is four steps: the read of the version, the lookup,
    the computation from a snapshot, the store. *)

From S2P Require Import Prelude GoStrings Values Store Json Envelope.

(** Go: internal/controller/kollectinventory_controller.go:61-64 [namespaceFingerprintEntry] *)
Record namespaceFingerprintEntry := mkFpEntry {
  fe_version : Z;
  fe_fingerprint : string;
}.

Abbreviation fpcache := (gmap string namespaceFingerprintEntry) (only parsing).

(** The first critical section.
    Go: internal/controller/kollectinventory_controller.go:70-76 [getOrCompute, the lookup] *)
Definition fp_lookup (namespace : string) (version : Z) (c : fpcache) : option string :=
  match c !! namespace with
  | Some entry => if decide (fe_version entry = version) then Some (fe_fingerprint entry) else None
  | None => None
  end.

(** The second critical section.
    Go: internal/controller/kollectinventory_controller.go:80-85 [getOrCompute, the store] *)
Definition fp_store (namespace : string) (version : Z) (fingerprint : string) (c : fpcache) : fpcache :=
  <[namespace := mkFpEntry version fingerprint]> c.

(** A call without interruption; the flag says whether [compute] ran.
    Go: internal/controller/kollectinventory_controller.go:66-88 [getOrCompute] *)
Definition getOrCompute (namespace : string) (version : Z) (compute : string) (c : fpcache) : string * bool * fpcache :=
  match fp_lookup namespace version c with
  | Some fingerprint => (fingerprint, false, c)
  | None => (compute, true, fp_store namespace version compute c)
  end.

(** What the closure returns for [compute]: the empty text when the rows cannot
    be encoded, the error going past the cache. *)
Definition namespace_fingerprint `{!SortFunc, !Sha256} (mr : MapRange) (ns : string) (s : Store.StoreState) : string :=
  match ItemsFingerprint (Store.SnapshotNamespace ns s).1 with Ok fp => fp | Err _ => "" end.

(** * The interleaving *)
Section system.
Context `{!SortFunc, !Sha256}.

Inductive phase :=
  | Versioned (v : Z)
  | Missed (v : Z)
  | Computed (v : Z) (fp : string)
  | Returned (fp : string).

(** A call, with the number of store operations that had run when it read the
    version. *)
Record call := mkCall {
  cl_ns : string;
  cl_start : nat;
  cl_phase : phase;
}.

(** The operations the store has seen, the cache, and the calls in flight or
    returned. *)
Record system := mkSystem {
  sys_ops : list op;
  sys_cache : fpcache;
  sys_calls : gmap nat call;
}.

Definition sys_store (y : system) : Store.StoreState := run (sys_ops y) Store.NewStore.

Definition initial : system := mkSystem [] ∅ ∅.

(** The iteration order of a snapshot may differ from one computation to the
    next. *)
Inductive event :=
  | EvStore (o : op)
  | EvVersion (i : nat) (ns : string)
  | EvLookup (i : nat)
  | EvCompute (mr : MapRange) (i : nat)
  | EvSave (i : nat).

Definition set_phase (i : nat) (c : call) (p : phase) (y : system) : system :=
  mkSystem (sys_ops y) (sys_cache y) (<[i := mkCall (cl_ns c) (cl_start c) p]> (sys_calls y)).

Definition step (y : system) (ev : event) : system :=
  match ev with
  | EvStore o => mkSystem (sys_ops y ++ [o]) (sys_cache y) (sys_calls y)
  | EvVersion i ns =>
      match sys_calls y !! i with
      | Some _ => y
      | None => set_phase i (mkCall ns (length (sys_ops y)) (Returned "")) (Versioned (Store.NamespaceVersion ns (sys_store y))) y
      end
  | EvLookup i =>
      match sys_calls y !! i with
      | Some c =>
          match cl_phase c with
          | Versioned v =>
              set_phase i c (match fp_lookup (cl_ns c) v (sys_cache y) with Some fp => Returned fp | None => Missed v end) y
          | _ => y
          end
      | None => y
      end
  | EvCompute mr i =>
      match sys_calls y !! i with
      | Some c =>
          match cl_phase c with
          | Missed v => set_phase i c (Computed v (namespace_fingerprint mr (cl_ns c) (sys_store y))) y
          | _ => y
          end
      | None => y
      end
  | EvSave i =>
      match sys_calls y !! i with
      | Some c =>
          match cl_phase c with
          | Computed v fp =>
              let y := set_phase i c (Returned fp) y in
              mkSystem (sys_ops y) (fp_store (cl_ns c) v fp (sys_cache y)) (sys_calls y)
          | _ => y
          end
      | None => y
      end
  end.

Definition system_run (evs : list event) : system := foldl step initial evs.

(** * Lemmas *)

(** The store after the first [k] operations. *)
Definition store_at (ops : list op) (k : nat) : Store.StoreState := run (take k ops) Store.NewStore.

Definition op_plain (o : op) : Prop := match o with OpUpsert item => nul_free item = true | _ => True end.

Lemma spec_run_plain ops a :
  Forall op_plain ops → map_Forall (λ _ i, nul_free i = true) a → map_Forall (λ _ i, nul_free i = true) (spec_run ops a).
Proof.
  intros Ho. revert a. induction Ho as [|o ops Hp _ IH]; intros a Ha; [done|]. cbn. apply IH.
  destruct o as [item|ns tn|ns tn uid|ns| | | |]; cbn; try done.
  - by apply map_Forall_insert_2.
  - intros k i [Hl _]%map_lookup_filter_Some. by apply (Ha k).
  - by apply map_Forall_delete.
Qed.

Lemma snapshot_plain mr ops ns :
  Forall op_plain ops → Forall (λ i, nul_free i = true) (@Store.SnapshotNamespace mr ns (run ops Store.NewStore)).1.
Proof.
  intros Ho. rewrite SnapshotNamespace_rows. apply Forall_forall. intros i ([k i'] & -> & Hin)%list_elem_of_fmap.
  apply elem_of_map_to_list in Hin. apply map_lookup_filter_Some in Hin as [Hl _].
  rewrite rows_run, rows_NewStore in Hl. eapply (spec_run_plain ops ∅); [done|apply map_Forall_empty|exact Hl].
Qed.

(** The fingerprint is a function of the rows. *)
Lemma fingerprint_of_rows mr mr' ops ops' ns :
  Forall op_plain ops →
  RowSpec.namespace_rows ns (rows (run ops Store.NewStore)) = RowSpec.namespace_rows ns (rows (run ops' Store.NewStore)) →
  namespace_fingerprint mr ns (run ops Store.NewStore) = namespace_fingerprint mr' ns (run ops' Store.NewStore).
Proof.
  intros Ho Hr. unfold namespace_fingerprint, ItemsFingerprint, canonicalItems.
  rewrite (sort_by_unique _ (@Store.SnapshotNamespace mr ns (run ops Store.NewStore)).1
             (sort_by itemCanonicalKey (@Store.SnapshotNamespace mr' ns (run ops' Store.NewStore)).1)); [done| | |apply sort_by_sorted].
  - apply snapshot_keys_NoDup; [apply store_ok_run, store_ok_NewStore|by apply snapshot_plain].
  - rewrite sort_by_perm, !SnapshotNamespace_rows. by rewrite Hr.
Qed.

Lemma version_range ops ns : (0 ≤ Store.NamespaceVersion ns (run ops Store.NewStore) < 2 ^ 64)%Z.
Proof. destruct (run_version ops ns Store.NewStore) as (k & _ & -> & _); [done|]. apply Z.mod_pos_bound. lia. Qed.

Lemma store_at_split ops j k : j ≤ k → store_at ops k = run (drop j (take k ops)) (store_at ops j).
Proof.
  intros Hjk. unfold store_at, run. rewrite <- foldl_app. f_equal.
  rewrite <- (take_drop j (take k ops)) at 1. by rewrite take_take, Nat.min_l.
Qed.

(** Between two equal readings of the version, with fewer than 2^64 operations
    in between, the rows of the namespace stay the same throughout. *)
Lemma version_pins_rows ops ns j k l :
  (Z.of_nat (length ops) < 2 ^ 64)%Z → j ≤ k → k ≤ l → 
  Store.NamespaceVersion ns (store_at ops j) = Store.NamespaceVersion ns (store_at ops l) →
  RowSpec.namespace_rows ns (rows (store_at ops l)) = RowSpec.namespace_rows ns (rows (store_at ops k)).
Proof.
  intros Hlen Hjk Hkl Hv. pose proof (version_range (take j ops) ns) as Hj. pose proof (version_range (take k ops) ns) as Hk.
  fold (store_at ops j) in Hj. fold (store_at ops k) in Hk.
  destruct (run_version (drop j (take k ops)) ns _ Hj) as (a & Ha & Hva & _). rewrite <- store_at_split in Hva by done.
  destruct (run_version (drop k (take l ops)) ns _ Hk) as (b & Hb & Hvb & Hrb). rewrite <- store_at_split in Hvb, Hrb by done.
  apply Hrb. rewrite length_drop, length_take in Ha, Hb. rewrite Hvb, Hva in Hv. unfold wrapu64 in Hv.
  rewrite Zplus_mod_idemp_l in Hv. set (v := Store.NamespaceVersion ns (store_at ops j)) in *.
  destruct (decide (v + Z.of_nat a + Z.of_nat b < 2 ^ 64)%Z).
  - rewrite Z.mod_small in Hv by lia. lia.
  - rewrite <- (Z_mod_plus_full _ (-1)), Z.mod_small in Hv by lia. lia.
Qed.

(** * Invariant *)

(** [fp] is the fingerprint of the namespace at a moment between [lo] and now. *)
Definition fp_between (ops : list op) (ns : string) (lo : nat) (fp : string) : Prop :=
  ∃ k, lo ≤ k ≤ length ops ∧ ∀ mr, fp = namespace_fingerprint mr ns (store_at ops k).

Definition call_ok (ops : list op) (c : call) : Prop :=
  cl_start c ≤ length ops ∧
  match cl_phase c with
  | Versioned v | Missed v => v = Store.NamespaceVersion (cl_ns c) (store_at ops (cl_start c))
  | Computed v fp => v = Store.NamespaceVersion (cl_ns c) (store_at ops (cl_start c)) ∧ fp_between ops (cl_ns c) (cl_start c) fp
  | Returned fp => fp_between ops (cl_ns c) (cl_start c) fp
  end.

Definition entry_ok (ops : list op) (ns : string) (e : namespaceFingerprintEntry) : Prop :=
  ∃ j, j ≤ length ops ∧ fe_version e = Store.NamespaceVersion ns (store_at ops j) ∧ fp_between ops ns j (fe_fingerprint e).

Definition system_ok (y : system) : Prop :=
  (∀ ns e, sys_cache y !! ns = Some e → entry_ok (sys_ops y) ns e) ∧
  (∀ i c, sys_calls y !! i = Some c → call_ok (sys_ops y) c).

Lemma store_at_snoc ops o k : k ≤ length ops → store_at (ops ++ [o]) k = store_at ops k.
Proof. intros Hk. unfold store_at. by rewrite take_app_le. Qed.

Lemma store_at_now ops : store_at ops (length ops) = run ops Store.NewStore.
Proof. unfold store_at. by rewrite firstn_all. Qed.

Lemma fp_between_snoc ops o ns lo fp : fp_between ops ns lo fp → fp_between (ops ++ [o]) ns lo fp.
Proof. intros (k & Hk & Hfp). exists k. rewrite List.length_app. split; [cbn; lia|]. intros mr. rewrite store_at_snoc by lia. apply Hfp. Qed.

Lemma call_ok_snoc ops o c : call_ok ops c → call_ok (ops ++ [o]) c.
Proof.
  intros [Hs Hp]. split; [rewrite List.length_app; lia|].
  destruct (cl_phase c); rewrite ?store_at_snoc by done; [done|done|destruct Hp; split; [done|]|]; by apply fp_between_snoc.
Qed.

Lemma entry_ok_snoc ops o ns e : entry_ok ops ns e → entry_ok (ops ++ [o]) ns e.
Proof.
  intros (j & Hj & Hv & Hf). exists j. rewrite List.length_app, store_at_snoc by done. split; [lia|]. split; [done|].
  by apply fp_between_snoc.
Qed.

Lemma fp_now mr ops ns lo : Forall op_plain ops → lo ≤ length ops →
  fp_between ops ns lo (namespace_fingerprint mr ns (run ops Store.NewStore)).
Proof.
  intros Ho Hlo. exists (length ops). split; [lia|]. intros mr'. rewrite store_at_now. by apply fingerprint_of_rows.
Qed.

(** A hit returns what a computation between the version read and the lookup
    would have returned. *)
Lemma hit_ok ops ns start e :
  Forall op_plain ops → (Z.of_nat (length ops) < 2 ^ 64)%Z → start ≤ length ops → entry_ok ops ns e →
  fe_version e = Store.NamespaceVersion ns (store_at ops start) → fp_between ops ns start (fe_fingerprint e).
Proof.
  intros Ho Hlen Hs (j & Hj & Hv & k & Hk & Hfp) Hve. destruct (decide (start ≤ k)) as [Hle|Hgt].
  { exists k. split; [lia|done]. }
  exists start. split; [lia|]. intros mr. rewrite (Hfp mr). unfold store_at. apply fingerprint_of_rows; [by apply Forall_take|].
  symmetry. eapply (version_pins_rows ops ns j k start); [done|lia|lia|]. congruence.
Qed.

Lemma set_phase_ok y i c p :
  system_ok y → call_ok (sys_ops y) (mkCall (cl_ns c) (cl_start c) p) → system_ok (set_phase i c p y).
Proof.
  intros [Hc Hi] Hp. split; [exact Hc|]. intros i' c' Hl. cbn in Hl.
  apply lookup_insert_Some in Hl as [[_ <-]|[_ Hl]]; [done|by apply (Hi i')].
Qed.

Lemma step_ok y ev :
  Forall op_plain (sys_ops y) → (Z.of_nat (length (sys_ops y)) < 2 ^ 64)%Z → system_ok y → system_ok (step y ev).
Proof.
  intros Ho Hlen Hok. pose proof Hok as [Hc Hi]. destruct ev as [o|i ns|i|mr i|i]; cbn [step].
  - split; cbn; intros; [by apply entry_ok_snoc, Hc|by eapply call_ok_snoc, Hi].
  - destruct (sys_calls y !! i) eqn:Hl; [done|]. apply set_phase_ok; [done|]. cbn. split; [done|]. by rewrite store_at_now.
  - destruct (sys_calls y !! i) as [c|] eqn:Hl; [|done]. destruct (Hi i c Hl) as [Hs Hp].
    destruct (cl_phase c) as [v| | |]; try done. apply set_phase_ok; [done|]. split; [done|]. cbn.
    unfold fp_lookup. destruct (sys_cache y !! cl_ns c) as [e|] eqn:He; [|done].
    destruct (decide (fe_version e = v)) as [Hv|]; [|done]. subst v. apply hit_ok; auto.
  - destruct (sys_calls y !! i) as [c|] eqn:Hl; [|done]. destruct (Hi i c Hl) as [Hs Hp].
    destruct (cl_phase c) as [|v| |]; try done. apply set_phase_ok; [done|]. split; [done|]. cbn. split; [done|]. by apply fp_now.
  - destruct (sys_calls y !! i) as [c|] eqn:Hl; [|done]. destruct (Hi i c Hl) as [Hs Hp].
    destruct (cl_phase c) as [| |v fp|]; try done. destruct Hp as [Hv Hf].
    assert (system_ok (set_phase i c (Returned fp) y)) as [Hc' Hi'] by (apply set_phase_ok; [done|by split]).
    split; [|exact Hi']. intros ns e He. cbn in He. unfold fp_store in He. apply lookup_insert_Some in He as [[<- <-]|[_ He]]; [|by apply Hc].
    exists (cl_start c). cbn. split_and!; [done|done|done].
Qed.

Definition event_op (ev : event) : list op := match ev with EvStore o => [o] | _ => [] end.

Lemma step_ops y ev : sys_ops (step y ev) = sys_ops y ++ event_op ev.
Proof.
  destruct ev as [o|i ns|i|mr i|i]; cbn [step event_op]; rewrite ?List.app_nil_r; [done|..];
    destruct (sys_calls y !! i) as [c|]; try done; by destruct (cl_phase c).
Qed.

Lemma run_ops evs y : sys_ops (foldl step y evs) = sys_ops y ++ (evs ≫= event_op).
Proof.
  revert y. induction evs as [|ev evs IH]; intros y; [by rewrite List.app_nil_r|].
  cbn [foldl]. by rewrite IH, step_ops, bind_cons, List.app_assoc.
Qed.

Lemma run_system_ok evs y :
  Forall op_plain (sys_ops y ++ (evs ≫= event_op)) → (Z.of_nat (length (sys_ops y ++ (evs ≫= event_op))) < 2 ^ 64)%Z →
  system_ok y → system_ok (foldl step y evs).
Proof.
  revert y. induction evs as [|ev evs IH]; intros y Ho Hlen Hok; [done|]. cbn [foldl].
  rewrite bind_cons in Ho, Hlen. apply IH; [by rewrite step_ops, <- List.app_assoc..|].
  apply step_ok; [by apply Forall_app in Ho as [? _]| |done]. rewrite List.length_app in Hlen. lia.
Qed.

(** C10. The fingerprint memo is linearizable: under every interleaving of
    reconciles with mutations of the store (fewer than 2^64 of them, on rows
    whose names hold no NUL byte), and whatever order the snapshots come in, a
    call returns the fingerprint a fresh computation would have returned at some
    moment between its read of the version and its return; a stale entry is
    never served. *)
Theorem fingerprint_linearizable evs i c fp :
  let y := system_run evs in
  Forall op_plain (sys_ops y) → (Z.of_nat (length (sys_ops y)) < 2 ^ 64)%Z →
  sys_calls y !! i = Some c → cl_phase c = Returned fp →
  ∃ k, cl_start c ≤ k ≤ length (sys_ops y) ∧ ∀ mr, fp = namespace_fingerprint mr (cl_ns c) (store_at (sys_ops y) k).
Proof.
  intros y Ho Hlen Hc Hp. unfold y, system_run in *. rewrite run_ops in Ho, Hlen.
  destruct (run_system_ok evs initial Ho Hlen) as [_ Hi]; [by split|].
  destruct (Hi i c Hc) as [_ H']. by rewrite Hp in H'.
Qed.
End system.

(** * Two reconciles of one namespace *)
Module FingerprintDemo.
#[local] Existing Instances sort_by_merge_sort demo_sha256.

(** The second call hits the entry of the first although another namespace
    changed in between; the third comes after a change and computes again. *)
Definition trace : list event :=
  [EvStore (OpUpsert (demo_item "t" "u1")); EvVersion 0 "team-a"; EvLookup 0; EvCompute map_range_to_list 0; EvSave 0;
   EvStore (OpRemove "team-b" "t" "u1"); EvVersion 1 "team-a"; EvLookup 1;
   EvStore (OpUpsert (demo_item "t" "u2")); EvVersion 2 "team-a"; EvLookup 2].

Definition phase_of (i : nat) : option phase := cl_phase <$> sys_calls (system_run trace) !! i.

Lemma fingerprint_linearizable_witness :
  phase_of 2 = Some (Missed 2) ∧
  ∃ c fp, sys_calls (system_run trace) !! 1 = Some c ∧ cl_phase c = Returned fp ∧
    ∃ k, 2 ≤ k ≤ 3 ∧ ∀ mr, fp = namespace_fingerprint mr "team-a" (store_at (sys_ops (system_run trace)) k).
Proof.
  split; [vm_compute; reflexivity|].
  exists (mkCall "team-a" 2 (Returned (sha256_hex ""))), (sha256_hex "").
  assert (sys_calls (system_run trace) !! 1 = Some (mkCall "team-a" 2 (Returned (sha256_hex "")))) as Hc by (vm_compute; reflexivity).
  split_and!; [exact Hc|reflexivity|].
  refine (fingerprint_linearizable trace 1 _ _ _ _ Hc eq_refl).
  - repeat constructor.
  - vm_compute. reflexivity.
Defined.

(** A fingerprint that could not be computed is remembered as the empty text: the
    next call with the same version returns it as if it had been computed. *)
Example failed_fingerprint_cached :
  let bad := mkItem "team-a" "t" "shop" "web" "apps" "v1" "Deployment" "u1" (Some [("load", VFloat "NaN")]) in
  let s := Store.Upsert bad Store.NewStore in
  ItemsFingerprint (@Store.SnapshotNamespace map_range_to_list "team-a" s).1 = Err ErrMarshalItems ∧
  let '(_, computed, c) := getOrCompute "team-a" 1 (namespace_fingerprint map_range_to_list "team-a" s) ∅ in
  computed = true ∧ (getOrCompute "team-a" 1 "" c).1 = ("", false).
Proof. vm_compute. done. Qed.
End FingerprintDemo.
