(* ===== verification/Partition.v ===== *)
(** Splitting an export into bounded parts, [src/internal/export/partition.go].

    [clock k] is what the [k]-th reading of [time.Now] returns; it is only read
    when the metadata carries no export time. *)

From S2P Require Import Prelude GoStrings Values Store Json Envelope GoPath.

(** Go: internal/export/partition.go:19-26 [EnvelopePartition] *)
Record EnvelopePartition := mkPartition {
  part_Index : Z;
  part_Total : Z;
  part_ItemCount : Z;
  part_Checksum : string;
  part_Envelope : string;
}.

(** The error sites: a sort key or an envelope that cannot be encoded, and a
    single item that exceeds the limit. *)
Inductive partition_error :=
  | ErrSortKey
  | ErrEnvelope (e : envelope_error)
  | ErrSingleItem.

Definition lift_envelope {A} (r : result envelope_error A) : result partition_error A :=
  match r with Ok a => Ok a | Err e => Err (ErrEnvelope e) end.

Definition set_part (meta : ExportMetadata) (index total : Z) : ExportMetadata :=
  mkMetadata (Generation meta) (Cluster meta) (ExportedAt meta) index total.

Definition size_of (payload : string) : Z := Z.of_nat (String.length payload).

Section partition.
Context `{!SortFunc, !Sha256, !JsonDecode}.
Variable clock : nat → Z.

(** Go: internal/export/partition.go:168-197 [stableItems] *)
Definition stableItems (items : list Item) : result partition_error (list Item) :=
  match mapM (λ i, pair i <$> json_item i) items with
  | None => Err ErrSortKey
  | Some keyed => Ok (sort_by snd keyed).*1
  end.

(** The loop over the sorted items: [groups] are flushed, [current] is the group
    being filled, [i] is the index of the next item. *)
Fixpoint pack (measureMeta : ExportMetadata) (maxBytes : Z) (i : nat)
    (groups : list (list Item)) (current rest : list Item) :
    result partition_error (list (list Item)) :=
  match rest with
  | [] => Ok (if decide (length current = 0) then groups else groups ++ [current])
  | item :: rest =>
      let candidate := current ++ [item] in
      payload ← lift_envelope (MarshalEnvelope (clock (1 + 2 * i)) candidate measureMeta);
      if decide (size_of payload ≤ maxBytes)%Z
      then pack measureMeta maxBytes (S i) groups candidate rest
      else if decide (length current = 0) then Err ErrSingleItem
      else
        single ← lift_envelope (MarshalEnvelope (clock (2 + 2 * i)) [item] measureMeta);
        if decide (maxBytes < size_of single)%Z then Err ErrSingleItem
        else pack measureMeta maxBytes (S i) (groups ++ [current]) [item] rest
  end.

(** Go: internal/export/partition.go:75-137 [partitionItemGroups] *)
Definition partitionItemGroups (sorted : list Item) (meta : ExportMetadata) (maxBytes : Z) :
    result partition_error (list (list Item)) :=
  full ← lift_envelope (MarshalEnvelope (clock 0) sorted meta);
  if decide (maxBytes ≤ 0 ∨ size_of full ≤ maxBytes)%Z then Ok [sorted]
  else if decide (length sorted = 0) then Ok [[]]
  else
    let n := Z.of_nat (length sorted) in
    pack (set_part meta n n) maxBytes 0 [] [] sorted.

(** The metadata of the [i]-th part. *)
Definition part_meta (meta : ExportMetadata) (total i : nat) : ExportMetadata :=
  if decide (1 < total) then set_part meta (Z.of_nat (i + 1)) (Z.of_nat total) else meta.

(** The loop that marshals the groups; [k] counts the clock readings. *)
Fixpoint marshal_parts (meta : ExportMetadata) (total k i : nat) (groups : list (list Item)) :
    result partition_error (list EnvelopePartition) :=
  match groups with
  | [] => Ok []
  | group :: groups =>
      payload ← lift_envelope (MarshalEnvelope (clock (k + i)) group (part_meta meta total i));
      parts ← marshal_parts meta total k (S i) groups;
      Ok (mkPartition (Z.of_nat (i + 1)) (Z.of_nat total) (Z.of_nat (length group))
            (emeta_Checksum (EnvelopeMetaFromPayload payload)) payload :: parts)
  end.

(** Go: internal/export/partition.go:28-73 [PartitionEnvelopes] *)
Definition PartitionEnvelopes (items : list Item) (meta : ExportMetadata) (maxBytes : Z) :
    result partition_error (list EnvelopePartition) :=
  sorted ← stableItems items;
  groups ← partitionItemGroups sorted meta maxBytes;
  marshal_parts meta (length groups) (1 + 2 * length sorted) 0 groups.
End partition.

(** Go: internal/export/partition.go:139-148 [PartitionsChecksum] *)
Definition PartitionsChecksum `{!Sha256} (parts : list EnvelopePartition) : string :=
  sha256_hex (String.concat "" ((λ p, part_Checksum p +:+ String (ascii_of_nat 10) "") <$> parts)).

(** Go: internal/export/partition.go:150-166 [PartitionObjectPath] *)
Definition PartitionObjectPath (baseObjectPath : string) (index total : nat) : string :=
  if decide (total ≤ 1) then baseObjectPath
  else
    let '(dir, file) := path_split baseObjectPath in
    let part := ".part-" +:+ fmt_04d index +:+ "-of-" +:+ fmt_04d total in
    match cut_last_byte "." file with
    | None | Some ("", _) => path_join dir (file +:+ part)
    | Some (name, ext) => path_join dir (name +:+ part +:+ String "." ext)
    end.

(** * Sizes *)

(** The bytes of the elements of a list, each with its separator. *)
Fixpoint join_size (l : list string) : nat :=
  match l with [] => 0 | x :: l => S (String.length x) + join_size l end.

Lemma length_join l : String.length (join "," l) = pred (join_size l).
Proof.
  induction l as [|x [|y l] IH]; [done|by cbn; rewrite Nat.add_0_r|].
  rewrite join_cons, !length_app, IH. cbn. lia.
Qed.

Lemma join_size_app l1 l2 : join_size (l1 ++ l2) = join_size l1 + join_size l2.
Proof. induction l1 as [|x l1 IH]; [done|]. cbn. rewrite IH. lia. Qed.

Fixpoint fields_size (f : list (string * string)) : nat :=
  match f with
  | [] => 0
  | (k, v) :: f => S (String.length (json_string k) + (1 + String.length v)) + fields_size f
  end.

Lemma length_json_object f : String.length (json_object f) = 2 + pred (fields_size f).
Proof.
  assert (join_size ((λ kv, json_string kv.1 +:+ ":" +:+ kv.2) <$> f) = fields_size f) as Hs.
  { induction f as [|[k v] f IH]; [done|]. rewrite fmap_cons. cbn [join_size fields_size fst snd].
    by rewrite IH, !length_app. }
  unfold json_object. rewrite !length_app, length_join, Hs. cbn. lia.
Qed.

(** [f2] has at least the fields of [f1], with values at least as long. *)
Inductive fields_le : list (string * string) → list (string * string) → Prop :=
  | fields_le_nil : fields_le [] []
  | fields_le_cons k v w f1 f2 :
      String.length v ≤ String.length w → fields_le f1 f2 → fields_le ((k, v) :: f1) ((k, w) :: f2)
  | fields_le_skip k w f1 f2 : fields_le f1 f2 → fields_le f1 ((k, w) :: f2).

Lemma fields_le_refl f : fields_le f f.
Proof. induction f as [|[k v] f IH]; by constructor. Qed.

Lemma fields_le_app f1 f2 g1 g2 : fields_le f1 f2 → fields_le g1 g2 → fields_le (f1 ++ g1) (f2 ++ g2).
Proof. intros Hf Hg. induction Hf; simpl; [done|by constructor..]. Qed.

Lemma json_object_le f1 f2 :
  fields_le f1 f2 → String.length (json_object f1) ≤ String.length (json_object f2).
Proof.
  intros H. rewrite !length_json_object. apply Nat.add_le_mono_l, Nat.pred_le_mono.
  induction H as [|k v w f1 f2 Hv H IH|k w f1 f2 H IH]; cbn [fields_size]; lia.
Qed.

Lemma json_opt_le k b1 b2 v w :
  (b1 = true → b2 = true ∧ String.length v ≤ String.length w) →
  fields_le (json_opt k b1 v) (json_opt k b2 w).
Proof.
  unfold json_opt. destruct b1, b2; intros H.
  - constructor; [by apply H|constructor].
  - by destruct H.
  - apply fields_le_skip. constructor.
  - constructor.
Qed.

Lemma json_chars_hex s : string_forall is_hex s = true → json_chars 0 0 s = s.
Proof.
  induction s as [|c s IH]; [done|]. simpl. intros [Hc Hs]%andb_true_iff. rewrite IH by done.
  clear -Hc. destruct c as [[] [] [] [] [] [] [] []]; by vm_compute in Hc.
Qed.

Lemma length_json_string_digest `{!Sha256} p : String.length (json_string (sha256_hex p)) = 66.
Proof.
  unfold json_string. rewrite json_chars_hex by apply sha256_hex_digits.
  rewrite !length_app, sha256_hex_length. done.
Qed.

(** The bytes an item takes in an array, with its separator. *)
Definition item_size (i : Item) : nat :=
  match json_item i with Some s => S (String.length s) | None => 0 end.

Lemma join_size_items items encs :
  mapM json_item items = Some encs → join_size encs = sum_list_with item_size items.
Proof.
  intros H%mapM_Some. induction H as [|i e items encs Hi H IH]; [done|].
  cbn. rewrite IH. unfold item_size. by rewrite Hi.
Qed.

Lemma json_items_length items s :
  json_items items = Some s → String.length s = 2 + pred (sum_list_with item_size items).
Proof.
  unfold json_items. intros (encs & He & ->)%fmap_Some. unfold json_array.
  rewrite !length_app, length_join, (join_size_items _ _ He). cbn. lia.
Qed.

Lemma sum_list_with_submseteq {A} (f : A → nat) l k :
  l ⊆+ k → sum_list_with f l ≤ sum_list_with f k.
Proof. intros [k' ->]%submseteq_Permutation. rewrite sum_list_with_app. lia. Qed.

(** Growing the markers: absent ones may appear, present ones may get longer. *)
Definition marker_le (p q : Z) : Prop :=
  p ≠ 0%Z → q ≠ 0%Z ∧ String.length (fmt_d p) ≤ String.length (fmt_d q).

Lemma marker_le_refl p : marker_le p p.
Proof. done. Qed.

Lemma marker_le_nat (n m : nat) : n ≤ m → marker_le (Z.of_nat n) (Z.of_nat m).
Proof. intros Hnm Hn. split; [lia|by apply length_fmt_d_mono]. Qed.

Section sizes.
Context `{!SortFunc, !Sha256, !JsonDecode}.

Lemma MarshalEnvelope_ok now items meta s :
  MarshalEnvelope now items meta = Ok s ↔
  ∃ js, json_items (canonicalItems items) = Some js ∧
    s = json_object (envelope_fields
          (mkEnvelope ExportSchemaVersion (sha256_hex js) (Generation meta) (PartIndex meta)
             (PartTotal meta) (Z.of_nat (length items))
             (rfc3339nano (if is_zero_time (ExportedAt meta) then now else ExportedAt meta))
             (Cluster meta) (canonicalItems items)) js).
Proof.
  unfold MarshalEnvelope, MarshalExportEnvelope, json_envelope.
  assert (length (canonicalItems items) = length items) as Hlen.
  { unfold canonicalItems. by rewrite sort_by_perm. }
  destruct (json_items (canonicalItems items)) as [js|] eqn:Hjs; [|naive_solver].
  cbn [env_Items]. rewrite Hjs, Hlen. cbn. split; [|naive_solver]. intros [= <-]. eauto.
Qed.

Lemma MarshalEnvelope_is_ok now items meta :
  Forall (λ i, is_Some (json_item i)) items → ∃ s, MarshalEnvelope now items meta = Ok s.
Proof.
  intros Hok. destruct (json_items (canonicalItems items)) as [js|] eqn:Hjs.
  - eexists. apply MarshalEnvelope_ok. eauto.
  - assert (is_Some (json_items (canonicalItems items))) as [? ?]; [|congruence].
    apply json_items_is_Some. unfold canonicalItems. by rewrite sort_by_perm.
Qed.

(** An envelope of more items, with longer markers, is no shorter. *)
Lemma MarshalEnvelope_le now now' items items' meta meta' s s' :
  MarshalEnvelope now items meta = Ok s → MarshalEnvelope now' items' meta' = Ok s' →
  is_zero_time (ExportedAt meta) = false → ExportedAt meta' = ExportedAt meta →
  Generation meta' = Generation meta → Cluster meta' = Cluster meta →
  marker_le (PartIndex meta) (PartIndex meta') → marker_le (PartTotal meta) (PartTotal meta') →
  items ⊆+ items' → String.length s ≤ String.length s'.
Proof.
  intros (js & Hjs & ->)%MarshalEnvelope_ok (js' & Hjs' & ->)%MarshalEnvelope_ok Hz Ht Hg Hc Hi Ho Hsub.
  apply json_object_le. unfold envelope_fields. cbn [env_SchemaVersion env_Checksum env_Generation
    env_PartIndex env_PartTotal env_ItemCount env_ExportedAt env_Cluster].
  rewrite Ht, Hz, Hg, Hc.
  assert (String.length js ≤ String.length js') as Hjl.
  { rewrite (json_items_length _ _ Hjs), (json_items_length _ _ Hjs').
    apply Nat.add_le_mono_l, Nat.pred_le_mono. unfold canonicalItems. rewrite !sort_by_perm.
    by apply sum_list_with_submseteq. }
  repeat apply fields_le_app; try apply fields_le_refl.
  - constructor; [done|]. constructor; [by rewrite !length_json_string_digest|constructor].
  - apply json_opt_le. rewrite !bool_decide_eq_true. apply Hi.
  - apply json_opt_le. rewrite !bool_decide_eq_true. apply Ho.
  - constructor; [|apply fields_le_refl]. apply length_fmt_d_mono. by apply submseteq_length.
  - constructor; [done|constructor].
Qed.
End sizes.

(** * The partition *)
Section pack.
Context `{!SortFunc, !Sha256, !JsonDecode}.
Variables (clock : nat → Z) (meta : ExportMetadata) (maxBytes : Z).
Hypothesis Htime : is_zero_time (ExportedAt meta) = false.

(** A group whose envelope, measured with the given metadata, is within the
    limit. *)
Definition fits (g : list Item) : Prop :=
  ∃ s, MarshalEnvelope 0 g meta = Ok s ∧ (size_of s ≤ maxBytes)%Z.

Lemma MarshalEnvelope_now now now' g : MarshalEnvelope now g meta = MarshalEnvelope now' g meta.
Proof. unfold MarshalEnvelope, MarshalExportEnvelope. by rewrite Htime. Qed.

Lemma pack_sound i groups current rest out :
  pack clock meta maxBytes i groups current rest = Ok out →
  Forall (λ g, g ≠ [] ∧ fits g) groups → (current = [] ∨ fits current) →
  concat out = concat groups ++ current ++ rest ∧ Forall (λ g, g ≠ [] ∧ fits g) out.
Proof.
  revert i groups current. induction rest as [|x rest IH]; intros i groups current Hok Hg Hc; simpl in Hok.
  - injection Hok as <-. destruct current as [|y current]; simpl.
    + by rewrite List.app_nil_r.
    + rewrite concat_app. simpl. rewrite !List.app_nil_r. split; [done|].
      apply Forall_app. split; [done|]. apply Forall_singleton. split; [done|].
      by destruct Hc.
  - unfold lift_envelope in Hok.
    destruct (MarshalEnvelope _ (current ++ [x]) meta) as [payload|] eqn:Hp; [|done]. simpl in Hok.
    rewrite (MarshalEnvelope_now _ 0) in Hp. case_decide as Hfit.
    + apply IH in Hok as [Hcat Hall]; [|done|by right; exists payload].
      split; [|done]. by rewrite Hcat, <- !(assoc_L (++)).
    + case_decide as Hlen; [done|].
      destruct (MarshalEnvelope _ [x] meta) as [single|] eqn:Hs; [|done]. simpl in Hok.
      case_decide as Hbig; [done|]. rewrite (MarshalEnvelope_now _ 0) in Hs.
      apply IH in Hok as [Hcat Hall].
      * split; [|done]. rewrite Hcat, concat_app. simpl. by rewrite List.app_nil_r, <- !(assoc_L (++)).
      * apply Forall_app. split; [done|]. apply Forall_singleton. split; [by destruct current|].
        destruct Hc as [->|?]; [done|done].
      * right. exists single. split; [done|]. lia.
Qed.

Lemma pack_complete i groups current rest :
  Forall (λ x, is_Some (json_item x)) (current ++ rest) → Forall (λ x, fits [x]) rest →
  ∃ out, pack clock meta maxBytes i groups current rest = Ok out.
Proof.
  revert i groups current. induction rest as [|x rest IH]; intros i groups current Hj Hf; simpl; [eauto|].
  apply Forall_cons in Hf as [Hx Hf].
  assert (current ++ x :: rest = (current ++ [x]) ++ rest) as Happ by (by rewrite <- (assoc_L (++))).
  rewrite Happ in Hj. pose proof Hj as [Hcx Hr]%Forall_app. pose proof Hcx as [_ Hjx]%Forall_app.
  destruct (MarshalEnvelope_is_ok (clock (1 + 2 * i)) (current ++ [x]) meta) as [payload Hp]; [done|].
  simpl in Hp. rewrite Hp. simpl. destruct Hx as (s & Hs & Hsize). case_decide as Hfit.
  - by apply IH.
  - case_decide as Hlen.
    + destruct current; [|done]. simpl in Hp.
      rewrite (MarshalEnvelope_now _ 0), Hs in Hp. injection Hp as <-. done.
    + rewrite (MarshalEnvelope_now _ 0), Hs. simpl. rewrite decide_False by lia.
      apply IH; [|done]. by apply Forall_app.
Qed.

Lemma fits_mono g g' : g ⊆+ g' → fits g' → Forall (λ x, is_Some (json_item x)) g → fits g.
Proof.
  intros Hsub (s' & Hs' & Hsize) Hj. destruct (MarshalEnvelope_is_ok 0 g meta Hj) as [s Hs].
  exists s. split; [done|]. unfold size_of in *.
  pose proof (MarshalEnvelope_le 0 0 g g' meta meta s s' Hs Hs' Htime eq_refl eq_refl eq_refl
    (marker_le_refl _) (marker_le_refl _) Hsub). lia.
Qed.

Lemma fits_items g : fits g → Forall (λ x, is_Some (json_item x)) g.
Proof.
  intros (s & (js & Hjs & _)%MarshalEnvelope_ok & _).
  assert (is_Some (json_items (canonicalItems g))) as Hj by eauto.
  apply json_items_is_Some in Hj. unfold canonicalItems in Hj. by rewrite sort_by_perm in Hj.
Qed.
End pack.

Lemma concat_length_nonempty {A} (gs : list (list A)) :
  Forall (λ g, g ≠ []) gs → length gs ≤ length (concat gs).
Proof.
  induction 1 as [|g gs Hg H IH]; [done|]. simpl. rewrite List.length_app. destruct g; [done|simpl; lia].
Qed.

Section partition_lemmas.
Context `{!SortFunc, !Sha256, !JsonDecode}.
Variable clock : nat → Z.

Lemma stableItems_perm items sorted : stableItems items = Ok sorted → sorted ≡ₚ items.
Proof.
  unfold stableItems. destruct (mapM _ items) as [keyed|] eqn:Hk; [|done]. intros [= <-].
  rewrite sort_by_perm. apply mapM_Some in Hk.
  assert (keyed.*1 = items) as ->; [|done].
  induction Hk as [|i ik items keyed Hi Hk IH]; [done|]. rewrite fmap_cons, IH.
  by apply fmap_Some in Hi as (? & _ & ->).
Qed.

Lemma stableItems_ok items : (∃ sorted, stableItems items = Ok sorted) ↔ Forall (λ i, is_Some (json_item i)) items.
Proof.
  unfold stableItems. destruct (mapM _ items) as [keyed|] eqn:Hk.
  - split; [intros _|eauto]. assert (is_Some (mapM (λ i, pair i <$> json_item i) items)) as Hs by eauto.
    apply mapM_is_Some in Hs. eapply Forall_impl; [exact Hs|]. intros i Hi. by apply fmap_is_Some in Hi.
  - split; [by intros [? ?]|]. intros Hj.
    assert (is_Some (mapM (λ i, pair i <$> json_item i) items)) as [? ?]; [|congruence].
    apply mapM_is_Some. eapply Forall_impl; [exact Hj|]. intros i Hi. by apply fmap_is_Some.
Qed.

Definition part_ok (meta : ExportMetadata) (total k i : nat) (g : list Item) (p : EnvelopePartition) : Prop :=
  part_Index p = Z.of_nat (i + 1) ∧ part_Total p = Z.of_nat total ∧
  part_ItemCount p = Z.of_nat (length g) ∧
  MarshalEnvelope (clock (k + i)) g (part_meta meta total i) = Ok (part_Envelope p).

Lemma marshal_parts_ok meta total k i groups parts :
  marshal_parts clock meta total k i groups = Ok parts →
  length parts = length groups ∧
  ∀ j g p, groups !! j = Some g → parts !! j = Some p → part_ok meta total k (i + j) g p.
Proof.
  revert i parts. induction groups as [|g groups IH]; intros i parts Hp; simpl in Hp.
  { simplify_eq. split; [done|]. intros j g p. by rewrite lookup_nil. }
  apply result_bind_ok in Hp as (payload & Hpay & (parts' & Hparts & [= <-])%result_bind_ok).
  apply IH in Hparts as [Hlen Hall]. split; [simpl; lia|].
  intros [|j] g' p Hg Hp; simplify_eq/=.
  - rewrite Nat.add_0_r. unfold lift_envelope in Hpay. case_match; simplify_eq. by split_and!.
  - rewrite <- Nat.add_succ_comm. by apply Hall.
Qed.

Lemma marshal_parts_total meta total k i groups :
  Forall (Forall (λ x, is_Some (json_item x))) groups →
  ∃ parts, marshal_parts clock meta total k i groups = Ok parts.
Proof.
  intros Hj. revert i. induction Hj as [|g groups Hg Hj IH]; intros i; simpl; [eauto|].
  destruct (MarshalEnvelope_is_ok (clock (k + i)) g (part_meta meta total i) Hg) as [s ->].
  destruct (IH (S i)) as [parts ->]. simpl. eauto.
Qed.
End partition_lemmas.

Section groups.
Context `{!SortFunc, !Sha256, !JsonDecode}.
Variable clock : nat → Z.

Lemma pack_concat meta maxBytes i groups current rest out :
  pack clock meta maxBytes i groups current rest = Ok out →
  concat out = concat groups ++ current ++ rest.
Proof.
  revert i groups current. induction rest as [|x rest IH]; intros i groups current Hok; simpl in Hok.
  - injection Hok as <-. destruct current as [|y current]; simpl; [by rewrite List.app_nil_r|].
    rewrite concat_app. simpl. by rewrite !List.app_nil_r.
  - apply result_bind_ok in Hok as (payload & _ & Hok). case_decide.
    + apply IH in Hok as ->. by rewrite <- !(assoc_L (++)).
    + case_decide; [done|]. apply result_bind_ok in Hok as (single & _ & Hok). case_decide; [done|].
      apply IH in Hok as ->. rewrite concat_app. simpl. by rewrite List.app_nil_r, <- !(assoc_L (++)).
Qed.

Lemma groups_concat sorted meta maxBytes groups :
  partitionItemGroups clock sorted meta maxBytes = Ok groups → concat groups = sorted.
Proof.
  unfold partitionItemGroups. intros (full & _ & Hg)%result_bind_ok.
  case_decide; [injection Hg as <-; simpl; by rewrite List.app_nil_r|].
  case_decide; [injection Hg as <-; by destruct sorted|].
  by apply pack_concat in Hg.
Qed.

(** The three outcomes of the grouping: everything fits in one markerless part,
    there was nothing to split, or there are at least two groups, each within the
    limit when measured with the widest markers. *)
Lemma groups_cases sorted meta maxBytes groups :
  is_zero_time (ExportedAt meta) = false → PartIndex meta = 0%Z → PartTotal meta = 0%Z →
  partitionItemGroups clock sorted meta maxBytes = Ok groups →
  let n := Z.of_nat (length sorted) in
  groups = [sorted] ∧ ((maxBytes ≤ 0)%Z ∨ fits meta maxBytes sorted) ∨
  sorted = [] ∧ groups = [[]] ∨
  2 ≤ length groups ≤ length sorted ∧
  Forall (λ g, g ≠ [] ∧ fits (set_part meta n n) maxBytes g) groups.
Proof.
  intros Ht Hpi Hpt Hok. pose proof (groups_concat _ _ _ _ Hok) as Hcat. revert Hok.
  unfold partitionItemGroups. intros (full & Hfull & Hg)%result_bind_ok.
  unfold lift_envelope in Hfull. destruct (MarshalEnvelope (clock 0) sorted meta) as [full'|] eqn:Hm;
    [injection Hfull as <-|done].
  rewrite (MarshalEnvelope_now meta Ht _ 0) in Hm.
  case_decide as Hc1. { injection Hg as <-. left. split; [done|]. destruct Hc1; [by left|]. right. by exists full'. }
  case_decide as Hc2. { injection Hg as <-. right. left. by destruct sorted. }
  right. right. simpl. set (n := Z.of_nat (length sorted)) in *.
  assert (is_zero_time (ExportedAt (set_part meta n n)) = false) as Ht' by done.
  apply (pack_sound clock (set_part meta n n) maxBytes Ht') in Hg as [_ Hall]; [|constructor|by left].
  assert (length groups ≤ length sorted) as Hle.
  { rewrite <- Hcat. apply concat_length_nonempty. eapply Forall_impl; [exact Hall|]. by intros g [? _]. }
  split; [|done]. split; [|done].
  destruct groups as [|g [|g' groups]]; [by simpl in Hcat; subst sorted| |simpl; lia].
  exfalso. simpl in Hcat. rewrite List.app_nil_r in Hcat. subst g.
  apply Forall_singleton in Hall as [_ (s & Hs & Hsize)]. apply Hc1. right.
  assert (String.length full' ≤ String.length s) as Hl.
  { by eapply (MarshalEnvelope_le 0 0 sorted sorted meta (set_part meta n n)). }
  unfold size_of in *. lia.
Qed.
End groups.

(** When the grouping of encodable items succeeds. *)
Lemma groups_succeed `{!SortFunc, !Sha256} clock sorted meta maxBytes :
  is_zero_time (ExportedAt meta) = false → PartIndex meta = 0%Z → PartTotal meta = 0%Z →
  Forall (λ i, is_Some (json_item i)) sorted →
  let n := Z.of_nat (length sorted) in
  (∃ groups, partitionItemGroups clock sorted meta maxBytes = Ok groups) ↔
  sorted = [] ∨ (maxBytes ≤ 0)%Z ∨ fits meta maxBytes sorted ∨
  Forall (λ i, fits (set_part meta n n) maxBytes [i]) sorted.
Proof.
  intros Ht Hpi Hpt Hj n. split.
  - intros [groups Hg]. pose proof (groups_concat _ _ _ _ _ Hg) as Hcat.
    apply groups_cases in Hg as [[-> [?|?]]|[[-> ->]|[_ Hgood]]]; try tauto.
    do 3 right. rewrite <- Hcat. apply Forall_concat. eapply Forall_impl; [exact Hgood|].
    intros g [_ Hg]. apply Forall_forall. intros x Hx.
    pose proof (fits_items _ _ _ Hg) as Hjg. rewrite Forall_forall in Hjg.
    eapply fits_mono; [done|by apply singleton_submseteq_l|exact Hg|]. apply Forall_singleton. auto.
  - intros Hcases. unfold partitionItemGroups.
    destruct (MarshalEnvelope_is_ok (clock 0) sorted meta Hj) as [full Hf]. rewrite Hf. simpl.
    case_decide as Hc1; [by eauto|]. case_decide as Hc2; [by eauto|].
    destruct Hcases as [->|[?|[(s & Hfs & Hsize)|Hall]]]; [done|tauto| |].
    + rewrite (MarshalEnvelope_now meta Ht _ 0), Hfs in Hf. injection Hf as ->. tauto.
    + by apply pack_complete.
Qed.

(** * Properties *)

(** C12. Every part of a split export respects the byte limit as persisted: with
    an export time set, no marker set by the caller, at least one item and a
    positive limit, each part's envelope, including the completeness markers
    added after the groups were measured, is at most the limit. *)
Theorem parts_within_limit `{!SortFunc, !Sha256, !JsonDecode} clock items meta maxBytes parts :
  is_zero_time (ExportedAt meta) = false → PartIndex meta = 0%Z → PartTotal meta = 0%Z →
  items ≠ [] → (0 < maxBytes)%Z →
  PartitionEnvelopes clock items meta maxBytes = Ok parts →
  Forall (λ p, (size_of (part_Envelope p) ≤ maxBytes)%Z) parts.
Proof.
  intros Ht Hpi Hpt Hne Hmax (sorted & Hs & (groups & Hg & Hp)%result_bind_ok)%result_bind_ok.
  apply stableItems_perm in Hs. apply marshal_parts_ok in Hp as [Hlen Hall].
  apply Forall_lookup. intros i p Hip.
  destruct (lookup_lt_is_Some_2 groups i) as [g Hgi]; [rewrite <- Hlen; by eapply lookup_lt_Some|].
  destruct (Hall i g p Hgi Hip) as (_ & _ & _ & Hm). simpl in Hm.
  apply groups_cases in Hg as [[-> [?|(s & Hfs & Hsize)]]|[[-> ->]|[[H2 Hle] Hgood]]]; try done.
  - lia.
  - destruct i; [|done]. injection Hgi as <-. simpl in Hm.
    rewrite (MarshalEnvelope_now meta Ht _ 0), Hfs in Hm. by injection Hm as <-.
  - by apply Permutation_nil_l in Hs.
  - rewrite Forall_lookup in Hgood. destruct (Hgood i g Hgi) as [_ (s & Hfs & Hsize)].
    apply lookup_lt_Some in Hgi. unfold part_meta in Hm. rewrite decide_True in Hm by lia.
    assert (String.length (part_Envelope p) ≤ String.length s); [|unfold size_of in *; lia].
    eapply (MarshalEnvelope_le _ _ g g _ _ _ _ Hm Hfs); try done; apply marker_le_nat; lia.
Qed.

(** C13. A split loses nothing and marks itself completely: the parts carry the
    items once each, in consecutive groups of the sorted items; part [i] of [n]
    has index [i], total [n] and its own item count; the markers are in the
    envelope exactly when there is more than one part. *)
Theorem parts_reassemble `{!SortFunc, !Sha256, !JsonDecode} clock items meta maxBytes parts :
  PartitionEnvelopes clock items meta maxBytes = Ok parts →
  ∃ groups, concat groups ≡ₚ items ∧ length groups = length parts ∧ 1 ≤ length parts ∧
    ∀ i g p, groups !! i = Some g → parts !! i = Some p →
      part_Index p = Z.of_nat (i + 1) ∧ part_Total p = Z.of_nat (length parts) ∧
      part_ItemCount p = Z.of_nat (length g) ∧
      ∃ now, MarshalEnvelope now g
        (if decide (length parts = 1) then meta
         else set_part meta (Z.of_nat (i + 1)) (Z.of_nat (length parts))) = Ok (part_Envelope p).
Proof.
  intros (sorted & Hs & (groups & Hg & Hp)%result_bind_ok)%result_bind_ok.
  apply stableItems_perm in Hs. apply marshal_parts_ok in Hp as [Hlen Hall].
  assert (1 ≤ length parts) as Hone.
  { rewrite Hlen. revert Hg. unfold partitionItemGroups. intros (full & Hf & Hg)%result_bind_ok.
    case_decide as Hc; [injection Hg as <-; simpl; lia|].
    case_decide as Hc2; [injection Hg as <-; simpl; lia|].
    apply pack_concat in Hg. destruct groups; [|simpl; lia]. simpl in Hg. by subst sorted. }
  exists groups. split_and!; [by rewrite (groups_concat _ _ _ _ _ Hg)|done|done|].
  intros i g p Hgi Hip. destruct (Hall i g p Hgi Hip) as (Hi & Ht & Hc & Hm). simpl in *.
  rewrite <- Hlen in Ht. split_and!; [done..|]. eexists. unfold part_meta in Hm.
  rewrite <- Hlen in Hm.
  destruct (decide (length parts = 1)) as [He|He];
    [rewrite decide_False in Hm by lia|rewrite decide_True in Hm by lia]; exact Hm.
Qed.

(** A split fails only for a reason the caller can see: when every item can
    be encoded, it succeeds exactly when the whole export fits, there is no limit,
    there is nothing to split, or each item fits alone in a part with the widest
    markers; so the error means that some single item exceeds the limit. *)
Theorem split_succeeds_iff `{!SortFunc, !Sha256, !JsonDecode} clock items meta maxBytes :
  is_zero_time (ExportedAt meta) = false → PartIndex meta = 0%Z → PartTotal meta = 0%Z →
  Forall (λ i, is_Some (json_item i)) items →
  let n := Z.of_nat (length items) in
  is_ok (PartitionEnvelopes clock items meta maxBytes) = true ↔
  items = [] ∨ (maxBytes ≤ 0)%Z ∨ fits meta maxBytes items ∨
  Forall (λ i, fits (set_part meta n n) maxBytes [i]) items.
Proof.
  intros Ht Hpi Hpt Hj n. pose proof Hj as [sorted Hs]%stableItems_ok.
  pose proof (stableItems_perm _ _ Hs) as Hperm.
  assert (Forall (λ i, is_Some (json_item i)) sorted) as Hj' by (by rewrite Hperm).
  pose proof (groups_succeed clock sorted meta maxBytes Ht Hpi Hpt Hj') as Hok.
  assert (fits meta maxBytes sorted ↔ fits meta maxBytes items) as Hfits.
  { split; intros Hf; (eapply fits_mono; [done| |exact Hf|done]); by rewrite Hperm. }
  assert (Forall (λ i, fits (set_part meta n n) maxBytes [i]) sorted ↔
          Forall (λ i, fits (set_part meta n n) maxBytes [i]) items) as Hall by (by rewrite Hperm).
  assert (sorted = [] ↔ items = []) as Hnil.
  { rewrite <- !length_zero_iff_nil. by rewrite Hperm. }
  assert (length sorted = length items) as Hlen by (by rewrite Hperm).
  cbv zeta in Hok. rewrite Hlen in Hok. fold n in Hok.
  apply (iff_trans (B := ∃ groups, partitionItemGroups clock sorted meta maxBytes = Ok groups));
    [clear Hok Hfits Hall|apply (iff_trans Hok); clear -Hnil Hfits Hall; by repeat apply Morphisms_Prop.or_iff_morphism].
  unfold PartitionEnvelopes. rewrite Hs. simpl.
  destruct (partitionItemGroups clock sorted meta maxBytes) as [groups|] eqn:Hg; [|naive_solver].
  split; [by eauto|]. intros _. simpl.
  destruct (marshal_parts_total clock meta (length groups) (1 + 2 * length sorted) 0 groups) as [parts Hparts].
  - apply Forall_concat. by rewrite (groups_concat _ _ _ _ _ Hg).
  - simpl in Hparts. by rewrite Hparts.
Qed.

(** The suffix of a part and the file it names. *)
Definition part_suffix (index total : nat) : string :=
  ".part-" +:+ fmt_04d index +:+ "-of-" +:+ fmt_04d total.

Lemma part_suffix_inj i t i' t' r :
  part_suffix i t +:+ r = part_suffix i' t' +:+ r → i = i' ∧ t = t'.
Proof.
  unfold part_suffix. rewrite !app_assoc. intros H. apply app_inv_l in H.
  assert (∀ k u, cut_byte "-" (fmt_04d k +:+ "-of-" +:+ u) = Some (fmt_04d k, "of-" +:+ u)) as Hcut.
  { intros k u. apply cut_byte_Some. split; [done|]. by apply fmt_04d_free. }
  pose proof (Hcut i (fmt_04d t +:+ r)) as H1. rewrite H, Hcut in H1.
  injection H1 as Hi Ht. change (fmt_04d t' +:+ r = fmt_04d t +:+ r) in Ht.
  apply app_inv_r in Ht. by apply (inj fmt_04d) in Hi, Ht.
Qed.

Lemma part_file_ok name index total ext :
  has_byte "/" name = false → has_byte "/" ext = false →
  let f := name +:+ part_suffix index total +:+ ext in
  f ≠ "" ∧ f ≠ "." ∧ f ≠ ".." ∧ has_byte "/" f = false.
Proof.
  intros Hn He f.
  assert (6 ≤ String.length f) as Hlen.
  { unfold f, part_suffix. rewrite !length_app. simpl. lia. }
  split_and!; [intros Hf; rewrite Hf in Hlen; simpl in Hlen; lia..|].
  unfold f, part_suffix. rewrite !has_byte_app, Hn, He, !fmt_04d_free by done. done.
Qed.

(** The file a part is stored under, in the directory of the base path. *)
Lemma PartitionObjectPath_file base :
  ∃ dir name ext, has_byte "/" name = false ∧ has_byte "/" ext = false ∧
    ∀ index total, 2 ≤ total →
      PartitionObjectPath base index total = path_join dir (name +:+ part_suffix index total +:+ ext).
Proof.
  unfold PartitionObjectPath. destruct (path_split base) as [dir file] eqn:Hsp.
  apply path_split_file in Hsp as [_ Hf].
  assert (∀ index total, 2 ≤ total → (if decide (total ≤ 1) then base else
    path_join dir (file +:+ part_suffix index total)) = path_join dir (file +:+ part_suffix index total +:+ "")) as Hno.
  { intros. rewrite decide_False by lia. by rewrite app_nil_r. }
  destruct (cut_last_byte "." file) as [[name ext]|] eqn:Hc; [|by exists dir, file, ""].
  destruct name as [|c name]; [by exists dir, file, ""|].
  apply cut_last_byte_Some in Hc as [-> _]. rewrite has_byte_app in Hf. apply orb_false_iff in Hf as [Hn He].
  exists dir, (String c name), (String "." ext). split_and!; [done..|].
  intros index total Ht. by rewrite decide_False by lia.
Qed.

(** The parts of a multipart export never overwrite each other: below one
    base path, distinct (index, total) pairs have distinct object paths, whatever
    the base path is. *)
Theorem part_paths_distinct base i t i' t' :
  2 ≤ t → 2 ≤ t' → PartitionObjectPath base i t = PartitionObjectPath base i' t' → i = i' ∧ t = t'.
Proof.
  intros Ht Ht'. destruct (PartitionObjectPath_file base) as (dir & name & ext & Hn & He & Hp).
  rewrite !Hp by done. intros Heq.
  destruct (part_file_ok name i t ext Hn He) as (?&?&?&?).
  destruct (part_file_ok name i' t' ext Hn He) as (?&?&?&?).
  apply path_join_inj in Heq; [|done..]. apply app_inv_l in Heq. by apply part_suffix_inj in Heq.
Qed.

Lemma part_paths_distinct_witness :
  PartitionObjectPath "a/b.json" 1 2 = "a/b.part-0001-of-0002.json" ∧
  PartitionObjectPath "a/b.json" 1 2 ≠ PartitionObjectPath "a/b.json" 2 2.
Proof.
  split; [reflexivity|]. intros H.
  destruct (part_paths_distinct "a/b.json" 1 2 2 2 ltac:(lia) ltac:(lia) H) as [H1 _].
  discriminate H1.
Defined.

(** * Witnesses *)

(** A decoder that reads nothing, for evaluating the model. *)
Definition demo_decode : JsonDecode :=
  {| decode_envelope _ := None; decode_items _ := None; parse_rfc3339nano _ := None |}.

Definition demo_parts (maxBytes : Z) : result partition_error (list EnvelopePartition) :=
  @PartitionEnvelopes sort_by_merge_sort demo_sha256 demo_decode (λ _, 0%Z)
    [demo_item "t" "u1"; demo_item "t" "u2"] (mkMetadata 1 "" 0 0 0) maxBytes.

Lemma parts_within_limit_witness :
  match demo_parts 400 with
  | Ok parts => length parts = 2 ∧ Forall (λ p, (size_of (part_Envelope p) ≤ 400)%Z) parts
  | Err _ => False
  end.
Proof.
  destruct (demo_parts 400) as [parts|e] eqn:Hp; [|vm_compute in Hp; discriminate Hp].
  split; [vm_compute in Hp; injection Hp as <-; reflexivity|].
  apply (@parts_within_limit sort_by_merge_sort demo_sha256 demo_decode (λ _, 0%Z)
    [demo_item "t" "u1"; demo_item "t" "u2"] (mkMetadata 1 "" 0 0 0) 400 parts);
    [reflexivity|reflexivity|reflexivity|discriminate|reflexivity|exact Hp].
Defined.

Lemma parts_reassemble_witness :
  match demo_parts 400 with
  | Ok parts => ∃ groups : list (list Item), concat groups ≡ₚ [demo_item "t" "u1"; demo_item "t" "u2"] ∧
                  length groups = length parts
  | Err _ => False
  end.
Proof.
  destruct (demo_parts 400) as [parts|e] eqn:Hp; [|vm_compute in Hp; discriminate Hp].
  destruct (@parts_reassemble sort_by_merge_sort demo_sha256 demo_decode (λ _, 0%Z)
    [demo_item "t" "u1"; demo_item "t" "u2"] (mkMetadata 1 "" 0 0 0) 400 parts Hp)
    as (groups & Hg & Hl & _).
  exists groups. exact (conj Hg Hl).
Defined.

Lemma split_succeeds_iff_witness :
  ∃ e, demo_parts 300 = Err e ∧
  (is_ok (demo_parts 300) = true →
   @fits sort_by_merge_sort demo_sha256 (mkMetadata 1 "" 0 0 0) 300
     [demo_item "t" "u1"; demo_item "t" "u2"]).
Proof.
  eexists. split; [vm_compute; reflexivity|]. intros Hok.
  assert (Forall (λ i, is_Some (json_item i)) [demo_item "t" "u1"; demo_item "t" "u2"]) as Hj.
  { repeat constructor; eexists; vm_compute; reflexivity. }
  apply (@split_succeeds_iff sort_by_merge_sort demo_sha256 demo_decode (λ _, 0%Z)
    [demo_item "t" "u1"; demo_item "t" "u2"] (mkMetadata 1 "" 0 0 0) 300
    eq_refl eq_refl eq_refl Hj) in Hok as [?|[?|[?|Hall]]]; [done|done|done|].
  apply Forall_cons in Hall as [(s & Hs & Hsize) _]. exfalso.
  vm_compute in Hs. injection Hs as <-. vm_compute in Hsize. by apply Hsize.
Defined.

(** The part boundaries of an unchanged inventory are not a function of its
    content: [exportedAt] is written without trailing zeros, so an export at a
    whole second fits where the same export a fraction later does not, and the
    digest over the parts changes with it. *)
Example boundaries_depend_on_export_time :
  let parts t := @PartitionEnvelopes sort_by_merge_sort demo_sha256 demo_decode (λ _, 0%Z)
    [demo_item "t" "u1"; demo_item "t" "u2"] (mkMetadata 1 "" t 0 0) 507 in
  let count r := match r with Ok parts => length parts | Err _ => 0 end in
  count (parts (1700000000 * second)%Z) = 1 ∧ count (parts (1700000000 * second + 123456789)%Z) = 2.
Proof. split; vm_compute; reflexivity. Qed.
