(* ===== verification/Extract.v ===== *)
(** Attribute extraction, [src/internal/collect/extractor.go].

    The CEL and JSONPath evaluators and the Helm release decoder are the class
    [ExtractApi]; their errors carry a message. The code's own part is the choice
    of evaluator, the handling of missing and failing attributes, and the
    reduction of evaluation errors to fixed classes. *)

From S2P Require Import Prelude GoStrings Values Api.

Definition celPrefix : string := "cel:".
Definition HelmReleasePathPrefix : string := "helm:release.".

(** A CEL value by what its [Value()] gives: null, a scalar, a [map[string]any] or
    [[]any] of the object it was evaluated on, or a value of another Go type, such as
    bytes, a timestamp, and the [[]ref.Val] or [map[ref.Val]ref.Val] of a list or map
    that the expression builds. *)
Inductive cel_value :=
  | CelNull
  | CelNative (v : value)
  | CelOther (json : option string).

(** [xcel_compile] is [Env.Compile] followed by [Env.Program]; [xcel_eval] gives
    the value or the evaluation error's message. [jp_find] is [FindResults]. *)
Class ExtractApi := {
  xcel_program : Type;
  xcel_compile : string → result string xcel_program;
  xcel_eval : xcel_program → object → result string cel_value;
  jsonpath : Type;
  jp_parse : string → result string jsonpath;
  jp_find : jsonpath → object → result string (list (list value));
  extractHelmReleaseField : object → string → result string (option value);
}.

(** The error returns of [extractOne]. *)
Inductive extract_error :=
  | ErrEmptyPath
  | ErrEmptyCEL
  | ErrCompileCEL (msg : string)
  | ErrEvalCEL (class : string)
  | ErrParseJSONPath (msg : string)
  | ErrEvalJSONPath (class : string)
  | ErrHelm (msg : string).

(** [fmt.Errorf("attribute %q: %w", ...)]. *)
Record attribute_error := mkAttributeError { err_attribute : string; err_cause : extract_error }.

(** Go: internal/collect/extractor.go:157-184 [celEvalErrorClasses] *)
Definition celEvalErrorClasses : list (string * string) :=
  [("no such key", "no such key");
   ("no such attribute", "no such attribute");
   ("no such overload", "no matching overload (type mismatch)");
   ("type conversion error", "type conversion error");
   ("timestamp", "invalid timestamp");
   ("duration", "invalid duration");
   ("division by zero", "division by zero");
   ("modulus by zero", "modulus by zero");
   ("out of bounds", "index out of bounds");
   ("out of range", "index out of bounds");
   ("unsupported index type", "unsupported index type");
   ("regexp", "invalid regular expression");
   ("overflow", "numeric overflow")].

(** Go: internal/collect/extractor.go:186-191 [jsonPathEvalErrorClasses] *)
Definition jsonPathEvalErrorClasses : list (string * string) :=
  [("cannot be filtered", "filter applied to a non-list value");
   ("incompatible types for comparison", "incompatible types for comparison");
   ("out of bounds", "array index out of bounds");
   ("is not array or slice", "index applied to a non-list value")].

Definition unclassified : string :=
  "unclassified (details withheld; they may contain resource data)".

(** Go: internal/collect/extractor.go:201-210 [classifyEvalError] *)
Fixpoint classifyEvalError (msg : string) (classes : list (string * string)) : string :=
  match classes with
  | [] => unclassified
  | (m, c) :: classes => if contains msg m then c else classifyEvalError msg classes
  end.

(** Go: internal/collect/extractor.go:193-195 [classifyCELEvalError] *)
Definition classifyCELEvalError (msg : string) : string :=
  "evaluation error: " +:+ classifyEvalError msg celEvalErrorClasses.

(** Go: internal/collect/extractor.go:197-199 [classifyJSONPathEvalError] *)
Definition classifyJSONPathEvalError (msg : string) : string :=
  "evaluation error: " +:+ classifyEvalError msg jsonPathEvalErrorClasses.

(** Go: internal/collect/extractor.go:212-214 [isJSONPathNotFound] *)
Definition isJSONPathNotFound (msg : string) : bool := contains msg "is not found".

(** Go: internal/collect/extractor.go:82-88 [normalizeJSONPath] *)
Definition normalizeJSONPath (path : string) : string :=
  match cut_prefix "$." path with
  | Some rest => "{." +:+ rest +:+ "}"
  | None => path
  end.

Section extract.
Context `{!ExtractApi}.

(** A nil result is [Ok None].
    Go: internal/collect/extractor.go:90-120 [evalJSONPath] *)
Definition evalJSONPath (obj : object) (path : string) : result extract_error (option value) :=
  match jp_parse path with
  | Err msg => Err (ErrParseJSONPath msg)
  | Ok jp =>
      match jp_find jp obj with
      | Err msg => if isJSONPathNotFound msg then Ok None
                   else Err (ErrEvalJSONPath (classifyJSONPathEvalError msg))
      | Ok [] | Ok ([] :: _) => Ok None
      | Ok ([v] :: _) => Ok (match v with VNull => None | _ => Some v end)
      | Ok (vs :: _) => Ok (Some (VList vs))
      end
  end.

(** [None] is nil.
    Go: internal/collect/extractor.go:149-155 [celValueToGo] *)
Definition celValueToGo (val : cel_value) : option value :=
  match val with
  | CelNull => None
  | CelNative v => Some v
  | CelOther json => Some (VOther json)
  end.

(** Go: internal/collect/extractor.go:122-147 [evalCEL] *)
Definition evalCEL (obj : object) (expr : string) : result extract_error (option value) :=
  let expr := trim_space expr in
  if decide (expr = "") then Err ErrEmptyCEL
  else
    match xcel_compile expr with
    | Err msg => Err (ErrCompileCEL msg)
    | Ok prg =>
        match xcel_eval prg obj with
        | Err msg => Err (ErrEvalCEL (classifyCELEvalError msg))
        | Ok v => Ok (celValueToGo v)
        end
    end.

(** Go: internal/collect/extractor.go:65-80 [extractOne] *)
Definition extractOne (obj : object) (path : string) : result extract_error (option value) :=
  let path := trim_space path in
  if decide (path = "") then Err ErrEmptyPath
  else if has_prefix celPrefix path then evalCEL obj (trim_prefix celPrefix path)
  else if has_prefix HelmReleasePathPrefix path then
    match extractHelmReleaseField obj path with Err msg => Err (ErrHelm msg) | Ok v => Ok v end
  else evalJSONPath obj (normalizeJSONPath path).

(** The loop of [Extract]; a nil value of a required attribute is stored as nil. *)
Fixpoint extract_from (obj : object) (attrs : list AttributeSpec) (results : list (string * value)) :
    result attribute_error (list (string * value)) :=
  match attrs with
  | [] => Ok results
  | attr :: attrs =>
      match extractOne obj (attr_Path attr) with
      | Err e => if attr_Optional attr then extract_from obj attrs results
                 else Err (mkAttributeError (attr_Name attr) e)
      | Ok None => if attr_Optional attr then extract_from obj attrs results
                   else extract_from obj attrs (assoc_set (attr_Name attr) VNull results)
      | Ok (Some v) => extract_from obj attrs (assoc_set (attr_Name attr) v results)
      end
  end.

(** Go: internal/collect/extractor.go:38-63 [Extract] *)
Definition Extract (obj : object) (attrs : list AttributeSpec) :
    result attribute_error (list (string * value)) :=
  extract_from obj attrs [].

(** * Lemmas *)

Lemma classifyEvalError_fixed msg classes :
  classifyEvalError msg classes ∈ unclassified :: classes.*2.
Proof.
  induction classes as [|[m c] classes IH]; [by left|]. cbn [classifyEvalError].
  destruct (contains msg m).
  - right. by left.
  - apply elem_of_cons in IH as [->|IH]; [by left|right; by right].
Qed.

(** What an attribute contributes when it does not fail. *)
Definition contribution (obj : object) (attr : AttributeSpec) : option value :=
  match extractOne obj (attr_Path attr) with
  | Err _ => None
  | Ok None => if attr_Optional attr then None else Some VNull
  | Ok (Some v) => Some v
  end.

(** A required attribute whose evaluation fails. *)
Definition fails (obj : object) (attr : AttributeSpec) : bool :=
  negb (attr_Optional attr) && negb (is_ok (extractOne obj (attr_Path attr))).

(** The value the last contributing attribute of that name leaves. *)
Fixpoint last_contribution (obj : object) (name : string) (attrs : list AttributeSpec)
    (init : option value) : option value :=
  match attrs with
  | [] => init
  | a :: attrs =>
      last_contribution obj name attrs
        (if decide (attr_Name a = name) then
           match contribution obj a with Some v => Some v | None => init end
         else init)
  end.

Lemma extract_from_ok obj attrs results out name :
  extract_from obj attrs results = Ok out →
  assoc_get name out = last_contribution obj name attrs (assoc_get name results) ∧
  Forall (λ a, fails obj a = false) attrs.
Proof.
  revert results. induction attrs as [|a attrs IH]; intros results Hok; simpl in Hok.
  { simplify_eq. by split. }
  cbn [last_contribution]. unfold contribution, fails.
  assert (∀ v, assoc_get name (assoc_set (attr_Name a) v results) =
    if decide (attr_Name a = name) then Some v else assoc_get name results) as Hset.
  { intros v. case_decide as Hn; [subst name; by rewrite assoc_get_set|by rewrite assoc_get_set_ne]. }
  destruct (extractOne obj (attr_Path a)) as [[v|]|e] eqn:He.
  - apply IH in Hok as [-> Hall]. rewrite Hset. split; [by case_decide|].
    constructor; [by rewrite He, andb_false_r|done].
  - destruct (attr_Optional a) eqn:Ho; apply IH in Hok as [-> Hall].
    + split; [by case_decide|]. constructor; [by rewrite Ho|done].
    + rewrite Hset. split; [by case_decide|]. constructor; [by rewrite He, andb_false_r|done].
  - destruct (attr_Optional a) eqn:Ho; [|done]. apply IH in Hok as [-> Hall].
    split; [by case_decide|]. constructor; [by rewrite Ho|done].
Qed.

Lemma extract_from_err obj attrs results e :
  extract_from obj attrs results = Err e →
  ∃ a, a ∈ attrs ∧ fails obj a = true ∧ err_attribute e = attr_Name a ∧
       extractOne obj (attr_Path a) = Err (err_cause e).
Proof.
  revert results. induction attrs as [|a attrs IH]; intros results Herr; simpl in Herr; [done|].
  destruct (extractOne obj (attr_Path a)) as [[v|]|c] eqn:He.
  - apply IH in Herr as (b & ? & ?). exists b. split; [by right|done].
  - destruct (attr_Optional a); apply IH in Herr as (b & ? & ?); exists b; (split; [by right|done]).
  - destruct (attr_Optional a) eqn:Ho.
    + apply IH in Herr as (b & ? & ?). exists b. split; [by right|done].
    + simplify_eq. exists a. unfold fails. rewrite Ho, He. split_and!; try done. by left.
Qed.
End extract.

(** * Properties *)

(** Extraction is all-or-nothing for required attributes: it fails exactly
    when some required attribute's evaluation fails (naming the attribute and its
    error); otherwise every name holds the value of the last attribute of that
    name that produced one, a required attribute without a value is present as
    nil and an optional one is absent. *)
Theorem extract_all_or_nothing `{!ExtractApi} obj attrs :
  match Extract obj attrs with
  | Err e =>
      ∃ a, a ∈ attrs ∧ fails obj a = true ∧ err_attribute e = attr_Name a ∧
           extractOne obj (attr_Path a) = Err (err_cause e)
  | Ok out =>
      Forall (λ a, fails obj a = false) attrs ∧
      ∀ name, assoc_get name out = last_contribution obj name attrs None
  end.
Proof.
  unfold Extract. destruct (extract_from obj attrs []) as [out|e] eqn:He.
  - split; [by eapply (extract_from_ok _ _ _ _ ""), He|]. intros name.
    by eapply extract_from_ok in He as [-> _].
  - by eapply extract_from_err.
Qed.

(** Evaluation errors cannot leak resource data: whatever message the CEL or
    JSONPath evaluator produced, the error an extraction reports is one of a
    fixed list of texts that does not depend on the object. *)
Theorem eval_errors_are_fixed `{!ExtractApi} obj path e class :
  extractOne obj path = Err e → e = ErrEvalCEL class ∨ e = ErrEvalJSONPath class →
  class ∈ (λ c, "evaluation error: " +:+ c) <$>
    (unclassified :: celEvalErrorClasses.*2 ++ jsonPathEvalErrorClasses.*2).
Proof.
  intros He Hcls.
  assert (∃ msg, class = classifyCELEvalError msg ∨ class = classifyJSONPathEvalError msg) as [msg Hm].
  { revert He. unfold extractOne, evalCEL, evalJSONPath.
    repeat case_match; intros ?; destruct Hcls; simplify_eq; eauto. }
  destruct Hm as [->| ->]; unfold classifyCELEvalError, classifyJSONPathEvalError;
    apply (list_elem_of_fmap_2 (λ c, "evaluation error: " +:+ c)).
  - pose proof (classifyEvalError_fixed msg celEvalErrorClasses) as Hf.
    apply elem_of_cons in Hf as [->|Hf]; [by left|]. right. apply elem_of_app. by left.
  - pose proof (classifyEvalError_fixed msg jsonPathEvalErrorClasses) as Hf.
    apply elem_of_cons in Hf as [->|Hf]; [by left|]. right. apply elem_of_app. by right.
Qed.

(** An evaluator whose only error quotes the object, for evaluating the model. *)
Definition demo_extract : ExtractApi := {|
  xcel_program := string;
  xcel_compile e := Ok e;
  xcel_eval e o := Ok (from_option CelNative CelNull (assoc_get e o));
  jsonpath := string;
  jp_parse p := Ok p;
  jp_find p o := match assoc_get p o with
                 | Some v => Ok [[v]]
                 | None => Err "map[password:hunter2] is not array or slice"
                 end;
  extractHelmReleaseField o p := Err "not a helm release";
|}.

Lemma eval_errors_are_fixed_witness :
  let _ := demo_extract in
  let e := "evaluation error: index applied to a non-list value" in
  extractOne [] "spec" = Err (ErrEvalJSONPath e) ∧
  e ∈ (λ c, "evaluation error: " +:+ c) <$>
    (unclassified :: celEvalErrorClasses.*2 ++ jsonPathEvalErrorClasses.*2).
Proof.
  intros D e. split; [reflexivity|].
  apply (eval_errors_are_fixed [] "spec" (ErrEvalJSONPath e) e); [reflexivity|by right].
Defined.
