(* ===== verification/Access.v ===== *)
(** The access-review cache, [src/internal/collect/access.go]: decisions of the
    authorization API behind a bounded LRU with a time to live.

    The list elements are cells named by numbers: [lru] orders them, [cache] finds
    the cell of a key, [cells] is the entry a cell points at. The review itself is
    an argument ([None] when the call fails), and so are the clock readings. *)

From S2P Require Import Prelude GoStrings Values Api.

Module AccessCache.

Definition defaultAccessCacheCapacity : nat := 4096.

(** Go: internal/collect/access.go:31-37 [accessCacheEntry] *)
Record accessCacheEntry := mkAccessEntry {
  entry_key : string;
  entry_allowed : bool;
  entry_expiresAt : Z;
}.

(** Go: internal/collect/access.go:39-52 [AccessChecker] *)
Record AccessChecker := mkAccessChecker {
  has_client : bool;
  cacheTTL : Z;
  capacity : nat;
  lru : list nat;
  cells : gmap nat accessCacheEntry;
  cache : gmap string nat;
  next_cell : nat;
}.

(** Go: internal/collect/access.go:54-63 [NewAccessChecker] *)
Definition NewAccessChecker (client : bool) : AccessChecker :=
  mkAccessChecker client (30 * second) defaultAccessCacheCapacity [] ∅ ∅ 0.

(** [schema.GroupResource.String]. *)
Definition group_resource (gvr : GroupVersionResource) : string :=
  if decide (gvr_Group gvr = "") then gvr_Resource gvr
  else gvr_Resource gvr +:+ "." +:+ gvr_Group gvr.

(** Go: internal/collect/access.go:65-67 [accessCacheKey] *)
Definition accessCacheKey (gvr : GroupVersionResource) (namespace verb : string) : string :=
  group_resource gvr +:+ "/" +:+ namespace +:+ "/" +:+ verb +:+ "/" +:+ gvr_Version gvr.

(** [lru.Remove]. *)
Definition list_remove (id : nat) (l : list nat) : list nat := filter (λ i, i ≠ id) l.

Definition move_to_front (id : nat) (a : AccessChecker) : AccessChecker :=
  mkAccessChecker (has_client a) (cacheTTL a) (capacity a) (id :: list_remove id (lru a))
    (cells a) (cache a) (next_cell a).

Definition drop_cell (id : nat) (key : string) (a : AccessChecker) : AccessChecker :=
  mkAccessChecker (has_client a) (cacheTTL a) (capacity a) (list_remove id (lru a))
    (cells a) (delete key (cache a)) (next_cell a).

(** Go: internal/collect/access.go:114-137 [lookup] *)
Definition lookup (now : Z) (key : string) (a : AccessChecker) : option bool * AccessChecker :=
  match cache a !! key ≫= λ id, pair id <$> cells a !! id with
  | None => (None, a)
  | Some (id, entry) =>
      if decide (entry_expiresAt entry ≤ now)%Z then (None, drop_cell id key a)
      else (Some (entry_allowed entry), move_to_front id a)
  end.

(** The eviction loop: drop from the back while the list is over capacity. *)
Fixpoint evict (fuel : nat) (a : AccessChecker) : AccessChecker :=
  match fuel with
  | 0 => a
  | S fuel =>
      if decide (0 < capacity a ∧ capacity a < length (lru a)) then
        match last (lru a) with
        | None => a
        | Some id =>
            evict fuel
              match cells a !! id with
              | Some entry => drop_cell id (entry_key entry) a
              | None => mkAccessChecker (has_client a) (cacheTTL a) (capacity a)
                          (list_remove id (lru a)) (cells a) (cache a) (next_cell a)
              end
        end
      else a
  end.

(** Go: internal/collect/access.go:139-169 [store] *)
Definition store (now : Z) (key : string) (allowed : bool) (a : AccessChecker) : AccessChecker :=
  let entry := mkAccessEntry key allowed (now + cacheTTL a) in
  match cache a !! key with
  | Some id =>
      move_to_front id
        (mkAccessChecker (has_client a) (cacheTTL a) (capacity a) (lru a)
           (<[id := entry]> (cells a)) (cache a) (next_cell a))
  | None =>
      let id := next_cell a in
      evict (S (length (lru a)))
        (mkAccessChecker (has_client a) (cacheTTL a) (capacity a) (id :: lru a)
           (<[id := entry]> (cells a)) (<[key := id]> (cache a)) (S id))
  end.

(** Go: internal/collect/access.go:69-112 [CanAccess] *)
Definition CanAccess (now_lookup now_store : Z) (review : option bool) (gvr : GroupVersionResource)
    (namespace verb : string) (a : AccessChecker) : option bool * AccessChecker :=
  if negb (has_client a) then (Some true, a)
  else
    let key := accessCacheKey gvr namespace verb in
    let '(hit, a) := lookup now_lookup key a in
    match hit with
    | Some allowed => (Some allowed, a)
    | None =>
        match review with
        | None => (None, a)
        | Some allowed => (Some allowed, store now_store key allowed a)
        end
    end.

(** Go: internal/collect/access.go:171-177 [cacheLen] *)
Definition cacheLen (a : AccessChecker) : nat := size (cache a).

(** Go: internal/collect/access.go:179-186 [Invalidate] *)
Definition Invalidate (a : AccessChecker) : AccessChecker :=
  mkAccessChecker (has_client a) (cacheTTL a) (capacity a) [] (cells a) ∅ (next_cell a).

(** * Invariant

    The list has no repetition, the map and the list hold the same cells under
    their own keys, and the cache never exceeds its capacity. *)
Record cache_ok (a : AccessChecker) : Prop := {
  ok_nodup : NoDup (lru a);
  ok_cache : ∀ key id, cache a !! key = Some id ↔
    id ∈ lru a ∧ ∃ e, cells a !! id = Some e ∧ entry_key e = key;
  ok_cells : ∀ id, id ∈ lru a → is_Some (cells a !! id);
  ok_fresh : ∀ id, id ∈ lru a → id < next_cell a;
}.

Definition bounded (a : AccessChecker) : Prop := 0 < capacity a → length (lru a) ≤ capacity a.

Lemma elem_of_list_remove i id l : i ∈ list_remove id l ↔ i ∈ l ∧ i ≠ id.
Proof. unfold list_remove. rewrite list_elem_of_filter. tauto. Qed.

Lemma length_list_remove id l : NoDup l → id ∈ l → S (length (list_remove id l)) = length l.
Proof.
  intros Hnd (l1 & l2 & ->)%list_elem_of_split. apply NoDup_app in Hnd as (_ & Hd & [Hn _]%NoDup_cons).
  unfold list_remove. rewrite filter_app, filter_cons, decide_False by tauto.
  assert (∀ l : list nat, id ∉ l → filter (λ i : nat, i ≠ id) l = l) as Hf.
  { induction l as [|x l IH]; [done|]. intros [??]%not_elem_of_cons.
    rewrite filter_cons_True by done. by rewrite IH. }
  rewrite !Hf; [rewrite !List.length_app; simpl; lia|done|].
  intros Hin. apply (Hd _ Hin). by left.
Qed.

Lemma move_to_front_ok id a : id ∈ lru a → cache_ok a → cache_ok (move_to_front id a).
Proof.
  intros Hid [Hn Hc He Hf]. assert (∀ i, i ∈ lru (move_to_front id a) ↔ i ∈ lru a) as Heq.
  { intros i. simpl. rewrite elem_of_cons, elem_of_list_remove. destruct (decide (i = id)); naive_solver. }
  split.
  - simpl. apply NoDup_cons. split; [rewrite elem_of_list_remove; tauto|by apply NoDup_filter].
  - intros key i. rewrite Heq. apply Hc.
  - intros i. rewrite Heq. apply He.
  - intros i. rewrite Heq. apply Hf.
Qed.

Lemma move_to_front_length id a :
  id ∈ lru a → cache_ok a → length (lru (move_to_front id a)) = length (lru a).
Proof. intros Hid Hok. simpl. apply length_list_remove; [apply Hok|done]. Qed.

Lemma drop_cell_ok id key a :
  cache a !! key = Some id → cache_ok a → cache_ok (drop_cell id key a).
Proof.
  intros Hk [Hn Hc He Hf]. split; simpl.
  - by apply NoDup_filter.
  - intros k i. rewrite lookup_delete_Some, elem_of_list_remove, Hc.
    apply Hc in Hk as (Hin & e & Hce & Hke). split.
    + intros (Hne & Hi & e' & Hce' & Hke'). split; [split; [done|]|eauto].
      intros ->. rewrite Hce in Hce'. simplify_eq.
    + intros [[Hi Hne] (e' & Hce' & Hke')]. split; [|eauto]. intros ->.
      apply Hne. assert (cache a !! k = Some i) as H1 by (apply Hc; eauto).
      assert (cache a !! k = Some id) as H2 by (apply Hc; eauto). congruence.
  - intros i [Hi _]%elem_of_list_remove. auto.
  - intros i [Hi _]%elem_of_list_remove. auto.
Qed.

Lemma cache_size a : cache_ok a → size (cache a) = length (lru a).
Proof.
  intros [Hn Hc He Hf].
  assert ((map_to_list (cache a)).*2 ≡ₚ lru a) as Hp.
  { apply NoDup_Permutation; [|done|].
    - apply NoDup_fmap_2_strong; [|apply NoDup_map_to_list].
      intros [k1 i] [k2 i'] H1%elem_of_map_to_list H2%elem_of_map_to_list Heq. simpl in *. subst i'.
      apply Hc in H1 as (_ & e1 & H1 & <-), H2 as (_ & e2 & H2 & <-). by simplify_eq.
    - intros i. rewrite list_elem_of_fmap. split.
      + intros ([k j] & -> & [? _]%elem_of_map_to_list%Hc). done.
      + intros Hi. destruct (He i Hi) as [e Hce]. exists (entry_key e, i). split; [done|].
        apply elem_of_map_to_list, Hc. eauto. }
  by rewrite <- Hp, length_fmap, length_map_to_list.
Qed.

(** Dropping cells only shrinks what the cache knows. *)
Definition agrees (a a' : AccessChecker) : Prop :=
  (∀ key id, cache a' !! key = Some id → cache a !! key = Some id) ∧
  cells a' = cells a ∧ capacity a' = capacity a ∧ cacheTTL a' = cacheTTL a ∧
  has_client a' = has_client a.

Lemma agrees_trans a b c : agrees a b → agrees b c → agrees a c.
Proof. intros (Hab & ? & ? & ? & ?) (Hbc & ? & ? & ? & ?). split_and!; [auto|congruence..]. Qed.

Lemma drop_cell_agrees id key a : agrees a (drop_cell id key a).
Proof. split_and!; try done. intros k i Hk. simpl in Hk. by apply lookup_delete_Some in Hk as [_ ?]. Qed.

Lemma evict_spec fuel a :
  cache_ok a → length (lru a) ≤ capacity a + fuel →
  cache_ok (evict fuel a) ∧ bounded (evict fuel a) ∧ agrees a (evict fuel a).
Proof.
  revert a. induction fuel as [|fuel IH]; intros a Hok Hlen; simpl.
  { split_and!; [done|intros _; lia|by split_and!]. }
  case_decide as Hc; [|split_and!; [done|intros ?; lia|by split_and!]].
  destruct (last (lru a)) as [id|] eqn:Hl.
  2: { apply last_None in Hl. rewrite Hl in Hc. simpl in Hc. lia. }
  apply last_Some in Hl as [l' Hl].
  assert (id ∈ lru a) as Hid by (rewrite Hl; apply elem_of_app; right; by left).
  destruct (ok_cells a Hok id Hid) as [e He]. rewrite He.
  assert (cache a !! entry_key e = Some id) as Hce by (apply (ok_cache a Hok); eauto).
  destruct (IH (drop_cell id (entry_key e) a)) as (H1 & H2 & H3).
  - by apply drop_cell_ok.
  - simpl. pose proof (length_list_remove id (lru a) (ok_nodup a Hok) Hid). lia.
  - split_and!; [done|done|]. eapply agrees_trans; [apply drop_cell_agrees|done].
Qed.

(** Replacing the entry of a cell by one with the same key. *)
Lemma refresh_cell_ok a id e :
  cache_ok a → cache a !! entry_key e = Some id →
  cache_ok (mkAccessChecker (has_client a) (cacheTTL a) (capacity a) (lru a) (<[id := e]> (cells a)) (cache a) (next_cell a)).
Proof.
  intros Hok (Hin & e0 & He0 & Hk0)%(ok_cache a Hok). destruct Hok as [Hn Hc He Hf]. split; simpl; [done| | |done].
  - intros k i. rewrite Hc. apply and_iff_compat_l. destruct (decide (i = id)) as [->|Hne].
    + rewrite lookup_insert_eq, He0. split; intros (e1 & [= <-] & <-); eauto.
    + by rewrite lookup_insert_ne.
  - intros i Hi. destruct (decide (i = id)) as [->|Hne]; [rewrite lookup_insert_eq; eauto|].
    rewrite lookup_insert_ne by done. auto.
Qed.

(** Putting the entry of a new key into a new cell. *)
Lemma new_cell_ok a e :
  cache_ok a → cache a !! entry_key e = None →
  cache_ok (mkAccessChecker (has_client a) (cacheTTL a) (capacity a) (next_cell a :: lru a) (<[next_cell a := e]> (cells a))
    (<[entry_key e := next_cell a]> (cache a)) (S (next_cell a))).
Proof.
  intros [Hn Hc He Hf] Hk. assert (∀ i, i ∈ lru a → i ≠ next_cell a) as Hfresh by (intros i Hi%Hf; lia). split; simpl.
  - apply NoDup_cons. split; [|done]. intros Hi. by apply (Hfresh _ Hi).
  - intros k i. rewrite elem_of_cons, lookup_insert_Some, Hc. split.
    + intros [[<- <-]|[Hne (Hi & e1 & He1 & <-)]].
      * split; [by left|]. rewrite lookup_insert_eq. eauto.
      * split; [by right|]. rewrite lookup_insert_ne by (intros <-; by apply (Hfresh _ Hi)). eauto.
    + intros [[->|Hi] (e1 & He1 & <-)].
      * rewrite lookup_insert_eq in He1. simplify_eq. by left.
      * rewrite lookup_insert_ne in He1 by (intros <-; by apply (Hfresh _ Hi)).
        right. split; [|eauto]. intros Heq. assert (cache a !! entry_key e1 = Some i) as Hx by (apply Hc; eauto). congruence.
  - intros i [->|Hi]%elem_of_cons; [rewrite lookup_insert_eq; eauto|].
    rewrite lookup_insert_ne by (intros <-; by apply (Hfresh _ Hi)). auto.
  - intros i [->|Hi]%elem_of_cons; [lia|]. apply Hf in Hi. lia.
Qed.

Lemma store_ok now key allowed a :
  cache_ok a → bounded a →
  let a' := store now key allowed a in
  cache_ok a' ∧ bounded a' ∧
  capacity a' = capacity a ∧ cacheTTL a' = cacheTTL a ∧ has_client a' = has_client a ∧
  ∀ k id e, cache a' !! k = Some id → cells a' !! id = Some e →
    (k = key ∧ e = mkAccessEntry key allowed (now + cacheTTL a)) ∨
    (k ≠ key ∧ cache a !! k = Some id ∧ cells a !! id = Some e).
Proof.
  intros Hok Hb. unfold store. destruct (cache a !! key) as [id|] eqn:Hk.
  - pose proof Hk as (Hin & e0 & He0 & Hk0)%(ok_cache a Hok).
    set (a1 := mkAccessChecker _ _ _ _ _ _ _).
    assert (cache_ok a1) as Hok1 by (by apply (refresh_cell_ok a id (mkAccessEntry key allowed (now + cacheTTL a)))).
    split_and!; try done.
    + by apply move_to_front_ok.
    + intros Hcap. rewrite move_to_front_length by done. by apply Hb.
    + intros k i e Hki Hie. simpl in Hki, Hie. destruct (decide (k = key)) as [->|Hne].
      * left. rewrite Hk in Hki. simplify_eq. rewrite lookup_insert_eq in Hie. by simplify_eq.
      * right. split_and!; [done|done|]. rewrite lookup_insert_ne in Hie; [done|].
        intros <-. apply Hne. apply (ok_cache a Hok) in Hki as (_ & e1 & He1 & <-). congruence.
  - set (id := next_cell a). set (a1 := mkAccessChecker _ _ _ _ _ _ _).
    assert (∀ i, i ∈ lru a → i ≠ id) as Hfresh.
    { intros i Hi ->. apply (ok_fresh a Hok) in Hi. unfold id in Hi. lia. }
    assert (cache_ok a1) as Hok1 by (by apply (new_cell_ok a (mkAccessEntry key allowed (now + cacheTTL a)))).
    destruct (evict_spec (S (length (lru a))) a1 Hok1) as (H1 & H2 & Hag & Hcells & Hcap & Httl & Hcl).
    { simpl. lia. }
    split_and!; [done|done|done|done|done|].
    intros k i e Hki%Hag Hie. rewrite Hcells in Hie. simpl in Hki, Hie.
    apply lookup_insert_Some in Hki as [[<- <-]|[Hne Hki]].
    + left. rewrite lookup_insert_eq in Hie. by simplify_eq.
    + right. split_and!; [done|done|]. rewrite lookup_insert_ne in Hie; [done|].
      intros ->. apply (ok_cache a Hok) in Hki as [Hi _]. by apply (Hfresh _ Hi).
Qed.

(** * Runs *)

(** One call of [CanAccess] with everything it depends on. *)
Record call := mkCall {
  call_lookup : Z;
  call_store : Z;
  call_review : option bool;
  call_gvr : GroupVersionResource;
  call_namespace : string;
  call_verb : string;
}.

Definition call_key (c : call) : string := accessCacheKey (call_gvr c) (call_namespace c) (call_verb c).

Definition perform (c : call) (a : AccessChecker) : option bool * AccessChecker :=
  CanAccess (call_lookup c) (call_store c) (call_review c) (call_gvr c) (call_namespace c) (call_verb c) a.

(** The decisions the authorization API actually gave: for every key the last
    one and the time it was recorded. A call asks the API only on a miss. *)
Definition record_review (c : call) (a : AccessChecker) (rv : gmap string (bool * Z)) : gmap string (bool * Z) :=
  match (lookup (call_lookup c) (call_key c) a).1, call_review c with
  | None, Some allowed => <[call_key c := (allowed, call_store c)]> rv
  | _, _ => rv
  end.

Fixpoint run_calls (cs : list call) (a : AccessChecker) (rv : gmap string (bool * Z)) :
    AccessChecker * gmap string (bool * Z) :=
  match cs with
  | [] => (a, rv)
  | c :: cs => run_calls cs (perform c a).2 (record_review c a rv)
  end.

(** Every cached decision is the last one the API gave for its key, with its
    expiry. *)
Definition faithful (a : AccessChecker) (rv : gmap string (bool * Z)) : Prop :=
  ∀ key id e, cache a !! key = Some id → cells a !! id = Some e →
    ∃ t, rv !! key = Some (entry_allowed e, t) ∧ entry_expiresAt e = (t + cacheTTL a)%Z.

Record sound (a : AccessChecker) (rv : gmap string (bool * Z)) : Prop := {
  sound_ok : cache_ok a;
  sound_bounded : bounded a;
  sound_faithful : faithful a rv;
  sound_client : has_client a = true;
  sound_ttl : cacheTTL a = (30 * second)%Z;
  sound_capacity : capacity a = defaultAccessCacheCapacity;
}.

Lemma lookup_sound now key a rv :
  sound a rv →
  sound (lookup now key a).2 rv ∧
  ∀ allowed, (lookup now key a).1 = Some allowed →
    ∃ t, rv !! key = Some (allowed, t) ∧ (now < t + 30 * second)%Z.
Proof.
  intros [Hok Hb Hf Hcl Httl Hcap]. unfold lookup.
  destruct (cache a !! key) as [id|] eqn:Hk; simpl; [|by split].
  destruct (cells a !! id) as [e|] eqn:He; simpl; [|by split].
  pose proof Hk as (Hin & _)%(ok_cache a Hok). case_decide as Hexp; simpl.
  - split; [|done]. destruct (drop_cell_agrees id key a) as (Hag & Hc1 & Hc2 & Hc3 & Hc4).
    split; [by apply drop_cell_ok| | |done..].
    + intros Hc. simpl. pose proof (length_list_remove id (lru a) (ok_nodup a Hok) Hin).
      specialize (Hb Hc). simpl in Hb. lia.
    + intros k i e' Hki%Hag Hie. by eapply Hf.
  - destruct (Hf key id e Hk He) as (t & Hrv & Hexpires). rewrite Httl in Hexpires.
    split; [|intros allowed [= <-]; exists t; split; [done|lia]].
    split; [by apply move_to_front_ok| | |done..].
    + intros Hc. rewrite move_to_front_length by done. by apply Hb.
    + intros k i e' Hki Hie. by eapply Hf.
Qed.

Lemma perform_sound c a rv : sound a rv → sound (perform c a).2 (record_review c a rv).
Proof.
  intros Hs. unfold perform, CanAccess, record_review, call_key. rewrite (sound_client _ _ Hs). simpl.
  destruct (lookup_sound (call_lookup c) (accessCacheKey (call_gvr c) (call_namespace c) (call_verb c)) a rv Hs) as [Hs' _].
  destruct (lookup _ _ a) as [[allowed|] a1]; simpl in *; [done|].
  destruct (call_review c) as [allowed|]; [|done]. simpl.
  destruct Hs' as [Hok Hb Hf Hcl Httl Hcap].
  destruct (store_ok (call_store c) (accessCacheKey (call_gvr c) (call_namespace c) (call_verb c)) allowed a1 Hok Hb)
    as (Hok2 & Hb2 & Hcap2 & Httl2 & Hcl2 & Hnew).
  split; [done|done| |congruence..].
  intros k i e Hki Hie. rewrite Httl2. destruct (Hnew k i e Hki Hie) as [[-> ->]|(Hne & Hki' & Hie')].
  - rewrite lookup_insert_eq. simpl. eauto.
  - rewrite lookup_insert_ne by done. by eapply Hf.
Qed.

Lemma run_calls_sound cs a rv :
  sound a rv → sound (run_calls cs a rv).1 (run_calls cs a rv).2.
Proof.
  revert a rv. induction cs as [|c cs IH]; intros a rv Hs; [done|]. simpl. by apply IH, perform_sound.
Qed.

Lemma new_sound : sound (NewAccessChecker true) ∅.
Proof.
  split; [|intros _; apply Nat.le_0_l| |done..].
  - split; simpl; [constructor| |by intros ? ?%elem_of_nil..].
    intros k i. rewrite lookup_empty. split; [done|]. by intros [?%elem_of_nil _].
  - intros k i e Hk. simpl in Hk. by rewrite lookup_empty in Hk.
Qed.

(** The access cache never answers for the API: after any sequence of calls,
    an answer is either the API's answer to this call or the last answer the API
    gave for the same kind, namespace and verb, recorded less than the time to
    live ago; a failing review is an error unless such an answer is cached; and
    the cache never holds more than its capacity of decisions. *)
Theorem access_cache_sound cs c :
  let '(a, rv) := run_calls cs (NewAccessChecker true) ∅ in
  (∀ allowed, (perform c a).1 = Some allowed →
     call_review c = Some allowed ∨
     ∃ t, rv !! call_key c = Some (allowed, t) ∧ (call_lookup c < t + 30 * second)%Z) ∧
  cacheLen (perform c a).2 ≤ defaultAccessCacheCapacity.
Proof.
  pose proof (run_calls_sound cs _ _ new_sound) as Hs.
  destruct (run_calls cs (NewAccessChecker true) ∅) as [a rv]. simpl in Hs. split.
  - intros allowed. unfold perform, CanAccess. rewrite (sound_client _ _ Hs). simpl.
    destruct (lookup_sound (call_lookup c) (call_key c) a rv Hs) as [_ Hhit].
    unfold call_key in *. destruct (lookup _ _ a) as [[hit|] a1]; simpl in *.
    + intros [= ->]. right. by apply Hhit.
    + destruct (call_review c); simpl; [intros [= ->]; by left|done].
  - pose proof (perform_sound c a rv Hs) as Hs'. unfold cacheLen.
    rewrite cache_size by apply Hs'. rewrite <- (sound_capacity _ _ Hs').
    apply (sound_bounded _ _ Hs'). rewrite (sound_capacity _ _ Hs'). unfold defaultAccessCacheCapacity. lia.
Qed.
End AccessCache.
