(* ===== verification/Engine.v ===== *)
(** The collection engine, [src/internal/collect/engine.go] and the informer
    scope of [namespace_scope.go]: target registration, the per-kind index and
    the dispatch of informer events into the store.

    [Module Engine] translates the operations; the interleaving of dispatch
    workers with registration is the step relation of [Module Concurrent].
    Informers, metrics and logging are not part of the state: [RegisterTarget]
    returns the request it makes to the informer layer, and the API server's
    answers (the namespace list, the access review) are arguments. *)

From S2P Require Import Prelude GoStrings Values Store Api Filter Scrub Prune Json Envelope Extract.

Module Engine.

(** Go: internal/collect/engine.go:44-51 [EngineConfig] *)
Record EngineConfig := mkEngineConfig {
  DispatchWorkers : Z;
  DispatchQueueSize : Z;
  ResyncPeriod : Z;
  MetricsSampleInterval : Z;
  DispatchEnqueueWait : Z;
}.

(** Go: internal/collect/engine.go:53-71 [normalizeEngineConfig] *)
Definition normalizeEngineConfig (cfg : EngineConfig) : EngineConfig :=
  let orElse (v d : Z) := if decide (v ≤ 0)%Z then d else v in
  mkEngineConfig (orElse (DispatchWorkers cfg) 4%Z) (orElse (DispatchQueueSize cfg) 512%Z)
    (orElse (ResyncPeriod cfg) (12 * hour)%Z) (orElse (MetricsSampleInterval cfg) (30 * second)%Z)
    (if decide (DispatchEnqueueWait cfg < 0)%Z then 0%Z else DispatchEnqueueWait cfg).

(** The libraries the engine calls, and the JSON of the two specs that go into the
    fingerprint. *)
Class SpecJson := {
  json_rules : list ResourceRule → string;
  json_profile_spec : KollectProfileSpec → string;
}.

Section engine.
Context `{!KubeApi, !CelApi, !MapRange, !UnicodeCase, !ExtractApi, !Sha256, !SpecJson}.

(** Go: internal/collect/engine.go:80-95 [targetState] *)
Record targetState := mkTargetState {
  st_target : KollectTarget;
  st_profile : KollectProfile;
  st_effectiveNamespaces : gset string;
  st_scopeEnforced : bool;
  st_compiledRules : list CompiledResourceRule;
  st_fingerprint : string;
}.

(** Go: internal/collect/engine.go:448-453 [extractFailureState] *)
Record extractFailureState := mkExtractFailure {
  resources : gset string;
  lastErr : string;
}.

(** The engine's state: the registrations and their index, the namespace cache,
    the per-target degradation flags, the defaults, the scrubber and the store.
    Go: internal/collect/engine.go:130-178 [Engine] *)
Record EngineState := mkEngine {
  targets : gmap string targetState;
  targetsByGVR : gmap GroupVersionResource (list string);
  nsMeta : gmap string NamespaceMeta;
  forbidden : gset string;
  accessErr : gset string;
  extractErr : gmap string extractFailureState;
  defaults : NamespaceDefaults;
  scrubKeys : list string;
  scrubber : Scrubber;
  estore : Store.StoreState;
}.

Definition set_targets f g (e : EngineState) : EngineState :=
  mkEngine (f (targets e)) (g (targetsByGVR e)) (nsMeta e) (forbidden e) (accessErr e) (extractErr e)
    (defaults e) (scrubKeys e) (scrubber e) (estore e).
Definition set_nsMeta m (e : EngineState) : EngineState :=
  mkEngine (targets e) (targetsByGVR e) m (forbidden e) (accessErr e) (extractErr e)
    (defaults e) (scrubKeys e) (scrubber e) (estore e).
Definition set_flags f g x (e : EngineState) : EngineState :=
  mkEngine (targets e) (targetsByGVR e) (nsMeta e) (f (forbidden e)) (g (accessErr e)) (x (extractErr e))
    (defaults e) (scrubKeys e) (scrubber e) (estore e).
Definition set_estore f (e : EngineState) : EngineState :=
  mkEngine (targets e) (targetsByGVR e) (nsMeta e) (forbidden e) (accessErr e) (extractErr e)
    (defaults e) (scrubKeys e) (scrubber e) (f (estore e)).

(** Go: internal/collect/engine.go:180-228 [NewEngine] *)
Definition NewEngine (store : Store.StoreState) : EngineState :=
  mkEngine ∅ ∅ ∅ ∅ ∅ ∅ (mkNamespaceDefaults [] []) [] (NewScrubber []) store.

(** Go: internal/collect/engine.go:241-246 [SetNamespaceDefaults] *)
Definition SetNamespaceDefaults (d : NamespaceDefaults) (e : EngineState) : EngineState :=
  mkEngine (targets e) (targetsByGVR e) (nsMeta e) (forbidden e) (accessErr e) (extractErr e)
    d (scrubKeys e) (scrubber e) (estore e).

(** Go: internal/collect/engine.go:248-254 [SetScrubKeys] *)
Definition SetScrubKeys (ks : list string) (e : EngineState) : EngineState :=
  mkEngine (targets e) (targetsByGVR e) (nsMeta e) (forbidden e) (accessErr e) (extractErr e)
    (defaults e) ks (NewScrubber ks) (estore e).

(** Go: internal/collect/engine.go:256-278 [scrubberForProfile] *)
Definition scrubberForProfile (profile : KollectProfile) (e : EngineState) : Scrubber :=
  let extra := match profile_Export (profile_Spec profile) ≫= export_Prune with
               | Some p => prune_ScrubKeys p
               | None => []
               end in
  match extra with
  | [] => scrubber e
  | _ => NewScrubber (scrubKeys e ++ extra)
  end.

(** Go: internal/collect/engine.go:97-128 [targetStateFingerprint] *)
Definition targetStateFingerprint (target : KollectTarget) (profile : KollectProfile)
    (effective : list string) : string :=
  sha256_hex
    (String.concat "" ((λ ns, ns +:+ nul) <$> sortedUniqueStrings effective) +:+
     "|targetGen=" +:+ fmt_d (target_Generation target) +:+
     "|profileGen=" +:+ fmt_d (profile_Generation profile) +:+ "|" +:+
     json_rules (ResourceRules (target_Filter (target_Spec target))) +:+
     json_profile_spec (profile_Spec profile)).

(** Go: internal/collect/engine.go:561-569 [indexTargetLocked] *)
Definition indexTargetLocked (key : string) (gvr : GroupVersionResource)
    (ix : gmap GroupVersionResource (list string)) : gmap GroupVersionResource (list string) :=
  let keys := default [] (ix !! gvr) in
  if containsString keys key then ix else <[gvr := keys ++ [key]]> ix.

(** Delete the first occurrence. *)
Fixpoint remove_first (key : string) (keys : list string) : list string :=
  match keys with
  | [] => []
  | k :: keys => if decide (k = key) then keys else k :: remove_first key keys
  end.

(** Go: internal/collect/engine.go:571-580 [unindexTargetLocked] *)
Definition unindexTargetLocked (key : string) (gvr : GroupVersionResource)
    (ix : gmap GroupVersionResource (list string)) : gmap GroupVersionResource (list string) :=
  let keys := default [] (ix !! gvr) in
  if containsString keys key then <[gvr := remove_first key keys]> ix else ix.

Definition state_gvr (st : targetState) : GroupVersionResource :=
  gvrFromProfile (profile_TargetGVK (profile_Spec (st_profile st))).

(** The part of [UnregisterTarget] under the engine's lock. *)
Definition unregister_locked (key : string) (e : EngineState) : EngineState :=
  let e := match targets e !! key with
           | Some st => set_targets id (unindexTargetLocked key (state_gvr st)) e
           | None => e
           end in
  set_flags (λ f, f ∖ {[key]}) (λ f, f ∖ {[key]}) (delete key) (set_targets (delete key) id e).

(** Go: internal/collect/engine.go:372-393 [UnregisterTarget] *)
Definition UnregisterTarget (namespace name : string) (e : EngineState) : EngineState :=
  set_estore (Store.RemoveTarget namespace name)
    (unregister_locked (Store.targetKey namespace name) e).

(** [kube] is [None] for a nil client, [Some None] for a failing list.
    Go: internal/collect/engine.go:601-625 [refreshNamespaceCache] *)
Definition refreshNamespaceCache (kube : option (option (list (string * NamespaceMeta)))) (e : EngineState) :
    bool * EngineState :=
  match kube with
  | None => (true, e)
  | Some None => (false, e)
  | Some (Some l) => (true, set_nsMeta (foldl (λ m kv, <[kv.1 := kv.2]> m) ∅ l) e)
  end.

(** Go: internal/collect/engine.go:590-599 [RefreshNamespaces] *)
Definition RefreshNamespaces (kube : option (option (list (string * NamespaceMeta)))) (e : EngineState) :
    bool * EngineState := refreshNamespaceCache kube e.

(** Go: internal/collect/engine.go:230-239 [RegisterTargetOptions] *)
Record RegisterTargetOptions := mkRegisterOptions {
  opt_ScopeCeiling : ScopeCeiling;
  opt_EffectiveNamespaces : list string;
}.

(** The namespace set a registration uses, and the engine after the refresh the
    recomputation makes. *)
Definition effective_for (kube : option (option (list (string * NamespaceMeta)))) (target : KollectTarget)
    (opts : RegisterTargetOptions) (e : EngineState) : list string * EngineState :=
  match opt_EffectiveNamespaces opts with
  | [] =>
      let e := (refreshNamespaceCache kube e).2 in
      let matched := MatchIntentNamespaces (target_Filter (target_Spec target))
                       (target_NamespaceSelector (target_Spec target)) (nsMeta e) (defaults e) in
      (EffectiveNamespaces matched (opt_ScopeCeiling opts) (target_Filter (target_Spec target)) (defaults e), e)
  | l => (l, e)
  end.

(** Registration; on success the request to the informer layer is the kind and
    whether its cache must be dispatched again.
    Go: internal/collect/engine.go:280-370 [RegisterTarget] *)
Definition RegisterTarget (kube : option (option (list (string * NamespaceMeta)))) (target : KollectTarget)
    (profile : KollectProfile) (opts : RegisterTargetOptions) (e : EngineState) :
    result compile_error (option (GroupVersionResource * bool)) * EngineState :=
  let key := Store.targetKey (target_Namespace target) (target_Name target) in
  if target_Suspend (target_Spec target)
  then (Ok None, UnregisterTarget (target_Namespace target) (target_Name target) e)
  else
    let gvr := gvrFromProfile (profile_TargetGVK (profile_Spec profile)) in
    match CompileResourceRules (ResourceRules (target_Filter (target_Spec target))) with
    | Err err => (Err err, e)
    | Ok compiled =>
        let '(effective, e) := effective_for kube target opts e in
        let fingerprint := targetStateFingerprint target profile effective in
        let old := targets e !! key in
        let e := match old with
                 | Some st => set_targets id (unindexTargetLocked key (state_gvr st)) e
                 | None => e
                 end in
        let st := mkTargetState target profile (EffectiveNamespaceSet effective)
                    (CeilingRestrictsNamespaces (opt_ScopeCeiling opts)) compiled fingerprint in
        let e := set_targets <[key := st]> (indexTargetLocked key gvr) e in
        let needsBackfill := match old with
                             | None => true
                             | Some st => bool_decide (st_fingerprint st ≠ fingerprint)
                             end in
        (Ok (Some (gvr, needsBackfill)), e)
    end.

(** Go: internal/collect/engine.go:395-398 [ItemCount] *)
Definition ItemCount (namespace name : string) (e : EngineState) : nat :=
  (Store.CountForTarget namespace name (estore e)).1.

(** Go: internal/collect/engine.go:400-422 [NamespacesForClusterTarget] *)
Definition NamespacesForClusterTarget (targetName : string) (e : EngineState) : list string :=
  sort_strings
    (map_range (targets e) ≫= λ kst,
       if decide (target_Name (st_target kst.2) ≠ targetName) then []
       else match cut_byte "/" kst.1 with
            | Some (ns, _) => if decide (ns = "") then [] else [ns]
            | None => []
            end).

(** Go: internal/collect/engine.go:424-434 [HasForbiddenScope] *)
Definition HasForbiddenScope (targetNamespace targetName : string) (e : EngineState) : bool :=
  bool_decide (Store.targetKey targetNamespace targetName ∈ forbidden e).

(** Go: internal/collect/engine.go:436-446 [HasAccessCheckFailure] *)
Definition HasAccessCheckFailure (targetNamespace targetName : string) (e : EngineState) : bool :=
  bool_decide (Store.targetKey targetNamespace targetName ∈ accessErr e).

(** Go: internal/collect/engine.go:455-470 [ExtractFailures] *)
Definition ExtractFailures (targetNamespace targetName : string) (e : EngineState) : nat * string :=
  match extractErr e !! Store.targetKey targetNamespace targetName with
  | None => (0, "")
  | Some st => (size (resources st), lastErr st)
  end.

(** Go: internal/collect/engine.go:472-485 [recordExtractFailure] *)
Definition recordExtractFailure (key resourceUID errMsg : string) (e : EngineState) : EngineState :=
  let st := default (mkExtractFailure ∅ "") (extractErr e !! key) in
  set_flags id id <[key := mkExtractFailure ({[resourceUID]} ∪ resources st) errMsg]> e.

(** Go: internal/collect/engine.go:487-501 [clearExtractFailure] *)
Definition clearExtractFailure (key resourceUID : string) (e : EngineState) : EngineState :=
  match extractErr e !! key with
  | None => e
  | Some st =>
      let rs := resources st ∖ {[resourceUID]} in
      set_flags id id
        (if decide (rs = ∅) then delete key else <[key := mkExtractFailure rs (lastErr st)]>) e
  end.

(** * Dispatch *)

(** Go: internal/collect/engine.go:1022-1032 [targetMatch] *)
Inductive targetMatch := targetMatchAccepted | targetMatchNamespaceMismatch | targetMatchFiltered.

#[export] Instance target_match_eq_dec : EqDecision targetMatch.
Proof. solve_decision. Defined.

Definition LabelMetadataName : string := "kubernetes.io/metadata.name".

(** Go: internal/collect/engine.go:1079-1117 [namespaceMatches] *)
Definition namespaceMatches (target : KollectTarget) (effective : gset string) (scopeEnforced : bool)
    (resourceNamespace : string) (e : EngineState) : bool :=
  if decide (0 < size effective) then bool_decide (resourceNamespace ∈ effective)
  else if scopeEnforced then false
  else
    let sel := target_NamespaceSelector (target_Spec target) in
    match sel ≫= λ s, sel_matchLabels s !! LabelMetadataName with
    | Some name => bool_decide (resourceNamespace = name)
    | None =>
        match nsMeta e !! resourceNamespace with
        | None => false
        | Some meta => namespaceMatchesSelector sel (meta_Labels meta)
        end
    end.

(** Go: internal/collect/engine.go:1067-1077 [namespaceMetaFor] *)
Definition namespaceMetaFor (name : string) (e : EngineState) : NamespaceMeta :=
  default empty_meta (nsMeta e !! name).

(** Go: internal/collect/engine.go:1034-1065 [matchesTarget] *)
Definition matchesTarget (st : targetState) (gvr : GroupVersionResource) (u : object) (e : EngineState) : targetMatch :=
  let resourceNS := resource_namespace u in
  if negb (namespaceMatches (st_target st) (st_effectiveNamespaces st) (st_scopeEnforced st) resourceNS e)
  then targetMatchNamespaceMismatch
  else if negb (ResourceMatchesRules u gvr (st_target st) (st_profile st) (st_compiledRules st) (nsMeta e))
  then targetMatchFiltered
  else if negb (ShouldCollect (GetLabels u) (namespaceMetaFor resourceNS e) (st_target st))
  then targetMatchFiltered
  else targetMatchAccepted.

(** Go: internal/collect/engine.go:991-1010 [upsertIfRegistered] *)
Definition upsertIfRegistered (key : string) (item : Item) (e : EngineState) : EngineState :=
  match targets e !! key with
  | None => e
  | Some _ => set_estore (Store.Upsert item) e
  end.

(** The row built from an object: the scrubbed attributes, and the pruned copy
    under the export key in resource mode. *)
Definition item_of (st : targetState) (u : object) (attrs : list (string * value)) (e : EngineState) : Item :=
  let target := st_target st in
  let profile := profile_Spec (st_profile st) in
  let s := scrubberForProfile (st_profile st) e in
  let attrs := ScrubAttributes s attrs in
  let attrs :=
    match profile_Export profile with
    | Some export =>
        if ResourceExportEnabled (Some export)
        then assoc_set (AttributeKey (Some export)) (VMap (PruneResource u export (Some s))) attrs
        else attrs
    | None => attrs
    end in
  mkItem (target_Namespace target) (target_Name target) (GetNamespace u) (GetName u)
    (gvk_Group (profile_TargetGVK profile)) (gvk_Version (profile_TargetGVK profile))
    (gvk_Kind (profile_TargetGVK profile)) (GetUID u) (Some attrs).

(** One iteration of the dispatch loop. [access] is the answer of the access
    check ([None] when it fails), [msg] renders an extraction error. *)
Definition dispatch_target (msg : attribute_error → string) (access : option bool) (gvr : GroupVersionResource)
    (u : object) (deleted : bool) (st : targetState) (e : EngineState) : EngineState :=
  let target := st_target st in
  let key := Store.targetKey (target_Namespace target) (target_Name target) in
  let uid := GetUID u in
  let remove := Store.Remove (target_Namespace target) (target_Name target) uid in
  if deleted then clearExtractFailure key uid (set_estore remove e)
  else
    match matchesTarget st gvr u e with
    | targetMatchNamespaceMismatch | targetMatchFiltered =>
        clearExtractFailure key uid (set_estore remove e)
    | targetMatchAccepted =>
        match access with
        | None => set_flags id (λ f, {[key]} ∪ f) id e
        | Some false =>
            let e := set_flags (λ f, {[key]} ∪ f) (λ f, f ∖ {[key]}) id e in
            set_estore remove e
        | Some true =>
            let e := set_flags (λ f, f ∖ {[key]}) (λ f, f ∖ {[key]}) id e in
            match Extract u (profile_Attributes (profile_Spec (st_profile st))) with
            | Err err => recordExtractFailure key uid (msg err) (set_estore remove e)
            | Ok attrs =>
                let e := clearExtractFailure key uid e in
                upsertIfRegistered key (item_of st u attrs e) e
            end
        end
    end.

(** What an informer delivers. *)
Inductive informer_obj :=
  | ObjUnstructured (u : object)
  | ObjTombstone (u : option object)
  | ObjOther.

(** Go: internal/collect/engine.go:1119-1136 [toUnstructured] *)
Definition toUnstructured (obj : informer_obj) : option object :=
  match obj with
  | ObjUnstructured u => Some u
  | ObjTombstone u => u
  | ObjOther => None
  end.

(** The snapshot of the targets of a kind taken under the read lock. *)
Definition states_for (gvr : GroupVersionResource) (e : EngineState) : list targetState :=
  omap (λ key, targets e !! key) (default [] (targetsByGVR e !! gvr)).

(** Go: internal/collect/engine.go:807-962 [processDispatch] *)
Definition processDispatch (msg : attribute_error → string) (access : targetState → option bool)
    (gvr : GroupVersionResource) (obj : informer_obj) (deleted : bool) (e : EngineState) : EngineState :=
  match toUnstructured obj with
  | None => e
  | Some u =>
      fold_left (λ e st, dispatch_target msg (access st) gvr u deleted st e) (states_for gvr e) e
  end.

(** Go: internal/collect/engine.go:1148-1159 [NamespaceMetaSnapshot] *)
Definition NamespaceMetaSnapshot (e : EngineState) : gmap string NamespaceMeta := nsMeta e.

(** Go: internal/collect/engine.go:1161-1167 [NamespaceDefaultsSnapshot] *)
Definition NamespaceDefaultsSnapshot (e : EngineState) : NamespaceDefaults := defaults e.

(** * Informer scope *)

(** Go: internal/collect/namespace_scope.go:44-63 [matchedNamespacesForState] *)
Definition matchedNamespacesForState (st : targetState) (meta : gmap string NamespaceMeta)
    (d : NamespaceDefaults) : list string :=
  if decide (0 < size (st_effectiveNamespaces st))
  then sortedUniqueStrings (elements (st_effectiveNamespaces st))
  else MatchIntentNamespaces (target_Filter (target_Spec (st_target st)))
         (target_NamespaceSelector (target_Spec (st_target st))) meta d.

(** Go: internal/collect/namespace_scope.go:27-42 [MatchedNamespacesForTarget] *)
Definition MatchedNamespacesForTarget (targetNamespace targetName : string) (e : EngineState) : list string :=
  match targets e !! Store.targetKey targetNamespace targetName with
  | None => []
  | Some st => matchedNamespacesForState st (nsMeta e) (defaults e)
  end.

(** The loop over the states; [None] is the early return of all namespaces. *)
Fixpoint agree_on_one (single : option string) (states : list (list string)) : option (option string) :=
  match states with
  | [] => Some single
  | [ns] :: states =>
      match single with
      | None => agree_on_one (Some ns) states
      | Some s => if decide (ns ≠ s) then None else agree_on_one single states
      end
  | _ :: _ => None
  end.

(** All namespaces is the empty string.
    Go: internal/collect/namespace_scope.go:65-108 [watchNamespaceForGVR] *)
Definition watchNamespaceForGVR (gvr : GroupVersionResource) (e : EngineState) : string :=
  let states := filter (λ st, state_gvr st = gvr) (map_range (targets e)).*2 in
  default "" (agree_on_one None ((λ st, matchedNamespacesForState st (nsMeta e) (defaults e)) <$> states) ≫= id).
End engine.
End Engine.

(** * The index of targets by kind *)
Section index.
Context `{!KubeApi, !CelApi, !MapRange, !UnicodeCase, !ExtractApi, !Sha256, !Engine.SpecJson}.
Import Engine.

Abbreviation index := (gmap GroupVersionResource (list string)) (only parsing).

Lemma elem_of_remove_first key keys k :
  NoDup keys → k ∈ remove_first key keys ↔ k ∈ keys ∧ k ≠ key.
Proof.
  induction keys as [|k' keys IH]; simpl; [rewrite elem_of_nil; tauto|].
  intros [Hn Hnd]%NoDup_cons. rewrite elem_of_cons. case_decide as Hk.
  - subst k'. split; [intros Hin; split; [by right|]; by intros ->|]. intros [[->|?] ?]; done.
  - rewrite elem_of_cons, IH by done. split.
    + intros [->|[? ?]]; auto.
    + intros [[->|?] ?]; auto.
Qed.

Lemma NoDup_remove_first key keys : NoDup keys → NoDup (remove_first key keys).
Proof.
  induction keys as [|k' keys IH]; simpl; [done|]. intros [Hn Hnd]%NoDup_cons.
  case_decide; [done|]. apply NoDup_cons. split; [|by apply IH].
  rewrite elem_of_remove_first by done. tauto.
Qed.

Definition keys_at (gvr : GroupVersionResource) (ix : index) : list string := default [] (ix !! gvr).

Lemma keys_at_index key gvr ix g k :
  k ∈ keys_at g (indexTargetLocked key gvr ix) ↔ k ∈ keys_at g ix ∨ g = gvr ∧ k = key.
Proof.
  unfold indexTargetLocked, keys_at. destruct (containsString _ key) eqn:Hc.
  - apply containsString_true in Hc. split; [by left|]. intros [?|[-> ->]]; done.
  - destruct (decide (g = gvr)) as [->|Hg].
    + rewrite lookup_insert_eq. simpl. rewrite elem_of_app, list_elem_of_singleton. naive_solver.
    + rewrite lookup_insert_ne by done. naive_solver.
Qed.

Lemma NoDup_index key gvr ix :
  (∀ g, NoDup (keys_at g ix)) → ∀ g, NoDup (keys_at g (indexTargetLocked key gvr ix)).
Proof.
  intros Hnd g. unfold indexTargetLocked, keys_at in *. destruct (containsString _ key) eqn:Hc; [done|].
  apply containsString_false in Hc. destruct (decide (g = gvr)) as [->|Hg].
  - rewrite lookup_insert_eq. simpl. apply NoDup_app. split_and!; [done| |apply NoDup_singleton].
    intros x Hx ->%list_elem_of_singleton. done.
  - by rewrite lookup_insert_ne.
Qed.

Lemma keys_at_unindex key gvr ix g k :
  (∀ g, NoDup (keys_at g ix)) →
  k ∈ keys_at g (unindexTargetLocked key gvr ix) ↔ k ∈ keys_at g ix ∧ ¬ (g = gvr ∧ k = key).
Proof.
  intros Hnd. unfold unindexTargetLocked. fold (keys_at gvr ix).
  destruct (containsString (keys_at gvr ix) key) eqn:Hc.
  - destruct (decide (g = gvr)) as [->|Hg].
    + unfold keys_at at 1. rewrite lookup_insert_eq. simpl. rewrite elem_of_remove_first by done. tauto.
    + unfold keys_at at 1. rewrite lookup_insert_ne by done. fold (keys_at g ix). tauto.
  - apply containsString_false in Hc. split; [|tauto]. intros Hk. split; [done|]. by intros [-> ->].
Qed.

Lemma NoDup_unindex key gvr ix :
  (∀ g, NoDup (keys_at g ix)) → ∀ g, NoDup (keys_at g (unindexTargetLocked key gvr ix)).
Proof.
  intros Hnd g. unfold unindexTargetLocked. fold (keys_at gvr ix).
  destruct (containsString (keys_at gvr ix) key); [|done]. unfold keys_at at 1.
  destruct (decide (g = gvr)) as [->|Hg].
  - rewrite lookup_insert_eq. simpl. by apply NoDup_remove_first.
  - rewrite lookup_insert_ne by done. apply Hnd.
Qed.

(** The index lists exactly the registered targets of each kind, once each, and
    every registration sits under its own key, built from a namespace without a
    slash. *)
Record index_ok (e : EngineState) : Prop := {
  ix_nodup : ∀ g, NoDup (keys_at g (targetsByGVR e));
  ix_exact : ∀ g k, k ∈ keys_at g (targetsByGVR e) ↔
    ∃ st, targets e !! k = Some st ∧ state_gvr st = g;
  ix_key : ∀ k st, targets e !! k = Some st →
    k = Store.targetKey (target_Namespace (st_target st)) (target_Name (st_target st)) ∧
    has_byte "/" (target_Namespace (st_target st)) = false;
}.

(** Take a key out of the index and of the registrations. *)
Definition drop_target (key : string) (e : EngineState) : EngineState :=
  set_targets (delete key) id
    (match targets e !! key with
     | Some st => set_targets id (unindexTargetLocked key (state_gvr st)) e
     | None => e
     end).

Lemma drop_target_ok key e : index_ok e → index_ok (drop_target key e).
Proof.
  intros [Hn Hx Hk].
  assert (∀ k st, targets (drop_target key e) !! k = Some st ↔ targets e !! k = Some st ∧ k ≠ key) as Ht.
  { intros k st. unfold drop_target. destruct (targets e !! key) eqn:Hkey; simpl;
      rewrite lookup_delete_Some; naive_solver. }
  split.
  - intros g. unfold drop_target. destruct (targets e !! key); simpl; [by apply NoDup_unindex|done].
  - intros g k. setoid_rewrite Ht. unfold drop_target. destruct (targets e !! key) as [st0|] eqn:Hkey; simpl.
    + rewrite keys_at_unindex, Hx by done. split.
      * intros [(st & Hst & <-) Hne]. exists st. split; [|done]. split; [done|]. intros ->.
        apply Hne. split; [|done]. congruence.
      * intros (st & [Hst Hne] & <-). split; [eauto|]. tauto.
    + unfold id. rewrite Hx. split.
      * intros (st & Hst & <-). exists st. split; [|done]. split; [done|]. intros ->. congruence.
      * intros (st & [Hst Hne] & <-). eauto.
  - intros k st [Hst _]%Ht. by apply Hk.
Qed.

Lemma drop_target_None key e : targets (drop_target key e) !! key = None.
Proof. unfold drop_target. destruct (targets e !! key); simpl; apply lookup_delete_eq. Qed.

Lemma add_target_ok key st e :
  index_ok e → targets e !! key = None →
  key = Store.targetKey (target_Namespace (st_target st)) (target_Name (st_target st)) →
  has_byte "/" (target_Namespace (st_target st)) = false →
  index_ok (set_targets <[key := st]> (indexTargetLocked key (state_gvr st)) e).
Proof.
  intros [Hn Hx Hk] Hnone Hkey Hslash. split; simpl.
  - by apply NoDup_index.
  - intros g k. rewrite keys_at_index, Hx. setoid_rewrite lookup_insert_Some. split.
    + intros [(st' & Hst & <-)|[-> ->]]; [|by eauto]. exists st'. split; [|done]. right.
      split; [|done]. intros <-. congruence.
    + intros (st' & [[<- <-]|[Hne Hst]] & <-); [by right|]. left. eauto.
  - intros k st' [[<- <-]|[Hne Hst]]%lookup_insert_Some; [done|]. by apply Hk.
Qed.
End index.

(** * Registration and dispatch, as changes of the rows and registrations *)
Section operations.
Context `{!KubeApi, !CelApi, !MapRange, !UnicodeCase, !ExtractApi, !Sha256, !Engine.SpecJson}.
Import Engine.

Lemma effective_for_state kube target opts e :
  ∃ m, (effective_for kube target opts e).2 = set_nsMeta m e.
Proof.
  unfold effective_for. destruct (opt_EffectiveNamespaces opts); simpl.
  - destruct kube as [[l|]|]; simpl; eauto; exists (nsMeta e); by destruct e.
  - exists (nsMeta e). by destruct e.
Qed.

(** The state a successful registration stores. *)
Definition registered_state (target : KollectTarget) (profile : KollectProfile) (opts : RegisterTargetOptions)
    (compiled : list CompiledResourceRule) (effective : list string) : targetState :=
  mkTargetState target profile (EffectiveNamespaceSet effective)
    (CeilingRestrictsNamespaces (opt_ScopeCeiling opts)) compiled
    (targetStateFingerprint target profile effective).

Lemma RegisterTarget_spec kube target profile opts e r e' :
  target_Suspend (target_Spec target) = false →
  RegisterTarget kube target profile opts e = (r, e') →
  (∃ err, r = Err err ∧ e' = e) ∨
  ∃ compiled m effective, let key := Store.targetKey (target_Namespace target) (target_Name target) in
    let st := registered_state target profile opts compiled effective in
    CompileResourceRules (ResourceRules (target_Filter (target_Spec target))) = Ok compiled ∧
    effective_for kube target opts e = (effective, set_nsMeta m e) ∧
    (∃ b, r = Ok (Some (state_gvr st, b))) ∧
    e' = set_targets <[key := st]> (indexTargetLocked key (state_gvr st)) (drop_target key (set_nsMeta m e)).
Proof.
  intros Hs. unfold RegisterTarget. rewrite Hs.
  destruct (CompileResourceRules _) as [compiled|err]; [|intros [= <- <-]; left; eauto].
  destruct (effective_for_state kube target opts e) as [m Hm].
  destruct (effective_for kube target opts e) as [effective e1]. simpl in Hm. subst e1.
  intros [= <- <-]. right. exists compiled, m, effective. split_and!; [done|done|eauto|].
  unfold drop_target. simpl. destruct (targets e !! _) as [st0|];
    unfold set_targets; simpl; unfold id; by rewrite ?insert_delete_eq.
Qed.

Lemma RegisterTarget_index kube target profile opts e r e' :
  target_Suspend (target_Spec target) = false → has_byte "/" (target_Namespace target) = false →
  RegisterTarget kube target profile opts e = (r, e') → index_ok e → index_ok e'.
Proof.
  intros Hs Hn Hr Hok. apply RegisterTarget_spec in Hr as [(err & _ & ->)|(c & m & eff & _ & _ & _ & ->)]; [done| |done].
  apply add_target_ok; [|apply drop_target_None|done|done].
  apply drop_target_ok. by destruct Hok; split.
Qed.

Lemma unregister_locked_eq key e :
  targets (unregister_locked key e) = delete key (targets e) ∧
  targetsByGVR (unregister_locked key e) = targetsByGVR (drop_target key e) ∧
  estore (unregister_locked key e) = estore e.
Proof. unfold unregister_locked, drop_target. by destruct (targets e !! key). Qed.

Lemma unregister_locked_index key e : index_ok e → index_ok (unregister_locked key e).
Proof.
  intros Hok. destruct (unregister_locked_eq key e) as (Ht & Hx & _).
  assert (targets (drop_target key e) = delete key (targets e)) as Hd.
  { unfold drop_target. by destruct (targets e !! key). }
  pose proof (drop_target_ok key e Hok) as [Hn He Hk].
  split; [by rewrite Hx|rewrite Hx, Ht, <- Hd; done|rewrite Ht, <- Hd; done].
Qed.

(** The flags do not touch registrations or rows. *)
Lemma clearExtractFailure_same key uid e :
  targets (clearExtractFailure key uid e) = targets e ∧
  targetsByGVR (clearExtractFailure key uid e) = targetsByGVR e ∧
  estore (clearExtractFailure key uid e) = estore e.
Proof. unfold clearExtractFailure. by destruct (extractErr e !! key). Qed.

(** What dispatching an object to one target does to the rows: the row of the
    object is written, removed or left alone. *)
Inductive dispatch_effect :=
  | RowWritten (item : Item)
  | RowRemoved
  | RowKept.

Definition effect_of (access : option bool) (gvr : GroupVersionResource) (u : object) (deleted : bool)
    (st : targetState) (e : EngineState) : dispatch_effect :=
  if deleted then RowRemoved
  else
    match matchesTarget st gvr u e with
    | targetMatchNamespaceMismatch | targetMatchFiltered => RowRemoved
    | targetMatchAccepted =>
        match access with
        | None => RowKept
        | Some false => RowRemoved
        | Some true =>
            match Extract u (profile_Attributes (profile_Spec (st_profile st))) with
            | Err _ => RowRemoved
            | Ok attrs =>
                match targets e !! Store.targetKey (target_Namespace (st_target st)) (target_Name (st_target st)) with
                | Some _ => RowWritten (item_of st u attrs e)
                | None => RowKept
                end
            end
        end
    end.

Definition apply_effect (ef : dispatch_effect) (ns tn uid : string) (a : RowSpec.rows) : RowSpec.rows :=
  match ef with
  | RowWritten item => <[(ns, tn, uid) := item]> a
  | RowRemoved => delete (ns, tn, uid) a
  | RowKept => a
  end.

Lemma dispatch_target_spec msg access gvr u deleted st e :
  let e' := dispatch_target msg access gvr u deleted st e in
  targets e' = targets e ∧ targetsByGVR e' = targetsByGVR e ∧
  rows (estore e') =
  apply_effect (effect_of access gvr u deleted st e) (target_Namespace (st_target st))
    (target_Name (st_target st)) (GetUID u) (rows (estore e)).
Proof.
  cbv zeta. unfold dispatch_target, effect_of.
  destruct deleted.
  { destruct (clearExtractFailure_same (Store.targetKey (target_Namespace (st_target st)) (target_Name (st_target st)))
      (GetUID u) (set_estore (Store.Remove (target_Namespace (st_target st)) (target_Name (st_target st)) (GetUID u)) e))
      as (-> & -> & ->). simpl. by rewrite rows_Remove. }
  destruct (matchesTarget st gvr u e).
  2, 3: match goal with |- context [clearExtractFailure ?k ?u ?e1] =>
          destruct (clearExtractFailure_same k u e1) as (-> & -> & ->) end;
        simpl; by rewrite rows_Remove.
  destruct access as [[]|]; [|simpl; by rewrite rows_Remove|done].
  destruct (Extract u _) as [attrs|err]; [|simpl; by rewrite rows_Remove].
  match goal with |- context [clearExtractFailure ?k ?u ?e1] =>
    destruct (clearExtractFailure_same k u e1) as (Ht & Hx & Hst); set (e2 := clearExtractFailure k u e1) in * end.
  simpl in Ht, Hx, Hst. unfold upsertIfRegistered. rewrite Ht.
  assert (item_of st u attrs e2 = item_of st u attrs e) as ->.
  { unfold item_of, scrubberForProfile, e2, clearExtractFailure. simpl.
    by destruct (extractErr e !! _). }
  destruct (targets e !! _) as [st0|]; simpl; [|by rewrite Ht, Hx, Hst].
  by rewrite Ht, Hx, Hst, rows_Upsert.
Qed.
(** Every value of a row has been scrubbed with at least the built-in keys; the
    exported copy was scrubbed before the generation stamp was added. *)
Definition item_scrubbed (item : Item) : Prop :=
  Forall (λ kv,
    secret_free [] kv.2 ∨
    ∃ root g, secret_free [] (VMap root) ∧ kv.2 = VMap (stampCollectedGeneration root g))
    (default [] (Attributes item)).

Definition knows_builtin_keys (e : EngineState) : Prop := keys (NewScrubber []) ⊆ keys (scrubber e).

Lemma scrubberForProfile_mono profile e :
  knows_builtin_keys e → keys (NewScrubber []) ⊆ keys (scrubberForProfile profile e).
Proof.
  intros He. unfold scrubberForProfile. case_match; [done|apply NewScrubber_mono].
Qed.

Lemma item_of_scrubbed st u attrs e : knows_builtin_keys e → item_scrubbed (item_of st u attrs e).
Proof.
  intros He. pose proof (scrubberForProfile_mono (st_profile st) e He) as Hk.
  unfold item_scrubbed, item_of. cbn [Attributes default from_option].
  set (s := scrubberForProfile (st_profile st) e) in *.
  assert (Forall (λ kv : string * value, secret_free [] kv.2 ∨
    ∃ root g, secret_free [] (VMap root) ∧ kv.2 = VMap (stampCollectedGeneration root g))
    (ScrubAttributes s attrs)) as Ha.
  { unfold ScrubAttributes. apply Forall_forall. intros kv (x & -> & _)%list_elem_of_fmap.
    left. eapply clean_secret_free, clean_mono; [done|]. apply Scrub_clean. }
  destruct (profile_Export _) as [export|]; [|done]. case_match; [|done].
  apply Forall_assoc_set; [right|done]. exists (pruned_copy u export (Some s)), (GetGeneration u).
  split; [|simpl; by rewrite PruneResource_stamp].
  eapply clean_secret_free, clean_mono; [done|]. unfold pruned_copy.
  destruct (prune_sections_map u export) as [m ->]. apply (Scrub_clean s (VMap m)).
Qed.
End operations.

(** * The ceiling *)
Section ceiling.
Context `{!KubeApi, !CelApi, !MapRange, !UnicodeCase, !ExtractApi, !Sha256, !Engine.SpecJson}.
Import Engine.

Lemma size_EffectiveNamespaceSet l : 0 < size (EffectiveNamespaceSet l) ↔ l ≠ [].
Proof.
  unfold EffectiveNamespaceSet. split.
  - intros Hlt ->. change (0 < size (∅ : gset string)) in Hlt. rewrite size_empty in Hlt. lia.
  - intros Hne. destruct (decide (size (list_to_set (C := gset string) l) = 0)) as [Hz|]; [|lia].
    apply size_empty_inv in Hz. destruct l as [|x l]; [done|]. exfalso. apply (not_elem_of_empty (C := gset string) x), (Hz x).
    apply elem_of_list_to_set. by left.
Qed.

Lemma matchesTarget_namespace st gvr u e :
  matchesTarget st gvr u e = targetMatchAccepted →
  namespaceMatches (st_target st) (st_effectiveNamespaces st) (st_scopeEnforced st) (resource_namespace u) e = true.
Proof. unfold matchesTarget. by destruct (namespaceMatches _ _ _ _ _). Qed.

Lemma namespaceMatches_set target l enforced ns e :
  l ≠ [] → namespaceMatches target (EffectiveNamespaceSet l) enforced ns e = true ↔ ns ∈ l.
Proof.
  intros Hl. unfold namespaceMatches.
  rewrite decide_True by (by apply size_EffectiveNamespaceSet).
  rewrite bool_decide_eq_true. apply elem_of_list_to_set.
Qed.

(** What a registration lets the target accept, whatever the cache becomes. *)
Lemma registration_bounds_objects kube target profile opts e r e' st :
  target_Suspend (target_Spec target) = false →
  RegisterTarget kube target profile opts e = (Ok r, e') →
  targets e' !! Store.targetKey (target_Namespace target) (target_Name target) = Some st →
  ∀ gvr u later, matchesTarget st gvr u later = targetMatchAccepted →
  (opt_EffectiveNamespaces opts ≠ [] → resource_namespace u ∈ opt_EffectiveNamespaces opts) ∧
  (opt_EffectiveNamespaces opts = [] → CeilingRestrictsNamespaces (opt_ScopeCeiling opts) = true →
   permitted (opt_ScopeCeiling opts) (target_Filter (target_Spec target)) (defaults e) (resource_namespace u)).
Proof.
  intros Hs Hr Hst gvr u later Hm%matchesTarget_namespace.
  apply RegisterTarget_spec in Hr as [(err & ? & _)|(c & m & eff & _ & Heff & _ & ->)]; [done| |done].
  simpl in Hst. rewrite lookup_insert_eq in Hst. injection Hst as <-. simpl in Hm.
  unfold effective_for in Heff. split.
  - intros Hne. destruct (opt_EffectiveNamespaces opts) as [|x l]; [done|].
    injection Heff as <- _. by apply namespaceMatches_set in Hm.
  - intros He Hc. rewrite He in Heff. injection Heff as Heff _.
    destruct (decide (eff = [])) as [->|Hne].
    + unfold namespaceMatches in Hm. by rewrite Hc in Hm.
    + apply namespaceMatches_set in Hm; [|done]. rewrite <- Heff in Hm.
      apply elem_of_EffectiveNamespaces in Hm as (_ & _ & Hp).
      by destruct kube as [[]|].
Qed.

(** The ceiling is enforced on every object, for as long as the target stays
    registered: after a successful registration, whatever the engine's namespace
    cache becomes, an object the target accepts lives in one of the namespaces
    the caller resolved, or, when the engine computed them under a restricting
    ceiling, in a namespace the ceiling and the denylists permit. An empty set
    under such a ceiling accepts nothing. *)
Theorem ceiling_fails_closed kube target profile opts e r e' st :
  target_Suspend (target_Spec target) = false →
  RegisterTarget kube target profile opts e = (Ok r, e') →
  targets e' !! Store.targetKey (target_Namespace target) (target_Name target) = Some st →
  ∀ gvr u later, matchesTarget st gvr u later = targetMatchAccepted →
  (opt_EffectiveNamespaces opts ≠ [] → resource_namespace u ∈ opt_EffectiveNamespaces opts) ∧
  (opt_EffectiveNamespaces opts = [] → CeilingRestrictsNamespaces (opt_ScopeCeiling opts) = true →
   permitted (opt_ScopeCeiling opts) (target_Filter (target_Spec target)) (defaults e) (resource_namespace u)).
Proof. apply registration_bounds_objects. Qed.
End ceiling.

(** * Interleavings

    A dispatch worker snapshots the targets of a kind and then works through the
    snapshot; [UnregisterTarget] deletes the registration and then clears the
    rows. Registrations, refreshes and other workers run in between. Names are
    Kubernetes names, so a namespace holds no slash. *)
Module Concurrent.
Section concurrent.
Context `{!KubeApi, !CelApi, !MapRange, !UnicodeCase, !ExtractApi, !Sha256, !Engine.SpecJson}.
Import Engine.
Variable msg : attribute_error → string.

Record worker := mkWorker {
  w_gvr : GroupVersionResource;
  w_object : object;
  w_deleted : bool;
  w_states : list targetState;
}.

Record system := mkSystem {
  sys_engine : EngineState;
  sys_unregistering : list (string * string);
  sys_workers : list worker;
}.

Definition initial : system := mkSystem (NewEngine Store.NewStore) [] [].

Inductive step : system → system → Prop :=
  | step_register e us ws kube target profile opts r e' :
      target_Suspend (target_Spec target) = false → has_byte "/" (target_Namespace target) = false →
      RegisterTarget kube target profile opts e = (r, e') →
      step (mkSystem e us ws) (mkSystem e' us ws)
  | step_unregister_begin e us ws ns name :
      has_byte "/" ns = false →
      step (mkSystem e us ws)
        (mkSystem (unregister_locked (Store.targetKey ns name) e) ((ns, name) :: us) ws)
  | step_unregister_end e us1 us2 ws ns name :
      step (mkSystem e (us1 ++ (ns, name) :: us2) ws)
        (mkSystem (set_estore (Store.RemoveTarget ns name) e) (us1 ++ us2) ws)
  | step_refresh e us ws kube :
      step (mkSystem e us ws) (mkSystem (refreshNamespaceCache kube e).2 us ws)
  | step_configure e us ws d ks :
      step (mkSystem e us ws) (mkSystem (SetNamespaceDefaults d (SetScrubKeys ks e)) us ws)
  | step_dispatch_begin e us ws gvr obj u deleted :
      toUnstructured obj = Some u →
      step (mkSystem e us ws) (mkSystem e us (mkWorker gvr u deleted (states_for gvr e) :: ws))
  | step_dispatch_target e us ws1 ws2 gvr u deleted st sts access :
      step (mkSystem e us (ws1 ++ mkWorker gvr u deleted (st :: sts) :: ws2))
        (mkSystem (dispatch_target msg access gvr u deleted st e) us
           (ws1 ++ mkWorker gvr u deleted sts :: ws2)).

Definition reachable (s : system) : Prop := rtc step initial s.

Definition ns_ok (st : targetState) : Prop := has_byte "/" (target_Namespace (st_target st)) = false.

(** The invariant: the index is exact, every worker's snapshot and every row has
    a namespace without a slash, and a row's target is registered unless its
    unregistration is still under way. *)
Record inv (s : system) : Prop := {
  inv_index : index_ok (sys_engine s);
  inv_workers : Forall (λ w, Forall ns_ok (w_states w)) (sys_workers s);
  inv_row_ns : ∀ ns tn uid item, rows (estore (sys_engine s)) !! (ns, tn, uid) = Some item →
    has_byte "/" ns = false;
  inv_rows : ∀ ns tn uid item, rows (estore (sys_engine s)) !! (ns, tn, uid) = Some item →
    is_Some (targets (sys_engine s) !! Store.targetKey ns tn) ∨ (ns, tn) ∈ sys_unregistering s;
}.

(** The rows are scrubbed and the scrubber in force knows the built-in keys. *)
Record scrub_inv (s : system) : Prop := {
  sinv_keys : knows_builtin_keys (sys_engine s);
  sinv_rows : map_Forall (λ _, item_scrubbed) (rows (estore (sys_engine s)));
}.

Lemma targetKey_inj ns tn ns' tn' :
  has_byte "/" ns = false → has_byte "/" ns' = false →
  Store.targetKey ns tn = Store.targetKey ns' tn' → ns = ns' ∧ tn = tn'.
Proof.
  intros Hn Hn' Heq. unfold Store.targetKey in Heq.
  assert (∀ a b, has_byte "/" a = false → cut_byte "/" (a +:+ "/" +:+ b) = Some (a, b)) as Hcut.
  { intros a b Ha. by apply cut_byte_Some. }
  pose proof (Hcut ns tn Hn) as Hc. rewrite Heq, Hcut in Hc by done. by simplify_eq.
Qed.

Lemma states_for_ok gvr e : index_ok e → Forall ns_ok (states_for gvr e).
Proof.
  intros Hok. apply Forall_forall. unfold states_for. intros st (k & _ & Hst)%list_elem_of_omap.
  by apply (ix_key e Hok) in Hst as [_ ?].
Qed.

Lemma initial_inv : inv initial.
Proof.
  assert (∀ k, rows (estore (NewEngine Store.NewStore)) !! k = None) as Hr.
  { intros k. simpl. by rewrite rows_NewStore, lookup_empty. }
  split; simpl; [split| | |]; simpl.
  - intros g. unfold keys_at. rewrite lookup_empty. constructor.
  - intros g k. unfold keys_at. rewrite lookup_empty. split; [by intros ?%elem_of_nil|].
    intros (st & Hst & _). by rewrite lookup_empty in Hst.
  - intros k st. by rewrite lookup_empty.
  - constructor.
  - intros ns tn uid item. by rewrite Hr.
  - intros ns tn uid item. by rewrite Hr.
Qed.

Lemma register_inv e us ws kube target profile opts r e' :
  target_Suspend (target_Spec target) = false → has_byte "/" (target_Namespace target) = false →
  RegisterTarget kube target profile opts e = (r, e') →
  inv (mkSystem e us ws) → inv (mkSystem e' us ws).
Proof.
  intros Hs Hn Hr [Hix Hw Hns Hrows]. pose proof Hr as Hr'.
  apply RegisterTarget_spec in Hr' as [(err & _ & ->)|(c & m & eff & _ & _ & _ & Heq)]; [done| |done].
  assert (estore e' = estore e) as Hst.
  { rewrite Heq. unfold drop_target. by destruct (targets (set_nsMeta m e) !! _). }
  split; simpl in *; [by eapply RegisterTarget_index|done|by rewrite Hst|].
  intros ns tn uid item Hi. rewrite Hst in Hi. destruct (Hrows _ _ _ _ Hi) as [Ht|?]; [left|by right].
  rewrite Heq. simpl. set (key := Store.targetKey (target_Namespace target) (target_Name target)) in *.
  destruct (decide (Store.targetKey ns tn = key)) as [->|Hne]; [rewrite lookup_insert_eq; eauto|].
  rewrite lookup_insert_ne by done. unfold drop_target. simpl.
  rewrite lookup_delete_ne by congruence. by destruct (targets e !! key).
Qed.

Lemma dispatch_inv e us ws1 ws2 gvr u deleted st sts access :
  inv (mkSystem e us (ws1 ++ mkWorker gvr u deleted (st :: sts) :: ws2)) →
  inv (mkSystem (dispatch_target msg access gvr u deleted st e) us
         (ws1 ++ mkWorker gvr u deleted sts :: ws2)).
Proof.
  intros [Hix Hw Hns Hrows]. simpl in *.
  destruct (dispatch_target_spec msg access gvr u deleted st e) as (Ht & Hx & Hr).
  assert (∀ ns tn uid item, rows (estore (dispatch_target msg access gvr u deleted st e)) !! (ns, tn, uid) = Some item →
    rows (estore e) !! (ns, tn, uid) = Some item ∨
    ns = target_Namespace (st_target st) ∧ tn = target_Name (st_target st) ∧
    is_Some (targets e !! Store.targetKey ns tn)) as Hnew.
  { intros ns tn uid item. rewrite Hr. unfold effect_of.
    destruct deleted; simpl; [by intros [_ ?]%lookup_delete_Some; left|].
    destruct (matchesTarget st gvr u e); simpl; [|by intros [_ ?]%lookup_delete_Some; left..].
    destruct access as [[]|]; simpl; [|by intros [_ ?]%lookup_delete_Some; left|by left].
    destruct (Extract u _) as [attrs|err]; simpl; [|by intros [_ ?]%lookup_delete_Some; left].
    destruct (targets e !! Store.targetKey (target_Namespace (st_target st)) (target_Name (st_target st))) as [st0|] eqn:Hst;
      simpl; [|by left].
    intros [[[= <- <- <-] _]|[_ ?]]%lookup_insert_Some; [right|by left]. rewrite Hst. eauto. }
  apply Forall_app in Hw as [Hw1 [Hw Hw2]%Forall_cons]. simpl in Hw. apply Forall_cons in Hw as [Hst Hsts].
  split; simpl.
  - destruct Hix as [Hn He Hk]. split; [by rewrite Hx|by rewrite Hx, Ht|by rewrite Ht].
  - apply Forall_app. split; [done|]. by apply Forall_cons.
  - intros ns tn uid item [Hi|(-> & -> & _)]%Hnew; [by eapply Hns|done].
  - intros ns tn uid item. rewrite Ht. intros [Hi|(-> & -> & ?)]%Hnew; [by eapply Hrows|by left].
Qed.

Lemma step_inv s s' : step s s' → inv s → inv s'.
Proof.
  destruct 1 as [e us ws kube target profile opts r e' Hs Hn Hr|e us ws ns name Hns|e us1 us2 ws ns name
    |e us ws kube|e us ws d ks|e us ws gvr obj u deleted Hu|e us ws1 ws2 gvr u deleted st sts access].
  - by eapply register_inv.
  - intros [Hix Hw Hrn Hrows]. simpl in *.
    destruct (unregister_locked_eq (Store.targetKey ns name) e) as (Ht & _ & Hst).
    split; cbn [sys_engine sys_unregistering sys_workers];
      [by apply unregister_locked_index|done|by rewrite Hst|].
    intros n tn uid item. rewrite Hst, Ht. intros Hi.
    destruct (decide (Store.targetKey n tn = Store.targetKey ns name)) as [Heq|Hne].
    + apply targetKey_inj in Heq as [-> ->]; [right; by left|by eapply Hrn|done].
    + rewrite lookup_delete_ne by done.
      destruct (Hrows _ _ _ _ Hi) as [?|?]; [by left|right; by right].
  - intros [Hix Hw Hrn Hrows]. simpl in *.
    split; simpl; [by destruct Hix; split|done| |];
      intros n tn uid item; rewrite rows_RemoveTarget; unfold RowSpec.remove_target;
      intros [Hi Hne]%map_lookup_filter_Some; [by eapply Hrn|].
    destruct (Hrows _ _ _ _ Hi) as [?|Hin]; [by left|right]. simpl in Hne.
    apply elem_of_app in Hin as [?|[?|?]%elem_of_cons]; [apply elem_of_app; by left|done|apply elem_of_app; by right].
  - intros [Hix Hw Hrn Hrows]. destruct kube as [[l|]|]; [|done..]. split; simpl in *; [|done..].
    by destruct Hix; split.
  - intros [Hix Hw Hrn Hrows]. split; simpl in *; [|done..]. by destruct Hix; split.
  - intros [Hix Hw Hrn Hrows]. split; simpl in *; [done| |done..].
    apply Forall_cons. split; [|done]. by apply states_for_ok.
  - apply dispatch_inv.
Qed.

Lemma reachable_ind (P : system → Prop) s :
  P initial → (∀ s1 s2, step s1 s2 → P s1 → P s2) → reachable s → P s.
Proof.
  intros Hi Hs Hr. unfold reachable in Hr. remember initial as s0 eqn:Hs0. clear Hs0.
  induction Hr as [|s1 s2 s3 Hstep _ IH]; eauto.
Qed.

Lemma reachable_inv s : reachable s → inv s.
Proof. apply reachable_ind; [apply initial_inv|apply step_inv]. Qed.

Lemma dispatch_target_scrubber access gvr u deleted st e :
  scrubber (dispatch_target msg access gvr u deleted st e) = scrubber e.
Proof.
  unfold dispatch_target, upsertIfRegistered, clearExtractFailure, recordExtractFailure.
  repeat case_match; done.
Qed.

Lemma step_scrub_inv s s' : step s s' → scrub_inv s → scrub_inv s'.
Proof.
  destruct 1 as [e us ws kube target profile opts r e' Hs Hn Hr|e us ws ns name Hns|e us1 us2 ws ns name
    |e us ws kube|e us ws d ks|e us ws gvr obj u deleted Hu|e us ws1 ws2 gvr u deleted st sts access];
    intros [Hk Hrows]; simpl in *.
  - apply RegisterTarget_spec in Hr as [(err & _ & ->)|(c & m & eff & _ & _ & _ & ->)]; [done| |done].
    unfold drop_target. destruct (targets (set_nsMeta m e) !! _); by split.
  - destruct (unregister_locked_eq (Store.targetKey ns name) e) as (_ & _ & Hst).
    split; cbn [sys_engine]; [|by rewrite Hst].
    unfold unregister_locked. by destruct (targets e !! _).
  - split; simpl; [done|]. rewrite rows_RemoveTarget. unfold RowSpec.remove_target.
    intros k item [Hi _]%map_lookup_filter_Some. by apply (Hrows k).
  - destruct kube as [[l|]|]; by split.
  - split; simpl; [|done]. apply NewScrubber_mono.
  - by split.
  - split; cbn [sys_engine]; [unfold knows_builtin_keys; by rewrite dispatch_target_scrubber|].
    destruct (dispatch_target_spec msg access gvr u deleted st e) as (_ & _ & ->).
    destruct (effect_of access gvr u deleted st e) as [item| |] eqn:Hef; simpl; [|by apply map_Forall_delete|done].
    apply map_Forall_insert_2; [|done]. unfold effect_of in Hef. repeat case_match; simplify_eq.
    by apply item_of_scrubbed.
Qed.

Lemma reachable_scrub_inv s : reachable s → scrub_inv s.
Proof.
  apply reachable_ind; [|apply step_scrub_inv]. split; cbn; [unfold knows_builtin_keys; cbn; intros x Hx; exact Hx|]. rewrite rows_NewStore.
  apply map_Forall_empty.
Qed.

(** ** Properties *)

(** C2. No row outlives its target: in every interleaving of registrations,
    unregistrations, refreshes and dispatch workers holding stale snapshots, once
    no unregistration is under way every stored row belongs to a target that is
    registered. *)
Theorem no_orphan_rows s ns tn uid item :
  reachable s → sys_unregistering s = [] →
  rows (estore (sys_engine s)) !! (ns, tn, uid) = Some item →
  is_Some (targets (sys_engine s) !! Store.targetKey ns tn).
Proof.
  intros Hr Hu Hi. destruct (inv_rows s (reachable_inv s Hr) _ _ _ _ Hi) as [?|Hin]; [done|].
  rewrite Hu in Hin. by apply elem_of_nil in Hin.
Qed.

(** C3. What reaches the store has been scrubbed: in every reachable state, under
    every configured key list, no map in an attribute of a row, at any depth reached
    through maps of strings and lists of [any], has an entry that ADR-0303 denies and
    that is not the redaction marker; the exported copy of a resource is such a tree
    with the generation stamp added. Inside a value of another Go type, such as a
    list or map that a CEL expression builds, nothing is claimed, and nothing is
    redacted. *)
Theorem stored_rows_are_scrubbed s ns tn uid item attrs k v :
  reachable s → rows (estore (sys_engine s)) !! (ns, tn, uid) = Some item →
  Attributes item = Some attrs → (k, v) ∈ attrs →
  secret_free [] v ∨
  ∃ root g, secret_free [] (VMap root) ∧ v = VMap (stampCollectedGeneration root g).
Proof.
  intros Hr Hi Ha Hin. pose proof (sinv_rows s (reachable_scrub_inv s Hr) _ _ Hi) as Hitem.
  unfold item_scrubbed in Hitem. rewrite Ha in Hitem. simpl in Hitem.
  rewrite Forall_forall in Hitem. by apply (Hitem (k, v)).
Qed.

(** Every event reaches every target of its kind exactly once: in every
    reachable state the snapshot a dispatch takes for a kind lists precisely the
    registered targets of that kind, without repetition. *)
Theorem dispatch_reaches_targets s gvr :
  reachable s →
  states_for gvr (sys_engine s) ≡ₚ
  filter (λ st, state_gvr st = gvr) (map_to_list (targets (sys_engine s))).*2.
Proof.
  intros Hr. destruct (inv_index s (reachable_inv s Hr)) as [Hn Hx Hk]. set (e := sys_engine s) in *.
  assert (keys_at gvr (targetsByGVR e) ≡ₚ
    (filter (λ kst, state_gvr kst.2 = gvr) (map_to_list (targets e))).*1) as Hp.
  { apply NoDup_Permutation; [apply Hn| |].
    - eapply sublist_NoDup; [apply (NoDup_fst_map_to_list (targets e))|].
      apply fmap_sublist, sublist_filter.
    - intros k. rewrite Hx, list_elem_of_fmap. split.
      + intros (st & Hst & <-). exists (k, st). split; [done|]. apply list_elem_of_filter.
        split; [done|]. by apply elem_of_map_to_list.
      + intros ([k' st] & -> & [Hg Hst%elem_of_map_to_list]%list_elem_of_filter). eauto. }
  unfold states_for. fold (keys_at gvr (targetsByGVR e)). rewrite Hp.
  assert (∀ l, (∀ k st, (k, st) ∈ l → targets e !! k = Some st) →
    omap (λ key, targets e !! key) (filter (λ kst, state_gvr kst.2 = gvr) l).*1 =
    filter (λ st, state_gvr st = gvr) l.*2) as Hall.
  { induction l as [|[k st] l IH]; intros Hl; [done|]. rewrite fmap_cons, !filter_cons. simpl.
    rewrite <- IH by (intros k' st' ?; apply Hl; by right). case_decide; [|done].
    rewrite fmap_cons. simpl. rewrite (Hl k st) by (by left). done. }
  rewrite Hall; [done|]. intros k st. by rewrite elem_of_map_to_list.
Qed.
End concurrent.
End Concurrent.

(** * A concrete run *)
Module EngineDemo.
Import Engine Concurrent.

#[export] Instance demo_spec_json : SpecJson :=
  {| json_rules _ := "[]"; json_profile_spec _ := "{}" |}.

#[local] Existing Instances demo_kube demo_cel demo_extract demo_sha256 map_range_to_list ascii_only_case.

Definition pod : GroupVersionKind := mkGVK "" "v1" "Pod".

(** A target of the namespace [team] that collects pods. *)
Definition pods (sel : option LabelSelector) (excluded : list string) : KollectTarget :=
  mkKollectTarget "team" "pods" 1
    (mkKollectTargetSpec "p" sel (mkCollectionFilterSpec [] excluded None []) None [] false "").

Definition profile : KollectProfile :=
  mkKollectProfile "team" "p" 1 (mkKollectProfileSpec pod [mkAttributeSpec "spec" "spec" "string" false] None []).

Definition web : object :=
  [("name", VString "web"); ("namespace", VString "team"); ("uid", VString "u1"); ("app", VString "web");
   ("spec", VMap [("password", VString "hunter2"); ("image", VString "nginx")])].

Definition cluster : option (option (list (string * NamespaceMeta))) := Some (Some [("team", empty_meta)]).
Definition no_ceiling : RegisterTargetOptions := mkRegisterOptions (mkScopeCeiling [] []) [].
Definition gvr : GroupVersionResource := mkGVR "" "v1" "Pod".
Definition render (err : attribute_error) : string := err_attribute err.

Definition registered : EngineState :=
  (RegisterTarget cluster (pods None []) profile no_ceiling (NewEngine Store.NewStore)).2.

Definition collected : EngineState :=
  processDispatch render (λ _, Some true) gvr (ObjUnstructured web) false registered.

Lemma collected_reachable : reachable render (mkSystem collected [] [mkWorker gvr web false []]).
Proof.
  eapply rtc_l.
  { apply (step_register render _ _ _ cluster (pods None []) profile no_ceiling
      (RegisterTarget cluster (pods None []) profile no_ceiling (NewEngine Store.NewStore)).1 registered);
      reflexivity. }
  eapply rtc_l; [by apply (step_dispatch_begin render _ _ _ gvr (ObjUnstructured web) web false)|].
  destruct (states_for gvr registered) as [|st [|]] eqn:Hst; [vm_compute in Hst; discriminate Hst| |vm_compute in Hst; discriminate Hst].
  eapply rtc_l; [apply (step_dispatch_target render _ _ [] [] gvr web false st [] (Some true))|].
  unfold collected, processDispatch. simpl toUnstructured. cbv iota. rewrite Hst. apply rtc_refl.
Qed.

Definition collected_row : Item :=
  mkItem "team" "pods" "team" "web" "" "v1" "Pod" "u1"
    (Some [("spec", VMap [("password", redactedValue); ("image", VString "nginx")])]).

Lemma collected_rows : rows (estore collected) !! ("team", "pods", "u1") = Some collected_row.
Proof. vm_compute. reflexivity. Qed.

Lemma no_orphan_rows_witness : is_Some (targets collected !! "team/pods").
Proof.
  apply (no_orphan_rows render (mkSystem collected [] [mkWorker gvr web false []]) "team" "pods" "u1" collected_row
    collected_reachable eq_refl collected_rows).
Defined.

Lemma stored_rows_are_scrubbed_witness :
  let v := VMap [("password", redactedValue); ("image", VString "nginx")] in
  secret_free [] v ∨
  ∃ root g, secret_free [] (VMap root) ∧ v = VMap (stampCollectedGeneration root g).
Proof.
  intros v.
  apply (stored_rows_are_scrubbed render (mkSystem collected [] [mkWorker gvr web false []]) "team" "pods" "u1"
    collected_row [("spec", v)] "spec" v collected_reachable collected_rows eq_refl). by left.
Defined.

Lemma dispatch_reaches_targets_witness :
  states_for gvr collected ≡ₚ filter (λ st, state_gvr st = gvr) (map_to_list (targets collected)).*2 ∧
  length (states_for gvr collected) = 1.
Proof.
  split; [|vm_compute; reflexivity].
  apply (dispatch_reaches_targets render (mkSystem collected [] [mkWorker gvr web false []]) gvr collected_reachable).
Defined.

(** The same target under a ceiling. *)
Definition team_ceiling : RegisterTargetOptions := mkRegisterOptions (mkScopeCeiling ["team"] []) [].

Lemma ceiling_fails_closed_witness :
  permitted (opt_ScopeCeiling team_ceiling) (target_Filter (target_Spec (pods None []))) (mkNamespaceDefaults [] [])
    (resource_namespace web).
Proof.
  pose (r := RegisterTarget cluster (pods None []) profile team_ceiling (NewEngine Store.NewStore)).
  destruct (targets r.2 !! "team/pods") as [st|] eqn:Hst; [|vm_compute in Hst; discriminate Hst].
  refine (proj2 (ceiling_fails_closed cluster (pods None []) profile team_ceiling (NewEngine Store.NewStore)
    (Some (gvr, true)) r.2 st eq_refl _ Hst gvr web r.2 _) eq_refl eq_refl).
  - vm_compute. reflexivity.
  - vm_compute in Hst. injection Hst as <-. vm_compute. reflexivity.
Defined.

(** Without a ceiling an empty namespace set is not empty: a target that excludes
    the only namespace of the cluster is registered with no effective namespace,
    and then accepts the objects of the namespace it excludes, because the
    fallback consults the namespace selector alone. *)
Example excluded_namespace_collected :
  let target := pods None ["team"] in
  let e := (RegisterTarget cluster target profile no_ceiling (NewEngine Store.NewStore)).2 in
  (effective_for cluster target no_ceiling (NewEngine Store.NewStore)).1 = [] ∧
  ∃ st, states_for gvr e = [st] ∧ matchesTarget st gvr web e = targetMatchAccepted.
Proof.
  intros target e. split; [vm_compute; reflexivity|].
  destruct (states_for gvr e) as [|st [|]] eqn:Hst; vm_compute in Hst; simplify_eq.
  eexists. split; [reflexivity|]. vm_compute. reflexivity.
Qed.
(** A map that a CEL expression builds, here one with the key [password], is of a Go
    type the scrubber does not read and the JSON encoder refuses: the row is stored
    as it is, and no envelope can hold it. *)
#[local] Instance building_extract : ExtractApi := {|
  xcel_program := string; xcel_compile e := Ok e; xcel_eval _ _ := Ok (CelOther None);
  jsonpath := string; jp_parse p := Ok p; jp_find _ _ := Ok []; extractHelmReleaseField _ _ := Err "not a helm release";
|}.

Example built_map_unscrubbed :
  let profile := mkKollectProfile "team" "p" 1
    (mkKollectProfileSpec pod [mkAttributeSpec "login" "cel:{'password': object.spec.password}" "" false] None []) in
  let e := (RegisterTarget cluster (pods None []) profile no_ceiling (NewEngine Store.NewStore)).2 in
  let e := processDispatch render (λ _, Some true) gvr (ObjUnstructured web) false e in
  (Attributes <$> rows (estore e) !! ("team", "pods", "u1")) = Some (Some [("login", VOther None)]) ∧
  (rows (estore e) !! ("team", "pods", "u1") ≫= json_item) = None.
Proof. vm_compute. split; reflexivity. Qed.
End EngineDemo.
