(* ===== verification/Intervals.v ===== *)
(** Export intervals and size ceilings of a sink binding,
    [src/internal/validation/export_interval.go] and the resolution functions of
    [inventory.go] and [clusterinventory.go].

    An admission error is its kind and its field path; the texts are not part of
    the model. *)

From S2P Require Import Prelude GoStrings Api.

(** [k8s.io/apimachinery/pkg/util/validation/field]: a path and an error. *)
Inductive path_elem := Child (name : string) | PathIndex (i : nat).

Inductive field_error_kind :=
  FieldInvalid | FieldRequired | FieldDuplicate | FieldForbidden | FieldNotSupported | FieldTooMany.

Record field_error := mkFieldError {
  fe_kind : field_error_kind;
  fe_path : list path_elem;
}.

Abbreviation ErrorList := (list field_error) (only parsing).

Definition DefaultExportMinInterval : Z := 30 * second.
Definition MaxExportInterval : Z := 24 * hour.
Definition ZeroIntervalWatchdog : Z := 30 * second.
Definition MaxInventorySinkRefs : nat := 20.

(** Go: internal/validation/export_interval.go:29-39 [ValidateDurationInterval] *)
Definition ValidateDurationInterval (d : Z) (path : list path_elem) : ErrorList :=
  if decide (d < 0)%Z then [mkFieldError FieldInvalid path]
  else if decide (MaxExportInterval < d)%Z then [mkFieldError FieldInvalid path]
  else [].

(** Go: internal/validation/export_interval.go:41-47 [ValidateOptionalDurationInterval] *)
Definition ValidateOptionalDurationInterval (d : option Z) (path : list path_elem) : ErrorList :=
  match d with
  | None => []
  | Some d => ValidateDurationInterval d path
  end.

(** Go: internal/validation/ref.go:68-83 [validateSameNamespaceRef] *)
Definition validateSameNamespaceRef (ref : string) (fldPath : list path_elem) : ErrorList :=
  if decide (trim_space ref = "") then [mkFieldError FieldRequired fldPath]
  else if has_byte "/" ref then [mkFieldError FieldInvalid fldPath] else [].

(** Go: internal/validation/export_interval.go:97-114 [validateSinkRefMaxExportBytes] *)
Definition validateSinkRefMaxExportBytes (maxExportBytesGlobal : Z) (maxExportBytes : option Z)
    (path : list path_elem) : ErrorList :=
  match maxExportBytes with
  | None => []
  | Some b =>
      if decide (b ≤ 0)%Z then [mkFieldError FieldInvalid path]
      else if decide (maxExportBytesGlobal < b)%Z then [mkFieldError FieldInvalid path]
      else []
  end.

(** [dns1123] is [IsDNS1123Label] reporting no message.
    Go: internal/validation/export_interval.go:116-129 [validateInventorySinkRefNamespace] *)
Definition validateInventorySinkRefNamespace (dns1123 : string → bool) (namespace : string)
    (nsPath : list path_elem) (allowNamespace : bool) : ErrorList :=
  if decide (trim_space namespace = "") then []
  else if negb allowNamespace then [mkFieldError FieldForbidden nsPath]
  else if dns1123 namespace then [] else [mkFieldError FieldInvalid nsPath].

(** The loop over the references; [seen] holds the names met so far. *)
Fixpoint validate_refs (dns1123 : string → bool) (globalCap : Z) (basePath : list path_elem)
    (allowNamespace : bool) (seen : gset string) (i : nat) (refs : InventorySinkRefList) : ErrorList :=
  match refs with
  | [] => []
  | ref :: refs =>
      let at_ name := basePath ++ [PathIndex i; Child name] in
      let dup := bool_decide (ref_Name ref ≠ "") && bool_decide (ref_Name ref ∈ seen) in
      validateSameNamespaceRef (ref_Name ref) (at_ "name") ++
      (if dup then [mkFieldError FieldDuplicate (at_ "name")] else []) ++
      validateInventorySinkRefNamespace dns1123 (ref_Namespace ref) (at_ "namespace") allowNamespace ++
      ValidateOptionalDurationInterval (ref_ExportMinInterval ref) (at_ "exportMinInterval") ++
      validateSinkRefMaxExportBytes globalCap (ref_MaxExportBytes ref) (at_ "maxExportBytes") ++
      validate_refs dns1123 globalCap basePath allowNamespace
        (if decide (ref_Name ref ≠ "") then {[ref_Name ref]} ∪ seen else seen) (S i) refs
  end.

(** Go: internal/validation/export_interval.go:62-95 [validateInventorySinkRefs] *)
Definition validateInventorySinkRefs (dns1123 : string → bool) (globalCap : Z) (refs : InventorySinkRefList)
    (basePath : option (list path_elem)) (allowNamespace : bool) : ErrorList :=
  let basePath := default [Child "spec"; Child "sinkRefs"] basePath in
  (if decide (MaxInventorySinkRefs < length refs) then [mkFieldError FieldInvalid basePath] else []) ++
  validate_refs dns1123 globalCap basePath allowNamespace ∅ 0 refs.

(** Go: internal/validation/export_interval.go:49-54 [ValidateInventorySinkRefs] *)
Definition ValidateInventorySinkRefs dns1123 globalCap refs basePath : ErrorList :=
  validateInventorySinkRefs dns1123 globalCap refs basePath false.

(** Go: internal/validation/export_interval.go:56-60 [ValidateClusterInventorySinkRefs] *)
Definition ValidateClusterInventorySinkRefs dns1123 globalCap refs basePath : ErrorList :=
  validateInventorySinkRefs dns1123 globalCap refs basePath true.

(** Go: internal/validation/export_interval.go:131-140 [InventoryDefaultInterval] *)
Definition InventoryDefaultInterval (spec : option KollectInventorySpec) (fallback : Z) : Z :=
  match spec ≫= inv_ExportMinInterval with
  | Some d => d
  | None => if decide (0 < fallback)%Z then fallback else DefaultExportMinInterval
  end.

(** Go: internal/validation/export_interval.go:142-154 [ClusterInventoryDefaultInterval] *)
Definition ClusterInventoryDefaultInterval (spec : option KollectClusterInventorySpec) (fallback : Z) : Z :=
  match spec ≫= cinv_ExportMinInterval with
  | Some d => d
  | None => if decide (0 < fallback)%Z then fallback else DefaultExportMinInterval
  end.

(** Go: internal/validation/inventory.go:101-104 [ExportMinIntervalFor] *)
Definition ExportMinIntervalFor (spec : option KollectInventorySpec) (fallback : Z) : Z :=
  InventoryDefaultInterval spec fallback.

(** Go: internal/validation/clusterinventory.go:111-117 [ClusterExportMinIntervalFor] *)
Definition ClusterExportMinIntervalFor (spec : option KollectClusterInventorySpec) (fallback : Z) : Z :=
  ClusterInventoryDefaultInterval spec fallback.

(** Go: internal/validation/export_interval.go:156-162 [ScopeMinExportInterval] *)
Definition ScopeMinExportInterval (scope : option KollectScope) : Z :=
  default 0%Z (scope ≫= λ s, MinExportInterval (scope_Ceiling (scope_Spec s))).

(** Go: internal/validation/export_interval.go:164-170 [ScopeCeilingMinExportInterval] *)
Definition ScopeCeilingMinExportInterval (ceiling : option ScopeCeilingSpec) : Z :=
  default 0%Z (ceiling ≫= MinExportInterval).

(** Go: internal/validation/export_interval.go:172-193 [ResolveSinkExportInterval] *)
Definition ResolveSinkExportInterval (ref : InventorySinkRef) (sinkExportMinInterval : option Z)
    (inventoryDefault scopeFloor : Z) : Z :=
  let chosen := match ref_ExportMinInterval ref with
                | Some d => d
                | None => match sinkExportMinInterval with
                          | Some d => d
                          | None => inventoryDefault
                          end
                end in
  if decide (0 < scopeFloor ∧ (chosen = 0 ∨ chosen < scopeFloor))%Z then scopeFloor else chosen.

(** Go: internal/validation/export_interval.go:241-243 [intervalBelowFloor] *)
Definition intervalBelowFloor (interval floor : Z) : bool := bool_decide (interval < floor)%Z.

(** Go: internal/validation/export_interval.go:195-226 [ValidateIntervalsAgainstScopeFloor] *)
Definition ValidateIntervalsAgainstScopeFloor (inventoryDefault : option Z)
    (refLists : list InventorySinkRefList) (floor : Z) : ErrorList :=
  if decide (floor ≤ 0)%Z then []
  else
    (match inventoryDefault with
     | Some d => if intervalBelowFloor d floor
                 then [mkFieldError FieldInvalid [Child "spec"; Child "exportMinInterval"]] else []
     | None => []
     end) ++
    (refLists ≫= λ refs,
       concat (imap (λ i ref,
         match ref_ExportMinInterval ref with
         | None => []
         | Some d => if intervalBelowFloor d floor
                     then [mkFieldError FieldInvalid
                             [Child "spec"; Child "sinkRefs"; PathIndex i; Child "exportMinInterval"]]
                     else []
         end) refs)).

(** Go: internal/validation/export_interval.go:228-239 [ValidateSinkIntervalAgainstScopeFloor] *)
Definition ValidateSinkIntervalAgainstScopeFloor (interval : option Z) (floor : Z) : ErrorList :=
  match interval with
  | Some d => if decide (floor ≤ 0)%Z then []
              else if intervalBelowFloor d floor
              then [mkFieldError FieldInvalid [Child "spec"; Child "exportMinInterval"]] else []
  | None => []
  end.

(** Go: internal/validation/export_interval.go:245-251 [RequeueAfterForZeroInterval] *)
Definition RequeueAfterForZeroInterval (interval : Z) : Z :=
  if decide (0 < interval)%Z then interval else ZeroIntervalWatchdog.

(** Go: internal/validation/inventory.go:42-54 [ResolveBindingMaxExportBytes] *)
Definition ResolveBindingMaxExportBytes (override : option Z) (fallback : Z) : Z :=
  match override with
  | Some b => if decide (0 < b)%Z then b else fallback
  | None => fallback
  end.

(** * Lemmas *)

Lemma RequeueAfterForZeroInterval_pos interval : (0 < RequeueAfterForZeroInterval interval)%Z.
Proof. unfold RequeueAfterForZeroInterval, ZeroIntervalWatchdog, second. case_decide; lia. Qed.

Lemma ValidateDurationInterval_nil d path :
  ValidateDurationInterval d path = [] ↔ (0 ≤ d ≤ MaxExportInterval)%Z.
Proof. unfold ValidateDurationInterval. repeat case_decide; split; try done; lia. Qed.

Lemma ValidateOptionalDurationInterval_nil d path :
  ValidateOptionalDurationInterval d path = [] ↔ ∀ x, d = Some x → (0 ≤ x ≤ MaxExportInterval)%Z.
Proof.
  destruct d as [d|]; simpl; [|by split].
  rewrite ValidateDurationInterval_nil. split; [by intros ? x [= <-]|auto].
Qed.

Lemma validate_refs_intervals dns cap base allow seen i refs :
  validate_refs dns cap base allow seen i refs = [] →
  Forall (λ r, ∀ x, ref_ExportMinInterval r = Some x → (0 ≤ x ≤ MaxExportInterval)%Z) refs.
Proof.
  revert seen i. induction refs as [|ref refs IH]; intros seen i; [constructor|]. simpl.
  intros (_ & (_ & (_ & (Hi & (_ & Hr)%List.app_eq_nil)%List.app_eq_nil)%List.app_eq_nil)%List.app_eq_nil)%List.app_eq_nil.
  apply Forall_cons. split; [|by eapply IH]. by eapply ValidateOptionalDurationInterval_nil.
Qed.

Lemma validateInventorySinkRefs_intervals dns cap refs base allow :
  validateInventorySinkRefs dns cap refs base allow = [] →
  Forall (λ r, ∀ x, ref_ExportMinInterval r = Some x → (0 ≤ x ≤ MaxExportInterval)%Z) refs.
Proof. unfold validateInventorySinkRefs. intros [_ Hr]%List.app_eq_nil. by eapply validate_refs_intervals. Qed.

Lemma validate_floor_refs (refs : InventorySinkRefList) (mk : nat → field_error) floor :
  concat (imap (λ i ref, match ref_ExportMinInterval ref with
    | None => [] | Some d => if intervalBelowFloor d floor then [mk i] else [] end) refs) = [] ↔
  Forall (λ r, ∀ x, ref_ExportMinInterval r = Some x → (floor ≤ x)%Z) refs.
Proof.
  revert mk. induction refs as [|ref refs IH]; intros mk; [by split|].
  rewrite imap_cons, Forall_cons. simpl. split.
  - intros [Hd Hr]%List.app_eq_nil. apply (IH (mk ∘ S)) in Hr. split; [|done]. intros x Hx. rewrite Hx in Hd.
    unfold intervalBelowFloor in Hd. case_bool_decide; [done|lia].
  - intros [Hd Hr]. eapply (eq_trans (y := [] ++ [])); [|done].
    apply (f_equal2 app); [|by apply (IH (mk ∘ S))].
    destruct (ref_ExportMinInterval ref) as [x|]; [|done].
    specialize (Hd x eq_refl). unfold intervalBelowFloor. by rewrite bool_decide_eq_false_2 by lia.
Qed.

(** ** Properties *)

(** The interval a binding exports at: it is the reference's, else the
    sink's, else the inventory's, raised to the scope's floor; so it is never below
    a positive floor, and when every part passed admission it lies between zero
    and a day, the range the debounce state is kept for. *)
Theorem resolved_interval_bounds dns cap refs base allow ref sinkInterval sinkPath dflt dfltPath floor floorPath :
  validateInventorySinkRefs dns cap refs base allow = [] → ref ∈ refs →
  ValidateOptionalDurationInterval sinkInterval sinkPath = [] →
  ValidateDurationInterval dflt dfltPath = [] → ValidateDurationInterval floor floorPath = [] →
  let interval := ResolveSinkExportInterval ref sinkInterval dflt floor in
  let chosen := match ref_ExportMinInterval ref, sinkInterval with
                | Some d, _ => d | None, Some d => d | None, None => dflt end in
  (0 ≤ interval ≤ MaxExportInterval)%Z ∧ interval = Z.max floor chosen ∧
  (∀ lists inventoryDefault, refs ∈ lists → floor ≠ 0%Z →
   ValidateIntervalsAgainstScopeFloor inventoryDefault lists floor = [] →
   ∀ d, ref_ExportMinInterval ref = Some d → interval = d).
Proof.
  intros Hrefs Hin Hsink Hdflt Hfloor.
  apply validateInventorySinkRefs_intervals in Hrefs. rewrite Forall_forall in Hrefs. specialize (Hrefs ref Hin).
  rewrite ValidateOptionalDurationInterval_nil in Hsink. rewrite !ValidateDurationInterval_nil in Hdflt, Hfloor.
  cbv zeta. set (chosen := match ref_ExportMinInterval ref with Some d => d | None => _ end).
  assert (0 ≤ chosen ≤ MaxExportInterval)%Z as Hc.
  { unfold chosen. destruct (ref_ExportMinInterval ref) as [d|]; [by apply Hrefs|].
    destruct sinkInterval as [d|]; [by apply Hsink|done]. }
  assert (ResolveSinkExportInterval ref sinkInterval dflt floor = Z.max floor chosen) as Hmax.
  { unfold ResolveSinkExportInterval. fold chosen. case_decide; lia. }
  rewrite Hmax. split_and!; [lia..|]. intros lists idef Hl Hpos Hv d Hd.
  unfold ValidateIntervalsAgainstScopeFloor in Hv. rewrite decide_False in Hv by lia.
  apply List.app_eq_nil in Hv as [_ Hv].
  assert (Forall (λ r, ∀ x, ref_ExportMinInterval r = Some x → (floor ≤ x)%Z) refs) as Hall.
  { eapply (validate_floor_refs refs (λ i, mkFieldError FieldInvalid
      [Child "spec"; Child "sinkRefs"; PathIndex i; Child "exportMinInterval"])).
    clear -Hl Hv. induction lists as [|l lists IH]; [by apply elem_of_nil in Hl|].
    rewrite bind_cons in Hv. apply List.app_eq_nil in Hv as [H1 H2].
    apply elem_of_cons in Hl as [->|Hl]; auto. }
  rewrite Forall_forall in Hall. specialize (Hall ref Hin d Hd). unfold chosen. rewrite Hd. lia.
Qed.

Lemma resolved_interval_bounds_witness :
  ResolveSinkExportInterval (mkInventorySinkRef "git" "" (Some (60 * second)%Z) None) None (30 * second) (45 * second) =
  (60 * second)%Z.
Proof.
  set (ref := mkInventorySinkRef "git" "" (Some (60 * second)%Z) None).
  apply (resolved_interval_bounds (λ _, true) 100 [ref] None false ref None [] (30 * second) [] (45 * second) []
    eq_refl (list_elem_of_here ref []) eq_refl eq_refl eq_refl)
    with (lists := [[ref]]) (inventoryDefault := None); [by left|discriminate|reflexivity|reflexivity].
Defined.
