(* ===== verification/Coalesce.v ===== *)
(** The debounce of repeated exports and the per-sink record of an export pass,
    [src/internal/controller/per_sink_export.go].

    [Module Tracker] is the debounce state shared by the reconcilers, one baseline
    per inventory and sink; [Module Outcome] is what one pass reports. The
    library's condition list and the redaction of messages are arguments. *)

From S2P Require Import Prelude GoStrings Api Json Errors Intervals Filter.

Module Tracker.

(** Go: internal/controller/per_sink_export.go:40-49 [sinkExportIdentity] *)
Record sinkExportIdentity := mkIdentity {
  inventoryUID : string;
  sinkUID : string;
  sinkGeneration : Z;
}.

#[export] Instance identity_eq_dec : EqDecision sinkExportIdentity.
Proof. solve_decision. Defined.

(** The fields of a resolved sink the pass reads; [rs_ExportMinInterval] is the
    interval behind the two pointers.
    Go: internal/sink/resolver.go:17-27 [ResolvedSink] *)
Record ResolvedSink := mkResolvedSink {
  rs_UID : string;
  rs_Generation : Z;
  rs_ExportMinInterval : option (option Z);
}.

(** Go: internal/controller/per_sink_export.go:51-61 [newSinkExportIdentity] *)
Definition newSinkExportIdentity (inventoryUID : string) (resolved : option ResolvedSink) : sinkExportIdentity :=
  match resolved with
  | Some r => mkIdentity inventoryUID (rs_UID r) (rs_Generation r)
  | None => mkIdentity inventoryUID "" 0
  end.

(** Go: internal/controller/per_sink_export.go:63-73 [sinkCoalesceState] *)
Record sinkCoalesceState := mkCoalesceState {
  identity : sinkExportIdentity;
  lastExport : Z;
  lastChecksum : string;
  lastGeneration : Z;
  lastRequestedAt : string;
  lastSkipped : Z;
}.

Abbreviation tracker := (gmap string sinkCoalesceState) (only parsing).

Definition coalesceStateTTL : Z := 2 * MaxExportInterval.

(** Go: internal/controller/per_sink_export.go:80-82 [key] *)
Definition key (invKey sinkName : string) : string := invKey +:+ String (ascii_of_nat 0) sinkName.

(** Go: internal/controller/per_sink_export.go:483-490 [latestTime] *)
Definition latestTime (a b : Z) : Z := if time_after b a then b else a.

(** What an export is compared by. *)
Record inputs := mkInputs {
  in_identity : sinkExportIdentity;
  in_generation : Z;
  in_checksum : string;
  in_requestedAt : string;
}.

#[export] Instance inputs_eq_dec : EqDecision inputs.
Proof. solve_decision. Defined.

Definition state_inputs (s : sinkCoalesceState) : inputs :=
  mkInputs (identity s) (lastGeneration s) (lastChecksum s) (lastRequestedAt s).

(** Go: internal/controller/per_sink_export.go:84-130 [shouldSkip] *)
Definition shouldSkip (invKey sinkName : string) (i : inputs) (interval now : Z) (t : tracker) : bool * tracker :=
  match t !! key invKey sinkName with
  | None => (false, t)
  | Some state =>
      if decide (lastGeneration state ≠ in_generation i) then (false, t)
      else if decide (identity state ≠ in_identity i) then (false, t)
      else if decide (lastChecksum state ≠ in_checksum i) then (false, t)
      else if decide (lastRequestedAt state ≠ in_requestedAt i) then (false, t)
      else if decide (interval = 0)%Z
      then (true, <[key invKey sinkName := mkCoalesceState (identity state) (lastExport state) (lastChecksum state)
                      (lastGeneration state) (lastRequestedAt state) now]> t)
      else if is_zero_time (lastExport state) then (false, t)
      else (bool_decide (time_sub now (lastExport state) < interval)%Z, t)
  end.

(** Go: internal/controller/per_sink_export.go:172-184 [pruneStaleLocked] *)
Definition pruneStaleLocked (now : Z) (t : tracker) : tracker :=
  filter (λ kv, ¬ (coalesceStateTTL < time_sub now (latestTime (lastExport kv.2) (lastSkipped kv.2)))%Z) t.

Definition new_state : sinkCoalesceState :=
  mkCoalesceState (mkIdentity "" "" 0) zero_time "" 0 "" zero_time.

(** Go: internal/controller/per_sink_export.go:132-160 [record] *)
Definition record (invKey sinkName : string) (i : inputs) (now : Z) (t : tracker) : tracker :=
  let t := pruneStaleLocked now t in
  let k := key invKey sinkName in
  let state := default new_state (t !! k) in
  <[k := mkCoalesceState (in_identity i) now (in_checksum i) (in_generation i) (in_requestedAt i)
           (lastSkipped state)]> t.

(** Go: internal/controller/per_sink_export.go:162-170 [forget] *)
Definition forget (invKey sinkName : string) (t : tracker) : tracker := delete (key invKey sinkName) t.

(** Go: internal/controller/per_sink_export.go:186-209 [nextDue] *)
Definition nextDue (invKey sinkName : string) (interval now : Z) (t : tracker) : Z :=
  if decide (interval = 0)%Z then ZeroIntervalWatchdog
  else
    match t !! key invKey sinkName with
    | None => second
    | Some state =>
        if is_zero_time (lastExport state) then second
        else
          let remaining := wrap64 (interval - time_sub now (lastExport state)) in
          if decide (remaining < second)%Z then second else remaining
    end.

(** Go: internal/controller/per_sink_export.go:311-316 [mergeRequeueAfter] *)
Definition mergeRequeueAfter (current next : Z) : Z :=
  if decide (current = 0 ∨ next < current)%Z then next else current.
End Tracker.

Module Outcome.
Import Tracker.

(** [metav1.Condition]. *)
Record Condition := mkCondition {
  cond_Type : string;
  cond_Status : string;
  cond_Reason : string;
  cond_Message : string;
  cond_ObservedGeneration : Z;
  cond_LastTransitionTime : Z;
}.

(** [apimeta.SetStatusCondition], [redact.Text] and [sink.ErrSpillRequired]. *)
Class ConditionApi := {
  SetStatusCondition : list Condition → Condition → list Condition;
  redact_Text : string → string;
  ErrSpillRequired : nat;
}.

(** Go: api/v1alpha1/export_interval_types.go:104-139 [InventorySinkExportStatus] *)
Record InventorySinkExportStatus := mkStatus {
  st_Name : string;
  st_Namespace : string;
  st_LastExportTime : option Z;
  st_LastChecksum : string;
  st_LastExportPaths : list string;
  st_Conditions : list Condition;
}.

(** The counters and records of a pass.
    Go: internal/controller/per_sink_export.go:211-227 [perSinkExportOutcome] *)
Record perSinkExportOutcome := mkOutcome {
  ExportedCount : nat;
  DebouncedCount : nat;
  FailedCount : nat;
  FailedSink : string;
  ExportErr : option err;
  SinkExports : list InventorySinkExportStatus;
  RequeueAfter : Z;
  failedSinks : list string;
  exportErrs : list err;
  trackerKey : string;
  exportedSinks : list string;
}.

Definition empty_outcome (requeue : Z) : perSinkExportOutcome :=
  mkOutcome 0 0 0 "" None [] requeue [] [] "" [].

Definition conditionSinkSynced : string := "Synced".
Definition reasonExported : string := "Exported".
Definition reasonExportFailed : string := "ExportFailed".
Definition spillReasonSpillRequired : string := "SpillRequired".
Definition ReasonDebounced : string := "Debounced".

(** [time.Duration.String]. *)
Definition fmt_frac (prec : nat) (v : Z) : string :=
  if decide (v = 0)%Z then "" else "." +:+ trim_right (λ c, bool_decide (c = "0"%char)) (pad prec (fmt_d v)).

Definition micro_sign : string := String (ascii_of_nat 194) (String (ascii_of_nat 181) "").

Definition duration_string (d : Z) : string :=
  let u := Z.abs d in
  let scaled unit prec suffix := fmt_d (u / unit) +:+ fmt_frac prec (u `mod` unit) +:+ suffix in
  let text :=
    if decide (u = 0)%Z then "0s"
    else if decide (u < 1000)%Z then scaled 1%Z 0 "ns"
    else if decide (u < 1000000)%Z then scaled 1000%Z 3 (micro_sign +:+ "s")
    else if decide (u < second)%Z then scaled 1000000%Z 6 "ms"
    else
      let secs := (u / second)%Z in
      let mins := (secs / 60)%Z in
      (if decide (0 < mins / 60)%Z then fmt_d (mins / 60) +:+ "h" else "") +:+
      (if decide (0 < mins)%Z then fmt_d (mins `mod` 60) +:+ "m" else "") +:+
      fmt_d (secs `mod` 60) +:+ fmt_frac 9 (u `mod` second) +:+ "s" in
  if decide (d < 0)%Z then "-" +:+ text else text.

Section outcome.
Context `{!ConditionApi, !ApiErrors}.

(** Go: internal/controller/per_sink_export.go:229-233 [markExported] *)
Definition markExported (invKey exportKey : string) (o : perSinkExportOutcome) : perSinkExportOutcome :=
  mkOutcome (ExportedCount o) (DebouncedCount o) (FailedCount o) (FailedSink o) (ExportErr o) (SinkExports o)
    (RequeueAfter o) (failedSinks o) (exportErrs o) invKey (exportedSinks o ++ [exportKey]).

(** Go: internal/controller/per_sink_export.go:235-243 [forgetUnpersistedExports] *)
Definition forgetUnpersistedExports (o : perSinkExportOutcome) (t : tracker) : tracker :=
  foldl (λ t exportKey, forget (trackerKey o) exportKey t) t (exportedSinks o).

(** Go: internal/controller/per_sink_export.go:245-254 [addSinkFailure] *)
Definition addSinkFailure (exportKey : string) (e : err) (o : perSinkExportOutcome) : perSinkExportOutcome :=
  let failedSinks := failedSinks o ++ [exportKey] in
  let exportErrs := exportErrs o ++ [e] in
  mkOutcome (ExportedCount o) (DebouncedCount o) (S (FailedCount o)) (join "," failedSinks)
    (aggregateExportErrs exportErrs) (SinkExports o) (RequeueAfter o) failedSinks exportErrs
    (trackerKey o) (exportedSinks o).

(** Go: internal/controller/per_sink_export.go:295-297 [isTotalExportFailure] *)
Definition isTotalExportFailure (o : perSinkExportOutcome) : bool :=
  bool_decide (ExportErr o ≠ None) && bool_decide (ExportedCount o = 0) && bool_decide (DebouncedCount o = 0).

(** Go: internal/controller/per_sink_export.go:299-309 [sinkExportFailureReason] *)
Definition sinkExportFailureReason (e : err) : string :=
  if errors_is ErrSpillRequired e then spillReasonSpillRequired else reasonExportFailed.

(** Go: internal/controller/per_sink_export.go:318-341 [setSinkExportSynced] *)
Definition setSinkExportSynced (generation : Z) (ok : bool) (reason message : string) (now : Z)
    (s : InventorySinkExportStatus) : InventorySinkExportStatus :=
  mkStatus (st_Name s) (st_Namespace s) (st_LastExportTime s) (st_LastChecksum s) (st_LastExportPaths s)
    (SetStatusCondition (st_Conditions s)
       (mkCondition conditionSinkSynced (if ok then "True" else "False") reason (redact_Text message) generation now)).

(** Go: internal/controller/per_sink_export.go:343-357 [setSinkExportDebounced] *)
Definition setSinkExportDebounced (generation interval now : Z) (s : InventorySinkExportStatus) :
    InventorySinkExportStatus :=
  let message := if decide (interval = 0)%Z
                 then "payload unchanged since the last export; exports only on change (interval 0s)"
                 else "payload unchanged since the last export; re-exported every " +:+ duration_string interval in
  setSinkExportSynced generation true ReasonDebounced message now s.

(** The pointer [upsertSinkExportStatus] returns is to the first entry of the
    name; [alter_status] writes through it. *)
Fixpoint alter_status (name : string) (f : InventorySinkExportStatus → InventorySinkExportStatus)
    (exports : list InventorySinkExportStatus) : list InventorySinkExportStatus :=
  match exports with
  | [] => []
  | s :: exports => if decide (st_Name s = name) then f s :: exports else s :: alter_status name f exports
  end.

Fixpoint find_status (name : string) (exports : list InventorySinkExportStatus) : option InventorySinkExportStatus :=
  match exports with
  | [] => None
  | s :: exports => if decide (st_Name s = name) then Some s else find_status name exports
  end.

(** Go: internal/controller/per_sink_export.go:359-371 [upsertSinkExportStatus] *)
Definition upsertSinkExportStatus (name : string) (exports : list InventorySinkExportStatus) :
    list InventorySinkExportStatus :=
  match find_status name exports with
  | Some _ => exports
  | None => exports ++ [mkStatus name "" None "" [] []]
  end.

(** Go: internal/controller/per_sink_export.go:373-405 [carryOverSinkExport] *)
Definition carryOverSinkExport (previous : list InventorySinkExportStatus) (exportKey : string)
    (s : InventorySinkExportStatus) : InventorySinkExportStatus :=
  match find_status exportKey previous with
  | None => s
  | Some seed => mkStatus (st_Name s) (st_Namespace s) (st_LastExportTime seed) (st_LastChecksum seed)
                   (st_LastExportPaths seed) (st_Conditions seed)
  end.

Definition maxRecordedExportPaths : nat := 32.

(** Go: internal/controller/per_sink_export.go:414-440 [recordExportPaths] *)
Definition recordExportPaths (written previous : list string) : list string :=
  match written with
  | [] => previous
  | _ => take maxRecordedExportPaths (sort_strings (dedup written))
  end.

Definition set_exports f (o : perSinkExportOutcome) : perSinkExportOutcome :=
  mkOutcome (ExportedCount o) (DebouncedCount o) (FailedCount o) (FailedSink o) (ExportErr o) (f (SinkExports o))
    (RequeueAfter o) (failedSinks o) (exportErrs o) (trackerKey o) (exportedSinks o).

Definition set_requeue r (o : perSinkExportOutcome) : perSinkExportOutcome :=
  mkOutcome (ExportedCount o) (DebouncedCount o) (FailedCount o) (FailedSink o) (ExportErr o) (SinkExports o)
    r (failedSinks o) (exportErrs o) (trackerKey o) (exportedSinks o).

(** Go: internal/controller/per_sink_export.go:256-270 [failSinkExport] *)
Definition failSinkExport (invKey exportKey : string) (generation : Z) (e : err) (now : Z)
    (ot : perSinkExportOutcome * tracker) : perSinkExportOutcome * tracker :=
  let '(o, t) := ot in
  let o := addSinkFailure exportKey e o in
  let o := set_exports (alter_status exportKey
             (setSinkExportSynced generation false (sinkExportFailureReason e) (error_text e) now)) o in
  (o, forget invKey exportKey t).

(** Go: internal/controller/per_sink_export.go:469-481 [latestExportTime] *)
Definition latestExportTime (exports : list InventorySinkExportStatus) : option Z :=
  foldl (λ latest s,
    match st_LastExportTime s with
    | None => latest
    | Some t => match latest with
                | Some l => if time_after t l then Some t else latest
                | None => Some t
                end
    end) None exports.

(** Go: internal/controller/per_sink_export.go:461-467 [sinksUpToDateMessage] *)
Definition sinksUpToDateMessage (exported debounced : nat) : string :=
  let upToDate := fmt_d (Z.of_nat (exported + debounced)) in
  upToDate +:+ "/" +:+ upToDate +:+ " sink(s) up to date".

Definition ReasonPartiallySynced : string := "PartiallySynced".
Definition reasonProgressing : string := "Progressing".

(** Go: internal/controller/sink_status.go:173-187 [setSyncedCondition] *)
Definition setSyncedCondition (generation : Z) (ok : bool) (reason message : string) (now : Z)
    (conditions : list Condition) : list Condition :=
  SetStatusCondition conditions
    (mkCondition "Synced" (if ok then "True" else "False") reason (redact_Text message) generation now).

(** Go: internal/controller/per_sink_export.go:442-459 [aggregateInventorySync] *)
Definition aggregateInventorySync (generation : Z) (exported debounced failed : nat) (now : Z)
    (conditions : list Condition) : list Condition :=
  let n k := fmt_d (Z.of_nat k) in
  if decide (0 < failed ∧ 0 < exported)
  then setSyncedCondition generation false ReasonPartiallySynced
         (n exported +:+ "/" +:+ n (exported + failed) +:+ " sinks exported; " +:+ n failed +:+ " failed") now conditions
  else if decide (0 < failed)
  then setSyncedCondition generation false reasonProgressing (n failed +:+ " sink(s) failed export") now conditions
  else setSyncedCondition generation true reasonExported (sinksUpToDateMessage exported debounced) now conditions.
End outcome.
End Outcome.

(** * The debounce as a log of successful exports *)
Module DebounceSpec.
Import Tracker.

(** Operations on the tracker, in the order they ran. *)
Inductive op :=
  | OpRecord (invKey sinkName : string) (i : inputs) (now : Z)
  | OpForget (invKey sinkName : string)
  | OpSkip (invKey sinkName : string) (i : inputs) (interval now : Z).

Definition apply (o : op) (t : tracker) : tracker :=
  match o with
  | OpRecord inv sink i now => record inv sink i now t
  | OpForget inv sink => forget inv sink t
  | OpSkip inv sink i interval now => (shouldSkip inv sink i interval now t).2
  end.

Definition run (ops : list op) : tracker := foldl (λ t o, apply o t) ∅ ops.

(** The abstract state: the last export of each binding that has not been
    forgotten, with its inputs and time. *)
Abbreviation log := (gmap (string * string) (inputs * Z)) (only parsing).

Definition log_step (o : op) (a : log) : log :=
  match o with
  | OpRecord inv sink i now => <[(inv, sink) := (i, now)]> a
  | OpForget inv sink => delete (inv, sink) a
  | OpSkip _ _ _ _ _ => a
  end.

Definition log_of (ops : list op) : log := foldl (λ a o, log_step o a) ∅ ops.

Definition nul_byte : ascii := ascii_of_nat 0.

(** Inventory keys are Kubernetes names, so they hold no NUL; the clock is past
    the zero time and does not run backwards. [ok_until ops now] bounds the
    clock readings of [ops] by [now]. *)
Definition op_inv (o : op) : string :=
  match o with OpRecord inv _ _ _ | OpForget inv _ | OpSkip inv _ _ _ _ => inv end.

Definition op_time (o : op) : option Z :=
  match o with OpRecord _ _ _ now => Some now | OpForget _ _ => None | OpSkip _ _ _ _ now => Some now end.

Fixpoint ok_from (start : Z) (ops : list op) (now : Z) : bool :=
  match ops with
  | [] => bool_decide (start ≤ now)%Z
  | o :: ops =>
      negb (has_byte nul_byte (op_inv o)) &&
      match op_time o with
      | None => ok_from start ops now
      | Some t => bool_decide (start ≤ t)%Z && ok_from t ops now
      end
  end.

Definition ok_until (ops : list op) (now : Z) : bool := ok_from (zero_time + 1) ops now.

Lemma key_inj inv sink inv' sink' :
  has_byte nul_byte inv = false → has_byte nul_byte inv' = false →
  key inv sink = key inv' sink' → inv = inv' ∧ sink = sink'.
Proof.
  intros Hn Hn' Heq. unfold key in Heq.
  assert (∀ a b, has_byte nul_byte a = false → cut_byte nul_byte (a +:+ String nul_byte b) = Some (a, b)) as Hcut.
  { intros a b Ha. by apply cut_byte_Some. }
  pose proof (Hcut inv sink Hn) as Hc. change (ascii_of_nat 0) with nul_byte in Heq.
  rewrite Heq, Hcut in Hc by done. by simplify_eq.
Qed.

(** The tracker holds a suffix of the log: what it holds is the log's entry, and
    what it lacks is older than the time to live. *)
Record refines (now : Z) (t : tracker) (a : log) : Prop := {
  ref_dom : ∀ k s, t !! k = Some s → ∃ inv sink, has_byte nul_byte inv = false ∧ k = key inv sink;
  ref_sound : ∀ inv sink s, has_byte nul_byte inv = false → t !! key inv sink = Some s →
    a !! (inv, sink) = Some (state_inputs s, lastExport s) ∧ (zero_time < lastExport s)%Z;
  ref_complete : ∀ inv sink i tm, has_byte nul_byte inv = false → a !! (inv, sink) = Some (i, tm) →
    is_Some (t !! key inv sink) ∨ (coalesceStateTTL < now - tm)%Z;
}.

Lemma latestTime_max a b : latestTime a b = Z.max a b.
Proof. unfold latestTime, time_after. case_bool_decide; lia. Qed.

Lemma TTL_range : in_int64 coalesceStateTTL ∧ coalesceStateTTL ≠ max_int64.
Proof. split; [split; vm_compute; discriminate|vm_compute; discriminate]. Qed.

Lemma pruned_lookup now t k s :
  pruneStaleLocked now t !! k = Some s ↔
  t !! k = Some s ∧ (now - Z.max (lastExport s) (lastSkipped s) ≤ coalesceStateTTL)%Z.
Proof.
  destruct TTL_range as [Hr Hm]. unfold pruneStaleLocked. rewrite map_lookup_filter_Some. simpl.
  rewrite latestTime_max, (time_sub_gt _ _ _ Hr). split; intros [? ?]; (split; [done|]); lia.
Qed.

Lemma refines_later now now' t a : (now ≤ now')%Z → refines now t a → refines now' t a.
Proof.
  intros Hle [Hd Hs Hc]. split; [done|done|]. intros inv sink i tm Hn Ha.
  destruct (Hc inv sink i tm Hn Ha); [by left|right; lia].
Qed.

Lemma refines_prune now t a : refines now t a → refines now (pruneStaleLocked now t) a.
Proof.
  intros [Hd Hs Hc]. split.
  - intros k s [Hk _]%pruned_lookup. eauto.
  - intros inv sink s Hn [Hk _]%pruned_lookup. eauto.
  - intros inv sink i tm Hn Ha. destruct (Hc inv sink i tm Hn Ha) as [[s Hk]|?]; [|by right].
    destruct (Hs inv sink s Hn Hk) as [Ha' _]. rewrite Ha in Ha'. simplify_eq.
    destruct (decide (now - Z.max (lastExport s) (lastSkipped s) ≤ coalesceStateTTL)%Z) as [Hle|Hgt].
    + left. exists s. by apply pruned_lookup.
    + right. lia.
Qed.

Lemma refines_record inv sink i now t a :
  has_byte nul_byte inv = false → (zero_time < now)%Z →
  refines now t a → refines now (record inv sink i now t) (<[(inv, sink) := (i, now)]> a).
Proof.
  intros Hinv Hz [Hd Hs Hc]%refines_prune. unfold record. split.
  - intros k s [[<- _]|[_ Hk]]%lookup_insert_Some; eauto.
  - intros inv' sink' s Hn [[Hk <-]|[Hne Hk]]%lookup_insert_Some.
    + apply key_inj in Hk as [<- <-]; [|done..]. rewrite lookup_insert_eq. by destruct i.
    + rewrite lookup_insert_ne by (by intros [= -> ->]). eauto.
  - intros inv' sink' i' tm Hn [[[= <- <-] _]|[Hne Ha]]%lookup_insert_Some.
    + left. rewrite lookup_insert_eq. eauto.
    + destruct (Hc _ _ _ _ Hn Ha) as [?|?]; [left|by right].
      destruct (decide (key inv sink = key inv' sink')) as [<-|?].
      * rewrite lookup_insert_eq. eauto.
      * by rewrite lookup_insert_ne.
Qed.

Lemma refines_forget inv sink now t a :
  has_byte nul_byte inv = false → refines now t a → refines now (forget inv sink t) (delete (inv, sink) a).
Proof.
  intros Hinv [Hd Hs Hc]. unfold forget. split.
  - intros k s [_ Hk]%lookup_delete_Some. eauto.
  - intros inv' sink' s Hn [Hne Hk]%lookup_delete_Some.
    rewrite lookup_delete_ne by (by intros [= -> ->]). eauto.
  - intros inv' sink' i' tm Hn [Hne Ha]%lookup_delete_Some.
    destruct (Hc _ _ _ _ Hn Ha) as [?|?]; [left|by right].
    rewrite lookup_delete_ne; [done|]. intros [-> ->]%key_inj; done.
Qed.

(** A consultation changes no more than the time of the last skip. *)
Lemma shouldSkip_effect inv sink i interval now t :
  (shouldSkip inv sink i interval now t).2 = t ∨
  ∃ s s', t !! key inv sink = Some s ∧ state_inputs s' = state_inputs s ∧ lastExport s' = lastExport s ∧
    (shouldSkip inv sink i interval now t).2 = <[key inv sink := s']> t.
Proof.
  unfold shouldSkip. destruct (t !! key inv sink) as [s|]; [|by left].
  repeat case_decide; try (by left); try (by destruct (is_zero_time _); left).
  right. eexists s, (mkCoalesceState (identity s) (lastExport s) (lastChecksum s) (lastGeneration s)
    (lastRequestedAt s) now). split_and!; reflexivity.
Qed.

Lemma refines_skip inv sink i interval now t a :
  has_byte nul_byte inv = false → refines now t a → refines now (shouldSkip inv sink i interval now t).2 a.
Proof.
  intros Hinv [Hd Hs Hc].
  destruct (shouldSkip_effect inv sink i interval now t) as [->|(s & s' & Hk & Hi & He & ->)]; [by split|]. split.
  - intros k s0 [[<- _]|[_ ?]]%lookup_insert_Some; eauto.
  - intros inv' sink' s0 Hn [[Hkey <-]|[_ ?]]%lookup_insert_Some; [|by eauto].
    rewrite Hi, He. apply Hs; [done|]. by rewrite <- Hkey.
  - intros inv' sink' i' tm Hn Ha. destruct (Hc _ _ _ _ Hn Ha) as [?|?]; [left|by right].
    destruct (decide (key inv sink = key inv' sink')) as [<-|?].
    + rewrite lookup_insert_eq. eauto.
    + by rewrite lookup_insert_ne.
Qed.

Lemma run_refines_from start ops now t a :
  (zero_time < start)%Z → ok_from start ops now = true → refines start t a →
  refines now (foldl (λ t o, apply o t) t ops) (foldl (λ a o, log_step o a) a ops) ∧ (zero_time < now)%Z.
Proof.
  revert start t a. induction ops as [|o ops IH]; intros start t a Hz; simpl.
  { intros Hle%bool_decide_eq_true Hr. split; [by eapply refines_later|lia]. }
  intros [Hn%negb_true_iff Ho]%andb_prop Hr. destruct o as [inv sink i tm|inv sink|inv sink i interval tm]; simpl in *.
  - apply andb_prop in Ho as [Hle%bool_decide_eq_true Ho]. apply (IH tm); [lia|done|].
    apply refines_record; [done|lia|]. by eapply refines_later.
  - apply (IH start); [done|done|]. by apply refines_forget.
  - apply andb_prop in Ho as [Hle%bool_decide_eq_true Ho]. apply (IH tm); [lia|done|].
    apply refines_skip; [done|]. by eapply refines_later.
Qed.

Lemma refines_empty now : refines now ∅ ∅.
Proof. split; intros *; rewrite ?lookup_empty; done. Qed.

Lemma run_refines ops now :
  ok_until ops now = true → refines now (run ops) (log_of ops) ∧ (zero_time < now)%Z.
Proof. intros Hok. apply (run_refines_from (zero_time + 1)); [lia|done|apply refines_empty]. Qed.

(** A skip needs the same inputs as the baseline, and these are enough inside
    the interval. *)
Lemma shouldSkip_true inv sink i interval now t :
  in_int64 interval → (0 ≤ interval)%Z →
  (shouldSkip inv sink i interval now t).1 = true ↔
  ∃ s, t !! key inv sink = Some s ∧ state_inputs s = i ∧
    (interval = 0 ∨ lastExport s ≠ zero_time ∧ now - lastExport s < interval)%Z.
Proof.
  intros Hi Hpos. unfold shouldSkip. destruct (t !! key inv sink) as [s|]; [|simpl; split; [done|by intros (? & ? & _)]].
  assert (interval ≠ min_int64) as Hmin by (unfold min_int64; lia).
  unfold state_inputs.
  destruct i as [id gen ck rq]; cbn [in_identity in_generation in_checksum in_requestedAt].
  do 4 (case_decide; [split; [done|]; intros (s' & [= <-] & [= ? ? ? ?] & ?); by congruence|]).
  case_decide; simpl.
  - split; [|done]. intros _. exists s. split_and!; [done| |by left]. f_equal; congruence.
  - destruct (is_zero_time (lastExport s)) eqn:Hz; unfold is_zero_time in Hz; simpl.
    + apply bool_decide_eq_true in Hz. split; [done|]. intros (s' & [= <-] & _ & [?|[? _]]); done.
    + apply bool_decide_eq_false in Hz. rewrite bool_decide_eq_true, time_sub_lt by done. split.
      * intros [Hlt _]. exists s. split_and!; [done| |by right]. f_equal; congruence.
      * intros (s' & [= <-] & _ & [?|[_ ?]]); done.
Qed.

(** ** Properties *)

(** C5. The debounce is exact: after any sequence of recorded exports, forgotten
    baselines and earlier consultations, with a clock that does not run backwards,
    a sink with an admitted positive interval is skipped exactly when its last
    export that was not forgotten had the same inventory and sink objects,
    generation, payload digest and manual trigger, and is younger than the
    interval; pruning never shortens that. A sink with interval zero is skipped
    only for an identical export, and always for one younger than the time to
    live. *)
Theorem debounce_exact ops inv sink i interval now :
  ok_until ops now = true → has_byte nul_byte inv = false → (0 ≤ interval ≤ MaxExportInterval)%Z →
  let skip := (shouldSkip inv sink i interval now (run ops)).1 in
  (interval ≠ 0%Z → skip = true ↔ ∃ tm, log_of ops !! (inv, sink) = Some (i, tm) ∧ (now - tm < interval)%Z) ∧
  (interval = 0%Z →
   (skip = true → ∃ tm, log_of ops !! (inv, sink) = Some (i, tm)) ∧
   (∀ tm, log_of ops !! (inv, sink) = Some (i, tm) → (now - tm ≤ coalesceStateTTL)%Z → skip = true)).
Proof.
  intros [[_ Hs Hc] Hz]%run_refines Hn Hint. cbv zeta.
  assert (in_int64 interval) as Hi.
  { destruct Hint as [H1 H2]. split; [unfold min_int64; lia|]. etransitivity; [done|]. vm_compute. discriminate. }
  assert (MaxExportInterval ≤ coalesceStateTTL)%Z as Httl by (vm_compute; discriminate).
  pose proof (shouldSkip_true inv sink i interval now (run ops) Hi ltac:(lia)) as Hskip. split.
  - intros Hne. rewrite Hskip. split.
    + intros (s & Hk & <- & [?|[_ Hlt]]); [done|]. destruct (Hs _ _ _ Hn Hk) as [Ha _]. eauto.
    + intros (tm & Ha & Hlt). destruct (Hc _ _ _ _ Hn Ha) as [[s Hk]|?]; [|lia].
      destruct (Hs _ _ _ Hn Hk) as [Ha' Hzs]. rewrite Ha in Ha'. simplify_eq.
      exists s. split_and!; [done|done|right; lia].
  - intros ->. split.
    + intros (s & Hk & <- & _)%Hskip. destruct (Hs _ _ _ Hn Hk) as [Ha _]. eauto.
    + intros tm Ha Hle. apply Hskip. destruct (Hc _ _ _ _ Hn Ha) as [[s Hk]|?]; [|lia].
      destruct (Hs _ _ _ Hn Hk) as [Ha' _]. rewrite Ha in Ha'. simplify_eq.
      exists s. split_and!; [done|done|by left].
Qed.

Lemma debounce_exact_witness :
  let i := mkInputs (mkIdentity "inv-uid" "sink-uid" 1) 1 "digest" "" in
  let ops := [OpRecord "team/inv" "snapshot/git" i (100 * second)] in
  ∃ tm, log_of ops !! ("team/inv", "snapshot/git") = Some (i, tm) ∧ (110 * second - tm < 30 * second)%Z.
Proof.
  intros i ops.
  apply (debounce_exact ops "team/inv" "snapshot/git" i (30 * second) (110 * second));
    [vm_compute; reflexivity|reflexivity|split; vm_compute; discriminate|discriminate|vm_compute; reflexivity].
Defined.
End DebounceSpec.
