(* ===== verification/ExportPass.v ===== *)
(** One export pass of an inventory over its sink bindings:
    [exportToSinks] of [src/internal/controller/kollectinventory_controller.go]
    and [exportClusterToSinks] of [kollectclusterinventory_controller.go].

    The sinks are outside the model: what resolving a binding and writing a part
    return are oracles indexed by the position of the binding and of the part, so
    every result is possible at every call. The namespaced pass runs its exports
    in goroutines that write their result under a mutex; its model finishes the
    jobs in an arbitrary order. *)

From S2P Require Import Prelude GoStrings Values Store Api Filter Errors Json Envelope Partition Intervals Coalesce.
Import Tracker Outcome.

(** Go: internal/controller/inventory_sink_helpers.go:81-83 [sinkExportKey] *)
Definition sinkExportKey (binding : InventorySinkBinding) : string :=
  binding_Family binding +:+ "/" +:+ binding_Name binding.

(** Go: internal/controller/inventory_sink_helpers.go:47-55 [sinkBindingNamespace] *)
Definition sinkBindingNamespace (binding : InventorySinkBinding) (defaultNS : string) : string :=
  if decide (trim_space (ref_Namespace (binding_Ref binding)) ≠ "")
  then ref_Namespace (binding_Ref binding) else defaultNS.

(** Go: internal/controller/inventory_sink_helpers.go:136-141 [sinkExportMinInterval] *)
Definition sinkExportMinInterval (resolved : option ResolvedSink) : option Z :=
  match resolved with
  | Some r => default None (rs_ExportMinInterval r)
  | None => None
  end.

Section pass.
Context `{!SortFunc, !Sha256, !JsonDecode, !ConditionApi, !ApiErrors}.

(** What a pass reads: the inventory object, its rows, the clock readings and the
    answers of the API server and the sinks. [part_err] is the error value of a
    failed partition. *)
Record pass_env := mkPassEnv {
  pe_invKey : string;
  pe_invUID : string;
  pe_generation : Z;
  pe_requestedAt : string;
  pe_previous : list InventorySinkExportStatus;
  pe_items : list Item;
  pe_checksum : string;
  pe_now : Z;
  pe_defaultInterval : Z;
  pe_scopeFloor : Z;
  pe_ceiling : Z;
  pe_clock : nat → nat → Z;
  pe_resolve : nat → result err ResolvedSink;
  pe_write : nat → nat → result err (list string);
  pe_exportTime : nat → Z;
  pe_part_err : partition_error → err;
}.

(** [sinkJob]: a binding that is due, with the position of its oracles. *)
Record sinkJob := mkJob {
  job_index : nat;
  job_exportKey : string;
  job_identity : sinkExportIdentity;
  job_interval : Z;
  job_parts : nat;
  job_sinkChecksum : string;
}.

Variable env : pass_env.

Abbreviation pass_state := (perSinkExportOutcome * tracker)%type (only parsing).

(** The multipart ceiling of a binding: only snapshot sinks are split. *)
Definition binding_ceiling (binding : InventorySinkBinding) : Z :=
  if decide (binding_Family binding ≠ SinkFamilySnapshot) then 0%Z
  else ResolveBindingMaxExportBytes (ref_MaxExportBytes (binding_Ref binding)) (pe_ceiling env).

(** What a baseline is compared by in this pass. *)
Definition job_inputs (j : sinkJob) : inputs :=
  mkInputs (job_identity j) (pe_generation env) (job_sinkChecksum j) (pe_requestedAt env).

(** The loop body over the bindings up to the job: the binding fails, is
    debounced, or becomes a job. [namespace] is the status namespace the cluster
    pass sets. *)
Definition prepare_binding (n : nat) (binding : InventorySinkBinding) (namespace : option string)
    (ot : pass_state) : pass_state * option sinkJob :=
  let '(o, t) := ot in
  let exportKey := sinkExportKey binding in
  let o := set_exports (upsertSinkExportStatus exportKey) o in
  let o := set_exports (alter_status exportKey (carryOverSinkExport (pe_previous env) exportKey)) o in
  let o := match namespace with
           | Some ns => set_exports (alter_status exportKey (λ s, mkStatus (st_Name s) ns (st_LastExportTime s)
                          (st_LastChecksum s) (st_LastExportPaths s) (st_Conditions s))) o
           | None => o
           end in
  let fail e := failSinkExport (pe_invKey env) exportKey (pe_generation env) e (pe_exportTime env n) (o, t) in
  match pe_resolve env n with
  | Err e => (fail e, None)
  | Ok resolved =>
      let identity := newSinkExportIdentity (pe_invUID env) (Some resolved) in
      let interval := ResolveSinkExportInterval (binding_Ref binding) (sinkExportMinInterval (Some resolved))
                        (pe_defaultInterval env) (pe_scopeFloor env) in
      let meta := mkMetadata (pe_generation env) "" (pe_now env) 0 0 in
      match PartitionEnvelopes (pe_clock env n) (pe_items env) meta (binding_ceiling binding) with
      | Err e => (fail (default ErrTerminal (Terminal (Some (pe_part_err env e)))), None)
      | Ok parts =>
          let sinkChecksum := if decide (binding_Family binding = SinkFamilySnapshot)
                              then PartitionsChecksum parts else pe_checksum env in
          let j := mkJob n exportKey identity interval (length parts) sinkChecksum in
          let '(skip, t) := shouldSkip (pe_invKey env) exportKey (job_inputs j) interval (pe_now env) t in
          if skip
          then
            let o := mkOutcome (ExportedCount o) (S (DebouncedCount o)) (FailedCount o) (FailedSink o) (ExportErr o)
                       (SinkExports o) (RequeueAfter o) (failedSinks o) (exportErrs o) (trackerKey o) (exportedSinks o) in
            let o := set_exports (alter_status exportKey
                       (setSinkExportDebounced (pe_generation env) interval (pe_exportTime env n))) o in
            let due := nextDue (pe_invKey env) exportKey interval (pe_now env) t in
            ((set_requeue (mergeRequeueAfter (RequeueAfter o) due) o, t), None)
          else ((o, t), Some j)
      end
  end.

(** Writing the parts in order, stopping at the first failure. *)
Fixpoint write_parts (n i k : nat) : result err (list string) :=
  match k with
  | 0 => Ok []
  | S k =>
      written ← pe_write env n i;
      rest ← write_parts n (S i) k;
      Ok (written ++ rest)
  end.

(** The end of a job, under the mutex. *)
Definition finish_job (j : sinkJob) (ot : pass_state) : pass_state :=
  match write_parts (job_index j) 0 (job_parts j) with
  | Err e => failSinkExport (pe_invKey env) (job_exportKey j) (pe_generation env) e (pe_exportTime env (job_index j)) ot
  | Ok writtenPaths =>
      let '(o, t) := ot in
      let now := pe_exportTime env (job_index j) in
      let t := record (pe_invKey env) (job_exportKey j) (job_inputs j) (pe_now env) t in
      let o := markExported (pe_invKey env) (job_exportKey j) o in
      let o := set_exports (alter_status (job_exportKey j) (λ s,
                 setSinkExportSynced (pe_generation env) true reasonExported "export completed" now
                   (mkStatus (st_Name s) (st_Namespace s) (Some now) (job_sinkChecksum j)
                      (recordExportPaths writtenPaths (st_LastExportPaths s)) (st_Conditions s)))) o in
      let o := mkOutcome (S (ExportedCount o)) (DebouncedCount o) (FailedCount o) (FailedSink o) (ExportErr o)
                 (SinkExports o) (RequeueAfter o) (failedSinks o) (exportErrs o) (trackerKey o) (exportedSinks o) in
      (set_requeue (mergeRequeueAfter (RequeueAfter o) (RequeueAfterForZeroInterval (job_interval j))) o, t)
  end.

(** Go: internal/controller/kollectclusterinventory_controller.go:247-376 [exportClusterToSinks] *)
Definition exportClusterToSinks (bindings : list InventorySinkBinding) (sinkNS : string) (t : tracker) : pass_state :=
  foldl (λ ot nb,
    let '(ot, job) := prepare_binding nb.1 nb.2 (Some (sinkBindingNamespace nb.2 sinkNS)) ot in
    match job with None => ot | Some j => finish_job j ot end)
    (empty_outcome (pe_defaultInterval env), t) (imap pair bindings).

(** The first loop of [exportToSinks]: the state and the jobs. *)
Definition prepare_all (bindings : list InventorySinkBinding) (t : tracker) : pass_state * list sinkJob :=
  foldl (λ acc nb,
    let '(ot, job) := prepare_binding nb.1 nb.2 None acc.1 in
    (ot, acc.2 ++ match job with None => [] | Some j => [j] end))
    ((empty_outcome (pe_defaultInterval env), t), []) (imap pair bindings).

(** The pass, with the jobs finishing in the order [schedule] gives them.
    Go: internal/controller/kollectinventory_controller.go:283-462 [exportToSinks] *)
Definition exportToSinks (schedule : list sinkJob → list sinkJob) (bindings : list InventorySinkBinding)
    (t : tracker) : pass_state :=
  let '(ot, jobs) := prepare_all bindings t in
  foldl (λ ot j, finish_job j ot) ot (schedule jobs).
End pass.

(** * Lemmas *)

Lemma string_app_inj (a b c : string) : a +:+ b = a +:+ c → b = c.
Proof. induction a as [|x a IH]; simpl; [done|]. intros [= ?]. auto. Qed.

Lemma tracker_key_inj inv k k' : key inv k = key inv k' → k = k'.
Proof. unfold key. intros ?%string_app_inj. by simplify_eq. Qed.

Lemma prune_lookup_self now t k s :
  pruneStaleLocked now t !! k = Some s → t !! k = Some s.
Proof. unfold pruneStaleLocked. by intros [? _]%map_lookup_filter_Some. Qed.

Lemma prune_keeps_fresh now t k s :
  t !! k = Some s → lastExport s = now → pruneStaleLocked now t !! k = Some s.
Proof.
  intros Hk He. apply DebounceSpec.pruned_lookup. split; [done|]. rewrite He.
  assert (0 ≤ coalesceStateTTL)%Z by (vm_compute; discriminate). lia.
Qed.

Lemma record_lookup_self inv k i now t :
  ∃ s, record inv k i now t !! key inv k = Some s ∧ lastExport s = now ∧ state_inputs s = i.
Proof.
  unfold record. rewrite lookup_insert_eq. eexists. split; [done|]. split; [done|]. by destruct i.
Qed.

Lemma record_lookup_other inv k k' i now t s :
  k' ≠ k → record inv k i now t !! key inv k' = Some s → t !! key inv k' = Some s.
Proof.
  intros Hne. unfold record. rewrite lookup_insert_ne by (intros ?%tracker_key_inj; done).
  apply prune_lookup_self.
Qed.

Lemma record_keeps_fresh inv k k' i now t s :
  k' ≠ k → t !! key inv k' = Some s → lastExport s = now → record inv k i now t !! key inv k' = Some s.
Proof.
  intros Hne Hk He. unfold record. rewrite lookup_insert_ne by (intros ?%tracker_key_inj; done).
  by apply prune_keeps_fresh.
Qed.

Lemma forget_lookup_self inv k t : forget inv k t !! key inv k = None.
Proof. apply lookup_delete_eq. Qed.

Lemma forget_lookup_other inv k k' t : k' ≠ k → forget inv k t !! key inv k' = t !! key inv k'.
Proof. intros Hne. unfold forget. apply lookup_delete_ne. intros ?%tracker_key_inj. done. Qed.

Lemma skip_lookup_other inv k k' i interval now t :
  k' ≠ k → (shouldSkip inv k i interval now t).2 !! key inv k' = t !! key inv k'.
Proof.
  intros Hne. destruct (DebounceSpec.shouldSkip_effect inv k i interval now t) as [->|(s & s' & _ & _ & _ & ->)];
    [done|]. apply lookup_insert_ne. intros ?%tracker_key_inj. done.
Qed.

(** The record of the last successful export a status entry carries. *)
Definition export_record (s : InventorySinkExportStatus) : option Z * string * list string :=
  (st_LastExportTime s, st_LastChecksum s, st_LastExportPaths s).

Lemma find_status_name k l s : find_status k l = Some s → st_Name s = k.
Proof. induction l as [|s' l IH]; simpl; [done|]. case_decide; [by intros [= <-]|done]. Qed.

Lemma find_status_None k l : find_status k l = None ↔ k ∉ (st_Name <$> l).
Proof.
  induction l as [|s l IH]; simpl; [split; [intros _; apply not_elem_of_nil|done]|].
  rewrite elem_of_cons. case_decide as Hs; [subst; split; [done|intros Hn; exfalso; apply Hn; by left]|].
  rewrite IH. split; [intros Hn [->|?]; done|intros Hn ?; apply Hn; by right].
Qed.

Lemma find_status_app k l l' :
  find_status k (l ++ l') = match find_status k l with Some s => Some s | None => find_status k l' end.
Proof. induction l as [|s l IH]; simpl; [done|]. by case_decide. Qed.

Lemma find_status_alter k f l :
  (∀ s, st_Name (f s) = st_Name s) → find_status k (alter_status k f l) = f <$> find_status k l.
Proof.
  intros Hf. induction l as [|s l IH]; simpl; [done|]. case_decide as Hs; simpl.
  - by rewrite decide_True by (by rewrite Hf).
  - by rewrite decide_False.
Qed.

Lemma find_status_alter_ne k k' f l :
  (∀ s, st_Name (f s) = st_Name s) → k' ≠ k → find_status k' (alter_status k f l) = find_status k' l.
Proof.
  intros Hf Hne. induction l as [|s l IH]; simpl; [done|]. case_decide as Hs; simpl.
  - rewrite Hf, Hs. by rewrite !decide_False by done.
  - by case_decide.
Qed.

Lemma alter_status_names k f l :
  (∀ s, st_Name (f s) = st_Name s) → st_Name <$> alter_status k f l = st_Name <$> l.
Proof.
  intros Hf. induction l as [|s l IH]; simpl; [done|]. case_decide; csimpl; [by rewrite Hf|by rewrite IH].
Qed.

Section accounting.
Context `{!SortFunc, !Sha256, !JsonDecode, !ConditionApi, !ApiErrors}.
Variable env : pass_env.

(** The record of the last successful export the previous status holds. *)
Definition carried (k : string) : option Z * string * list string :=
  match find_status k (pe_previous env) with
  | Some s => export_record s
  | None => (None, "", [])
  end.

(** [E'] is [E] with a new entry for [k] that carries the previous record. *)
Record seeded (k : string) (E E' : list InventorySinkExportStatus) : Prop := {
  se_names : st_Name <$> E' = (st_Name <$> E) ++ [k];
  se_other : ∀ k', k' ≠ k → find_status k' E' = find_status k' E;
  se_self : ∃ s, find_status k E' = Some s ∧ export_record s = carried k;
}.

(** A write through the pointer that leaves the name and the record alone. *)
Definition keeps_record (f : InventorySinkExportStatus → InventorySinkExportStatus) : Prop :=
  ∀ s, st_Name (f s) = st_Name s ∧ export_record (f s) = export_record s.

Lemma seeded_alter k f E E' : keeps_record f → seeded k E E' → seeded k E (alter_status k f E').
Proof.
  intros Hf [Hn Ho (s & Hs & Hr)].
  assert (∀ s, st_Name (f s) = st_Name s) as Hname by (intros; apply Hf). split.
  - by rewrite alter_status_names.
  - intros k' Hne. rewrite find_status_alter_ne by done. by apply Ho.
  - exists (f s). rewrite find_status_alter, Hs by done. split; [done|]. by rewrite (proj2 (Hf s)).
Qed.

Lemma seeded_fresh k E :
  k ∉ (st_Name <$> E) →
  seeded k E (alter_status k (carryOverSinkExport (pe_previous env) k) (upsertSinkExportStatus k E)).
Proof.
  intros Hk. pose proof (proj2 (find_status_None k E) Hk) as Hf. unfold upsertSinkExportStatus. rewrite Hf.
  assert (∀ s, st_Name (carryOverSinkExport (pe_previous env) k s) = st_Name s) as Hname.
  { intros s. unfold carryOverSinkExport. by destruct (find_status k (pe_previous env)). }
  split.
  - rewrite alter_status_names by done. by rewrite fmap_app.
  - intros k' Hne. rewrite find_status_alter_ne, find_status_app by done. simpl.
    rewrite decide_False by done. by destruct (find_status k' E).
  - rewrite find_status_alter, find_status_app, Hf by done. simpl. rewrite decide_True by done. simpl.
    eexists. split; [done|]. unfold carryOverSinkExport, carried.
    by destruct (find_status k (pe_previous env)).
Qed.

Lemma setSinkExportSynced_keeps gen ok reason msg now : keeps_record (setSinkExportSynced gen ok reason msg now).
Proof. by intros s. Qed.

Lemma setSinkExportDebounced_keeps gen interval now : keeps_record (setSinkExportDebounced gen interval now).
Proof. by intros s. Qed.

(** The bindings seen so far are debounced, failed, exported or pending jobs,
    and the outcome, the statuses and the tracker say which. *)
Record pass_inv (done deb pend : list string) (o : perSinkExportOutcome) (t : tracker) : Prop := {
  pi_perm : deb ++ failedSinks o ++ exportedSinks o ++ pend ≡ₚ done;
  pi_debounced : DebouncedCount o = length deb;
  pi_failed : FailedCount o = length (failedSinks o);
  pi_exported : ExportedCount o = length (exportedSinks o);
  pi_err : ExportErr o = aggregateExportErrs (exportErrs o);
  pi_errs : length (exportErrs o) = length (failedSinks o);
  pi_text : FailedSink o = join "," (failedSinks o);
  pi_names : st_Name <$> SinkExports o = done;
  pi_forgotten : ∀ k, k ∈ failedSinks o → t !! key (pe_invKey env) k = None;
  pi_recorded : ∀ k, k ∈ exportedSinks o →
    ∃ s, t !! key (pe_invKey env) k = Some s ∧ lastExport s = pe_now env;
  pi_record : ∀ k, k ∈ done → k ∉ exportedSinks o →
    ∃ s, find_status k (SinkExports o) = Some s ∧ export_record s = carried k;
}.

Lemma pass_inv_empty t : pass_inv [] [] [] (empty_outcome (pe_defaultInterval env)) t.
Proof. split; try done; by intros k ?%elem_of_nil. Qed.

(** The statuses after a fresh binding was seeded keep the records. *)
Lemma seeded_record done k o E' :
  st_Name <$> SinkExports o = done → k ∉ done → seeded k (SinkExports o) E' →
  (∀ k', k' ∈ done → k' ∉ exportedSinks o →
    ∃ s, find_status k' (SinkExports o) = Some s ∧ export_record s = carried k') →
  ∀ k', k' ∈ done ++ [k] → k' ∉ exportedSinks o →
    ∃ s, find_status k' E' = Some s ∧ export_record s = carried k'.
Proof.
  intros Hn Hk [_ Ho Hself] Hrec k' [Hin| ->%list_elem_of_singleton]%elem_of_app Hne; [|done].
  rewrite Ho by (by intros ->). by apply Hrec.
Qed.

Lemma perm_snoc_middle {A} (k : A) a b c : a ++ (b ++ [k]) ++ c ≡ₚ (a ++ b ++ c) ++ [k].
Proof.
  rewrite <- !List.app_assoc. do 2 apply Permutation_app_head. apply Permutation_app_comm.
Qed.

Lemma failed_perm {A} (k : A) deb F E P done :
  deb ++ F ++ E ++ P ≡ₚ done → deb ++ (F ++ [k]) ++ E ++ P ≡ₚ done ++ [k].
Proof. intros <-. apply perm_snoc_middle. Qed.

Lemma inv_fail_fresh done deb pend o t k e now E' :
  pass_inv done deb pend o t → k ∉ done → seeded k (SinkExports o) E' →
  let ot' := failSinkExport (pe_invKey env) k (pe_generation env) e now (set_exports (λ _, E') o, t) in
  pass_inv (done ++ [k]) deb pend ot'.1 ot'.2.
Proof.
  intros Hi Hk Hse. cbv zeta. unfold failSinkExport. cbn [fst snd].
  set (f := setSinkExportSynced _ _ _ _ _).
  pose proof (seeded_alter k f _ _ (setSinkExportSynced_keeps _ _ _ _ _) Hse) as Hse'.
  destruct Hi as [Hp Hd Hf He Her Hel Ht Hn Hfo Hr Hrec].
  assert (k ∉ exportedSinks o) as Hke.
  { intros Hin. apply Hk. rewrite <- Hp. apply elem_of_app; right. apply elem_of_app; right. apply elem_of_app. by left. }
  split; cbn [failedSinks exportedSinks DebouncedCount FailedCount ExportedCount ExportErr exportErrs FailedSink
    SinkExports addSinkFailure set_exports]; try done.
  - by apply failed_perm.
  - rewrite List.length_app, Hf. simpl. lia.
  - rewrite !List.length_app, Hel. done.
  - rewrite (se_names _ _ _ Hse'). by rewrite Hn.
  - intros k' [Hin| ->%list_elem_of_singleton]%elem_of_app; [|apply forget_lookup_self].
    destruct (decide (k' = k)) as [->|Hne]; [apply forget_lookup_self|].
    rewrite forget_lookup_other by done. by apply Hfo.
  - intros k' Hin. destruct (Hr k' Hin) as (s & Hs & ?). exists s. split; [|done].
    rewrite forget_lookup_other; [done|]. by intros ->.
  - by apply (seeded_record done k o).
Qed.

Lemma inv_debounce_fresh done deb pend o t k i interval now E' due :
  pass_inv done deb pend o t → k ∉ done → seeded k (SinkExports o) E' →
  pass_inv (done ++ [k]) (deb ++ [k]) pend
    (set_requeue due (set_exports (λ _, E') (mkOutcome (ExportedCount o) (S (DebouncedCount o)) (FailedCount o)
      (FailedSink o) (ExportErr o) (SinkExports o) (RequeueAfter o) (failedSinks o) (exportErrs o)
      (trackerKey o) (exportedSinks o))))
    (shouldSkip (pe_invKey env) k i interval now t).2.
Proof.
  intros [Hp Hd Hf He Her Hel Ht Hn Hfo Hr Hrec] Hk Hse.
  assert (k ∉ exportedSinks o ∧ k ∉ failedSinks o) as [Hke Hkf].
  { split; intros Hin; apply Hk; rewrite <- Hp; apply elem_of_app; right; apply elem_of_app;
      [right; apply elem_of_app|]; by left. }
  split; cbn [failedSinks exportedSinks DebouncedCount FailedCount ExportedCount ExportErr exportErrs FailedSink
    SinkExports set_exports set_requeue]; try done.
  - rewrite <- Hp. apply (perm_snoc_middle k [] deb).
  - rewrite List.length_app, Hd. simpl. lia.
  - rewrite (se_names _ _ _ Hse). by rewrite Hn.
  - intros k' Hin. rewrite skip_lookup_other by (by intros ->). by apply Hfo.
  - intros k' Hin. rewrite skip_lookup_other by (by intros ->). by apply Hr.
  - by apply (seeded_record done k o).
Qed.

Lemma inv_pending_fresh done deb pend o t k E' :
  pass_inv done deb pend o t → k ∉ done → seeded k (SinkExports o) E' →
  pass_inv (done ++ [k]) deb (pend ++ [k]) (set_exports (λ _, E') o) t.
Proof.
  intros [Hp Hd Hf He Her Hel Ht Hn Hfo Hr Hrec] Hk Hse.
  split; cbn [failedSinks exportedSinks DebouncedCount FailedCount ExportedCount ExportErr exportErrs FailedSink
    SinkExports set_exports]; try done.
  - rewrite !List.app_assoc, <- Hp. rewrite <- !List.app_assoc. done.
  - rewrite (se_names _ _ _ Hse). by rewrite Hn.
  - by apply (seeded_record done k o).
Qed.

Lemma shouldSkip_false inv k i interval now t t' :
  shouldSkip inv k i interval now t = (false, t') → t' = t.
Proof.
  unfold shouldSkip. destruct (t !! key inv k) as [s|]; [|by intros [= <-]].
  destruct (is_zero_time (lastExport s)); repeat case_decide; intros; by simplify_eq.
Qed.

Lemma prepare_inv done deb pend n b ns o t :
  pass_inv done deb pend o t → sinkExportKey b ∉ done →
  let r := prepare_binding env n b ns (o, t) in
  ∃ deb', pass_inv (done ++ [sinkExportKey b]) deb'
    (pend ++ match r.2 with Some j => [job_exportKey j] | None => [] end) r.1.1 r.1.2.
Proof.
  intros Hi Hk. cbv zeta. unfold prepare_binding. set (k := sinkExportKey b) in *.
  pose proof (seeded_fresh k (SinkExports o)) as Hse. rewrite (pi_names _ _ _ _ _ Hi) in Hse. specialize (Hse Hk).
  set (E0 := alter_status k _ _) in Hse.
  set (o1 := match ns with Some _ => _ | None => _ end).
  assert (∃ E', o1 = set_exports (λ _, E') o ∧ seeded k (SinkExports o) E') as (E' & -> & Hse').
  { destruct ns as [ns|]; [|by exists E0]. eexists. split; [reflexivity|]. apply seeded_alter; [by intros s|exact Hse]. }
  clear E0 Hse. destruct (pe_resolve env n) as [resolved|e].
  2: { exists deb. cbn [snd]. rewrite List.app_nil_r. apply (inv_fail_fresh _ _ _ _ _ _ e); done. }
  destruct (PartitionEnvelopes _ _ _ _) as [parts|e].
  2: { exists deb. cbn [snd]. rewrite List.app_nil_r. apply inv_fail_fresh; done. }
  set (j := mkJob _ _ _ _ _ _).
  set (skip := shouldSkip _ _ _ _ _ t). destruct skip as [[] t'] eqn:Hskip; unfold skip in Hskip; cbn [fst snd].
  - exists (deb ++ [k]). rewrite List.app_nil_r.
    match type of Hskip with ?x = _ => assert (t' = x.2) as -> by (by rewrite Hskip) end.
    apply (inv_debounce_fresh _ _ _ o); [done..|]. apply seeded_alter; [apply setSinkExportDebounced_keeps|done].
  - exists deb. assert (t' = t) as ->; [|by apply inv_pending_fresh].
    by eapply shouldSkip_false.
Qed.

Lemma elem_of_pending done deb pend pend' k o t :
  pass_inv done deb pend o t → NoDup done → pend ≡ₚ k :: pend' →
  k ∈ done ∧ k ∉ failedSinks o ∧ k ∉ exportedSinks o.
Proof.
  intros Hi Hnd Hpe. pose proof (pi_perm _ _ _ _ _ Hi) as Hp. rewrite Hpe in Hp.
  split; [rewrite <- Hp; apply elem_of_app; right; apply elem_of_app; right; apply elem_of_app; right; by left|].
  rewrite <- Hp in Hnd. apply NoDup_app in Hnd as (_ & _ & [_ [Hf Hnd]]%NoDup_app).
  apply NoDup_app in Hnd as (_ & He & _). split.
  - intros Hin. apply (Hf k Hin). apply elem_of_app. right. by left.
  - intros Hin. apply (He k Hin). by left.
Qed.

Lemma finish_fail_inv done deb pend pend' k e now o t :
  pass_inv done deb pend o t → NoDup done → pend ≡ₚ k :: pend' →
  let ot' := failSinkExport (pe_invKey env) k (pe_generation env) e now (o, t) in
  pass_inv done deb pend' ot'.1 ot'.2.
Proof.
  intros Hi Hnd Hpe. destruct (elem_of_pending _ _ _ _ _ _ _ Hi Hnd Hpe) as (Hd0 & Hkf & Hke).
  destruct Hi as [Hp Hd Hf He Her Hel Ht Hn Hfo Hr Hrec].
  cbv zeta. unfold failSinkExport. cbn [fst snd]. set (f := setSinkExportSynced _ _ _ _ _).
  assert (keeps_record f) as Hkeep by apply setSinkExportSynced_keeps.
  assert (∀ s, st_Name (f s) = st_Name s) as Hname by (intros; apply Hkeep).
  split; cbn [failedSinks exportedSinks DebouncedCount FailedCount ExportedCount ExportErr exportErrs FailedSink
    SinkExports addSinkFailure set_exports]; try done.
  - rewrite <- Hp, Hpe, <- !List.app_assoc. do 2 apply Permutation_app_head. simpl.
    rewrite (Permutation_app_comm (exportedSinks o) (k :: pend')). simpl. apply perm_skip, Permutation_app_comm.
  - rewrite List.length_app, Hf. simpl. lia.
  - by rewrite !List.length_app, Hel.
  - by rewrite alter_status_names.
  - intros k' [Hin| ->%list_elem_of_singleton]%elem_of_app; [|apply forget_lookup_self].
    rewrite forget_lookup_other by (by intros ->). by apply Hfo.
  - intros k' Hin. rewrite forget_lookup_other by (by intros ->). by apply Hr.
  - intros k' Hin Hne. destruct (Hrec k' Hin Hne) as (s & Hs & Hsr).
    destruct (decide (k' = k)) as [->|Hk']; [|rewrite find_status_alter_ne by done; eauto].
    rewrite find_status_alter, Hs by done. exists (f s). split; [done|]. by rewrite (proj2 (Hkeep s)).
Qed.

Lemma finish_inv done deb pend pend' j o t :
  pass_inv done deb pend o t → NoDup done → pend ≡ₚ job_exportKey j :: pend' →
  let ot' := finish_job env j (o, t) in pass_inv done deb pend' ot'.1 ot'.2.
Proof.
  intros Hi Hnd Hpe. cbv zeta. unfold finish_job. destruct (write_parts _ _ _ _) as [paths|e];
    [|by eapply finish_fail_inv].
  set (k := job_exportKey j) in *. destruct (elem_of_pending _ _ _ _ _ _ _ Hi Hnd Hpe) as (Hd0 & Hkf & Hke).
  destruct Hi as [Hp Hd Hf He Her Hel Ht Hn Hfo Hr Hrec]. cbn [fst snd].
  set (f := λ s, setSinkExportSynced _ _ _ _ _ _).
  assert (∀ s, st_Name (f s) = st_Name s) as Hname by done.
  split; cbn [failedSinks exportedSinks DebouncedCount FailedCount ExportedCount ExportErr exportErrs FailedSink
    SinkExports markExported set_exports set_requeue]; try done.
  - rewrite <- Hp, Hpe, <- !List.app_assoc. do 3 apply Permutation_app_head. done.
  - rewrite List.length_app, He. simpl. lia.
  - by rewrite alter_status_names.
  - intros k' Hin. destruct (record _ _ _ _ _ !! _) as [s|] eqn:Hs; [|done].
    apply record_lookup_other in Hs; [|by intros ->]. by rewrite Hfo in Hs.
  - intros k' [Hin| ->%list_elem_of_singleton]%elem_of_app.
    + destruct (Hr k' Hin) as (s & Hs & Hls). exists s. split; [|done].
      apply record_keeps_fresh; [by intros ->|done|done].
    + destruct (record_lookup_self (pe_invKey env) k (job_inputs env j) (pe_now env) t) as (s & ? & ? & _). eauto.
  - intros k' Hin Hne. assert (k' ≠ k ∧ k' ∉ exportedSinks o) as [Hk' Hne'].
    { split; [intros ->|]; [apply Hne, elem_of_app; right; by left|]. intros ?. apply Hne, elem_of_app. by left. }
    destruct (Hrec k' Hin Hne') as (s & Hs & Hsr). rewrite find_status_alter_ne by done. eauto.
Qed.

(** What a pass reports, against the bound sinks: every sink is debounced, failed
    or exported; the counters and the aggregated error agree with that; an
    exported sink has a baseline of this pass, a failed one has none, and the
    status of a sink that was not exported still shows its last successful
    export. *)
Definition pass_report (ks : list string) (ot : perSinkExportOutcome * tracker) : Prop :=
  let '(o, t) := ot in
  ∃ debounced,
    debounced ++ failedSinks o ++ exportedSinks o ≡ₚ ks ∧
    (DebouncedCount o, FailedCount o, ExportedCount o) =
      (length debounced, length (failedSinks o), length (exportedSinks o)) ∧
    (ExportErr o = None ↔ failedSinks o = []) ∧
    st_Name <$> SinkExports o = ks ∧
    (∀ k, k ∈ failedSinks o → t !! key (pe_invKey env) k = None) ∧
    (∀ k, k ∈ exportedSinks o → ∃ s, t !! key (pe_invKey env) k = Some s ∧ lastExport s = pe_now env) ∧
    (∀ k, k ∈ debounced ++ failedSinks o →
      ∃ s, find_status k (SinkExports o) = Some s ∧ export_record s = carried k).

Lemma aggregate_None errs : aggregateExportErrs errs = None ↔ errs = [].
Proof. destruct errs as [|e [|e' errs]]; simpl; [by split..|]. case_match; by split. Qed.

Lemma pass_inv_report done deb o t : NoDup done → pass_inv done deb [] o t → pass_report done (o, t).
Proof.
  intros Hnd [Hp Hd Hf He Her Hel Ht Hn Hfo Hr Hrec]. exists deb. rewrite List.app_nil_r in Hp.
  split_and!; [done|by rewrite Hd, Hf, He| |done|done|done|].
  - rewrite Her, aggregate_None. rewrite <- !length_zero_iff_nil, Hel. done.
  - intros k Hin. apply Hrec.
    + rewrite <- Hp, List.app_assoc. apply elem_of_app. by left.
    + rewrite <- Hp, List.app_assoc in Hnd. apply NoDup_app in Hnd as (_ & Hn' & _). by apply Hn'.
Qed.

Lemma cons_middle {A} (x : A) (a b : list A) : a ++ x :: b = a ++ [x] ++ b.
Proof. done. Qed.

Lemma prepare_all_inv (l : list (nat * InventorySinkBinding)) done deb jobs o t :
  pass_inv done deb (job_exportKey <$> jobs) o t → NoDup (done ++ (sinkExportKey ∘ snd <$> l)) →
  let r := foldl (λ acc nb, let '(ot, job) := prepare_binding env nb.1 nb.2 None acc.1 in
    (ot, acc.2 ++ match job with None => [] | Some j => [j] end)) ((o, t), jobs) l in
  ∃ deb', pass_inv (done ++ (sinkExportKey ∘ snd <$> l)) deb' (job_exportKey <$> r.2) r.1.1 r.1.2.
Proof.
  revert done deb jobs o t. induction l as [|[n b] l IH]; intros done deb jobs o t Hi Hnd; cbn [foldl].
  { exists deb. simpl. by rewrite List.app_nil_r. }
  cbn [fst snd]. rewrite fmap_cons in *. change ((sinkExportKey ∘ snd) (n, b)) with (sinkExportKey b) in *.
  assert (sinkExportKey b ∉ done) as Hb.
  { intros Hin. apply NoDup_app in Hnd as (_ & Hn & _). apply (Hn _ Hin). by left. }
  destruct (prepare_inv _ _ _ n b None o t Hi Hb) as [deb1 Hi1].
  destruct (prepare_binding env n b None (o, t)) as [[o1 t1] job]. cbn [fst snd] in Hi1.
  rewrite (cons_middle (sinkExportKey b)), List.app_assoc in Hnd |- *.
  apply (IH _ deb1 _ o1 t1); [|done]. rewrite fmap_app. destruct job; exact Hi1.
Qed.

Lemma finish_all_inv done deb jobs o t :
  NoDup done → pass_inv done deb (job_exportKey <$> jobs) o t →
  let r := foldl (λ ot j, finish_job env j ot) (o, t) jobs in pass_inv done deb [] r.1 r.2.
Proof.
  intros Hnd. revert o t. induction jobs as [|j jobs IH]; intros o t Hi; cbn [foldl]; [done|].
  pose proof (finish_inv _ _ _ _ j o t Hi Hnd (reflexivity _)) as Hj.
  destruct (finish_job env j (o, t)) as [o1 t1]. by apply IH.
Qed.

Lemma pass_inv_perm done deb pend pend' o t :
  pend ≡ₚ pend' → pass_inv done deb pend o t → pass_inv done deb pend' o t.
Proof. intros Hpe [Hp Hd Hf He Her Hel Ht Hn Hfo Hr Hrec]. split; try done. by rewrite <- Hpe. Qed.

Lemma cluster_inv (l : list (nat * InventorySinkBinding)) sinkNS done deb o t :
  pass_inv done deb [] o t → NoDup (done ++ (sinkExportKey ∘ snd <$> l)) →
  let r := foldl (λ ot nb,
    let '(ot, job) := prepare_binding env nb.1 nb.2 (Some (sinkBindingNamespace nb.2 sinkNS)) ot in
    match job with None => ot | Some j => finish_job env j ot end) (o, t) l in
  ∃ deb', pass_inv (done ++ (sinkExportKey ∘ snd <$> l)) deb' [] r.1 r.2.
Proof.
  revert done deb o t. induction l as [|[n b] l IH]; intros done deb o t Hi Hnd; cbn [foldl].
  { exists deb. simpl. by rewrite List.app_nil_r. }
  cbn [fst snd]. rewrite fmap_cons in *. change ((sinkExportKey ∘ snd) (n, b)) with (sinkExportKey b) in *.
  assert (sinkExportKey b ∉ done) as Hb.
  { intros Hin. apply NoDup_app in Hnd as (_ & Hn & _). apply (Hn _ Hin). by left. }
  destruct (prepare_inv _ _ _ n b (Some (sinkBindingNamespace b sinkNS)) o t Hi Hb) as [deb1 Hi1].
  destruct (prepare_binding env n b _ (o, t)) as [[o1 t1] job]. cbn [fst snd] in Hi1.
  rewrite (cons_middle (sinkExportKey b)), List.app_assoc in Hnd |- *.
  destruct job as [j|]; [|by apply (IH _ deb1 o1 t1)].
  assert (NoDup (done ++ [sinkExportKey b])) as Hnd1 by (by apply NoDup_app in Hnd as [? _]).
  pose proof (finish_inv _ _ _ [] j o1 t1 Hi1 Hnd1 (reflexivity _)) as Hj.
  destruct (finish_job env j (o1, t1)) as [o2 t2]. by apply (IH _ deb1 o2 t2).
Qed.

Lemma imap_pair_keys (bindings : list InventorySinkBinding) :
  sinkExportKey ∘ snd <$> imap pair bindings = sinkExportKey <$> bindings.
Proof. rewrite list_fmap_compose, fmap_imap. f_equal. rewrite <- (list_fmap_id bindings) at 2. apply imap_const. Qed.

(** ** Properties *)

(** C6. An export pass accounts for every sink: whatever the sinks answer and in
    whatever order the export goroutines finish, each bound sink is exactly one of
    debounced, failed or exported; the counters, the status entries and the
    aggregated error agree; an exported sink leaves a baseline of this pass, a
    failed sink leaves none (so it cannot be debounced next time), and a sink that
    was not exported keeps the record of its last successful export. The cluster
    pass gives the same account. *)
Theorem pass_accounts_for_every_sink schedule bindings sinkNS t :
  NoDup (sinkExportKey <$> bindings) → (∀ jobs, schedule jobs ≡ₚ jobs) →
  pass_report (sinkExportKey <$> bindings) (exportToSinks env schedule bindings t) ∧
  pass_report (sinkExportKey <$> bindings) (exportClusterToSinks env bindings sinkNS t).
Proof.
  intros Hnd Hsched. split.
  - unfold exportToSinks, prepare_all.
    destruct (prepare_all_inv (imap pair bindings) [] [] [] _ t (pass_inv_empty t)) as [deb Hi];
      rewrite imap_pair_keys in *; [done|].
    destruct (foldl _ _ (imap pair bindings)) as [[o1 t1] jobs]. cbn [fst snd app] in Hi.
    apply (pass_inv_perm _ _ _ (job_exportKey <$> schedule jobs)) in Hi; [|by rewrite Hsched].
    apply finish_all_inv in Hi; [|done]. destruct (foldl _ _ (schedule jobs)) as [o2 t2].
    by eapply pass_inv_report.
  - unfold exportClusterToSinks.
    destruct (cluster_inv (imap pair bindings) sinkNS [] [] _ t (pass_inv_empty t)) as [deb Hi];
      rewrite imap_pair_keys in *; [done|].
    destruct (foldl _ _ (imap pair bindings)) as [o1 t1]. by eapply pass_inv_report.
Qed.
End accounting.

(** * A concrete pass *)

Definition demo_conditions : ConditionApi :=
  {| SetStatusCondition l c := c :: filter (λ c', cond_Type c' ≠ cond_Type c) l;
     redact_Text s := s;
     ErrSpillRequired := 7 |}.

(** Two snapshot sinks, the second of which refuses the write. *)
Definition demo_env : pass_env :=
  mkPassEnv "team/inv" "uid" 1 "" [] [demo_item "t" "u1"] "digest" (100 * second) (30 * second) 0 0
    (λ _ _, 0%Z) (λ n, Ok (mkResolvedSink "sink" 1 None))
    (λ n i, if decide (n = 1) then Err (Leaf 9 "refused") else Ok ["inventory/team/inv.json"])
    (λ _, (101 * second)%Z) (λ _, Leaf 10 "partition").

Definition demo_bindings : list InventorySinkBinding :=
  [mkInventorySinkBinding "git" SinkFamilySnapshot (mkInventorySinkRef "git" "" None None);
   mkInventorySinkBinding "s3" SinkFamilySnapshot (mkInventorySinkRef "s3" "" None None)].

Lemma pass_accounts_for_every_sink_witness :
  let _ := demo_sha256 in let _ := demo_decode in let _ := sort_by_merge_sort in
  let _ := demo_conditions in let _ := no_api_errors in
  let r := exportToSinks demo_env (λ jobs, reverse jobs) demo_bindings ∅ in
  failedSinks r.1 = ["snapshot/s3"] ∧ exportedSinks r.1 = ["snapshot/git"] ∧
  pass_report demo_env ["snapshot/git"; "snapshot/s3"] r.
Proof.
  intros D J S C A r. split; [vm_compute; reflexivity|]. split; [vm_compute; reflexivity|].
  refine (proj1 (pass_accounts_for_every_sink demo_env (λ jobs, reverse jobs) demo_bindings "" ∅ _ _)).
  - apply (bool_decide_unpack _). vm_compute. exact I.
  - intros jobs. apply reverse_Permutation.
Defined.
