(* ===== verification/BackendPool.v ===== *)
(** The pool of sink backends, [src/internal/sink/backend_pool.go].

    [Module Pool] translates the operations that run under the pool's mutex. An
    entry is a heap cell, so that the pool and the releases handed to callers
    share it; the heap keeps the entries that are pooled or held. An operation
    returns the backends its caller closes after unlocking.

    [Module PoolSystem] interleaves acquires, releases, evictions and the closes
    that follow them. Secrets, builds and the sinks themselves are outside: a read
    or a build may succeed or fail at every step. The fields of an entry that only
    feed log lines are left out. *)

From S2P Require Import Prelude GoStrings Intervals.

Module Pool.

(** Go: internal/sink/backend_pool.go:27-42 [pooledEntry] *)
Record pooledEntry := mkEntry {
  backend : nat;
  specHash : string;
  ekey : string;
  lastUsed : Z;
  holders : Z;
  retired : bool;
}.

(** Go: internal/sink/backend_pool.go:44-52 [poolGeneration] *)
Record poolGeneration := mkGeneration {
  gen_value : Z;
  gen_changed : Z;
}.

Definition backendPoolTTL : Z := 2 * MaxExportInterval.

(** The pool, with the heap its entries live in.
    Go: internal/sink/backend_pool.go:74-84 [globalBackendPool] *)
Record pool := mkPool {
  entries : gmap string nat;
  heap : gmap nat pooledEntry;
  tombstones : gmap string Z;
  generations : gmap string poolGeneration;
  counter : Z;
  next_ptr : nat;
}.

Definition empty_pool : pool := mkPool ∅ ∅ ∅ ∅ 0 0.

(** Go: internal/sink/backend_pool.go:117-123 [poolKeyForSink] *)
Definition poolKeyForSink (sinkUID sinkNamespace sinkName : string) : string :=
  if decide (sinkUID ≠ "") then "uid:" +:+ sinkUID
  else "ns:" +:+ sinkNamespace +:+ "/" +:+ sinkName.

(** Go: internal/sink/backend_pool.go:439-443 [bumpGenerationLocked] *)
Definition bumpGenerationLocked (key : string) (now : Z) (p : pool) : pool :=
  let c := wrapu64 (counter p + 1) in
  mkPool (entries p) (heap p) (tombstones p) (<[key := mkGeneration c now]> (generations p)) c (next_ptr p).

(** The value the map reads as, 0 for a missing key. *)
Definition generation_value (key : string) (p : pool) : Z :=
  match generations p !! key with Some g => gen_value g | None => 0%Z end.

(** Go: internal/sink/backend_pool.go:355-363 [generationLocked] *)
Definition generationLocked (key : string) (now : Z) (p : pool) : Z * pool :=
  let p := match generations p !! key with
           | Some _ => p
           | None => bumpGenerationLocked key now p
           end in
  (generation_value key p, p).

(** Go: internal/sink/backend_pool.go:347-353 [poolGenerationOf] *)
Definition poolGenerationOf (key : string) (now : Z) (p : pool) : Z * pool := generationLocked key now p.

(** Go: internal/sink/backend_pool.go:445-463 [retireLocked] *)
Definition retireLocked (key : string) (now : Z) (p : pool) : option nat * pool :=
  let p := bumpGenerationLocked key now p in
  match entries p !! key with
  | None => (None, p)
  | Some ptr =>
      let del es hp := mkPool es hp (tombstones p) (generations p) (counter p) (next_ptr p) in
      match heap p !! ptr with
      | None => (None, del (delete key (entries p)) (heap p))
      | Some e =>
          let e' := mkEntry (backend e) (specHash e) (ekey e) (lastUsed e) (holders e) true in
          if decide (0 < holders e)%Z
          then (None, del (delete key (entries p)) (<[ptr := e']> (heap p)))
          else (Some (backend e), del (delete key (entries p)) (delete ptr (heap p)))
      end
  end.

Definition set_heap f (p : pool) : pool :=
  mkPool (entries p) (f (heap p)) (tombstones p) (generations p) (counter p) (next_ptr p).

(** Go: internal/sink/backend_pool.go:465-483 [holdLocked] *)
Definition holdLocked (ptr : nat) (p : pool) : pool :=
  set_heap (alter (λ e, mkEntry (backend e) (specHash e) (ekey e) (lastUsed e) (holders e + 1) (retired e)) ptr) p.

(** The release [holdLocked] returns: the backend to close, if this was the last
    hold on a retired entry. *)
Definition release (ptr : nat) (p : pool) : option nat * pool :=
  match heap p !! ptr with
  | None => (None, p)
  | Some e =>
      let h := (holders e - 1)%Z in
      if retired e && bool_decide (h = 0)%Z
      then (Some (backend e), set_heap (delete ptr) p)
      else (None, set_heap <[ptr := mkEntry (backend e) (specHash e) (ekey e) (lastUsed e) h (retired e)]> p)
  end.

Definition touch (ptr : nat) (now : Z) (p : pool) : pool :=
  set_heap (alter (λ e, mkEntry (backend e) (specHash e) (ekey e) now (holders e) (retired e)) ptr) p.

(** Go: internal/sink/backend_pool.go:560-581 [pruneExpiredTombstonesLocked] *)
Definition pruneExpiredTombstonesLocked (now : Z) (p : pool) : pool :=
  mkPool (entries p) (heap p)
    (filter (λ kt, ¬ (backendPoolTTL < time_sub now kt.2)%Z) (tombstones p))
    (filter (λ kg, ¬ (entries p !! kg.1 = None ∧ (backendPoolTTL < time_sub now (gen_changed kg.2))%Z)) (generations p))
    (counter p) (next_ptr p).

Section range.
Context `{!MapRange}.

(** One round of the sweep: the entry is read when its key is reached. *)
Definition prune_entry (now : Z) (acc : list nat * pool) (k : string) : list nat * pool :=
  let '(stale, p) := acc in
  match entries p !! k with
  | None => (stale, p)
  | Some ptr =>
      match heap p !! ptr with
      | None => (stale, mkPool (delete k (entries p)) (heap p) (tombstones p) (generations p) (counter p) (next_ptr p))
      | Some e =>
          if decide (holders e = 0 ∧ backendPoolTTL < time_sub now (lastUsed e))%Z
          then let '(b, p) := retireLocked k now p in (stale ++ option_list b, p)
          else (stale, p)
      end
  end.

(** Go: internal/sink/backend_pool.go:534-558 [pruneStaleEntriesLocked] *)
Definition pruneStaleEntriesLocked (now : Z) (p : pool) : list nat * pool :=
  let '(stale, p) := foldl (prune_entry now) ([], p) (map_range (entries p)).*1 in
  (stale, pruneExpiredTombstonesLocked now p).

(** Go: internal/sink/backend_pool.go:286-297 [poolLookup] *)
Inductive poolLookup :=
  | LookupHit (b : nat) (ptr : nat)
  | LookupReread (staleKey : string)
  | LookupMiss (generation : Z).

(** The result and the backends to close.
    Go: internal/sink/backend_pool.go:365-403 [lookupOrRetire] *)
Definition lookupOrRetire (key entryKey : string) (readGeneration : Z) (force : bool) (now : Z) (p : pool) :
    poolLookup * list nat * pool :=
  let '(stale, p) := pruneStaleEntriesLocked now p in
  match entries p !! key ≫= λ ptr, pair ptr <$> heap p !! ptr with
  | None => let '(g, p) := generationLocked key now p in (LookupMiss g, stale, p)
  | Some (ptr, entry) =>
      if decide (ekey entry = entryKey)
      then let '(_, p) := generationLocked key now (holdLocked ptr (touch ptr now p)) in
           (LookupHit (backend entry) ptr, stale, p)
      else
        let '(g, p1) := generationLocked key now p in
        if negb force && bool_decide (g ≠ readGeneration)
        then (LookupReread (ekey entry), stale, p1)
        else
          let '(closeNow, p) := retireLocked key now (if force then p else p1) in
          let '(g, p) := generationLocked key now p in
          (LookupMiss g, stale ++ option_list closeNow, p)
  end.

End range.

(** [inl] is retired with the backends to close, [inr] the key of the kept entry.
    Go: internal/sink/backend_pool.go:405-424 [retirePoolEntry] *)
Definition retirePoolEntry (key : string) (readGeneration : Z) (force : bool) (now : Z) (p : pool) :
    (list nat + string) * pool :=
  let retire p := let '(b, p) := retireLocked key now p in (inl (option_list b), p) in
  match entries p !! key ≫= (heap p !!.) with
  | Some entry =>
      if force then retire p
      else
        let '(g, p) := generationLocked key now p in
        if decide (g ≠ readGeneration) then (inr (ekey entry), p) else retire p
  | None => retire p
  end.

(** Go: internal/sink/backend_pool.go:426-437 [retireEntryWithKey] *)
Definition retireEntryWithKey (key entryKey : string) (now : Z) (p : pool) : list nat * pool :=
  match entries p !! key ≫= (heap p !!.) with
  | Some entry =>
      if decide (ekey entry = entryKey)
      then let '(b, p) := retireLocked key now p in (option_list b, p)
      else ([], p)
  | None => ([], p)
  end.

(** What [storePooledBackend] hands the caller: a hold on an entry, or the
    backend itself. *)
Inductive handle := Held (ptr b : nat) | Owned (b : nat).

(** The handle and the surplus build to close.
    Go: internal/sink/backend_pool.go:492-526 [storePooledBackend] *)
Definition storePooledBackend (key : string) (generation : Z) (next : pooledEntry) (p : pool) :
    handle * option nat * pool :=
  match tombstones p !! key with
  | Some _ => (Owned (backend next), None, p)
  | None =>
      match entries p !! key with
      | Some ptr =>
          match heap p !! ptr with
          | Some old =>
              if decide (ekey old = ekey next)
              then (Held ptr (backend old), Some (backend next), holdLocked ptr (touch ptr (lastUsed next) p))
              else (Owned (backend next), None, p)
          | None => (Owned (backend next), None, p)
          end
      | None =>
          if decide (generation_value key p = generation)
          then
            let ptr := next_ptr p in
            let p := mkPool (<[key := ptr]> (entries p)) (<[ptr := next]> (heap p)) (tombstones p) (generations p)
                       (counter p) (S ptr) in
            (Held ptr (backend next), None, holdLocked ptr (bumpGenerationLocked key (lastUsed next) p))
          else (Owned (backend next), None, p)
      end
  end.

(** Go: internal/sink/backend_pool.go:630-649 [evictPoolKeyForDelete] *)
Definition evictPoolKeyForDelete (key : string) (now : Z) (p : pool) : list nat * pool :=
  let '(b, p) := retireLocked key now p in
  (option_list b,
   pruneExpiredTombstonesLocked now
     (mkPool (entries p) (heap p) (<[key := now]> (tombstones p)) (generations p) (counter p) (next_ptr p))).

(** Go: internal/sink/backend_pool.go:651-658 [evictPoolKey] *)
Definition evictPoolKey (key : string) (now : Z) (p : pool) : list nat * pool :=
  let '(b, p) := retireLocked key now p in (option_list b, p).
End Pool.

(** * Acquires, releases, evictions and closes, interleaved *)
Module PoolSystem.
Import Pool.
Section system.
Context `{!MapRange}.

Definition poolReadAttempts : nat := 2.

(** Where an acquire is: about to read the Secrets' metadata for the given
    attempt, reading it with the generation it noted, building after a miss, or
    about to store what it built. *)
Inductive acquire_pc :=
  | AcqLoop (attempt : nat) (staleKey : string)
  | AcqRead (attempt : nat) (staleKey : string) (readGeneration : Z)
  | AcqBuild (generation now : Z)
  | AcqStore (generation : Z) (next : pooledEntry).

(** An acquire in flight: its pool key, the hash of its spec and where it is. *)
Record acquire := mkAcquire {
  acq_key : string;
  acq_specHash : string;
  acq_pc : acquire_pc;
}.

(** The pool, the acquires in flight, the unreleased handles, the backends that
    are due to be closed and those that were, and the next backend to be built. *)
Record psystem := mkPSystem {
  ps_pool : pool;
  ps_acquires : list acquire;
  ps_handles : list handle;
  ps_closing : list nat;
  ps_closed : list nat;
  ps_next : nat;
}.

Definition pinitial : psystem := mkPSystem empty_pool [] [] [] [] 0.

(** One step of an acquire's lookup with the pool [p]: the rest of the acquire,
    the handle it returns, the backends it closes and the pool. A metadata read
    gives an entry key, a missing Secret or another failure.
Go: internal/sink/backend_pool.go:299-345 [observeAndLookup] *)
Inductive observe_step : acquire → pool → option acquire → option handle → list nat → pool → Prop :=
  | observe_loop key h attempt stale now p g p' :
      poolGenerationOf key now p = (g, p') →
      observe_step (mkAcquire key h (AcqLoop attempt stale)) p (Some (mkAcquire key h (AcqRead attempt stale g))) None [] p'
  | observe_gone_retired key h attempt stale g now p bs p' :
      retirePoolEntry key g (bool_decide (poolReadAttempts ≤ attempt)) now p = (inl bs, p') →
      observe_step (mkAcquire key h (AcqRead attempt stale g)) p None None bs p'
  | observe_gone_kept key h attempt stale g now p entryKey p' :
      retirePoolEntry key g (bool_decide (poolReadAttempts ≤ attempt)) now p = (inr entryKey, p') →
      observe_step (mkAcquire key h (AcqRead attempt stale g)) p (Some (mkAcquire key h (AcqLoop (S attempt) entryKey))) None [] p'
  | observe_failed_stale key h attempt stale g now p bs p' :
      stale ≠ "" → retireEntryWithKey key stale now p = (bs, p') →
      observe_step (mkAcquire key h (AcqRead attempt stale g)) p None None bs p'
  | observe_failed key h attempt g p :
      observe_step (mkAcquire key h (AcqRead attempt "" g)) p None None [] p
  | observe_hit key h attempt stale g entryKey now p b ptr bs p' :
      lookupOrRetire key entryKey g (bool_decide (poolReadAttempts ≤ attempt)) now p = (LookupHit b ptr, bs, p') →
      observe_step (mkAcquire key h (AcqRead attempt stale g)) p None (Some (Held ptr b)) bs p'
  | observe_reread key h attempt stale g entryKey now p stale' bs p' :
      lookupOrRetire key entryKey g (bool_decide (poolReadAttempts ≤ attempt)) now p = (LookupReread stale', bs, p') →
      observe_step (mkAcquire key h (AcqRead attempt stale g)) p (Some (mkAcquire key h (AcqLoop (S attempt) stale'))) None bs p'
  | observe_miss key h attempt stale g entryKey now p g' bs p' :
      lookupOrRetire key entryKey g (bool_decide (poolReadAttempts ≤ attempt)) now p = (LookupMiss g', bs, p') →
      observe_step (mkAcquire key h (AcqRead attempt stale g)) p (Some (mkAcquire key h (AcqBuild g' now))) None bs p'.

(** Go: internal/sink/backend_pool.go:136-244 [acquireBackendWithReader] *)
Inductive pstep : psystem → psystem → Prop :=
  | pstep_acquire p acqs hs cl cd nb key h :
      pstep (mkPSystem p acqs hs cl cd nb) (mkPSystem p (mkAcquire key h (AcqLoop 1 "") :: acqs) hs cl cd nb)
  | pstep_observe p acqs1 acqs2 hs cl cd nb a a' r bs p' :
      observe_step a p a' r bs p' →
      pstep (mkPSystem p (acqs1 ++ a :: acqs2) hs cl cd nb)
        (mkPSystem p' (acqs1 ++ option_list a' ++ acqs2) (option_list r ++ hs) (bs ++ cl) cd nb)
  | pstep_build_gone p acqs1 acqs2 hs cl cd nb key h g now now' bs p' :
      retirePoolEntry key 0 true now' p = (inl bs, p') →
      pstep (mkPSystem p (acqs1 ++ mkAcquire key h (AcqBuild g now) :: acqs2) hs cl cd nb)
        (mkPSystem p' (acqs1 ++ acqs2) hs (bs ++ cl) cd nb)
  | pstep_build_failed p acqs1 acqs2 hs cl cd nb key h g now :
      pstep (mkPSystem p (acqs1 ++ mkAcquire key h (AcqBuild g now) :: acqs2) hs cl cd nb)
        (mkPSystem p (acqs1 ++ acqs2) hs cl cd nb)
  | pstep_build p acqs1 acqs2 hs cl cd nb key h g now entryKey :
      pstep (mkPSystem p (acqs1 ++ mkAcquire key h (AcqBuild g now) :: acqs2) hs cl cd nb)
        (mkPSystem p (acqs1 ++ mkAcquire key h (AcqStore g (mkEntry nb h entryKey now 0 false)) :: acqs2) hs cl cd (S nb))
  | pstep_store p acqs1 acqs2 hs cl cd nb key h g next r surplus p' :
      storePooledBackend key g next p = (r, surplus, p') →
      pstep (mkPSystem p (acqs1 ++ mkAcquire key h (AcqStore g next) :: acqs2) hs cl cd nb)
        (mkPSystem p' (acqs1 ++ acqs2) (r :: hs) (option_list surplus ++ cl) cd nb)
  | pstep_release_held p acqs hs1 hs2 cl cd nb ptr b bo p' :
      release ptr p = (bo, p') →
      pstep (mkPSystem p acqs (hs1 ++ Held ptr b :: hs2) cl cd nb)
        (mkPSystem p' acqs (hs1 ++ hs2) (option_list bo ++ cl) cd nb)
  | pstep_release_owned p acqs hs1 hs2 cl cd nb b :
      pstep (mkPSystem p acqs (hs1 ++ Owned b :: hs2) cl cd nb)
        (mkPSystem p acqs (hs1 ++ hs2) (b :: cl) cd nb)
  | pstep_evict_delete p acqs hs cl cd nb key now bs p' :
      evictPoolKeyForDelete key now p = (bs, p') →
      pstep (mkPSystem p acqs hs cl cd nb) (mkPSystem p' acqs hs (bs ++ cl) cd nb)
  | pstep_evict p acqs hs cl cd nb key now bs p' :
      evictPoolKey key now p = (bs, p') →
      pstep (mkPSystem p acqs hs cl cd nb) (mkPSystem p' acqs hs (bs ++ cl) cd nb)
  | pstep_close p acqs hs cl1 cl2 cd nb b :
      pstep (mkPSystem p acqs hs (cl1 ++ b :: cl2) cd nb) (mkPSystem p acqs hs (cl1 ++ cl2) (b :: cd) nb).

Definition preachable (s : psystem) : Prop := rtc pstep pinitial s.
End system.
End PoolSystem.

(** * Lemmas on the operations *)
Section pool_lemmas.
Context `{!MapRange}.
Import Pool.
Implicit Types p : pool.

(** The backends of the entries that are pooled or held. *)
Definition heap_backends p : list nat := (map_to_list (backend <$> heap p)).*2.

(** A pooled entry is live, no entry is pooled under two keys, and an entry that
    is not pooled is retired and held. *)
Record pool_ok p : Prop := {
  po_entry : ∀ k ptr, entries p !! k = Some ptr → ∃ e, heap p !! ptr = Some e ∧ retired e = false;
  po_inj : ∀ k k' ptr, entries p !! k = Some ptr → entries p !! k' = Some ptr → k = k';
  po_fresh : ∀ ptr e, heap p !! ptr = Some e → ptr < next_ptr p;
  po_live : ∀ ptr e, heap p !! ptr = Some e →
    if retired e then (0 < holders e)%Z else ∃ k, entries p !! k = Some ptr;
}.

(** [p'] is [p] without some entries nobody holds, whose backends are [bs]. *)
Record shrinks p (bs : list nat) p' : Prop := {
  sh_ok : pool_ok p';
  sh_backends : heap_backends p ≡ₚ bs ++ heap_backends p';
  sh_back : ∀ ptr e', heap p' !! ptr = Some e' →
    ∃ e, heap p !! ptr = Some e ∧ backend e' = backend e ∧ holders e' = holders e;
  sh_held : ∀ ptr e, heap p !! ptr = Some e → (0 < holders e)%Z →
    ∃ e', heap p' !! ptr = Some e' ∧ backend e' = backend e ∧ holders e' = holders e;
  sh_entries : ∀ k ptr, entries p' !! k = Some ptr → entries p !! k = Some ptr;
  sh_tombs : ∀ k, is_Some (tombstones p' !! k) → is_Some (tombstones p !! k) ∨ entries p' !! k = None;
}.

Lemma shrinks_refl p : pool_ok p → shrinks p [] p.
Proof. intros Hok. split; [done|done|eauto|eauto|done|by left]. Qed.

Lemma shrinks_trans p bs p1 bs' p2 : shrinks p bs p1 → shrinks p1 bs' p2 → shrinks p (bs ++ bs') p2.
Proof.
  intros [_ Hb Hback Hheld Hent Htmb] [Hok Hb' Hback' Hheld' Hent' Htmb']. split; [done| | | |by auto|].
  - by rewrite Hb, Hb', List.app_assoc.
  - intros ptr e2 (e1 & He1 & Hbe & Hhe)%Hback'. destruct (Hback _ _ He1) as (e & ? & ? & ?).
    exists e. split_and!; [done|congruence|congruence].
  - intros ptr e He Hh. destruct (Hheld _ _ He Hh) as (e1 & He1 & ? & ?).
    destruct (Hheld' _ _ He1) as (e2 & ? & ? & ?); [lia|]. exists e2. split_and!; [done|congruence|congruence].
  - intros k [[?|Hn]%Htmb|?]%Htmb'; [by left| |by right]. right.
    destruct (entries p2 !! k) eqn:Hk; [|done]. apply Hent' in Hk. congruence.
Qed.

(** Changing what is not the entries or the heap. *)
Lemma shrinks_same p p' :
  pool_ok p → entries p' = entries p → heap p' = heap p → next_ptr p' = next_ptr p →
  (∀ k, is_Some (tombstones p' !! k) → is_Some (tombstones p !! k) ∨ entries p !! k = None) → shrinks p [] p'.
Proof.
  intros [H1 H2 H3 H4] He Hh Hn Ht.
  split; [split; rewrite ?He, ?Hh, ?Hn; done| |rewrite Hh; eauto|rewrite Hh; eauto|by rewrite He|by rewrite He].
  unfold heap_backends. by rewrite Hh.
Qed.

Lemma generationLocked_shrinks key now p g p' :
  pool_ok p → generationLocked key now p = (g, p') → shrinks p [] p'.
Proof.
  unfold generationLocked. intros Hok. destruct (generations p !! key); intros [= _ <-];
    [by apply shrinks_refl|]. apply shrinks_same; [done..|by left].
Qed.

Lemma pruneExpired_shrinks now p : pool_ok p → shrinks p [] (pruneExpiredTombstonesLocked now p).
Proof.
  intros Hok. apply shrinks_same; [done..|]. intros k [t [Ht _]%map_lookup_filter_Some]. left. eauto.
Qed.

(** Rewriting an entry without changing its backend. *)
Lemma heap_backends_insert ptr e e' (h : gmap nat pooledEntry) :
  h !! ptr = Some e → backend e' = backend e →
  backend <$> <[ptr := e']> h = backend <$> h.
Proof. intros He Hb. rewrite fmap_insert, Hb. apply insert_id. by rewrite lookup_fmap, He. Qed.

Lemma heap_backends_delete ptr e (h : gmap nat pooledEntry) :
  h !! ptr = Some e →
  (map_to_list (backend <$> h)).*2 ≡ₚ backend e :: (map_to_list (backend <$> delete ptr h)).*2.
Proof.
  intros He. rewrite fmap_delete, <- (map_to_list_delete (backend <$> h) ptr (backend e)); [done|].
  by rewrite lookup_fmap, He.
Qed.

Lemma retireLocked_shrinks key now p b p' :
  pool_ok p → retireLocked key now p = (b, p') → shrinks p (option_list b) p'.
Proof.
  intros Hok. pose proof Hok as [H1 H2 H3 H4]. unfold retireLocked.
  cbn [entries heap tombstones generations counter next_ptr bumpGenerationLocked].
  destruct (entries p !! key) as [ptr|] eqn:Hk; [|intros [= <- <-]; apply shrinks_same; [done..|by left]].
  destruct (H1 _ _ Hk) as (e & He & Hr). rewrite He.
  assert (∀ k ptr', delete key (entries p) !! k = Some ptr' → entries p !! k = Some ptr' ∧ ptr' ≠ ptr) as Hdel.
  { intros k ptr' [Hne Hk']%lookup_delete_Some. split; [done|]. intros ->. by apply Hne, (H2 _ _ ptr). }
  assert (∀ ptr' e', ptr' ≠ ptr → heap p !! ptr' = Some e' → retired e' = false →
    ∃ k, delete key (entries p) !! k = Some ptr') as Hlive.
  { intros ptr' e' Hne He' Hr'. pose proof (H4 _ _ He') as Hl. rewrite Hr' in Hl. destruct Hl as [k Hk'].
    exists k. rewrite lookup_delete_ne; [done|]. intros ->. congruence. }
  case_decide as Hh; intros [= <- <-]; split; unfold heap_backends; cbn [heap entries next_ptr option_list].
  - split; cbn [heap entries next_ptr].
    + intros k ptr' [Hk' Hne]%Hdel. rewrite lookup_insert_ne by congruence. eauto.
    + intros k k' ptr' [? _]%Hdel [? _]%Hdel. eauto.
    + intros ptr' e' [[<- _]|[_ ?]]%lookup_insert_Some; eauto.
    + intros ptr' e' [[<- <-]|[Hne He']]%lookup_insert_Some; [done|]. specialize (H4 _ _ He').
      destruct (retired e') eqn:Hr'; [done|]. by apply (Hlive ptr' e').
  - by rewrite (heap_backends_insert ptr e).
  - intros ptr' e' [[<- <-]|[_ ?]]%lookup_insert_Some; eauto.
  - intros ptr' e' He' Hh'. destruct (decide (ptr = ptr')) as [<-|Hne].
    + rewrite lookup_insert_eq. simplify_eq. eauto.
    + rewrite lookup_insert_ne by done. eauto.
  - by intros k ptr' [? _]%Hdel.
  - by left.
  - split; cbn [heap entries next_ptr].
    + intros k ptr' [Hk' Hne]%Hdel. rewrite lookup_delete_ne by congruence. eauto.
    + intros k k' ptr' [? _]%Hdel [? _]%Hdel. eauto.
    + intros ptr' e' [_ ?]%lookup_delete_Some. eauto.
    + intros ptr' e' [Hne He']%lookup_delete_Some. pose proof (H4 _ _ He') as Hl.
      destruct (retired e') eqn:Hr'; [done|]. by apply (Hlive ptr' e').
  - by apply heap_backends_delete.
  - intros ptr' e' [_ ?]%lookup_delete_Some. eauto.
  - intros ptr' e' He' Hh'. rewrite lookup_delete_ne; [by eauto|]. intros <-. simplify_eq. lia.
  - by intros k ptr' [? _]%Hdel.
  - by left.
Qed.

Lemma retireLocked_unpools key now p : entries (retireLocked key now p).2 !! key = None.
Proof.
  unfold retireLocked. cbn [entries heap bumpGenerationLocked].
  destruct (entries p !! key) as [ptr|] eqn:Hk; [|done].
  destruct (heap p !! ptr); [case_decide|]; cbn [snd entries]; apply lookup_delete_eq.
Qed.

Lemma shrinks_step p bs p1 bs' p2 :
  shrinks p bs p1 → (pool_ok p1 → shrinks p1 bs' p2) → shrinks p (bs ++ bs') p2.
Proof. intros Hs Hn. eapply shrinks_trans; [done|]. by apply Hn, Hs. Qed.

Lemma prune_fold_shrinks now p0 stale p l stale' p' :
  shrinks p0 stale p → foldl (prune_entry now) (stale, p) l = (stale', p') → shrinks p0 stale' p'.
Proof.
  revert stale p. induction l as [|k l IH]; intros stale p Hs; cbn [foldl]; [by intros [= <- <-]|].
  cbn [prune_entry]. destruct (entries p !! k) as [ptr|] eqn:Hk; [|by apply IH].
  destruct (po_entry _ (sh_ok _ _ _ Hs) _ _ Hk) as (e & -> & _). case_decide; [|by apply IH].
  destruct (retireLocked k now p) as [b p1] eqn:Hr. apply IH.
  eapply shrinks_step; [done|]. intros Hok. by eapply retireLocked_shrinks.
Qed.

Lemma pruneStale_shrinks now p stale p' :
  pool_ok p → pruneStaleEntriesLocked now p = (stale, p') → shrinks p stale p'.
Proof.
  intros Hok. unfold pruneStaleEntriesLocked.
  destruct (foldl _ _ _) as [st p1] eqn:Hf. intros [= <- <-]. rewrite <- (List.app_nil_r st).
  eapply shrinks_step; [by eapply prune_fold_shrinks; [apply shrinks_refl|]|]. apply pruneExpired_shrinks.
Qed.

Lemma retirePoolEntry_shrinks key g force now p r p' :
  pool_ok p → retirePoolEntry key g force now p = (r, p') →
  shrinks p (match r with inl bs => bs | inr _ => [] end) p'.
Proof.
  intros Hok. unfold retirePoolEntry.
  destruct (entries p !! key ≫= (heap p !!.)) as [e|].
  2: { destruct (retireLocked key now p) as [b p1] eqn:Hr. intros [= <- <-]. by eapply retireLocked_shrinks. }
  destruct force.
  { destruct (retireLocked key now p) as [b p1] eqn:Hr. intros [= <- <-]. by eapply retireLocked_shrinks. }
  destruct (generationLocked key now p) as [g' p1] eqn:Hg. apply generationLocked_shrinks in Hg; [|done].
  case_decide; [by intros [= <- <-]|].
  destruct (retireLocked key now p1) as [b p2] eqn:Hr. intros [= <- <-].
  apply (shrinks_step p [] p1); [done|]. intros Hok1. by eapply retireLocked_shrinks.
Qed.

Lemma retireEntryWithKey_shrinks key entryKey now p bs p' :
  pool_ok p → retireEntryWithKey key entryKey now p = (bs, p') → shrinks p bs p'.
Proof.
  intros Hok. unfold retireEntryWithKey. destruct (entries p !! key ≫= (heap p !!.)) as [e|].
  2: { intros [= <- <-]. by apply shrinks_refl. }
  case_decide; [|intros [= <- <-]; by apply shrinks_refl].
  destruct (retireLocked key now p) as [b p1] eqn:Hr. intros [= <- <-]. by eapply retireLocked_shrinks.
Qed.

Lemma evict_shrinks key now p bs p' :
  pool_ok p → evictPoolKey key now p = (bs, p') → shrinks p bs p'.
Proof.
  intros Hok. unfold evictPoolKey. destruct (retireLocked key now p) as [b p1] eqn:Hr. intros [= <- <-].
  by eapply retireLocked_shrinks.
Qed.

Lemma evict_delete_shrinks key now p bs p' :
  pool_ok p → evictPoolKeyForDelete key now p = (bs, p') → shrinks p bs p'.
Proof.
  intros Hok. unfold evictPoolKeyForDelete. destruct (retireLocked key now p) as [b p1] eqn:Hr. intros [= <- <-].
  rewrite <- (List.app_nil_r (option_list b)).
  eapply shrinks_step; [by eapply retireLocked_shrinks|]. intros Hok1. apply shrinks_same; [done..|].
  intros k [t [Ht _]%map_lookup_filter_Some]. cbn [tombstones] in Ht.
  apply lookup_insert_Some in Ht as [[<- _]|[_ Ht]]; [right|left; eauto].
  pose proof (retireLocked_unpools key now p) as Hu. by rewrite Hr in Hu.
Qed.

(** Touching an entry changes no backend and no hold. *)
Lemma touch_shrinks ptr now p : pool_ok p → shrinks p [] (touch ptr now p).
Proof.
  intros [H1 H2 H3 H4].
  assert (∀ ptr' e', alter (λ e, mkEntry (backend e) (specHash e) (ekey e) now (holders e) (retired e)) ptr (heap p)
    !! ptr' = Some e' → ∃ e, heap p !! ptr' = Some e ∧ backend e' = backend e ∧ holders e' = holders e ∧
      retired e' = retired e) as Hback.
  { intros ptr' e'. rewrite lookup_alter. case_decide; subst; [|by eauto].
    destruct (heap p !! ptr'); intros [= <-]. eauto. }
  assert (∀ ptr' e, heap p !! ptr' = Some e → ∃ e', alter (λ e, mkEntry (backend e) (specHash e) (ekey e) now
    (holders e) (retired e)) ptr (heap p) !! ptr' = Some e' ∧ backend e' = backend e ∧ holders e' = holders e ∧
      retired e' = retired e) as Hfwd.
  { intros ptr' e He. rewrite lookup_alter. case_decide; subst; rewrite He; simpl; eauto. }
  split; [split|..]; cbn [entries heap next_ptr touch set_heap].
  - intros k ptr' Hk. destruct (H1 _ _ Hk) as (e & He & Hr). destruct (Hfwd _ _ He) as (e' & ? & ? & ? & ?).
    exists e'. split; congruence.
  - done.
  - intros ptr' e' (e & He & _)%Hback. eauto.
  - intros ptr' e' (e & He & _ & -> & ->)%Hback. by apply (H4 ptr').
  - unfold heap_backends. cbn [heap touch set_heap app]. apply Permutation_refl'. do 2 f_equal.
    apply map_eq. intros i. rewrite !lookup_fmap, lookup_alter. case_decide; subst; by destruct (heap p !! i).
  - intros ptr' e' (e & ? & ? & ? & _)%Hback. eauto.
  - intros ptr' e He _. destruct (Hfwd _ _ He) as (e' & ? & ? & ? & _). eauto.
  - done.
  - by left.
Qed.

Lemma lookupOrRetire_spec key entryKey g force now p r bs p' :
  pool_ok p → lookupOrRetire key entryKey g force now p = (r, bs, p') →
  match r with
  | LookupHit b ptr => ∃ p1 e, shrinks p bs p1 ∧ heap p1 !! ptr = Some e ∧ backend e = b ∧ ekey e = entryKey ∧
      ∃ g' , generationLocked key now (holdLocked ptr p1) = (g', p')
  | _ => shrinks p bs p'
  end.
Proof.
  intros Hok. unfold lookupOrRetire.
  destruct (pruneStaleEntriesLocked now p) as [stale p1] eqn:Hp. apply pruneStale_shrinks in Hp; [|done].
  pose proof (sh_ok _ _ _ Hp) as Hok1.
  destruct (entries p1 !! key) as [ptr|] eqn:Hk; cbn [mbind option_bind].
  2: { destruct (generationLocked key now p1) as [g' p2] eqn:Hg. intros [= <- <- <-].
       rewrite <- (List.app_nil_r stale). eapply shrinks_step; [done|]. intros _. by eapply generationLocked_shrinks. }
  destruct (po_entry _ Hok1 _ _ Hk) as (e & He & Hr). rewrite He. cbn [fmap option_fmap option_map].
  case_decide as Hkey.
  { destruct (generationLocked key now (holdLocked ptr (touch ptr now p1))) as [g' p2] eqn:Hg. intros [= <- <- <-].
    exists (touch ptr now p1). eexists. split.
    { rewrite <- (List.app_nil_r stale). eapply shrinks_step; [done|]. apply touch_shrinks. }
    split; [cbn [touch set_heap heap]; by rewrite lookup_alter_eq, He|]. eauto. }
  destruct (generationLocked key now p1) as [g' p2] eqn:Hg. apply generationLocked_shrinks in Hg; [|done].
  destruct (negb force && bool_decide (g' ≠ g)) eqn:Hc.
  { intros [= <- <- <-]. rewrite <- (List.app_nil_r stale). by eapply shrinks_step. }
  destruct (retireLocked key now (if force then p1 else p2)) as [b p3] eqn:Hret.
  destruct (generationLocked key now p3) as [g3 p4] eqn:Hg3. intros [= <- <- <-].
  assert (shrinks p stale (if force then p1 else p2)) as Hs.
  { destruct force; [done|]. rewrite <- (List.app_nil_r stale). by eapply shrinks_step. }
  apply retireLocked_shrinks in Hret; [|apply Hs]. apply generationLocked_shrinks in Hg3; [|apply Hret].
  rewrite <- (List.app_nil_r (option_list b)). eapply shrinks_step; [done|]. intros _. by eapply shrinks_trans.
Qed.
End pool_lemmas.

(** * No backend is closed in use, closed twice or lost *)
Module PoolSafety.
Import Pool PoolSystem.
Ltac psimpl := cbn [ps_pool ps_acquires ps_handles ps_closing ps_closed ps_next] in *.

Section safety.
Context `{!MapRange}.

(** The backends acquires have built and not yet stored, those handed out
    unpooled, and the holds on an entry. *)
Definition inflight (acqs : list acquire) : list nat :=
  omap (λ a, match acq_pc a with AcqStore _ next => Some (backend next) | _ => None end) acqs.

Definition owned (hs : list handle) : list nat :=
  omap (λ h, match h with Owned b => Some b | Held _ _ => None end) hs.

Definition holds_on (ptr : nat) (h : handle) : bool :=
  match h with Held ptr' _ => bool_decide (ptr' = ptr) | Owned _ => false end.

Definition holds (ptr : nat) (hs : list handle) : nat := length (List.filter (holds_on ptr) hs).

(** Every backend built so far has one owner. *)
Definition owners (s : psystem) : list nat :=
  inflight (ps_acquires s) ++ heap_backends (ps_pool s) ++ owned (ps_handles s) ++ ps_closing s ++ ps_closed s.

Record psys_inv (s : psystem) : Prop := {
  si_pool : pool_ok (ps_pool s);
  si_count : ∀ ptr e, heap (ps_pool s) !! ptr = Some e → holders e = Z.of_nat (holds ptr (ps_handles s));
  si_held : ∀ ptr b, Held ptr b ∈ ps_handles s → ∃ e, heap (ps_pool s) !! ptr = Some e ∧ backend e = b;
  si_fresh : ∀ a g next, a ∈ ps_acquires s → acq_pc a = AcqStore g next → holders next = 0%Z ∧ retired next = false;
  si_owners : owners s ≡ₚ seq 0 (ps_next s);
}.

Lemma perm_move (a b c d e : list nat) : a ++ b ++ (c ++ d) ++ e ≡ₚ (c ++ a) ++ b ++ d ++ e.
Proof.
  rewrite <- !List.app_assoc, (List.app_assoc a b), (Permutation_app_swap_app (a ++ b)).
  by rewrite <- !List.app_assoc.
Qed.

Lemma holds_app ptr a b : holds ptr (a ++ b) = holds ptr a + holds ptr b.
Proof. unfold holds. by rewrite List.filter_app, List.length_app. Qed.

Lemma holds_pos ptr b hs : Held ptr b ∈ hs → 0 < holds ptr hs.
Proof.
  intros (h1 & h2 & ->)%list_elem_of_split. rewrite holds_app. unfold holds. simpl.
  rewrite bool_decide_eq_true_2 by done. simpl. lia.
Qed.

Lemma shrinks_inv p bs p' acqs hs cl cd nb :
  shrinks p bs p' → psys_inv (mkPSystem p acqs hs cl cd nb) → psys_inv (mkPSystem p' acqs hs (bs ++ cl) cd nb).
Proof.
  intros [Hok Hb Hback Hheld Hent Htmb] [Hp Hc Hh Hf Ho]. split; psimpl.
  - done.
  - intros ptr e' (e & He & _ & ->)%Hback. by apply Hc.
  - intros ptr b Hin. destruct (Hh _ _ Hin) as (e & He & <-).
    destruct (Hheld _ _ He) as (e' & ? & ? & ?); [|by eauto].
    rewrite (Hc _ _ He). apply holds_pos in Hin. lia.
  - done.
  - rewrite <- Ho. unfold owners. psimpl. apply Permutation_app_head. rewrite Hb. apply perm_move.
Qed.

Lemma hold_inv p acqs hs cl cd nb ptr e :
  heap p !! ptr = Some e → psys_inv (mkPSystem p acqs hs cl cd nb) →
  psys_inv (mkPSystem (holdLocked ptr p) acqs (Held ptr (backend e) :: hs) cl cd nb).
Proof.
  intros He [Hp Hc Hh Hf Ho]. pose proof Hp as [H1 H2 H3 H4]. psimpl.
  set (f := λ e, mkEntry (backend e) (specHash e) (ekey e) (lastUsed e) (holders e + 1) (retired e)).
  assert (∀ ptr' e', alter f ptr (heap p) !! ptr' = Some e' →
    ∃ e, heap p !! ptr' = Some e ∧ backend e' = backend e ∧ retired e' = retired e ∧
      holders e' = (holders e + (if decide (ptr' = ptr) then 1 else 0))%Z) as Hback.
  { intros ptr' e'. rewrite lookup_alter. destruct (decide (ptr = ptr')) as [<-|Hne].
    - rewrite decide_True by done. destruct (heap p !! ptr) as [e0|]; intros [= <-]. by exists e0.
    - rewrite decide_False by done. intros He'. exists e'. split_and!; [done..|lia]. }
  assert (∀ ptr' e0, heap p !! ptr' = Some e0 → ∃ e', alter f ptr (heap p) !! ptr' = Some e' ∧
    backend e' = backend e0 ∧ retired e' = retired e0) as Hfwd.
  { intros ptr' e0 He0. rewrite lookup_alter. case_decide; subst; rewrite He0; simpl; eauto. }
  split; psimpl.
  - split; cbn [entries heap next_ptr holdLocked set_heap]; fold f.
    + intros k ptr' Hk. destruct (H1 _ _ Hk) as (e0 & He0 & Hr). destruct (Hfwd _ _ He0) as (e' & ? & ? & ?).
      exists e'. split; congruence.
    + done.
    + intros ptr' e' (e0 & ? & _)%Hback. eauto.
    + intros ptr' e' (e0 & He0 & _ & -> & ->)%Hback. specialize (H4 _ _ He0). destruct (retired e0); [|done].
      case_decide; lia.
  - fold f. intros ptr' e' (e0 & He0 & _ & _ & ->)%Hback. rewrite (Hc _ _ He0).
    unfold holds. simpl. destruct (decide (ptr' = ptr)) as [->|Hne].
    + rewrite bool_decide_eq_true_2 by done. simpl. lia.
    + rewrite bool_decide_eq_false_2 by done. lia.
  - fold f. intros ptr' b [[= -> ->]|Hin]%elem_of_cons.
    + destruct (Hfwd _ _ He) as (e' & ? & ? & _). eauto.
    + destruct (Hh _ _ Hin) as (e0 & He0 & <-). destruct (Hfwd _ _ He0) as (e' & ? & ? & _). eauto.
  - done.
  - rewrite <- Ho. unfold owners. psimpl. unfold heap_backends. cbn [heap holdLocked set_heap]. fold f.
    apply Permutation_refl'. do 2 f_equal. do 2 f_equal. apply map_eq. intros i.
    rewrite !lookup_fmap, lookup_alter. case_decide; subst; by destruct (heap p !! i).
Qed.

Lemma inflight_app a b : inflight (a ++ b) = inflight a ++ inflight b.
Proof. apply omap_app. Qed.

Lemma owned_app a b : owned (a ++ b) = owned a ++ owned b.
Proof. apply omap_app. Qed.

Lemma inflight_none a acqs1 acqs2 :
  (∀ g next, acq_pc a ≠ AcqStore g next) → inflight (acqs1 ++ a :: acqs2) = inflight (acqs1 ++ acqs2).
Proof.
  intros Hne. rewrite !inflight_app. f_equal. unfold inflight. simpl.
  destruct (acq_pc a) eqn:Hpc; try done. exfalso. by eapply Hne.
Qed.

(** Dropping or replacing an acquire that holds no backend. *)
Lemma replace_acquire_inv p acqs1 a a' acqs2 hs cl cd nb :
  (∀ g next, acq_pc a ≠ AcqStore g next) →
  (∀ a1 g next, a' = Some a1 → acq_pc a1 ≠ AcqStore g next) →
  psys_inv (mkPSystem p (acqs1 ++ a :: acqs2) hs cl cd nb) →
  psys_inv (mkPSystem p (acqs1 ++ option_list a' ++ acqs2) hs cl cd nb).
Proof.
  intros Ha Ha' [Hp Hc Hh Hf Ho]. split; psimpl; [done..| |].
  - intros a0 g next Hin Hpc. apply elem_of_app in Hin as [Hin|[Hin|Hin]%elem_of_app].
    + apply (Hf a0 g next); [apply elem_of_app; by left|done].
    + destruct a' as [a1|]; [|by apply elem_of_nil in Hin]. apply list_elem_of_singleton in Hin as ->.
      by destruct (Ha' a1 g next).
    + apply (Hf a0 g next); [apply elem_of_app; right; by right|done].
  - rewrite <- Ho. unfold owners. psimpl. rewrite inflight_none by done.
    destruct a' as [a1|]; [|done]. change (option_list (Some a1) ++ acqs2) with (a1 :: acqs2).
    by rewrite inflight_none by (intros; by eapply Ha').
Qed.

Ltac perm_front :=
  repeat match goal with |- context [option_list (Some ?x)] => change (option_list (Some x)) with [x] end;
  rewrite <- ?List.app_assoc; cbn [app]; rewrite <- ?Permutation_middle; try done.

(** One handle less on [ptr]. *)
Lemma holds_drop ptr b hs1 hs2 ptr' :
  holds ptr' (hs1 ++ Held ptr b :: hs2) = holds ptr' (hs1 ++ hs2) + if decide (ptr = ptr') then 1 else 0.
Proof.
  rewrite !holds_app. unfold holds. simpl. case_decide.
  - rewrite bool_decide_eq_true_2 by done. simpl. lia.
  - rewrite bool_decide_eq_false_2 by done. lia.
Qed.

Lemma pool_ok_delete p ptr e : pool_ok p → heap p !! ptr = Some e → retired e = true → pool_ok (set_heap (delete ptr) p).
Proof.
  intros [H1 H2 H3 H4] He Hr.
  assert (∀ k, entries p !! k ≠ Some ptr) as Hnp.
  { intros k Hk. destruct (H1 _ _ Hk) as (e' & He' & Hr'). congruence. }
  split; cbn [entries heap next_ptr set_heap].
  - intros k ptr' Hk. rewrite lookup_delete_ne; [by eauto|]. intros <-. by apply (Hnp k).
  - done.
  - intros ptr' e' [_ ?]%lookup_delete_Some. eauto.
  - intros ptr' e' [_ ?]%lookup_delete_Some. by apply (H4 ptr').
Qed.

Lemma pool_ok_unhold p ptr e h :
  pool_ok p → heap p !! ptr = Some e → (retired e = true → 0 < h)%Z →
  pool_ok (set_heap <[ptr := mkEntry (backend e) (specHash e) (ekey e) (lastUsed e) h (retired e)]> p).
Proof.
  intros [H1 H2 H3 H4] He Hpos. split; cbn [entries heap next_ptr set_heap].
  - intros k ptr' Hk. destruct (H1 _ _ Hk) as (e' & He' & Hr').
    destruct (decide (ptr = ptr')) as [<-|]; [|rewrite lookup_insert_ne by done; eauto].
    rewrite lookup_insert_eq. simplify_eq. eauto.
  - done.
  - intros ptr' e' [[<- _]|[_ ?]]%lookup_insert_Some; eauto.
  - intros ptr' e' [[<- <-]|[_ He']]%lookup_insert_Some; cbn [retired holders]; [|by apply (H4 ptr')].
    pose proof (H4 _ _ He) as Hl. destruct (retired e); [by apply Hpos|done].
Qed.

Lemma release_inv p acqs hs1 hs2 cl cd nb ptr b bo p' :
  release ptr p = (bo, p') →
  psys_inv (mkPSystem p acqs (hs1 ++ Held ptr b :: hs2) cl cd nb) →
  psys_inv (mkPSystem p' acqs (hs1 ++ hs2) (option_list bo ++ cl) cd nb).
Proof.
  intros Hrel [Hp Hc Hh Hf Ho]. psimpl.
  destruct (Hh ptr b) as (e & He & Hbe); [apply elem_of_app; right; by left|].
  pose proof (Hc _ _ He) as Hce. rewrite holds_drop, decide_True in Hce by done.
  assert (owned (hs1 ++ Held ptr b :: hs2) = owned (hs1 ++ hs2)) as Hown by (by rewrite !owned_app).
  assert (∀ ptr' b', Held ptr' b' ∈ hs1 ++ hs2 → Held ptr' b' ∈ hs1 ++ Held ptr b :: hs2) as Hsub.
  { intros ptr' b' [?|?]%elem_of_app; apply elem_of_app; [by left|right; by right]. }
  unfold owners in Ho. psimpl. rewrite Hown in Ho.
  unfold release in Hrel. rewrite He in Hrel.
  destruct (retired e && bool_decide (holders e - 1 = 0)%Z) eqn:Hd; injection Hrel as <- <-.
  - apply andb_prop in Hd as [Hr Hz%bool_decide_eq_true]. split; psimpl; [by eapply pool_ok_delete| | |done|].
    + cbn [heap set_heap]. intros ptr' e' [Hne He']%lookup_delete_Some. rewrite (Hc _ _ He'), holds_drop, decide_False by done. lia.
    + intros ptr' b' Hin. destruct (Hh _ _ (Hsub _ _ Hin)) as (e' & He' & <-). exists e'. split; [|done].
      cbn [heap set_heap]. rewrite lookup_delete_ne; [done|]. intros <-. apply holds_pos in Hin. lia.
    + rewrite <- Ho. unfold owners. psimpl. unfold heap_backends. cbn [heap set_heap option_list].
      rewrite (heap_backends_delete ptr e (heap p) He). perm_front.
  - assert (retired e = true → 0 < holders e - 1)%Z as Hpos.
    { intros Hr. rewrite Hr in Hd. simpl in Hd. apply bool_decide_eq_false in Hd. lia. }
    split; psimpl; [by apply pool_ok_unhold| | |done|].
    + cbn [heap set_heap]. intros ptr' e' [[<- <-]|[Hne He']]%lookup_insert_Some; cbn [holders]; [lia|].
      rewrite (Hc _ _ He'), holds_drop, decide_False by done. lia.
    + intros ptr' b' Hin. destruct (Hh _ _ (Hsub _ _ Hin)) as (e' & He' & <-). cbn [heap set_heap].
      destruct (decide (ptr = ptr')) as [<-|]; [|rewrite lookup_insert_ne by done; eauto].
      rewrite lookup_insert_eq. simplify_eq. eauto.
    + rewrite <- Ho. unfold owners. psimpl. unfold heap_backends. cbn [heap set_heap option_list app].
      by rewrite (heap_backends_insert ptr e).
Qed.

(** An acquire about to store hands its backend to the caller, unpooled. *)
Lemma own_inv p acqs1 acqs2 hs cl cd nb key h g next :
  psys_inv (mkPSystem p (acqs1 ++ mkAcquire key h (AcqStore g next) :: acqs2) hs cl cd nb) →
  psys_inv (mkPSystem p (acqs1 ++ acqs2) (Owned (backend next) :: hs) cl cd nb).
Proof.
  intros [Hp Hc Hh Hf Ho]. split; psimpl; [done|done| | |].
  - intros ptr b [?|Hin]%elem_of_cons; [done|by apply Hh].
  - intros a g' n' Hin. apply (Hf a g' n'). apply elem_of_app in Hin as [?|?]; apply elem_of_app; [by left|right; by right].
  - rewrite <- Ho. unfold owners. psimpl. rewrite !inflight_app.
    change (owned (Owned (backend next) :: hs)) with (backend next :: owned hs).
    change (inflight (mkAcquire key h (AcqStore g next) :: acqs2)) with (backend next :: inflight acqs2).
    perm_front.
Qed.

(** An acquire about to store gives up its backend, to be closed. *)
Lemma surplus_inv p acqs1 acqs2 hs cl cd nb key h g next :
  psys_inv (mkPSystem p (acqs1 ++ mkAcquire key h (AcqStore g next) :: acqs2) hs cl cd nb) →
  psys_inv (mkPSystem p (acqs1 ++ acqs2) hs (backend next :: cl) cd nb).
Proof.
  intros [Hp Hc Hh Hf Ho]. split; psimpl; [done|done|done| |].
  - intros a g' n' Hin. apply (Hf a g' n'). apply elem_of_app in Hin as [?|?]; apply elem_of_app; [by left|right; by right].
  - rewrite <- Ho. unfold owners. psimpl. rewrite !inflight_app.
    change (inflight (mkAcquire key h (AcqStore g next) :: acqs2)) with (backend next :: inflight acqs2).
    perm_front.
Qed.

(** An acquire about to store pools its backend in a new entry. *)
Lemma insert_inv p acqs1 acqs2 hs cl cd nb key h g next :
  entries p !! key = None →
  psys_inv (mkPSystem p (acqs1 ++ mkAcquire key h (AcqStore g next) :: acqs2) hs cl cd nb) →
  psys_inv (mkPSystem (mkPool (<[key := next_ptr p]> (entries p)) (<[next_ptr p := next]> (heap p)) (tombstones p)
    (generations p) (counter p) (S (next_ptr p))) (acqs1 ++ acqs2) hs cl cd nb).
Proof.
  intros Hk [Hp Hc Hh Hf Ho]. psimpl. pose proof Hp as [H1 H2 H3 H4].
  assert (heap p !! next_ptr p = None) as Hnew.
  { destruct (heap p !! next_ptr p) as [e|] eqn:He; [|done]. apply H3 in He. lia. }
  assert (∀ k ptr, entries p !! k = Some ptr → ptr ≠ next_ptr p) as Hne.
  { intros k ptr Hk'. destruct (H1 _ _ Hk') as (e & He & _). apply H3 in He. lia. }
  destruct (Hf (mkAcquire key h (AcqStore g next)) g next) as [Hh0 Hr0];
    [apply elem_of_app; right; by left|done|].
  split; psimpl.
  - split; cbn [entries heap next_ptr].
    + intros k ptr [[<- <-]|[_ Hk']]%lookup_insert_Some; [rewrite lookup_insert_eq; eauto|].
      rewrite lookup_insert_ne by (by apply not_eq_sym, (Hne k)). eauto.
    + intros k k' ptr [[<- <-]|[? Hk1]]%lookup_insert_Some [[<- ?]|[? Hk2]]%lookup_insert_Some; [done| | |by eauto].
      * by destruct (Hne _ _ Hk2).
      * subst ptr. by destruct (Hne _ _ Hk1).
    + intros ptr e [[<- _]|[_ ?%H3]]%lookup_insert_Some; lia.
    + intros ptr e [[<- <-]|[Hn He]]%lookup_insert_Some.
      * rewrite Hr0. exists key. apply lookup_insert_eq.
      * specialize (H4 _ _ He). destruct (retired e); [done|]. destruct H4 as [k Hk']. exists k.
        rewrite lookup_insert_ne; [done|]. intros ->. congruence.
  - cbn [heap]. intros ptr e [[<- <-]|[_ He]]%lookup_insert_Some; [|by apply Hc]. rewrite Hh0.
    destruct (decide (holds (next_ptr p) hs = 0)) as [->|Hz]; [done|]. exfalso.
    unfold holds in Hz. destruct (List.filter _ hs) as [|hd l] eqn:Hfl; [done|].
    assert (In hd (List.filter (holds_on (next_ptr p)) hs)) as [Hin Hon]%filter_In by (rewrite Hfl; by left).
    destruct hd as [ptr b|b]; [|done]. apply bool_decide_eq_true in Hon as ->.
    apply list_elem_of_In in Hin. destruct (Hh _ _ Hin) as (e & He & _). congruence.
  - intros ptr b Hin. destruct (Hh _ _ Hin) as (e & He & <-). exists e. split; [|done].
    cbn [heap]. rewrite lookup_insert_ne; [done|]. intros <-. congruence.
  - intros a g' n' Hin. apply (Hf a g' n'). apply elem_of_app in Hin as [?|?]; apply elem_of_app; [by left|right; by right].
  - rewrite <- Ho. unfold owners. psimpl. rewrite !inflight_app.
    change (inflight (mkAcquire key h (AcqStore g next) :: acqs2)) with (backend next :: inflight acqs2).
    unfold heap_backends. cbn [heap]. rewrite fmap_insert, map_to_list_insert by (by rewrite lookup_fmap, Hnew).
    rewrite fmap_cons. cbn [snd]. perm_front.
Qed.

Lemma bump_inv key now p acqs hs cl cd nb :
  psys_inv (mkPSystem p acqs hs cl cd nb) → psys_inv (mkPSystem (bumpGenerationLocked key now p) acqs hs cl cd nb).
Proof. intros Hi. apply (shrinks_inv p []); [|done]. apply shrinks_same; [apply Hi|done..|by left]. Qed.

Lemma store_inv p acqs1 acqs2 hs cl cd nb key h g next r surplus p' :
  storePooledBackend key g next p = (r, surplus, p') →
  psys_inv (mkPSystem p (acqs1 ++ mkAcquire key h (AcqStore g next) :: acqs2) hs cl cd nb) →
  psys_inv (mkPSystem p' (acqs1 ++ acqs2) (r :: hs) (option_list surplus ++ cl) cd nb).
Proof.
  intros Hst Hi. unfold storePooledBackend in Hst.
  destruct (tombstones p !! key); [injection Hst as <- <- <-; by eapply own_inv|].
  destruct (entries p !! key) as [ptr|] eqn:Hk.
  - destruct (heap p !! ptr) as [old|] eqn:He; [|injection Hst as <- <- <-; by eapply own_inv].
    case_decide; [|injection Hst as <- <- <-; by eapply own_inv]. injection Hst as <- <- <-.
    apply surplus_inv in Hi.
    apply (shrinks_inv _ [] (touch ptr (lastUsed next) p)) in Hi; [|apply touch_shrinks, Hi].
    eapply (hold_inv _ _ _ _ _ _ ptr (mkEntry (backend old) _ _ _ _ _)); [|exact Hi].
    cbn [heap touch set_heap]. rewrite lookup_alter_eq, He. reflexivity.
  - case_decide; [|injection Hst as <- <- <-; by eapply own_inv]. injection Hst as <- <- <-.
    apply insert_inv in Hi; [|done]. apply (bump_inv key (lastUsed next)) in Hi.
    eapply hold_inv in Hi; [exact Hi|]. cbn [heap bumpGenerationLocked]. apply lookup_insert_eq.
Qed.

(** A deleted sink has no pooled entry while its tombstone lasts. *)
Definition tomb_ok (p : pool) : Prop := ∀ k, is_Some (tombstones p !! k) → entries p !! k = None.

Lemma shrinks_tomb p bs p' : shrinks p bs p' → tomb_ok p → tomb_ok p'.
Proof.
  intros [_ _ _ _ He Ht] Hok k [Hk|?]%Ht; [|done]. apply Hok in Hk.
  destruct (entries p' !! k) eqn:Hk'; [|done]. apply He in Hk'. congruence.
Qed.

Lemma hold_tomb ptr p : tomb_ok (holdLocked ptr p) ↔ tomb_ok p.
Proof. done. Qed.

Lemma release_tomb ptr p bo p' : release ptr p = (bo, p') → tomb_ok p → tomb_ok p'.
Proof.
  unfold release. destruct (heap p !! ptr) as [e|]; [|by intros [= _ <-]].
  destruct (_ && _); by intros [= _ <-].
Qed.

Lemma store_tomb key g next p r surplus p' :
  storePooledBackend key g next p = (r, surplus, p') → tomb_ok p → tomb_ok p'.
Proof.
  unfold storePooledBackend. destruct (tombstones p !! key) eqn:Ht; [by intros [= _ _ <-]|].
  destruct (entries p !! key) as [ptr|].
  - destruct (heap p !! ptr); [case_decide|]; by intros [= _ _ <-].
  - case_decide; [|by intros [= _ _ <-]]. intros [= _ _ <-] Hok k Hk. cbn in *.
    rewrite lookup_insert_ne; [by apply Hok|]. intros <-. rewrite Ht in Hk. by destruct Hk.
Qed.

Definition sys_ok (s : psystem) : Prop := psys_inv s ∧ tomb_ok (ps_pool s).

Lemma shrinks_sys p bs p' acqs hs cl cd nb :
  (pool_ok p → shrinks p bs p') → sys_ok (mkPSystem p acqs hs cl cd nb) →
  sys_ok (mkPSystem p' acqs hs (bs ++ cl) cd nb).
Proof.
  intros Hs [Hi Ht]. specialize (Hs (si_pool _ Hi)). split; [by apply (shrinks_inv p)|by eapply shrinks_tomb].
Qed.

Lemma observe_inv a p a' r bs p' acqs1 acqs2 hs cl cd nb :
  observe_step a p a' r bs p' → sys_ok (mkPSystem p (acqs1 ++ a :: acqs2) hs cl cd nb) →
  sys_ok (mkPSystem p' (acqs1 ++ option_list a' ++ acqs2) (option_list r ++ hs) (bs ++ cl) cd nb).
Proof.
  intros Ho [Hi Ht].
  assert (sys_ok (mkPSystem p (acqs1 ++ option_list a' ++ acqs2) hs cl cd nb)) as Hok.
  { split; [|done]. eapply replace_acquire_inv; [| |exact Hi]; destruct Ho; intros; simplify_eq; done. }
  destruct Ho as [key h attempt stale now p g p' Hg|key h attempt stale g now p bs p' Hr|key h attempt stale g now p ek p' Hr
    |key h attempt stale g now p bs p' Hs Hr|key h attempt g p|key h attempt stale g ek now p b ptr bs p' Hl
    |key h attempt stale g ek now p st bs p' Hl|key h attempt stale g ek now p g' bs p' Hl].
  - apply (shrinks_sys p []); [|done]. intros. by eapply generationLocked_shrinks.
  - apply (shrinks_sys p); [|done]. intros. by apply (retirePoolEntry_shrinks _ _ _ _ _ _ _ ltac:(done) Hr).
  - apply (shrinks_sys p []); [|done]. intros. by apply (retirePoolEntry_shrinks _ _ _ _ _ _ _ ltac:(done) Hr).
  - apply (shrinks_sys p); [|done]. intros. by eapply retireEntryWithKey_shrinks.
  - exact Hok.
  - destruct (lookupOrRetire_spec _ _ _ _ _ _ _ _ _ (si_pool _ (proj1 Hok)) Hl) as (p1 & e & Hs & He & <- & _ & g' & Hg).
    destruct (shrinks_sys p bs p1 _ _ _ _ _ (λ _, Hs) Hok) as [Hi1 Ht1].
    apply (shrinks_sys (holdLocked ptr p1) [] p').
    { intros. by eapply generationLocked_shrinks. }
    split; [by apply hold_inv|done].
  - apply (shrinks_sys p); [|done]. intros Hp. by apply (lookupOrRetire_spec _ _ _ _ _ _ _ _ _ Hp Hl).
  - apply (shrinks_sys p); [|done]. intros Hp. by apply (lookupOrRetire_spec _ _ _ _ _ _ _ _ _ Hp Hl).
Qed.

Lemma pstep_inv s s' : pstep s s' → sys_ok s → sys_ok s'.
Proof.
  destruct 1 as [p acqs hs cl cd nb key h|p acqs1 acqs2 hs cl cd nb a a' r bs p' Ho
    |p acqs1 acqs2 hs cl cd nb key h g now now' bs p' Hr|p acqs1 acqs2 hs cl cd nb key h g now
    |p acqs1 acqs2 hs cl cd nb key h g now ek|p acqs1 acqs2 hs cl cd nb key h g next r sp p' Hs
    |p acqs hs1 hs2 cl cd nb ptr b bo p' Hr|p acqs hs1 hs2 cl cd nb b|p acqs hs cl cd nb key now bs p' He
    |p acqs hs cl cd nb key now bs p' He|p acqs hs cl1 cl2 cd nb b]; intros [Hi Ht]; psimpl.
  - split; [|done]. destruct Hi as [Hp Hc Hh Hf Ho]. split; psimpl; [done..| |done].
    intros a g next [->|Hin]%elem_of_cons; [done|by apply Hf].
  - by eapply observe_inv.
  - apply (shrinks_sys p). { intros Hp. by apply (retirePoolEntry_shrinks _ _ _ _ _ _ _ Hp Hr). }
    split; [|done]. by apply (replace_acquire_inv p acqs1 (mkAcquire key h (AcqBuild g now)) None).
  - split; [|done]. by apply (replace_acquire_inv p acqs1 (mkAcquire key h (AcqBuild g now)) None).
  - split; [|done]. destruct Hi as [Hp Hc Hh Hf Ho]. split; psimpl; [done..| |].
    + intros a g' n' Hin Hpc. apply elem_of_app in Hin as [Hin|[->|Hin]%elem_of_cons].
      * apply (Hf a g' n'); [apply elem_of_app; by left|done].
      * injection Hpc as <- <-. done.
      * apply (Hf a g' n'); [apply elem_of_app; right; by right|done].
    + rewrite seq_S, <- Ho. unfold owners. psimpl. rewrite !inflight_app.
      change (inflight (mkAcquire key h (AcqStore g (mkEntry nb h ek now 0 false)) :: acqs2)) with (nb :: inflight acqs2).
      change (inflight (mkAcquire key h (AcqBuild g now) :: acqs2)) with (inflight acqs2).
      rewrite (Permutation_app_comm _ [0 + nb]). perm_front.
  - split; [by eapply store_inv|by eapply store_tomb].
  - split; [by eapply release_inv|by eapply release_tomb].
  - split; [|done]. destruct Hi as [Hp Hc Hh Hf Ho]. split; psimpl; [done| | |done|].
    + intros ptr e He. rewrite (Hc _ _ He), !holds_app. done.
    + intros ptr b' Hin. apply Hh. apply elem_of_app in Hin as [?|?]; apply elem_of_app; [by left|right; by right].
    + rewrite <- Ho. unfold owners. psimpl. rewrite !owned_app.
      change (owned (Owned b :: hs2)) with (b :: owned hs2). perm_front.
  - apply (shrinks_sys p); [|done]. intros. by eapply evict_delete_shrinks.
  - apply (shrinks_sys p); [|done]. intros. by eapply evict_shrinks.
  - split; [|done]. destruct Hi as [Hp Hc Hh Hf Ho]. split; psimpl; [done..|].
    rewrite <- Ho. unfold owners. psimpl. perm_front.
Qed.

Lemma pinitial_ok : sys_ok pinitial.
Proof.
  assert (∀ ptr, heap empty_pool !! ptr = None) as Hh by (intros; apply lookup_empty).
  assert (∀ k, entries empty_pool !! k = None) as He by (intros; apply lookup_empty).
  split; [|by intros k _]. split; psimpl.
  - split; intros *; rewrite ?Hh, ?He; done.
  - intros ptr e. by rewrite Hh.
  - intros ptr b Hin. by apply elem_of_nil in Hin.
  - intros a g next Hin. by apply elem_of_nil in Hin.
  - done.
Qed.

Lemma preachable_ok s : preachable s → sys_ok s.
Proof.
  intros Hr. unfold preachable in Hr. remember pinitial as s0 eqn:Hs0.
  assert (sys_ok s0) as Hok by (subst; apply pinitial_ok). clear Hs0.
  induction Hr as [|s1 s2 s3 Hstep _ IH]; [done|]. eauto using pstep_inv.
Qed.

Definition handle_backend (h : handle) : nat := match h with Held _ b => b | Owned b => b end.

(** A backend is pooled: an entry of the pool holds it. *)
Definition pooled (p : pool) (b : nat) : Prop :=
  ∃ k ptr e, entries p !! k = Some ptr ∧ heap p !! ptr = Some e ∧ backend e = b.

Lemma elem_of_heap_backends p b : b ∈ heap_backends p ↔ ∃ ptr e, heap p !! ptr = Some e ∧ backend e = b.
Proof.
  unfold heap_backends. rewrite list_elem_of_fmap. split.
  - intros ([ptr b'] & -> & Hin%elem_of_map_to_list). rewrite lookup_fmap in Hin.
    destruct (heap p !! ptr) as [e|] eqn:He; simplify_eq/=. eauto.
  - intros (ptr & e & He & <-). exists (ptr, backend e). split; [done|]. apply elem_of_map_to_list.
    by rewrite lookup_fmap, He.
Qed.

Lemma elem_of_owned b hs : b ∈ owned hs ↔ Owned b ∈ hs.
Proof.
  unfold owned. rewrite list_elem_of_omap. split.
  - intros ([ptr b'|b'] & Hin & [= ->]). done.
  - intros Hin. by exists (Owned b).
Qed.

Lemma handle_owner s h :
  psys_inv s → h ∈ ps_handles s →
  handle_backend h ∈ heap_backends (ps_pool s) ++ owned (ps_handles s).
Proof.
  intros Hi Hin. apply elem_of_app. destruct h as [ptr b|b]; [left|right; by apply elem_of_owned].
  destruct (si_held _ Hi _ _ Hin) as (e & He & <-). apply elem_of_heap_backends. eauto.
Qed.

(** A backend in the heap is pooled or held. *)
Lemma heap_pooled_or_held s b :
  psys_inv s → b ∈ heap_backends (ps_pool s) →
  pooled (ps_pool s) b ∨ ∃ h, h ∈ ps_handles s ∧ handle_backend h = b.
Proof.
  intros Hi (ptr & e & He & <-)%elem_of_heap_backends.
  pose proof (po_live _ (si_pool _ Hi) _ _ He) as Hl. destruct (retired e).
  - right. rewrite (si_count _ Hi _ _ He) in Hl. unfold holds in Hl.
    destruct (List.filter _ _) as [|h l] eqn:Hf; [simpl in Hl; lia|].
    assert (In h (List.filter (holds_on ptr) (ps_handles s))) as [Hin Hon]%filter_In by (rewrite Hf; by left).
    apply list_elem_of_In in Hin. exists h. split; [done|]. destruct h as [ptr' b|b]; [|done].
    apply bool_decide_eq_true in Hon as ->. destruct (si_held _ Hi _ _ Hin) as (e' & He' & <-). cbn [handle_backend]. congruence.
  - left. destruct Hl as [k Hk]. exists k, ptr, e. done.
Qed.

(** ** Properties *)

(** C4. Backends are closed safely and exactly once: in every interleaving of
    acquires, releases, Secret changes, TTL sweeps and deletions, no backend a
    caller still holds is closed or about to be, no backend is closed twice, and
    none is lost: each one ever built is still being stored, pooled, held, or on
    its way to being closed. While a deleted sink's tombstone lasts nothing is
    pooled under its key. *)
Theorem pool_closes_once s :
  preachable s →
  (∀ h, h ∈ ps_handles s → handle_backend h ∉ ps_closing s ++ ps_closed s) ∧
  NoDup (ps_closing s ++ ps_closed s) ∧
  (∀ b, b < ps_next s →
     b ∈ inflight (ps_acquires s) ∨ pooled (ps_pool s) b ∨
     (∃ h, h ∈ ps_handles s ∧ handle_backend h = b) ∨ b ∈ ps_closing s ++ ps_closed s) ∧
  (∀ k, is_Some (tombstones (ps_pool s) !! k) → entries (ps_pool s) !! k = None).
Proof.
  intros [Hi Ht]%preachable_ok.
  assert (NoDup (owners s)) as Hnd by (rewrite (si_owners _ Hi); apply NoDup_seq).
  unfold owners in Hnd. rewrite (List.app_assoc (heap_backends _)) in Hnd.
  apply NoDup_app in Hnd as (_ & _ & [_ [Hdis Hnd]]%NoDup_app).
  split_and!; [|done| |done].
  - intros h Hin. apply Hdis. by apply handle_owner.
  - intros b Hb. assert (b ∈ owners s) as Hin.
    { rewrite (si_owners _ Hi). apply elem_of_seq. lia. }
    unfold owners in Hin. rewrite !elem_of_app in Hin. rewrite elem_of_app.
    destruct Hin as [?|[Hin|[Hin|[?|?]]]]; [by left| | |by auto|by auto].
    + apply (heap_pooled_or_held s) in Hin as [?|?]; [by auto|by auto|done].
    + right; right; left. exists (Owned b). split; [by apply elem_of_owned|done].
Qed.
End safety.

(** A run: acquire, miss, build, pool. *)
Lemma pool_closes_once_witness :
  let _ := map_range_to_list in
  let e := mkEntry 0 "spec" "key" 10 0 false in
  let s := mkPSystem (storePooledBackend "uid:a" 1 e (mkPool ∅ ∅ ∅ {[ "uid:a" := mkGeneration 1 5 ]} 1 0)).2
             [] [Held 0 0] [] [] 1 in
  0 ∉ ps_closing s ++ ps_closed s.
Proof.
  intros M e s.
  assert (preachable s) as Hr.
  { eapply rtc_l; [apply (pstep_acquire _ [] [] [] [] _ "uid:a" "spec")|].
    eapply rtc_l; [apply (pstep_observe _ [] []), (observe_loop "uid:a" "spec" 1 "" 5); reflexivity|].
    eapply rtc_l; [apply (pstep_observe _ [] []), (observe_miss "uid:a" "spec" 1 "" 1 "key" 10); reflexivity|].
    eapply rtc_l; [apply (pstep_build _ [] [] [] _ _ _ "uid:a" "spec" 1 10 "key")|].
    eapply rtc_l; [apply (pstep_store _ [] [] [] _ _ _ "uid:a" "spec" 1 e); reflexivity|].
    apply rtc_refl. }
  exact (proj1 (pool_closes_once s Hr) (Held 0 0) (list_elem_of_here _ _)).
Defined.
End PoolSafety.
