(* ===== verification/NetGuard.v ===== *)
(** Network guards for sink endpoints: the dial-time policy of
    [src/internal/sink/netguard/dialer.go] and the admission policy of
    [src/internal/validation/endpoint_guard.go].

    [netip.Addr] is modelled by its value and zone, with the classification
    methods of the standard library written out on its bytes. The parsers of
    addresses, host-port pairs and URLs are a class, and the answers of the
    resolver and of the sockets are arguments. *)

From S2P Require Import Prelude GoStrings Intervals.

(** * [net/netip] *)

Inductive Addr :=
  | AddrInvalid
  | Addr4 (n : Z)
  | Addr6 (n : Z) (zone : string).

#[export] Instance addr_eq_dec : EqDecision Addr.
Proof. solve_decision. Defined.

Definition wf_addr (a : Addr) : Prop :=
  match a with
  | AddrInvalid => True
  | Addr4 n => (0 ≤ n < 2 ^ 32)%Z
  | Addr6 n _ => (0 ≤ n < 2 ^ 128)%Z
  end.

(** The [i]-th byte of an IPv4 and of an IPv6 address, and the first 16 bits. *)
Definition v4 (i n : Z) : Z := Z.land (Z.shiftr n (8 * (3 - i))) 255.
Definition v6 (i n : Z) : Z := Z.land (Z.shiftr n (8 * (15 - i))) 255.
Definition v6u16 (n : Z) : Z := Z.land (Z.shiftr n 112) 65535.

Definition IsValid (a : Addr) : bool := bool_decide (a ≠ AddrInvalid).
Definition Is4 (a : Addr) : bool := match a with Addr4 _ => true | _ => false end.

Definition Is4In6 (a : Addr) : bool :=
  match a with Addr6 n _ => bool_decide (Z.shiftr n 32 = 65535)%Z | _ => false end.

Definition Unmap (a : Addr) : Addr :=
  match a with
  | Addr6 n _ => if Is4In6 a then Addr4 (Z.land n (2 ^ 32 - 1)) else a
  | _ => a
  end.

Definition WithZone (a : Addr) (zone : string) : Addr :=
  match a with Addr6 n _ => Addr6 n zone | _ => a end.

Definition IsUnspecified (a : Addr) : bool := bool_decide (a = Addr4 0) || bool_decide (a = Addr6 0 "").

(** The remaining methods unmap an IPv4-mapped address first. *)
Definition IsLoopback (a : Addr) : bool :=
  match Unmap a with
  | Addr4 n => bool_decide (v4 0 n = 127)%Z
  | Addr6 n _ => bool_decide (n = 1)%Z
  | AddrInvalid => false
  end.

Definition IsMulticast (a : Addr) : bool :=
  match Unmap a with
  | Addr4 n => bool_decide (Z.land (v4 0 n) 240 = 224)%Z
  | Addr6 n _ => bool_decide (v6 0 n = 255)%Z
  | AddrInvalid => false
  end.

Definition IsLinkLocalUnicast (a : Addr) : bool :=
  match Unmap a with
  | Addr4 n => bool_decide (v4 0 n = 169)%Z && bool_decide (v4 1 n = 254)%Z
  | Addr6 n _ => bool_decide (Z.land (v6u16 n) 65472 = 65152)%Z
  | AddrInvalid => false
  end.

Definition IsLinkLocalMulticast (a : Addr) : bool :=
  match Unmap a with
  | Addr4 n => bool_decide (v4 0 n = 224)%Z && bool_decide (v4 1 n = 0)%Z && bool_decide (v4 2 n = 0)%Z
  | Addr6 n _ => bool_decide (Z.land (v6u16 n) 65295 = 65282)%Z
  | AddrInvalid => false
  end.

Definition IsPrivate (a : Addr) : bool :=
  match Unmap a with
  | Addr4 n => bool_decide (v4 0 n = 10)%Z ||
      (bool_decide (v4 0 n = 172)%Z && bool_decide (Z.land (v4 1 n) 240 = 16)%Z) ||
      (bool_decide (v4 0 n = 192)%Z && bool_decide (v4 1 n = 168)%Z)
  | Addr6 n _ => bool_decide (Z.land (v6 0 n) 254 = 252)%Z
  | AddrInvalid => false
  end.

(** [netip.Prefix] and its [Contains]: no zone, the same family, and the same
    leading bits. *)
Record Prefix := mkPrefix { prefix_addr : Addr; prefix_bits : Z }.

Definition Contains (p : Prefix) (a : Addr) : bool :=
  match prefix_addr p, a with
  | Addr4 m, Addr4 n => bool_decide (Z.shiftr n (32 - prefix_bits p) = Z.shiftr m (32 - prefix_bits p))%Z
  | Addr6 m "", Addr6 n "" => bool_decide (Z.shiftr n (128 - prefix_bits p) = Z.shiftr m (128 - prefix_bits p))%Z
  | _, _ => false
  end.

Definition ip4 (a b c d : Z) : Z := (((a * 256 + b) * 256 + c) * 256 + d)%Z.

Class NetApi := {
  ParseAddr : string → option Addr;
  ParseAddr_wf h a : ParseAddr h = Some a → wf_addr a;
  AddrString : Addr → string;
  SplitHostPort : string → option (string * string);
  url_Parse : string → option (string * string);
}.

(** * Dial time *)

(** [fd00:ec2::254]. *)
Definition ipv6MetadataAddr : Addr := Addr6 (Z.shiftl 64768 112 + Z.shiftl 3778 96 + 596) "".

Section guard.
Context `{!UnicodeCase, !NetApi}.

(** Go: internal/sink/netguard/dialer.go:213-215 [normalizeHostname] *)
Definition normalizeHostname (host : string) : string := trim ["."%char] (to_lower (trim_space host)).

(** Go: internal/sink/netguard/dialer.go:217-224 [isLocalhostHostname] *)
Definition isLocalhostHostname (normalized : string) : bool :=
  bool_decide (normalized ∈ ["localhost"; "localhost.localdomain"]) || has_suffix ".localhost" normalized.

(** Go: internal/sink/netguard/dialer.go:226-234 [isMetadataHostnameNormalized] *)
Definition isMetadataHostnameNormalized (normalized : string) : bool :=
  bool_decide (normalized ∈ ["metadata"; "metadata.google.internal"; "instance-data"; "instance-data.ec2.internal"]).

(** Go: internal/sink/netguard/dialer.go:209-211 [isMetadataHostname] *)
Definition isMetadataHostname (host : string) : bool := isMetadataHostnameNormalized (normalizeHostname host).

(** [true] is acceptance.
    Go: internal/sink/netguard/dialer.go:200-207 [validateHostname] *)
Definition validateHostname (host : string) : bool :=
  let normalized := normalizeHostname host in
  negb (isLocalhostHostname normalized || isMetadataHostnameNormalized normalized).

(** [true] is acceptance.
    Go: internal/sink/netguard/dialer.go:236-260 [validateAddress] *)
Definition validateAddress (address : Addr) (allowPrivate : bool) : bool :=
  let address := Unmap address in
  if negb (IsValid address) || IsUnspecified address || IsLoopback address || IsLinkLocalUnicast address ||
     IsLinkLocalMulticast address || IsMulticast address || bool_decide (WithZone address "" = ipv6MetadataAddr)
  then false
  else if IsPrivate address && negb allowPrivate then false
  else if Is4 address &&
          (Contains (mkPrefix (Addr4 (ip4 100 64 0 0)) 10) address || Contains (mkPrefix (Addr4 (ip4 198 18 0 0)) 15) address)
  then false
  else true.

(** Go: internal/sink/netguard/dialer.go:59-79 [Dialer] *)
Record Dialer := mkDialer {
  allowPrivate : bool;
  allowPrivateSinks : bool;
}.

(** Go: internal/sink/netguard/dialer.go:156-162 [validateAddress] *)
Definition dialer_validateAddress (d : Dialer) (address : Addr) : bool :=
  if allowPrivate d then true else validateAddress address (allowPrivateSinks d).

(** Go: internal/sink/netguard/dialer.go:189-198 [networkForLookup] *)
Definition networkForLookup (network : string) : string :=
  if decide (network = "tcp4" ∨ network = "udp4") then "ip4"
  else if decide (network = "tcp6" ∨ network = "udp6") then "ip6" else "ip".

(** [LookupNetIP] is the answer of the resolver at this dial.
    Go: internal/sink/netguard/dialer.go:173-187 [resolve] *)
Definition resolve (LookupNetIP : string → string → option (list Addr)) (network host : string) : option (list Addr) :=
  match ParseAddr host with
  | Some literal => Some [Unmap literal]
  | None =>
      match LookupNetIP (networkForLookup network) host with
      | Some (a :: l) => Some (a :: l)
      | _ => None
      end
  end.

(** Go: internal/sink/netguard/dialer.go:123-154 [Resolve] *)
Definition Resolve (d : Dialer) (LookupNetIP : string → string → option (list Addr)) (network address : string) :
    option (list Addr * string * string) :=
  match SplitHostPort address with
  | None => None
  | Some (host, port) =>
      let host := trim_suffix "]" (trim_prefix "[" host) in
      if negb (validateHostname host) && (negb (allowPrivate d) || isMetadataHostname host) then None
      else
        addresses ← resolve LookupNetIP network host;
        if forallb (dialer_validateAddress d) addresses then Some (addresses, port, host) else None
  end.

(** The loop over the checked addresses; [dial] is the outcome of the [i]-th
    socket. *)
Fixpoint dial_all (dial : nat → bool) (port : string) (i : nat) (addresses : list Addr) : list (Addr * string) * bool :=
  match addresses with
  | [] => ([], false)
  | a :: addresses =>
      if dial i then ([(a, port)], true)
      else let '(l, ok) := dial_all dial port (S i) addresses in ((a, port) :: l, ok)
  end.

(** The addresses dialled, in order, and whether a connection was made.
    Go: internal/sink/netguard/dialer.go:104-121 [DialContext] *)
Definition DialContext (d : Dialer) (LookupNetIP : string → string → option (list Addr)) (dial : nat → bool)
    (network address : string) : list (Addr * string) * bool :=
  match Resolve d LookupNetIP network address with
  | None => ([], false)
  | Some (addresses, port, _) => dial_all dial port 0 addresses
  end.
End guard.

(** * Admission *)
Section admission.
Context `{!UnicodeCase, !NetApi}.

(** Go: internal/validation/endpoint_guard.go:54-62 [denyCIDRs] *)
Definition denyCIDRs : list Prefix :=
  [mkPrefix (Addr4 (ip4 127 0 0 0)) 8; mkPrefix (Addr4 (ip4 169 254 0 0)) 16; mkPrefix (Addr4 (ip4 100 64 0 0)) 10;
   mkPrefix (Addr4 (ip4 198 18 0 0)) 15; mkPrefix (Addr6 1 "") 128; mkPrefix (Addr6 (Z.shiftl 65152 112) "") 10;
   mkPrefix ipv6MetadataAddr 128].

(** Go: internal/validation/endpoint_guard.go:64-71 [denyHostnames] *)
Definition denyHostnames : list string :=
  ["localhost"; "localhost.localdomain"; "metadata"; "metadata.google.internal"; "instance-data";
   "instance-data.ec2.internal"].

(** Go: internal/validation/endpoint_guard.go:222-245 [isDeniedIP] *)
Definition isDeniedIP (allowPrivateSinks : bool) (addr : Addr) : bool :=
  if IsLoopback addr || IsLinkLocalUnicast addr || IsLinkLocalMulticast addr || IsUnspecified addr then true
  else if IsPrivate addr && negb allowPrivateSinks then true
  else existsb (λ prefix, Contains prefix (WithZone addr "")) denyCIDRs.

(** Go: internal/validation/endpoint_guard.go:202-220 [validateHost] *)
Definition validateHost (allowPrivateSinks : bool) (host : string) (path : list path_elem) : ErrorList :=
  let normalized := trim ["."%char] (to_lower (trim_space host)) in
  if decide (normalized = "") then []
  else if bool_decide (normalized ∈ denyHostnames) || has_suffix ".localhost" normalized
  then [mkFieldError FieldForbidden path]
  else match ParseAddr normalized with
       | None => []
       | Some addr => if isDeniedIP allowPrivateSinks addr then [mkFieldError FieldForbidden path] else []
       end.

(** A parsed URL is its scheme and its host name.
    Go: internal/validation/endpoint_guard.go:165-182 [validateURLTarget] *)
Definition validateURLTarget (allowPrivateSinks : bool) (raw : string) (path : list path_elem) : ErrorList :=
  let raw := trim_space raw in
  if decide (raw = "") then []
  else match url_Parse raw with
       | None => []
       | Some (scheme, host) =>
           if decide (scheme = "") then []
           else if equal_fold scheme "file" then [mkFieldError FieldForbidden path]
           else if decide (host = "") then [] else validateHost allowPrivateSinks host path
       end.

(** Go: internal/validation/endpoint_guard.go:133-147 [validateObjectStoreEndpoint] *)
Definition validateObjectStoreEndpoint (allowPrivateSinks : bool) (raw : string) (path : list path_elem) : ErrorList :=
  let raw := trim_space raw in
  if decide (raw = "") then []
  else match url_Parse raw with
       | None => []
       | Some (scheme, _) =>
           if decide (scheme = "") then []
           else if equal_fold scheme "s3" || equal_fold scheme "gs" then []
           else validateURLTarget allowPrivateSinks raw path
       end.

(** Go: internal/validation/endpoint_guard.go:247-256 [parseGitSCPHost] *)
Definition parseGitSCPHost (raw : string) : string :=
  match cut_byte ":" raw with
  | None | Some ("", _) => ""
  | Some (lhs, _) =>
      if has_byte "/" lhs then ""
      else trim_space (match cut_last_byte "@" lhs with Some (_, host) => host | None => lhs end)
  end.

(** Go: internal/validation/endpoint_guard.go:149-163 [validateGitRemoteTarget] *)
Definition validateGitRemoteTarget (allowPrivateSinks : bool) (raw : string) (path : list path_elem) : ErrorList :=
  let raw := trim_space raw in
  if decide (raw = "") then []
  else if contains raw "://" then validateURLTarget allowPrivateSinks raw path
  else
    let host := parseGitSCPHost raw in
    if decide (host = "") then [] else validateHost allowPrivateSinks host path.

(** Go: internal/validation/endpoint_guard.go:258-279 [hostFromBroker] *)
Definition hostFromBroker (raw : string) : string * bool :=
  match SplitHostPort raw with
  | Some (host, _) => (trim ["["%char; "]"%char] host, true)
  | None =>
      match ParseAddr raw with
      | Some addr => (AddrString addr, true)
      | None =>
          if decide (count_byte ":" raw = 0) then (raw, true)
          else match cut_last_byte ":" raw with
               | Some (String c l, _) => (String c l, true)
               | _ => (raw, false)
               end
      end
  end.

(** Go: internal/validation/endpoint_guard.go:184-200 [validateBrokerHost] *)
Definition validateBrokerHost (allowPrivateSinks : bool) (raw : string) (path : list path_elem) : ErrorList :=
  let host := trim_space raw in
  if decide (host = "") then []
  else
    let host :=
      if contains host "://" then match url_Parse host with Some (_, h) => h | None => host end
      else match hostFromBroker host with (h, true) => h | (_, false) => host end in
    validateHost allowPrivateSinks host path.
End admission.

(** * What the guards deny, as ranges *)

(** A span of addresses. *)
Definition span (lo : Z) (size : Z) (n : Z) : Prop := (lo ≤ n < lo + size)%Z.

Definition private4 (n : Z) : Prop :=
  span (ip4 10 0 0 0) (2 ^ 24) n ∨ span (ip4 172 16 0 0) (2 ^ 20) n ∨ span (ip4 192 168 0 0) (2 ^ 16) n.

(** Never dialled: unspecified, loopback, link-local, multicast, carrier-grade
    NAT, benchmark; and RFC 1918 unless private sinks are allowed. *)
Definition forbidden4 (allow : bool) (n : Z) : Prop :=
  n = 0%Z ∨ span (ip4 127 0 0 0) (2 ^ 24) n ∨ span (ip4 169 254 0 0) (2 ^ 16) n ∨
  span (ip4 224 0 0 0) (2 ^ 28) n ∨ span (ip4 100 64 0 0) (2 ^ 22) n ∨ span (ip4 198 18 0 0) (2 ^ 17) n ∨
  (allow = false ∧ private4 n).

(** The same for IPv6, with the metadata address and unique local addresses. *)
Definition forbidden6 (allow : bool) (n : Z) (zone : string) : Prop :=
  (n = 0%Z ∧ zone = "") ∨ n = 1%Z ∨ span (65152 * 2 ^ 112) (2 ^ 118) n ∨ span (255 * 2 ^ 120) (2 ^ 120) n ∨
  Addr6 n "" = ipv6MetadataAddr ∨ (allow = false ∧ span (252 * 2 ^ 120) (2 ^ 121) n).

Definition forbidden (allow : bool) (a : Addr) : Prop :=
  match Unmap a with
  | AddrInvalid => True
  | Addr4 n => forbidden4 allow n
  | Addr6 n zone => forbidden6 allow n zone
  end.

(** * Lemmas *)

Lemma v4_eq i n : (0 ≤ n < 2 ^ 32)%Z → (0 ≤ i ≤ 3)%Z → v4 i n = ((n / 2 ^ (8 * (3 - i))) `mod` 256)%Z.
Proof.
  intros Hn Hi. unfold v4. rewrite Z.shiftr_div_pow2 by lia.
  change 255%Z with (Z.ones 8). by rewrite Z.land_ones by lia.
Qed.

Lemma v4_range i n : (0 ≤ v4 i n < 256)%Z.
Proof.
  unfold v4. change 255%Z with (Z.ones 8). rewrite Z.land_ones by lia. apply Z.mod_pos_bound. lia.
Qed.

Lemma v6_range i n : (0 ≤ v6 i n < 256)%Z.
Proof.
  unfold v6. change 255%Z with (Z.ones 8). rewrite Z.land_ones by lia. apply Z.mod_pos_bound. lia.
Qed.

Lemma v6u16_range n : (0 ≤ v6u16 n < 65536)%Z.
Proof.
  unfold v6u16. change 65535%Z with (Z.ones 16). rewrite Z.land_ones by lia. apply Z.mod_pos_bound. lia.
Qed.

(** Masking off low bits keeps the block an integer lies in. *)
Lemma land_high x k m :
  (0 ≤ k)%Z → (0 ≤ m)%Z → (0 ≤ x < 2 ^ (k + m))%Z → Z.land x (Z.shiftl (Z.ones m) k) = (2 ^ k * (x / 2 ^ k))%Z.
Proof.
  intros Hk Hm Hx. rewrite <- Z.shiftr_div_pow2, Z.mul_comm, <- Z.shiftl_mul_pow2 by done.
  apply Z.bits_inj'. intros i Hi. rewrite Z.land_spec, !Z.shiftl_spec by done.
  destruct (decide (i < k)%Z); [rewrite !(Z.testbit_neg_r _ (i - k)) by lia; apply andb_false_r|].
  rewrite Z.shiftr_spec, Z.sub_add, Z.testbit_ones_nonneg by lia.
  destruct (decide (i < k + m)%Z); [rewrite (proj2 (Z.ltb_lt _ _)) by lia; apply andb_true_r|].
  rewrite <- (Z.mod_small x (2 ^ (k + m))), Z.mod_pow2_bits_high by lia. done.
Qed.

Lemma land_240 x : (0 ≤ x < 256)%Z → Z.land x 240 = (16 * (x / 16))%Z.
Proof. apply (land_high x 4 4); lia. Qed.

Lemma land_254 x : (0 ≤ x < 256)%Z → Z.land x 254 = (2 * (x / 2))%Z.
Proof. apply (land_high x 1 7); lia. Qed.

Lemma land_65472 x : (0 ≤ x < 65536)%Z → Z.land x 65472 = (64 * (x / 64))%Z.
Proof. apply (land_high x 6 10); lia. Qed.

Lemma land_65295 x : (0 ≤ x < 65536)%Z → Z.land x 65295 = 65282%Z → (x / 256 = 255)%Z.
Proof.
  intros Hx He. pose proof (land_high x 8 8 ltac:(lia) ltac:(lia) Hx) as Hh.
  change (Z.shiftl (Z.ones 8) 8) with 65280%Z in Hh. change (2 ^ 8)%Z with 256%Z in Hh.
  assert (Z.land x 65280 = Z.land (Z.land x 65295) 65280) as Hl by (by rewrite <- Z.land_assoc).
  rewrite Hl, He in Hh. change (Z.land 65282 65280) with 65280%Z in Hh. lia.
Qed.

Ltac div_lia := Z.to_euclidean_division_equations; lia.

Section ranges4.
Variable n : Z.
Hypothesis Hn : (0 ≤ n < 2 ^ 32)%Z.

Lemma v4_0 : v4 0 n = (n / 2 ^ 24)%Z.
Proof. rewrite v4_eq by lia. change (8 * (3 - 0))%Z with 24%Z. apply Z.mod_small. div_lia. Qed.

Lemma v4_1 : v4 1 n = ((n / 2 ^ 16) `mod` 256)%Z.
Proof. by rewrite v4_eq by lia. Qed.

Lemma loopback4 : IsLoopback (Addr4 n) = true ↔ span (ip4 127 0 0 0) (2 ^ 24) n.
Proof. unfold IsLoopback, span, ip4. cbn [Unmap]. rewrite bool_decide_eq_true, v4_0. div_lia. Qed.

Lemma linklocal4 : IsLinkLocalUnicast (Addr4 n) = true ↔ span (ip4 169 254 0 0) (2 ^ 16) n.
Proof.
  unfold IsLinkLocalUnicast, span, ip4. cbn [Unmap]. rewrite andb_true_iff, !bool_decide_eq_true, v4_0, v4_1. div_lia.
Qed.

Lemma multicast4 : IsMulticast (Addr4 n) = true ↔ span (ip4 224 0 0 0) (2 ^ 28) n.
Proof.
  unfold IsMulticast, span, ip4. cbn [Unmap]. rewrite bool_decide_eq_true, land_240 by apply v4_range.
  rewrite v4_0. div_lia.
Qed.

Lemma llmulticast4 : IsLinkLocalMulticast (Addr4 n) = true → IsMulticast (Addr4 n) = true.
Proof.
  unfold IsLinkLocalMulticast, IsMulticast. cbn [Unmap].
  rewrite !andb_true_iff, !bool_decide_eq_true. by intros [[-> _] _].
Qed.

Lemma private4_iff : IsPrivate (Addr4 n) = true ↔ private4 n.
Proof.
  unfold IsPrivate, private4, span, ip4. cbn [Unmap].
  rewrite !orb_true_iff, !andb_true_iff, !bool_decide_eq_true, land_240 by apply v4_range.
  rewrite v4_0, v4_1. div_lia.
Qed.

Lemma contains4 m bits :
  (0 ≤ bits ≤ 32)%Z → (m `mod` 2 ^ (32 - bits) = 0)%Z →
  Contains (mkPrefix (Addr4 m) bits) (Addr4 n) = true ↔ span m (2 ^ (32 - bits)) n.
Proof.
  intros Hb Hm. unfold Contains, span. cbn [prefix_addr prefix_bits].
  rewrite bool_decide_eq_true, !Z.shiftr_div_pow2 by lia.
  pose proof (Z.pow_pos_nonneg 2 (32 - bits) ltac:(lia) ltac:(lia)) as Hp.
  generalize dependent (2 ^ (32 - bits))%Z. intros k Hm Hp.
  pose proof (Z.div_mod n k ltac:(lia)). pose proof (Z.mod_pos_bound n k Hp).
  pose proof (Z.div_mod m k ltac:(lia)). split; [intros; nia|].
  intros Hs. symmetry. apply (Z.div_unique_pos n k (m / k) (n - m)); nia.
Qed.
End ranges4.

Section ranges6.
Variable n : Z.
Hypothesis Hn : (0 ≤ n < 2 ^ 128)%Z.

Lemma v6_0 : v6 0 n = (n / 2 ^ 120)%Z.
Proof.
  unfold v6. rewrite Z.shiftr_div_pow2 by lia. change 255%Z with (Z.ones 8). rewrite Z.land_ones by lia.
  change (8 * (15 - 0))%Z with 120%Z. apply Z.mod_small. div_lia.
Qed.

Lemma v6u16_eq : v6u16 n = (n / 2 ^ 112)%Z.
Proof.
  unfold v6u16. rewrite Z.shiftr_div_pow2 by lia. change 65535%Z with (Z.ones 16). rewrite Z.land_ones by lia.
  apply Z.mod_small. div_lia.
Qed.

Lemma linklocal6 zone :
  Is4In6 (Addr6 n zone) = false → IsLinkLocalUnicast (Addr6 n zone) = true ↔ span (65152 * 2 ^ 112) (2 ^ 118) n.
Proof.
  intros Hm. unfold IsLinkLocalUnicast, span. cbn [Unmap]. rewrite Hm, bool_decide_eq_true.
  rewrite land_65472 by apply v6u16_range. rewrite v6u16_eq. div_lia.
Qed.

Lemma multicast6 zone :
  Is4In6 (Addr6 n zone) = false → IsMulticast (Addr6 n zone) = true ↔ span (255 * 2 ^ 120) (2 ^ 120) n.
Proof.
  intros Hm. unfold IsMulticast, span. cbn [Unmap]. rewrite Hm, bool_decide_eq_true, v6_0. div_lia.
Qed.

Lemma llmulticast6 zone :
  IsLinkLocalMulticast (Addr6 n zone) = true → Is4In6 (Addr6 n zone) = false → IsMulticast (Addr6 n zone) = true.
Proof.
  intros Hl Hm. unfold IsLinkLocalMulticast, IsMulticast in *. cbn [Unmap] in *. rewrite Hm in *.
  apply bool_decide_eq_true in Hl. apply bool_decide_eq_true. rewrite v6_0.
  apply land_65295 in Hl; [|apply v6u16_range]. rewrite v6u16_eq in Hl. div_lia.
Qed.

Lemma private6_iff zone :
  Is4In6 (Addr6 n zone) = false → IsPrivate (Addr6 n zone) = true ↔ span (252 * 2 ^ 120) (2 ^ 121) n.
Proof.
  intros Hm. unfold IsPrivate, span. cbn [Unmap]. rewrite Hm, bool_decide_eq_true.
  rewrite land_254 by apply v6_range. rewrite v6_0. div_lia.
Qed.
End ranges6.

Section policy.
Context `{!UnicodeCase, !NetApi}.

Lemma Unmap_idemp a : Unmap (Unmap a) = Unmap a.
Proof.
  destruct a as [|n|n zone]; [done..|]. cbn [Unmap]. destruct (Is4In6 (Addr6 n zone)) eqn:Hm; [done|].
  cbn [Unmap]. by rewrite Hm.
Qed.

Lemma Unmap_wf a : wf_addr a → wf_addr (Unmap a).
Proof.
  destruct a as [|n|n zone]; [done..|]. cbn [Unmap]. destruct (Is4In6 _); [|done]. intros _. cbn [wf_addr].
  change (2 ^ 32 - 1)%Z with (Z.ones 32). rewrite Z.land_ones by lia. apply Z.mod_pos_bound. lia.
Qed.

Lemma Unmap_6 a n zone : Unmap a = Addr6 n zone → Is4In6 (Addr6 n zone) = false.
Proof.
  destruct a as [|m|m z]; [done..|]. cbn [Unmap]. destruct (Is4In6 (Addr6 m z)) eqn:Hm; [done|].
  by intros [= <- <-].
Qed.

Lemma guard_true (b c : bool) : (if b then false else c) = true ↔ b ≠ true ∧ c = true.
Proof. destruct b; split; [done|by intros [? _]|done|by intros [_ ?]]. Qed.

Lemma validateAddress_iff_bool a allow :
  validateAddress a allow = true ↔
  let a := Unmap a in
  ¬ (IsValid a = false ∨ IsUnspecified a = true ∨ IsLoopback a = true ∨ IsLinkLocalUnicast a = true ∨
     IsLinkLocalMulticast a = true ∨ IsMulticast a = true ∨ WithZone a "" = ipv6MetadataAddr ∨
     (IsPrivate a = true ∧ allow = false) ∨
     (Is4 a = true ∧ (Contains (mkPrefix (Addr4 (ip4 100 64 0 0)) 10) a = true ∨
                      Contains (mkPrefix (Addr4 (ip4 198 18 0 0)) 15) a = true))).
Proof.
  cbv zeta. unfold validateAddress. rewrite !guard_true, !orb_true_iff, !andb_true_iff, !orb_true_iff.
  rewrite !negb_true_iff, bool_decide_eq_true. tauto.
Qed.

Lemma validateAddress4 allow n :
  (0 ≤ n < 2 ^ 32)%Z → validateAddress (Addr4 n) allow = true ↔ ¬ forbidden4 allow n.
Proof.
  intros Hn. rewrite validateAddress_iff_bool. cbn [Unmap]. unfold forbidden4.
  rewrite (loopback4 n Hn), (linklocal4 n Hn), (multicast4 n Hn), (private4_iff n Hn).
  rewrite (contains4 n (ip4 100 64 0 0) 10), (contains4 n (ip4 198 18 0 0) 15) by (done || lia).
  change (2 ^ (32 - 10))%Z with (2 ^ 22)%Z. change (2 ^ (32 - 15))%Z with (2 ^ 17)%Z.
  pose proof (llmulticast4 n) as Hll. rewrite (multicast4 n Hn) in Hll.
  assert (IsUnspecified (Addr4 n) = true ↔ n = 0%Z) as ->.
  { unfold IsUnspecified. rewrite orb_true_iff, !bool_decide_eq_true. split; [by intros [[= ->]|?]|intros ->; by left]. }
  assert (IsValid (Addr4 n) ≠ false) as Hv by done.
  assert (WithZone (Addr4 n) "" ≠ ipv6MetadataAddr) as Hmd by done.
  assert (Is4 (Addr4 n) = true) as H4 by done. tauto.
Qed.

Lemma validateAddress6 allow n zone :
  (0 ≤ n < 2 ^ 128)%Z → Is4In6 (Addr6 n zone) = false →
  validateAddress (Addr6 n zone) allow = true ↔ ¬ forbidden6 allow n zone.
Proof.
  intros Hn Hm. rewrite validateAddress_iff_bool. cbv zeta.
  assert (Unmap (Addr6 n zone) = Addr6 n zone) as Hu by (cbn [Unmap]; by rewrite Hm). rewrite Hu. unfold forbidden6.
  pose proof (llmulticast6 n Hn zone) as Hll. specialize (λ H, Hll H Hm).
  rewrite (linklocal6 n Hn zone Hm), (multicast6 n Hn zone Hm) in *. rewrite (private6_iff n Hn zone Hm).
  assert (IsLoopback (Addr6 n zone) = true ↔ n = 1%Z) as ->.
  { unfold IsLoopback. rewrite Hu. apply bool_decide_eq_true. }
  assert (IsUnspecified (Addr6 n zone) = true ↔ n = 0%Z ∧ zone = "") as ->.
  { unfold IsUnspecified. rewrite orb_true_iff, !bool_decide_eq_true. split; [by intros [?|[= -> ->]]|].
    intros [-> ->]. by right. }
  assert (IsValid (Addr6 n zone) ≠ false) as Hv by done.
  assert (Is4 (Addr6 n zone) ≠ true) as H4 by done. cbn [WithZone]. tauto.
Qed.

Lemma validateAddress_iff allow a : wf_addr a → validateAddress a allow = true ↔ ¬ forbidden allow a.
Proof.
  intros Hwf%Unmap_wf. unfold forbidden.
  assert (validateAddress a allow = validateAddress (Unmap a) allow) as ->.
  { unfold validateAddress. by rewrite Unmap_idemp. }
  destruct (Unmap a) as [|n|n zone] eqn:Hu; cbn [wf_addr] in Hwf.
  - split; [done|]. intros []. exact I.
  - by apply validateAddress4.
  - apply validateAddress6; [done|]. by eapply Unmap_6.
Qed.

(** The host names the two guards deny are the same. *)
Lemma hostname_denials_agree host :
  bool_decide (normalizeHostname host ∈ denyHostnames) || has_suffix ".localhost" (normalizeHostname host) =
  negb (validateHostname host).
Proof.
  unfold validateHostname, isLocalhostHostname, isMetadataHostnameNormalized. rewrite negb_involutive.
  set (h := normalizeHostname host). destruct (has_suffix ".localhost" h); [by rewrite !orb_true_r|].
  rewrite !orb_false_r. apply eq_true_iff_eq. rewrite orb_true_iff, !bool_decide_eq_true.
  unfold denyHostnames. rewrite !elem_of_cons, !elem_of_nil. tauto.
Qed.

(** A prefix of the IPv6 list holds one address, or the link-local block. *)
Lemma contains6_single m n :
  Contains (mkPrefix (Addr6 m "") 128) (Addr6 n "") = true → n = m.
Proof. unfold Contains. cbn [prefix_addr prefix_bits]. change (128 - 128)%Z with 0%Z. rewrite !Z.shiftr_0_r. apply bool_decide_eq_true. Qed.

Lemma contains6_linklocal n :
  (0 ≤ n < 2 ^ 128)%Z →
  Contains (mkPrefix (Addr6 (Z.shiftl 65152 112) "") 10) (Addr6 n "") = true →
  span (65152 * 2 ^ 112) (2 ^ 118) n.
Proof.
  intros Hn. unfold Contains, span. cbn [prefix_addr prefix_bits].
  rewrite bool_decide_eq_true, !Z.shiftr_div_pow2 by lia.
  change (128 - 10)%Z with 118%Z. change (Z.shiftl 65152 112 / 2 ^ 118)%Z with 1018%Z. div_lia.
Qed.

Lemma denied_cidr6 n :
  (0 ≤ n < 2 ^ 128)%Z →
  existsb (λ prefix, Contains prefix (Addr6 n "")) denyCIDRs = true →
  n = 1%Z ∨ span (65152 * 2 ^ 112) (2 ^ 118) n ∨ Addr6 n "" = ipv6MetadataAddr.
Proof.
  intros Hn (p & Hp & Hc)%existsb_exists. unfold denyCIDRs in Hp. apply list_elem_of_In in Hp.
  repeat (apply elem_of_cons in Hp as [->|Hp]); try (by discriminate Hc); [| | |by apply elem_of_nil in Hp].
  - left. by apply contains6_single in Hc.
  - right; left. by apply contains6_linklocal.
  - right; right. apply contains6_single in Hc. by rewrite Hc.
Qed.

Lemma denied_cidr4 n :
  (0 ≤ n < 2 ^ 32)%Z → existsb (λ prefix, Contains prefix (Addr4 n)) denyCIDRs = true →
  span (ip4 127 0 0 0) (2 ^ 24) n ∨ span (ip4 169 254 0 0) (2 ^ 16) n ∨
  span (ip4 100 64 0 0) (2 ^ 22) n ∨ span (ip4 198 18 0 0) (2 ^ 17) n.
Proof.
  intros Hn (p & Hp & Hc)%existsb_exists. unfold denyCIDRs in Hp. apply list_elem_of_In in Hp.
  repeat (apply elem_of_cons in Hp as [->|Hp]); try (by discriminate Hc); [| | | |by apply elem_of_nil in Hp];
    (apply contains4 in Hc; [|lia|done]);
    [left|right; left|right; right; left|right; right; right]; exact Hc.
Qed.

(** An address of an admission prefix is forbidden at dial time. *)
Lemma denied_cidr_forbidden allow a :
  wf_addr a → existsb (λ prefix, Contains prefix (WithZone a "")) denyCIDRs = true → forbidden allow a.
Proof.
  intros Hwf Hc. unfold forbidden. destruct a as [|n|n zone]; [done| |]; cbn [WithZone wf_addr] in *.
  - apply (denied_cidr4 n Hwf) in Hc. cbn [Unmap]. unfold forbidden4. tauto.
  - apply (denied_cidr6 n) in Hc; [|done]. cbn [Unmap]. destruct (Is4In6 (Addr6 n zone)) eqn:Hm.
    + apply bool_decide_eq_true in Hm. rewrite Z.shiftr_div_pow2 in Hm by lia. exfalso.
      destruct Hc as [->|[Hs|[= ->]]]; [done| |by vm_compute in Hm]. unfold span in Hs. div_lia.
    + unfold forbidden6. tauto.
Qed.

(** The admission list is a part of the dial-time list. *)
Lemma denied_not_dialled allow a : wf_addr a → isDeniedIP allow a = true → validateAddress a allow = false.
Proof.
  intros Hwf Hd. apply not_true_iff_false. intros Hv. unfold isDeniedIP in Hd.
  pose proof (proj1 (validateAddress_iff allow a Hwf) Hv) as Hnf.
  rewrite validateAddress_iff_bool in Hv. cbv zeta in Hv.
  unfold IsLoopback, IsLinkLocalUnicast, IsLinkLocalMulticast, IsPrivate in Hv. rewrite !Unmap_idemp in Hv.
  fold (IsLoopback a) (IsLinkLocalUnicast a) (IsLinkLocalMulticast a) (IsPrivate a) in Hv.
  assert (IsUnspecified a = true → IsUnspecified (Unmap a) = true) as Hu.
  { unfold IsUnspecified at 1. rewrite orb_true_iff, !bool_decide_eq_true. by intros [->| ->]. }
  destruct (IsLoopback a || _ || _ || _) eqn:Hf.
  { rewrite !orb_true_iff in Hf. tauto. }
  destruct (IsPrivate a && negb allow) eqn:Hp.
  { apply andb_prop in Hp as [? ?%negb_true_iff]. tauto. }
  by apply Hnf, denied_cidr_forbidden.
Qed.

(** What a dial resolves to: the answer of this very dial, every address of it
    checked. *)
Lemma Resolve_spec d lookup network address addresses port host :
  Resolve d lookup network address = Some (addresses, port, host) →
  (∃ h, SplitHostPort address = Some (h, port)) ∧
  resolve lookup network host = Some addresses ∧ Forall (λ a, dialer_validateAddress d a = true) addresses ∧
  (allowPrivate d = false → validateHostname host = true).
Proof.
  unfold Resolve. destruct (SplitHostPort address) as [[h p]|]; [|done].
  set (h' := trim_suffix _ _). destruct (negb (validateHostname h') && _) eqn:Hh; [done|].
  destruct (resolve lookup network h') as [l|] eqn:Hl; cbn [mbind option_bind]; [|done].
  destruct (forallb _ l) eqn:Hf; [|done]. intros [= <- <- <-]. split_and!; [by eexists|done| |].
  - apply Forall_forall. intros a Ha. rewrite forallb_forall in Hf. apply Hf. by apply list_elem_of_In.
  - intros Hd. rewrite Hd in Hh. simpl in Hh. rewrite andb_true_r in Hh. by destruct (validateHostname h').
Qed.

Lemma dial_all_sub dial port i addresses a p :
  (a, p) ∈ (dial_all dial port i addresses).1 → a ∈ addresses ∧ p = port.
Proof.
  revert i. induction addresses as [|b l IH]; intros i; simpl; [by intros ?%elem_of_nil|].
  destruct (dial i); [by intros [= -> ->]%list_elem_of_singleton; split; [left|]|].
  specialize (IH (S i)). destruct (dial_all dial port (S i) l) as [l' ok]. simpl in *.
  intros [[= -> ->]|Hin]%elem_of_cons; [by split; [left|]|]. destruct (IH Hin). split; [by right|done].
Qed.

(** ** Properties *)

(** C14. Only permitted addresses are dialled: outside the integration build, each
    address a sink connection tries was in the answer of this dial's own lookup (or
    is the literal in the endpoint), the host name is not a denied one, and the
    address, unmapped, lies outside every forbidden range; if one address of an
    answer is forbidden, none is dialled. *)
Theorem guard_dials_only_permitted d lookup dial network address :
  allowPrivate d = false →
  (∀ net host l, lookup net host = Some l → Forall wf_addr l) →
  let '(attempts, ok) := DialContext d lookup dial network address in
  (∀ a port, (a, port) ∈ attempts →
     ∃ host addresses, resolve lookup network host = Some addresses ∧ a ∈ addresses ∧
       Forall (λ a', ¬ forbidden (allowPrivateSinks d) a') addresses ∧ validateHostname host = true) ∧
  (attempts = [] → ok = false).
Proof.
  intros Hd Hwf. destruct (DialContext d lookup dial network address) as [attempts ok] eqn:Hdial.
  unfold DialContext in Hdial. destruct (Resolve d lookup network address) as [[[addresses port] host]|] eqn:Hr.
  2: { injection Hdial as <- <-. split; [|done]. by intros a p ?%elem_of_nil. }
  apply Resolve_spec in Hr as (_ & Hl & Hall & Hh). specialize (Hh Hd). split.
  - intros a p Hin. assert ((a, p) ∈ (dial_all dial port 0 addresses).1) as Hin' by (by rewrite Hdial).
    apply dial_all_sub in Hin' as [Ha _]. exists host, addresses. split_and!; [done|done| |done].
    assert (Forall wf_addr addresses) as Hwfa.
    { unfold resolve in Hl. destruct (ParseAddr host) as [lit|] eqn:Hlit.
      - injection Hl as <-. apply Forall_singleton, Unmap_wf. by eapply ParseAddr_wf.
      - destruct (lookup _ host) as [[|x l]|] eqn:Hlk; try done. injection Hl as <-. by eapply Hwf. }
    rewrite Forall_forall in *. intros a' Ha'. apply validateAddress_iff; [by apply Hwfa|].
    specialize (Hall a' Ha'). unfold dialer_validateAddress in Hall. by rewrite Hd in Hall.
  - intros ->. destruct addresses as [|b l]; simpl in Hdial; [by simplify_eq|].
    destruct (dial 0); [done|]. by destruct (dial_all dial port 1 l).
Qed.

(** Admission rejects no endpoint the dialer would reach: with the same
    setting of the private-sink switch, a host that admission forbids has a denied
    name or is a literal address the dialer refuses. *)
Theorem admission_no_stricter_than_dial allow host path :
  validateHost allow host path ≠ [] →
  validateHostname host = false ∨
  ∃ a, ParseAddr (normalizeHostname host) = Some a ∧ validateAddress a allow = false.
Proof.
  unfold validateHost. fold (normalizeHostname host). case_decide; [done|].
  rewrite hostname_denials_agree. destruct (validateHostname host); [|by left]. simpl.
  destruct (ParseAddr (normalizeHostname host)) as [a|] eqn:Ha; [|done].
  destruct (isDeniedIP allow a) eqn:Hden; [|done]. intros _. right. exists a. split; [done|].
  apply denied_not_dialled; [by eapply ParseAddr_wf|done].
Qed.
End policy.

(** * Concrete dials *)

(** Parsers that know a handful of texts. *)
Definition demo_parse (h : string) : option Addr :=
  if decide (h = "127.0.0.1") then Some (Addr4 (ip4 127 0 0 1)) else None.

Lemma demo_parse_wf h a : demo_parse h = Some a → wf_addr a.
Proof. unfold demo_parse. case_decide; [|done]. intros [= <-]. unfold wf_addr, ip4. lia. Qed.

Definition demo_net : NetApi := {|
  ParseAddr := demo_parse;
  ParseAddr_wf := demo_parse_wf;
  AddrString _ := "127.0.0.1";
  SplitHostPort s := cut_byte ":" s;
  url_Parse _ := None;
|}.

Definition demo_lookup (network host : string) : option (list Addr) := Some [Addr4 (ip4 93 184 216 34)].

Lemma demo_lookup_wf net host l : demo_lookup net host = Some l → Forall wf_addr l.
Proof. intros [= <-]. apply Forall_singleton. unfold wf_addr, ip4. lia. Qed.

Lemma guard_dials_only_permitted_witness :
  let _ := ascii_only_case in let _ := demo_net in
  DialContext (mkDialer false false) demo_lookup (λ _, true) "tcp" "git.example.com:443" =
    ([(Addr4 (ip4 93 184 216 34), "443")], true) ∧
  ∃ host addresses, resolve demo_lookup "tcp" host = Some addresses ∧ Addr4 (ip4 93 184 216 34) ∈ addresses ∧
    Forall (λ a', ¬ forbidden false a') addresses ∧ validateHostname host = true.
Proof.
  intros U N. split; [vm_compute; reflexivity|].
  pose proof (guard_dials_only_permitted (mkDialer false false) demo_lookup (λ _, true) "tcp" "git.example.com:443"
    eq_refl demo_lookup_wf) as Hg.
  exact (proj1 Hg (Addr4 (ip4 93 184 216 34)) "443" (list_elem_of_here _ _)).
Defined.

Lemma admission_no_stricter_than_dial_witness :
  let _ := ascii_only_case in let _ := demo_net in
  validateHostname "127.0.0.1" = false ∨
  ∃ a, ParseAddr (normalizeHostname "127.0.0.1") = Some a ∧ validateAddress a true = false.
Proof.
  intros U N. apply (admission_no_stricter_than_dial true "127.0.0.1" []). vm_compute. discriminate.
Defined.

(** The converse fails: a multicast address and an IPv4-mapped carrier-grade NAT
    address pass admission and are refused only when dialled. *)
Example admission_laxer_than_dial :
  let multicast := Addr4 (ip4 239 1 1 1) in
  let mapped := Addr6 (65535 * 2 ^ 32 + ip4 100 64 0 1) "" in
  isDeniedIP false multicast = false ∧ validateAddress multicast false = false ∧
  isDeniedIP false mapped = false ∧ validateAddress mapped false = false.
Proof. repeat split; vm_compute; reflexivity. Qed.

(** The unspecified address with a zone passes both guards: [IsUnspecified]
    compares the whole address, zone included. *)
Example zoned_unspecified_passes :
  isDeniedIP false (Addr6 0 "eth0") = false ∧ validateAddress (Addr6 0 "eth0") false = true ∧
  validateAddress (Addr6 0 "") false = false.
Proof. repeat split; vm_compute; reflexivity. Qed.
