(* ===== verification/GoTemplate.v ===== *)
(** Text substitution of the standard library as the path code uses it:
    [strings.NewReplacer] and the [regexp] replacements of placeholders and of
    runs of characters. The patterns of the program are all of these shapes; each
    is matched leftmost-first and its classes are ASCII, so byte positions and
    rune positions agree. *)

From S2P Require Import Prelude GoStrings.

Implicit Types (s t : string) (c : ascii).

(** * [strings.NewReplacer] *)

(** The first pair, in argument order, whose key starts the string. *)
Definition replacer_hit (pairs : list (string * string)) s : option (string * string) :=
  snd <$> list_find (λ kv, has_prefix kv.1 s = true) pairs.

(** [skip] bytes of a replaced key are still to be passed over. *)
Fixpoint replacer_go (pairs : list (string * string)) s (skip : nat) : string :=
  match s with
  | "" => ""
  | String c s' =>
      match skip with
      | S k => replacer_go pairs s' k
      | 0 =>
          match replacer_hit pairs s with
          | Some (k, v) => v +:+ replacer_go pairs s' (pred (String.length k))
          | None => String c (replacer_go pairs s' 0)
          end
      end
  end.

(** [strings.NewReplacer(pairs...).Replace(s)] for non-empty keys. *)
Definition replacer (pairs : list (string * string)) s : string := replacer_go pairs s 0.

Example replacer_example :
  replacer [("{namespace}", "ns"); ("{name}", "{namespace}")] "a/{namespace}/{name}.{x}" = "a/ns/{namespace}.{x}".
Proof. reflexivity. Qed.

(** * Placeholders: the pattern [\{([class]+)\}] *)

Fixpoint span_class (cls : ascii → bool) s : string * string :=
  match s with
  | "" => ("", "")
  | String c s' => if cls c then let '(a, b) := span_class cls s' in (String c a, b) else ("", s)
  end.

(** The name of the placeholder the string starts with. *)
Definition placeholder_at (cls : ascii → bool) s : option string :=
  match s with
  | String "{" s' =>
      let '(name, rest) := span_class cls s' in
      if decide (name = "") then None
      else match rest with String "}" _ => Some name | _ => None end
  | _ => None
  end.

(** [ReplaceAllStringFunc]: [f] maps the name of a placeholder to its text, or
    leaves the placeholder as it stands. *)
Fixpoint expand_go (cls : ascii → bool) (f : string → option string) s (skip : nat) : string :=
  match s with
  | "" => ""
  | String c s' =>
      match skip with
      | S k => expand_go cls f s' k
      | 0 =>
          match placeholder_at cls s with
          | Some name => default ("{" +:+ name +:+ "}") (f name) +:+ expand_go cls f s' (S (String.length name))
          | None => String c (expand_go cls f s' 0)
          end
      end
  end.

Definition expand (cls : ascii → bool) (f : string → option string) s : string := expand_go cls f s 0.

(** [FindAllStringSubmatch]: the names of the placeholders, in order. *)
Fixpoint placeholders_go (cls : ascii → bool) s (skip : nat) : list string :=
  match s with
  | "" => []
  | String c s' =>
      match skip with
      | S k => placeholders_go cls s' k
      | 0 => match placeholder_at cls s with
             | Some name => name :: placeholders_go cls s' (S (String.length name))
             | None => placeholders_go cls s' 0
             end
      end
  end.

Definition placeholders (cls : ascii → bool) s : list string := placeholders_go cls s 0.

Definition is_lower (c : ascii) : bool := let n := nat_of_ascii c in (97 <=? n) && (n <=? 122).
Definition is_upper (c : ascii) : bool := let n := nat_of_ascii c in (65 <=? n) && (n <=? 90).
Definition is_letter (c : ascii) : bool := is_lower c || is_upper c.

Example expand_example :
  expand is_letter (λ n, if decide (n = "kind") then Some "pod" else None) "{{kind}/{Xy}/{}-{kind" = "{pod/{Xy}/{}-{kind" ∧
  placeholders is_letter "{{kind}/{Xy}/{}-{kind" = ["kind"; "Xy"].
Proof. by vm_compute. Qed.

(** * Runs of characters *)

(** [[class]+] replaced by [new]; [inrun] when the previous byte was replaced. *)
Fixpoint replace_runs (cls : ascii → bool) (new : string) (inrun : bool) s : string :=
  match s with
  | "" => ""
  | String c s' =>
      if cls c then (if inrun then "" else new) +:+ replace_runs cls new true s'
      else String c (replace_runs cls new false s')
  end.

(** [\.\.+] replaced by [new]: two or more dots. *)
Fixpoint collapse_dots_go (new : string) (inrun : bool) s : string :=
  match s with
  | "" => ""
  | String "." s' =>
      if inrun then collapse_dots_go new true s'
      else match s' with
           | String "." _ => new +:+ collapse_dots_go new true s'
           | _ => String "." (collapse_dots_go new false s')
           end
  | String c s' => String c (collapse_dots_go new false s')
  end.

Example runs_example :
  replace_runs (λ c, bool_decide (c ∈ ["/"; ":"]%char)) "-" false "a//b:c" = "a-b-c" ∧
  collapse_dots_go "-" false "a.b..c...d." = "a.b-c-d.".
Proof. by vm_compute. Qed.

(** A byte outside the replacement text is in the result only where it was. *)
Lemma replace_runs_free cls new inrun s c :
  cls c = true → has_byte c new = false → has_byte c (replace_runs cls new inrun s) = false.
Proof.
  intros Hc Hn. revert inrun. induction s as [|d s IH]; intros inrun; [done|]. simpl.
  destruct (cls d) eqn:Hd.
  - rewrite has_byte_app, IH, orb_false_r. by destruct inrun.
  - change (String d ?t) with (String d "" +:+ t). rewrite has_byte_app, IH, orb_false_r.
    unfold has_byte. simpl. case_decide; [congruence|done].
Qed.

Lemma replace_runs_keeps_free cls new inrun s c :
  has_byte c s = false → has_byte c new = false → has_byte c (replace_runs cls new inrun s) = false.
Proof.
  intros Hs Hn. revert inrun Hs. induction s as [|d s IH]; intros inrun Hs; [done|]. simpl.
  change (String d s) with (String d "" +:+ s) in Hs. rewrite has_byte_app in Hs.
  apply orb_false_iff in Hs as [Hd Hs]. destruct (cls d).
  - rewrite has_byte_app, IH, orb_false_r by done. by destruct inrun.
  - change (String d ?t) with (String d "" +:+ t). rewrite has_byte_app, IH, orb_false_r by done. done.
Qed.

(** Collapsing leaves no two adjacent dots. *)
Definition starts_dot s : bool := match s with String "." _ => true | _ => false end.

Lemma starts_dot_true s : starts_dot s = true ↔ ∃ t, s = String "." t.
Proof.
  split; [|by intros [t ->]]. destruct s as [|c s]; [done|].
  destruct c as [[] [] [] [] [] [] [] []]; try done. by exists s.
Qed.

Lemma contains_dots_cons c s :
  contains (String c s) ".." = (bool_decide (c = "."%char) && starts_dot s) || contains s "..".
Proof.
  cbn [contains]. f_equal. apply eq_iff_eq_true.
  rewrite has_prefix_true, andb_true_iff, bool_decide_eq_true, starts_dot_true. split.
  - intros [r [= -> ->]]. split; [done|]. by exists r.
  - intros [-> [t ->]]. by exists t.
Qed.

Lemma starts_dot_ne c s : c ≠ "."%char → starts_dot (String c s) = false.
Proof. intros Hc. destruct c as [[] [] [] [] [] [] [] []]; done. Qed.

Lemma collapse_dots_spec inrun s :
  contains (collapse_dots_go "-" inrun s) ".." = false ∧
  (inrun = true ∨ starts_dot s = false → starts_dot (collapse_dots_go "-" inrun s) = false).
Proof.
  revert inrun. induction s as [|c s IH]; intros inrun; [done|].
  destruct (decide (c = "."%char)) as [->|Hc].
  - cbn [collapse_dots_go]. destruct inrun.
    + split; [apply IH|]. intros _. apply IH. by left.
    + destruct (starts_dot s) eqn:Hs.
      * destruct s as [|d s]; [done|]. destruct (decide (d = "."%char)) as [->|Hd];
          [|by rewrite starts_dot_ne in Hs].
        change ("-" +:+ ?t) with (String "-" t). rewrite contains_dots_cons. split; [apply IH|done].
      * assert (match s with String "." _ => "-" +:+ collapse_dots_go "-" true s
                | _ => String "." (collapse_dots_go "-" false s) end = String "." (collapse_dots_go "-" false s)) as ->.
        { destruct s as [|d s]; [done|]. destruct (decide (d = "."%char)) as [->|Hd]; [done|].
          destruct d as [[] [] [] [] [] [] [] []]; done. }
        rewrite contains_dots_cons. destruct (IH false) as [IH1 IH2]. rewrite IH1, IH2 by (by right).
        split; [done|]. by intros [?|?].
  - assert (collapse_dots_go "-" inrun (String c s) = String c (collapse_dots_go "-" false s)) as ->.
    { destruct c as [[] [] [] [] [] [] [] []]; done. }
    rewrite contains_dots_cons, bool_decide_false by done. split; [apply IH|]. intros _. by apply starts_dot_ne.
Qed.

Lemma collapse_dots_free inrun s c :
  has_byte c s = false → c ≠ "-"%char → has_byte c (collapse_dots_go "-" inrun s) = false.
Proof.
  intros Hs Hn. revert inrun Hs. induction s as [|d s IH]; intros inrun Hs; [done|].
  change (String d s) with (String d "" +:+ s) in Hs. rewrite has_byte_app in Hs.
  apply orb_false_iff in Hs as [Hd Hs].
  assert (∀ e t, has_byte c (String e "") = false → has_byte c t = false → has_byte c (String e t) = false) as Hcons.
  { intros e t He Ht. change (String e t) with (String e "" +:+ t). by rewrite has_byte_app, He, Ht. }
  assert (has_byte c (String "-" "") = false) as Hm.
  { unfold has_byte. simpl. by rewrite decide_False. }
  cbn [collapse_dots_go]. destruct d as [[] [] [] [] [] [] [] []]; try (apply Hcons; [done|by apply IH]).
  destruct inrun; [by apply IH|]. destruct s as [|e s]; [by apply Hcons|].
  destruct e as [[] [] [] [] [] [] [] []]; (apply Hcons; [done|by apply IH]).
Qed.

(** A part of a string has the substrings of the whole at most. *)
Lemma contains_sub s r1 r2 sub : contains (r1 +:+ s +:+ r2) sub = false → contains s sub = false.
Proof.
  intros H. apply not_true_iff_false. intros (a & b & ->)%contains_true.
  apply not_true_iff_false in H. apply H, contains_true. exists (r1 +:+ a), (b +:+ r2).
  by rewrite !app_assoc.
Qed.

(** * Strings that trimming leaves alone *)

Lemma trim_space_fixed s : cut_space_left s = None → cut_space_right s = None → trim_space s = s.
Proof.
  intros Hl Hr. unfold trim_space.
  assert (∀ cut fuel t, cut t = None → trim_space_by cut fuel t = t) as Hid.
  { intros cut [|fuel] t Ht; simpl; by rewrite ?Ht. }
  rewrite (Hid cut_space_left) by done. by rewrite Hid.
Qed.

(** A visible ASCII character: no white-space code point has such a byte. *)
Definition visible (c : ascii) : bool := let n := nat_of_ascii c in (33 <=? n) && (n <=? 126).

Lemma utf8_spaces_invisible w : w ∈ utf8_spaces → string_forall (λ c, negb (visible c)) w = true.
Proof.
  intros Hw. assert (Forall (λ w, string_forall (λ c, negb (visible c)) w = true) utf8_spaces) as Hall.
  { vm_compute. repeat constructor. }
  rewrite Forall_forall in Hall. by apply Hall.
Qed.

Lemma string_forall_app f s t : string_forall f (s +:+ t) = string_forall f s && string_forall f t.
Proof. induction s as [|c s IH]; simpl; [done|]. by rewrite IH, andb_assoc. Qed.

Lemma string_forall_impl f g s : (∀ c, f c = true → g c = true) → string_forall f s = true → string_forall g s = true.
Proof.
  intros Hfg. induction s as [|c s IH]; simpl; [done|]. intros [Hc Hs]%andb_true_iff.
  by rewrite (Hfg c Hc), IH.
Qed.

Lemma string_forall_free f s c : string_forall f s = true → f c = false → has_byte c s = false.
Proof.
  intros Hs Hc. induction s as [|d s IH]; [done|]. simpl in Hs. apply andb_true_iff in Hs as [Hd Hs].
  change (String d s) with (String d "" +:+ s). rewrite has_byte_app, IH, orb_false_r by done.
  unfold has_byte. simpl. case_decide; [congruence|done].
Qed.

Lemma cut_space_left_visible c s : visible c = true → cut_space_left (String c s) = None.
Proof.
  intros Hc. destruct (cut_space_left _) as [r|] eqn:Hr; [|done].
  apply cut_space_left_prefix in Hr as (w & Hw & Heq). pose proof (utf8_spaces_invisible w Hw) as Hi.
  apply utf8_spaces_nonempty in Hw. destruct w as [|d w]; [done|]. rewrite app_cons in Heq.
  injection Heq as -> _. simpl in Hi. by rewrite Hc in Hi.
Qed.

Lemma cut_space_right_visible s c : visible c = true → cut_space_right (s +:+ String c "") = None.
Proof.
  intros Hc. destruct (cut_space_right _) as [r|] eqn:Hr; [|done].
  apply cut_space_right_suffix in Hr as (w & Hw & Heq). pose proof (utf8_spaces_invisible w Hw) as Hi.
  apply utf8_spaces_nonempty in Hw.
  assert (has_byte c w = false) as Hf by (apply (string_forall_free _ _ _ Hi); by rewrite Hc).
  exfalso. revert r Heq. induction s as [|d s IH]; intros r Heq.
  - assert (r = "" ∨ ∃ e r', r = String e r') as [->|(e & r' & ->)] by (destruct r; eauto).
    + change (String c "" = w) in Heq. rewrite <- Heq in Hf. unfold has_byte in Hf. simpl in Hf. by rewrite decide_True in Hf.
    + rewrite app_cons in Heq. injection Heq as _ Heq. symmetry in Heq. apply app_eq_nil in Heq as [_ ->]. done.
  - destruct r as [|e r].
    + change (String d s +:+ String c "" = w) in Heq. rewrite <- Heq in Hf.
      rewrite has_byte_app in Hf. apply orb_false_iff in Hf as [_ Hf].
      unfold has_byte in Hf. simpl in Hf. by rewrite decide_True in Hf.
    + rewrite !app_cons in Heq. injection Heq as _ Heq. by apply (IH r).
Qed.

(** A string with a visible character at both ends. *)
Lemma trim_space_visible c s d :
  visible c = true → visible d = true → trim_space (String c (s +:+ String d "")) = String c (s +:+ String d "").
Proof.
  intros Hc Hd. apply trim_space_fixed; [by apply cut_space_left_visible|].
  change (String c (s +:+ ?t)) with (String c s +:+ t). by apply cut_space_right_visible.
Qed.

(** * Spans of a class *)

Lemma span_class_spec cls s a b :
  span_class cls s = (a, b) → s = a +:+ b ∧ string_forall cls a = true ∧
    match b with String c _ => cls c = false | "" => True end.
Proof.
  revert a b. induction s as [|c s IH]; intros a b; simpl; [by intros [= <- <-]|].
  destruct (cls c) eqn:Hc; [|by intros [= <- <-]].
  destruct (span_class cls s) as [a' b']. destruct (IH a' b' eq_refl) as (-> & Ha & Hb).
  intros [= <- <-]. split; [done|]. simpl. by rewrite Hc.
Qed.

Lemma span_class_app cls a b :
  string_forall cls a = true → match b with String c _ => cls c = false | "" => True end →
  span_class cls (a +:+ b) = (a, b).
Proof.
  intros Ha Hb. induction a as [|c a IH]; simpl in *.
  - destruct b as [|c b]; [done|]. simpl. by rewrite Hb.
  - apply andb_true_iff in Ha as [Hc Ha]. by rewrite Hc, IH.
Qed.

Lemma cut_last_byte_app c a b : has_byte c b = false → cut_last_byte c (a +:+ String c b) = Some (a, b).
Proof.
  intros Hb. apply cut_last_byte_None in Hb as Hn. induction a as [|d a IH].
  - change ("" +:+ String c b) with (String c b). cbn [cut_last_byte]. rewrite Hn. by rewrite decide_True.
  - rewrite app_cons. cbn [cut_last_byte]. by rewrite IH.
Qed.
