(* ===== verification/SinkSpec.v ===== *)
(** The normalized sink spec, [src/api/v1alpha1/kollectsink_types.go], its layout
    block, and the accessors with their defaults ([layout_spec_types.go],
    [sink_config.go]). A pointer is an [option] and a nil receiver is [None]; only
    the fields the export and cleanup code reads are here. *)

From S2P Require Import Prelude GoStrings Api.

Definition SinkTypeGit : string := "git".
Definition SinkTypeGitLab : string := "gitlab".
Definition SinkTypeS3 : string := "s3".
Definition SinkTypeGCS : string := "gcs".
Definition SinkTypeKafka : string := "kafka".
Definition SinkTypeNats : string := "nats".
Definition SinkTypeLocal : string := "local".

Definition SerializationFormatJSON : string := "json".
Definition SerializationFormatYAML : string := "yaml".
Definition SerializationFormatNDJSON : string := "ndjson".

Definition LayoutModeDocument : string := "document".
Definition LayoutModePerResource : string := "perResource".
Definition LayoutModeSplit : string := "split".
Definition LayoutContentItem : string := "item".
Definition LayoutContentAttributes : string := "attributes".
Definition LayoutContentManifest : string := "manifest".
Definition LayoutGroupInPathAuto : string := "auto".
Definition LayoutGroupInPathAlways : string := "always".
Definition LayoutGroupInPathNever : string := "never".
Definition DefaultLayoutPathTemplate : string := "{cluster}/{sourceNamespace}/{kind}/{sourceName}{extension}".
Definition DefaultLayoutIndexPathTemplate : string := "inventory/{namespace}/{name}{extension}".
Definition DefaultLayoutMaxSegmentLength : Z := 63.

Definition DeletionPolicyRetain : string := "Retain".
Definition DeletionPolicyDelete : string := "Delete".

(** Go: api/v1alpha1/layout_spec_types.go:78-87 [LayoutIndexSpec] *)
Record LayoutIndexSpec := mkLayoutIndexSpec {
  index_Enabled : option bool;
  index_PathTemplate : string;
}.

(** Go: api/v1alpha1/layout_spec_types.go:89-105 [LayoutFilenameSpec] *)
Record LayoutFilenameSpec := mkLayoutFilenameSpec {
  fn_GroupInPath : string;
  fn_LowercaseKind : option bool;
  fn_MaxSegmentLength : option Z;
}.

(** Go: api/v1alpha1/layout_spec_types.go:43-76 [LayoutSpec] *)
Record LayoutSpec := mkLayoutSpec {
  layout_Mode : string;
  layout_Content : string;
  layout_PathTemplate : string;
  layout_Index : option LayoutIndexSpec;
  layout_Filename : option LayoutFilenameSpec;
}.

(** The fields of the spec the modelled code reads; [sink_GitLabMRMode] is
    [spec.gitlab.mergeRequest.mode], [None] when one of the two blocks is absent.
    Go: api/v1alpha1/kollectsink_types.go:22-116 [KollectSinkSpec] *)
Record KollectSinkSpec := mkKollectSinkSpec {
  sink_Type : string;
  sink_Cluster : string;
  sink_PathTemplate : string;
  sink_DeletionPolicy : string;
  sink_ObjectStoreFormat : option string;
  sink_SerializationFormat : option string;
  sink_Layout : option LayoutSpec;
  sink_GitLabMRMode : option string;
}.

(** Go: api/v1alpha1/layout_spec_types.go:107-114 [ModeOrDefault] *)
Definition ModeOrDefault (l : option LayoutSpec) : string :=
  match l with
  | None => LayoutModeDocument
  | Some l => if decide (layout_Mode l = "") then LayoutModeDocument else layout_Mode l
  end.

(** Go: api/v1alpha1/layout_spec_types.go:116-119 [ModeExplicit] *)
Definition ModeExplicit (l : option LayoutSpec) : bool :=
  match l with None => false | Some l => bool_decide (layout_Mode l ≠ "") end.

(** Go: api/v1alpha1/layout_spec_types.go:121-124 [ContentExplicit] *)
Definition ContentExplicit (l : option LayoutSpec) : bool :=
  match l with None => false | Some l => bool_decide (layout_Content l ≠ "") end.

(** Go: api/v1alpha1/layout_spec_types.go:126-129 [IsDocumentMode] *)
Definition IsDocumentMode (l : option LayoutSpec) : bool := bool_decide (ModeOrDefault l = LayoutModeDocument).

(** Go: api/v1alpha1/layout_spec_types.go:131-138 [GroupInPathOrDefault] *)
Definition GroupInPathOrDefault (f : option LayoutFilenameSpec) : string :=
  match f with
  | None => LayoutGroupInPathAuto
  | Some f => if decide (fn_GroupInPath f = "") then LayoutGroupInPathAuto else fn_GroupInPath f
  end.

(** Go: api/v1alpha1/layout_spec_types.go:140-147 [LowercaseKindEnabled] *)
Definition LowercaseKindEnabled (f : option LayoutFilenameSpec) : bool := default true (f ≫= fn_LowercaseKind).

(** Go: api/v1alpha1/layout_spec_types.go:149-156 [MaxSegmentLengthOrDefault] *)
Definition MaxSegmentLengthOrDefault (f : option LayoutFilenameSpec) : Z :=
  match f ≫= fn_MaxSegmentLength with
  | None => DefaultLayoutMaxSegmentLength
  | Some n => if decide (n ≤ 0)%Z then DefaultLayoutMaxSegmentLength else n
  end.

(** Go: api/v1alpha1/layout_spec_types.go:158-165 [IndexEnabled] *)
Definition IndexEnabled (l : option LayoutSpec) : bool :=
  match (l ≫= layout_Index) ≫= index_Enabled with
  | Some b => b
  | None => bool_decide (ModeOrDefault l = LayoutModeSplit)
  end.

Section formats.
Context `{!UnicodeCase}.

(** Go: api/v1alpha1/sink_config.go:31-40 [DefaultFormatForSinkType] *)
Definition DefaultFormatForSinkType (sinkType : string) : string :=
  let t := to_lower (trim_space sinkType) in
  if decide (t = SinkTypeGit ∨ t = SinkTypeGitLab) then SerializationFormatYAML else SerializationFormatJSON.

(** Go: api/v1alpha1/sink_config.go:8-29 [EffectiveSerializationFormat] *)
Definition EffectiveSerializationFormat (spec : option KollectSinkSpec) : string :=
  match spec with
  | None => SerializationFormatJSON
  | Some spec =>
      let norm f := to_lower (trim_space f) in
      let ser := default "" (norm <$> sink_SerializationFormat spec) in
      if decide (ser ≠ "") then ser
      else
        let obj := default "" (norm <$> sink_ObjectStoreFormat spec) in
        if decide (obj ≠ "") then obj else DefaultFormatForSinkType (sink_Type spec)
  end.
End formats.

(** Go: api/v1alpha1/sink_config.go:56-65 [EffectiveDeletionPolicy] *)
Definition EffectiveDeletionPolicy (spec : option KollectSinkSpec) : string :=
  match spec with
  | Some spec => if decide (sink_DeletionPolicy spec = DeletionPolicyDelete) then DeletionPolicyDelete
                 else DeletionPolicyRetain
  | None => DeletionPolicyRetain
  end.
