(* ===== verification/ObjectPath.v ===== *)
(** Where an export is stored: the object paths of
    [src/internal/sink/objectstore/path.go] and the relative-path rules of
    [src/internal/pathvalidate/path.go].

    [filepath] is the Unix one, so [filepath.Clean] is [path.Clean]. A
    [KeyMatcher] of the source holds a compiled regular expression; here it holds
    which of the two expressions it is and the quoted extension, and [rest_match]
    is the anchored match. *)

From S2P Require Import Prelude GoStrings GoPath Values Store Json Envelope Partition GoTemplate SinkSpec.

Inductive path_error :=
  | ErrNullByte
  | ErrNotRelative
  | ErrTraversal
  | ErrMissingPlaceholder
  | ErrUnsupportedPlaceholder (name : string).

(** Go: internal/pathvalidate/path.go:13-34 [ValidateRelativeObjectPath] *)
Definition ValidateRelativeObjectPath (objectPath : string) : result path_error string :=
  let objectPath := trim_space objectPath in
  if decide (objectPath = "") then Ok ""
  else if contains objectPath nul then Err ErrNullByte
  else
    let clean := path_clean objectPath in
    if has_prefix "/" clean then Err ErrNotRelative
    else if bool_decide (clean = "..") || has_prefix "../" clean || contains clean "/../" then Err ErrTraversal
    else Ok clean.

(** Go: internal/pathvalidate/path.go:36-48 [RejectTraversal] *)
Definition RejectTraversal (path : string) : result path_error unit :=
  let path := trim_space path in
  if decide (path = "") then Ok tt
  else if has_prefix "/" path || contains path ".." then Err ErrTraversal
  else Ok tt.

(** Go: internal/pathvalidate/path.go:50-64 [InventoryFromObjectPath] *)
Definition legacyInventoryFromObjectPath (objectPath : string) : string * string :=
  let objectPath := trim_prefix "inventory/" (trim_space objectPath) in
  match split_byte "/" objectPath with
  | p0 :: p1 :: _ => (p0, trim_suffix ".json" p1)
  | [p0] => if decide (p0 ≠ "") then (p0, "") else ("", "")
  | [] => ("", "")
  end.

Definition FormatParquet : string := "parquet".
Definition DefaultPathTemplate : string := "inventory/{namespace}/{name}.json".
Definition DefaultExtension : string := ".json".

(** Go: internal/sink/objectstore/path.go:36-43 [PathVars] *)
Record PathVars := mkPathVars {
  var_Cluster : string;
  var_Namespace : string;
  var_Name : string;
  var_Generation : Z;
  var_Extension : string;
}.

(** Go: internal/sink/objectstore/path.go:80-109 [RenderPathTemplate] *)
Definition RenderPathTemplate (template : string) (vars : PathVars) : string :=
  let template := trim_space template in
  let template := if decide (template = "") then DefaultPathTemplate else template in
  let ext := trim_space (var_Extension vars) in
  let ext := if decide (ext = "") then DefaultExtension else ext in
  let ext := if has_prefix "." ext then ext else "." +:+ ext in
  let cluster := trim_space (var_Cluster vars) in
  let cluster := if decide (cluster = "") then "default" else cluster in
  replacer [("{cluster}", cluster); ("{namespace}", var_Namespace vars); ("{name}", var_Name vars);
            ("{generation}", fmt_d (var_Generation vars)); ("{extension}", ext)] template.

Definition hive_char (c : ascii) : bool :=
  is_letter c || is_digit c || bool_decide (c = "."%char) || bool_decide (c = "_"%char) || bool_decide (c = "-"%char).

(** Go: internal/sink/objectstore/path.go:183-190 [sanitizeHiveSegment] *)
Definition sanitizeHiveSegment (value : string) : string :=
  let value := trim_space value in
  if decide (value = "") then "" else replace_runs (λ c, negb (hive_char c)) "_" false value.

(** Go: internal/sink/objectstore/path.go:65-78 [ParquetObjectPath] *)
Definition ParquetObjectPath (cluster invNamespace invName : string) (generation : Z) : string :=
  let cluster := sanitizeHiveSegment cluster in
  let cluster := if decide (cluster = "") then "default" else cluster in
  "inventory/cluster=" +:+ cluster +:+ "/ns=" +:+ sanitizeHiveSegment invNamespace +:+
  "/name=" +:+ sanitizeHiveSegment invName +:+ "/generation=" +:+ fmt_d generation +:+ ".parquet".

Definition allowedPlaceholders : list string := ["cluster"; "namespace"; "name"; "generation"; "extension"].

(** Go: internal/sink/objectstore/path.go:111-136 [ValidatePathTemplate] *)
Definition ValidatePathTemplate (template : string) : result path_error unit :=
  let template := trim_space template in
  if decide (template = "") then Ok tt
  else
    RejectTraversal template;;
    if negb (contains template "{namespace}") || negb (contains template "{name}") then Err ErrMissingPlaceholder
    else for_each (λ p, if decide (p ∈ allowedPlaceholders) then Ok tt else Err (ErrUnsupportedPlaceholder p))
           (placeholders is_lower template).

Section paths.
Context `{!UnicodeCase}.

(** Go: internal/sink/objectstore/path.go:138-144 [IsParquetFormat] *)
Definition IsParquetFormat (spec : KollectSinkSpec) : bool :=
  match sink_ObjectStoreFormat spec with
  | None => false
  | Some format => equal_fold (trim_space format) FormatParquet
  end.

(** Go: internal/sink/objectstore/path.go:45-63 [ObjectPath] *)
Definition ObjectPath (spec : KollectSinkSpec) (invNamespace invName : string) (generation : Z) : string :=
  if IsParquetFormat spec then ParquetObjectPath (sink_Cluster spec) invNamespace invName generation
  else
    let template := trim_space (sink_PathTemplate spec) in
    let template := if decide (template = "") then DefaultPathTemplate else template in
    RenderPathTemplate template
      (mkPathVars (trim_space (sink_Cluster spec)) invNamespace invName generation DefaultExtension).
End paths.

(** Go: internal/sink/objectstore/path.go:146-181 [InventoryFromObjectPath] *)
Definition InventoryFromObjectPath (objectPath : string) : string * string :=
  let objectPath := trim_space objectPath in
  if decide (objectPath = "") then ("", "")
  else if contains objectPath "/ns=" then
    foldl (λ '(namespace, name) segment,
        let namespace := default namespace (cut_prefix "ns=" segment) in
        let name := default name (cut_prefix "name=" segment) in
        (namespace, name))
      ("", "") (split_byte "/" objectPath)
  else
    let parts := split_byte "/" (trim_prefix "inventory/" objectPath) in
    match reverse parts with
    | base :: namespace :: _ =>
        (namespace, match cut_last_byte "." base with Some (name, _) => name | None => base end)
    | _ => ("", "")
    end.

(** [(\.part-\d{4,}-of-\d{4,})] against a whole string. *)
Definition is_part_marker (s : string) : bool :=
  match cut_prefix ".part-" s with
  | None => false
  | Some r =>
      let '(a, r) := span_class is_digit r in
      match cut_prefix "-of-" r with
      | None => false
      | Some r =>
          let '(b, r) := span_class is_digit r in
          (4 <=? String.length a) && (4 <=? String.length b) && bool_decide (r = "")
      end
  end.

(** [/generation=\d+\.parquet] against a whole string. *)
Definition is_generation_file (s : string) : bool :=
  match cut_prefix "/generation=" s with
  | None => false
  | Some r => let '(a, r) := span_class is_digit r in bool_decide (a ≠ "") && bool_decide (r = ".parquet")
  end.

(** The remainder of a key: [RestFile ext] is the part marker, optional, then the
    extension; [RestHive] the part marker, optional, then a generation file. *)
Inductive rest_pattern := RestFile (ext : string) | RestHive.

Definition opt_part_marker (s : string) : bool := bool_decide (s = "") || is_part_marker s.

Fixpoint splits (s : string) : list (string * string) :=
  ("", s) :: match s with "" => [] | String c s => (λ '(a, b), (String c a, b)) <$> splits s end.

Definition rest_match (p : rest_pattern) (s : string) : bool :=
  existsb (λ '(a, b), opt_part_marker a && match p with
                                           | RestFile ext => bool_decide (b = ext)
                                           | RestHive => is_generation_file b
                                           end) (splits s).

(** Go: internal/sink/objectstore/path.go:199-204 [KeyMatcher] *)
Record KeyMatcher := mkKeyMatcher {
  km_Prefix : string;
  km_Rest : rest_pattern;
}.

(** Go: internal/sink/objectstore/path.go:206-213 [Matches] *)
Definition Matches (m : KeyMatcher) (key : string) : bool :=
  match cut_prefix (km_Prefix m) key with
  | None => false
  | Some rest => rest_match (km_Rest m) rest
  end.

(** Go: internal/sink/objectstore/path.go:215-230 [ListDir] *)
Definition ListDir (m : KeyMatcher) : string :=
  let prefix := km_Prefix m in
  if decide (prefix = "") then "."
  else if has_suffix "/" prefix then trim_suffix "/" prefix
  else match cut_last_byte "/" prefix with Some (dir, _) => dir | None => "." end.

(** Go: internal/sink/objectstore/path.go:232-239 [JoinDir] *)
Definition JoinDir (dir name : string) : string :=
  if decide (dir = "." ∨ dir = "") then name else dir +:+ "/" +:+ name.

(** Go: internal/sink/objectstore/path.go:241-284 [CleanupMatchers] *)
Definition CleanupMatchers (objectPath : string) : list KeyMatcher :=
  let objectPath := trim_prefix "./" (trim_space objectPath) in
  if decide (objectPath = "") then []
  else
    let '(dir, file) := path_split objectPath in
    if has_prefix "generation=" file && contains dir "/name="
    then [mkKeyMatcher (trim_suffix "/" dir) RestHive]
    else
      let '(stem, ext) :=
        match cut_last_byte "." file with
        | Some (stem, e) => if decide (stem = "") then (file, "") else (stem, String "." e)
        | None => (file, "")
        end in
      [mkKeyMatcher (dir +:+ stem) (RestFile ext)].

Example object_path_examples :
  RenderPathTemplate "" (mkPathVars "" "team-a" "app" 3 "") = "inventory/team-a/app.json" ∧
  ParquetObjectPath "" "team a" "app" 3 = "inventory/cluster=default/ns=team_a/name=app/generation=3.parquet" ∧
  InventoryFromObjectPath "inventory/team-a/app.json" = ("team-a", "app") ∧
  InventoryFromObjectPath "inventory/cluster=default/ns=team_a/name=app/generation=3.parquet" = ("team_a", "app") ∧
  ((λ m, Matches m <$> ["inventory/a/x.json"; "inventory/a/x.part-0001-of-0002.json"; "inventory/a/x-v2.json";
                        "inventory/a/x.part-001-of-0002.json"; "inventory/a/x.part-10001-of-10002.json"])
     <$> CleanupMatchers "inventory/a/x.json") = [[true; true; false; false; true]] ∧
  ((λ m, Matches m <$> ["i/name=x/generation=1.parquet"; "i/name=x.part-0001-of-0002/generation=12.parquet";
                        "i/name=xy/generation=1.parquet"; "i/name=x/generation=.parquet"])
     <$> CleanupMatchers "i/name=x/generation=3.parquet") = [[true; true; false; false]] ∧
  ValidatePathTemplate "x/{namespace}/{name}/{uid}" = Err (ErrUnsupportedPlaceholder "uid") ∧
  ValidateRelativeObjectPath " a/./b/../c " = Ok "a/c" ∧ ValidateRelativeObjectPath "a/../../b" = Err ErrTraversal.
Proof. by vm_compute. Qed.

(** * Validated paths stay below the root *)

Lemma clean_relative q :
  has_prefix "/" q = false →
  if escapes 0 (split_byte "/" q) then ∃ l, path_clean q = join "/" (".." :: l)
  else ∃ l, Forall ordinary l ∧ path_clean q = if decide (l = []) then "." else join "/" l.
Proof.
  intros Hq. unfold path_clean, path_elems. rewrite Hq.
  pose proof (clean_elems_confined [] (split_byte "/" q) (Forall_nil_2 _) (split_byte_free "/" q)) as Hc.
  cbn [length] in Hc. destruct (escapes 0 _).
  - destruct Hc as [l ->]. exists l. rewrite decide_False; [done|]. by destruct l.
  - eexists. split; [exact Hc|]. set (l := clean_elems _ _ _) in *. case_decide as Hj; case_decide as Hl; try done.
    + by apply join_nonempty in Hj.
    + by rewrite Hl in Hj.
Qed.

Lemma join_dotdot l :
  has_prefix "/" (join "/" (".." :: l)) = false ∧
  bool_decide (join "/" (".." :: l) = "..") || has_prefix "../" (join "/" (".." :: l)) = true.
Proof.
  destruct l as [|x l]; [done|]. rewrite join_cons. split; [done|]. apply orb_true_iff. right.
  apply has_prefix_true. by exists (join "/" (x :: l)).
Qed.

(** No element of a joined path of ordinary elements is [".."]. *)
Lemma join_ordinary_no_dotdot l :
  l ≠ [] → Forall ordinary l →
  bool_decide (join "/" l = "..") || has_prefix "../" (join "/" l) || contains (join "/" l) "/../" = false.
Proof.
  intros Hne Hl. pose proof (split_join_ordinary l Hne Hl) as Hs.
  assert (".." ∉ l) as Hnd.
  { intros Hin. rewrite Forall_forall in Hl. by destruct (Hl _ Hin) as (_&_&?&_). }
  apply not_true_iff_false. rewrite !orb_true_iff, bool_decide_eq_true, has_prefix_true, contains_true.
  intros [[Heq|[r Hr]]|(r1 & r2 & Hr)]; apply Hnd; rewrite <- Hs.
  - rewrite Heq. apply list_elem_of_here.
  - rewrite Hr. change ("../" +:+ r) with (".." +:+ "/" +:+ r). rewrite split_byte_sep. apply list_elem_of_here.
  - rewrite Hr. change ("/../" +:+ r2) with ("/" +:+ ".." +:+ "/" +:+ r2). rewrite split_byte_sep.
    apply elem_of_app. right. rewrite split_byte_sep. apply list_elem_of_here.
Qed.

(** A path is accepted exactly when, read element by element, it never climbs
    above the directory it starts in, is not absolute and has no NUL byte; and the
    normalized path that is returned names that directory or consists of ordinary
    elements only. *)
Theorem relative_path_confined p :
  trim_space p ≠ "" →
  (is_ok (ValidateRelativeObjectPath p) = true ↔
     contains (trim_space p) nul = false ∧ has_prefix "/" (trim_space p) = false ∧
     escapes 0 (split_byte "/" (trim_space p)) = false) ∧
  (∀ c, ValidateRelativeObjectPath p = Ok c →
     c = "." ∨ ∃ l, l ≠ [] ∧ Forall ordinary l ∧ c = join "/" l ∧ path_clean c = c).
Proof.
  unfold ValidateRelativeObjectPath. set (q := trim_space p). intros Hq. rewrite decide_False by done.
  destruct (contains q nul); [by split; [|done]; split; [|intros [? _]]|].
  destruct (has_prefix "/" q) eqn:Hr.
  { assert (has_prefix "/" (path_clean q) = true) as ->.
    { unfold path_clean. rewrite Hr. apply has_prefix_app. }
    split; [|done]. split; [done|]. by intros (_&?&_). }
  pose proof (clean_relative q Hr) as Hc. destruct (escapes 0 (split_byte "/" q)).
  - destruct Hc as [l ->]. destruct (join_dotdot l) as [-> ->]. split; [|done]. split; [done|]. by intros (_&_&?).
  - destruct Hc as (l & Hl & ->). case_decide as Hnil.
    + split; [done|]. intros c [= <-]. by left.
    + rewrite join_not_rooted, join_ordinary_no_dotdot by done. split; [done|]. intros c [= <-]. right.
      exists l. by rewrite path_clean_ordinary.
Qed.

Lemma relative_path_confined_witness :
  is_ok (ValidateRelativeObjectPath "a/../b/c") = true ∧ is_ok (ValidateRelativeObjectPath "a/../../b") = false.
Proof.
  split.
  - apply (relative_path_confined "a/../b/c"); [done|]. by vm_compute.
  - apply not_true_iff_false. intros H%(relative_path_confined "a/../../b"); [|done]. vm_compute in H. by destruct H as (_&_&?).
Defined.

(** * What a cleanup sweeps *)

Lemma splits_spec s a b : (a, b) ∈ splits s ↔ s = a +:+ b.
Proof.
  revert a. induction s as [|c s IH]; intros a; cbn [splits].
  - rewrite list_elem_of_singleton. split; [by intros [= -> ->]|]. intros Hs. symmetry in Hs.
    by apply app_eq_nil in Hs as [-> ->].
  - rewrite elem_of_cons, list_elem_of_fmap. split.
    + intros [[= -> ->]|([a' b'] & [= -> ->] & Hin)]; [done|]. apply IH in Hin as ->. done.
    + destruct a as [|d a]; [intros ->; by left|]. rewrite app_cons. intros [= -> Hs]. right.
      exists (a, b). split; [done|]. by apply IH.
Qed.

Definition digits (s : string) : Prop := string_forall is_digit s = true.

Lemma is_part_marker_true s :
  is_part_marker s = true ↔
  ∃ a b, digits a ∧ digits b ∧ 4 ≤ String.length a ∧ 4 ≤ String.length b ∧ s = ".part-" +:+ a +:+ "-of-" +:+ b.
Proof.
  unfold is_part_marker. split.
  - destruct (cut_prefix ".part-" s) as [r|] eqn:Hp; [|done]. apply cut_prefix_Some in Hp as ->.
    destruct (span_class is_digit r) as [a r'] eqn:Ha. apply span_class_spec in Ha as (-> & Ha & _).
    destruct (cut_prefix "-of-" r') as [r|] eqn:Hp; [|done]. apply cut_prefix_Some in Hp as ->.
    destruct (span_class is_digit r) as [b r'] eqn:Hb. apply span_class_spec in Hb as (-> & Hb & _).
    rewrite !andb_true_iff, !Nat.leb_le, bool_decide_eq_true. intros [[??] ->]. exists a, b. by rewrite app_nil_r.
  - intros (a & b & Ha & Hb & Hla & Hlb & ->). rewrite cut_prefix_app.
    rewrite (span_class_app is_digit a ("-of-" +:+ b)) by done. rewrite cut_prefix_app.
    rewrite <- (app_nil_r b), (span_class_app is_digit b "") by done.
    rewrite !andb_true_iff, !Nat.leb_le, bool_decide_eq_true. done.
Qed.

Lemma rest_match_true p s :
  rest_match p s = true ↔
  ∃ a b, s = a +:+ b ∧ (a = "" ∨ is_part_marker a = true) ∧
         match p with RestFile ext => b = ext | RestHive => is_generation_file b = true end.
Proof.
  unfold rest_match. rewrite existsb_exists. split.
  - intros ([a b] & Hin%list_elem_of_In%splits_spec & [Ha Hb]%andb_true_iff). exists a, b. split; [done|].
    unfold opt_part_marker in Ha. rewrite orb_true_iff, bool_decide_eq_true in Ha. split; [done|].
    destruct p; [by apply bool_decide_eq_true in Hb|done].
  - intros (a & b & -> & Ha & Hb). exists (a, b). split; [by apply list_elem_of_In, splits_spec|].
    unfold opt_part_marker. rewrite andb_true_iff, orb_true_iff, bool_decide_eq_true. split; [done|].
    destruct p; [by apply bool_decide_eq_true|done].
Qed.

Lemma Matches_true m key :
  Matches m key = true ↔ ∃ rest, key = km_Prefix m +:+ rest ∧ rest_match (km_Rest m) rest = true.
Proof.
  unfold Matches. destruct (cut_prefix (km_Prefix m) key) as [rest|] eqn:Hc.
  - apply cut_prefix_Some in Hc as ->. split; [by eauto|]. intros (r & Hr%app_inv_l & Hm). by subst r.
  - split; [done|]. intros (r & -> & _). by rewrite cut_prefix_app in Hc.
Qed.

(** The stem and the extension of a file name. *)
Definition stem_ext (file : string) : string * string :=
  match cut_last_byte "." file with
  | Some (stem, e) => if decide (stem = "") then (file, "") else (stem, String "." e)
  | None => (file, "")
  end.

Lemma stem_ext_app file : fst (stem_ext file) +:+ snd (stem_ext file) = file.
Proof.
  unfold stem_ext. destruct (cut_last_byte "." file) as [[stem e]|] eqn:Hc; simpl; [|by rewrite app_nil_r].
  case_decide; simpl; [by rewrite app_nil_r|]. by apply cut_last_byte_Some in Hc as [-> _].
Qed.

(** Outside the hive layout one matcher covers the base path and its numbered
    parts. *)
Lemma CleanupMatchers_file p dir file :
  trim_space p = p → has_prefix "./" p = false → p ≠ "" → path_split p = (dir, file) →
  has_prefix "generation=" file = false →
  CleanupMatchers p = [mkKeyMatcher (dir +:+ fst (stem_ext file)) (RestFile (snd (stem_ext file)))].
Proof.
  intros Ht Hd Hp Hs Hg. unfold CleanupMatchers. rewrite Ht.
  assert (trim_prefix "./" p = p) as ->.
  { unfold trim_prefix. unfold has_prefix in Hd. apply bool_decide_eq_false in Hd.
    destruct (cut_prefix "./" p); [|done]. exfalso. apply Hd. by eexists. }
  rewrite decide_False, Hs, Hg by done. cbn [andb]. fold (stem_ext file).
  by destruct (stem_ext file).
Qed.

Lemma file_matcher_true pre ext key :
  Matches (mkKeyMatcher pre (RestFile ext)) key = true ↔
  key = pre +:+ ext ∨ ∃ m, is_part_marker m = true ∧ key = pre +:+ m +:+ ext.
Proof.
  rewrite Matches_true. cbn [km_Prefix km_Rest]. split.
  - intros (rest & -> & (a & b & -> & Ha & ->)%rest_match_true).
    destruct Ha as [->|Ha]; [by left|]. right. by exists a.
  - intros [->|(m & Hm & ->)].
    + exists ext. split; [done|]. apply rest_match_true. exists "", ext. by split_and!; [|left|].
    + exists (m +:+ ext). split; [done|]. apply rest_match_true. exists m, ext. by split_and!; [|right|].
Qed.

(** Decimal numbers are digits; the marker of a part is a part marker. *)
Lemma digits_free s : (∀ c, is_digit c = false → has_byte c s = false) → digits s.
Proof.
  intros Hs. unfold digits. induction s as [|c s IH]; [done|]. simpl. apply andb_true_iff. split.
  - destruct (is_digit c) eqn:Hc; [done|]. specialize (Hs c Hc). unfold has_byte in Hs. simpl in Hs.
    by rewrite decide_True in Hs.
  - apply IH. intros d Hd. specialize (Hs d Hd). change (String c s) with (String c "" +:+ s) in Hs.
    rewrite has_byte_app in Hs. by apply orb_false_iff in Hs as [_ Hs].
Qed.

Lemma fmt_04d_digits n : digits (fmt_04d n).
Proof. apply digits_free. intros c Hc. by apply fmt_04d_free. Qed.

Lemma zeros_length k : String.length (zeros k) = k.
Proof. induction k as [|k IH]; simpl; [done|]. by rewrite IH. Qed.

Lemma fmt_04d_length n : 4 ≤ String.length (fmt_04d n).
Proof. unfold fmt_04d. rewrite length_app, zeros_length. lia. Qed.

Lemma part_suffix_marker i t : is_part_marker (part_suffix i t) = true.
Proof.
  apply is_part_marker_true. exists (fmt_04d i), (fmt_04d t).
  split_and!; [apply fmt_04d_digits..|apply fmt_04d_length|apply fmt_04d_length|done].
Qed.

(** Kubernetes object names (DNS-1123 subdomains): lower-case letters, digits,
    dots and dashes, with a letter or digit at both ends. *)
Definition is_alnum (c : ascii) : bool := is_lower c || is_digit c.
Definition name_char (c : ascii) : bool := is_alnum c || bool_decide (c = "."%char) || bool_decide (c = "-"%char).

Fixpoint last_byte (s : string) : option ascii :=
  match s with "" => None | String c "" => Some c | String _ s => last_byte s end.

Definition k8s_name (s : string) : bool :=
  string_forall name_char s &&
  match s with String c _ => is_alnum c | "" => false end &&
  match last_byte s with Some c => is_alnum c | None => false end.

Lemma k8s_name_free s c : k8s_name s = true → name_char c = false → has_byte c s = false.
Proof. unfold k8s_name. rewrite !andb_true_iff. intros [[Hs _] _] Hc. by eapply string_forall_free. Qed.

Lemma k8s_name_first s : k8s_name s = true → ∃ c t, s = String c t ∧ is_alnum c = true.
Proof. unfold k8s_name. rewrite !andb_true_iff. intros [[_ Hs] _]. destruct s as [|c t]; [done|]. eauto. Qed.

Lemma k8s_name_ordinary s : k8s_name s = true → ordinary s.
Proof.
  intros Hs. pose proof (k8s_name_first s Hs) as (c & t & Ht & Hc).
  split_and!; [..|by apply k8s_name_free]; intros He; rewrite Ht in He; try done; by injection He as -> _.
Qed.

(** The canonical path of an inventory: the default template, for every sink that
    sets neither a template nor the Parquet format. *)
Definition inventory_path (ns name : string) : string := "inventory/" +:+ ns +:+ "/" +:+ name +:+ ".json".

Lemma ObjectPath_default `{!UnicodeCase} spec ns name generation :
  trim_space (sink_PathTemplate spec) = "" → sink_ObjectStoreFormat spec = None →
  ObjectPath spec ns name generation = inventory_path ns name.
Proof.
  intros Ht Hf. unfold ObjectPath, IsParquetFormat. rewrite Hf, Ht. cbn [decide].
  rewrite decide_True by done. unfold RenderPathTemplate. reflexivity.
Qed.

Lemma inventory_path_trim ns name : trim_space (inventory_path ns name) = inventory_path ns name.
Proof.
  assert (inventory_path ns name = String "i" (("nventory/" +:+ ns +:+ "/" +:+ name +:+ ".jso") +:+ "n")) as ->.
  { unfold inventory_path. by rewrite !app_assoc. }
  by apply trim_space_visible.
Qed.

Lemma inventory_path_split ns name :
  has_byte "/" name = false →
  path_split (inventory_path ns name) = ("inventory/" +:+ ns +:+ "/", name +:+ ".json").
Proof.
  intros Hn. unfold path_split.
  assert (cut_last_byte "/" (inventory_path ns name) = Some ("inventory/" +:+ ns, name +:+ ".json")) as ->.
  { unfold inventory_path. rewrite <- (app_assoc _ ns).
    apply (cut_last_byte_app "/" ("inventory/" +:+ ns) (name +:+ ".json")). by rewrite has_byte_app, Hn. }
  by rewrite app_assoc.
Qed.

Lemma stem_ext_json name : name ≠ "" → stem_ext (name +:+ ".json") = (name, ".json").
Proof.
  intros Hn. unfold stem_ext.
  assert (cut_last_byte "." (name +:+ ".json") = Some (name, "json")) as ->.
  { by apply cut_last_byte_app. }
  by rewrite decide_False.
Qed.

Lemma inventory_matchers ns name :
  k8s_name name = true →
  CleanupMatchers (inventory_path ns name) = [mkKeyMatcher ("inventory/" +:+ ns +:+ "/" +:+ name) (RestFile ".json")].
Proof.
  intros Hn. rewrite (CleanupMatchers_file _ ("inventory/" +:+ ns +:+ "/") (name +:+ ".json")).
  - rewrite stem_ext_json by (by apply k8s_name_ordinary). cbn [fst snd]. by rewrite !app_assoc.
  - apply inventory_path_trim.
  - done.
  - done.
  - apply inventory_path_split. by apply k8s_name_free.
  - apply not_true_iff_false. intros [r Hr]%has_prefix_true.
    assert (has_byte "=" (name +:+ ".json") = false) as Hf by (rewrite has_byte_app, k8s_name_free by done; done).
    rewrite Hr, has_byte_app in Hf. done.
Qed.

(** The parts of an inventory's export. *)
Lemma inventory_part_path ns name i t :
  k8s_name ns = true → k8s_name name = true → 2 ≤ t →
  PartitionObjectPath (inventory_path ns name) i t = inventory_path ns (name +:+ part_suffix i t).
Proof.
  intros Hns Hn Ht. unfold PartitionObjectPath. rewrite decide_False by lia.
  rewrite inventory_path_split by (by apply k8s_name_free).
  assert (cut_last_byte "." (name +:+ ".json") = Some (name, "json")) as -> by (by apply cut_last_byte_app).
  pose proof (k8s_name_ordinary name Hn) as (Hne & _ & _ & Hs). destruct name as [|c name]; [done|].
  destruct (part_file_ok (String c name) i t ".json") as (?&?&?&?); [done..|].
  assert (Forall ordinary (["inventory"; ns] ++ [String c name +:+ part_suffix i t +:+ ".json"])) as Hall.
  { repeat constructor; try done; by apply k8s_name_ordinary. }
  apply path_join_ordinary in Hall. unfold inventory_path.
  rewrite decide_False in Hall by done. etrans; [|etrans; [exact Hall|]].
  - unfold part_suffix. cbn [join String.concat]. by rewrite !app_assoc.
  - cbn [app join String.concat]. by rewrite !app_assoc.
Qed.

Definition swept (objectPath key : string) : bool := existsb (λ m, Matches m key) (CleanupMatchers objectPath).

Lemma swept_inventory ns name key :
  k8s_name name = true →
  swept (inventory_path ns name) key = true ↔
  key = inventory_path ns name ∨ ∃ m, is_part_marker m = true ∧ key = inventory_path ns (name +:+ m).
Proof.
  intros Hn. unfold swept. rewrite inventory_matchers by done. cbn [existsb]. rewrite orb_false_r, file_matcher_true.
  unfold inventory_path. rewrite !app_assoc. apply or_iff_compat_l. split; intros (m & Hm & ->); exists m; by rewrite !app_assoc.
Qed.

Lemma inventory_path_inj ns name ns' name' :
  has_byte "/" ns = false → has_byte "/" ns' = false →
  inventory_path ns name = inventory_path ns' name' → ns = ns' ∧ name = name'.
Proof.
  intros Hs Hs' Heq. unfold inventory_path in Heq. apply app_inv_l in Heq.
  assert (∀ s r, has_byte "/" s = false → cut_byte "/" (s +:+ "/" +:+ r) = Some (s, r)) as Hcut.
  { intros s r Hf. by apply cut_byte_Some. }
  pose proof (Hcut ns (name +:+ ".json") Hs) as Hc. rewrite Heq, Hcut in Hc by done.
  injection Hc as -> Hr. split; [done|]. symmetry. by apply app_inv_r in Hr.
Qed.

(** Deleting an inventory from an object store sweeps every object its export
    could have written (the base object and every numbered part), and of another
    inventory's base object exactly those whose name extends this one by a part
    marker: the name ["app-v2"] is safe from the deletion of ["app"], a namespace
    is never crossed, and only an inventory that is itself called like a part is
    swept along. *)
Theorem cleanup_sweeps_one_inventory ns name :
  k8s_name ns = true → k8s_name name = true →
  (∀ i t, swept (inventory_path ns name) (PartitionObjectPath (inventory_path ns name) i t) = true) ∧
  (∀ ns' name', k8s_name ns' = true →
     swept (inventory_path ns name) (inventory_path ns' name') = true ↔
     ns' = ns ∧ (name' = name ∨ ∃ m, is_part_marker m = true ∧ name' = name +:+ m)).
Proof.
  intros Hns Hn. split.
  - intros i t. apply swept_inventory; [done|]. destruct (decide (t ≤ 1)) as [Ht|Ht].
    + left. unfold PartitionObjectPath. by rewrite decide_True.
    + right. exists (part_suffix i t). split; [apply part_suffix_marker|]. apply inventory_part_path; [done..|lia].
  - intros ns' name' Hns'. rewrite swept_inventory by done.
    assert (∀ n, inventory_path ns' name' = inventory_path ns n ↔ ns' = ns ∧ name' = n) as Hinj.
    { intros n. split; [|by intros [-> ->]]. by apply inventory_path_inj; apply k8s_name_free. }
    rewrite Hinj. setoid_rewrite Hinj. clear. split.
    + intros [[-> ->]|(m & Hm & -> & ->)]; split; [done|by left|done|]. right. by exists m.
    + intros [-> [->|(m & Hm & ->)]]; [by left|]. right. by exists m.
Qed.

Lemma cleanup_sweeps_one_inventory_witness :
  swept (inventory_path "team-a" "app") (PartitionObjectPath (inventory_path "team-a" "app") 2 3) = true ∧
  swept (inventory_path "team-a" "app") (inventory_path "team-a" "app-v2") = false.
Proof.
  split; [apply cleanup_sweeps_one_inventory; by vm_compute|].
  apply not_true_iff_false. intros Hs.
  apply cleanup_sweeps_one_inventory in Hs as [_ [Hs|(m & Hm & Hs)]]; [done| |by vm_compute..].
  change ("app" +:+ "-v2" = "app" +:+ m) in Hs. apply app_inv_l in Hs as <-. by vm_compute in Hm.
Defined.

(** * What a cleanup covers, said without the matchers *)

(** The extension of a file name starts at its last dot, unless that is its first
    byte. *)
Definition extension (stem ext : string) : Prop :=
  (ext = "" ∧ ∀ a b, stem = a +:+ "." +:+ b → a = "") ∨
  (stem ≠ "" ∧ ∃ e, ext = "." +:+ e ∧ has_byte "." e = false).

(** The marker of a part, [.part-NNNN-of-NNNN] with four digits or more. *)
Definition part_marker (s : string) : Prop :=
  ∃ a b, digits a ∧ digits b ∧ 4 ≤ String.length a ∧ 4 ≤ String.length b ∧ s = ".part-" +:+ a +:+ "-of-" +:+ b.

(** A path that is read as one of the hive layout of Parquet exports. *)
Definition hive_path (p : string) : bool :=
  has_prefix "generation=" (path_split p).2 && contains (path_split p).1 "/name=".

(** The keys that belong to the export at a path: the path itself and its parts,
    the marker before the extension; for a hive path the Parquet files of every
    generation in its partition and in the partitions of its parts. *)
Inductive covered (p : string) : string → Prop :=
| covered_self : hive_path p = false → covered p p
| covered_part dir stem ext m :
    hive_path p = false → path_split p = (dir, stem +:+ ext) → extension stem ext → part_marker m →
    covered p (dir +:+ stem +:+ m +:+ ext)
| covered_hive dir file m n :
    hive_path p = true → path_split p = (dir +:+ "/", file) → m = "" ∨ part_marker m → n ≠ "" → digits n →
    covered p (dir +:+ m +:+ "/generation=" +:+ n +:+ ".parquet").

(** A hive path names a file of its own partition only as the Parquet file of a
    generation. *)
Definition own_key (p : string) : Prop :=
  hive_path p = true → ∃ dir n, p = dir +:+ "/generation=" +:+ n +:+ ".parquet" ∧ n ≠ "" ∧ digits n.

Lemma stem_ext_extension stem ext : extension stem ext → stem_ext (stem +:+ ext) = (stem, ext).
Proof.
  unfold stem_ext. intros [[-> Hs]|(Hs & e & -> & He)].
  - rewrite app_nil_r. destruct (cut_last_byte "." stem) as [[a b]|] eqn:Hc; [|done].
    apply cut_last_byte_Some in Hc as [Heq _]. by rewrite decide_True by exact (Hs a b Heq).
  - assert (cut_last_byte "." (stem +:+ "." +:+ e) = Some (stem, e)) as -> by (by apply (cut_last_byte_app "." stem e)).
    by rewrite decide_False.
Qed.

Lemma extension_stem_ext file : extension (stem_ext file).1 (stem_ext file).2.
Proof.
  unfold stem_ext. destruct (cut_last_byte "." file) as [[a b]|] eqn:Hc; simpl.
  - apply cut_last_byte_Some in Hc as [-> Hb]. case_decide as Ha; simpl; [|right; split; [done|]; by exists b].
    left. split; [done|]. subst a. intros a b' Heq. destruct a as [|c a]; [done|]. exfalso.
    change (String "." b = String c (a +:+ "." +:+ b')) in Heq. injection Heq as _ Heq.
    rewrite Heq, !has_byte_app in Hb. by rewrite orb_true_r in Hb.
  - left. split; [done|]. intros a b ->. apply cut_last_byte_None in Hc. by rewrite !has_byte_app, orb_true_r in Hc.
Qed.

Lemma is_generation_file_true s :
  is_generation_file s = true ↔ ∃ n, n ≠ "" ∧ digits n ∧ s = "/generation=" +:+ n +:+ ".parquet".
Proof.
  unfold is_generation_file. split.
  - destruct (cut_prefix _ s) as [r|] eqn:Hp; [|done]. apply cut_prefix_Some in Hp as ->.
    destruct (span_class is_digit r) as [a r'] eqn:Ha. apply span_class_spec in Ha as (-> & Ha & _).
    rewrite andb_true_iff, !bool_decide_eq_true. intros [? ->]. by exists a.
  - intros (n & Hn & Hd & ->). rewrite cut_prefix_app, (span_class_app is_digit n ".parquet") by done.
    by rewrite andb_true_iff, !bool_decide_eq_true.
Qed.

(** The hive matcher starts at the directory of the path. *)
Lemma hive_dir p : hive_path p = true → ∃ dir file, path_split p = (dir +:+ "/", file).
Proof.
  unfold hive_path, path_split. destruct (cut_last_byte "/" p) as [[a b]|] eqn:Hc; cbn [fst snd].
  - intros _. by exists a, b.
  - by rewrite andb_false_r.
Qed.

Lemma normal_trim_dot p : normal_path p → trim_prefix "./" p = p.
Proof.
  intros Hp. unfold trim_prefix. destruct (cut_prefix "./" p) as [r|] eqn:Hc; [|done]. apply cut_prefix_Some in Hc as ->.
  change ("./" +:+ r) with ("." +:+ "/" +:+ r) in Hp. apply normal_app in Hp as [Hp _]. by apply Forall_cons in Hp as [(_ & ? & _) _].
Qed.

(** The matchers of a path in normal form accept exactly what it covers. *)
Lemma swept_covered p q : trim_space p = p → normal_path p → swept p q = true ↔ covered p q.
Proof.
  intros Ht Hn. unfold swept, CleanupMatchers. rewrite Ht.
  rewrite normal_trim_dot, decide_False by (done || by apply normal_nonempty).
  destruct (path_split p) as [dir file] eqn:Hs.
  assert (hive_path p = has_prefix "generation=" file && contains dir "/name=") as Hh by (unfold hive_path; by rewrite Hs).
  destruct (_ && _).
  - destruct (hive_dir p Hh) as (d & f & Hs'). rewrite Hs in Hs'. injection Hs' as -> ->.
    cbn [existsb]. rewrite orb_false_r, Matches_true, trim_suffix_app. cbn [km_Prefix km_Rest]. split.
    + intros (rest & -> & (m & b & -> & Hm & (n & Hne & Hd & ->)%is_generation_file_true)%rest_match_true).
      rewrite is_part_marker_true in Hm. by eapply covered_hive.
    + intros Hq. inversion Hq as [| |d' f' m n _ Hs' Hm Hne Hd]; subst; [congruence..|].
      rewrite Hs in Hs'. injection Hs' as Hs' <-. apply app_inv_r in Hs' as <-. eexists. split; [done|].
      apply rest_match_true. eexists m, _. rewrite is_part_marker_true. split_and!; [done..|]. apply is_generation_file_true. by exists n.
  - fold (stem_ext file). destruct (stem_ext file) as [stem ext] eqn:He.
    pose proof (stem_ext_app file) as Ha. pose proof (extension_stem_ext file) as Hx. rewrite He in Ha, Hx. cbn [fst snd] in Ha, Hx.
    cbn [existsb]. rewrite orb_false_r, file_matcher_true.
    apply path_split_file in Hs as Hp. destruct Hp as [Hp _]. split.
    + intros [->|(m & Hm%is_part_marker_true & ->)].
      * rewrite app_assoc, Ha, <- Hp. by apply covered_self.
      * rewrite app_assoc. eapply covered_part; [done| |done|done]. by rewrite Ha.
    + intros Hq. inversion Hq as [_ |d' s' e' m _ Hs' Hx' Hm|]; subst q.
      * left. by rewrite app_assoc, Ha.
      * right. rewrite Hs in Hs'. injection Hs' as <- Hs'. apply stem_ext_extension in Hx'. rewrite <- Hs', He in Hx'.
        injection Hx' as <- <-. exists m. rewrite app_assoc. split; [by apply is_part_marker_true|done].
      * congruence.
Qed.

Lemma covered_own p : own_key p → covered p p.
Proof.
  intros Ho. destruct (hive_path p) eqn:Hh; [|by apply covered_self].
  destruct (Ho Hh) as (dir & n & Hp & Hn & Hd).
  assert (path_split p = (dir +:+ "/", "generation=" +:+ n +:+ ".parquet")) as Hs.
  { unfold path_split. rewrite Hp. change ("/generation=" +:+ n +:+ ".parquet") with ("/" +:+ "generation=" +:+ n +:+ ".parquet").
    assert (cut_last_byte "/" (dir +:+ "/" +:+ "generation=" +:+ n +:+ ".parquet") = Some (dir, "generation=" +:+ n +:+ ".parquet")) as ->; [|done].
    apply (cut_last_byte_app "/" dir). rewrite !has_byte_app.
    by rewrite (string_forall_free is_digit n "/" Hd eq_refl). }
  rewrite Hp at 2. apply (covered_hive p dir _ "" n Hh Hs); [by left|done..].
Qed.

(** The matchers list keys by a prefix in normal form, unless the name of the
    file starts with two dots. *)
Lemma matcher_prefix_normal p m :
  trim_space p = p → normal_path p → has_prefix ".." (path_split p).2 = false → m ∈ CleanupMatchers p → normal_path (km_Prefix m).
Proof.
  intros Ht Hn Hdots. unfold CleanupMatchers. rewrite Ht, normal_trim_dot by done. rewrite decide_False by (by apply normal_nonempty).
  destruct (path_split p) as [dir file] eqn:Hs. cbn [snd] in Hdots. pose proof (path_split_file _ _ _ Hs) as [Hp Hf].
  destruct (_ && _) eqn:Hh.
  - intros ->%list_elem_of_singleton. cbn [km_Prefix].
    destruct (hive_dir p) as (d & f & Hs'); [unfold hive_path; by rewrite Hs|]. rewrite Hs in Hs'. injection Hs' as -> ->.
    rewrite trim_suffix_app. rewrite Hp, app_assoc in Hn. by apply normal_app in Hn as [Hn _].
  - fold (stem_ext file). destruct (stem_ext file) as [stem ext] eqn:He. intros ->%list_elem_of_singleton. cbn [km_Prefix].
    pose proof (stem_ext_app file) as Ha. pose proof (extension_stem_ext file) as Hx. rewrite He in Ha, Hx. cbn [fst snd] in Ha, Hx.
    assert (ordinary stem) as Hstem.
    { assert (normal_path file) as Hfile.
      { unfold path_split in Hs. destruct (cut_last_byte "/" p) as [[d f]|]; injection Hs as <- <-; [|done].
        rewrite Hp, app_assoc in Hn. by apply normal_app in Hn as [_ Hn]. }
      unfold normal_path in Hfile. rewrite split_byte_none in Hfile by done. rewrite Forall_singleton in Hfile.
      rewrite <- Ha in Hf. rewrite has_byte_app in Hf. apply orb_false_iff in Hf as [Hf _].
      split_and!; [|intros ->..|done].
      - intros ->. destruct Hx as [[-> _]|[? _]]; [|done]. change ("" = file) in Ha. destruct Hfile as [Hne _]. by rewrite <- Ha in Hne.
      - destruct Hx as [[-> _]|(_ & e & -> & _)]; [subst file; by destruct Hfile as (_ & ? & _)|].
        rewrite <- Ha in Hdots. pose proof (has_prefix_app ".." e) as Hd. change (".." +:+ e) with ("." +:+ "." +:+ e) in Hd. congruence.
      - rewrite <- Ha in Hdots. by rewrite has_prefix_app in Hdots. }
    unfold path_split in Hs. destruct (cut_last_byte "/" p) as [[d f]|]; injection Hs as <- <-.
    + rewrite app_assoc. rewrite Hp, app_assoc in Hn. apply normal_app in Hn as [Hn _]. apply normal_app. split; [done|].
      unfold normal_path. rewrite split_byte_none by apply Hstem. by apply Forall_singleton.
    + unfold normal_path. change ("" +:+ stem) with stem. rewrite split_byte_none by apply Hstem. by apply Forall_singleton.
Qed.

(** The name of a part is a legal object name, so an inventory can carry it. *)
Lemma part_named_inventory_swept :
  k8s_name "app.part-0001-of-0002" = true ∧
  swept (inventory_path "team-a" "app") (inventory_path "team-a" "app.part-0001-of-0002") = true.
Proof. by vm_compute. Qed.

(** * Reading the inventory back from a path *)

Lemma InventoryFromObjectPath_default ns name :
  has_byte "/" ns = false → has_byte "=" ns = false → has_byte "/" name = false → has_byte "=" name = false →
  InventoryFromObjectPath (inventory_path ns name) = (ns, name).
Proof.
  intros Hs1 Hs2 Hn1 Hn2. unfold InventoryFromObjectPath. rewrite inventory_path_trim.
  rewrite decide_False by done.
  assert (contains (inventory_path ns name) "/ns=" = false) as ->.
  { apply not_true_iff_false. intros (r1 & r2 & Hr)%contains_true.
    assert (has_byte "=" (inventory_path ns name) = false) as Hf.
    { unfold inventory_path. by rewrite !has_byte_app, Hs2, Hn2. }
    rewrite Hr, !has_byte_app in Hf. by destruct (has_byte "=" r1). }
  unfold inventory_path. rewrite trim_prefix_app.
  change (ns +:+ "/" +:+ ?r) with (ns +:+ String "/" r).
  rewrite split_byte_app by done. rewrite split_byte_none by (by rewrite has_byte_app, Hn1).
  cbn [reverse rev_append]. by rewrite (cut_last_byte_app "." name "json").
Qed.

(** The object path determines the inventory: reading the path of an export,
    or of any of its parts, gives back the namespace and the (numbered) name it
    was rendered from, so two inventories never share a canonical path. *)
Theorem inventory_path_roundtrip ns name :
  k8s_name ns = true → k8s_name name = true →
  InventoryFromObjectPath (inventory_path ns name) = (ns, name) ∧
  ∀ i t, 2 ≤ t →
    InventoryFromObjectPath (PartitionObjectPath (inventory_path ns name) i t) = (ns, name +:+ part_suffix i t).
Proof.
  intros Hns Hn. split.
  - apply InventoryFromObjectPath_default; by apply k8s_name_free.
  - intros i t Ht. rewrite inventory_part_path by done.
    assert (∀ c, name_char c = false → has_byte c (name +:+ part_suffix i t) = false) as Hf.
    { intros c Hc. rewrite has_byte_app, k8s_name_free by done.
      unfold part_suffix. rewrite !has_byte_app.
      assert (is_digit c = false) as Hd.
      { unfold name_char, is_alnum in Hc. rewrite !orb_false_iff in Hc. tauto. }
      rewrite !fmt_04d_free by done.
      assert (∀ s, string_forall name_char s = true → has_byte c s = false) as Hlit by (intros s Hs; by eapply string_forall_free).
      by rewrite !Hlit. }
    by apply InventoryFromObjectPath_default; (apply Hf || apply k8s_name_free).
Qed.

Lemma inventory_path_roundtrip_witness :
  InventoryFromObjectPath (PartitionObjectPath (inventory_path "team-a" "app.v1") 1 2) =
  ("team-a", "app.v1.part-0001-of-0002").
Proof. apply (inventory_path_roundtrip "team-a" "app.v1"); [by vm_compute..|lia]. Defined.
