(* ===== verification/Layout.v ===== *)
(** The file tree a Git snapshot sink writes, [src/internal/sink/layout]: the
    resolved layout ([layout.go]), item paths ([path.go]), file contents
    ([serialize.go]), the split index ([index.go]) and the manifest of a multipart
    set ([manifest.go]).

    [sigs.k8s.io/yaml] encodes a value by [json.Marshal] followed by a conversion
    of the JSON text; that conversion is the class [Yaml]. Error messages are
    constructors that keep the values they name. *)

From S2P Require Import Prelude GoStrings GoPath Values Store Json Envelope GoTemplate SinkSpec.

Class Yaml := { json_to_yaml : string → option string }.

Inductive layout_error :=
  | ErrTraversalSegment (path : string)
  | ErrRenderedEmpty
  | ErrCollision (first second path : string)
  | ErrIndexCollision (path : string)
  | ErrNoAttributes (item : string)
  | ErrMissingAttribute (item key : string)
  | ErrMarshal.

Definition DefaultDocumentPathTemplate : string := "inventory/{namespace}/{name}{extension}".
Definition DefaultExportAs : string := "resource".
Definition DefaultSetManifestPathTemplate : string := "inventory/{namespace}/{name}.manifest.json".
Definition SetManifestKind : string := "KollectExportSetManifest".
Definition newline : string := String (ascii_of_nat 10) "".

(** Go: internal/sink/layout/layout.go:17-23 [File] *)
Record File := mkFile {
  file_Path : string;
  file_Data : string;
}.

(** Go: internal/sink/layout/layout.go:25-45 [ResolveInput] *)
Record ResolveInput := mkResolveInput {
  ri_Spec : KollectSinkSpec;
  ri_InventoryNamespace : string;
  ri_InventoryName : string;
  ri_Generation : Z;
  ri_ResourceExportMode : bool;
  ri_ManifestKey : string;
}.

(** Go: internal/sink/layout/layout.go:47-76 [ResolvedLayout] *)
Record ResolvedLayout := mkResolvedLayout {
  rl_Mode : string;
  rl_Content : string;
  rl_Format : string;
  rl_Extension : string;
  rl_DocumentPathTemplate : string;
  rl_PathTemplate : string;
  rl_Cluster : string;
  rl_InventoryNamespace : string;
  rl_InventoryName : string;
  rl_Generation : Z;
  rl_ManifestKey : string;
  rl_IndexEnabled : bool;
  rl_IndexPathTemplate : string;
  rl_ExportedAt : string;
  rl_Prune : bool;
  rl_Filename : option LayoutFilenameSpec;
}.

(** Go: internal/sink/layout/layout.go:78-81 [IsDocument] *)
Definition IsDocument (r : ResolvedLayout) : bool := bool_decide (rl_Mode r = LayoutModeDocument).

(** Go: internal/sink/layout/layout.go:166-173 [clusterOrDefault] *)
Definition clusterOrDefault (cluster : string) : string :=
  let cluster := trim_space cluster in if decide (cluster = "") then "default" else cluster.

(** Go: internal/sink/layout/layout.go:154-164 [renderInventoryPath] *)
Definition renderInventoryPath (template : string) (r : ResolvedLayout) : string :=
  replacer [("{cluster}", clusterOrDefault (rl_Cluster r)); ("{namespace}", rl_InventoryNamespace r);
            ("{name}", rl_InventoryName r); ("{generation}", fmt_d (rl_Generation r));
            ("{extension}", rl_Extension r)] template.

(** Go: internal/sink/layout/layout.go:144-147 [DocumentPath] *)
Definition DocumentPath (r : ResolvedLayout) : string := renderInventoryPath (rl_DocumentPathTemplate r) r.
(** Go: internal/sink/layout/layout.go:149-152 [IndexPath] *)
Definition IndexPath (r : ResolvedLayout) : string := renderInventoryPath (rl_IndexPathTemplate r) r.
(** Go: internal/sink/layout/manifest.go:53-56 [SetManifestPath] *)
Definition SetManifestPath (r : ResolvedLayout) : string := renderInventoryPath DefaultSetManifestPathTemplate r.

(** * Item paths *)

Definition LayoutPlaceholders : list string :=
  ["cluster"; "namespace"; "name"; "targetNamespace"; "targetName"; "sourceNamespace"; "sourceName"; "group";
   "kind"; "uid"; "generation"; "extension"].

Definition unsafe_char (c : ascii) : bool := bool_decide (c ∈ ["/"; "\"; ":"]%char).

Fixpoint take_bytes (n : nat) (s : string) : string :=
  match n, s with S n, String c s => String c (take_bytes n s) | _, _ => "" end.

(** Go: internal/sink/layout/path.go:105-124 [sanitizeSegment] *)
Definition sanitizeSegment (value : string) (maxLen : Z) : string :=
  let value := trim_space value in
  if decide (value = "") then ""
  else
    let value := replace_runs unsafe_char "-" false value in
    let value := collapse_dots_go "-" false value in
    let value := trim ["."; "-"]%char value in
    if decide (value = "") then ""
    else if decide (0 < maxLen ∧ maxLen < Z.of_nat (String.length value))%Z
    then trim ["."; "-"]%char (take_bytes (Z.to_nat maxLen) value)
    else value.

(** Go: internal/sink/layout/path.go:70-79 [groupSegment] *)
Definition groupSegment (group policy : string) : string :=
  let group := trim_space group in if decide (policy = LayoutGroupInPathNever) then "" else group.

(** The segments that are kept, until one is a traversal. *)
Fixpoint keep_segments (path : string) (segments : list string) : result layout_error (list string) :=
  match segments with
  | [] => Ok []
  | seg :: rest =>
      let seg := trim_space seg in
      if decide (seg = "") then keep_segments path rest
      else if decide (seg = "." ∨ seg = "..") then Err (ErrTraversalSegment path)
      else kept ← keep_segments path rest; Ok (seg :: kept)
  end.

(** Go: internal/sink/layout/path.go:81-103 [cleanRenderedPath] *)
Definition cleanRenderedPath (path : string) : result layout_error string :=
  let path := replace_all "\" "/" (trim_space path) in
  kept ← keep_segments path (split_byte "/" path);
  if decide (length kept = 0) then Err ErrRenderedEmpty else Ok (join "/" kept).

Section render.
Context `{!UnicodeCase}.

Definition item_placeholders (item : Item) (r : ResolvedLayout) : list (string * string) :=
  let cluster := if decide (trim_space (rl_Cluster r) = "") then "default" else rl_Cluster r in
  let kind := if LowercaseKindEnabled (rl_Filename r) then to_lower (Kind item) else Kind item in
  let group := groupSegment (Group item) (GroupInPathOrDefault (rl_Filename r)) in
  let seg s := sanitizeSegment s (MaxSegmentLengthOrDefault (rl_Filename r)) in
  [("cluster", seg cluster); ("namespace", seg (rl_InventoryNamespace r)); ("name", seg (rl_InventoryName r));
   ("targetNamespace", seg (TargetNamespace item)); ("targetName", seg (TargetName item));
   ("sourceNamespace", seg (Namespace item)); ("sourceName", seg (Name item)); ("group", seg group);
   ("kind", seg kind); ("uid", seg (UID item)); ("generation", fmt_d (rl_Generation r));
   ("extension", rl_Extension r)].

(** Go: internal/sink/layout/path.go:28-68 [renderItemPath] *)
Definition renderItemPath (item : Item) (r : ResolvedLayout) : result layout_error string :=
  let repl := item_placeholders item r in
  cleanRenderedPath (expand is_letter (λ key, assoc_get key repl) (rl_PathTemplate r)).
End render.

Inductive template_error :=
  | ErrTemplateTraversal
  | ErrTemplatePlaceholder (name : string)
  | ErrTemplateNoIdentifier.

(** Go: internal/sink/layout/path.go:126-152 [ValidateLayoutPathTemplate] *)
Definition ValidateLayoutPathTemplate (template : string) : result template_error unit :=
  let template := trim_space template in
  if decide (template = "") then Ok tt
  else if contains template ".." then Err ErrTemplateTraversal
  else
    for_each (λ p, if decide (p ∈ LayoutPlaceholders) then Ok tt else Err (ErrTemplatePlaceholder p))
      (placeholders is_letter template);;
    if negb (contains template "{sourceName}") && negb (contains template "{name}") &&
       negb (contains template "{uid}")
    then Err ErrTemplateNoIdentifier else Ok tt.

(** * File contents *)

(** [json.Indent] with two spaces, on compact JSON: [depth] is the nesting,
    [need] says that an opening bracket still waits for its first element, [str]
    that the position is inside a string and [esc] that the next byte is escaped. *)
Fixpoint indent_go (depth : nat) (need str esc : bool) (s : string) : string :=
  let nl d := newline +:+ String.concat "" (repeat "  " d) in
  match s with
  | "" => ""
  | String c s' =>
      if str then
        String c (if esc then indent_go depth false true false s'
                  else if decide (c = "\"%char) then indent_go depth false true true s'
                  else indent_go depth false (negb (bool_decide (String c "" = dquote))) false s')
      else
        let closing := bool_decide (c = "}"%char) || bool_decide (c = "]"%char) in
        let opened := need && negb closing in
        let depth := if opened then S depth else depth in
        let lead := if opened then nl depth else "" in
        if closing then
          if need then String c (indent_go depth false false false s')
          else nl (pred depth) +:+ String c (indent_go (pred depth) false false false s')
        else if decide (c = "{"%char ∨ c = "["%char) then lead +:+ String c (indent_go depth true false false s')
        else if decide (c = ","%char) then lead +:+ String c (nl depth +:+ indent_go depth false false false s')
        else if decide (c = ":"%char) then lead +:+ String c (String " " (indent_go depth false false false s'))
        else lead +:+ String c (indent_go depth false (bool_decide (String c "" = dquote)) false s')
  end.

Definition json_indent (s : string) : string := indent_go 0 false false false s.

(** Go: internal/sink/layout/index.go:10-19 [Index] *)
Record Index := mkIndex {
  ix_SchemaVersion : string;
  ix_ItemCount : Z;
  ix_Checksum : string;
  ix_ExportedAt : string;
  ix_Cluster : string;
  ix_Paths : list string;
}.

Definition json_index (i : Index) : string :=
  json_object
    ([("schemaVersion", json_string (ix_SchemaVersion i)); ("itemCount", fmt_d (ix_ItemCount i))] ++
     json_opt "checksum" (bool_decide (ix_Checksum i ≠ "")) (json_string (ix_Checksum i)) ++
     json_opt "exportedAt" (bool_decide (ix_ExportedAt i ≠ "")) (json_string (ix_ExportedAt i)) ++
     json_opt "cluster" (bool_decide (ix_Cluster i ≠ "")) (json_string (ix_Cluster i)) ++
     [("paths", json_array (json_string <$> ix_Paths i))]).

(** The values the package encodes. *)
Inductive payload :=
  | PayloadItem (item : Item)
  | PayloadItems (items : list Item)
  | PayloadValue (v : value)
  | PayloadIndex (i : Index).

Definition json_payload (p : payload) : option string :=
  match p with
  | PayloadItem item => json_item item
  | PayloadItems items => json_items items
  | PayloadValue v => json_value v
  | PayloadIndex i => Some (json_index i)
  end.

(** Go: internal/sink/layout/serialize.go:104-121 [manifestPayload] *)
Definition manifestPayload (item : Item) (manifestKey : string) : result layout_error payload :=
  let key := trim_space manifestKey in
  let key := if decide (key = "") then DefaultExportAs else key in
  match Attributes item with
  | None => Err (ErrNoAttributes (Name item))
  | Some attrs =>
      match assoc_get key attrs with
      | None => Err (ErrMissingAttribute (Name item) key)
      | Some raw => Ok (PayloadValue raw)
      end
  end.

Section serialize.
Context `{!UnicodeCase, !Yaml}.

(** Go: internal/sink/layout/serialize.go:26-36 [ExtensionForFormat] *)
Definition ExtensionForFormat (format : string) : string :=
  let f := to_lower (trim_space format) in
  if decide (f = SerializationFormatYAML) then ".yaml"
  else if decide (f = SerializationFormatNDJSON) then ".ndjson"
  else ".json".

(** Go: internal/sink/layout/serialize.go:79-86 [marshalCompactJSONLine] *)
Definition marshalCompactJSONLine (p : payload) : result layout_error string :=
  match json_payload p with None => Err ErrMarshal | Some out => Ok (out +:+ newline) end.

(** Go: internal/sink/layout/serialize.go:38-58 [marshalValue] *)
Definition marshalValue (p : payload) (format : string) : result layout_error string :=
  let f := to_lower (trim_space format) in
  if decide (f = SerializationFormatYAML) then
    match json_payload p ≫= json_to_yaml with None => Err ErrMarshal | Some out => Ok out end
  else if decide (f = SerializationFormatNDJSON) then marshalCompactJSONLine p
  else match json_payload p with None => Err ErrMarshal | Some out => Ok (json_indent out +:+ newline) end.

Fixpoint marshal_lines (items : list Item) : result layout_error string :=
  match items with
  | [] => Ok ""
  | item :: items => line ← marshalCompactJSONLine (PayloadItem item); rest ← marshal_lines items; Ok (line +:+ rest)
  end.

(** Go: internal/sink/layout/serialize.go:60-77 [marshalDocument] *)
Definition marshalDocument (items : list Item) (format : string) : result layout_error string :=
  if decide (to_lower (trim_space format) = SerializationFormatNDJSON) then marshal_lines items
  else marshalValue (PayloadItems items) format.

(** Go: internal/sink/layout/serialize.go:88-102 [itemPayload] *)
Definition itemPayload (item : Item) (content manifestKey : string) : result layout_error payload :=
  let c := to_lower (trim_space content) in
  if decide (c = LayoutContentAttributes) then
    Ok (PayloadValue (VMap (default [] (Attributes item))))
  else if decide (c = LayoutContentManifest) then manifestPayload item manifestKey
  else Ok (PayloadItem item).
End serialize.

(** * The resolved layout and its files *)

Section project.
Context `{!UnicodeCase, !Yaml, !SortFunc, !Sha256}.

(** Go: internal/sink/layout/layout.go:83-142 [Resolve] *)
Definition Resolve (input : ResolveInput) : ResolvedLayout :=
  let spec := ri_Spec input in
  let layoutSpec := sink_Layout spec in
  let format := EffectiveSerializationFormat (Some spec) in
  let mode := if ri_ResourceExportMode input && negb (ModeExplicit layoutSpec) then LayoutModePerResource
              else ModeOrDefault layoutSpec in
  let content :=
    if decide (default "" (layout_Content <$> layoutSpec) ≠ "") then default "" (layout_Content <$> layoutSpec)
    else if ri_ResourceExportMode input && bool_decide (mode ≠ LayoutModeDocument) then LayoutContentManifest
    else LayoutContentItem in
  let or_default t d := let t := trim_space t in if decide (t = "") then d else t in
  let docTemplate := or_default (sink_PathTemplate spec) DefaultDocumentPathTemplate in
  let itemTemplate := or_default (default "" (layout_PathTemplate <$> layoutSpec)) DefaultLayoutPathTemplate in
  let indexTemplate :=
    or_default (default "" (index_PathTemplate <$> (layoutSpec ≫= layout_Index))) DefaultLayoutIndexPathTemplate in
  let manifestKey := or_default (ri_ManifestKey input) DefaultExportAs in
  mkResolvedLayout mode content format (ExtensionForFormat format) docTemplate itemTemplate
    (trim_space (sink_Cluster spec)) (ri_InventoryNamespace input) (ri_InventoryName input) (ri_Generation input)
    manifestKey (IndexEnabled layoutSpec) indexTemplate "" (bool_decide (mode ≠ LayoutModeDocument))
    (layoutSpec ≫= layout_Filename).

(** Go: internal/sink/layout/layout.go:260-262 [itemRef] *)
Definition itemRef (item : Item) : string :=
  trim_space (Kind item +:+ "/" +:+ Namespace item +:+ "/" +:+ Name item).

(** Go: internal/sink/layout/index.go:21-33 [buildIndex] *)
Definition buildIndex (r : ResolvedLayout) (items : list Item) (paths : list string) : Index :=
  let checksum := match ItemsFingerprint items with Ok c => c | Err _ => "" end in
  mkIndex ExportSchemaVersion (Z.of_nat (length items)) checksum (rl_ExportedAt r) (clusterOrDefault (rl_Cluster r)) paths.

(** Go: internal/sink/layout/layout.go:188-195 [projectDocument] *)
Definition projectDocument (items : list Item) (r : ResolvedLayout) : result layout_error (list File) :=
  data ← marshalDocument items (rl_Format r); Ok [mkFile (DocumentPath r) data].

(** The loop of [projectPerResource]; [seen] maps the paths so far to their items. *)
Fixpoint project_items (r : ResolvedLayout) (seen : gmap string string) (items : list Item) :
    result layout_error (list File) :=
  match items with
  | [] => Ok []
  | item :: items =>
      path ← renderItemPath item r;
      match seen !! path with
      | Some prev => Err (ErrCollision prev (itemRef item) path)
      | None =>
          p ← itemPayload item (rl_Content r) (rl_ManifestKey r);
          data ← marshalValue p (rl_Format r);
          files ← project_items r (<[path := itemRef item]> seen) items;
          Ok (mkFile path data :: files)
      end
  end.

(** Go: internal/sink/layout/layout.go:197-227 [projectPerResource] *)
Definition projectPerResource (items : list Item) (r : ResolvedLayout) : result layout_error (list File) :=
  project_items r ∅ items.

(** Go: internal/sink/layout/layout.go:229-258 [projectSplit] *)
Definition projectSplit (items : list Item) (r : ResolvedLayout) : result layout_error (list File) :=
  files ← projectPerResource items r;
  if negb (rl_IndexEnabled r) then Ok files
  else
    let paths := file_Path <$> files in
    data ← marshalValue (PayloadIndex (buildIndex r items paths)) (rl_Format r);
    let indexPath := IndexPath r in
    if decide (indexPath ∈ paths) then Err (ErrIndexCollision indexPath)
    else Ok (mkFile indexPath data :: files).

(** Go: internal/sink/layout/layout.go:175-186 [Project] *)
Definition Project (items : list Item) (r : ResolvedLayout) : result layout_error (list File) :=
  if decide (rl_Mode r = LayoutModePerResource) then projectPerResource items r
  else if decide (rl_Mode r = LayoutModeSplit) then projectSplit items r
  else projectDocument items r.
End project.

(** * The manifest of a multipart set *)

(** Go: internal/sink/layout/manifest.go:26-51 [SetManifest] *)
Record SetManifest := mkSetManifest {
  sm_Kind : string;
  sm_SchemaVersion : string;
  sm_Cluster : string;
  sm_Namespace : string;
  sm_Name : string;
  sm_Generation : Z;
  sm_PartTotal : nat;
  sm_Parts : list nat;
  sm_ExportedAt : string;
  sm_Paths : list string;
}.

(** Go: internal/sink/layout/manifest.go:58-83 [BuildSetManifest] *)
Definition BuildSetManifest (r : ResolvedLayout) (partTotal : nat) (paths : list string) : SetManifest :=
  mkSetManifest SetManifestKind ExportSchemaVersion (clusterOrDefault (rl_Cluster r)) (rl_InventoryNamespace r)
    (rl_InventoryName r) (rl_Generation r) partTotal (seq 1 partTotal) (rl_ExportedAt r) (sort_strings paths).

(** Go: internal/sink/layout/manifest.go:85-94 [MarshalSetManifest] *)
Definition MarshalSetManifest (m : SetManifest) : string :=
  json_indent (json_object
    ([("kind", json_string (sm_Kind m)); ("schemaVersion", json_string (sm_SchemaVersion m))] ++
     json_opt "cluster" (bool_decide (sm_Cluster m ≠ "")) (json_string (sm_Cluster m)) ++
     [("namespace", json_string (sm_Namespace m)); ("name", json_string (sm_Name m));
      ("generation", fmt_d (sm_Generation m)); ("partTotal", fmt_d (Z.of_nat (sm_PartTotal m)));
      ("parts", json_array ((λ i, fmt_d (Z.of_nat i)) <$> sm_Parts m))] ++
     json_opt "exportedAt" (bool_decide (sm_ExportedAt m ≠ "")) (json_string (sm_ExportedAt m)) ++
     [("paths", json_array (json_string <$> sm_Paths m))])) +:+ newline.

(** Go: internal/sink/layout/manifest.go:96-100 [isControlSidecar] *)
Definition isControlSidecar (p : string) : bool := has_suffix ".manifest.json" p.

(** Go: internal/sink/layout/manifest.go:102-115 [SetVerification] *)
Record SetVerification := mkSetVerification {
  sv_Complete : bool;
  sv_Missing : list string;
  sv_Stale : list string;
  sv_GenerationMismatch : bool;
}.

(** Go: internal/sink/layout/manifest.go:117-168 [VerifySet] *)
Definition VerifySet (m : SetManifest) (present : list string) (expectedGeneration : Z) : SetVerification :=
  let missing := sort_strings (filter (λ p, p ∉ present) (sm_Paths m)) in
  let stale := sort_strings (filter (λ p, p ∉ sm_Paths m ∧ isControlSidecar p = false) present) in
  let genMismatch := bool_decide (expectedGeneration ≠ 0 ∧ sm_Generation m ≠ expectedGeneration)%Z in
  mkSetVerification (bool_decide (length missing = 0) && bool_decide (length stale = 0) && negb genMismatch)
    missing stale genMismatch.

(** * Examples *)

Section examples.
#[local] Existing Instance ascii_only_case.
#[local] Existing Instance sort_by_merge_sort.

Definition demo_item : Item := mkItem "team" "t" "prod" "web" "apps" "v1" "Deployment" "u1" (Some [("a", VInt 1)]).
Definition demo_layout : ResolvedLayout :=
  mkResolvedLayout LayoutModePerResource LayoutContentAttributes "json" ".json" "" DefaultLayoutPathTemplate "" "team"
    "inv" 1 "" false "" "" true None.

Example layout_examples :
  sanitizeSegment " a//b\c:d..e.-" 63 = "a-b-c-d-e" ∧ sanitizeSegment "../.." 63 = "" ∧ sanitizeSegment "abc-def" 4 = "abc" ∧
  renderItemPath demo_item demo_layout = Ok "default/prod/deployment/web.json" ∧
  json_indent "{}" = "{}" ∧
  json_indent (json_object [("a", json_array ["1"; "[]"])]) =
    String.concat newline ["{"; "  " +:+ json_string "a" +:+ ": ["; "    1,"; "    []"; "  ]"; "}"] ∧
  ValidateLayoutPathTemplate "{kind}/{sourceName}" = Ok tt ∧
  ValidateLayoutPathTemplate "{kind}" = Err ErrTemplateNoIdentifier ∧
  cleanRenderedPath "a/ ../b" = Err (ErrTraversalSegment "a/ ../b").
Proof. by vm_compute. Qed.
End examples.

(** * Segments *)

Definition trimmed_of (cutset : list ascii) (s : string) : Prop :=
  (∀ c t, s = String c t → c ∉ cutset) ∧ (∀ t c, s = t +:+ String c "" → c ∉ cutset).

Lemma trim_left_head f s c t : trim_left f s = String c t → f c = false.
Proof.
  induction s as [|d s IH]; simpl; [done|]. destruct (f d) eqn:Hd; [done|]. by intros [= <- <-].
Qed.

Lemma trim_right_last f s t c : trim_right f s = t +:+ String c "" → f c = false.
Proof.
  revert t. induction s as [|d s IH]; intros t; simpl; [by destruct t|].
  destruct (trim_right f s) as [|e u] eqn:Hu.
  - destruct (f d) eqn:Hd; [by destruct t|]. intros Heq. destruct t as [|x t].
    + by injection Heq as <-.
    + rewrite app_cons in Heq. injection Heq as _ Heq. symmetry in Heq. by apply app_eq_nil in Heq as [_ ?].
  - intros Heq. destruct t as [|x t]; [by injection Heq as _ ?|].
    rewrite app_cons in Heq. injection Heq as _ Heq. by apply (IH t).
Qed.

Lemma trim_spec cutset s :
  trimmed_of cutset (trim cutset s) ∧ ∃ r1 r2, s = r1 +:+ trim cutset s +:+ r2.
Proof.
  unfold trim. set (f := λ c, bool_decide (c ∈ cutset)).
  destruct (trim_left_suffix f s) as [r1 H1]. destruct (trim_right_prefix f (trim_left f s)) as [r2 H2].
  split; [split|].
  - intros c t Heq. rewrite Heq, app_cons in H2. apply trim_left_head in H2.
    by apply bool_decide_eq_false in H2.
  - intros t c Heq. apply trim_right_last in Heq. by apply bool_decide_eq_false in Heq.
  - exists r1, r2. by rewrite <- H2.
Qed.

Lemma take_bytes_spec n s : (∃ r, s = take_bytes n s +:+ r) ∧ String.length (take_bytes n s) ≤ n.
Proof.
  revert s. induction n as [|n IH]; intros s; simpl; [split; [by exists s|lia]|].
  destruct s as [|c s]; simpl; [split; [by exists ""|lia]|]. destruct (IH s) as [[r Hr] Hl].
  split; [|lia]. exists r. rewrite app_cons. by f_equal.
Qed.

(** What a sanitized segment may not contain. *)
Definition safe_segment (s : string) : Prop :=
  (∀ c, unsafe_char c = true → has_byte c s = false) ∧ contains s ".." = false.

Lemma safe_segment_sub s r1 r2 : safe_segment (r1 +:+ s +:+ r2) → safe_segment s.
Proof.
  intros [Hu Hd]. split.
  - intros c Hc. specialize (Hu c Hc). rewrite !has_byte_app, !orb_false_iff in Hu. tauto.
  - by eapply contains_sub.
Qed.

Lemma safe_segment_trim cutset s : safe_segment s → safe_segment (trim cutset s).
Proof. destruct (trim_spec cutset s) as [_ (r1 & r2 & Hs)]. rewrite Hs at 1. apply safe_segment_sub. Qed.

Lemma safe_segment_collapse s : safe_segment (collapse_dots_go "-" false (replace_runs unsafe_char "-" false s)).
Proof.
  split; [|apply collapse_dots_spec]. intros c Hc. apply collapse_dots_free.
  - apply replace_runs_free; [done|]. unfold has_byte. simpl. case_decide; [by subst c|done].
  - by intros ->.
Qed.

(** A sanitized path segment has no path separator, drive colon or pair of
    dots, neither starts nor ends with a dot or dash, so it is never ["."] or
    [".."], and is no longer than the configured cap. *)
Theorem sanitized_segment_safe value maxLen :
  let s := sanitizeSegment value maxLen in
  safe_segment s ∧ trimmed_of ["."; "-"]%char s ∧ s ≠ "." ∧ s ≠ ".." ∧
  ((0 < maxLen)%Z → (Z.of_nat (String.length s) ≤ maxLen)%Z).
Proof.
  assert (∀ s, safe_segment s → trimmed_of ["."; "-"]%char s → s ≠ "." ∧ s ≠ "..") as Hdots.
  { intros s [_ Hd] [Ht _]. split; [|by intros ->]. intros ->. apply (Ht "."%char ""); [done|]. by left. }
  assert (safe_segment "" ∧ trimmed_of ["."; "-"]%char "") as [He1 He2].
  { split; [done|]. split; [done|]. intros t c Heq. by destruct t. }
  cbv zeta. unfold sanitizeSegment. case_decide.
  { split_and!; try done. simpl. lia. }
  set (v := collapse_dots_go _ _ _). pose proof (safe_segment_collapse (trim_space value)) as Hv. fold v in Hv.
  pose proof (safe_segment_trim ["."; "-"]%char v Hv) as Hw. set (w := trim _ v) in *.
  case_decide as Hn. { split_and!; try done. simpl. lia. }
  case_decide as Hm.
  - set (u := take_bytes _ w). destruct (take_bytes_spec (Z.to_nat maxLen) w) as [[r Hr] Hl]. fold u in Hr, Hl.
    assert (safe_segment u) as Hu. { rewrite Hr in Hw. by apply (safe_segment_sub u "" r). }
    destruct (trim_spec ["."; "-"]%char u) as [Ht (r1 & r2 & Hs)].
    pose proof (safe_segment_trim ["."; "-"]%char u Hu) as Hx. destruct (Hdots _ Hx Ht). split_and!; try done.
    intros _. assert (String.length (trim ["."; "-"]%char u) ≤ String.length u).
    { rewrite Hs at 2. rewrite !length_app. lia. } lia.
  - destruct (trim_spec ["."; "-"]%char v) as [Ht _]. fold w in Ht. destruct (Hdots _ Hw Ht).
    split_and!; try done. lia.
Qed.

(** * Item paths stay below the repository root *)

Lemma keep_segments_ordinary path segs kept :
  Forall (λ s, has_byte "/" s = false) segs → keep_segments path segs = Ok kept →
  Forall (λ s, ordinary s ∧ trim_space s = s) kept.
Proof.
  intros Hs. revert kept. induction Hs as [|s segs Hs _ IH]; intros kept; cbn [keep_segments]; [by intros [= <-]|].
  case_decide as Hn; [apply IH|]. case_decide as Hd; [done|].
  intros (kept' & Hk & [= <-])%result_bind_ok. constructor; [|by apply IH].
  split; [|apply trim_space_idemp]. split_and!; try tauto. by apply trim_space_free.
Qed.

Lemma replace_backslash_free s : has_byte "\" (replace_all "\" "/" s) = false.
Proof.
  induction s as [|c s IH]; [done|]. destruct (decide (c = "\"%char)) as [->|Hc].
  - change (String "\" s) with ("\" +:+ s). rewrite replace_all_hit, has_byte_app. exact IH.
  - rewrite replace_all_miss.
    + change (String c ?t) with (String c "" +:+ t). rewrite has_byte_app, IH, orb_false_r.
      unfold has_byte. simpl. by rewrite decide_False.
    + apply not_true_iff_false. intros [r Hr]%has_prefix_true. by injection Hr as -> _.
Qed.

Lemma join_free c sep l : has_byte c sep = false → Forall (λ s, has_byte c s = false) l → has_byte c (join sep l) = false.
Proof.
  intros Hsep Hl. induction Hl as [|x l Hx Hl IH]; [done|]. destruct l as [|y l]; [done|].
  rewrite join_cons, !has_byte_app, Hx, Hsep. exact IH.
Qed.

Lemma cleanRenderedPath_confined path p :
  cleanRenderedPath path = Ok p →
  ∃ l, l ≠ [] ∧ Forall (λ s, ordinary s ∧ trim_space s = s) l ∧ p = join "/" l ∧ path_clean p = p ∧ has_byte "\" p = false.
Proof.
  unfold cleanRenderedPath. set (q := replace_all _ _ _). intros (kept & Hk & Hp)%result_bind_ok.
  case_decide as Hn; [done|]. injection Hp as <-.
  pose proof (keep_segments_ordinary _ _ _ (split_byte_free "/" q) Hk) as Ho.
  assert (kept ≠ []) as Hne by (intros ->; by apply Hn). exists kept. split_and!; try done.
  - apply path_clean_ordinary; [done|]. eapply Forall_impl; [exact Ho|]. by intros x [? _].
  - apply join_free; [done|]. assert (has_byte "\" q = false) as Hq by apply replace_backslash_free.
    assert (Forall (λ s, has_byte "\" s = false) (split_byte "/" q)) as Hf.
    { rewrite <- (join_split_byte "/" q) in Hq. revert Hq. generalize (split_byte "/" q). intros l.
      induction l as [|x l IH]; [constructor|]. destruct l as [|y l]; [by repeat constructor|].
      rewrite join_cons, !has_byte_app, !orb_false_iff. intros (? & _ & ?). constructor; [done|by apply IH]. }
    clear -Hk Hf. revert kept Hk. induction Hf as [|s segs Hs _ IH]; intros kept; cbn [keep_segments]; [by intros [= <-]|].
    case_decide as Hn; [apply IH|]. case_decide as Hd; [done|].
    intros (kept' & Hk & [= <-])%result_bind_ok. constructor; [by apply trim_space_free|by apply IH].
Qed.

Section project_lemmas.
Context `{!UnicodeCase, !Yaml, !SortFunc, !Sha256}.

(** The file of one item, on its own. *)
Definition item_file (r : ResolvedLayout) (item : Item) : result layout_error File :=
  path ← renderItemPath item r;
  p ← itemPayload item (rl_Content r) (rl_ManifestKey r);
  data ← marshalValue p (rl_Format r);
  Ok (mkFile path data).

Lemma project_items_ok r seen items files :
  project_items r seen items = Ok files ↔
  Forall2 (λ item f, item_file r item = Ok f) items files ∧ NoDup (file_Path <$> files) ∧
  Forall (λ p, seen !! p = None) (file_Path <$> files).
Proof.
  revert seen files. induction items as [|item items IH]; intros seen files; cbn [project_items].
  - split; [intros [= <-]|].
    + split_and!; constructor.
    + intros (Hf & _ & _). by inversion Hf.
  - unfold item_file at 1. split.
    + intros (path & Hp & Hr)%result_bind_ok. destruct (seen !! path) as [prev|] eqn:Hs; [done|].
      apply result_bind_ok in Hr as (pl & Hpl & Hr). apply result_bind_ok in Hr as (data & Hd & Hr).
      apply result_bind_ok in Hr as (fs & Hfs & [= <-]). apply IH in Hfs as (Hall & Hnd & Hseen).
      split_and!.
      * constructor; [|done]. unfold item_file. rewrite Hp. simpl. rewrite Hpl. simpl. by rewrite Hd.
      * rewrite fmap_cons. constructor; [|done]. intros Hin. rewrite Forall_forall in Hseen.
        specialize (Hseen _ Hin). cbn [file_Path] in Hseen. by rewrite lookup_insert_eq in Hseen.
      * rewrite fmap_cons. constructor; [done|]. eapply Forall_impl; [exact Hseen|].
        intros q Hq. cbn beta in *. destruct (decide (path = q)) as [->|Hne]; [done|].
        by rewrite lookup_insert_ne in Hq.
    + intros (Hall & Hnd & Hseen). inversion Hall as [|? f ? fs Hf Hfs]; subst.
      unfold item_file in Hf. apply result_bind_ok in Hf as (path & Hp & Hr).
      apply result_bind_ok in Hr as (pl & Hpl & Hr). apply result_bind_ok in Hr as (data & Hd & [= <-]).
      rewrite fmap_cons in Hnd, Hseen. apply NoDup_cons in Hnd as [Hni Hnd]. apply Forall_cons in Hseen as [Hs Hseen].
      cbn [file_Path] in Hs, Hni. rewrite Hp. simpl. rewrite Hs. rewrite Hpl. simpl. rewrite Hd. simpl.
      assert (project_items r (<[path := itemRef item]> seen) items = Ok fs) as ->; [|done].
      apply IH. split_and!; try done. rewrite Forall_forall in Hseen |- *. intros q Hq.
      rewrite lookup_insert_ne by (by intros ->). by apply Hseen.
Qed.

(** C39. A tree layout, per resource or split with its index, writes one file per
    item, in order, each with the item's own path and contents, and no two files
    share a path: the projection fails exactly
    when an item cannot be rendered or encoded or when two of them (or the index)
    would land on the same path, so no file is silently overwritten. *)
Theorem project_tree_exact items r files :
  (rl_Mode r = LayoutModePerResource →
   Project items r = Ok files ↔
   Forall2 (λ item f, item_file r item = Ok f) items files ∧ NoDup (file_Path <$> files)) ∧
  (rl_Mode r = LayoutModeSplit → rl_IndexEnabled r = true →
   Project items r = Ok files ↔
   ∃ tree data, files = mkFile (IndexPath r) data :: tree ∧
     Forall2 (λ item f, item_file r item = Ok f) items tree ∧ NoDup (file_Path <$> files) ∧
     marshalValue (PayloadIndex (buildIndex r items (file_Path <$> tree))) (rl_Format r) = Ok data).
Proof.
  assert (∀ tree, projectPerResource items r = Ok tree ↔
    Forall2 (λ item f, item_file r item = Ok f) items tree ∧ NoDup (file_Path <$> tree)) as Hper.
  { intros tree. unfold projectPerResource. rewrite project_items_ok. split; [tauto|]. intros [? ?].
    split_and!; try done. apply Forall_forall. intros p _. apply lookup_empty. }
  split.
  - intros Hm. unfold Project. rewrite Hm, decide_True by done. apply Hper.
  - intros Hm Hi. unfold Project. rewrite Hm, decide_False, decide_True by done. unfold projectSplit. split.
    + intros (tree & Ht & Hr)%result_bind_ok. rewrite Hi in Hr. cbn [negb] in Hr.
      apply result_bind_ok in Hr as (data & Hd & Hr). case_decide as Hin; [done|]. injection Hr as <-.
      apply Hper in Ht as [Hall Hnd]. exists tree, data. split_and!; try done. rewrite fmap_cons. by constructor.
    + intros (tree & data & -> & Hall & Hnd & Hd). rewrite fmap_cons in Hnd. apply NoDup_cons in Hnd as [Hni Hnd].
      assert (projectPerResource items r = Ok tree) as -> by (by apply Hper). simpl. rewrite Hi. cbn [negb].
      rewrite Hd. simpl. by rewrite decide_False.
Qed.

(** Whatever the items are called and whatever the template is, the path of an
    item's file is relative and clean: its elements are non-empty, trimmed, and
    neither ["."] nor [".."], and it has no backslash. *)
Theorem item_paths_confined item r p :
  renderItemPath item r = Ok p →
  ∃ l, l ≠ [] ∧ Forall (λ s, ordinary s ∧ trim_space s = s) l ∧ p = join "/" l ∧ path_clean p = p ∧
       has_byte "\" p = false.
Proof. apply cleanRenderedPath_confined. Qed.
End project_lemmas.

(** A converter that prefixes its input, to run the projection. *)
Definition demo_yaml : Yaml := {| json_to_yaml s := Some ("---" +:+ s) |}.

Section witnesses.
#[local] Existing Instance ascii_only_case.
#[local] Existing Instance sort_by_merge_sort.
#[local] Existing Instance demo_yaml.

Lemma item_paths_confined_witness :
  ∃ l, l ≠ [] ∧ Forall (λ s, ordinary s ∧ trim_space s = s) l ∧ "default/prod/deployment/web.json" = join "/" l ∧
       path_clean "default/prod/deployment/web.json" = "default/prod/deployment/web.json" ∧
       has_byte "\" "default/prod/deployment/web.json" = false.
Proof. apply (item_paths_confined demo_item demo_layout). by vm_compute. Defined.

#[local] Existing Instance demo_sha256.

Lemma project_tree_exact_witness :
  Project [demo_item] demo_layout =
  Ok [mkFile "default/prod/deployment/web.json"
        (String.concat newline ["{"; "  " +:+ json_string "a" +:+ ": 1"; "}"; ""])].
Proof.
  apply (proj1 (project_tree_exact [demo_item] demo_layout _)); [by vm_compute|]. split; [|by vm_compute; repeat constructor; inversion 1].
  constructor; [by vm_compute|constructor].
Defined.

Example project_collision :
  Project [demo_item; demo_item] demo_layout =
  Err (ErrCollision "Deployment/prod/web" "Deployment/prod/web" "default/prod/deployment/web.json").
Proof. by vm_compute. Qed.
End witnesses.

(** * Verifying a set *)

Lemma length_sort_strings l : length (sort_strings l) = length l.
Proof. by rewrite sort_strings_perm. Qed.

Lemma length_filter_zero {A} (P : A → Prop) `{!∀ x, Decision (P x)} l :
  length (filter P l) = 0 ↔ ∀ x, x ∈ l → ¬ P x.
Proof.
  rewrite length_zero_iff_nil. split.
  - intros Hf x Hin Hx. assert (x ∈ filter P l) as Hc by (by apply list_elem_of_filter). rewrite Hf in Hc. by inversion Hc.
  - intros Hall. destruct (filter P l) as [|x l'] eqn:Hf; [done|]. exfalso.
    assert (x ∈ filter P l) as [Hx Hin]%list_elem_of_filter by (rewrite Hf; left). by apply (Hall x).
Qed.

(** A consumer that lists the directory accepts a multipart set exactly when
    the files on disk, the manifests aside, are the files the manifest declares
    and the manifest is of the generation it expects; and right after an export
    the set its manifest describes is complete, while losing any declared file or
    keeping any stale one makes it incomplete. *)
Theorem verify_set_exact r partTotal paths present generation :
  let m := BuildSetManifest r partTotal paths in
  (sv_Complete (VerifySet m present generation) = true ↔
     (∀ p, isControlSidecar p = false → p ∈ present ↔ p ∈ paths) ∧
     (∀ p, isControlSidecar p = true → p ∈ paths → p ∈ present) ∧
     (generation = 0 ∨ generation = rl_Generation r)%Z) ∧
  sv_Complete (VerifySet m (SetManifestPath r :: paths) (rl_Generation r)) = true.
Proof.
  assert (∀ present generation,
    sv_Complete (VerifySet (BuildSetManifest r partTotal paths) present generation) = true ↔
    (∀ p, p ∈ paths → p ∈ present) ∧ (∀ p, p ∈ present → isControlSidecar p = false → p ∈ paths) ∧
    (generation = 0 ∨ generation = rl_Generation r)%Z) as Hc.
  { clear present generation. intros present generation. unfold VerifySet. cbn [sv_Complete BuildSetManifest sm_Paths sm_Generation].
    rewrite !andb_true_iff, negb_true_iff, !bool_decide_eq_true, bool_decide_eq_false, !length_sort_strings, !length_filter_zero.
    setoid_rewrite elem_of_sort_strings. split.
    - intros [[H1 H2] H3]. split_and!.
      + intros p Hp. specialize (H1 p Hp). by apply dec_stable.
      + intros p Hp Hs. apply dec_stable. intros Hn. by apply (H2 p Hp).
      + destruct (decide (generation = 0)%Z); [by left|right]. apply dec_stable. intros Hn. apply H3. split; [done|congruence].
    - intros (H1 & H2 & H3). split_and!.
      + intros p Hp Hn. by apply Hn, H1.
      + intros p Hp [Hn Hs]. by apply Hn, H2.
      + intros [Hg Hn]. destruct H3 as [ | -> ]; [done|]. by apply Hn. }
  cbv zeta. split; [rewrite Hc|apply Hc].
  - split.
    + intros (H1 & H2 & H3). split_and!; [|by intros; apply H1|done]. intros p Hp. split; [intros; by apply H2|by apply H1].
    + intros (H1 & H2 & H3). split_and!; [|intros p Hp Hs; by apply H1|done].
      intros p Hp. destruct (isControlSidecar p) eqn:Hs; [by apply H2|by apply H1].
  - split_and!; [by intros; right| |by right]. intros p [->|?]%elem_of_cons Hs; [|done]. exfalso. revert Hs.
    assert (isControlSidecar (SetManifestPath r) = true) as ->; [|done].
    apply has_suffix_true. unfold SetManifestPath, renderInventoryPath.
    exists ("inventory/" +:+ rl_InventoryNamespace r +:+ "/" +:+ rl_InventoryName r). rewrite !app_assoc. reflexivity.
Qed.
