(* ===== verification/GitTree.v ===== *)
(** The working tree of a Git sink and the ownership records in it:
    [src/internal/sink/git/prune_owned.go], [prune_owner.go], [prune_tree.go],
    [release.go], the release part of [delete.go] and [writeBillyExportFiles] of
    [export.go].

    A working tree maps slash paths to regular files and symbolic links;
    [wt_dirs] are the directories that were emptied and remain, every other
    directory is implied by a path below it. The tree is a private clone under
    the repository lock, so an operation on it fails only for what the tree holds.
    Writing or listing through a symbolic link is reported as a failure; the code
    refuses such paths before it writes. [encoding/json]'s strict decoding of a
    record is the class [PruneCodec]. *)

From S2P Require Import Prelude GoStrings GoPath Values Store Json Envelope GoTemplate ObjectPath.

Inductive node := Regular (data : string) | Symlink.

#[export] Instance node_eq_dec : EqDecision node.
Proof. solve_decision. Defined.

Record worktree := mkWorktree {
  wt_nodes : gmap string node;
  wt_dirs : gset string;
}.

Inductive stat := StatRegular (size : nat) | StatSymlink | StatDir.

#[export] Instance stat_eq_dec : EqDecision stat.
Proof. solve_decision. Defined.

Definition wt_paths (t : worktree) : list string := (map_to_list (wt_nodes t)).*1 ++ elements (wt_dirs t).

Definition is_dir (t : worktree) (p : string) : bool :=
  bool_decide (p ∈ wt_dirs t) || existsb (has_prefix (p +:+ "/")) (wt_paths t).

(** [fs.Lstat]; [None] is the not-exist error. *)
Definition lstat (t : worktree) (p : string) : option stat :=
  match wt_nodes t !! p with
  | Some (Regular d) => Some (StatRegular (String.length d))
  | Some Symlink => Some StatSymlink
  | None => if is_dir t p then Some StatDir else None
  end.

(** The entry of directory [d] through which path [p] passes. *)
Definition child_name (d p : string) : option string :=
  rest ← (if decide (d = ".") then Some p else cut_prefix (d +:+ "/") p);
  head (split_byte "/" rest).

(** [fs.ReadDir]: the names of the entries, sorted. *)
Definition read_dir (t : worktree) (d : string) : list string :=
  sort_strings (dedup (omap (child_name d) (wt_paths t))).

(** [path.Dir] of a path: the part before the last slash, cleaned. *)
Definition path_dir (p : string) : string :=
  match cut_last_byte "/" p with Some (dir, _) => path_clean dir | None => "." end.

(** [fs.Remove] of a file: its directory stays. *)
Definition fs_remove (p : string) (t : worktree) : worktree :=
  mkWorktree (delete p (wt_nodes t))
    (match cut_last_byte "/" p with Some (dir, _) => {[dir]} ∪ wt_dirs t | None => wt_dirs t end).

(** The proper prefixes of a path that end at a slash. *)
Definition ancestors (p : string) : list string :=
  omap (λ '(a, b), if has_prefix "/" b then Some a else None) (splits p).

(** [fs.MkdirAll(dir)] and [util.WriteFile]. *)
Definition fs_write (p data : string) (t : worktree) : option worktree :=
  if bool_decide (wt_nodes t !! p = Some Symlink) || is_dir t p ||
     existsb (λ a, bool_decide (is_Some (wt_nodes t !! a))) (ancestors p)
  then None
  else Some (mkWorktree (<[p := Regular data]> (wt_nodes t)) (wt_dirs t)).

(** * Records *)

Definition pruneMetadataDir : string := ".kollect-prune".
Definition maxPruneMetadataBytes : Z := 16777216.
Definition maxPruneOwners : Z := 1024.
Definition maxPrunePaths : Z := 100000.

(** Go: internal/sink/git/prune_owned.go:31-37 [pruneRecord] *)
Record pruneRecord := mkPruneRecord {
  rec_Version : Z;
  rec_Owner : string;
  rec_Paths : list string;
}.

#[export] Instance pruneRecord_eq_dec : EqDecision pruneRecord.
Proof. solve_decision. Defined.

(** [json.Marshal] of a record and the newline after it. *)
Definition encode_record (r : pruneRecord) : string :=
  json_object [("version", fmt_d (rec_Version r)); ("owner", json_string (rec_Owner r));
               ("paths", json_array (json_string <$> rec_Paths r))] +:+ String (ascii_of_nat 10) "".

(** One value with known fields only and nothing after it, or [None]. *)
Class PruneCodec := { decode_record : string → option pruneRecord }.

(** The rejections. [rejected_for_owner] are the ones built by
    [ownershipConflict], which concern the exporting inventory only. *)
Inductive prune_error :=
  | BadPath (p : string)
  | ReservedPath (p : string)
  | IsSymlink (p : string)
  | ParentNotDir (p : string)
  | NotRegular (p : string)
  | MetadataNotDir
  | MetadataTooLarge
  | TooManyOwners
  | BadRecord (name : string)
  | DuplicateOwnership (p : string)
  | ClaimedTwice (p : string)
  | ReleaseNeedsOwner
  | RecordOfAnotherOwner (owner : string)
  | OwnerTooLong
  | TooManyPaths
  | NotInKeepSet (p : string)
  | ForeignClaim (p owner : string)
  | WriteFailed (p : string).

Definition rejected_for_owner (e : prune_error) : bool :=
  match e with OwnerTooLong | TooManyPaths | NotInKeepSet _ | ForeignClaim _ _ => true | _ => false end.

(** The part of the sink's [Config] that concerns pruning. *)
Record PruneConfig := mkPruneConfig {
  cfg_Prune : bool;
  cfg_PruneOwner : string;
  cfg_PruneKeepPaths : list string;
  cfg_PruneClaimPaths : list string;
  cfg_ReleaseOnly : bool;
}.

(** Go: internal/sink/git/prune_owned.go:39-43 [ownedPrunePlan] *)
Record ownedPrunePlan := mkOwnedPrunePlan {
  plan_recordPath : string;
  plan_data : string;
  plan_remove : list string;
}.

(** Go: internal/sink/git/export.go:53-59 [FileEntry] *)
Record FileEntry := mkFileEntry {
  entry_Path : string;
  entry_Data : string;
}.

Inductive owner_error := OwnerIncomplete.
Definition pruneOwnerVersion : string := "v2".

(** Go: internal/sink/git/prune_owner.go:15-29 [InventoryPruneOwner] *)
Definition InventoryPruneOwner (kind cluster namespace name : string) : result owner_error string :=
  if decide (kind = "" ∨ cluster = "" ∨ name = "") then Err OwnerIncomplete
  else Ok (json_array (json_string <$> [pruneOwnerVersion; kind; cluster; namespace; name])).

(** Go: internal/sink/git/export.go:248-256 [pruneKeepSet] *)
Definition pruneKeepSet (cfg : PruneConfig) (writtenPaths : list string) : list string :=
  if decide (0 < length (cfg_PruneKeepPaths cfg)) then cfg_PruneKeepPaths cfg else writtenPaths.

(** Go: internal/sink/git/prune_tree.go:37-44 [pathSet] *)
Definition pathSet (paths : list string) : gmap string unit := list_to_map ((λ p, (p, tt)) <$> paths).

Section records.
Context `{!UnicodeCase, !Sha256, !PruneCodec, !MapRange}.

(** Go: internal/sink/git/prune_owned.go:45-47 [pruneRecordPath] *)
Definition pruneRecordPath (owner : string) : string := pruneMetadataDir +:+ "/" +:+ sha256_hex owner +:+ ".json".

Definition bad_path_char (c : ascii) : bool :=
  bool_decide (c ∈ ["\"%char; ascii_of_nat 0; ascii_of_nat 13; ascii_of_nat 10]).

(** Go: internal/sink/git/prune_owned.go:49-61 [validatePrunePath] *)
Definition validatePrunePath (p : string) : result prune_error unit :=
  if (4096 <? String.length p) || bool_decide (p = "") || bool_decide (p ≠ trim_space p) || has_prefix "/" p ||
     bool_decide (path_clean p ≠ p) || negb (string_forall (λ c, negb (bad_path_char c)) p)
  then Err (BadPath p)
  else for_each (λ part, if bool_decide (part = "." ∨ part = "..") || equal_fold part ".git" ||
                            equal_fold part pruneMetadataDir
                         then Err (ReservedPath p) else Ok tt) (split_byte "/" p).

(** The components of a path, each with whether it is the last. *)
Fixpoint components (pre : string) (parts : list string) : list (string * bool) :=
  match parts with
  | [] => []
  | part :: parts => (pre +:+ part, bool_decide (parts = [])) :: components (pre +:+ part +:+ "/") parts
  end.

Fixpoint check_components (t : worktree) (cs : list (string * bool)) : result prune_error unit :=
  match cs with
  | [] => Ok tt
  | (c, last) :: cs =>
      match lstat t c with
      | None => Ok tt
      | Some StatSymlink => Err (IsSymlink c)
      | Some StatDir => if last then Err (NotRegular c) else check_components t cs
      | Some (StatRegular _) => if last then check_components t cs else Err (ParentNotDir c)
      end
  end.

(** Go: internal/sink/git/prune_owned.go:63-87 [checkPruneFile] *)
Definition checkPruneFile (t : worktree) (p : string) : result prune_error unit :=
  check_components t (components "" (split_byte "/" p)).

(** The regular file at a path that [checkPruneFile] accepted. *)
Definition read_file (t : worktree) (p : string) : option string :=
  match wt_nodes t !! p with Some (Regular d) => Some d | _ => None end.

(** Go: internal/sink/git/prune_owned.go:89-120 [readPruneRecord] *)
Definition readPruneRecord (t : worktree) (name : string) (remaining : Z) :
    result prune_error (pruneRecord * Z) :=
  let p := path_join pruneMetadataDir name in
  checkPruneFile t p;;
  match read_file t p with
  | None => Err (BadRecord name)
  | Some data =>
      let size := Z.of_nat (String.length data) in
      if decide (remaining < size)%Z then Err MetadataTooLarge
      else
        match decode_record data with
        | None => Err (BadRecord name)
        | Some record =>
            if bool_decide (rec_Version record ≠ 1%Z) || bool_decide (rec_Owner record = "") ||
               (4096 <? String.length (rec_Owner record)) || bool_decide (pruneRecordPath (rec_Owner record) ≠ p) ||
               bool_decide (maxPrunePaths < Z.of_nat (length (rec_Paths record)))%Z
            then Err (BadRecord name)
            else Ok (record, size)
        end
  end.

Fixpoint claim_paths (owner : string) (paths : list string) (owners : gmap string string) :
    result prune_error (gmap string string) :=
  match paths with
  | [] => Ok owners
  | p :: paths =>
      validatePrunePath p;;
      match owners !! p with
      | Some _ => Err (DuplicateOwnership p)
      | None => claim_paths owner paths (<[p := owner]> owners)
      end
  end.

Fixpoint load_entries (t : worktree) (names : list string) (total : Z)
    (owners : gmap string string) (records : gmap string pruneRecord) :
    result prune_error (gmap string string * gmap string pruneRecord * Z) :=
  match names with
  | [] => Ok (owners, records, total)
  | name :: names =>
      '(record, size) ← readPruneRecord t name (maxPruneMetadataBytes - total)%Z;
      owners ← claim_paths (rec_Owner record) (rec_Paths record) owners;
      load_entries t names (total + size)%Z owners (<[rec_Owner record := record]> records)
  end.

(** Go: internal/sink/git/prune_owned.go:122-164 [loadPruneRecords] *)
Definition loadPruneRecords (t : worktree) :
    result prune_error (gmap string string * gmap string pruneRecord * Z) :=
  match lstat t pruneMetadataDir with
  | None => Ok (∅, ∅, 0%Z)
  | Some StatDir =>
      let entries := read_dir t pruneMetadataDir in
      if decide (maxPruneOwners < Z.of_nat (length entries))%Z then Err TooManyOwners
      else load_entries t entries 0 ∅ ∅
  | Some _ => Err MetadataNotDir
  end.

(** Go: internal/sink/git/prune_owned.go:306-314 [checkForeignClaim] *)
Definition checkForeignClaim (cfg : PruneConfig) (owners : gmap string string) (p : string) : result prune_error unit :=
  match owners !! p with
  | None => Ok tt
  | Some owner => if decide (owner = cfg_PruneOwner cfg) then Ok tt else Err (ForeignClaim p owner)
  end.

(** Go: internal/sink/git/prune_owned.go:265-304 [validateOwnedPrunePaths] *)
Definition validateOwnedPrunePaths (t : worktree) (cfg : PruneConfig) (written : list string)
    (owners : gmap string string) : result prune_error (gmap string unit) :=
  let keep := pruneKeepSet cfg written in
  if decide (maxPrunePaths < Z.of_nat (length keep))%Z then Err TooManyPaths
  else
    let current := pathSet keep in
    for_each (λ p, if decide (is_Some (current !! p)) then Ok tt else Err (NotInKeepSet p)) written;;
    for_each (λ p,
        validatePrunePath p;;
        (if cfg_Prune cfg then Ok tt else checkForeignClaim cfg owners p);;
        checkPruneFile t p) (map_range current).*1;;
    for_each (λ p, validatePrunePath p;; checkForeignClaim cfg owners p) (cfg_PruneClaimPaths cfg);;
    Ok current.

Fixpoint claims_of (self owner : string) (paths : list string) (claimedBy : gmap string string) :
    result prune_error (gmap string string) :=
  match paths with
  | [] => Ok claimedBy
  | p :: paths =>
      match claimedBy !! p with
      | None => claims_of self owner paths (<[p := owner]> claimedBy)
      | Some prev =>
          if decide (prev ≠ owner ∧ owner = self) then Err (ForeignClaim p prev)
          else if decide (prev ≠ owner ∧ prev = self) then Err (ForeignClaim p owner)
          else Err (ClaimedTwice p)
      end
  end.

Fixpoint single_claims (records : gmap string pruneRecord) (self : string) (owners : list string)
    (claimedBy : gmap string string) : result prune_error unit :=
  match owners with
  | [] => Ok tt
  | owner :: owners =>
      claimedBy ← claims_of self owner (default [] (rec_Paths <$> records !! owner)) claimedBy;
      single_claims records self owners claimedBy
  end.

(** Go: internal/sink/git/prune_owned.go:321-349 [checkSingleClaims] *)
Definition checkSingleClaims (records : gmap string pruneRecord) (self : string) : result prune_error unit :=
  single_claims records self (sort_strings (map_range records).*1) ∅.

(** Go: internal/sink/git/prune_owned.go:166-234 [prepareOwnedPrune] *)
Definition prepareOwnedPrune (t : worktree) (cfg : PruneConfig) (written : list string) :
    result prune_error (option ownedPrunePlan) :=
  let owner := cfg_PruneOwner cfg in
  if decide (owner = "") then Ok None
  else if 4096 <? String.length owner then Err OwnerTooLong
  else
    '(owners, records, total) ← loadPruneRecords t;
    current ← validateOwnedPrunePaths t cfg written owners;
    if negb (cfg_Prune cfg) then Ok None
    else
      let recorded := default [] (rec_Paths <$> records !! owner) in
      for_each (checkPruneFile t) recorded;;
      let remove := sort_strings (filter (λ p, current !! p = None) recorded) in
      let paths := sort_strings (map_range current).*1 in
      let record := mkPruneRecord 1 owner paths in
      let data := encode_record record in
      let records := <[owner := record]> records in
      checkSingleClaims records owner;;
      if decide (maxPruneOwners < Z.of_nat (size records))%Z then Err TooManyOwners
      else
        let recordPath := pruneRecordPath owner in
        let old := match lstat t recordPath with Some (StatRegular n) => Z.of_nat n | _ => 0%Z end in
        if decide (maxPruneMetadataBytes < total - old + Z.of_nat (String.length data))%Z then Err MetadataTooLarge
        else Ok (Some (mkOwnedPrunePlan recordPath data remove)).

(** * Writing an export *)

(** Go: internal/sink/git/prune_owned.go:236-252 [apply] *)
Definition apply_plan (p : option ownedPrunePlan) (t : worktree) : result prune_error worktree :=
  match p with
  | None => Ok t
  | Some p =>
      let t := foldl (λ t name, fs_remove name t) t (plan_remove p) in
      match fs_write (plan_recordPath p) (plan_data p) t with
      | Some t => Ok t
      | None => Err (WriteFailed (plan_recordPath p))
      end
  end.

(** Go: internal/sink/git/prune_tree.go:16-35 [managedDirs] *)
Definition managedDirs (paths : list string) : list string :=
  dedup (filter (λ d, d ≠ "." ∧ d ≠ "/" ∧ d ≠ "") (path_dir <$> paths)).

(** One managed directory: its files that are neither kept nor recorded go. *)
Definition prune_dir (keep : gmap string unit) (recorded : gmap string string) (t : worktree) (dir : string) : worktree :=
  foldl (λ t' name,
      let p := path_join dir name in
      if decide (lstat t p = Some StatDir ∨ is_Some (keep !! p) ∨ is_Some (recorded !! p)) then t'
      else fs_remove p t') t (read_dir t dir).

(** Go: internal/sink/git/prune_tree.go:54-93 [removeBillyOrphans] *)
Definition removeBillyOrphans (written : list string) (t : worktree) : result prune_error worktree :=
  '(recorded, _, _) ← loadPruneRecords t;
  Ok (foldl (prune_dir (pathSet written) recorded) t (managedDirs written)).

(** Go: internal/sink/git/export.go:258-265 [pruneBillyOrphans] *)
Definition pruneBillyOrphans (cfg : PruneConfig) (writtenPaths : list string) (t : worktree) : result prune_error worktree :=
  if negb (cfg_Prune cfg) || bool_decide (cfg_PruneOwner cfg ≠ "") then Ok t
  else removeBillyOrphans (pruneKeepSet cfg writtenPaths) t.

Fixpoint write_files (files : list FileEntry) (t : worktree) : result prune_error worktree :=
  match files with
  | [] => Ok t
  | f :: files =>
      match fs_write (entry_Path f) (entry_Data f) t with
      | Some t => write_files files t
      | None => Err (WriteFailed (entry_Path f))
      end
  end.

(** Go: internal/sink/git/export.go:577-608 [writeBillyExportFiles] *)
Definition writeBillyExportFiles (t : worktree) (cfg : PruneConfig) (files : list FileEntry) :
    result prune_error (list string * worktree) :=
  let paths := entry_Path <$> files in
  owned ← prepareOwnedPrune t cfg paths;
  t ← write_files files t;
  t ← apply_plan owned t;
  t ← pruneBillyOrphans cfg paths t;
  Ok (paths, t).

(** * Releasing an inventory *)

(** Go: internal/sink/git/release.go:19-31 [releasePlan] *)
Record releasePlan := mkReleasePlan {
  rp_candidates : list string;
  rp_protected : gmap string string;
  rp_exact : list string;
}.

(** Go: internal/sink/git/release.go:111-126 [regularFileExists] *)
Definition regularFileExists (t : worktree) (p : string) : result prune_error bool :=
  checkPruneFile t p;; Ok (match lstat t p with Some _ => true | None => false end).

(** Go: internal/sink/git/release.go:87-109 [ownRecord] *)
Definition ownRecord (t : worktree) (owner : string) : result prune_error (string * bool) :=
  if 4096 <? String.length owner then Err OwnerTooLong
  else
    let recordPath := pruneRecordPath owner in
    exists_ ← regularFileExists t recordPath;
    if negb exists_ then Ok (recordPath, false)
    else
      '(record, _) ← readPruneRecord t (sha256_hex owner +:+ ".json") maxPruneMetadataBytes;
      if decide (rec_Owner record ≠ owner) then Err (RecordOfAnotherOwner (rec_Owner record))
      else Ok (recordPath, true).

Fixpoint existing_paths (t : worktree) (paths : list string) : result prune_error (list string) :=
  match paths with
  | [] => Ok []
  | p :: paths =>
      exists_ ← regularFileExists t p;
      rest ← existing_paths t paths;
      Ok (if exists_ : bool then p :: rest else rest)
  end.

(** Go: internal/sink/git/release.go:33-85 [planRelease] *)
Definition planRelease (t : worktree) (cfg : PruneConfig) (candidates : list string) : result prune_error releasePlan :=
  let owner := cfg_PruneOwner cfg in
  if cfg_ReleaseOnly cfg then
    if decide (owner = "") then Err ReleaseNeedsOwner
    else
      '(recordPath, found) ← ownRecord t owner;
      if negb found then Ok (mkReleasePlan [] ∅ []) else Ok (mkReleasePlan [] ∅ [recordPath])
  else
    '(owners, records, _) ← loadPruneRecords t;
    let protected := filter (λ po, owner = "" ∨ po.2 ≠ owner) owners in
    if decide (owner = "") then Ok (mkReleasePlan candidates protected [])
    else
      match records !! owner with
      | None => Ok (mkReleasePlan candidates protected [])
      | Some record =>
          exact ← existing_paths t (rec_Paths record);
          Ok (mkReleasePlan candidates protected (exact ++ [pruneRecordPath owner]))
      end.

(** One matcher of one candidate: the directory is listed once, then each file
    that matches and is not protected is removed; [tracked] says whether the index
    knows the path, and only such a removal is reported. *)
Definition sweep_matcher (tracked : string → bool) (protected : gmap string string) (m : KeyMatcher)
    (st : list string * worktree) : list string * worktree :=
  let dir := ListDir m in
  foldl (λ '(removed, t') name,
      let full := JoinDir dir name in
      if decide (lstat (st.2) full = Some StatDir) then (removed, t')
      else if negb (Matches m full) then (removed, t')
      else if decide (is_Some (protected !! full)) then (removed, t')
      else (if tracked full then removed ++ [full] else removed, fs_remove full t'))
    st (read_dir st.2 dir).

(** Go: internal/sink/git/delete.go:852-910 [removeFSCandidates] *)
Definition removeFSCandidates (tracked : string → bool) (protected : gmap string string) (paths : list string)
    (t : worktree) : list string * worktree :=
  foldl (λ st candidate, foldl (λ st m, sweep_matcher tracked protected m st) st (CleanupMatchers candidate))
    ([], t) paths.

(** Go: internal/sink/git/release.go:128-156 [removeExact] *)
Fixpoint removeExact (tracked : string → bool) (paths : list string) (t : worktree) :
    result prune_error (list string * worktree) :=
  match paths with
  | [] => Ok ([], t)
  | p :: paths =>
      exists_ ← regularFileExists t p;
      if negb exists_ then removeExact tracked paths t
      else
        '(removed, t) ← removeExact tracked paths (fs_remove p t);
        Ok (if tracked p then p :: removed else removed, t)
  end.

(** Go: internal/sink/git/release.go:158-172 [appendNew] *)
Definition appendNew (dst more : list string) : list string :=
  foldl (λ dst p, if decide (p ∈ dst) then dst else dst ++ [p]) dst more.

(** Go: internal/sink/git/delete.go:831-850 [releaseFS] *)
Definition releaseFS (tracked : string → bool) (t : worktree) (cfg : PruneConfig) (paths : list string) :
    result prune_error (list string * worktree) :=
  plan ← planRelease t cfg paths;
  let '(removed, t) := removeFSCandidates tracked (rp_protected plan) (rp_candidates plan) t in
  '(exact, t) ← removeExact tracked (rp_exact plan) t;
  Ok (appendNew removed exact, t).
End records.

(** * What a successful load says *)

Section records_lemmas.
Context `{!UnicodeCase, !Sha256, !PruneCodec, !MapRange}.

Lemma then_ok {E A} (r : result E unit) (k : result E A) a : (r;; k) = Ok a ↔ r = Ok tt ∧ k = Ok a.
Proof.
  split.
  - intros ([] & Hr & Hk)%result_bind_ok. done.
  - intros [-> ->]. done.
Qed.

(** The record stored at an owner's record path. *)
Definition stored_record (t : worktree) (owner : string) (r : pruneRecord) : Prop :=
  rec_Owner r = owner ∧ ∃ d, read_file t (pruneRecordPath owner) = Some d ∧ decode_record d = Some r.

Lemma stored_record_unique t o r1 r2 : stored_record t o r1 → stored_record t o r2 → r1 = r2.
Proof. intros (_ & d1 & Hd1 & Hr1) (_ & d2 & Hd2 & Hr2). congruence. Qed.

(** A record's path list is acceptable on its own. *)
Definition valid_paths (l : list string) : Prop := NoDup l ∧ Forall (λ p, validatePrunePath p = Ok tt) l.

Lemma readPruneRecord_ok t name remaining r size :
  readPruneRecord t name remaining = Ok (r, size) ↔
  let p := path_join pruneMetadataDir name in
  checkPruneFile t p = Ok tt ∧ pruneRecordPath (rec_Owner r) = p ∧ rec_Version r = 1%Z ∧ rec_Owner r ≠ "" ∧
  String.length (rec_Owner r) ≤ 4096 ∧ (Z.of_nat (length (rec_Paths r)) ≤ maxPrunePaths)%Z ∧
  ∃ d, read_file t p = Some d ∧ decode_record d = Some r ∧ size = Z.of_nat (String.length d) ∧ (size ≤ remaining)%Z.
Proof.
  unfold readPruneRecord. cbv zeta. rewrite then_ok. apply and_iff_compat_l.
  destruct (read_file t _) as [d|]; [|by split; [|intros (_&_&_&_&_&?&?&_)]].
  case_decide as Hsz; [split; [done|]; intros (_&_&_&_&_&?&[= <-]&_&?&?); lia|].
  destruct (decode_record d) as [r'|] eqn:Hdec.
  2:{ split; [done|]. intros (_&_&_&_&_&d'&[= <-]&Hd'&_). congruence. }
  destruct (_ || _) eqn:Hb.
  - split; [done|]. intros (Hp & Hv & Ho & Hl & Hn & d' & [= <-] & Hd' & _).
    assert (r' = r) as -> by congruence.
    rewrite !orb_true_iff, !bool_decide_eq_true, Nat.ltb_lt in Hb. exfalso. intuition lia.
  - rewrite !orb_false_iff, !bool_decide_eq_false, Nat.ltb_nlt in Hb. destruct Hb as [[[[Hv Ho] Hl] Hp] Hn].
    split.
    + intros [= -> <-]. split_and!; try done; try lia; try (by apply dec_stable).
      exists d. split_and!; try done. lia.
    + intros (_ & _ & _ & _ & _ & d' & [= <-] & Hd' & -> & _). congruence.
Qed.

Lemma claim_paths_ok owner paths owners owners' :
  claim_paths owner paths owners = Ok owners' ↔
  valid_paths paths ∧ Forall (λ p, owners !! p = None) paths ∧
  owners' = list_to_map ((λ p, (p, owner)) <$> paths) ∪ owners.
Proof.
  unfold valid_paths. revert owners. induction paths as [|p paths IH]; intros owners; cbn [claim_paths].
  - split.
    + intros [= <-]. split_and!; try constructor. symmetry. apply (left_id_L ∅ (∪)).
    + intros (_ & _ & ->). f_equal. symmetry. apply (left_id_L ∅ (∪)).
  - rewrite then_ok, NoDup_cons, !Forall_cons. destruct (owners !! p) as [o|] eqn:Ho.
    + split; [by intros [_ ?]|]. by intros (_ & [? _] & _).
    + rewrite IH.
      assert (list_to_map ((λ p, (p, owner)) <$> p :: paths) ∪ owners =
              <[p := owner]> (list_to_map ((λ p, (p, owner)) <$> paths) ∪ owners)) as ->.
      { rewrite fmap_cons, insert_union_l. done. }
      assert (p ∉ paths → list_to_map ((λ p, (p, owner)) <$> paths) ∪ <[p := owner]> owners =
              <[p := owner]> (list_to_map ((λ p, (p, owner)) <$> paths) ∪ owners)) as Hu.
      { intros Hp. rewrite <- insert_union_r; [done|]. apply not_elem_of_list_to_map_1.
        rewrite <- list_fmap_compose. intros (q & -> & Hq)%list_elem_of_fmap. done. }
      assert (Forall (λ q, <[p := owner]> owners !! q = None) paths ↔
              p ∉ paths ∧ Forall (λ q, owners !! q = None) paths) as Hf.
      { rewrite !Forall_forall. split.
        - intros Hall. split; [intros Hp; specialize (Hall p Hp); by rewrite lookup_insert_eq in Hall|].
          intros q Hq. specialize (Hall q Hq). destruct (decide (p = q)) as [->|]; [done|].
          by rewrite lookup_insert_ne in Hall.
        - intros [Hp Hall] q Hq. rewrite lookup_insert_ne by (by intros ->). by apply Hall. }
      rewrite Hf. split.
      * intros (Hv & [Hnd Hval] & [Hp Hfree] & ->). by rewrite Hu.
      * intros ([[Hp Hnd] [Hv Hval]] & [_ Hfree] & ->). by rewrite Hu.
Qed.

(** What [loadPruneRecords] guarantees about the maps it returns. *)
Definition loaded (t : worktree) (owners : gmap string string) (records : gmap string pruneRecord) : Prop :=
  (∀ o r, records !! o = Some r → stored_record t o r ∧ valid_paths (rec_Paths r)) ∧
  (∀ p o, owners !! p = Some o ↔ ∃ r, records !! o = Some r ∧ p ∈ rec_Paths r).

Lemma loaded_insert t owners records r :
  loaded t owners records → stored_record t (rec_Owner r) r → valid_paths (rec_Paths r) →
  Forall (λ p, owners !! p = None) (rec_Paths r) →
  loaded t (list_to_map ((λ p, (p, rec_Owner r)) <$> rec_Paths r) ∪ owners) (<[rec_Owner r := r]> records).
Proof.
  intros [Hrec Hown] Hst Hval Hfree. split.
  - intros o r' Hr'. destruct (decide (rec_Owner r = o)) as [<-|Hne].
    + rewrite lookup_insert_eq in Hr'. by injection Hr' as <-.
    + rewrite lookup_insert_ne in Hr' by done. by apply Hrec.
  - intros p o. set (m := list_to_map _ : gmap string string).
    assert (m !! p = if decide (p ∈ rec_Paths r) then Some (rec_Owner r) else None) as Hm.
    { unfold m. case_decide as Hp.
      - apply elem_of_list_to_map_1.
        + rewrite <- list_fmap_compose. change (fst ∘ ?f) with (@id string). rewrite list_fmap_id. apply Hval.
        + apply list_elem_of_fmap. by exists p.
      - apply not_elem_of_list_to_map_1. rewrite <- list_fmap_compose. intros (q & -> & Hq)%list_elem_of_fmap. done. }
    rewrite lookup_union, Hm. case_decide as Hp.
    + assert (owners !! p = None) as -> by (by rewrite Forall_forall in Hfree; apply Hfree). cbn. split.
      * intros [= <-]. exists r. by rewrite lookup_insert_eq.
      * intros (r' & Hr' & Hp'). destruct (decide (rec_Owner r = o)) as [->|Hne]; [done|]. exfalso.
        rewrite lookup_insert_ne in Hr' by done. rewrite Forall_forall in Hfree.
        assert (owners !! p = Some o) as Hsome by (apply Hown; eauto). rewrite Hfree in Hsome; done.
    + destruct (owners !! p) as [o'|] eqn:Ho; cbn.
      * split; [intros [= <-]|].
        -- apply Hown in Ho as (r' & Hr' & Hp'). exists r'. split; [|done].
           rewrite lookup_insert_ne; [done|]. intros <-. destruct (Hrec _ _ Hr') as [Hst' _].
           assert (r = r') as -> by (by eapply stored_record_unique). done.
        -- intros (r' & Hr' & Hp'). destruct (decide (rec_Owner r = o)) as [<-|Hne].
           ++ rewrite lookup_insert_eq in Hr'. by injection Hr' as <-.
           ++ rewrite lookup_insert_ne in Hr' by done. assert (owners !! p = Some o) as Hs by (apply Hown; eauto). congruence.
      * split; [done|]. intros (r' & Hr' & Hp'). destruct (decide (rec_Owner r = o)) as [<-|Hne].
        -- rewrite lookup_insert_eq in Hr'. by injection Hr' as <-.
        -- rewrite lookup_insert_ne in Hr' by done. assert (owners !! p = Some o) as Hs by (apply Hown; eauto). congruence.
Qed.

Lemma load_entries_loaded t names total owners records owners' records' total' :
  loaded t owners records → load_entries t names total owners records = Ok (owners', records', total') →
  loaded t owners' records'.
Proof.
  revert total owners records. induction names as [|name names IH]; intros total owners records Hl; cbn [load_entries].
  - by intros [= <- <- _].
  - intros ([r size] & Hr & Hk)%result_bind_ok. apply result_bind_ok in Hk as (owners1 & Hc & Hk).
    apply claim_paths_ok in Hc as (Hval & Hfree & ->). eapply IH, Hk. apply loaded_insert; try done.
    apply readPruneRecord_ok in Hr as (_ & Hp & _ & _ & _ & _ & d & Hd & Hdec & _). rewrite <- Hp in Hd.
    split; [done|]. by exists d.
Qed.

Lemma loadPruneRecords_loaded t owners records total :
  loadPruneRecords t = Ok (owners, records, total) → loaded t owners records.
Proof.
  unfold loadPruneRecords. destruct (lstat t pruneMetadataDir) as [[]|]; try done.
  - case_decide; [done|]. apply load_entries_loaded. split; [done|]. intros p o. split; [done|]. by intros (r & ? & _).
  - intros [= <- <- _]. split; [done|]. intros p o. split; [done|]. by intros (r & ? & _).
Qed.

(** * What a prepared plan says *)

Lemma claims_of_ok self owner paths claimed claimed' :
  claims_of self owner paths claimed = Ok claimed' →
  (∀ p, p ∈ paths → claimed !! p = None ∧ claimed' !! p = Some owner) ∧
  (∀ p o, claimed !! p = Some o → claimed' !! p = Some o).
Proof.
  revert claimed. induction paths as [|p paths IH]; intros claimed; cbn [claims_of].
  - intros [= <-]. split; [|done]. intros p Hp. by apply not_elem_of_nil in Hp.
  - destruct (claimed !! p) as [prev|] eqn:Hp; [by repeat case_decide|].
    intros [Hc1 Hc2]%IH. split.
    + intros q [->|Hq]%elem_of_cons.
      * split; [done|]. apply Hc2. by rewrite lookup_insert_eq.
      * destruct (Hc1 q Hq) as [Hn Hs]. split; [|done].
        destruct (decide (p = q)) as [->|Hne]; [done|]. by rewrite lookup_insert_ne in Hn.
    + intros q o Hq. apply Hc2. rewrite lookup_insert_ne; [done|]. intros ->. congruence.
Qed.

Lemma single_claims_ok records self owners claimed :
  single_claims records self owners claimed = Ok tt →
  (∀ p o, claimed !! p = Some o → ∀ o' r, o' ∈ owners → records !! o' = Some r → p ∉ rec_Paths r) ∧
  (NoDup owners → ∀ o1 o2 r1 r2 p, o1 ∈ owners → o2 ∈ owners → records !! o1 = Some r1 → records !! o2 = Some r2 →
     p ∈ rec_Paths r1 → p ∈ rec_Paths r2 → o1 = o2).
Proof.
  revert claimed. induction owners as [|o owners IH]; intros claimed; cbn [single_claims].
  - intros _. split; [intros p o _ o' r Ho'|intros _ o1 o2 r1 r2 p Ho1]; by apply not_elem_of_nil in Ho' || apply not_elem_of_nil in Ho1.
  - intros (claimed1 & Hc & Hs)%result_bind_ok. apply claims_of_ok in Hc as [Hc1 Hc2]. apply IH in Hs as [IH1 IH2].
    assert (∀ r p, records !! o = Some r → p ∈ rec_Paths r → claimed !! p = None ∧ claimed1 !! p = Some o) as Ho.
    { intros r p Hr Hp. apply Hc1. by rewrite Hr. }
    split.
    + intros p o0 Hp o' r [->|Ho']%elem_of_cons Hr Hin.
      * destruct (Ho r p Hr Hin). congruence.
      * by eapply IH1; [apply Hc2, Hp|done|done|].
    + intros [Hni Hnd]%NoDup_cons o1 o2 r1 r2 p [->|Ho1]%elem_of_cons [->|Ho2]%elem_of_cons Hr1 Hr2 Hp1 Hp2.
      * done.
      * destruct (Ho r1 p Hr1 Hp1) as [_ Hcl]. by destruct (IH1 p o Hcl o2 r2 Ho2 Hr2).
      * destruct (Ho r2 p Hr2 Hp2) as [_ Hcl]. by destruct (IH1 p o Hcl o1 r1 Ho1 Hr1).
      * by eapply IH2.
Qed.

Lemma checkSingleClaims_ok records self :
  checkSingleClaims records self = Ok tt →
  ∀ o1 o2 r1 r2 p, records !! o1 = Some r1 → records !! o2 = Some r2 → p ∈ rec_Paths r1 → p ∈ rec_Paths r2 → o1 = o2.
Proof.
  intros [_ Hs]%single_claims_ok o1 o2 r1 r2 p Hr1 Hr2. eapply Hs; try done.
  - rewrite sort_strings_perm. apply NoDup_map_range.
  - apply elem_of_sort_strings, list_elem_of_fmap. exists (o1, r1). split; [done|]. by apply elem_of_map_range.
  - apply elem_of_sort_strings, list_elem_of_fmap. exists (o2, r2). split; [done|]. by apply elem_of_map_range.
Qed.

Lemma pathSet_lookup paths p : is_Some (pathSet paths !! p) ↔ p ∈ paths.
Proof.
  unfold pathSet. split.
  - intros [[] Hp]. apply elem_of_list_to_map_2, list_elem_of_fmap in Hp as (q & [= ->] & Hq). done.
  - intros Hp. destruct (list_to_map _ !! p) eqn:Hn; [done|]. exfalso.
    apply not_elem_of_list_to_map in Hn. apply Hn. rewrite <- list_fmap_compose. apply list_elem_of_fmap. by exists p.
Qed.

Lemma elem_of_pathSet_range paths p : p ∈ (map_range (pathSet paths)).*1 ↔ p ∈ paths.
Proof.
  rewrite <- (pathSet_lookup paths p), list_elem_of_fmap. split.
  - intros ([q u] & -> & Hin%elem_of_map_range). by exists u.
  - intros [u Hu]. exists (p, u). split; [done|]. by apply elem_of_map_range.
Qed.

Lemma validateOwnedPrunePaths_ok t cfg written owners current :
  validateOwnedPrunePaths t cfg written owners = Ok current →
  let keep := pruneKeepSet cfg written in
  current = pathSet keep ∧ (Z.of_nat (length keep) ≤ maxPrunePaths)%Z ∧ (∀ p, p ∈ written → p ∈ keep) ∧
  (∀ p, p ∈ keep → validatePrunePath p = Ok tt ∧ checkPruneFile t p = Ok tt ∧
     (cfg_Prune cfg = false → checkForeignClaim cfg owners p = Ok tt)) ∧
  (∀ p, p ∈ cfg_PruneClaimPaths cfg → validatePrunePath p = Ok tt ∧ checkForeignClaim cfg owners p = Ok tt).
Proof.
  unfold validateOwnedPrunePaths. cbv zeta. case_decide as Hlen; [done|]. rewrite !then_ok, !for_each_ok, !Forall_forall.
  intros (Hw & Hk & Hc & [= <-]). split_and!; try done; try lia.
  - intros p Hp. specialize (Hw p Hp). cbn beta in Hw. case_decide as Hs; [|done]. by apply pathSet_lookup.
  - intros p Hp. apply elem_of_pathSet_range in Hp. specialize (Hk p Hp). rewrite !then_ok in Hk.
    destruct Hk as (? & Hf & ?). split_and!; try done. intros Hpr. by rewrite Hpr in Hf.
  - intros p Hp. specialize (Hc p Hp). by rewrite then_ok in Hc.
Qed.

(** The record an export leaves behind. *)
Definition next_record (cfg : PruneConfig) (written : list string) : pruneRecord :=
  mkPruneRecord 1 (cfg_PruneOwner cfg) (sort_strings (map_range (pathSet (pruneKeepSet cfg written))).*1).

Lemma next_record_paths cfg written p : p ∈ rec_Paths (next_record cfg written) ↔ p ∈ pruneKeepSet cfg written.
Proof. cbn [next_record rec_Paths]. by rewrite elem_of_sort_strings, elem_of_pathSet_range. Qed.

Lemma prepareOwnedPrune_ok t cfg written plan :
  cfg_PruneOwner cfg ≠ "" → prepareOwnedPrune t cfg written = Ok plan →
  ∃ owners records total,
    loadPruneRecords t = Ok (owners, records, total) ∧
    validateOwnedPrunePaths t cfg written owners = Ok (pathSet (pruneKeepSet cfg written)) ∧
    String.length (cfg_PruneOwner cfg) ≤ 4096 ∧
    if cfg_Prune cfg then
      let owner := cfg_PruneOwner cfg in
      let recorded := default [] (rec_Paths <$> records !! owner) in
      let record := next_record cfg written in
      let old := match lstat t (pruneRecordPath owner) with Some (StatRegular n) => Z.of_nat n | _ => 0%Z end in
      Forall (λ p, checkPruneFile t p = Ok tt) recorded ∧
      plan = Some (mkOwnedPrunePlan (pruneRecordPath owner) (encode_record record)
               (sort_strings (filter (λ p, pathSet (pruneKeepSet cfg written) !! p = None) recorded))) ∧
      checkSingleClaims (<[owner := record]> records) owner = Ok tt ∧
      (Z.of_nat (size (<[owner := record]> records)) ≤ maxPruneOwners)%Z ∧
      (total - old + Z.of_nat (String.length (encode_record record)) ≤ maxPruneMetadataBytes)%Z
    else plan = None.
Proof.
  intros Ho. unfold prepareOwnedPrune. cbv zeta. rewrite decide_False by done. destruct (4096 <? _) eqn:Hl; [done|].
  apply Nat.ltb_nlt in Hl. intros ([[owners records] total] & Hload & Hk)%result_bind_ok.
  apply result_bind_ok in Hk as (current & Hv & Hk). pose proof (validateOwnedPrunePaths_ok _ _ _ _ _ Hv) as (-> & _).
  exists owners, records, total. split_and!; [done|done|lia|]. destruct (cfg_Prune cfg); cbn [negb] in Hk; [|by injection Hk as <-].
  apply then_ok in Hk as [Hf Hk]. apply for_each_ok in Hf. apply then_ok in Hk as [Hs Hk].
  case_decide as Hm; [done|]. case_decide as Hb; [done|]. injection Hk as <-.
  split_and!; [exact Hf|done|exact Hs|by apply Z.nlt_ge|by apply Z.nlt_ge].
Qed.

(** * Working-tree updates *)

(** What the writes leave at a path: the last one wins. *)
Definition written_data (files : list FileEntry) (q : string) : option string :=
  entry_Data <$> last (filter (λ f, entry_Path f = q) files).

Lemma fs_write_nodes p d t t' :
  fs_write p d t = Some t' → wt_nodes t' = <[p := Regular d]> (wt_nodes t) ∧ wt_dirs t' = wt_dirs t.
Proof. unfold fs_write. destruct (_ || _); [done|]. by intros [= <-]. Qed.

Lemma write_files_nodes files t t' q :
  write_files files t = Ok t' →
  wt_nodes t' !! q = match written_data files q with Some d => Some (Regular d) | None => wt_nodes t !! q end.
Proof.
  revert t. induction files as [|f files IH]; intros t; cbn [write_files]; [by intros [= <-]|].
  destruct (fs_write _ _ t) as [t1|] eqn:Hw; [|done]. apply fs_write_nodes in Hw as [Hn _].
  intros Ht. rewrite (IH t1 Ht), Hn. unfold written_data. rewrite filter_cons. case_decide as Hq.
  - rewrite last_cons. destruct (last (filter _ files)) as [g|]; [done|]. cbn. by rewrite Hq, lookup_insert_eq.
  - destruct (last (filter _ files)); [done|]. cbn. by rewrite lookup_insert_ne.
Qed.

Lemma written_data_Some files q : is_Some (written_data files q) ↔ q ∈ entry_Path <$> files.
Proof.
  unfold written_data. rewrite fmap_is_Some, last_is_Some, list_elem_of_fmap. split.
  - intros Hne. destruct (filter _ files) as [|f l] eqn:Hf; [done|].
    assert (f ∈ filter (λ f, entry_Path f = q) files) as [<- Hin]%list_elem_of_filter by (rewrite Hf; left). by exists f.
  - intros (f & -> & Hin) Hn. assert (f ∈ filter (λ g, entry_Path g = entry_Path f) files) as Hc.
    { by apply list_elem_of_filter. } rewrite Hn in Hc. by apply not_elem_of_nil in Hc.
Qed.

Lemma fs_remove_nodes l t q :
  wt_nodes (foldl (λ t name, fs_remove name t) t l) !! q = if decide (q ∈ l) then None else wt_nodes t !! q.
Proof.
  revert t. induction l as [|p l IH]; intros t; cbn [foldl].
  - by rewrite decide_False by apply not_elem_of_nil.
  - rewrite IH. cbn [fs_remove wt_nodes]. destruct (decide (q ∈ l)) as [Hq|Hq].
    + by rewrite decide_True by (by right).
    + destruct (decide (q = p)) as [->|Hne].
      * by rewrite decide_True, lookup_delete_eq by left.
      * rewrite decide_False by (by intros [?|?]%elem_of_cons). by rewrite lookup_delete_ne.
Qed.

(** A path an ownership record may list is not in the metadata directory. *)
Lemma valid_path_not_record p o : validatePrunePath p = Ok tt → p ≠ pruneRecordPath o.
Proof.
  unfold validatePrunePath. destruct (_ || _); [done|]. rewrite for_each_ok, Forall_forall. intros Hall ->.
  assert (pruneMetadataDir ∈ split_byte "/" (pruneRecordPath o)) as Hin.
  { unfold pruneRecordPath. change (pruneMetadataDir +:+ "/" +:+ ?r) with (pruneMetadataDir +:+ String "/" r).
    rewrite split_byte_app by done. left. }
  specialize (Hall _ Hin). done.
Qed.

(** The directories that a list of removals leaves behind. *)
Lemma fs_remove_dirs l t d :
  d ∈ wt_dirs (foldl (λ t name, fs_remove name t) t l) ↔
  d ∈ wt_dirs t ∨ ∃ p f, p ∈ l ∧ cut_last_byte "/" p = Some (d, f).
Proof.
  revert t. induction l as [|p l IH]; intros t; cbn [foldl].
  - split; [by left|]. intros [?|(p & f & Hp & _)]; [done|]. by apply not_elem_of_nil in Hp.
  - rewrite IH. cbn [fs_remove wt_dirs].
    assert (d ∈ match cut_last_byte "/" p with Some (dir, _) => {[dir]} ∪ wt_dirs t | None => wt_dirs t end ↔
            d ∈ wt_dirs t ∨ ∃ f, cut_last_byte "/" p = Some (d, f)) as ->.
    { destruct (cut_last_byte "/" p) as [[dir f]|].
      - rewrite elem_of_union, elem_of_singleton. split; [intros [->|?]; [right; by exists f|by left]|].
        intros [?|[f' [= -> _]]]; [by right|by left].
      - split; [by left|]. by intros [?|[f' ?]]. }
    split.
    + intros [[?|[f Hf]]|(q & f & Hq & Hf)]; [by left|right; exists p, f; split; [left|done]|].
      right. exists q, f. split; [by right|done].
    + intros [?|(q & f & [->|Hq]%elem_of_cons & Hf)]; [by left; left|left; right; by exists f|].
      right. by exists q, f.
Qed.

(** The tree after a pruning export, path by path, and the claims it made sure of. *)
Lemma owned_export_tree t cfg files paths t' owners records total :
  let owner := cfg_PruneOwner cfg in
  let written := entry_Path <$> files in
  let keep := pruneKeepSet cfg written in
  owner ≠ "" → cfg_Prune cfg = true → loadPruneRecords t = Ok (owners, records, total) →
  writeBillyExportFiles t cfg files = Ok (paths, t') →
  (∀ q, wt_nodes t' !! q =
     if decide (q = pruneRecordPath owner) then Some (Regular (encode_record (next_record cfg written)))
     else if decide (owners !! q = Some owner ∧ q ∉ keep) then None
     else match written_data files q with Some d => Some (Regular d) | None => wt_nodes t !! q end) ∧
  (∀ d, d ∈ wt_dirs t' → d ∈ wt_dirs t ∨ ∃ p f, owners !! p = Some owner ∧ cut_last_byte "/" p = Some (d, f)) ∧
  (∀ d, d ∈ wt_dirs t → d ∈ wt_dirs t') ∧
  (∀ q o, owners !! q = Some o → o ≠ owner → q ∉ keep) ∧
  (∀ q, q ∈ written → q ∈ keep) ∧ (∀ q, q ∈ keep → validatePrunePath q = Ok tt).
Proof.
  cbv zeta. intros Ho Hpr Hload Hrun. unfold writeBillyExportFiles in Hrun.
  apply result_bind_ok in Hrun as (plan & Hplan & Hrun). apply result_bind_ok in Hrun as (t1 & Ht1 & Hrun).
  apply result_bind_ok in Hrun as (t2 & Ht2 & Hrun). apply result_bind_ok in Hrun as (t3 & Ht3 & [= <- <-]).
  unfold pruneBillyOrphans in Ht3. rewrite bool_decide_true, orb_true_r in Ht3 by done. injection Ht3 as <-.
  apply prepareOwnedPrune_ok in Hplan as (owners' & records' & total' & Hload' & Hv & _ & Hplan); [|done].
  rewrite Hload in Hload'. injection Hload' as <- <- <-. rewrite Hpr in Hplan.
  pose proof (loadPruneRecords_loaded _ _ _ _ Hload) as [Hrec Hown].
  apply validateOwnedPrunePaths_ok in Hv as (_ & _ & Hwk & Hkeep & _).
  set (owner := cfg_PruneOwner cfg) in *. set (written := entry_Path <$> files) in *. set (keep := pruneKeepSet cfg written) in *.
  destruct Hplan as (_ & -> & Hsc & _ & _). cbn [apply_plan plan_remove plan_recordPath plan_data] in Ht2.
  destruct (fs_write _ _ _) as [t3|] eqn:Hw; [|done]. injection Ht2 as <-. apply fs_write_nodes in Hw as [Hn3 Hd3].
  set (recorded := default [] (rec_Paths <$> records !! owner)) in *.
  assert (∀ q, q ∈ sort_strings (filter (λ p, pathSet keep !! p = None) recorded) ↔
               owners !! q = Some owner ∧ q ∉ keep) as Hrem.
  { intros q. rewrite elem_of_sort_strings, list_elem_of_filter, eq_None_not_Some, pathSet_lookup, Hown. unfold recorded.
    destruct (records !! owner) as [r|]; cbn.
    - split; [intros [? ?]; split; [by exists r|done]|]. by intros [(? & [= <-] & ?) ?].
    - split; [intros [_ Hq]; by apply not_elem_of_nil in Hq|]. by intros [(? & ? & _) _]. }
  assert (wt_dirs t1 = wt_dirs t) as Hd1.
  { clear -Ht1. revert t Ht1. induction files as [|f files IH]; intros t; cbn [write_files]; [by intros [= <-]|].
    destruct (fs_write _ _ t) as [t2|] eqn:Hw; [|done]. apply fs_write_nodes in Hw as [_ <-]. apply IH. }
  split_and!.
  - intros q. rewrite Hn3. case_decide as Hq; [by rewrite Hq, lookup_insert_eq|].
    rewrite lookup_insert_ne, fs_remove_nodes, (write_files_nodes files t t1) by done. by apply decide_ext.
  - intros d. rewrite Hd3, fs_remove_dirs, Hd1. intros [?|(p & f & [Hp _]%Hrem & Hf)]; [by left|]. right. by exists p, f.
  - intros d Hd. rewrite Hd3, fs_remove_dirs, Hd1. by left.
  - intros q o Hq Hne Hk. apply Hne. apply Hown in Hq as (r & Hr & Hp).
    eapply (checkSingleClaims_ok _ _ Hsc o owner r (next_record cfg written) q); try done.
    + by rewrite lookup_insert_ne.
    + by rewrite lookup_insert_eq.
    + by apply next_record_paths.
  - done.
  - intros q Hq. by apply Hkeep.
Qed.

(** A non-pruning export with an owner only writes, and not over a foreign path. *)
Lemma owned_write_tree t cfg files paths t' owners records total :
  cfg_PruneOwner cfg ≠ "" → cfg_Prune cfg = false → loadPruneRecords t = Ok (owners, records, total) →
  writeBillyExportFiles t cfg files = Ok (paths, t') →
  (∀ q, wt_nodes t' !! q = match written_data files q with Some d => Some (Regular d) | None => wt_nodes t !! q end) ∧
  (∀ q o, owners !! q = Some o → o ≠ cfg_PruneOwner cfg → q ∉ entry_Path <$> files).
Proof.
  intros Ho Hpr Hload Hrun. unfold writeBillyExportFiles in Hrun.
  apply result_bind_ok in Hrun as (plan & Hplan & Hrun). apply result_bind_ok in Hrun as (t1 & Ht1 & Hrun).
  apply result_bind_ok in Hrun as (t2 & Ht2 & Hrun). apply result_bind_ok in Hrun as (t3 & Ht3 & [= <- <-]).
  unfold pruneBillyOrphans in Ht3. rewrite Hpr in Ht3. injection Ht3 as <-.
  apply prepareOwnedPrune_ok in Hplan as (owners' & records' & total' & Hload' & Hv & _ & Hplan); [|done].
  rewrite Hload in Hload'. injection Hload' as <- <- <-. rewrite Hpr in Hplan. subst plan. injection Ht2 as <-.
  apply validateOwnedPrunePaths_ok in Hv as (_ & _ & Hwk & Hkeep & _). split.
  - intros q. by apply write_files_nodes.
  - intros q o Hq Hne Hw. destruct (Hkeep q (Hwk q Hw)) as (_ & _ & Hf). specialize (Hf Hpr).
    unfold checkForeignClaim in Hf. rewrite Hq in Hf. by case_decide.
Qed.

Lemma not_written_data files q : q ∉ entry_Path <$> files → written_data files q = None.
Proof. intros Hq. apply eq_None_not_Some. by rewrite written_data_Some. Qed.

Lemma recorded_not_record t owners records q o o' :
  loaded t owners records → owners !! q = Some o → q ≠ pruneRecordPath o'.
Proof.
  intros [Hrec Hown] Hq. apply Hown in Hq as (r & Hr & Hp). apply Hrec in Hr as [_ [_ Hval]].
  rewrite Forall_forall in Hval. by apply valid_path_not_record, Hval.
Qed.

(** C33. An export with an owner leaves alone what is not its own: every file
    another inventory's record lists and every file no record lists and that the
    export does not write are untouched; each file of the export holds what was
    written last; and a pruning export removes exactly its own recorded files that
    are no longer kept. *)
Theorem export_respects_ownership t cfg files paths t' owners records total :
  let owner := cfg_PruneOwner cfg in
  let written := entry_Path <$> files in
  owner ≠ "" → loadPruneRecords t = Ok (owners, records, total) →
  writeBillyExportFiles t cfg files = Ok (paths, t') →
  (∀ q o, owners !! q = Some o → o ≠ owner → wt_nodes t' !! q = wt_nodes t !! q) ∧
  (∀ q, owners !! q = None → q ∉ written → q ≠ pruneRecordPath owner → wt_nodes t' !! q = wt_nodes t !! q) ∧
  (∀ q, q ∈ written → wt_nodes t' !! q = Regular <$> written_data files q) ∧
  (∀ q, owners !! q = Some owner → q ∉ written →
     wt_nodes t' !! q = if decide (cfg_Prune cfg = true ∧ q ∉ pruneKeepSet cfg written) then None else wt_nodes t !! q).
Proof.
  cbv zeta. intros Ho Hload Hrun. pose proof (loadPruneRecords_loaded _ _ _ _ Hload) as Hl.
  destruct (cfg_Prune cfg) eqn:Hpr.
  - destruct (owned_export_tree _ _ _ _ _ _ _ _ Ho Hpr Hload Hrun) as (Hn & _ & _ & Hforeign & Hwk & Hval). split_and!.
    + intros q o Hq Hne. rewrite Hn, decide_False by (by eapply recorded_not_record).
      rewrite decide_False by (intros [? _]; congruence). rewrite not_written_data; [done|].
      intros Hw. eapply Hforeign; [done..|]. by apply Hwk.
    + intros q Hq Hw Hr. rewrite Hn, !decide_False by (done || by intros [? _]; congruence). by rewrite not_written_data.
    + intros q Hw. rewrite Hn, decide_False by (by apply valid_path_not_record, Hval, Hwk).
      rewrite decide_False by (intros [_ Hk]; by apply Hk, Hwk). by apply written_data_Some in Hw as [d ->].
    + intros q Hq Hw. rewrite Hn, decide_False by (by eapply recorded_not_record).
      rewrite not_written_data by done. apply decide_ext. tauto.
  - destruct (owned_write_tree _ _ _ _ _ _ _ _ Ho Hpr Hload Hrun) as [Hn Hforeign]. split_and!.
    + intros q o Hq Hne. rewrite Hn, not_written_data by (by eapply Hforeign). done.
    + intros q _ Hw _. by rewrite Hn, not_written_data.
    + intros q Hw. rewrite Hn. by apply written_data_Some in Hw as [d ->].
    + intros q _ Hw. rewrite decide_False by (by intros [? _]). by rewrite Hn, not_written_data.
Qed.

(** * The records stay loadable *)

Lemma json_name_ordinary o : ordinary (sha256_hex o +:+ ".json").
Proof.
  assert (String.length (sha256_hex o +:+ ".json") = 69) as Hl by (by rewrite length_app, sha256_hex_length).
  split_and!; [by intros Hn; rewrite Hn in Hl..|].
  rewrite has_byte_app, orb_false_r. eapply string_forall_free; [apply sha256_hex_digits|done].
Qed.

Lemma path_join_meta name : ordinary name → path_join pruneMetadataDir name = pruneMetadataDir +:+ "/" +:+ name.
Proof.
  intros Hn. unfold path_join. rewrite !decide_False; [|apply Hn|done].
  apply (path_clean_ordinary [pruneMetadataDir; name]); [done|]. repeat constructor; try done; apply Hn.
Qed.

(** The only entry name that can hold an owner's record. *)
Lemma record_name name o :
  has_byte "/" name = false → path_join pruneMetadataDir name = pruneRecordPath o ↔ name = sha256_hex o +:+ ".json".
Proof.
  intros Hs. split.
  - intros Hp. destruct (decide (ordinary name)) as [Ho|Ho].
    + rewrite path_join_meta in Hp by done. unfold pruneRecordPath in Hp. by do 2 apply app_inv_l in Hp.
    + exfalso. assert (name = "" ∨ name = "." ∨ name = "..") as Hn.
      { destruct (decide (name = "")); [tauto|]. destruct (decide (name = ".")); [tauto|].
        destruct (decide (name = "..")); [tauto|]. destruct Ho. done. }
      assert (String.length (path_join pruneMetadataDir name) ≤ 14) as Hl.
      { destruct Hn as [-> | [-> | -> ]]; vm_compute; lia. }
      rewrite Hp in Hl. unfold pruneRecordPath in Hl. rewrite !length_app, sha256_hex_length in Hl. simpl in Hl. lia.
  - intros ->. by apply path_join_meta, json_name_ordinary.
Qed.

(** An entry of the metadata directory with the record it holds and its size. *)
Definition entry (t : worktree) (e : string * (pruneRecord * Z)) : Prop :=
  readPruneRecord t e.1 (e.2.2) = Ok e.2.

Definition entry_total (es : list (string * (pruneRecord * Z))) : Z := foldr Z.add 0%Z ((λ e, e.2.2) <$> es).
Definition entry_paths (es : list (string * (pruneRecord * Z))) : list string := concat ((λ e, rec_Paths e.2.1) <$> es).

Lemma entry_size_nonneg t e : entry t e → (0 ≤ e.2.2)%Z.
Proof.
  destruct e as [name [r size]]. unfold entry. cbn. intros (_&_&_&_&_&_&d&_&_&->&_)%readPruneRecord_ok. lia.
Qed.

Lemma entry_total_nonneg t es : Forall (entry t) es → (0 ≤ entry_total es)%Z.
Proof. induction 1 as [|e es He%entry_size_nonneg _ IH]; [done|]. unfold entry_total in *. cbn. lia. Qed.

Lemma read_entry t name remaining r size :
  readPruneRecord t name remaining = Ok (r, size) ↔ entry t (name, (r, size)) ∧ (size ≤ remaining)%Z.
Proof.
  unfold entry. cbn [fst snd]. rewrite !readPruneRecord_ok. cbv zeta. split.
  - intros (?&?&?&?&?&?&d&?&?&?&?). split; [|done]. split_and!; try done. exists d. by split_and!.
  - intros [(?&?&?&?&?&?&d&?&?&?&?) ?]. split_and!; try done. exists d. by split_and!.
Qed.

(** The load of a list of entries: each is readable, the paths are valid and
    listed once, and the sizes fit the bound. *)
Lemma load_entries_ok t names total owners records res :
  load_entries t names total owners records = Ok res ↔
  ∃ es, es.*1 = names ∧ Forall (entry t) es ∧ valid_paths (entry_paths es) ∧
    Forall (λ p, owners !! p = None) (entry_paths es) ∧
    (es ≠ [] → total + entry_total es ≤ maxPruneMetadataBytes)%Z ∧
    res.1.2 = foldl (λ m e, <[rec_Owner e.2.1 := e.2.1]> m) records es ∧
    res.1.1 = foldl (λ m e, list_to_map ((λ p, (p, rec_Owner e.2.1)) <$> rec_Paths e.2.1) ∪ m) owners es ∧
    res.2 = (total + entry_total es)%Z.
Proof.
  revert total owners records. induction names as [|name names IH]; intros total owners records; cbn [load_entries].
  - split.
    + intros [= <-]. exists []. split_and!; try done; try constructor; try apply NoDup_nil_2; try apply Forall_nil_2. cbn. by rewrite Z.add_0_r.
    + intros ([|e es] & Hn & _ & _ & _ & _ & H3 & H4 & H5); [|done]. destruct res as [[o m] tt']. cbn in *. subst.
      unfold entry_total. cbn. by rewrite Z.add_0_r.
  - split.
    + intros ([r size] & Hr & Hk)%result_bind_ok. apply result_bind_ok in Hk as (owners1 & Hc & Hk).
      apply read_entry in Hr as [He Hle]. apply claim_paths_ok in Hc as ([Hnd Hval] & Hfree & ->).
      apply IH in Hk as (es & Hn & Hes & [Hnd' Hval'] & Hfree' & Hsum & Hrecs & Hown & Htot).
      assert (∀ p, p ∈ entry_paths es → p ∉ rec_Paths r ∧ owners !! p = None) as Hdisj.
      { intros p Hp. rewrite Forall_forall in Hfree'. specialize (Hfree' p Hp). apply lookup_union_None in Hfree' as [Hl ?].
        split; [|done]. intros Hin. apply not_elem_of_list_to_map in Hl. apply Hl. rewrite <- list_fmap_compose.
        apply list_elem_of_fmap. by exists p. }
      exists ((name, (r, size)) :: es). rewrite fmap_cons, Hn. cbn [fst]. split_and!; try done.
      * by constructor.
      * split; [|by apply Forall_app]. apply NoDup_app. split_and!; try done. intros p Hp Hp'. by destruct (Hdisj p Hp').
      * apply Forall_app. split; [done|]. apply Forall_forall. intros p Hp. by apply Hdisj.
      * intros _. unfold entry_total in *. cbn. destruct es as [|e es]; [cbn; lia|]. specialize (Hsum ltac:(done)). lia.
      * rewrite Htot. unfold entry_total. cbn. lia.
    + intros ([|[name' [r size]] es] & Hn & Hes & Hpaths & Hfree & Hsum & Hrecs & Hown & Htot); [done|].
      injection Hn as -> Hn. apply Forall_cons in Hes as [He Hes]. specialize (Hsum ltac:(done)).
      unfold entry_paths in Hpaths, Hfree. rewrite fmap_cons in Hpaths, Hfree. cbn [concat fst snd] in Hpaths, Hfree.
      destruct Hpaths as [(Hnd & Hdisj & Hnd')%NoDup_app [Hval Hval']%Forall_app]. apply Forall_app in Hfree as [Hfree Hfree'].
      pose proof (entry_total_nonneg t es Hes) as Hnn. unfold entry_total in Hsum, Htot. rewrite fmap_cons in Hsum, Htot.
      cbn [foldr fst snd] in Hsum, Htot. fold (entry_total es) in Hsum, Htot.
      assert (readPruneRecord t name (maxPruneMetadataBytes - total) = Ok (r, size)) as ->.
      { apply read_entry. split; [done|lia]. }
      simpl. set (owners1 := list_to_map ((λ p, (p, rec_Owner r)) <$> rec_Paths r) ∪ owners).
      assert (claim_paths (rec_Owner r) (rec_Paths r) owners = Ok owners1) as -> by (by apply claim_paths_ok).
      simpl. apply IH. exists es. split_and!; try done.
      * apply Forall_forall. intros p Hp. apply lookup_union_None. rewrite Forall_forall in Hfree'. split; [|by apply Hfree'].
        apply not_elem_of_list_to_map_1. rewrite <- list_fmap_compose. intros (q & -> & Hq)%list_elem_of_fmap.
        by apply (Hdisj q).
      * intros _. lia.
      * rewrite Htot. lia.
Qed.

(** ** The metadata directory of the next tree *)

Lemma elem_of_read_dir t d name : name ∈ read_dir t d ↔ ∃ p, p ∈ wt_paths t ∧ child_name d p = Some name.
Proof.
  unfold read_dir. rewrite elem_of_sort_strings, elem_of_dedup, list_elem_of_omap. done.
Qed.

Lemma NoDup_read_dir t d : NoDup (read_dir t d).
Proof. unfold read_dir. rewrite sort_strings_perm. apply NoDup_dedup. Qed.

Lemma elem_of_wt_paths t p : p ∈ wt_paths t ↔ is_Some (wt_nodes t !! p) ∨ p ∈ wt_dirs t.
Proof.
  unfold wt_paths. rewrite elem_of_app, elem_of_elements, list_elem_of_fmap. apply or_iff_compat_r. split.
  - intros ([q n] & -> & Hin%elem_of_map_to_list). by exists n.
  - intros [n Hn]. exists (p, n). split; [done|]. by apply elem_of_map_to_list.
Qed.

(** The paths below the metadata directory. *)
Definition below_meta (p : string) : Prop := is_Some (child_name pruneMetadataDir p).

Lemma child_meta p name :
  child_name pruneMetadataDir p = Some name ↔ ∃ rest, p = pruneMetadataDir +:+ "/" +:+ rest ∧ head (split_byte "/" rest) = Some name.
Proof.
  unfold child_name. rewrite decide_False by done. rewrite bind_Some. setoid_rewrite cut_prefix_Some.
  split; intros (rest & Hp & Hn); exists rest; split; try done; by rewrite ?app_assoc in *.
Qed.

Lemma child_meta_free p name : child_name pruneMetadataDir p = Some name → has_byte "/" name = false.
Proof.
  intros (rest & _ & Hn)%child_meta. pose proof (split_byte_free "/" rest) as Hf.
  destruct (split_byte "/" rest) as [|w ws]; [done|]. injection Hn as <-. by apply Forall_cons in Hf as [? _].
Qed.

Lemma child_meta_record o : child_name pruneMetadataDir (pruneRecordPath o) = Some (sha256_hex o +:+ ".json").
Proof.
  apply child_meta. exists (sha256_hex o +:+ ".json"). split; [done|].
  rewrite split_byte_none; [done|]. apply json_name_ordinary.
Qed.

(** A recordable path is not the metadata directory, nor below it, and neither is
    the directory it is in. *)
Lemma valid_path_outside p rest :
  validatePrunePath p = Ok tt → p ≠ pruneMetadataDir ∧ p ≠ pruneMetadataDir +:+ "/" +:+ rest.
Proof.
  unfold validatePrunePath. destruct (_ || _); [done|]. rewrite for_each_ok, Forall_forall. intros Hall.
  assert (pruneMetadataDir ∉ split_byte "/" p) as Hni by (intros Hin; specialize (Hall _ Hin); done).
  split; intros ->; apply Hni; [left|].
  change (pruneMetadataDir +:+ "/" +:+ rest) with (pruneMetadataDir +:+ String "/" rest). rewrite split_byte_app by done. left.
Qed.

Lemma valid_path_not_below p : validatePrunePath p = Ok tt → ¬ below_meta p.
Proof. intros Hp [name (rest & -> & _)%child_meta]. by eapply valid_path_outside. Qed.

Lemma valid_path_dir_not_below p d f :
  validatePrunePath p = Ok tt → cut_last_byte "/" p = Some (d, f) → ¬ below_meta d.
Proof.
  intros Hp [-> _]%cut_last_byte_Some [name (rest & -> & _)%child_meta].
  eapply (valid_path_outside _ (rest +:+ String "/" f)); [exact Hp|]. by rewrite !app_assoc.
Qed.

Lemma checkPruneFile_meta t name :
  ordinary name → wt_nodes t !! pruneMetadataDir = None → is_dir t pruneMetadataDir = true →
  (∃ d, wt_nodes t !! (pruneMetadataDir +:+ "/" +:+ name) = Some (Regular d)) →
  checkPruneFile t (pruneMetadataDir +:+ "/" +:+ name) = Ok tt.
Proof.
  intros Hn Hm Hd [d Hf]. unfold checkPruneFile.
  change (pruneMetadataDir +:+ "/" +:+ name) with (pruneMetadataDir +:+ String "/" name) at 1.
  rewrite split_byte_app by done. rewrite split_byte_none by apply Hn. cbn [components check_components].
  change ("" +:+ pruneMetadataDir) with pruneMetadataDir. unfold lstat. rewrite Hm, Hd. rewrite bool_decide_false by done.
  change ("" +:+ pruneMetadataDir +:+ "/") with (pruneMetadataDir +:+ "/"). rewrite app_assoc. by rewrite Hf.
Qed.

(** ** Entries without one name *)

Definition without (n : string) (es : list (string * (pruneRecord * Z))) := filter (λ e, e.1 ≠ n) es.

Lemma without_paths n es : entry_paths (without n es) `sublist_of` entry_paths es.
Proof.
  unfold entry_paths, without. induction es as [|e es IH]; [done|]. rewrite filter_cons, !fmap_cons. cbn [concat].
  case_decide; [rewrite fmap_cons; by apply sublist_app|]. by apply sublist_inserts_l.
Qed.

Lemma without_total n es :
  NoDup es.*1 → entry_total es = (entry_total (without n es) + default 0 (snd <$> assoc_get n es))%Z.
Proof.
  unfold entry_total, without. induction es as [|[m [r sz]] es IH]; [done|]. rewrite fmap_cons. intros [Hni Hnd]%NoDup_cons.
  rewrite filter_cons. cbn [fst] in *. specialize (IH Hnd). cbn [assoc_get]. case_decide as Hm; case_decide as Hn; cbn in *; try congruence.
  - rewrite IH. lia.
  - subst m. rewrite IH. assert (assoc_get n es = None) as -> by (by apply assoc_get_None). cbn. lia.
Qed.

(** The entries after the record of one owner is replaced. *)
Definition with_record (r : pruneRecord) (sz : Z) (es : list (string * (pruneRecord * Z))) :=
  (sha256_hex (rec_Owner r) +:+ ".json", (r, sz)) :: without (sha256_hex (rec_Owner r) +:+ ".json") es.

Lemma with_record_fmap {A} (f : string * (pruneRecord * Z) → A) r sz es :
  NoDup (f <$> es) →
  (∀ e, e ∈ without (sha256_hex (rec_Owner r) +:+ ".json") es → f e ≠ f (sha256_hex (rec_Owner r) +:+ ".json", (r, sz))) →
  NoDup (f <$> with_record r sz es).
Proof.
  intros Hnd Hne. unfold with_record. rewrite fmap_cons. constructor.
  - intros (e & Heq & He)%list_elem_of_fmap. by apply (Hne e He).
  - eapply sublist_NoDup; [exact Hnd|]. apply fmap_sublist, sublist_filter.
Qed.

Lemma with_record_names r sz es n : n ∈ (with_record r sz es).*1 ↔ n ∈ es.*1 ∨ n = sha256_hex (rec_Owner r) +:+ ".json".
Proof.
  unfold with_record. rewrite fmap_cons, elem_of_cons, !list_elem_of_fmap. cbn [fst]. split.
  - intros [->|(e & -> & [_ He]%list_elem_of_filter)]; [by right|left; by exists e].
  - intros [(e & -> & He)|Hn]; [|by left]. destruct (decide (e.1 = sha256_hex (rec_Owner r) +:+ ".json")) as [->|Hne]; [by left|].
    right. exists e. split; [done|]. by apply list_elem_of_filter.
Qed.

Section with_record.
Context (records : gmap string pruneRecord) (es : list (string * (pruneRecord * Z))) (record : pruneRecord) (sz : Z).
Context (Hrecs : ∀ o r, records !! o = Some r ↔ ∃ e, e ∈ es ∧ rec_Owner e.2.1 = o ∧ e.2.1 = r).
Context (Hname : ∀ e, e ∈ es → e.1 = sha256_hex (rec_Owner e.2.1) +:+ ".json").
Context (Hhash : ∀ o, is_Some (records !! o) → sha256_hex o = sha256_hex (rec_Owner record) → o = rec_Owner record).

Lemma without_owner e : e ∈ without (sha256_hex (rec_Owner record) +:+ ".json") es → rec_Owner e.2.1 ≠ rec_Owner record.
Proof using Hname. intros [Hne He]%list_elem_of_filter Heq. apply Hne. by rewrite (Hname e He), Heq. Qed.

Lemma with_record_lookup o r :
  <[rec_Owner record := record]> records !! o = Some r ↔ ∃ e, e ∈ with_record record sz es ∧ rec_Owner e.2.1 = o ∧ e.2.1 = r.
Proof using Hrecs Hname Hhash.
  unfold with_record. setoid_rewrite elem_of_cons. split.
  - destruct (decide (rec_Owner record = o)) as [<-|Hne].
    + rewrite lookup_insert_eq. intros [= <-]. eexists. split; [by left|done].
    + rewrite lookup_insert_ne by done. intros (e & He & Hoe & Hr)%Hrecs. exists e. split; [right|done].
      apply list_elem_of_filter. split; [|done]. rewrite (Hname e He). intros Heq. apply app_inv_r in Heq.
      apply Hne. symmetry. apply Hhash; [exists r; apply Hrecs; by exists e|congruence].
  - intros (e & [->|He] & <- & <-); [by rewrite lookup_insert_eq|]. rewrite lookup_insert_ne by (by apply not_eq_sym, without_owner).
    apply list_elem_of_filter in He as [_ He]. apply Hrecs. by exists e.
Qed.
End with_record.

Lemma fold_records_lookup (es : list (string * (pruneRecord * Z))) (m : gmap string pruneRecord) o r :
  NoDup ((λ e, rec_Owner e.2.1) <$> es) →
  foldl (λ m e, <[rec_Owner e.2.1 := e.2.1]> m) m es !! o = Some r ↔
  (∃ e, e ∈ es ∧ rec_Owner e.2.1 = o ∧ e.2.1 = r) ∨ (o ∉ (λ e, rec_Owner e.2.1) <$> es ∧ m !! o = Some r).
Proof.
  revert m. induction es as [|e es IH]; intros m; cbn [foldl].
  - intros _. split; [intros Hm; right; split; [apply not_elem_of_nil|done]|].
    intros [(e & He & _)|[_ ?]]; [by apply not_elem_of_nil in He|done].
  - rewrite fmap_cons. intros [Hni Hnd]%NoDup_cons. rewrite IH by done. rewrite not_elem_of_cons. split.
    + intros [(e' & He' & Ho & Hr)|[Hno Hm]]; [left; exists e'; by split; [right|]|].
      destruct (decide (rec_Owner e.2.1 = o)) as [<-|Hne].
      * rewrite lookup_insert_eq in Hm. injection Hm as <-. left. exists e. by split; [left|].
      * rewrite lookup_insert_ne in Hm by done. right. by repeat split.
    + intros [(e' & [->|He']%elem_of_cons & Ho & Hr)|[[Hne Hno] Hm]].
      * right. subst o. split; [done|]. by rewrite lookup_insert_eq, Hr.
      * left. by exists e'.
      * right. split; [done|]. by rewrite lookup_insert_ne.
Qed.

(** The entries of a tree that loads. *)
Lemma load_entries_of t owners records total :
  loadPruneRecords t = Ok (owners, records, total) →
  wt_nodes t !! pruneMetadataDir = None ∧
  ∃ es, NoDup es.*1 ∧ (∀ n, n ∈ es.*1 ↔ n ∈ read_dir t pruneMetadataDir) ∧ Forall (entry t) es ∧
    valid_paths (entry_paths es) ∧ total = entry_total es ∧
    (∀ o r, records !! o = Some r ↔ ∃ e, e ∈ es ∧ rec_Owner e.2.1 = o ∧ e.2.1 = r) ∧
    (∀ e, e ∈ es → e.1 = sha256_hex (rec_Owner e.2.1) +:+ ".json") ∧
    NoDup ((λ e, rec_Owner e.2.1) <$> es).
Proof.
  assert (∀ es : list (string * (pruneRecord * Z)), NoDup es.*1 →
    (∀ e, e ∈ es → e.1 = sha256_hex (rec_Owner e.2.1) +:+ ".json") → NoDup ((λ e, rec_Owner e.2.1) <$> es)) as Howners.
  { intros es Hnd Hname. assert (es.*1 = (λ o, sha256_hex o +:+ ".json") <$> ((λ e, rec_Owner e.2.1) <$> es)) as Heq.
    { rewrite <- list_fmap_compose. apply list_fmap_ext. intros i e He. apply Hname. by eapply list_elem_of_lookup_2. }
    rewrite Heq in Hnd. by apply NoDup_fmap_1 in Hnd. }
  unfold loadPruneRecords, lstat. destruct (wt_nodes t !! pruneMetadataDir) as [[]|] eqn:Hn; try done.
  destruct (is_dir t pruneMetadataDir) eqn:Hd.
  - case_decide as Hlen; [done|]. intros (es & Hnames & Hes & Hval & _ & _ & Hrecs & _ & Htot)%load_entries_ok. cbn in Hrecs, Htot.
    split; [done|]. exists es.
    assert (NoDup es.*1) as Hnd by (rewrite Hnames; apply NoDup_read_dir).
    assert (∀ e, e ∈ es → e.1 = sha256_hex (rec_Owner e.2.1) +:+ ".json") as Hname.
    { intros [name [r size]] He. rewrite Forall_forall in Hes. specialize (Hes _ He). unfold entry in Hes. cbn in Hes |- *.
      apply readPruneRecord_ok in Hes as (_ & Hp & _). apply record_name; [|done].
      assert (name ∈ read_dir t pruneMetadataDir) as (p & _ & Hc)%elem_of_read_dir.
      { rewrite <- Hnames. apply list_elem_of_fmap. by exists (name, (r, size)). }
      by eapply child_meta_free. }
    split_and!; try done; [by rewrite Hnames| |by apply Howners].
    intros o r. rewrite Hrecs, fold_records_lookup by (by apply Howners). rewrite lookup_empty. split; [|by left].
    by intros [?|[_ ?]].
  - intros [= <- <- <-]. split; [done|]. exists [].
    split; [apply NoDup_nil_2|]. split; [|split; [constructor|]].
    + intros n. split; [intros Hin; by apply not_elem_of_nil in Hin|].
      intros (p & Hp & (rest & -> & _)%child_meta)%elem_of_read_dir. exfalso.
      apply not_true_iff_false in Hd. apply Hd. unfold is_dir. apply orb_true_iff. right. apply existsb_exists.
      eexists. split; [by apply list_elem_of_In|]. rewrite <- app_assoc. apply has_prefix_app.
    + split; [split; [apply NoDup_nil_2|constructor]|]. split; [done|]. split; [|split; [|apply NoDup_nil_2]].
      * intros o r. split; [done|]. by intros (e & He%not_elem_of_nil & _).
      * intros e He. by apply not_elem_of_nil in He.
Qed.

(** Loading from entries in any order. *)
Lemma load_from_entries t es :
  wt_nodes t !! pruneMetadataDir = None → is_dir t pruneMetadataDir = true →
  NoDup es.*1 → (∀ n, n ∈ es.*1 ↔ n ∈ read_dir t pruneMetadataDir) → Forall (entry t) es → valid_paths (entry_paths es) →
  (Z.of_nat (length es) ≤ maxPruneOwners)%Z → (entry_total es ≤ maxPruneMetadataBytes)%Z →
  NoDup ((λ e, rec_Owner e.2.1) <$> es) →
  ∃ owners records, loadPruneRecords t = Ok (owners, records, entry_total es) ∧
    ∀ o r, records !! o = Some r ↔ ∃ e, e ∈ es ∧ rec_Owner e.2.1 = o ∧ e.2.1 = r.
Proof.
  intros Hn Hd Hnd Hnames Hes [Hpnd Hpval] Hlen Htot Hown. unfold loadPruneRecords, lstat. rewrite Hn, Hd.
  assert (read_dir t pruneMetadataDir ≡ₚ es.*1) as Hperm.
  { apply NoDup_Permutation; [apply NoDup_read_dir|done|]. intros n. by rewrite Hnames. }
  rewrite decide_False by (rewrite Hperm, length_fmap; lia).
  apply Permutation_map_inv in Hperm as (es' & Hn' & Hp'). change (map fst es') with es'.*1 in Hn'.
  assert (entry_total es' = entry_total es) as Ht'.
  { unfold entry_total. clear -Hp'. induction Hp' as [|x l l' _ IH|x y l|l1 l2 l3 _ IH1 _ IH2]; cbn in *; [done|lia|lia|lia]. }
  assert (entry_paths es' ≡ₚ entry_paths es) as Hpp by (unfold entry_paths; by rewrite Hp').
  set (o' := foldl (λ m e, list_to_map ((λ p, (p, rec_Owner e.2.1)) <$> rec_Paths e.2.1) ∪ m) (∅ : gmap string string) es').
  set (r' := foldl (λ m e, <[rec_Owner e.2.1 := e.2.1]> m) (∅ : gmap string pruneRecord) es').
  exists o', r'. split.
  - apply load_entries_ok. exists es'. cbn [fst snd]. rewrite Ht'. split_and!; try done; try lia.
    + by rewrite <- Hp'.
    + split; by rewrite Hpp.
    + apply Forall_forall. intros p _. apply lookup_empty.
  - intros o r. unfold r'. rewrite fold_records_lookup by (by rewrite <- Hp'). rewrite lookup_empty.
    setoid_rewrite <- Hp'. split; [|by left]. by intros [?|[_ ?]].
Qed.

Lemma pathSet_size l : size (pathSet l) ≤ length l.
Proof.
  unfold pathSet. induction l as [|p l IH]; [done|]. rewrite fmap_cons. cbn [list_to_map length].
  change (list_to_map ((p, tt) :: ?x)) with (<[p := tt]> (list_to_map x : gmap string unit)).
  destruct (decide (is_Some ((list_to_map ((λ p, (p, tt)) <$> l) : gmap string unit) !! p))) as [Hs|Hs].
  - rewrite map_size_insert_Some by done. lia.
  - rewrite map_size_insert_None by (by apply eq_None_not_Some). lia.
Qed.

(** ** Writes outside the metadata directory *)

(** Two trees with the same metadata directory. *)
Definition same_meta (t t' : worktree) : Prop :=
  wt_nodes t' !! pruneMetadataDir = wt_nodes t !! pruneMetadataDir ∧
  (pruneMetadataDir ∈ wt_dirs t' ↔ pruneMetadataDir ∈ wt_dirs t) ∧
  ∀ p n, child_name pruneMetadataDir p = Some n →
    wt_nodes t' !! p = wt_nodes t !! p ∧ (p ∈ wt_dirs t' ↔ p ∈ wt_dirs t).

Lemma is_dir_meta t :
  is_dir t pruneMetadataDir = true ↔
  pruneMetadataDir ∈ wt_dirs t ∨ ∃ p n, p ∈ wt_paths t ∧ child_name pruneMetadataDir p = Some n.
Proof.
  unfold is_dir. rewrite orb_true_iff, bool_decide_eq_true, existsb_exists. apply or_iff_compat_l. split.
  - intros (p & Hp%list_elem_of_In & Hpre). apply has_prefix_true in Hpre as [rest ->].
    assert (is_Some (head (split_byte "/" rest))) as [n Hn] by (destruct (split_byte_cons "/" rest) as (w & ws & ->); by eexists).
    exists ((pruneMetadataDir +:+ "/") +:+ rest), n. split; [done|]. apply child_meta. exists rest. by rewrite app_assoc.
  - intros (p & n & Hp & (rest & -> & _)%child_meta). eexists. split; [by apply list_elem_of_In|].
    apply has_prefix_true. exists rest. by rewrite app_assoc.
Qed.

Lemma same_meta_paths t t' p n :
  same_meta t t' → child_name pruneMetadataDir p = Some n → p ∈ wt_paths t' ↔ p ∈ wt_paths t.
Proof. intros (_ & _ & Hs) Hc. rewrite !elem_of_wt_paths. destruct (Hs p n Hc) as [-> ->]. done. Qed.

Lemma same_meta_is_dir t t' : same_meta t t' → is_dir t' pruneMetadataDir = is_dir t pruneMetadataDir.
Proof.
  intros Hs. apply eq_true_iff_eq. rewrite !is_dir_meta. pose proof Hs as (_ & -> & _).
  apply or_iff_compat_l. split; intros (p & n & Hp & Hc); exists p, n; (split; [|done]); by apply (same_meta_paths t t' p n).
Qed.

Lemma same_meta_read_dir t t' : same_meta t t' → read_dir t' pruneMetadataDir = read_dir t pruneMetadataDir.
Proof.
  intros Hs. unfold read_dir at 1 2. apply sort_strings_ext; [apply NoDup_dedup..|].
  intros n. rewrite !elem_of_dedup, !list_elem_of_omap.
  split; intros (p & Hp & Hc); exists p; (split; [|done]); by apply (same_meta_paths t t' p n).
Qed.

Lemma same_meta_entry t t' e :
  same_meta t t' → wt_nodes t !! pruneMetadataDir = None → is_dir t pruneMetadataDir = true → entry t e → entry t' e.
Proof.
  destruct e as [name [r size]]. unfold entry. cbn [fst snd]. intros Hs Hm Hd He. apply readPruneRecord_ok in He.
  cbv zeta in He. destruct He as (_ & Hp & Hv & Hor & Hol & Hpl & d & Hd' & Hdd & Hsz & Hle).
  apply readPruneRecord_ok. cbv zeta. rewrite <- Hp in Hd' |- *. pose proof Hs as (Hs1 & _ & Hs3).
  assert (wt_nodes t' !! pruneRecordPath (rec_Owner r) = Some (Regular d)) as Hw.
  { unfold read_file in Hd'. destruct (Hs3 _ _ (child_meta_record (rec_Owner r))) as [-> _].
    by destruct (wt_nodes t !! pruneRecordPath (rec_Owner r)) as [[x|]|]; simplify_eq. }
  split_and!; try done.
  - apply (checkPruneFile_meta t' (sha256_hex (rec_Owner r) +:+ ".json")); try done;
      [apply json_name_ordinary|by rewrite Hs1|by rewrite (same_meta_is_dir t t')|by exists d].
  - exists d. unfold read_file. by rewrite Hw.
Qed.

Lemma load_same_meta t t' res : same_meta t t' → loadPruneRecords t = Ok res → loadPruneRecords t' = Ok res.
Proof.
  intros Hs. unfold loadPruneRecords, lstat. pose proof Hs as (-> & _ & _). rewrite (same_meta_is_dir t t' Hs).
  destruct (wt_nodes t !! pruneMetadataDir) as [[]|] eqn:Hm; try done.
  destruct (is_dir t pruneMetadataDir) eqn:Hd; [|done]. rewrite (same_meta_read_dir t t' Hs). case_decide; [done|].
  rewrite !load_entries_ok. intros (es & ? & Hes & Hrest). exists es. split; [done|]. split; [|done].
  eapply Forall_impl; [exact Hes|]. intros e. by apply same_meta_entry.
Qed.

Lemma write_files_dirs files t t' : write_files files t = Ok t' → wt_dirs t' = wt_dirs t.
Proof.
  revert t. induction files as [|f files IH]; intros t; cbn [write_files]; [by intros [= <-]|].
  destruct (fs_write _ _ t) as [t1|] eqn:Hw; [|done]. apply fs_write_nodes in Hw as [_ <-]. apply IH.
Qed.

(** An owned export that does not prune leaves the records as they are. *)
Lemma owned_write_records t cfg files paths t' res :
  cfg_PruneOwner cfg ≠ "" → cfg_Prune cfg = false → loadPruneRecords t = Ok res →
  writeBillyExportFiles t cfg files = Ok (paths, t') → loadPruneRecords t' = Ok res.
Proof.
  intros Ho Hpr Hload Hrun. apply (load_same_meta t); [|done]. unfold writeBillyExportFiles in Hrun.
  apply result_bind_ok in Hrun as (plan & Hplan & Hrun). apply result_bind_ok in Hrun as (t1 & Ht1 & Hrun).
  apply result_bind_ok in Hrun as (t2 & Ht2 & Hrun). apply result_bind_ok in Hrun as (t3 & Ht3 & [= _ <-]).
  unfold pruneBillyOrphans in Ht3. rewrite Hpr in Ht3. injection Ht3 as <-.
  apply prepareOwnedPrune_ok in Hplan as (owners & records & total & _ & Hv & _ & Hplan); [|done].
  rewrite Hpr in Hplan. subst plan. injection Ht2 as <-.
  apply validateOwnedPrunePaths_ok in Hv as (_ & _ & Hwk & Hkeep & _).
  assert (∀ q, ¬ validatePrunePath q = Ok tt → wt_nodes t1 !! q = wt_nodes t !! q) as Hq.
  { intros q Hnv. rewrite (write_files_nodes _ _ _ q Ht1), not_written_data; [done|]. intros Hw. by apply Hnv, Hkeep, Hwk. }
  assert (wt_dirs t1 = wt_dirs t) as Hdirs by (by eapply write_files_dirs). split_and!.
  - apply Hq. intros Hv. by destruct (valid_path_outside _ "" Hv).
  - by rewrite Hdirs.
  - intros p n Hc. rewrite Hdirs. split; [|done]. apply Hq. intros Hv%valid_path_not_below. apply Hv. by exists n.
Qed.

(** ** One pruning export *)

Section next_records.
Context (t t' : worktree) (cfg : PruneConfig) (files : list FileEntry) (paths : list string).
Context (owners : gmap string string) (records : gmap string pruneRecord) (total : Z).
#[local] Abbreviation owner := (cfg_PruneOwner cfg).
#[local] Abbreviation record := (next_record cfg (entry_Path <$> files)).
#[local] Abbreviation rp := (pruneRecordPath owner).
#[local] Abbreviation hn := (sha256_hex owner +:+ ".json").
Context (Howner : owner ≠ "") (Hprune : cfg_Prune cfg = true).
Context (Hload : loadPruneRecords t = Ok (owners, records, total)).
Context (Hrun : writeBillyExportFiles t cfg files = Ok (paths, t')).
Context (Hdecode : decode_record (encode_record record) = Some record).
Context (Hhash : ∀ o, is_Some (records !! o) → sha256_hex o = sha256_hex owner → o = owner).

Lemma recorded_valid p o : owners !! p = Some o → validatePrunePath p = Ok tt.
Proof.
  pose proof (loadPruneRecords_loaded _ _ _ _ Hload) as [Hl1 Hl2].
  intros (r & Hr & Hp)%Hl2. apply Hl1 in Hr as [_ [_ Hv]]. rewrite Forall_forall in Hv. by apply Hv.
Qed.

Lemma kept_valid p : p ∈ rec_Paths record → validatePrunePath p = Ok tt.
Proof.
  rewrite next_record_paths. destruct (owned_export_tree _ _ _ _ _ _ _ _ Howner Hprune Hload Hrun) as (_&_&_&_&_&Hv). apply Hv.
Qed.

(** Nothing but the record changes among the paths no record may list. *)
Lemma next_same q : ¬ validatePrunePath q = Ok tt → q ≠ rp → wt_nodes t' !! q = wt_nodes t !! q.
Proof.
  destruct (owned_export_tree _ _ _ _ _ _ _ _ Howner Hprune Hload Hrun) as (Hn & _ & _ & _ & Hwk & Hkv).
  intros Hq Hne. rewrite Hn, decide_False by done. rewrite decide_False by (intros [? _]; by eapply Hq, recorded_valid).
  rewrite not_written_data; [done|]. intros Hw. by apply Hq, Hkv, Hwk.
Qed.

Lemma next_own : wt_nodes t' !! rp = Some (Regular (encode_record record)).
Proof.
  destruct (owned_export_tree _ _ _ _ _ _ _ _ Howner Hprune Hload Hrun) as (Hn & _). by rewrite Hn, decide_True.
Qed.

Lemma next_meta : wt_nodes t' !! pruneMetadataDir = None ∧ is_dir t' pruneMetadataDir = true.
Proof.
  split.
  - rewrite next_same; [by destruct (load_entries_of _ _ _ _ Hload)| |].
    + intros Hv. by destruct (valid_path_outside _ "" Hv).
    + intros Heq. assert (String.length pruneMetadataDir = String.length rp) as Hle by (by rewrite <- Heq).
      unfold pruneRecordPath in Hle. rewrite !length_app in Hle. simpl in Hle. lia.
  - unfold is_dir. apply orb_true_iff. right. apply existsb_exists. exists rp.
    split; [apply list_elem_of_In, elem_of_wt_paths; left; by rewrite next_own|].
    apply has_prefix_true. by exists hn.
Qed.

Lemma below_meta_invalid p n : child_name pruneMetadataDir p = Some n → ¬ validatePrunePath p = Ok tt.
Proof. intros Hc Hv%valid_path_not_below. apply Hv. by exists n. Qed.

Lemma next_names n : n ∈ read_dir t' pruneMetadataDir ↔ n ∈ read_dir t pruneMetadataDir ∨ n = hn.
Proof.
  destruct (owned_export_tree _ _ _ _ _ _ _ _ Howner Hprune Hload Hrun) as (_ & Hdirs & Hdirs' & _).
  rewrite !elem_of_read_dir. setoid_rewrite elem_of_wt_paths. split.
  - intros (p & Hp & Hc). pose proof (below_meta_invalid p n Hc) as Hnv.
    destruct (decide (p = rp)) as [->|Hne]; [right; rewrite child_meta_record in Hc; by injection Hc as <-|].
    left. exists p. split; [|done]. destruct Hp as [Hp|Hp]; [left; by rewrite <- next_same|].
    destruct (Hdirs p Hp) as [?|(q & f & Hq & Hf)]; [by right|]. exfalso.
    eapply (valid_path_dir_not_below q p f); [by eapply recorded_valid|done|by exists n].
  - intros [(p & Hp & Hc)| ->].
    + pose proof (below_meta_invalid p n Hc) as Hnv.
      destruct (decide (p = rp)) as [->|Hne]; [exists rp; by rewrite next_own; eauto|].
      exists p. split; [|done]. destruct Hp as [Hp|Hp]; [left; by rewrite next_same|right; by apply Hdirs'].
    + exists rp. rewrite next_own. split; [left; eauto|]. apply child_meta_record.
Qed.

(** A foreign entry is still there, and the exporter has one. *)
Lemma next_entry e : entry t e → is_Some (records !! rec_Owner e.2.1) → rec_Owner e.2.1 ≠ owner → entry t' e.
Proof.
  destruct e as [name [r size]]. unfold entry. cbn [fst snd]. intros He Hs Hne. apply readPruneRecord_ok in He.
  cbv zeta in He. destruct He as (_ & Hp & Hv & Hor & Hol & Hpl & d & Hd & Hdd & Hsz & Hle).
  apply readPruneRecord_ok. cbv zeta. rewrite <- Hp in Hd |- *.
  assert (wt_nodes t' !! pruneRecordPath (rec_Owner r) = Some (Regular d)) as Hd'.
  { unfold read_file in Hd. rewrite next_same.
    - by destruct (wt_nodes t !! pruneRecordPath (rec_Owner r)) as [[x|]|]; simplify_eq.
    - eapply below_meta_invalid, child_meta_record.
    - unfold pruneRecordPath. intros Heq. do 2 apply app_inv_l in Heq. apply app_inv_r in Heq. by apply Hne, Hhash. }
  destruct next_meta as [Hm1 Hm2]. split_and!; try done.
  - apply (checkPruneFile_meta t' (sha256_hex (rec_Owner r) +:+ ".json")); try done; [apply json_name_ordinary|by exists d].
  - exists d. unfold read_file. by rewrite Hd'.
Qed.

Lemma own_entry : entry t' (hn, (record, Z.of_nat (String.length (encode_record record)))).
Proof.
  pose proof Hrun as Hprep. unfold writeBillyExportFiles in Hprep. apply result_bind_ok in Hprep as (plan & Hprep & _).
  apply prepareOwnedPrune_ok in Hprep as (owners0 & records0 & total0 & _ & Hvalid & Hlen & _); [|done].
  apply validateOwnedPrunePaths_ok in Hvalid as (_ & Hkl & _). destruct next_meta as [Hm1 Hm2].
  unfold entry. cbn [fst snd]. apply readPruneRecord_ok. cbv zeta. destruct (json_name_ordinary owner) as (_ & _ & _ & Hs).
  rewrite (proj2 (record_name hn owner Hs)) by done. split_and!; try done.
  - apply (checkPruneFile_meta t' hn); try done; [apply json_name_ordinary|]. eexists. apply next_own.
  - cbn [next_record rec_Paths]. rewrite sort_strings_perm, length_fmap, length_map_range.
    etrans; [|exact Hkl]. apply inj_le, pathSet_size.
  - exists (encode_record record). unfold read_file. by rewrite next_own.
Qed.

(** The paths of the new record and of the foreign ones are disjoint. *)
Lemma next_paths es :
  valid_paths (entry_paths es) → (∀ e, e ∈ es → records !! rec_Owner e.2.1 = Some e.2.1) →
  (∀ e, e ∈ without hn es → rec_Owner e.2.1 ≠ owner) →
  valid_paths (rec_Paths record ++ entry_paths (without hn es)).
Proof.
  pose proof Hrun as Hprep. unfold writeBillyExportFiles in Hprep. apply result_bind_ok in Hprep as (plan & Hprep & _).
  apply prepareOwnedPrune_ok in Hprep as (owners0 & records0 & total0 & Hload0 & _ & _ & Hprep); [|done].
  rewrite Hload in Hload0. injection Hload0 as <- <- <-. rewrite Hprune in Hprep. destruct Hprep as (_ & _ & Hsc & _).
  intros [Hpnd Hpval] Hrecs Hwo. split.
  - apply NoDup_app. split_and!.
    + cbn [next_record rec_Paths]. rewrite sort_strings_perm. apply NoDup_map_range.
    + intros p Hp Hp'. apply list_elem_of_In, in_concat in Hp' as (l & Hl & Hin%list_elem_of_In).
      apply list_elem_of_In, list_elem_of_fmap in Hl as (e & -> & He). pose proof (Hwo e He) as Hne. apply Hne.
      apply list_elem_of_filter in He as [_ He].
      eapply (checkSingleClaims_ok _ _ Hsc _ owner e.2.1 record p); try done.
      * rewrite lookup_insert_ne by done. by apply Hrecs.
      * by rewrite lookup_insert_eq.
    + eapply sublist_NoDup; [exact Hpnd|]. apply without_paths.
  - apply Forall_app. split; [by apply Forall_forall; intros p; apply kept_valid|].
    apply Forall_forall. intros p Hp. rewrite Forall_forall in Hpval. apply Hpval.
    eapply elem_of_sublist; [exact Hp|apply without_paths].
Qed.

(** The size of the exporter's old record, which the new one replaces. *)
Lemma old_size es :
  NoDup es.*1 → (∀ n, n ∈ es.*1 ↔ n ∈ read_dir t pruneMetadataDir) → Forall (entry t) es →
  match lstat t rp with Some (StatRegular n) => Z.of_nat n | _ => 0%Z end = default 0%Z (snd <$> assoc_get hn es).
Proof.
  intros Hnd Hnames Hes. destruct (json_name_ordinary owner) as (_ & _ & _ & Hs).
  destruct (assoc_get hn es) as [[r sz]|] eqn:Hg; cbn.
  - apply assoc_get_elem in Hg. rewrite Forall_forall in Hes. pose proof (Hes _ Hg) as He. unfold entry in He. cbn [fst snd] in He.
    apply readPruneRecord_ok in He. cbv zeta in He. rewrite (proj2 (record_name hn owner Hs)) in He by done.
    destruct He as (_ & _ & _ & _ & _ & _ & d & Hd & _ & -> & _). unfold read_file in Hd. unfold lstat.
    destruct (wt_nodes t !! rp) as [[x|]|]; try done. by injection Hd as ->.
  - apply assoc_get_None in Hg. unfold lstat. destruct (wt_nodes t !! rp) as [[d|]|] eqn:Hx; [|done|by destruct (is_dir t rp)].
    exfalso. apply Hg, Hnames, elem_of_read_dir. exists rp. split; [apply elem_of_wt_paths; left; by rewrite Hx|apply child_meta_record].
Qed.
End next_records.

(** C34. A pruning export leaves ownership metadata that the next operation can
    load: the records of all other inventories are as before, the exporter's is
    the one just written, and no path is claimed twice. Required of the outside
    are that the written record decodes back, as JSON does, and that the owner's
    hash does not collide with another owner's on the branch. *)
Theorem export_keeps_records_loadable t cfg files paths t' owners records total :
  let owner := cfg_PruneOwner cfg in
  let record := next_record cfg (entry_Path <$> files) in
  owner ≠ "" → cfg_Prune cfg = true →
  loadPruneRecords t = Ok (owners, records, total) → writeBillyExportFiles t cfg files = Ok (paths, t') →
  decode_record (encode_record record) = Some record →
  (∀ o, is_Some (records !! o) → sha256_hex o = sha256_hex owner → o = owner) →
  ∃ owners' total', loadPruneRecords t' = Ok (owners', <[owner := record]> records, total') ∧
    ∀ p o, owners' !! p = Some o ↔ ∃ r, <[owner := record]> records !! o = Some r ∧ p ∈ rec_Paths r.
Proof.
  cbv zeta. intros Ho Hpr Hload Hrun Hdec Hhash.
  destruct (load_entries_of _ _ _ _ Hload) as (_ & es & Hnd & Hnames & Hes & Hval & Htot & Hrecs & Hname & Hond).
  pose proof Hrun as Hprep. unfold writeBillyExportFiles in Hprep. apply result_bind_ok in Hprep as (plan & Hprep & _).
  apply prepareOwnedPrune_ok in Hprep as (owners0 & records0 & total0 & Hload0 & _ & _ & Hprep); [|done].
  rewrite Hload in Hload0. injection Hload0 as <- <- <-. rewrite Hpr in Hprep. destruct Hprep as (_ & _ & _ & Hsize & Hbytes).
  rewrite (old_size t cfg es Hnd Hnames Hes) in Hbytes.
  set (record := next_record cfg (entry_Path <$> files)) in *.
  change (cfg_PruneOwner cfg) with (rec_Owner record) in *. set (es' := with_record record (Z.of_nat (String.length (encode_record record))) es).
  pose proof (without_owner es record Hname) as Hwo.
  assert (∀ e, e ∈ es → records !! rec_Owner e.2.1 = Some e.2.1) as Hin by (intros e He; apply Hrecs; by exists e).
  assert (NoDup ((λ e, rec_Owner e.2.1) <$> es')) as Hond' by (by apply with_record_fmap).
  pose proof (λ o r, with_record_lookup records es record (Z.of_nat (String.length (encode_record record))) Hrecs Hname Hhash o r) as Hnext.
  destruct (next_meta t t' cfg files paths owners records total) as [Hm1 Hm2]; try done.
  destruct (load_from_entries t' es') as (owners' & records' & Hload' & Hrecs'); try done.
  - apply with_record_fmap; [done|]. by intros e [Hne _]%list_elem_of_filter.
  - intros n. unfold es'. rewrite (next_names t t' cfg files paths owners records total), with_record_names, Hnames by done. done.
  - constructor; [by apply (own_entry t t' cfg files paths owners records total)|]. apply Forall_forall. intros e He.
    pose proof (Hwo e He). apply list_elem_of_filter in He as [_ He]. rewrite Forall_forall in Hes.
    by apply (next_entry t t' cfg files paths owners records total); auto; rewrite Hin.
  - by apply (next_paths t t' cfg files paths owners records total).
  - etrans; [|exact Hsize]. apply inj_le. rewrite <- (size_dom (D := gset string)), <- (length_fmap (λ e, rec_Owner e.2.1) es').
    rewrite <- (size_list_to_set (C := gset string)) by done. apply subseteq_size. intros o.
    rewrite elem_of_list_to_set, elem_of_dom. intros (e & -> & He)%list_elem_of_fmap. exists e.2.1. apply Hnext. by exists e.
  - rewrite Htot, (without_total (sha256_hex (rec_Owner record) +:+ ".json") es Hnd) in Hbytes.
    unfold es', with_record, entry_total. rewrite fmap_cons. cbn [foldr fst snd]. fold (entry_total (without (sha256_hex (rec_Owner record) +:+ ".json") es)). lia.
  - exists owners', (entry_total es'). assert (records' = <[rec_Owner record := record]> records) as ->.
    { apply map_eq. intros o. apply option_eq. intros r. by rewrite Hrecs', Hnext. }
    split; [done|]. apply (loadPruneRecords_loaded _ _ _ _ Hload').
Qed.

(** * Releases *)

Lemma lstat_None_nodes t p : lstat t p = None → wt_nodes t !! p = None.
Proof. unfold lstat. by destruct (wt_nodes t !! p) as [[]|]. Qed.

Lemma existing_paths_ok t paths l :
  existing_paths t paths = Ok l → (∀ p, p ∈ l → p ∈ paths) ∧ (∀ p, p ∈ paths → p ∉ l → wt_nodes t !! p = None).
Proof.
  revert l. induction paths as [|p paths IH]; intros l; cbn [existing_paths].
  - intros [= <-]. split; [done|]. intros p Hp. by apply not_elem_of_nil in Hp.
  - unfold regularFileExists. intros (b & Hb & Hr)%result_bind_ok. apply then_ok in Hb as [_ [= <-]].
    apply result_bind_ok in Hr as (rest & Hrest & [= <-]). destruct (IH rest Hrest) as [IH1 IH2].
    destruct (lstat t p) eqn:Hl; split; intros q.
    + intros [->|Hq]%elem_of_cons; [left|right; by apply IH1].
    + intros [->|Hq]%elem_of_cons Hn; [destruct Hn; left|]. apply IH2; [done|]. intros Hin. apply Hn. by right.
    + intros Hq. right. by apply IH1.
    + intros [->|Hq]%elem_of_cons Hn; [by apply lstat_None_nodes|by apply IH2].
Qed.

Lemma removeExact_nodes tracked paths t removed t' q :
  removeExact tracked paths t = Ok (removed, t') → wt_nodes t' !! q = if decide (q ∈ paths) then None else wt_nodes t !! q.
Proof.
  revert t removed. induction paths as [|p paths IH]; intros t removed; cbn [removeExact].
  - intros [= _ <-]. by rewrite decide_False by apply not_elem_of_nil.
  - unfold regularFileExists. intros (b & Hb & Hr)%result_bind_ok. apply then_ok in Hb as [_ [= <-]].
    assert (∀ x : option node, (if decide (q ∈ p :: paths) then None else x) =
      if decide (q ∈ paths) then None else if decide (q = p) then None else x) as Hdec.
    { intros x. destruct (decide (q ∈ paths)) as [Hq|Hq]; [by rewrite decide_True by (by right)|].
      apply decide_ext. rewrite elem_of_cons. tauto. }
    rewrite Hdec. destruct (lstat t p) eqn:Hl; cbn [negb] in Hr.
    + apply result_bind_ok in Hr as ([removed' t1] & Hr & [= _ <-]). rewrite (IH _ _ Hr). cbn [fs_remove wt_nodes].
      destruct (decide (q ∈ paths)); [done|]. destruct (decide (q = p)) as [->|Hqp]; [by rewrite lookup_delete_eq|].
      by rewrite lookup_delete_ne.
    + rewrite (IH _ _ Hr). destruct (decide (q ∈ paths)); [done|]. destruct (decide (q = p)) as [->|]; [|done].
      by apply lstat_None_nodes.
Qed.

(** A sweep removes only what a matcher accepts and nobody else records. *)
Definition swept_by (protected : gmap string string) (candidates : list string) (q : string) : Prop :=
  protected !! q = None ∧ ∃ c, c ∈ candidates ∧ swept c q = true.

Lemma sweep_matcher_nodes tracked protected m st q :
  wt_nodes (sweep_matcher tracked protected m st).2 !! q = wt_nodes st.2 !! q ∨
  (wt_nodes (sweep_matcher tracked protected m st).2 !! q = None ∧ protected !! q = None ∧ Matches m q = true).
Proof.
  destruct st as [removed0 t0]. unfold sweep_matcher. cbn [snd]. set (dir := ListDir m). generalize (read_dir t0 dir). intros names.
  assert (∀ st : list string * worktree,
    (wt_nodes st.2 !! q = wt_nodes t0 !! q ∨ (wt_nodes st.2 !! q = None ∧ protected !! q = None ∧ Matches m q = true)) →
    let st' := foldl (λ '(removed, t') name, let full := JoinDir dir name in
      if decide (lstat t0 full = Some StatDir) then (removed, t')
      else if negb (Matches m full) then (removed, t')
      else if decide (is_Some (protected !! full)) then (removed, t')
      else (if tracked full then removed ++ [full] else removed, fs_remove full t')) st names in
    wt_nodes st'.2 !! q = wt_nodes t0 !! q ∨ (wt_nodes st'.2 !! q = None ∧ protected !! q = None ∧ Matches m q = true)) as Hgen.
  { induction names as [|name names IH]; intros [removed t'] Hst; [exact Hst|]. cbn [foldl]. apply IH. clear IH.
    set (full := JoinDir dir name). case_decide; [exact Hst|]. destruct (Matches m full) eqn:Hm; cbn [negb]; [|exact Hst].
    case_decide as Hp; [exact Hst|]. cbn [snd fs_remove wt_nodes] in *. apply eq_None_not_Some in Hp.
    destruct (decide (full = q)) as [<-|Hne]; [right; by rewrite lookup_delete_eq|]. by rewrite lookup_delete_ne. }
  apply (Hgen (removed0, t0)). by left.
Qed.

Lemma removeFSCandidates_nodes tracked protected candidates t q :
  let t' := (removeFSCandidates tracked protected candidates t).2 in
  wt_nodes t' !! q = wt_nodes t !! q ∨ (wt_nodes t' !! q = None ∧ swept_by protected candidates q).
Proof.
  cbv zeta. unfold removeFSCandidates. set (f := λ st candidate, foldl _ st (CleanupMatchers candidate)).
  assert (∀ ms st, (∀ m, m ∈ ms → ∃ c, c ∈ candidates ∧ m ∈ CleanupMatchers c) →
    (wt_nodes st.2 !! q = wt_nodes t !! q ∨ (wt_nodes st.2 !! q = None ∧ swept_by protected candidates q)) →
    let st' := foldl (λ st m, sweep_matcher tracked protected m st) st ms in
    wt_nodes st'.2 !! q = wt_nodes t !! q ∨ (wt_nodes st'.2 !! q = None ∧ swept_by protected candidates q)) as Hms.
  { induction ms as [|m ms IH]; intros st Hall Hst; [exact Hst|]. cbn [foldl]. apply IH; [intros m' Hm'; apply Hall; by right|].
    destruct (sweep_matcher_nodes tracked protected m st q) as [->|(-> & Hp & Hm)]; [exact Hst|]. right. split; [done|].
    split; [done|]. destruct (Hall m ltac:(left)) as (c & Hc & Hin). exists c. split; [done|].
    unfold swept. apply existsb_exists. exists m. by rewrite <- list_elem_of_In. }
  assert (∀ cs st, (∀ c, c ∈ cs → c ∈ candidates) →
    (wt_nodes st.2 !! q = wt_nodes t !! q ∨ (wt_nodes st.2 !! q = None ∧ swept_by protected candidates q)) →
    let st' := foldl f st cs in
    wt_nodes st'.2 !! q = wt_nodes t !! q ∨ (wt_nodes st'.2 !! q = None ∧ swept_by protected candidates q)) as Hcs.
  { induction cs as [|c cs IH]; intros st Hall Hst; [exact Hst|]. cbn [foldl]. apply IH; [intros c' Hc'; apply Hall; by right|].
    apply Hms; [|exact Hst]. intros m Hm. exists c. split; [apply Hall; left|done]. }
  apply Hcs; [done|]. by left.
Qed.

(** A release that keeps the files plans to remove its own record at most. *)
Lemma planRelease_only t cfg candidates plan :
  cfg_ReleaseOnly cfg = true → cfg_PruneOwner cfg ≠ "" → planRelease t cfg candidates = Ok plan →
  rp_candidates plan = [] ∧ ∀ q, q ∈ rp_exact plan → q = pruneRecordPath (cfg_PruneOwner cfg).
Proof.
  intros Hro Ho Hplan. unfold planRelease in Hplan. rewrite Hro in Hplan.
  rewrite decide_False in Hplan by done. apply result_bind_ok in Hplan as ([rp found] & Hown & Hplan).
  destruct found; cbn [negb] in Hplan; injection Hplan as <-; split; try done; intros q Hq.
  - apply list_elem_of_singleton in Hq as ->. unfold ownRecord in Hown. destruct (4096 <? _); [done|].
    apply result_bind_ok in Hown as ([] & _ & Hown); cbn [negb] in Hown; [|done].
    apply result_bind_ok in Hown as ([r sz] & _ & Hown). case_decide; [done|]. by injection Hown as <-.
  - by apply not_elem_of_nil in Hq.
Qed.

(** A release that removes files: the candidates are the caller's, the files of other
    owners are protected, and what is removed by name are files of the owner's record
    and the record. *)
Lemma planRelease_full t cfg candidates plan owners records total :
  cfg_ReleaseOnly cfg = false → cfg_PruneOwner cfg ≠ "" → loadPruneRecords t = Ok (owners, records, total) →
  planRelease t cfg candidates = Ok plan →
  let owner := cfg_PruneOwner cfg in
  rp_candidates plan = candidates ∧
  (∀ q o, owners !! q = Some o → o ≠ owner → rp_protected plan !! q = Some o ∧ q ∉ rp_exact plan) ∧
  (∀ q, q ∈ rp_exact plan → owners !! q = Some owner ∨ q = pruneRecordPath owner) ∧
  (∀ r, records !! owner = Some r → pruneRecordPath owner ∈ rp_exact plan ∧
     ∀ q, q ∈ rec_Paths r → q ∈ rp_exact plan ∨ wt_nodes t !! q = None).
Proof.
  intros Hro Ho Hload Hplan. pose proof (loadPruneRecords_loaded _ _ _ _ Hload) as Hl. pose proof Hl as [_ Hl2].
  unfold planRelease in Hplan. rewrite Hro in Hplan. apply result_bind_ok in Hplan as ([[owners0 records0] total0] & Hload0 & Hplan).
  rewrite Hload in Hload0. injection Hload0 as <- <- <-. rewrite decide_False in Hplan by done.
  set (owner := cfg_PruneOwner cfg) in *. cbv zeta.
  assert (∀ q o, owners !! q = Some o → o ≠ owner → filter (λ po, owner = "" ∨ po.2 ≠ owner) owners !! q = Some o) as Hf.
  { intros q o Hq Hne. apply map_lookup_filter_Some. split; [done|]. by right. }
  destruct (records !! owner) as [r|] eqn:Hr.
  - apply result_bind_ok in Hplan as (l & Hex & [= <-]). apply existing_paths_ok in Hex as [Hin Hgone].
    cbn [rp_exact rp_protected rp_candidates].
    assert (∀ q, q ∈ l → owners !! q = Some owner) as Hlo by (intros q Hq%Hin; apply Hl2; by exists r).
    split_and!; [done| | |].
    + intros q o Hq Hne. split; [by apply Hf|]. rewrite elem_of_app, list_elem_of_singleton. intros [Hq'%Hlo|Hq']; [congruence|].
      by eapply recorded_not_record.
    + intros q. rewrite elem_of_app, list_elem_of_singleton. intros [Hq%Hlo|Hq]; auto.
    + intros r' [= <-]. split; [apply elem_of_app; right; by left|]. intros q Hq.
      destruct (decide (q ∈ l)) as [|Hql]; [left; apply elem_of_app; by left|]. right. by apply Hgone.
  - injection Hplan as <-. cbn [rp_exact rp_protected rp_candidates]. split_and!; [done| | |done].
    + intros q o Hq Hne. split; [by apply Hf|]. apply not_elem_of_nil.
    + by intros q ?%not_elem_of_nil.
Qed.

End records_lemmas.

(** * A branch with two inventories *)

Module GitTreeDemo.

Definition demo_hash (s : string) : string := zeros 63 +:+ String (hex_digit (String.length s `mod` 16)) "".

Lemma demo_hash_length s : String.length (demo_hash s) = 64.
Proof. done. Qed.

Lemma demo_hash_hex s : string_forall is_hex (demo_hash s) = true.
Proof.
  unfold demo_hash. assert (String.length s `mod` 16 < 16) as Hm by (by apply Nat.mod_upper_bound).
  revert Hm. generalize (String.length s `mod` 16). intros n Hn.
  do 16 (destruct n as [|n]; [reflexivity|]). lia.
Qed.

#[local] Instance demo_sha : Sha256 :=
  {| sha256_hex := demo_hash; sha256_hex_length := demo_hash_length; sha256_hex_digits := demo_hash_hex |}.
#[local] Existing Instance ascii_only_case.
#[local] Existing Instance map_range_to_list.

Definition recA : pruneRecord := mkPruneRecord 1 "A" ["inventory/a/x.yaml"].
Definition recA' : pruneRecord := mkPruneRecord 1 "A" ["inventory/a/z.yaml"].
Definition recB : pruneRecord := mkPruneRecord 1 "BB" ["inventory/b/y.yaml"].

(** A decoder that knows the encodings of three records. *)
#[local] Instance demo_codec : PruneCodec :=
  {| decode_record s := head (filter (λ r, encode_record r = s) [recA; recA'; recB]) |}.

Definition t0 : worktree :=
  mkWorktree
    (<["README.md" := Regular "hello"]> (<["inventory/a/x.yaml" := Regular "x"]> (<["inventory/b/y.yaml" := Regular "y"]>
      (<[pruneRecordPath "A" := Regular (encode_record recA)]> (<[pruneRecordPath "BB" := Regular (encode_record recB)]> ∅))))) ∅.

Definition cfgA : PruneConfig := mkPruneConfig true "A" [] [] false.
Definition filesA : list FileEntry := [mkFileEntry "inventory/a/z.yaml" "z"].

Definition t1 : worktree :=
  match writeBillyExportFiles t0 cfgA filesA with Ok (_, t) => t | Err _ => t0 end.
Definition owners0 : gmap string string :=
  match loadPruneRecords t0 with Ok (o, _, _) => o | Err _ => ∅ end.
Definition records0 : gmap string pruneRecord :=
  match loadPruneRecords t0 with Ok (_, r, _) => r | Err _ => ∅ end.

Example demo_export :
  (λ p, wt_nodes t1 !! p) <$> ["README.md"; "inventory/a/x.yaml"; "inventory/a/z.yaml"; "inventory/b/y.yaml"; pruneRecordPath "A"] =
  [Some (Regular "hello"); None; Some (Regular "z"); Some (Regular "y"); Some (Regular (encode_record recA'))].
Proof. by vm_compute. Qed.

(** Writing the other inventory's file is refused, and the refusal is its own. *)
Example demo_conflict :
  writeBillyExportFiles t0 cfgA [mkFileEntry "inventory/b/y.yaml" "mine"] = Err (ForeignClaim "inventory/b/y.yaml" "BB") ∧
  rejected_for_owner (ForeignClaim "inventory/b/y.yaml" "BB") = true.
Proof. by vm_compute. Qed.

Lemma export_respects_ownership_witness :
  wt_nodes t1 !! "inventory/b/y.yaml" = wt_nodes t0 !! "inventory/b/y.yaml" ∧
  wt_nodes t1 !! "README.md" = wt_nodes t0 !! "README.md".
Proof.
  destruct (export_respects_ownership t0 cfgA filesA ["inventory/a/z.yaml"] t1 owners0 records0 115) as (Hf & Hu & _);
    [done|(vm_compute; reflexivity)..|].
  split; [apply (Hf _ "BB"); [vm_compute; reflexivity|discriminate]|apply Hu; [vm_compute; reflexivity| |discriminate]].
  intros Hin. apply list_elem_of_singleton in Hin. discriminate.
Defined.

Lemma export_keeps_records_loadable_witness :
  ∃ owners' total', loadPruneRecords t1 = Ok (owners', <["A" := recA']> records0, total').
Proof.
  destruct (export_keeps_records_loadable t0 cfgA filesA ["inventory/a/z.yaml"] t1 owners0 records0 115) as (o & n & Hl & _);
    [done|done|(vm_compute; reflexivity)..| |].
  - intros o [r Hr]. assert (o = "A" ∨ o = "BB") as [-> | ->]; [|done|done].
    assert (o ∈ dom records0) as Hd by (apply elem_of_dom; eauto).
    assert (dom records0 = {["A"; "BB"]}) as Heq by ((vm_compute; reflexivity)). rewrite Heq in Hd. by rewrite elem_of_union, !elem_of_singleton in Hd.
  - exists o, n. exact Hl.
Defined.

Definition t2 : worktree := match releaseFS (λ _, true) t0 cfgA ["inventory/a/x.yaml"] with Ok (_, t) => t | Err _ => t0 end.

End GitTreeDemo.
