(* ===== verification/GoRegexp.v ===== *)
(** A part of Go's [regexp]: leftmost-first matching of expressions built from
    literals, byte classes, alternation, greedy options, greedy repetition, one
    capture group, the two anchors and the ASCII word boundary. Every class here is ASCII or the
    complement of an ASCII class, so that scanning bytes finds the captures that
    scanning runes finds. *)

From S2P Require Import Prelude GoStrings.

Inductive re :=
  | Lit (s : string)
  | Class (f : ascii → bool)
  | Star (f : ascii → bool)
  | Opt (r : re)
  | Seq (a b : re)
  | Alt (a b : re)
  | Capture (r : re)
  | AtStart
  | AtEnd
  | Many (r : re)
  | WordBoundary.

Definition alts (l : list string) : re := foldr (λ s r, Alt (Lit s) r) (Class (λ _, false)) l.
Definition seqs (l : list re) : re := foldr Seq (Lit "") l.

(** The prefix of [s] that is left when [rest] is cut off its end. *)
Definition consumed (s rest : string) : string := String.substring 0 (String.length s - String.length rest) s.

Definition is_word (c : ascii) : bool :=
  let n := nat_of_ascii c in (48 <=? n) && (n <=? 57) || (65 <=? n) && (n <=? 90) || (97 <=? n) && (n <=? 122) || (n =? 95).

(** The byte before the suffix [s] of [text]. *)
Definition byte_before (text s : string) : option ascii :=
  let n := String.length text - String.length s in
  match n with 0 => None | S n => String.get n text end.

Definition at_word_boundary (text s : string) : bool :=
  xorb (match byte_before text s with Some c => is_word c | None => false end)
       (match s with String c _ => is_word c | "" => false end).

Section matching.
Context {A : Type}.

Fixpoint star_match (f : ascii → bool) (k : string → option A) (s : string) : option A :=
  match s with
  | String c s' =>
      if f c then match star_match f k s' with Some x => Some x | None => k s end else k s
  | "" => k s
  end.

(** The first way [r] matches a prefix of [s] after which [k] succeeds on the
    capture and the remaining text; [text] is the whole text, for the anchor. *)
Fixpoint re_match (text : string) (r : re) (k : option string → string → option A) (cap : option string) (s : string) : option A :=
  match r with
  | Lit l => match cut_prefix l s with Some s' => k cap s' | None => None end
  | Class f => match s with String c s' => if f c then k cap s' else None | "" => None end
  | Star f => star_match f (k cap) s
  | Opt r => match re_match text r k cap s with Some x => Some x | None => k cap s end
  | Seq a b => re_match text a (re_match text b k) cap s
  | Alt a b => match re_match text a k cap s with Some x => Some x | None => re_match text b k cap s end
  | Capture r => re_match text r (λ _ s', k (Some (consumed s s')) s') cap s
  | AtStart => if decide (s = text) then k cap s else None
  | AtEnd => if decide (s = "") then k cap s else None
  | Many r =>
      (* an iteration consumes at least one byte *)
      (fix iterate (n : nat) (cap : option string) (s : string) : option A :=
         match n with
         | 0 => k cap s
         | S n =>
             match re_match text r (λ cap' s', if String.length s' <? String.length s then iterate n cap' s' else None) cap s with
             | Some x => Some x
             | None => k cap s
             end
         end) (String.length s) cap s
  | WordBoundary => if at_word_boundary text s then k cap s else None
  end.
End matching.

(** [FindAllStringSubmatch(s, -1)], the captures only; a match that consumes
    nothing is skipped like a failure. *)
Fixpoint find_all_from (fuel : nat) (text : string) (r : re) (s : string) : list string :=
  match fuel with
  | 0 => []
  | S fuel =>
      match re_match text r (λ cap rest, Some (default "" cap, rest)) None s with
      | Some (cap, rest) =>
          if decide (String.length rest < String.length s) then cap :: find_all_from fuel text r rest
          else match s with String _ s' => find_all_from fuel text r s' | "" => [] end
      | None => match s with String _ s' => find_all_from fuel text r s' | "" => [] end
      end
  end.

Definition find_all (r : re) (s : string) : list string := find_all_from (S (String.length s)) s r s.

(** The fuel is enough: more of it changes nothing. *)
Lemma find_all_fuel text r n m s :
  String.length s < n → String.length s < m → find_all_from n text r s = find_all_from m text r s.
Proof.
  revert m s. induction n as [|n IH]; intros m s Hn Hm; [lia|]. destruct m as [|m]; [lia|]. cbn [find_all_from].
  assert (∀ c s', s = String c s' → find_all_from n text r s' = find_all_from m text r s') as Hs.
  { intros c s' ->. cbn [String.length] in *. apply IH; lia. }
  destruct (re_match _ _ _ _ s) as [[cap rest]|]; [case_decide|].
  - f_equal. apply IH; lia.
  - destruct s as [|c s']; [done|]. by apply (Hs c).
  - destruct s as [|c s']; [done|]. by apply (Hs c).
Qed.

(** [ReplaceAllString] with a replacement made of the capture, for expressions that
    do not match the empty text. *)
Fixpoint replace_from (fuel : nat) (text : string) (r : re) (repl : string → string) (s : string) : string :=
  match fuel with
  | 0 => s
  | S fuel =>
      match re_match text r (λ cap rest, Some (default "" cap, rest)) None s with
      | Some (cap, rest) =>
          if decide (String.length rest < String.length s) then repl cap +:+ replace_from fuel text r repl rest
          else match s with String c s' => String c (replace_from fuel text r repl s') | "" => "" end
      | None => match s with String c s' => String c (replace_from fuel text r repl s') | "" => "" end
      end
  end.

Definition replace_matches (r : re) (repl : string → string) (s : string) : string :=
  replace_from (S (String.length s)) s r repl s.

(** Here too the fuel is enough. *)
Lemma replace_fuel text r repl n m s :
  String.length s < n → String.length s < m → replace_from n text r repl s = replace_from m text r repl s.
Proof.
  revert m s. induction n as [|n IH]; intros m s Hn Hm; [lia|]. destruct m as [|m]; [lia|]. cbn [replace_from].
  assert (∀ c s', s = String c s' → replace_from n text r repl s' = replace_from m text r repl s') as Hs.
  { intros c s' ->. cbn [String.length] in *. apply IH; lia. }
  destruct (re_match _ _ _ _ s) as [[cap rest]|]; [case_decide|].
  - f_equal. apply IH; lia.
  - destruct s as [|c s']; [done|]. f_equal. by apply (Hs c).
  - destruct s as [|c s']; [done|]. f_equal. by apply (Hs c).
Qed.

(** A text in which the expression matches nowhere is returned as it is. *)
Lemma replace_nothing r repl s :
  (∀ s1 s2, s = s1 +:+ s2 → re_match s r (λ cap rest, Some (default "" cap, rest)) None s2 = None) → replace_matches r repl s = s.
Proof.
  intros H. unfold replace_matches. generalize (S (String.length s)). intros n.
  assert (∀ s1 s2, s = s1 +:+ s2 → replace_from n s r repl s2 = s2) as Hgo; [|by apply (Hgo "" s)].
  induction n as [|n IH]; intros s1 s2 Heq; [done|]. cbn [replace_from]. rewrite (H s1 s2 Heq). destruct s2 as [|c s2]; [done|]. f_equal.
  apply (IH (s1 +:+ String c "")). rewrite Heq. by rewrite app_assoc.
Qed.
