(* ===== verification/GitErrors.v ===== *)
(** Failures of Git operations: their classes ([src/internal/sink/git/errors.go])
    and the retry of transport operations ([retry.go]).

    The typed errors of go-git and the network predicates of the Kubernetes
    libraries are the class [GitErrorApi]. *)

From S2P Require Import Prelude GoStrings Errors GoRegexp.

(** An error made by [fmt.Errorf] without a cause. *)
Definition plain (text : string) : err := Leaf 4 text.

(** [fmt.Errorf("prefix: %w", err)]. *)
Definition errorf (prefix : string) (e : err) : err := Wrap (prefix +:+ ": " +:+ error_text e) e.

Class GitErrorApi := {
  http_err_codes : err → list Z; (* of a [*http.Err], also inside an [UnexpectedError] *)
  is_auth_sentinel : err → bool; (* [ErrAuthenticationRequired] or [ErrAuthorizationFailed] *)
  IsProbableEOF : err → bool;
  IsConnectionReset : err → bool;
}.

Definition digit3 : re := Capture (seqs [Class is_digit; Class is_digit; Class is_digit]).
Definition re_space (c : ascii) : bool := bool_decide (nat_of_ascii c ∈ [9; 10; 12; 13; 32]).
Definition one_of (l : list ascii) (c : ascii) : bool := bool_decide (c ∈ l).

(** Go: internal/sink/git/errors.go:76-78 [statusPhraseRE] *)
Definition statusPhraseRE : re :=
  seqs [Alt (Lit "returned error:") (Alt (Seq (Lit "status code") (Opt (Lit ":"))) (Alt (Lit "status:")
         (Alt (Seq (Lit "code") (Class (one_of ["="; ":"]%char)))
           (Alt (seqs [Lit "http"; Opt (Lit "/"); Star (λ c, is_digit c || one_of ["."%char] c)]) (Lit "error:")))));
        Star re_space; Opt (Lit "("); digit3; Alt (Class (λ c, negb (is_digit c))) AtEnd].

(** Go: internal/sink/git/errors.go:79-80 [statusPunctRE] *)
Definition statusPunctRE : re :=
  seqs [Alt AtStart (Class (λ c, re_space c || one_of ["("%char] c)); digit3; Class (one_of [")"; ":"]%char)].

(** Go: internal/sink/git/errors.go:81-82 [statusTextRE] *)
Definition statusTextRE : re :=
  seqs [Alt AtStart (Class re_space); digit3; Lit " ";
        alts ["unauthorized"; "forbidden"; "too many requests"; "service unavailable"; "bad gateway"; "gateway timeout";
              "internal server error"]].

Section classify.
Context `{!UnicodeCase, !ApiErrors, !GitErrorApi}.

(** Go: internal/sink/git/errors.go:85-115 [httpStatusCodes] *)
Definition httpStatusCodes (e : err) (msg : string) : list Z :=
  http_err_codes e ++ omap atoi ([statusPhraseRE; statusPunctRE; statusTextRE] ≫= λ r, find_all r msg).

(** Go: internal/sink/git/errors.go:117-125 [hasAnyStatus] *)
Definition hasAnyStatus (codes : list Z) (f : Z → bool) : bool := existsb f codes.

(** Go: internal/sink/git/errors.go:127-127 [isAuthStatus] *)
Definition isAuthStatus (c : Z) : bool := bool_decide (c = 401 ∨ c = 403)%Z.

(** Go: internal/sink/git/errors.go:129-129 [isRetryableStatus] *)
Definition isRetryableStatus (c : Z) : bool := bool_decide (c = 429 ∨ (500 ≤ c ∧ c ≤ 599))%Z.

(** Go: internal/sink/git/errors.go:131-146 [isAuthFailure] *)
Definition isAuthFailure (msg : string) (e : err) : bool :=
  contains msg "authentication required" || contains msg "invalid credentials" || contains msg "authorization failed" ||
  contains msg "access denied" || hasAnyStatus (httpStatusCodes e msg) isAuthStatus || is_auth_sentinel e.

(** Go: internal/sink/git/errors.go:52-73 [isTransientTransportError] *)
Definition isTransientTransportError (e : option err) : bool :=
  match e with
  | None => false
  | Some e =>
      IsProbableEOF e || IsConnectionReset e ||
      let msg := to_lower (error_text e) in
      contains msg "connection reset" || contains msg "connection refused" || contains msg "broken pipe" ||
      contains msg "i/o timeout" || contains msg "timeout" || contains msg "temporary failure" || contains msg "eof" ||
      hasAnyStatus (httpStatusCodes e msg) isRetryableStatus || contains msg "too many requests"
  end.

(** Go: internal/sink/git/errors.go:148-158 [isNonFastForwardError] *)
Definition isNonFastForwardError (e : option err) : bool :=
  match e with
  | None => false
  | Some e =>
      let msg := to_lower (error_text e) in
      contains msg "non-fast-forward" || contains msg "non fast forward" ||
      contains msg "failed to push some refs" && contains msg "updates were rejected"
  end.

Definition push_rejected (msg : string) (e : err) : bool :=
  contains msg "protected branch" || contains msg "pre-receive hook declined" ||
  contains msg "remote rejected" && hasAnyStatus (httpStatusCodes e msg) isAuthStatus.

(** Go: internal/sink/git/errors.go:23-50 [ClassifyExportError] *)
Definition ClassifyExportError (e : option err) : option err :=
  match e with
  | None => None
  | Some e' =>
      if IsTerminal e then e
      else
        let msg := to_lower (error_text e') in
        if isAuthFailure msg e' then Terminal (Some (errorf "git auth failed" e'))
        else if push_rejected msg e' then Terminal (Some (errorf "git push rejected" e'))
        else if isTransientTransportError e then Transient (Some (errorf "git transport" e'))
        else e
  end.
End classify.

(** * Retries *)

Definition defaultRetryAttempts : nat := 3.
Definition defaultRetryInitial : Z := 1000000000.
Definition defaultRetryMaxBackoff : Z := 30000000000.
Definition defaultRetryFactor : Z := 2.

(** Go: internal/sink/git/retry.go:21-27 [retryConfig] *)
Record retryConfig := mkRetryConfig {
  rc_maxAttempts : Z;
  rc_initialDelay : Z;
  rc_maxDelay : Z;
  rc_factor : Z;
  rc_shouldRetry : option err → bool;
}.

(** The delay before the next attempt; the factors in use are whole numbers.
    Go: internal/sink/git/retry.go:72-87 [retryBackoff] *)
Definition retryBackoff (cfg : retryConfig) (attempt : nat) : Z :=
  let initial := if decide (rc_initialDelay cfg ≤ 0)%Z then defaultRetryInitial else rc_initialDelay cfg in
  let factor := if decide (rc_factor cfg ≤ 0)%Z then defaultRetryFactor else rc_factor cfg in
  let wait := (initial * factor ^ Z.of_nat attempt)%Z in
  if decide (0 < rc_maxDelay cfg)%Z then Z.min wait (rc_maxDelay cfg) else wait.

Section retry.
Context {W : Type}.

(** The context's error when an attempt starts, and the one a sleep returns. *)
Variable ctx_err : nat → option err.
Variable sleep_err : nat → Z → option err.
Variable cfg : retryConfig.
Variable fn : nat → W → option err * W.

(** The attempts from [attempt] on, [n] of them; the second result lists what
    the calls of [fn] returned. *)
Fixpoint retry_from (n attempt : nat) (lastErr : option err) (w : W) : option err * list (option err) * W :=
  match n with
  | 0 => (lastErr, [], w)
  | S n =>
      match ctx_err attempt with
      | Some e => (Some e, [], w)
      | None =>
          match fn attempt w with
          | (None, w) => (None, [None], w)
          | (Some e, w) =>
              if negb (rc_shouldRetry cfg (Some e)) || bool_decide (n = 0) then (Some e, [Some e], w)
              else
                match sleep_err attempt (retryBackoff cfg attempt) with
                | Some e' => (Some e', [Some e], w)
                | None => let '(r, outs, w) := retry_from n (S attempt) (Some e) w in (r, Some e :: outs, w)
                end
          end
      end
  end.

(** Go: internal/sink/git/retry.go:39-70 [withTransportRetry] *)
Definition withTransportRetry (w : W) : option err * list (option err) * W :=
  retry_from (Z.to_nat (Z.max 1 (rc_maxAttempts cfg))) 0 None w.
End retry.

Section default.
Context `{!UnicodeCase, !ApiErrors, !GitErrorApi}.

(** Go: internal/sink/git/retry.go:29-37 [defaultTransportRetry] *)
Definition defaultTransportRetry : retryConfig :=
  mkRetryConfig (Z.of_nat defaultRetryAttempts) defaultRetryInitial defaultRetryMaxBackoff defaultRetryFactor
    isTransientTransportError.
End default.

(** * Lemmas *)

Section classify_lemmas.
Context `{!UnicodeCase, !ApiErrors, !GitErrorApi}.

(** Classification never hides a failure or its cause, and makes an error terminal
    exactly when it was terminal already or reports a refusal (credentials, a
    protected branch, a hook). *)
Lemma classify_keeps_cause e :
  ∃ e', ClassifyExportError (Some e) = Some e' ∧ (∀ t, errors_is t e = true → errors_is t e' = true) ∧
  (IsTerminal (Some e') = true ↔
     IsTerminal (Some e) = true ∨
     (let msg := to_lower (error_text e) in isAuthFailure msg e = true ∨ push_rejected msg e = true)).
Proof.
  unfold ClassifyExportError. destruct (IsTerminal (Some e)) eqn:Ht; [exists e; rewrite Ht; split_and!; [done..|tauto]|].
  cbv zeta. set (msg := to_lower (error_text e)).
  assert (∀ c p t, errors_is t e = true → errors_is t (ClassError (Some c) (Some (errorf p e))) = true) as Hw.
  { intros c p t He. cbn. rewrite He. by rewrite orb_true_r. }
  destruct (isAuthFailure msg e) eqn:Ha.
  { eexists. split; [done|]. split; [by apply Hw|]. split; [by auto|done]. }
  destruct (push_rejected msg e) eqn:Hp.
  { eexists. split; [done|]. split; [by apply Hw|]. split; [by auto|done]. }
  destruct (isTransientTransportError (Some e)) eqn:Htr.
  - eexists. split; [done|]. split; [by apply Hw|]. split; [done|]. intros [?|[?|?]]; done.
  - exists e. split; [done|]. split; [done|]. rewrite Ht. split; [done|]. intros [?|[?|?]]; done.
Qed.
End classify_lemmas.

Section retry_lemmas.
Context {W : Type} (ctx_err : nat → option err) (sleep_err : nat → Z → option err).
Context (cfg : retryConfig) (fn : nat → W → option err * W).

Definition retry_outcome (n : nat) (lastErr : option err) (res : option err * list (option err) * W) : Prop :=
  let '(r, outs, _) := res in
  length outs ≤ n ∧
  (∀ i o, outs !! i = Some o → S i < length outs → o ≠ None ∧ rc_shouldRetry cfg o = true) ∧
  (outs = [] → r = lastErr ∨ r ≠ None) ∧
  (outs ≠ [] → (r = None ↔ last outs = Some None)).

Lemma retry_from_outcome n attempt lastErr w :
  retry_outcome n lastErr (retry_from ctx_err sleep_err cfg fn n attempt lastErr w).
Proof.
  revert attempt lastErr w. induction n as [|n IH]; intros attempt lastErr w; cbn [retry_from].
  { split_and!; [done|done|by left|done]. }
  destruct (ctx_err attempt) as [e|]. { split_and!; [cbn; lia|done|by right|done]. }
  assert (∀ (o : option err) i o', [o] !! i = Some o' → S i < length [o] → o' ≠ None ∧ rc_shouldRetry cfg o' = true) as Hsing.
  { intros o i o' _ Hi. cbn in Hi. lia. }
  destruct (fn attempt w) as [[e|] w1]; [|split_and!; [cbn; lia|apply Hsing|done|done]].
  destruct (rc_shouldRetry cfg (Some e)) eqn:Hsr; cbn [negb orb]; [|split_and!; [cbn; lia|apply Hsing|done|done]].
  case_bool_decide as Hn; [split_and!; [cbn; lia|apply Hsing|done|done]|].
  destruct (sleep_err _ _) as [e'|]; [split_and!; [cbn; lia|apply Hsing|done|done]|].
  specialize (IH (S attempt) (Some e) w1). destruct (retry_from _ _ _ _ n _ _ w1) as [[r outs] w2]. cbn.
  destruct IH as (Hl & Hret & Hnil & Hlast). split_and!; [cbn; lia| |done|].
  - intros [|i] o; cbn; [by intros [= <-]|]. intros Ho Hi. apply (Hret i); [done|lia].
  - intros _. destruct outs as [|o outs]; [|by apply Hlast]. split; [|done]. destruct Hnil as [-> | ?]; done.
Qed.

(** Retrying a transport operation terminates: the operation is attempted at
    most the configured number of times, every attempt but the last failed with a
    retryable error, and success is reported exactly when the last attempt
    succeeded. *)
Theorem retry_bounded w :
  let '(r, outs, _) := withTransportRetry ctx_err sleep_err cfg fn w in
  (Z.of_nat (length outs) ≤ Z.max 1 (rc_maxAttempts cfg))%Z ∧
  (∀ i o, outs !! i = Some o → S i < length outs → o ≠ None ∧ rc_shouldRetry cfg o = true) ∧
  (r = None ↔ last outs = Some None).
Proof.
  unfold withTransportRetry. pose proof (Z.le_max_l 1 (rc_maxAttempts cfg)) as Hm.
  set (n := Z.to_nat (Z.max 1 (rc_maxAttempts cfg))).
  pose proof (retry_from_outcome n 0 None w) as Hout.
  destruct (retry_from _ _ _ _ n 0 None w) as [[r outs] w'] eqn:Hr. destruct Hout as (Hl & Hret & Hnil & Hlast).
  split_and!; [lia|done|]. destruct outs as [|o outs]; [|by apply Hlast].
  cbn. split; [|done]. intros ->. exfalso. revert Hr. assert (∃ k, n = S k) as [k ->] by (exists (pred n); lia).
  cbn [retry_from]. destruct (ctx_err 0); [done|]. destruct (fn 0 w) as [[e|] w1]; [|done].
  destruct (_ || _); [done|]. destruct (sleep_err _ _); [done|]. destruct (retry_from _ _ _ _ _ _ _ _) as [[? ?] ?]. done.
Qed.
End retry_lemmas.

(** The default delays: one and two seconds. *)
Example default_backoff `{!UnicodeCase, !ApiErrors, !GitErrorApi} :
  retryBackoff defaultTransportRetry 0 = 1000000000%Z ∧ retryBackoff defaultTransportRetry 1 = 2000000000%Z.
Proof. done. Qed.

(** A status is read after a phrase that introduces one, not in a name. *)
Example status_phrases :
  let codes msg := omap atoi ([statusPhraseRE; statusPunctRE; statusTextRE] ≫= λ r, find_all r msg) in
  codes "unexpected status code: 502" = [502%Z] ∧ codes "the requested url returned error: 403" = [403%Z] ∧
  codes "http/1.1 401 unauthorized" = [401; 401]%Z ∧ codes "clone https://git-503.example.com/team401/r.git failed" = [] ∧
  codes "read /tmp/ab5031/x: file exists" = [] ∧ codes "(429) slow down" = [429%Z] ∧ codes "http401 " = [401%Z].
Proof. vm_compute. done. Qed.

(** What holds after a retried operation: an invariant of the state, and what
    every result of the operation guarantees. *)
Section retry_inv.
Context {W : Type} (ctx_err : nat → option err) (sleep_err : nat → Z → option err).
Context (cfg : retryConfig) (fn : nat → W → option err * W).
Context (I : W → Prop) (P : option err → W → Prop).
Hypothesis Hfn : ∀ n w e w', I w → fn n w = (e, w') → I w' ∧ P e w'.
Hypothesis Hctx : ∀ n e w, ctx_err n = Some e → I w → P (Some e) w.
Hypothesis Hsleep : ∀ n d e w, sleep_err n d = Some e → I w → P (Some e) w.

Lemma retry_from_inv n attempt lastErr w r outs w' :
  I w → retry_from ctx_err sleep_err cfg fn (S n) attempt lastErr w = (r, outs, w') → I w' ∧ P r w'.
Proof.
  revert attempt lastErr w r outs. induction n as [|n IH]; intros attempt lastErr w r outs Hw; cbn [retry_from].
  all: destruct (ctx_err attempt) as [e|] eqn:Hc; [intros [= <- _ <-]; split; [done|by eapply Hctx]|].
  all: destruct (fn attempt w) as [[e|] w1] eqn:Hf; destruct (Hfn _ _ _ _ Hw Hf) as [Hw1 Hp]; [|by intros [= <- _ <-]].
  - rewrite (bool_decide_true (0 = 0)), orb_true_r by done. by intros [= <- _ <-].
  - destruct (_ || _); [by intros [= <- _ <-]|].
    destruct (sleep_err _ _) as [e'|] eqn:Hs; [intros [= <- _ <-]; split; [done|by eapply Hsleep]|].
    intros Hr. specialize (IH (S attempt) (Some e) w1). cbn [retry_from] in IH.
    destruct (match ctx_err (S attempt) with Some e => _ | None => _ end) as [[r1 outs1] w2] eqn:He.
    injection Hr as <- _ <-. by eapply IH.
Qed.

Lemma withTransportRetry_inv w r outs w' :
  I w → withTransportRetry ctx_err sleep_err cfg fn w = (r, outs, w') → I w' ∧ P r w'.
Proof.
  unfold withTransportRetry. intros Hw. assert (∃ k, Z.to_nat (Z.max 1 (rc_maxAttempts cfg)) = S k) as [k ->].
  { exists (pred (Z.to_nat (Z.max 1 (rc_maxAttempts cfg)))). lia. }
  by apply retry_from_inv.
Qed.
End retry_inv.
