(* ===== verification/LayoutExport.v ===== *)
(** How a snapshot is written to a sink: [src/internal/sink/layout_export.go],
    the inventory identity of [identity.go], and the per-export Git configuration
    of [git/backend.go].

    The prune plan is a mutable set shared by the parts of one export: [None] is
    the nil pointer, and a function that may add to it returns it beside its
    result. An attribute map is iterated in the order of its association list. *)

From S2P Require Import Prelude GoStrings GoPath Values Store Json Envelope Partition GoTemplate SinkSpec ObjectPath Layout GitTree.

(** [t.UTC().Format(time.RFC3339)]. *)
Definition rfc3339 (t : Z) : string := rfc3339nano (t / second * second).

Definition InventoryKindNamespaced : string := "KollectInventory".
Definition InventoryKindCluster : string := "KollectClusterInventory".
Definition clusterInventoryPathNamespace : string := "cluster".

(** Go: internal/sink/identity.go:22-29 [InventoryIdentity] *)
Record InventoryIdentity := mkInventoryIdentity {
  id_Kind : string;
  id_Namespace : string;
  id_Name : string;
}.

#[export] Instance InventoryIdentity_eq_dec : EqDecision InventoryIdentity.
Proof. solve_decision. Defined.

Inductive export_error :=
  | EnvelopeFailed (e : envelope_error)
  | LayoutFailed (e : layout_error)
  | IdentityMissing
  | IdentityInvalid (id : InventoryIdentity)
  | IdentityMismatch (id : InventoryIdentity) (objectPath : string)
  | OwnerFailed (e : owner_error)
  | ManifestCollision (path : string).

(** * The inventory identity *)

(** Go: internal/sink/identity.go:31-34 [IsZero] *)
Definition id_IsZero (id : InventoryIdentity) : bool := bool_decide (id = mkInventoryIdentity "" "" "").

(** Go: internal/sink/identity.go:44-64 [validate] *)
Definition id_validate (id : InventoryIdentity) : result export_error unit :=
  let blank s := bool_decide (trim_space s = "" ∨ s ≠ trim_space s) in
  if blank (id_Name id) then Err (IdentityInvalid id)
  else if decide (id_Kind id = InventoryKindNamespaced) then
    if blank (id_Namespace id) then Err (IdentityInvalid id) else Ok tt
  else if decide (id_Kind id = InventoryKindCluster) then
    if decide (id_Namespace id ≠ "") then Err (IdentityInvalid id) else Ok tt
  else Err (IdentityInvalid id).

(** Go: internal/sink/identity.go:66-73 [pathNamespace] *)
Definition pathNamespace (id : InventoryIdentity) : string :=
  if decide (id_Kind id = InventoryKindCluster) then clusterInventoryPathNamespace else id_Namespace id.

(** Go: internal/sink/layout_export.go:88-95 [baseInventoryName] *)
Definition baseInventoryName (name : string) (partIndex partTotal : Z) : string :=
  if decide (partTotal ≤ 1 ∨ partIndex < 1 ∨ partTotal < partIndex)%Z then name
  else trim_suffix (part_suffix (Z.to_nat partIndex) (Z.to_nat partTotal)) name.

(** Go: internal/sink/identity.go:75-89 [checkObjectPath] *)
Definition checkObjectPath (id : InventoryIdentity) (objectPath pathNS pathName : string) (partIndex partTotal : Z) :
    result export_error unit :=
  id_validate id;;
  let base := baseInventoryName pathName partIndex partTotal in
  if decide (pathNS ≠ pathNamespace id ∨ base ≠ id_Name id) then Err (IdentityMismatch id objectPath) else Ok tt.

(** * The prune plan *)

(** Go: internal/sink/layout_export.go:21-28 [PrunePlan] *)
Definition PrunePlan : Type := option (gset string).

(** Go: internal/sink/layout_export.go:30-33 [NewPrunePlan] *)
Definition NewPrunePlan : PrunePlan := Some ∅.

(** Go: internal/sink/layout_export.go:35-50 [Add] *)
Definition plan_Add (paths : list string) (p : PrunePlan) : PrunePlan := (λ s, s ∪ list_to_set paths) <$> p.

(** Go: internal/sink/layout_export.go:52-68 [Union] *)
Definition plan_Union (p : PrunePlan) : list string :=
  match p with None => [] | Some s => sort_strings (elements s) end.

(** Go: internal/sink/git/export.go:61-81 [ExportFilesOptions] *)
Record ExportFilesOptions := mkExportFilesOptions {
  opt_Prune : bool;
  opt_PruneOwner : string;
  opt_PruneKeepPaths : list string;
  opt_SuppressPrune : bool;
  opt_PruneClaimPaths : list string;
}.

(** Go: internal/sink/layout_export.go:263-300 [gitExportOpts] *)
Definition gitExportOpts (prune : bool) (partIndex partTotal : Z) (projectedPaths : list string) (plan : PrunePlan) :
    ExportFilesOptions * PrunePlan :=
  let opts keep suppress := mkExportFilesOptions prune "" keep suppress [] in
  if negb prune || bool_decide (partTotal ≤ 1)%Z then (opts [] false, plan)
  else if decide (plan = None) then (opts [] true, plan)
  else
    let plan := plan_Add projectedPaths plan in
    if decide (partTotal ≤ partIndex)%Z then (opts (plan_Union plan) false, plan)
    else (opts [] true, plan).

Definition with_InventoryName (name : string) (r : ResolvedLayout) : ResolvedLayout :=
  mkResolvedLayout (rl_Mode r) (rl_Content r) (rl_Format r) (rl_Extension r) (rl_DocumentPathTemplate r)
    (rl_PathTemplate r) (rl_Cluster r) (rl_InventoryNamespace r) name (rl_Generation r) (rl_ManifestKey r)
    (rl_IndexEnabled r) (rl_IndexPathTemplate r) (rl_ExportedAt r) (rl_Prune r) (rl_Filename r).

Definition with_ExportedAt (s : string) (r : ResolvedLayout) : ResolvedLayout :=
  mkResolvedLayout (rl_Mode r) (rl_Content r) (rl_Format r) (rl_Extension r) (rl_DocumentPathTemplate r)
    (rl_PathTemplate r) (rl_Cluster r) (rl_InventoryNamespace r) (rl_InventoryName r) (rl_Generation r) (rl_ManifestKey r)
    (rl_IndexEnabled r) (rl_IndexPathTemplate r) s (rl_Prune r) (rl_Filename r).

(** Go: internal/sink/layout_export.go:255-261 [setManifestPath] *)
Definition setManifestPath (r : ResolvedLayout) (partIndex partTotal : Z) : string :=
  SetManifestPath (with_InventoryName (baseInventoryName (rl_InventoryName r) partIndex partTotal) r).

(** Go: internal/sink/layout_export.go:243-253 [setManifestClaim] *)
Definition setManifestClaim (r : ResolvedLayout) (partIndex partTotal : Z) (plan : PrunePlan) : list string :=
  if negb (rl_Prune r) || bool_decide (partTotal ≤ 1)%Z || bool_decide (partTotal ≤ partIndex)%Z ||
     bool_decide (plan = None)
  then []
  else [setManifestPath r partIndex partTotal].

(** Go: internal/sink/layout_export.go:221-241 [inventoryPruneOwner] *)
Definition inventoryPruneOwner (r : ResolvedLayout) (inventory : InventoryIdentity) : result export_error string :=
  if id_IsZero inventory then Err IdentityMissing
  else
    id_validate inventory;;
    let cluster := if decide (rl_Cluster r = "") then "default" else rl_Cluster r in
    lift_err OwnerFailed (InventoryPruneOwner (id_Kind inventory) cluster (id_Namespace inventory) (id_Name inventory)).

(** Go: internal/sink/layout_export.go:302-355 [appendSetManifest] *)
Definition appendSetManifest (r : ResolvedLayout) (gitFiles : list FileEntry) (opts : ExportFilesOptions)
    (partIndex partTotal : Z) (plan : PrunePlan) : result export_error (list FileEntry * ExportFilesOptions) :=
  if negb (rl_Prune r) || bool_decide (partTotal ≤ 1)%Z || bool_decide (partIndex < partTotal)%Z ||
     bool_decide (plan = None)
  then Ok (gitFiles, opts)
  else
    let setResolved := with_InventoryName (baseInventoryName (rl_InventoryName r) partIndex partTotal) r in
    let union := plan_Union plan in
    let manifestPath := setManifestPath r partIndex partTotal in
    if decide (manifestPath ∈ union) then Err (ManifestCollision manifestPath)
    else
      let data := MarshalSetManifest (BuildSetManifest setResolved (Z.to_nat partTotal) union) in
      Ok (gitFiles ++ [mkFileEntry manifestPath data],
          mkExportFilesOptions (opt_Prune opts) (opt_PruneOwner opts) (opt_PruneKeepPaths opts ++ [manifestPath])
            (opt_SuppressPrune opts) (opt_PruneClaimPaths opts)).

(** * Layout hints *)

Section hints.
Context `{!UnicodeCase}.

(** The attribute values that look like an object of the item's kind. *)
Definition manifest_like (item : Item) (v : value) : bool :=
  match v with
  | VMap obj =>
      let text k := match assoc_get k obj with Some (VString s) => s | _ => "" end in
      let kind := trim_space (text "kind") in
      negb (bool_decide (trim_space (text "apiVersion") = "" ∨ kind = "")) &&
      negb (bool_decide (trim_space (Kind item) ≠ "") && negb (equal_fold kind (trim_space (Kind item))))
  | _ => false
  end.

Fixpoint manifest_key (item : Item) (found : string) (attrs : list (string * value)) : string :=
  match attrs with
  | [] => found
  | (key, v) :: attrs =>
      if manifest_like item v then
        if decide (found ≠ "") then "" else manifest_key item key attrs
      else manifest_key item found attrs
  end.

(** Go: internal/sink/layout_export.go:380-402 [inferManifestKey] *)
Definition inferManifestKey (item : Item) : string := manifest_key item "" (default [] (Attributes item)).

Fixpoint common_key (manifestKey : string) (items : list Item) : bool * string :=
  match items with
  | [] => (true, manifestKey)
  | item :: items =>
      let key := inferManifestKey item in
      if decide (key = "") then (false, "")
      else if decide (manifestKey = "") then common_key key items
      else if decide (manifestKey ≠ key) then (false, "")
      else common_key manifestKey items
  end.

(** Go: internal/sink/layout_export.go:357-378 [inferResourceLayoutHints] *)
Definition inferResourceLayoutHints (items : list Item) : bool * string :=
  if decide (length items = 0) then (false, "") else common_key "" items.
End hints.

(** * Resolving an export *)

(** Go: internal/sink/layout_export.go:97-100 [isGitLayoutFamily] *)
Definition isGitLayoutFamily (sinkType : string) : bool :=
  bool_decide (sinkType = SinkTypeGit) || bool_decide (sinkType = SinkTypeGitLab).

(** What the export closure calls on the backend. *)
Inductive export_action :=
  | ExportDocument (payload objectPath : string)
  | ExportTree (files : list FileEntry) (opts : ExportFilesOptions).

(** Go: internal/sink/layout_export.go:76-86 [snapshotExport] *)
Record snapshotExport := mkSnapshotExport {
  se_objectPath : string;
  se_run : export_action;
  se_writtenPaths : list string;
}.

Section resolve.
Context `{!UnicodeCase, !Yaml, !SortFunc, !Sha256, !JsonDecode}.

(** The tree branch of [resolveSnapshotExport], from the projected files on. *)
Definition resolveTree (r : ResolvedLayout) (meta : EnvelopeMeta) (files : list File) (inventory : InventoryIdentity)
    (plan : PrunePlan) : result export_error snapshotExport * PrunePlan :=
  let gitFiles := (λ f, mkFileEntry (file_Path f) (file_Data f)) <$> files in
  let '(opts, plan) := gitExportOpts (rl_Prune r) (emeta_PartIndex meta) (emeta_PartTotal meta) (file_Path <$> files) plan in
  (owner ← inventoryPruneOwner r inventory;
   let claims := setManifestClaim r (emeta_PartIndex meta) (emeta_PartTotal meta) plan in
   let opts := mkExportFilesOptions (opt_Prune opts) owner (opt_PruneKeepPaths opts) (opt_SuppressPrune opts) claims in
   '(gitFiles, opts) ← appendSetManifest r gitFiles opts (emeta_PartIndex meta) (emeta_PartTotal meta) plan;
   Ok (mkSnapshotExport (DocumentPath r) (ExportTree gitFiles opts) (entry_Path <$> gitFiles)), plan).

(** [canTree] says whether the backend is a [FileExporter].
    Go: internal/sink/layout_export.go:102-219 [resolveSnapshotExport] *)
Definition resolveSnapshotExport (canTree : bool) (spec : KollectSinkSpec) (envelope invNS invName : string)
    (generation : Z) (defaultObjectPath : string) (inventory : InventoryIdentity) (plan : PrunePlan) :
    result export_error snapshotExport * PrunePlan :=
  let document payload path := Ok (mkSnapshotExport path (ExportDocument payload path) [path]) in
  if negb (isGitLayoutFamily (sink_Type spec)) then (document envelope defaultObjectPath, plan)
  else
    match ItemsFromExportPayload envelope with
    | Err e => (Err (EnvelopeFailed e), plan)
    | Ok items =>
        let '(resourceExportMode, manifestKey) := inferResourceLayoutHints items in
        let r := Resolve (mkResolveInput spec invNS invName generation resourceExportMode manifestKey) in
        if IsDocument r && bool_decide (rl_Format r = SerializationFormatJSON) then
          (document envelope (DocumentPath r), plan)
        else
          let meta := EnvelopeMetaFromPayload envelope in
          let r := if decide (emeta_ExportedAt meta ≠ zero_time) then with_ExportedAt (rfc3339 (emeta_ExportedAt meta)) r else r in
          match Project items r with
          | Err e => (Err (LayoutFailed e), plan)
          | Ok files =>
              if negb canTree then
                match files with
                | [f] => (document (file_Data f) (file_Path f), plan)
                | _ => (document envelope (DocumentPath r), plan)
                end
              else resolveTree r meta files inventory plan
          end
    end.

(** Go: internal/sink/layout_export.go:404-407 [exportsEmptyGitTree] *)
Definition exportsEmptyGitTree (canTree : bool) (spec : KollectSinkSpec) : bool :=
  canTree && isGitLayoutFamily (sink_Type spec) && bool_decide (is_Some (sink_Layout spec)) &&
  bool_decide (ModeOrDefault (sink_Layout spec) ≠ LayoutModeDocument).
End resolve.

(** Go: internal/sink/git/backend.go:80-90 [filesConfig] *)
Definition filesConfig (cfg : PruneConfig) (opts : ExportFilesOptions) : PruneConfig :=
  mkPruneConfig ((cfg_Prune cfg || opt_Prune opts) && negb (opt_SuppressPrune opts)) (opt_PruneOwner opts)
    (opt_PruneKeepPaths opts) (opt_PruneClaimPaths opts) (cfg_ReleaseOnly cfg).
