(* ===== verification/Conditions.v ===== *)
(** Status conditions, [src/internal/controller/conditions.go] and the setters of
    [sink_status.go], with what they rely on of [apimeta]: finding, setting and
    removing the condition of a type. The clock is an argument. *)

From S2P Require Import Prelude GoStrings Errors Coalesce.
Import Outcome.

(** [apimeta.FindStatusCondition] and [apimeta.RemoveStatusCondition]; setting is
    in [ConditionApi]. *)
Class ConditionLib := {
  FindStatusCondition : list Condition → string → option Condition;
  RemoveStatusCondition : list Condition → string → list Condition;
}.

(** Their documented behaviour: setting replaces or adds the condition of its
    type and keeps the others, removing drops it and keeps the others. *)
Class ConditionLaws `{!ConditionApi, !ConditionLib} := {
  find_set cs c : ∃ c', FindStatusCondition (SetStatusCondition cs c) (cond_Type c) = Some c' ∧
    cond_Type c' = cond_Type c ∧ cond_Status c' = cond_Status c ∧ cond_Reason c' = cond_Reason c ∧
    cond_Message c' = cond_Message c ∧ cond_ObservedGeneration c' = cond_ObservedGeneration c;
  find_set_other cs c t : t ≠ cond_Type c → FindStatusCondition (SetStatusCondition cs c) t = FindStatusCondition cs t;
  find_remove cs t : FindStatusCondition (RemoveStatusCondition cs t) t = None;
  find_remove_other cs t t' : t' ≠ t → FindStatusCondition (RemoveStatusCondition cs t) t' = FindStatusCondition cs t';
}.

Definition conditionReady : string := "Ready".
Definition conditionDegraded : string := "Degraded".
Definition conditionSinkReachable : string := "SinkReachable".
Definition conditionSynced : string := "Synced".

Definition ConditionTrue : string := "True".
Definition ConditionFalse : string := "False".

Definition reasonSinkNotFound : string := "SinkNotFound".
Definition reasonSinkUnreachable : string := "SinkUnreachable".
Definition reasonSinksReachable : string := "SinksReachable".
Definition reasonSinkForbidden : string := "SinkForbidden".
Definition reasonExportFailed : string := "ExportFailed".
Definition ReasonExportTerminal : string := "ExportTerminal".
Definition reasonScopeForbidden : string := "ScopeForbidden".
Definition reasonExtractionFailed : string := "ExtractionFailed".
Definition reasonCollecting : string := "Collecting".

Section conditions.
Context `{!ConditionApi, !ConditionLib}.

(** Whether the status has to be written, and the conditions to write.
    Go: internal/controller/conditions.go:75-127 [setTargetCondition] *)
Definition setTargetCondition (now : Z) (generation : Z) (conditions : list Condition) (conditionType reason message : string) :
    bool * list Condition :=
  let message := redact_Text message in
  let next last := SetStatusCondition conditions (mkCondition conditionType ConditionTrue reason message generation last) in
  match FindStatusCondition conditions conditionType with
  | Some existing =>
      if decide (cond_Status existing = ConditionTrue ∧ cond_Reason existing = reason ∧ cond_Message existing = message) then
        if decide (cond_ObservedGeneration existing = generation) then (false, conditions)
        else (true, next (cond_LastTransitionTime existing))
      else (true, next now)
  | None => (true, next now)
  end.

(** Go: internal/controller/sink_status.go:157-171 [setSinkReachableCondition] *)
Definition setSinkReachableCondition (now : Z) (conditions : list Condition) (generation : Z) (ok : bool) (reason message : string) :
    list Condition :=
  SetStatusCondition conditions
    (mkCondition conditionSinkReachable (if ok then ConditionTrue else ConditionFalse) reason (redact_Text message) generation now).

(** Go: internal/controller/sink_status.go:142-155 [setSinkReachableFromExport] *)
Definition setSinkReachableFromExport `{!ApiErrors} (now : Z) (conditions : list Condition) (generation : Z) (exportErr : option err) :
    list Condition :=
  match exportErr with
  | None => setSinkReachableCondition now conditions generation true "ExportSucceeded" "last export completed successfully"
  | Some e =>
      setSinkReachableCondition now conditions generation false
        (if IsTerminal (Some e) then ReasonExportTerminal else reasonExportFailed) (error_text e)
  end.
End conditions.

(** * Lemmas *)
Section laws.
Context `{!ConditionApi, !ConditionLib, !ConditionLaws}.

Lemma find_reachable_other now cs generation ok reason message t :
  t ≠ conditionSinkReachable →
  FindStatusCondition (setSinkReachableCondition now cs generation ok reason message) t = FindStatusCondition cs t.
Proof. intros Ht. unfold setSinkReachableCondition. by apply find_set_other. Qed.

Lemma find_synced_other now cs generation ok reason message t :
  t ≠ conditionSynced →
  FindStatusCondition (setSyncedCondition generation ok reason message now cs) t = FindStatusCondition cs t.
Proof. intros Ht. unfold setSyncedCondition. by apply find_set_other. Qed.

(** After [setTargetCondition] the condition of the type is true, with the reason
    and the message given, at the generation given. *)
Lemma setTargetCondition_find now generation cs t reason message :
  ∃ c, FindStatusCondition (setTargetCondition now generation cs t reason message).2 t = Some c ∧
    cond_Status c = ConditionTrue ∧ cond_Reason c = reason ∧ cond_Message c = redact_Text message ∧
    cond_ObservedGeneration c = generation.
Proof.
  unfold setTargetCondition. destruct (FindStatusCondition cs t) as [c|] eqn:Hf.
  - destruct (decide (cond_Status c = ConditionTrue ∧ cond_Reason c = reason ∧ cond_Message c = redact_Text message)) as [(?&?&?)|].
    + destruct (decide (cond_ObservedGeneration c = generation)); cbn [snd].
      * exists c. done.
      * destruct (find_set cs (mkCondition t ConditionTrue reason (redact_Text message) generation (cond_LastTransitionTime c)))
          as (c' & Hc & ? & ? & ? & ? & ?). by exists c'.
    + destruct (find_set cs (mkCondition t ConditionTrue reason (redact_Text message) generation now))
        as (c' & Hc & ? & ? & ? & ? & ?). by exists c'.
  - destruct (find_set cs (mkCondition t ConditionTrue reason (redact_Text message) generation now))
      as (c' & Hc & ? & ? & ? & ? & ?). by exists c'.
Qed.

Lemma setTargetCondition_other now generation cs t reason message t' :
  t' ≠ t → FindStatusCondition (setTargetCondition now generation cs t reason message).2 t' = FindStatusCondition cs t'.
Proof.
  intros Ht. unfold setTargetCondition. destruct (FindStatusCondition cs t); [|by apply find_set_other].
  repeat case_decide; cbn [snd]; by apply find_set_other || done.
Qed.

(** A condition that is not there is written. *)
Lemma setTargetCondition_absent now generation cs t reason message :
  FindStatusCondition cs t = None → (setTargetCondition now generation cs t reason message).1 = true.
Proof. unfold setTargetCondition. by intros ->. Qed.
End laws.

(** * A list of conditions *)

(** The behaviour the laws describe, on lists: for evaluating the model. *)
Module ListConditions.

Definition find (cs : list Condition) (t : string) : option Condition := snd <$> list_find (λ c, cond_Type c = t) cs.
Definition remove (cs : list Condition) (t : string) : list Condition := filter (λ c, cond_Type c ≠ t) cs.

#[export] Instance list_lib : ConditionLib := {| FindStatusCondition := find; RemoveStatusCondition := remove |}.
#[export] Instance list_api : ConditionApi :=
  {| SetStatusCondition cs c := remove cs (cond_Type c) ++ [c]; redact_Text t := t; ErrSpillRequired := 5 |}.

Lemma find_cons c cs t : find (c :: cs) t = if decide (cond_Type c = t) then Some c else find cs t.
Proof. unfold find. cbn. destruct (decide (cond_Type c = t)); [done|]. by destruct (list_find _ cs) as [[]|]. Qed.

Lemma find_filter cs t t' : find (remove cs t) t' = if decide (t' = t) then None else find cs t'.
Proof.
  unfold remove. induction cs as [|c cs IH]; [by case_decide|]. rewrite filter_cons, find_cons.
  destruct (decide (cond_Type c ≠ t)) as [Hc|Hc%dec_stable].
  - rewrite find_cons, IH. destruct (decide (cond_Type c = t')) as [<-|]; [by rewrite decide_False|done].
  - rewrite IH. destruct (decide (t' = t)) as [->|Hne]; [done|]. by rewrite (decide_False (P := cond_Type c = t')) by congruence.
Qed.

Lemma find_snoc cs c t : find (cs ++ [c]) t = match find cs t with Some c' => Some c' | None => if decide (cond_Type c = t) then Some c else None end.
Proof.
  induction cs as [|c' cs IH]; cbn [app]; rewrite find_cons; [done|]. destruct (decide (cond_Type c' = t)) eqn:Hd.
  - by rewrite find_cons, Hd.
  - by rewrite find_cons, Hd.
Qed.

#[export] Instance list_laws : ConditionLaws.
Proof.
  split; unfold FindStatusCondition, SetStatusCondition, RemoveStatusCondition, list_lib, list_api.
  - intros cs c. exists c. rewrite find_snoc, find_filter, !decide_True by done. done.
  - intros cs c t Ht. rewrite find_snoc, find_filter, !decide_False by done. by destruct (find cs t).
  - intros cs t. by rewrite find_filter, decide_True.
  - intros cs t t' Ht. by rewrite find_filter, decide_False.
Qed.
End ListConditions.
