(* ===== verification/PassRecord.v ===== *)
(** What an export pass leaves behind, sink by sink: the baselines of the debounce
    tracker against the status entries, the condition Synced of every entry, and
    when the pass asks to be run again. These are the facts of [ExportPass] both
    inventory reconcilers rely on when they write the status of a pass. *)

From S2P Require Import Prelude GoStrings Values Store Api Filter Errors Json Envelope Partition Intervals Coalesce ExportPass Conditions.
Import Tracker Outcome.

Section record.
Context `{!SortFunc, !Sha256, !JsonDecode, !ConditionApi, !ApiErrors, !ConditionLib, !ConditionLaws}.
Variable env : pass_env.

(** The status entry of [k] shows the export the baseline stands for. *)
Definition shown (exports : list InventorySinkExportStatus) (k : string) (s : sinkCoalesceState) : Prop :=
  ∃ st, find_status k exports = Some st ∧ st_LastChecksum st = lastChecksum s ∧ is_Some (st_LastExportTime st).

Definition entry_synced (failed : list string) (k : string) (st : InventorySinkExportStatus) : Prop :=
  ∃ c, FindStatusCondition (st_Conditions st) conditionSynced = Some c ∧
       cond_Status c = if decide (k ∈ failed) then ConditionFalse else ConditionTrue.

(** A baseline is new and shown, or was there before the pass; the entries of the
    sinks that are not pending are Synced unless the sink failed; the pass asks
    to be run again as soon as one sink was exported or debounced. *)
Record pass_trace (t0 : tracker) (pend : list string) (o : perSinkExportOutcome) (t : tracker) : Prop := {
  pt_baseline : ∀ k s, t !! key (pe_invKey env) k = Some s →
    (k ∈ exportedSinks o ∧ shown (SinkExports o) k s ∧ lastGeneration s = pe_generation env ∧
       inventoryUID (identity s) = pe_invUID env) ∨
    (k ∉ exportedSinks o ∧ ∃ s0, t0 !! key (pe_invKey env) k = Some s0 ∧ state_inputs s0 = state_inputs s);
  pt_synced : ∀ k st, find_status k (SinkExports o) = Some st → k ∉ pend → entry_synced (failedSinks o) k st;
  pt_tracker : exportedSinks o ≠ [] → trackerKey o = pe_invKey env;
  pt_requeue : (0 ≤ RequeueAfter o)%Z ∧ ((0 < RequeueAfter o)%Z ∨ ExportedCount o = 0 ∧ DebouncedCount o = 0);
}.

Lemma trace_empty t : (0 ≤ pe_defaultInterval env)%Z → pass_trace t [] (empty_outcome (pe_defaultInterval env)) t.
Proof.
  intros Hd. split; [|done|done|by split; [|right]]. intros k s Hs. right. split; [apply not_elem_of_nil|]. eauto.
Qed.

Lemma find_status_elem k l st : find_status k l = Some st → k ∈ (st_Name <$> l).
Proof.
  intros Hf. destruct (decide (k ∈ (st_Name <$> l))) as [|Hn]; [done|]. apply find_status_None in Hn. congruence.
Qed.

Lemma shown_other E E' k' s : find_status k' E' = find_status k' E → shown E k' s → shown E' k' s.
Proof. intros He (st & Hf & ?). exists st. by rewrite He. Qed.

(** ** The steps of a pass *)

Lemma trace_seed t0 pend o t k E' :
  pass_trace t0 pend o t → k ∉ (st_Name <$> SinkExports o) → seeded env k (SinkExports o) E' →
  pass_trace t0 (pend ++ [k]) (set_exports (λ _, E') o) t.
Proof.
  intros [Hb Hs Ht Hr] Hk [_ Ho _]. split; cbn [SinkExports exportedSinks failedSinks trackerKey set_exports]; [| |done|done].
  - intros k' s Hk'. destruct (Hb k' s Hk') as [(Hx & Hsh & Hg)|?]; [|by right]. left. split; [done|]. split; [|done].
    eapply shown_other; [|done]. apply Ho. intros ->. destruct Hsh as (st & Hf & _). by apply find_status_elem in Hf.
  - intros k' st Hf Hn. apply not_elem_of_app in Hn as [Hn Hne]. rewrite not_elem_of_cons in Hne.
    rewrite Ho in Hf by naive_solver. by apply Hs.
Qed.

(** An entry after its condition was set. *)
Lemma entry_set failed k gen ok reason msg now st :
  (if decide (k ∈ failed) then ConditionFalse else ConditionTrue) = (if ok : bool then "True" else "False") →
  entry_synced failed k (setSinkExportSynced gen ok reason msg now st).
Proof.
  intros Hok. unfold entry_synced, setSinkExportSynced. cbn [st_Conditions].
  destruct (find_set (st_Conditions st) (mkCondition conditionSinkSynced (if ok then "True" else "False") reason (redact_Text msg) gen now))
    as (c & Hf & _ & Hc & _). cbn [cond_Type cond_Status] in Hf, Hc. exists c. split; [exact Hf|]. by rewrite Hc, Hok.
Qed.

Lemma trace_fail t0 pend pend' o t k e now :
  pass_trace t0 pend o t → (∀ k', k' ∈ pend → k' = k ∨ k' ∈ pend') → k ∉ exportedSinks o →
  let ot := failSinkExport (pe_invKey env) k (pe_generation env) e now (o, t) in pass_trace t0 pend' ot.1 ot.2.
Proof.
  intros [Hb Hs Ht Hr] Hp Hx. cbv zeta. unfold failSinkExport. cbn [fst snd].
  split; cbn [SinkExports exportedSinks failedSinks trackerKey RequeueAfter ExportedCount DebouncedCount addSinkFailure set_exports]; [| |done|done].
  - intros k' s Hk'. assert (k' ≠ k) as Hne by (intros ->; by rewrite forget_lookup_self in Hk').
    rewrite forget_lookup_other in Hk' by done. destruct (Hb k' s Hk') as [(? & Hsh & ?)|?]; [left|by right].
    split; [done|]. split; [|done]. eapply shown_other; [|done]. by rewrite find_status_alter_ne.
  - intros k' st Hf Hn. destruct (decide (k' = k)) as [->|Hne].
    + rewrite find_status_alter in Hf by done. destruct (find_status k (SinkExports o)); [|done]. injection Hf as <-.
      apply entry_set. rewrite decide_True; [done|]. apply elem_of_app. right. by left.
    + rewrite find_status_alter_ne in Hf by done. destruct (Hs k' st Hf) as (c & Hc & Hst).
      { intros Hin. by destruct (Hp k' Hin). }
      exists c. split; [done|]. rewrite Hst. apply decide_ext. rewrite elem_of_app, list_elem_of_singleton. naive_solver.
Qed.

Lemma merge_positive current next : (0 ≤ current)%Z → (0 < next)%Z → (0 < mergeRequeueAfter current next)%Z.
Proof. unfold mergeRequeueAfter. case_decide; lia. Qed.

Lemma nextDue_positive inv k interval now t : (0 < nextDue inv k interval now t)%Z.
Proof.
  unfold nextDue. assert (0 < second)%Z by done. assert (0 < ZeroIntervalWatchdog)%Z by done. case_decide; [lia|]. destruct (t !! key inv k) as [s|]; [|lia].
  destruct (is_zero_time (lastExport s)); [lia|]. cbv zeta. case_decide; lia.
Qed.

(** The outcome with one sink more that is debounced. *)
Definition debounced_outcome (o : perSinkExportOutcome) : perSinkExportOutcome :=
  mkOutcome (ExportedCount o) (S (DebouncedCount o)) (FailedCount o) (FailedSink o) (ExportErr o)
    (SinkExports o) (RequeueAfter o) (failedSinks o) (exportErrs o) (trackerKey o) (exportedSinks o).

Lemma trace_skip t0 pend pend' o t k i interval now time due :
  pass_trace t0 pend o t → (∀ k', k' ∈ pend → k' = k ∨ k' ∈ pend') → k ∉ exportedSinks o → k ∉ failedSinks o → (0 < due)%Z →
  pass_trace t0 pend'
    (set_requeue (mergeRequeueAfter (RequeueAfter o) due)
      (set_exports (alter_status k (setSinkExportDebounced (pe_generation env) interval time)) (debounced_outcome o)))
    (shouldSkip (pe_invKey env) k i interval now t).2.
Proof.
  intros [Hb Hs Ht Hr] Hp Hx Hnf Hdue.
  split; cbn [SinkExports exportedSinks failedSinks trackerKey RequeueAfter ExportedCount DebouncedCount set_requeue set_exports debounced_outcome].
  - intros k' s Hk'. destruct (decide (k' = k)) as [->|Hne].
    + right. split; [done|].
      destruct (DebounceSpec.shouldSkip_effect (pe_invKey env) k i interval now t) as [He|(s1 & s2 & Hs1 & Hi & _ & He)]; rewrite He in Hk'.
      * destruct (Hb k s Hk') as [[? _]|[_ ?]]; [done|done].
      * rewrite lookup_insert_eq in Hk'. injection Hk' as <-. destruct (Hb k s1 Hs1) as [[? _]|[_ (s0 & ? & ?)]]; [done|].
        exists s0. split; [done|]. congruence.
    + rewrite skip_lookup_other in Hk' by done. destruct (Hb k' s Hk') as [(? & Hsh & ?)|?]; [left|by right].
      split; [done|]. split; [|done]. eapply shown_other; [|done]. by rewrite find_status_alter_ne.
  - intros k' st Hf Hn. destruct (decide (k' = k)) as [->|Hne].
    + rewrite find_status_alter in Hf by done. destruct (find_status k (SinkExports o)); [|done]. injection Hf as <-.
      unfold setSinkExportDebounced. apply entry_set. by rewrite decide_False.
    + rewrite find_status_alter_ne in Hf by done. apply (Hs k' st Hf). intros Hin. by destruct (Hp k' Hin).
  - done.
  - destruct Hr as [Hr0 _]. pose proof (merge_positive (RequeueAfter o) due Hr0 Hdue). split; [lia|by left].
Qed.

Lemma trace_export t0 pend pend' o t j paths :
  pass_trace t0 pend o t → (∀ k', k' ∈ pend → k' = job_exportKey j ∨ k' ∈ pend') →
  is_Some (find_status (job_exportKey j) (SinkExports o)) → job_exportKey j ∉ failedSinks o →
  inventoryUID (job_identity j) = pe_invUID env →
  write_parts env (job_index j) 0 (job_parts j) = Ok paths →
  let ot := finish_job env j (o, t) in pass_trace t0 pend' ot.1 ot.2.
Proof.
  intros [Hb Hs Ht Hr] Hp [st0 Hst0] Hnf Hid Hw. cbv zeta. unfold finish_job. rewrite Hw. cbn [fst snd].
  set (k := job_exportKey j) in *. set (f := λ s, setSinkExportSynced _ _ _ _ _ _).
  assert (∀ s, st_Name (f s) = st_Name s) as Hname by done.
  split; cbn [SinkExports exportedSinks failedSinks trackerKey RequeueAfter ExportedCount DebouncedCount set_requeue set_exports markExported].
  - intros k' s Hk'. destruct (decide (k' = k)) as [->|Hne].
    + left. split; [apply elem_of_app; right; by left|].
      destruct (record_lookup_self (pe_invKey env) k (job_inputs env j) (pe_now env) t) as (s' & Hs' & _ & Hi).
      rewrite Hk' in Hs'. injection Hs' as ->. unfold state_inputs, job_inputs in Hi. injection Hi as Hi1 Hi2 Hi3 _.
      split; [|split; [done|by rewrite Hi1]]. exists (f st0). rewrite find_status_alter, Hst0 by done. cbn.
      split_and!; [done|done|eauto].
    + apply record_lookup_other in Hk'; [|done]. destruct (Hb k' s Hk') as [(? & Hsh & ?)|[Hnx ?]].
      * left. split; [apply elem_of_app; by left|]. split; [|done]. eapply shown_other; [|done]. by rewrite find_status_alter_ne.
      * right. split; [|done]. rewrite elem_of_app, list_elem_of_singleton. naive_solver.
  - intros k' st Hf Hn. destruct (decide (k' = k)) as [->|Hne].
    + rewrite find_status_alter, Hst0 in Hf by done. injection Hf as <-. apply entry_set. by rewrite decide_False.
    + rewrite find_status_alter_ne in Hf by done. apply (Hs k' st Hf). intros Hin. by destruct (Hp k' Hin).
  - done.
  - destruct Hr as [Hr0 _].
    pose proof (merge_positive (RequeueAfter o) _ Hr0 (RequeueAfterForZeroInterval_pos (job_interval j))). split; [lia|by left].
Qed.

(** ** The two loops *)

Definition job_ok (j : sinkJob) : Prop := inventoryUID (job_identity j) = pe_invUID env.

Lemma prepare_trace t0 seen deb pend n b ns o t :
  pass_inv env seen deb pend o t → sinkExportKey b ∉ seen → pass_trace t0 pend o t →
  let r := prepare_binding env n b ns (o, t) in
  pass_trace t0 (pend ++ match r.2 with Some j => [job_exportKey j] | None => [] end) r.1.1 r.1.2 ∧
  (∀ j, r.2 = Some j → job_ok j ∧ job_exportKey j = sinkExportKey b).
Proof.
  intros Hi Hk Htr. cbv zeta. unfold prepare_binding. set (k := sinkExportKey b) in *.
  assert (k ∉ exportedSinks o ∧ k ∉ failedSinks o) as [Hnx Hnf].
  { split; intros Hin; apply Hk; rewrite <- (pi_perm _ _ _ _ _ _ Hi), !elem_of_app; tauto. }
  pose proof (seeded_fresh env k (SinkExports o)) as Hse. rewrite (pi_names _ _ _ _ _ _ Hi) in Hse. specialize (Hse Hk).
  set (E0 := alter_status k _ _) in Hse.
  set (o1 := match ns with Some _ => _ | None => _ end).
  assert (∃ E', o1 = set_exports (λ _, E') o ∧ seeded env k (SinkExports o) E') as (E' & -> & Hse').
  { destruct ns as [ns|]; [|by exists E0]. eexists. split; [reflexivity|]. apply seeded_alter; [by intros s|exact Hse]. }
  clear E0 Hse. apply (trace_seed _ _ _ _ k E') in Htr; [|by rewrite (pi_names _ _ _ _ _ _ Hi)|done].
  assert (∀ k', k' ∈ pend ++ [k] → k' = k ∨ k' ∈ pend) as Hp by (intros k'; rewrite elem_of_app, list_elem_of_singleton; tauto).
  destruct (pe_resolve env n) as [resolved|e].
  2: { cbn [snd]. rewrite List.app_nil_r. split; [|done]. by eapply trace_fail. }
  destruct (PartitionEnvelopes _ _ _ _) as [parts|e].
  2: { cbn [snd]. rewrite List.app_nil_r. split; [|done]. by eapply trace_fail. }
  set (j := mkJob _ _ _ _ _ _).
  set (skip := shouldSkip _ _ _ _ _ t). destruct skip as [[] t'] eqn:Hskip; unfold skip in Hskip; cbn [fst snd].
  - rewrite List.app_nil_r. split; [|done].
    match type of Hskip with ?x = _ => assert (t' = x.2) as -> by (by rewrite Hskip) end.
    apply (trace_skip _ _ _ _ _ _ _ _ _ _ _ Htr); [done|done|done|]. apply nextDue_positive.
  - assert (t' = t) as -> by (by eapply shouldSkip_false). split; [exact Htr|]. by intros j' [= <-].
Qed.

Lemma finish_trace t0 seen deb pend pend' j o t :
  pass_inv env seen deb pend o t → NoDup seen → pend ≡ₚ job_exportKey j :: pend' → job_ok j → pass_trace t0 pend o t →
  let ot := finish_job env j (o, t) in pass_trace t0 pend' ot.1 ot.2.
Proof.
  intros Hi Hnd Hpe Hj Htr. destruct (elem_of_pending _ _ _ _ _ _ _ _ Hi Hnd Hpe) as (Hd & Hnf & Hnx).
  assert (∀ k', k' ∈ pend → k' = job_exportKey j ∨ k' ∈ pend') as Hp.
  { intros k' Hin. rewrite Hpe in Hin. by apply elem_of_cons in Hin. }
  cbv zeta. destruct (write_parts env (job_index j) 0 (job_parts j)) as [paths|e] eqn:Hw.
  - eapply trace_export; [done..| |done|done|done].
    rewrite <- (pi_names _ _ _ _ _ _ Hi) in Hd. destruct (find_status _ _) eqn:Hf; [eauto|]. by apply find_status_None in Hf.
  - unfold finish_job. rewrite Hw. by eapply trace_fail.
Qed.

Lemma prepare_all_trace t0 (l : list (nat * InventorySinkBinding)) seen deb jobs o t :
  pass_inv env seen deb (job_exportKey <$> jobs) o t → NoDup (seen ++ (sinkExportKey ∘ snd <$> l)) →
  pass_trace t0 (job_exportKey <$> jobs) o t → Forall job_ok jobs →
  let r := foldl (λ acc nb, let '(ot, job) := prepare_binding env nb.1 nb.2 None acc.1 in
    (ot, acc.2 ++ match job with None => [] | Some j => [j] end)) ((o, t), jobs) l in
  pass_trace t0 (job_exportKey <$> r.2) r.1.1 r.1.2 ∧ Forall job_ok r.2.
Proof.
  revert seen deb jobs o t. induction l as [|[n b] l IH]; intros seen deb jobs o t Hi Hnd Htr Hj; cbn [foldl]; [done|].
  cbn [fst snd]. rewrite fmap_cons in *. change ((sinkExportKey ∘ snd) (n, b)) with (sinkExportKey b) in *.
  assert (sinkExportKey b ∉ seen) as Hb.
  { intros Hin. apply NoDup_app in Hnd as (_ & Hn & _). apply (Hn _ Hin). by left. }
  destruct (prepare_inv env _ _ _ n b None o t Hi Hb) as [deb1 Hi1].
  destruct (prepare_trace t0 _ _ _ n b None o t Hi Hb Htr) as [Htr1 Hjob].
  destruct (prepare_binding env n b None (o, t)) as [[o1 t1] job]. cbn [fst snd] in Hi1, Htr1, Hjob.
  rewrite (cons_middle (sinkExportKey b)), List.app_assoc in Hnd.
  apply (IH (seen ++ [sinkExportKey b]) deb1 _ o1 t1); [|done| |].
  - rewrite fmap_app. destruct job; exact Hi1.
  - rewrite fmap_app. destruct job; exact Htr1.
  - apply Forall_app. split; [done|]. destruct job as [j|]; [|done]. constructor; [|done]. by apply Hjob.
Qed.

Lemma finish_all_trace t0 seen deb jobs o t :
  NoDup seen → pass_inv env seen deb (job_exportKey <$> jobs) o t → Forall job_ok jobs →
  pass_trace t0 (job_exportKey <$> jobs) o t →
  let r := foldl (λ ot j, finish_job env j ot) (o, t) jobs in pass_trace t0 [] r.1 r.2.
Proof.
  intros Hnd. revert o t. induction jobs as [|j jobs IH]; intros o t Hi Hj Htr; cbn [foldl]; [done|].
  apply Forall_cons in Hj as [Hj Hjs].
  pose proof (finish_inv env _ _ _ _ j o t Hi Hnd (reflexivity _)) as Hi1.
  pose proof (finish_trace t0 _ _ _ _ j o t Hi Hnd (reflexivity _) Hj Htr) as Htr1.
  destruct (finish_job env j (o, t)) as [o1 t1]. by apply IH.
Qed.

Lemma cluster_trace t0 (l : list (nat * InventorySinkBinding)) sinkNS seen deb o t :
  pass_inv env seen deb [] o t → NoDup (seen ++ (sinkExportKey ∘ snd <$> l)) → pass_trace t0 [] o t →
  let r := foldl (λ ot nb,
    let '(ot, job) := prepare_binding env nb.1 nb.2 (Some (sinkBindingNamespace nb.2 sinkNS)) ot in
    match job with None => ot | Some j => finish_job env j ot end) (o, t) l in
  pass_trace t0 [] r.1 r.2.
Proof.
  revert seen deb o t. induction l as [|[n b] l IH]; intros seen deb o t Hi Hnd Htr; cbn [foldl]; [done|].
  cbn [fst snd]. rewrite fmap_cons in *. change ((sinkExportKey ∘ snd) (n, b)) with (sinkExportKey b) in *.
  assert (sinkExportKey b ∉ seen) as Hb.
  { intros Hin. apply NoDup_app in Hnd as (_ & Hn & _). apply (Hn _ Hin). by left. }
  destruct (prepare_inv env _ _ _ n b (Some (sinkBindingNamespace b sinkNS)) o t Hi Hb) as [deb1 Hi1].
  destruct (prepare_trace t0 _ _ _ n b (Some (sinkBindingNamespace b sinkNS)) o t Hi Hb Htr) as [Htr1 Hjob].
  destruct (prepare_binding env n b _ (o, t)) as [[o1 t1] job]. cbn [fst snd] in Hi1, Htr1, Hjob.
  rewrite (cons_middle (sinkExportKey b)), List.app_assoc in Hnd.
  destruct job as [j|]; [|by apply (IH (seen ++ [sinkExportKey b]) deb1 o1 t1)].
  assert (NoDup (seen ++ [sinkExportKey b])) as Hnd1 by (by apply NoDup_app in Hnd as [? _]).
  pose proof (finish_inv env _ _ _ [] j o1 t1 Hi1 Hnd1 (reflexivity _)) as Hi2.
  pose proof (finish_trace t0 _ _ _ [] j o1 t1 Hi1 Hnd1 (reflexivity _) (proj1 (Hjob j eq_refl)) Htr1) as Htr2.
  destruct (finish_job env j (o1, t1)) as [o2 t2]. by apply (IH (seen ++ [sinkExportKey b]) deb1 o2 t2).
Qed.

(** The record of a whole pass, with the account of [ExportPass]. *)
Lemma namespaced_pass schedule bindings t :
  NoDup (sinkExportKey <$> bindings) → (∀ jobs, schedule jobs ≡ₚ jobs) → (0 ≤ pe_defaultInterval env)%Z →
  let r := exportToSinks env schedule bindings t in
  pass_report env (sinkExportKey <$> bindings) r ∧ pass_trace t [] r.1 r.2.
Proof.
  intros Hnd Hsched Hd. cbv zeta. unfold exportToSinks, prepare_all.
  destruct (prepare_all_inv env (imap pair bindings) [] [] [] _ t (pass_inv_empty env t)) as [deb Hi];
    [by rewrite imap_pair_keys|].
  destruct (prepare_all_trace t (imap pair bindings) [] [] [] _ t (pass_inv_empty env t)) as [Htr Hj];
    [by rewrite imap_pair_keys|by apply trace_empty|done|].
  rewrite imap_pair_keys in Hi.
  destruct (foldl _ _ (imap pair bindings)) as [[o1 t1] jobs]. cbn [fst snd app] in *.
  apply (pass_inv_perm _ _ _ _ (job_exportKey <$> schedule jobs)) in Hi; [|by rewrite Hsched].
  rewrite <- (Hsched jobs) in Hj.
  assert (pass_trace t (job_exportKey <$> schedule jobs) o1 t1) as Htr'.
  { destruct Htr as [Hb Hs Ht Hr]. split; try done. intros k st Hf Hn. apply (Hs k st Hf). by rewrite <- (Hsched jobs). }
  pose proof (finish_all_trace t _ _ _ _ _ Hnd Hi Hj Htr') as Htr2. apply finish_all_inv in Hi; [|done].
  destruct (foldl _ _ (schedule jobs)) as [o2 t2]. split; [by eapply pass_inv_report|done].
Qed.

Lemma cluster_pass bindings sinkNS t :
  NoDup (sinkExportKey <$> bindings) → (0 ≤ pe_defaultInterval env)%Z →
  let r := exportClusterToSinks env bindings sinkNS t in
  pass_report env (sinkExportKey <$> bindings) r ∧ pass_trace t [] r.1 r.2.
Proof.
  intros Hnd Hd. cbv zeta. unfold exportClusterToSinks.
  destruct (cluster_inv env (imap pair bindings) sinkNS [] [] _ t (pass_inv_empty env t)) as [deb Hi]; [by rewrite imap_pair_keys|].
  pose proof (cluster_trace t (imap pair bindings) sinkNS [] [] _ t (pass_inv_empty env t)) as Htr.
  rewrite imap_pair_keys in *. specialize (Htr Hnd (trace_empty t Hd)).
  destruct (foldl _ _ (imap pair bindings)) as [o1 t1]. split; [by eapply pass_inv_report|done].
Qed.
End record.
