(* ===== verification/Secrets.v ===== *)
(** Which Secrets a sink reads: [src/internal/sink/secret_refs.go],
    [build_context.go], [credentials.go], [ca_source.go], [gitauth.go], and the
    admission rule on cross-namespace references of
    [src/internal/validation/secret_ref_namespace.go].

    Reading a Secret through the API server is an argument. A byte string is a
    [string]; the data of a Secret is a [gmap]. *)

From S2P Require Import Prelude GoStrings GoPath Values Store Json Envelope Partition Errors GoTemplate SinkSpec ObjectPath GitErrors.

(** * References *)

(** Go: api/v1alpha1/kollectsink_types.go:361-370 [SecretReference] *)
Record SecretReference := mkSecretReference {
  sr_Name : string;
  sr_Namespace : string;
}.

(** Go: internal/sink/secret_refs.go:28-32 [secretUse] *)
Record secretUse := mkSecretUse {
  use_Namespace : string;
  use_Name : string;
}.

#[export] Instance secretUse_eq_dec : EqDecision secretUse.
Proof. solve_decision. Defined.

#[export] Instance secretUse_countable : Countable secretUse.
Proof. apply (inj_countable' (λ u, (use_Namespace u, use_Name u)) (λ p, mkSecretUse p.1 p.2)). by intros []. Defined.

(** Go: internal/sink/secret_refs.go:34-41 [secretVersion] *)
Record secretVersion := mkSecretVersion {
  sv_Namespace : string;
  sv_Name : string;
  sv_UID : string;
  sv_ResourceVersion : string;
}.

#[export] Instance secretVersion_eq_dec : EqDecision secretVersion.
Proof. solve_decision. Defined.

(** The fields of the block that name a CA.
    Go: api/v1alpha1/kollectsink_types.go:327-359 [TLSSpec] *)
Record TLSSpec := mkTLSSpec {
  tls_CABundle : string;
  tls_CASecretRef : option SecretReference;
}.

(** The fields of [KollectSinkSpec] that name Secrets. An optional block is an
    [option] of the reference it holds; [git.auth] holds its type too.
    Go: api/v1alpha1/kollectsink_types.go:22-116 [KollectSinkSpec] *)
Record SinkSecrets := mkSinkSecrets {
  ss_Type : string;
  ss_SecretRef : option SecretReference;
  ss_TLS : option TLSSpec;
  ss_GitAuth : option (string * option SecretReference);
  ss_Postgres : option (option SecretReference);
  ss_MongoDB : option (option SecretReference);
  ss_BigQuery : option (option SecretReference);
  ss_Nats : option (option SecretReference);
  ss_Kafka : option (option SecretReference);
}.

Definition DefaultSecretNamespace : string := "kollect-system".

(** [if defaultNamespace == "" { defaultNamespace = DefaultSecretNamespace }]. *)
Definition effective_default (defaultNamespace : string) : string :=
  if decide (defaultNamespace = "") then DefaultSecretNamespace else defaultNamespace.

(** Go: internal/sink/secret_refs.go:102-108 [secretRefNamespace] *)
Definition secretRefNamespace (ref : SecretReference) (defaultNamespace : string) : string :=
  if decide (sr_Namespace ref ≠ "") then sr_Namespace ref else defaultNamespace.

Definition use_of (defaultNamespace : string) (ref : SecretReference) : secretUse :=
  mkSecretUse (secretRefNamespace ref defaultNamespace) (sr_Name ref).

(** Go: internal/sink/secret_refs.go:110-120 [kafkaSecretRef] *)
Definition kafkaSecretRef (spec : SinkSecrets) : option SecretReference :=
  if decide (ss_Type spec ≠ "kafka") then None
  else match ss_Kafka spec with
       | None => None
       | Some (Some ref) => Some ref
       | Some None => ss_SecretRef spec
       end.

(** Go: internal/sink/secret_refs.go:122-132 [natsSecretRef] *)
Definition natsSecretRef (spec : SinkSecrets) : option SecretReference :=
  if decide (ss_Type spec ≠ "nats") then None
  else match ss_Nats spec with
       | None => None
       | Some (Some ref) => Some ref
       | Some None => ss_SecretRef spec
       end.

(** Go: internal/sink/build_context.go:192-198 [gitAuthSecretRef] *)
Definition gitAuthSecretRef (spec : SinkSecrets) : option SecretReference :=
  if decide (ss_Type spec ≠ "git") then None else ss_GitAuth spec ≫= snd.

(** Go: internal/sink/build_context.go:172-190 [databaseSecretRef] *)
Definition databaseSecretRef (spec : SinkSecrets) : option SecretReference :=
  if decide (ss_Type spec = "postgres") then mjoin (ss_Postgres spec)
  else if decide (ss_Type spec = "bigquery") then mjoin (ss_BigQuery spec)
  else if decide (ss_Type spec = "mongodb") then mjoin (ss_MongoDB spec)
  else None.

(** Go: internal/sink/secret_refs.go:92-100 [containsSecretUse] *)
Definition containsSecretUse (uses : list secretUse) (use : secretUse) : bool := existsb (λ u, bool_decide (u = use)) uses.

(** The references of a spec, before the ones without a name are dropped. *)
Definition secret_refs (spec : SinkSecrets) : list (option SecretReference) :=
  let by_type :=
    if decide (ss_Type spec = "postgres") then match ss_Postgres spec with Some r => [r] | None => [] end
    else if decide (ss_Type spec = "bigquery") then match ss_BigQuery spec with Some r => [r] | None => [] end
    else if decide (ss_Type spec = "mongodb") then match ss_MongoDB spec with Some r => [r] | None => [] end
    else if decide (ss_Type spec = "kafka") then [kafkaSecretRef spec]
    else if decide (ss_Type spec = "nats") then [natsSecretRef spec]
    else [] in
  let tls :=
    match ss_TLS spec with
    | Some t => if decide (tls_CABundle t = "") then [tls_CASecretRef t] else []
    | None => []
    end in
  [ss_SecretRef spec] ++ by_type ++ [gitAuthSecretRef spec] ++ tls.

Definition add_use (defaultNamespace : string) (uses : list secretUse) (ref : option SecretReference) : list secretUse :=
  match ref with
  | None => uses
  | Some ref =>
      if decide (sr_Name ref = "") then uses
      else let use := use_of defaultNamespace ref in if containsSecretUse uses use then uses else uses ++ [use]
  end.

(** Go: internal/sink/secret_refs.go:43-90 [referencedSecretRefs] *)
Definition referencedSecretRefs (spec : SinkSecrets) (defaultNamespace : string) : list secretUse :=
  foldl (add_use (effective_default defaultNamespace)) [] (secret_refs spec).

(** * Reading Secrets *)

(** A Secret as the API server returns it. *)
Record secret := mkSecret {
  secret_UID : string;
  secret_ResourceVersion : string;
  secret_Data : gmap string string;
}.

(** Go: internal/sink/credentials.go:80-91 [SecretDataEmpty] *)
Definition SecretDataEmpty (data : gmap string string) : bool := bool_decide (map_Forall (λ _ v, v = "") data).

(** How one Secret read fails. *)
Inductive read_failure :=
  | NotFound
  | Empty
  | Other (e : err).

(** [SecretReadError] is the [secretReadError] of the pool's reads; the reads of
    a direct build fail with [PlainReadError].
    Go: internal/sink/secret_refs.go:206-214 [secretReadError] *)
Inductive secret_error :=
  | CABothSources
  | CAKeyMissing (name : string)
  | PlainReadError (use : secretUse) (f : read_failure)
  | SecretReadError (use : secretUse) (f : read_failure)
  | SecretNotRead (use : secretUse).

(** [get] is the API server's answer: [None] when the Secret is not found. *)
Abbreviation secret_reader := (secretUse → result err (option secret)) (only parsing).

(** Go: internal/sink/credentials.go:62-78 [getSecret] *)
Definition getSecret (get : secret_reader) (use : secretUse) : result secret_error secret :=
  match get use with
  | Err e => Err (PlainReadError use (Other e))
  | Ok None => Err (PlainReadError use NotFound)
  | Ok (Some s) => if SecretDataEmpty (secret_Data s) then Err (PlainReadError use Empty) else Ok s
  end.

(** Go: internal/sink/secret_refs.go:186-204 [getSecretObject] *)
Definition getSecretObject (get : secret_reader) (use : secretUse) : result secret_error secret :=
  match get use with
  | Err e => Err (SecretReadError use (Other e))
  | Ok None => Err (SecretReadError use NotFound)
  | Ok (Some s) => Ok s
  end.

(** Go: internal/sink/secret_refs.go:220-225 [isSecretGone] *)
Definition isSecretGone (e : secret_error) : bool :=
  match e with SecretReadError _ NotFound | SecretReadError _ Empty => true | _ => false end.

Definition version_of (use : secretUse) (s : secret) : secretVersion :=
  mkSecretVersion (use_Namespace use) (use_Name use) (secret_UID s) (secret_ResourceVersion s).

(** Go: internal/sink/secret_refs.go:134-154 [secretMeta] *)
Fixpoint secretMeta (get : secret_reader) (uses : list secretUse) : result secret_error (list secretVersion) :=
  match uses with
  | [] => Ok []
  | use :: uses =>
      s ← getSecretObject get use;
      out ← secretMeta get uses;
      Ok (version_of use s :: out)
  end.

Fixpoint fetch (get : secret_reader) (uses : list secretUse) (out : gmap secretUse secret) :
    result secret_error (gmap secretUse secret) :=
  match uses with
  | [] => Ok out
  | use :: uses =>
      s ← getSecretObject get use;
      if SecretDataEmpty (secret_Data s) then Err (SecretReadError use Empty) else fetch get uses (<[use := s]> out)
  end.

(** Go: internal/sink/secret_refs.go:156-171 [fetchSecrets] *)
Definition fetchSecrets (get : secret_reader) (uses : list secretUse) : result secret_error (gmap secretUse secret) :=
  fetch get uses ∅.

(** [None] is the nil dereference of a Secret that was not fetched.
    Go: internal/sink/secret_refs.go:173-184 [versionsOf] *)
Definition versionsOf (uses : list secretUse) (secrets : gmap secretUse secret) : option (list secretVersion) :=
  mapM (λ use, version_of use <$> secrets !! use) uses.

(** What the key's hash is taken of. *)
Definition pool_key_text (specHash : string) (versions : list secretVersion) : string :=
  specHash +:+ String.concat ""
    (concat ((λ v, (λ part, nul +:+ part) <$> [sv_Namespace v; sv_Name v; sv_UID v; sv_ResourceVersion v]) <$> versions)).

(** Go: internal/sink/secret_refs.go:227-239 [poolEntryKey] *)
Definition poolEntryKey `{!Sha256} (specHash : string) (versions : list secretVersion) : string :=
  sha256_hex (pool_key_text specHash versions).

(** Go: internal/sink/secret_refs.go:241-257 [changedSecrets] *)
Definition changedSecrets (before after : list secretVersion) : list string :=
  let prev : gmap secretUse secretVersion :=
    foldl (λ m v, <[mkSecretUse (sv_Namespace v) (sv_Name v) := v]> m) ∅ before in
  (λ v, sv_Namespace v +:+ "/" +:+ sv_Name v) <$>
    filter (λ v, prev !! mkSecretUse (sv_Namespace v) (sv_Name v) ≠ Some v) after.

(** * The build context *)

Definition caKeys : list string := ["tls.crt"; "ca.crt"; "ca.pem"].

(** Go: internal/sink/ca_source.go:31-44 [SelectCAKey] *)
Definition SelectCAKey (secretName : string) (data : gmap string string) : result secret_error string :=
  match list_find (λ key, default "" (data !! key) ≠ "") caKeys with
  | Some (_, key) => Ok (default "" (data !! key))
  | None => Err (CAKeyMissing secretName)
  end.

(** Go: internal/sink/sinktls/sinktls.go:86-94 [CheckCASources] *)
Definition CheckCASources (tls : option TLSSpec) : result secret_error unit :=
  match tls with
  | Some t => if decide (tls_CABundle t ≠ "" ∧ is_Some (tls_CASecretRef t)) then Err CABothSources else Ok tt
  | None => Ok tt
  end.

(** Go: internal/sink/build_context.go:161-170 [caSecretUse] *)
Definition caSecretUse (spec : SinkSecrets) (defaultNamespace : string) : option secretUse :=
  match ss_TLS spec with
  | Some t => if decide (tls_CABundle t ≠ "") then None else use_of defaultNamespace <$> tls_CASecretRef t
  | None => None
  end.

(** Go: internal/sink/build_context.go:130-159 [checkCASecret] *)
Definition checkCASecret (get : secret_reader) (spec : SinkSecrets) (defaultNamespace : string) :
    result secret_error (option (secretUse * secret)) :=
  match caSecretUse spec defaultNamespace with
  | None => Ok None
  | Some use =>
      if decide (use_Name use = "") then SelectCAKey "" ∅;; Ok None
      else
        s ← getSecret get use;
        SelectCAKey (use_Name use) (secret_Data s);;
        Ok (Some (use, s))
  end.

(** Go: internal/sink/build_context.go:21-27 [BuildContext] *)
Record BuildContext := mkBuildContext {
  bc_CAPEM : string;
  bc_SecretData : option (gmap string string);
  bc_DatabaseSecretData : option (gmap string string);
}.

Abbreviation secret_data := (option (gmap string string)) (only parsing).

(** The closure [data] of [buildContextFromSecrets]: the data of a reference, out
    of the Secrets that were read. *)
Definition ref_data (defaultNamespace : string) (secrets : gmap secretUse secret) (ref : option SecretReference) :
    result secret_error secret_data :=
  match ref with
  | None => Ok None
  | Some ref =>
      if decide (sr_Name ref = "") then Ok None
      else
        let use := use_of defaultNamespace ref in
        match secrets !! use with
        | None => Err (SecretNotRead use)
        | Some s => Ok (Some (secret_Data s))
        end
  end.

(** Go: internal/sink/build_context.go:200-226 [resolveCAPEM] *)
Definition resolveCAPEM (tlsSpec : option TLSSpec) (data : option SecretReference → result secret_error secret_data) :
    result secret_error string :=
  CheckCASources tlsSpec;;
  match tlsSpec with
  | None => Ok ""
  | Some t =>
      if decide (tls_CABundle t ≠ "") then Ok (tls_CABundle t)
      else
        match tls_CASecretRef t with
        | None => Ok ""
        | Some ref => caData ← data (Some ref); SelectCAKey (sr_Name ref) (default ∅ caData)
        end
  end.

(** The loop over the references that replace [spec.secretRef]'s data. *)
Fixpoint overrides (data : option SecretReference → result secret_error secret_data)
    (refs : list (option SecretReference)) (out : secret_data) : result secret_error secret_data :=
  match refs with
  | [] => Ok out
  | None :: refs => overrides data refs out
  | Some ref :: refs => out ← data (Some ref); overrides data refs out
  end.

(** Go: internal/sink/build_context.go:76-128 [buildContextFromSecrets] *)
Definition buildContextFromSecrets (spec : SinkSecrets) (defaultNamespace : string) (secrets : gmap secretUse secret) :
    result secret_error BuildContext :=
  let data := ref_data (effective_default defaultNamespace) secrets in
  caPEM ← resolveCAPEM (ss_TLS spec) data;
  secretData ← data (ss_SecretRef spec);
  databaseData ← data (databaseSecretRef spec);
  secretData ← overrides data [kafkaSecretRef spec; gitAuthSecretRef spec; natsSecretRef spec] secretData;
  Ok (mkBuildContext caPEM secretData databaseData).

Fixpoint read_uses (get : secret_reader) (uses : list secretUse) (secrets : gmap secretUse secret) :
    result secret_error (gmap secretUse secret) :=
  match uses with
  | [] => Ok secrets
  | use :: uses =>
      if decide (is_Some (secrets !! use)) then read_uses get uses secrets
      else s ← getSecret get use; read_uses get uses (<[use := s]> secrets)
  end.

(** Go: internal/sink/build_context.go:29-74 [BuildContextFromSpec] *)
Definition BuildContextFromSpec (get : secret_reader) (spec : SinkSecrets) (defaultNamespace : string) :
    result secret_error BuildContext :=
  let defaultNamespace := effective_default defaultNamespace in
  CheckCASources (ss_TLS spec);;
  let uses := referencedSecretRefs spec defaultNamespace in
  ca ← checkCASecret get spec defaultNamespace;
  secrets ← read_uses get uses (match ca with Some (use, s) => {[use := s]} | None => ∅ end);
  buildContextFromSecrets spec defaultNamespace secrets.

(** * Credentials *)

(** Go: internal/sink/credentials.go:18-24 [Credentials] *)
Record Credentials := mkCredentials {
  cred_Username : string;
  cred_Password : string;
  cred_Token : string;
  cred_Data : gmap string string;
}.

(** Go: internal/sink/credentials.go:26-60 [ResolveSecret] *)
Definition ResolveSecret (get : secret_reader) (ref : option SecretReference) (defaultNamespace : string) :
    result secret_error Credentials :=
  match ref with
  | None => Ok (mkCredentials "" "" "" ∅)
  | Some ref =>
      if decide (sr_Name ref = "") then Ok (mkCredentials "" "" "" ∅)
      else
        s ← getSecret get (use_of defaultNamespace ref);
        let value key := default "" (secret_Data s !! key) in
        let token := if decide (value "token" = "" ∧ value "password" ≠ "") then value "password" else value "token" in
        Ok (mkCredentials (value "username") (value "password") token (secret_Data s))
  end.

(** Go: internal/sink/gitauth.go:58-66 [sshPrivateKeyFromSecret] *)
Definition sshPrivateKeyFromSecret (data : gmap string string) : string :=
  match list_find (λ key, default "" (data !! key) ≠ "") ["ssh-privatekey"; "identity"; "id_rsa"] with
  | Some (_, key) => default "" (data !! key)
  | None => ""
  end.

(** [git.AuthType] *)
Inductive AuthType := AuthTypeSSH | AuthTypeToken.

(** Go: internal/sink/gitauth.go:68-75 [gitAuthType] *)
Definition gitAuthType (authType : string) : AuthType := if decide (authType = "ssh") then AuthTypeSSH else AuthTypeToken.

(** Go: internal/sink/gitauth.go:77-83 [gitAuthTypeFromSpec] *)
Definition gitAuthTypeFromSpec (spec : SinkSecrets) : string := default "" (fst <$> ss_GitAuth spec).

(** Without an auth type of its own the zero value is not one of the two
    constants: [None].
    Go: internal/sink/git/auth.go:24-30 [Auth] *)
Record GitAuth := mkGitAuth {
  auth_Username : string;
  auth_Password : string;
  auth_Token : string;
  auth_SSHPrivateKey : string;
  auth_AuthType : option AuthType;
}.

(** Go: internal/sink/gitauth.go:20-43 [GitAuthFromSecretData] *)
Definition GitAuthFromSecretData (data : option (gmap string string)) (authType : string) : GitAuth :=
  match data with
  | None => mkGitAuth "" "" "" "" None
  | Some data =>
      let value key := default "" (data !! key) in
      mkGitAuth (value "username") (value "password") (value "token") (sshPrivateKeyFromSecret data) (Some (gitAuthType authType))
  end.

(** Go: internal/sink/gitauth.go:45-56 [GitSSHKnownHostsFromSecretData] *)
Definition GitSSHKnownHostsFromSecretData (data : option (gmap string string)) : string :=
  default "" (data ≫= (!!) "known_hosts").

(** * Admission *)

(** A forbidden reference is reported by the path of its field. *)
Abbreviation forbidden_path := string (only parsing).

(** Go: internal/validation/secret_ref_namespace.go:35-48 [SetAllowedSecretRefNamespaces] *)
Definition SetAllowedSecretRefNamespaces (namespaces : list string) : gset string :=
  list_to_set (filter (λ ns, ns ≠ "") (trim_space <$> namespaces)).

(** Go: internal/validation/secret_ref_namespace.go:50-60 [SecretRefNamespaceAllowed] *)
Definition SecretRefNamespaceAllowed (allowed : gset string) (namespace : string) : bool := bool_decide (namespace ∈ allowed).

(** Go: internal/validation/secret_ref_namespace.go:109-131 [validateSecretRefNamespace] *)
Definition validateSecretRefNamespace (allowed : gset string) (ref : option SecretReference) (path sinkNamespace : string) :
    list forbidden_path :=
  match ref with
  | None => []
  | Some ref =>
      let ns := trim_space (sr_Namespace ref) in
      if decide (ns = "" ∨ ns = sinkNamespace) then []
      else if SecretRefNamespaceAllowed allowed ns then []
      else [path +:+ ".namespace"]
  end.

(** Go: internal/validation/secret_ref_namespace.go:62-107 [ValidateSecretRefNamespaces] *)
Definition ValidateSecretRefNamespaces (allowed : gset string) (spec : SinkSecrets) (sinkNamespace : string) : list forbidden_path :=
  let check path ref := validateSecretRefNamespace allowed ref path sinkNamespace in
  let block path (b : option (option SecretReference)) := match b with None => [] | Some ref => check path ref end in
  check "spec.secretRef" (ss_SecretRef spec) ++
  block "spec.tls.caSecretRef" (tls_CASecretRef <$> ss_TLS spec) ++
  block "spec.git.auth.secretRef" (snd <$> ss_GitAuth spec) ++
  block "spec.postgres.databaseRef" (ss_Postgres spec) ++
  block "spec.mongodb.databaseRef" (ss_MongoDB spec) ++
  block "spec.bigquery.secretRef" (ss_BigQuery spec) ++
  block "spec.nats.secretRef" (ss_Nats spec) ++
  block "spec.kafka.secretRef" (ss_Kafka spec).

(** * Lemmas *)

(** Reading agrees when the readers agree. *)
Lemma getSecret_ext get get' use : get use = get' use → getSecret get use = getSecret get' use.
Proof. unfold getSecret. by intros ->. Qed.

Lemma getSecretObject_ext get get' use : get use = get' use → getSecretObject get use = getSecretObject get' use.
Proof. unfold getSecretObject. by intros ->. Qed.

#[local] Hint Resolve getSecret_ext getSecretObject_ext : core.

Lemma read_uses_ext get get' uses secrets :
  Forall (λ u, get u = get' u) uses → read_uses get uses secrets = read_uses get' uses secrets.
Proof.
  intros Hu. revert secrets. induction Hu as [|u uses Hg Hu IH]; intros secrets; simpl; [done|].
  case_decide; [apply IH|]. rewrite (getSecret_ext get get') by done.
  destruct (getSecret get' u); simpl; [apply IH|done].
Qed.

Lemma fetch_ext get get' uses out :
  Forall (λ u, get u = get' u) uses → fetch get uses out = fetch get' uses out.
Proof.
  intros Hu. revert out. induction Hu as [|u uses Hg Hu IH]; intros out; simpl; [done|].
  rewrite (getSecretObject_ext get get') by done.
  destruct (getSecretObject get' u); simpl; [|done]. by rewrite IH.
Qed.

Lemma secretMeta_ext get get' uses :
  Forall (λ u, get u = get' u) uses → secretMeta get uses = secretMeta get' uses.
Proof.
  induction 1 as [|u uses Hg Hu IH]; simpl; [done|]. rewrite (getSecretObject_ext get get') by done.
  by rewrite IH.
Qed.

(** ** The uses of a spec *)

Lemma containsSecretUse_spec uses use : containsSecretUse uses use = true ↔ use ∈ uses.
Proof.
  unfold containsSecretUse. rewrite existsb_exists. setoid_rewrite bool_decide_eq_true.
  setoid_rewrite <- list_elem_of_In. naive_solver.
Qed.

Lemma elem_of_add_use ns uses ref u :
  u ∈ add_use ns uses ref ↔ u ∈ uses ∨ ∃ r, ref = Some r ∧ sr_Name r ≠ "" ∧ u = use_of ns r.
Proof.
  unfold add_use. destruct ref as [r|]; [|naive_solver]. case_decide; [naive_solver|].
  destruct (containsSecretUse uses (use_of ns r)) eqn:Hc.
  - apply containsSecretUse_spec in Hc. naive_solver.
  - rewrite elem_of_app, list_elem_of_singleton. naive_solver.
Qed.

Lemma add_use_NoDup ns uses ref : NoDup uses → NoDup (add_use ns uses ref).
Proof.
  intros Hn. unfold add_use. destruct ref as [r|]; [|done]. case_decide; [done|].
  destruct (containsSecretUse uses (use_of ns r)) eqn:Hc; [done|].
  apply NoDup_app. split; [done|]. split; [|apply NoDup_singleton].
  intros u Hu ->%list_elem_of_singleton. apply containsSecretUse_spec in Hu. congruence.
Qed.

Lemma elem_of_uses_from ns refs uses u :
  u ∈ foldl (add_use ns) uses refs ↔ u ∈ uses ∨ ∃ r, Some r ∈ refs ∧ sr_Name r ≠ "" ∧ u = use_of ns r.
Proof.
  revert uses. induction refs as [|ref refs IH]; intros uses; simpl.
  - setoid_rewrite elem_of_nil. naive_solver.
  - rewrite IH, elem_of_add_use. setoid_rewrite elem_of_cons. naive_solver.
Qed.

Lemma elem_of_referenced spec ns u :
  u ∈ referencedSecretRefs spec ns ↔
  ∃ r, Some r ∈ secret_refs spec ∧ sr_Name r ≠ "" ∧ u = use_of (effective_default ns) r.
Proof. unfold referencedSecretRefs. rewrite elem_of_uses_from, elem_of_nil. naive_solver. Qed.

Lemma referenced_NoDup spec ns : NoDup (referencedSecretRefs spec ns).
Proof.
  unfold referencedSecretRefs. assert (∀ refs uses, NoDup uses → NoDup (foldl (add_use (effective_default ns)) uses refs)) as Hf.
  { induction refs as [|ref refs IH]; intros uses Hn; simpl; [done|]. by apply IH, add_use_NoDup. }
  apply Hf, NoDup_nil_2.
Qed.

(** Every reference the build looks up is one of the references listed. *)
Lemma database_listed spec r : databaseSecretRef spec = Some r → Some r ∈ secret_refs spec.
Proof.
  unfold databaseSecretRef, secret_refs. rewrite !elem_of_app.
  repeat case_decide; intros Hr; try done; right; left.
  - destruct (ss_Postgres spec); simplify_eq/=; set_solver.
  - destruct (ss_BigQuery spec); simplify_eq/=; set_solver.
  - destruct (ss_MongoDB spec); simplify_eq/=; set_solver.
Qed.

Lemma override_listed spec r :
  Some r ∈ [kafkaSecretRef spec; gitAuthSecretRef spec; natsSecretRef spec] → Some r ∈ secret_refs spec.
Proof.
  unfold secret_refs. rewrite !elem_of_app, !elem_of_cons, elem_of_nil.
  intros [Hr | [Hr | [Hr | []]]]; [|set_solver|]; right; left; revert Hr.
  - intros Hr. assert (ss_Type spec = "kafka") as Ht.
    { unfold kafkaSecretRef in Hr. by destruct (decide (ss_Type spec ≠ "kafka")) as [|Ht%dec_stable]. }
    rewrite Ht, Hr. cbn. set_solver.
  - intros Hr. assert (ss_Type spec = "nats") as Ht.
    { unfold natsSecretRef in Hr. by destruct (decide (ss_Type spec ≠ "nats")) as [|Ht%dec_stable]. }
    rewrite Ht, Hr. cbn. set_solver.
Qed.

Lemma ca_listed spec t r :
  ss_TLS spec = Some t → tls_CABundle t = "" → tls_CASecretRef t = Some r → Some r ∈ secret_refs spec.
Proof. intros Ht Hb Hr. unfold secret_refs. rewrite Ht, !elem_of_app. destruct (decide (tls_CABundle t = "")); [|done]. rewrite Hr. set_solver. Qed.

(** ** Building from Secrets that were read *)

(** [fetch] fails, or reads every use. *)
Lemma fetch_ok get uses out secrets :
  fetch get uses out = Ok secrets →
  (∀ u, u ∈ uses → ∃ s, get u = Ok (Some s) ∧ SecretDataEmpty (secret_Data s) = false) ∧
  (∀ u, secrets !! u = if decide (u ∈ uses) then (match get u with Ok (Some s) => Some s | _ => None end) else out !! u).
Proof.
  revert out. induction uses as [|u uses IH]; intros out; cbn [fetch].
  - intros [= ->]. split; [by intros u ?%elem_of_nil|]. intros u. by rewrite decide_False by apply not_elem_of_nil.
  - unfold getSecretObject. destruct (get u) as [[s|]|] eqn:Hg; try done. cbn [mbind result_bind].
    destruct (SecretDataEmpty (secret_Data s)) eqn:He; [done|]. intros [Hu Hs]%IH. split.
    + intros v [-> | Hv]%elem_of_cons; eauto.
    + intros v. rewrite Hs. destruct (decide (v = u)) as [->|Hne].
      * rewrite (decide_True (P := u ∈ u :: uses)) by apply list_elem_of_here. rewrite Hg.
        destruct (decide (u ∈ uses)); [done|]. apply lookup_insert_eq.
      * rewrite lookup_insert_ne by done. destruct (decide (v ∈ uses)).
        { by rewrite decide_True by by apply list_elem_of_further. }
        { rewrite decide_False; [done|]. by intros [-> | ?]%elem_of_cons. }
Qed.

(** Over readable Secrets [read_uses] reads what [fetch] reads. *)
Lemma read_uses_fetched get uses secrets :
  (∀ u, u ∈ uses → ∃ s, get u = Ok (Some s) ∧ SecretDataEmpty (secret_Data s) = false) →
  (∀ u s, secrets !! u = Some s → get u = Ok (Some s)) →
  ∃ secrets', read_uses get uses secrets = Ok secrets' ∧
    ∀ u, secrets' !! u = if decide (u ∈ uses) then (match get u with Ok (Some s) => Some s | _ => None end) else secrets !! u.
Proof.
  revert secrets. induction uses as [|u uses IH]; intros secrets Hu Hs; cbn [read_uses].
  { exists secrets. split; [done|]. intros u. by rewrite decide_False by apply not_elem_of_nil. }
  assert (∀ v, v ∈ uses → ∃ s, get v = Ok (Some s) ∧ SecretDataEmpty (secret_Data s) = false) as Hu' by (intros; apply Hu; by right).
  destruct (Hu u (list_elem_of_here _ _)) as (s & Hg & He).
  assert (∃ secrets', read_uses get (u :: uses) secrets = Ok secrets' ∧
    ∀ v, secrets' !! v = if decide (v ∈ uses) then (match get v with Ok (Some s) => Some s | _ => None end)
                         else <[u := s]> secrets !! v) as (secrets' & Hr & Hl).
  { cbn [read_uses]. destruct (decide (is_Some (secrets !! u))) as [[s' Hs']|].
    - destruct (IH secrets Hu' Hs) as (secrets' & -> & Hl). exists secrets'. split; [done|].
      intros v. rewrite Hl. destruct (decide (v ∈ uses)); [done|]. destruct (decide (v = u)) as [->|].
      + rewrite lookup_insert_eq, Hs'. apply Hs in Hs'. congruence.
      + by rewrite lookup_insert_ne.
    - unfold getSecret. rewrite Hg, He. simpl. apply IH; [done|]. intros v s'.
      destruct (decide (v = u)) as [->|]; [rewrite lookup_insert_eq; congruence|rewrite lookup_insert_ne by done; apply Hs]. }
  exists secrets'. split; [done|]. intros v. rewrite Hl. destruct (decide (v = u)) as [->|].
  - rewrite (decide_True (P := u ∈ u :: uses)) by apply list_elem_of_here. rewrite Hg, lookup_insert_eq. by destruct decide.
  - rewrite lookup_insert_ne by done. destruct (decide (v ∈ uses)).
    { by rewrite decide_True by by apply list_elem_of_further. }
    { rewrite decide_False; [done|]. by intros [-> | ?]%elem_of_cons. }
Qed.

(** Looking up a reference fails only when its Secret was not read. *)
Lemma ref_data_listed spec ns secrets ref :
  (∀ u, u ∈ referencedSecretRefs spec ns → is_Some (secrets !! u)) →
  (∀ r, ref = Some r → Some r ∈ secret_refs spec) →
  ∃ d, ref_data (effective_default ns) secrets ref = Ok d.
Proof.
  intros Hs Hr. unfold ref_data. destruct ref as [r|]; [|eauto]. destruct (decide (sr_Name r = "")); [eauto|].
  destruct (Hs (use_of (effective_default ns) r)) as [s ->]; [|eauto]. apply elem_of_referenced. eauto.
Qed.

Lemma overrides_total data refs out :
  (∀ r, Some r ∈ refs → ∃ d, data (Some r) = Ok d) → ∃ d, overrides data refs out = Ok d.
Proof.
  revert out. induction refs as [|[r|] refs IH]; intros out Hd; simpl; [eauto| |].
  - destruct (Hd r (list_elem_of_here _ _)) as [d ->]. simpl. apply IH. intros r' Hr'. apply Hd. by right.
  - apply IH. intros r' Hr'. apply Hd. by right.
Qed.

Lemma effective_default_idem ns : effective_default (effective_default ns) = effective_default ns.
Proof. unfold effective_default. by repeat case_decide. Qed.

Lemma referenced_effective spec ns : referencedSecretRefs spec (effective_default ns) = referencedSecretRefs spec ns.
Proof. unfold referencedSecretRefs. by rewrite effective_default_idem. Qed.

Lemma build_effective spec ns secrets :
  buildContextFromSecrets spec (effective_default ns) secrets = buildContextFromSecrets spec ns secrets.
Proof. unfold buildContextFromSecrets. by rewrite effective_default_idem. Qed.

(** The Secret of [tls.caSecretRef], when there is one to read. *)
Lemma ca_use_listed spec ns use :
  caSecretUse spec (effective_default ns) = Some use → use_Name use ≠ "" → use ∈ referencedSecretRefs spec ns.
Proof.
  unfold caSecretUse. destruct (ss_TLS spec) as [t|] eqn:Ht; [|done].
  destruct (decide (tls_CABundle t ≠ "")) as [|Hb%dec_stable]; [done|].
  destruct (tls_CASecretRef t) as [r|] eqn:Hr; [|done]. intros [= <-] Hn. apply elem_of_referenced.
  exists r. split; [by eapply ca_listed|done].
Qed.

Lemma SelectCAKey_empty name : SelectCAKey name ∅ = Err (CAKeyMissing name).
Proof. done. Qed.

(** What the CA rules say of Secrets that are readable. *)
Lemma checkCASecret_fetched get spec ns secrets :
  fetchSecrets get (referencedSecretRefs spec ns) = Ok secrets → CheckCASources (ss_TLS spec) = Ok tt →
  match checkCASecret get spec (effective_default ns) with
  | Ok ca => ∀ u s, (match ca with Some (u, s) => {[u := s]} | None => ∅ end : gmap secretUse secret) !! u = Some s →
                    u ∈ referencedSecretRefs spec ns ∧ get u = Ok (Some s)
  | Err e => resolveCAPEM (ss_TLS spec) (ref_data (effective_default ns) secrets) = Err e ∧ ∃ name, e = CAKeyMissing name
  end.
Proof.
  intros [Hu Hs]%fetch_ok Hc. unfold checkCASecret, resolveCAPEM. rewrite Hc. cbn [mbind result_bind].
  pose proof (ca_use_listed spec ns) as Hl. unfold caSecretUse in *.
  destruct (ss_TLS spec) as [t|]; [|by intros u s ?%lookup_empty_Some].
  destruct (decide (tls_CABundle t ≠ "")); [by intros u s ?%lookup_empty_Some|].
  destruct (tls_CASecretRef t) as [r|]; [|by intros u s ?%lookup_empty_Some]. cbn [fmap option_fmap option_map] in *.
  change (use_Name (use_of (effective_default ns) r)) with (sr_Name r) in *. cbn [ref_data].
  destruct (decide (sr_Name r = "")) as [Hn|Hn]; [rewrite Hn, SelectCAKey_empty; cbn [mbind result_bind]; rewrite SelectCAKey_empty; eauto|].
  specialize (Hl _ eq_refl Hn). destruct (Hu _ Hl) as (s & Hg & He).
  unfold getSecret. rewrite Hg, He, Hs, decide_True, Hg by done. cbn [mbind result_bind default].
  destruct (SelectCAKey (sr_Name r) (secret_Data s)) as [pem|e] eqn:Hk; simpl.
  - intros u s' [<- <-]%lookup_singleton_Some. done.
  - split; [done|]. unfold SelectCAKey in Hk. destruct list_find as [[??]|]; naive_solver.
Qed.

Lemma versions_fetched get uses secrets :
  fetchSecrets get uses = Ok secrets →
  ∃ versions, secretMeta get uses = Ok versions ∧ versionsOf uses secrets = Some versions.
Proof.
  intros [Hu Hs]%fetch_ok. assert (uses ⊆ uses) as Hsub by done. revert Hsub. generalize uses at 1 3 4 as l.
  induction l as [|u l IH]; intros Hsub; [by exists []|].
  destruct IH as (versions & Hm & Hv); [set_solver|].
  destruct (Hu u) as (s & Hg & _); [set_solver|]. exists (version_of u s :: versions).
  split; cbn; unfold getSecretObject.
  - rewrite Hg. cbn. by rewrite Hm.
  - rewrite Hs, decide_True, Hg by set_solver. cbn. unfold versionsOf in Hv. by rewrite Hv.
Qed.

(** Over Secrets that cover the references, only the CA rules fail. *)
Lemma build_outcome spec ns secrets :
  (∀ u, u ∈ referencedSecretRefs spec ns → is_Some (secrets !! u)) →
  match buildContextFromSecrets spec ns secrets with
  | Ok _ | Err CABothSources | Err (CAKeyMissing _) => True
  | Err _ => False
  end.
Proof.
  intros Hread. pose proof (λ ref, ref_data_listed spec ns secrets ref Hread) as Hd. unfold buildContextFromSecrets.
  assert (match resolveCAPEM (ss_TLS spec) (ref_data (effective_default ns) secrets) with
          | Ok _ | Err CABothSources | Err (CAKeyMissing _) => True | Err _ => False end) as Hca.
  { unfold resolveCAPEM, CheckCASources. destruct (ss_TLS spec) as [t|] eqn:Ht; [|done].
    destruct (decide (tls_CABundle t ≠ "" ∧ is_Some (tls_CASecretRef t))); [done|].
    cbn [mbind result_bind]. destruct (decide (tls_CABundle t ≠ "")) as [|Hb%dec_stable]; [done|].
    destruct (tls_CASecretRef t) as [r|] eqn:Hr; [|done].
    destruct (Hd (Some r)) as [d ->]; [intros ? [= <-]; by eapply ca_listed|].
    cbn [mbind result_bind]. unfold SelectCAKey. by destruct list_find as [[??]|]. }
  destruct resolveCAPEM as [pem|e]; [|done]. cbn [mbind result_bind].
  destruct (Hd (ss_SecretRef spec)) as [d ->]; [intros r Hr; unfold secret_refs; rewrite Hr; set_solver|]. cbn [mbind result_bind].
  destruct (Hd (databaseSecretRef spec)) as [d' ->]; [apply database_listed|]. cbn [mbind result_bind].
  destruct (overrides_total (ref_data (effective_default ns) secrets)
    [kafkaSecretRef spec; gitAuthSecretRef spec; natsSecretRef spec] d) as [d'' ->]; [|done].
  intros r Hr%override_listed. apply Hd. by intros ? [= <-].
Qed.

(** A backend the pool rebuilds is given what a build without the pool reads:
    once the pool has fetched every Secret of the spec, the context it assembles
    from those Secrets is the one [BuildContextFromSpec] assembles from its own
    reads, the versions it stores are the versions a metadata read returns, and
    the only errors left are the two of the CA rules: no Secret is looked up
    that was not read. *)
Theorem pool_build_agrees get spec ns secrets :
  fetchSecrets get (referencedSecretRefs spec ns) = Ok secrets →
  BuildContextFromSpec get spec ns = buildContextFromSecrets spec ns secrets ∧
  (∃ versions, secretMeta get (referencedSecretRefs spec ns) = Ok versions ∧
               versionsOf (referencedSecretRefs spec ns) secrets = Some versions) ∧
  match buildContextFromSecrets spec ns secrets with
  | Ok _ | Err CABothSources | Err (CAKeyMissing _) => True
  | Err _ => False
  end.
Proof.
  intros Hf. split_and!; [|by apply (versions_fetched get)|].
  - unfold BuildContextFromSpec. rewrite referenced_effective.
    destruct (CheckCASources (ss_TLS spec)) as [[]|e] eqn:Hc; cbn [mbind result_bind];
      [|unfold buildContextFromSecrets, resolveCAPEM; by rewrite Hc].
    pose proof (checkCASecret_fetched get spec ns secrets Hf Hc) as Hca.
    destruct (checkCASecret get spec (effective_default ns)) as [ca|e]; cbn [mbind result_bind].
    + apply fetch_ok in Hf as [Hu Hs].
      destruct (read_uses_fetched get (referencedSecretRefs spec ns) _ Hu (λ u s Hus, proj2 (Hca u s Hus)))
        as (secrets' & -> & Hs'). cbn [mbind result_bind]. rewrite build_effective. f_equal. apply map_eq. intros u.
      rewrite Hs, Hs', lookup_empty. destruct (decide (u ∈ referencedSecretRefs spec ns)) as [|Hnu]; [done|].
      apply eq_None_not_Some. intros [s [? _]%Hca]. done.
    + unfold buildContextFromSecrets. by destruct Hca as [-> _].
  - apply fetch_ok in Hf as [Hu Hs].
    assert (∀ u, u ∈ referencedSecretRefs spec ns → is_Some (secrets !! u)) as Hread.
    { intros u Hin. rewrite Hs, decide_True by done. destruct (Hu u Hin) as (s & -> & _). eauto. }
    by apply build_outcome.
Qed.

(** * Confinement *)

(** The Secrets an admitted sink of namespace [ns] may read. *)
Definition may_read (allowed : gset string) (ns : string) (u : secretUse) : Prop :=
  use_Namespace u = ns ∨ trim_space (use_Namespace u) = "" ∨ trim_space (use_Namespace u) = ns ∨
  trim_space (use_Namespace u) ∈ allowed.

Lemma validate_ref_nil allowed ref path ns :
  validateSecretRefNamespace allowed ref path ns = [] →
  ∀ r, ref = Some r → may_read allowed ns (use_of ns r).
Proof.
  intros Hv r ->. unfold validateSecretRefNamespace, SecretRefNamespaceAllowed in Hv.
  unfold may_read, use_of, secretRefNamespace. cbn [use_Namespace].
  destruct (decide (sr_Namespace r ≠ "")); [|by left]. right.
  destruct (decide (trim_space (sr_Namespace r) = "" ∨ trim_space (sr_Namespace r) = ns)) as [[?|?]|]; [tauto..|].
  destruct (bool_decide_reflect (trim_space (sr_Namespace r) ∈ allowed)); [tauto|done].
Qed.

(** Admission walks every reference the build may look up. *)
Lemma admitted_refs allowed spec ns r :
  ValidateSecretRefNamespaces allowed spec ns = [] → Some r ∈ secret_refs spec → may_read allowed ns (use_of ns r).
Proof.
  unfold ValidateSecretRefNamespaces. rewrite !app_nil. intros (Hsec & Htls & Hgit & Hpg & Hmg & Hbq & Hn & Hk).
  pose proof (λ Hr, validate_ref_nil _ _ _ _ Hsec r Hr) as Hs.
  unfold secret_refs. rewrite !elem_of_app, !list_elem_of_singleton. intros [Hr | [Hr | [Hr | Hr]]].
  - by apply Hs.
  - repeat case_decide; try by apply elem_of_nil in Hr.
    + destruct (ss_Postgres spec); [|by apply elem_of_nil in Hr]. apply list_elem_of_singleton in Hr. by eapply validate_ref_nil; [exact Hpg|].
    + destruct (ss_BigQuery spec); [|by apply elem_of_nil in Hr]. apply list_elem_of_singleton in Hr. by eapply validate_ref_nil; [exact Hbq|].
    + destruct (ss_MongoDB spec); [|by apply elem_of_nil in Hr]. apply list_elem_of_singleton in Hr. by eapply validate_ref_nil; [exact Hmg|].
    + apply list_elem_of_singleton in Hr. unfold kafkaSecretRef in Hr. destruct decide; [done|].
      destruct (ss_Kafka spec) as [[r'|]|]; [|by apply Hs|done]. by eapply validate_ref_nil; [exact Hk|].
    + apply list_elem_of_singleton in Hr. unfold natsSecretRef in Hr. destruct decide; [done|].
      destruct (ss_Nats spec) as [[r'|]|]; [|by apply Hs|done]. by eapply validate_ref_nil; [exact Hn|].
  - unfold gitAuthSecretRef in Hr. destruct decide; [done|].
    destruct (ss_GitAuth spec) as [[? a]|]; [|done]. by eapply validate_ref_nil; [exact Hgit|].
  - destruct (ss_TLS spec) as [t|]; [|by apply elem_of_nil in Hr]. destruct decide; [|by apply elem_of_nil in Hr].
    apply list_elem_of_singleton in Hr. by eapply validate_ref_nil; [exact Htls|].
Qed.

Lemma admitted_uses allowed spec ns :
  ns ≠ "" → ValidateSecretRefNamespaces allowed spec ns = [] → Forall (may_read allowed ns) (referencedSecretRefs spec ns).
Proof.
  intros Hns Hv. apply Forall_forall. intros u (r & Hr & _ & ->)%elem_of_referenced.
  unfold effective_default. rewrite decide_False by done. by apply (admitted_refs _ spec).
Qed.

(** C31. A sink that passes admission is built from Secrets of its own namespace
    and of the allowlisted ones only: two clusters that agree on those Secrets
    give the same build, the same versions for the pool's key and the same
    fetched Secrets, whatever the Secrets of the other namespaces hold. *)
Theorem admitted_sink_reads_confined allowed spec ns get get' :
  ns ≠ "" → ValidateSecretRefNamespaces allowed spec ns = [] →
  (∀ u, may_read allowed ns u → get u = get' u) →
  BuildContextFromSpec get spec ns = BuildContextFromSpec get' spec ns ∧
  secretMeta get (referencedSecretRefs spec ns) = secretMeta get' (referencedSecretRefs spec ns) ∧
  fetchSecrets get (referencedSecretRefs spec ns) = fetchSecrets get' (referencedSecretRefs spec ns).
Proof.
  intros Hns Hv Hg.
  assert (Forall (λ u, get u = get' u) (referencedSecretRefs spec ns)) as Hu.
  { eapply Forall_impl; [by apply (admitted_uses allowed)|done]. }
  split_and!; [|by apply secretMeta_ext|by apply fetch_ext].
  unfold BuildContextFromSpec. rewrite referenced_effective.
  assert (checkCASecret get spec (effective_default ns) = checkCASecret get' spec (effective_default ns)) as ->.
  { unfold checkCASecret. destruct (caSecretUse spec (effective_default ns)) as [use|] eqn:Hca; [|done].
    destruct (decide (use_Name use = "")); [done|]. rewrite (getSecret_ext get get'); [done|].
    rewrite Forall_forall in Hu. by apply Hu, ca_use_listed. }
  destruct (CheckCASources (ss_TLS spec)); [|done]. cbn [mbind result_bind].
  destruct (checkCASecret get' spec (effective_default ns)); [|done]. cbn [mbind result_bind].
  by rewrite (read_uses_ext get get').
Qed.

(** * The pool's key *)

Definition nul_free (s : string) : Prop := has_byte (ascii_of_nat 0) s = false.

Definition version_parts (v : secretVersion) : list string := [sv_Namespace v; sv_Name v; sv_UID v; sv_ResourceVersion v].

Definition plain_version (v : secretVersion) : Prop := Forall nul_free (version_parts v).

Lemma concat_cons_nul h parts :
  h +:+ String.concat "" ((λ part, nul +:+ part) <$> parts) = join nul (h :: parts).
Proof.
  revert h. induction parts as [|p parts IH]; intros h; [apply GoStrings.app_nil_r|].
  rewrite join_cons, <- IH. f_equal. rewrite fmap_cons. destruct parts as [|q parts]; simpl.
  - by rewrite GoStrings.app_nil_r.
  - by rewrite ?GoStrings.app_assoc.
Qed.

Lemma pool_key_text_join h vs : pool_key_text h vs = join nul (h :: concat (version_parts <$> vs)).
Proof.
  unfold pool_key_text. rewrite <- concat_cons_nul. f_equal. f_equal.
  induction vs as [|v vs IH]; [done|]. cbn. by rewrite <- IH.
Qed.

Lemma version_parts_inj vs vs' : concat (version_parts <$> vs) = concat (version_parts <$> vs') → vs = vs'.
Proof.
  revert vs'. induction vs as [|[] vs IH]; intros [|[] vs']; try done. cbn. intros [= -> -> -> -> Hv]. f_equal. by apply IH.
Qed.

Lemma pool_key_text_inj h h' vs vs' :
  nul_free h → nul_free h' → Forall plain_version vs → Forall plain_version vs' →
  pool_key_text h vs = pool_key_text h' vs' → h = h' ∧ vs = vs'.
Proof.
  intros Hh Hh' Hv Hv'. rewrite !pool_key_text_join. intros Heq%(f_equal (split_byte (ascii_of_nat 0))).
  assert (∀ vs, Forall plain_version vs → Forall nul_free (concat (version_parts <$> vs))) as Hparts.
  { induction 1 as [|v l Hp Hl IH]; [done|]. by apply (Forall_app _ (version_parts v)). }
  unfold nul in Heq. rewrite !split_byte_join in Heq by (constructor; [done|by apply Hparts]).
  injection Heq as -> Hp. split; [done|]. by apply version_parts_inj.
Qed.

Lemma secretMeta_uses get uses vs :
  secretMeta get uses = Ok vs → (λ v, mkSecretUse (sv_Namespace v) (sv_Name v)) <$> vs = uses.
Proof.
  revert vs. induction uses as [|u uses IH]; intros vs; cbn [secretMeta]; [by intros [= <-]|].
  intros (s & _ & (out & Hout & [= <-])%result_bind_ok)%result_bind_ok. rewrite fmap_cons, (IH out) by done.
  by destruct u.
Qed.

(** The map [prev] of [changedSecrets] finds each version under its own Secret. *)
Lemma prev_lookup (use : secretVersion → secretUse) l (m : gmap secretUse secretVersion) :
  NoDup (use <$> l) →
  (∀ w, w ∈ l → foldl (λ m v, <[use v := v]> m) m l !! use w = Some w) ∧
  (∀ u, u ∉ use <$> l → foldl (λ m v, <[use v := v]> m) m l !! u = m !! u).
Proof.
  revert m. induction l as [|v l IH]; intros m; rewrite ?fmap_cons; simpl.
  - intros _. split; [by intros w ?%elem_of_nil|done].
  - intros [Hv Hl]%NoDup_cons. destruct (IH (<[use v := v]> m) Hl) as [Hin Hout]. split.
    + intros w [-> | Hw]%elem_of_cons; [rewrite Hout by done; apply lookup_insert_eq|by apply Hin].
    + intros u [Hne Hu]%not_elem_of_cons. rewrite Hout by done. by apply lookup_insert_ne.
Qed.

(** [changedSecrets] on two reads of the same Secrets. *)
Lemma changedSecrets_nil get get' uses before after :
  NoDup uses → secretMeta get uses = Ok before → secretMeta get' uses = Ok after →
  changedSecrets before after = [] ↔ before = after.
Proof.
  intros Hnd Hb%secretMeta_uses Ha%secretMeta_uses. unfold changedSecrets.
  set (use := λ v, mkSecretUse (sv_Namespace v) (sv_Name v)) in *.
  change (foldl _ ∅ before) with (foldl (λ m v, <[use v := v]> m) (∅ : gmap secretUse secretVersion) before).
  rewrite <- Hb in Hnd. destruct (prev_lookup use before ∅ Hnd) as [Hin _].
  set (prev := foldl _ _ before) in *. split.
  - intros Hf%fmap_nil_inv. apply (list_eq_same_length _ _ (length before)); [|done|].
    { by rewrite <- (length_fmap use after), <- (length_fmap use before), Ha, Hb. }
    intros i w v _ Hw Hv.
    assert (use w = use v) as Hu.
    { apply (f_equal (fmap use)) in Hw, Hv. rewrite <- list_lookup_fmap in Hw, Hv. rewrite Hb in Hw. rewrite Ha in Hv. rewrite Hw in Hv. simpl in Hv. congruence. }
    apply list_elem_of_lookup_2 in Hw, Hv. destruct (decide (prev !! use v = Some v)) as [He|He].
    + rewrite <- Hu, Hin in He by done. congruence.
    + by destruct (filter_nil_not_elem_of (λ v, prev !! use v ≠ Some v) after v Hf He Hv).
  - intros <-. destruct (filter _ before) as [|v l] eqn:Hf; [done|].
    pose proof (list_elem_of_here v l) as Hv. rewrite <- Hf in Hv. apply list_elem_of_filter in Hv as [Hne Hv].
    by apply Hin in Hv.
Qed.

(** The pool keys a backend by the spec and by the version of every Secret it
    was built from. Over two reads of the Secrets of a spec, and unless SHA-256
    collides on the two texts, the key is unchanged exactly when the spec hash
    and every version are, and [changedSecrets], which names the Secrets to
    report, is empty exactly when no version changed. *)
Theorem pool_key_tracks_secrets `{!Sha256} h h' get get' spec ns before after :
  nul_free h → nul_free h' → Forall plain_version before → Forall plain_version after →
  secretMeta get (referencedSecretRefs spec ns) = Ok before → secretMeta get' (referencedSecretRefs spec ns) = Ok after →
  (sha256_hex (pool_key_text h before) = sha256_hex (pool_key_text h' after) → pool_key_text h before = pool_key_text h' after) →
  (poolEntryKey h before = poolEntryKey h' after ↔ h = h' ∧ before = after) ∧
  (changedSecrets before after = [] ↔ before = after).
Proof.
  intros Hh Hh' Hp Hp' Hb Ha Hcol. split.
  - unfold poolEntryKey. split; [|by intros [-> ->]]. intros Heq%Hcol. by apply pool_key_text_inj.
  - eapply changedSecrets_nil; [apply referenced_NoDup|done..].
Qed.

(** * A tenant's sinks *)
Module SecretsDemo.

Definition ref name ns : option SecretReference := Some (mkSecretReference name ns).

(** A postgres sink with its credentials in its own namespace and its CA in an
    allowlisted one. *)
Definition pg : SinkSecrets :=
  mkSinkSecrets "postgres" (ref "pg" "team-a") (Some (mkTLSSpec "" (ref "ca" "shared"))) None (Some (ref "db" "")) None None None None.

Definition allowed : gset string := SetAllowedSecretRefNamespaces [" shared "; ""].

Definition cluster (rv other : string) (u : secretUse) : result err (option secret) :=
  if decide (u = mkSecretUse "team-a" "pg") then Ok (Some (mkSecret "u1" rv {["password" := "p"]}))
  else if decide (u = mkSecretUse "team-a" "db") then Ok (Some (mkSecret "u2" "1" {["dsn" := "d"]}))
  else if decide (u = mkSecretUse "shared" "ca") then Ok (Some (mkSecret "u3" "1" {["ca.crt" := "PEM"]}))
  else if decide (u = mkSecretUse "team-b" "pg") then Ok (Some (mkSecret "u4" "1" {["password" := other]}))
  else Ok None.

(** A reference into another tenant's namespace is refused, wherever it is. *)
Example foreign_ref_refused :
  ValidateSecretRefNamespaces allowed (mkSinkSecrets "git" (ref "pg" "team-b") None (Some ("ssh", ref "pg" "team-b")) None None None None None) "team-a" =
  ["spec.secretRef.namespace"; "spec.git.auth.secretRef.namespace"].
Proof. vm_compute. reflexivity. Qed.

(** Admission compares the trimmed namespace, a read uses the namespace as
    written: [" team-a "] is admitted and then names no namespace. *)
Example padded_namespace_not_found :
  let spec := mkSinkSecrets "s3" (ref "pg" " team-a ") None None None None None None None in
  ValidateSecretRefNamespaces allowed spec "team-a" = [] ∧
  BuildContextFromSpec (cluster "1" "x") spec "team-a" = Err (PlainReadError (mkSecretUse " team-a " "pg") NotFound).
Proof. vm_compute. done. Qed.

Definition fetched : gmap secretUse secret :=
  match fetchSecrets (cluster "7" "x") (referencedSecretRefs pg "team-a") with Ok secrets => secrets | Err _ => ∅ end.

Lemma fetched_ok : fetchSecrets (cluster "7" "x") (referencedSecretRefs pg "team-a") = Ok fetched.
Proof.
  assert (is_ok (fetchSecrets (cluster "7" "x") (referencedSecretRefs pg "team-a")) = true) as Hok by (vm_compute; reflexivity).
  unfold fetched. by destruct (fetchSecrets _ _).
Qed.

Lemma built_ok : buildContextFromSecrets pg "team-a" fetched =
  Ok (mkBuildContext "PEM" (Some {["password" := "p"]}) (Some {["dsn" := "d"]})).
Proof. vm_compute. reflexivity. Qed.

Lemma pool_build_agrees_witness :
  BuildContextFromSpec (cluster "7" "x") pg "team-a" =
  Ok (mkBuildContext "PEM" (Some {["password" := "p"]}) (Some {["dsn" := "d"]})).
Proof.
  exact (eq_trans (proj1 (pool_build_agrees (cluster "7" "x") pg "team-a" fetched fetched_ok)) built_ok).
Defined.

Lemma admitted_sink_reads_confined_witness :
  BuildContextFromSpec (cluster "7" "x") pg "team-a" = BuildContextFromSpec (cluster "7" "other") pg "team-a".
Proof.
  apply (admitted_sink_reads_confined allowed pg "team-a" (cluster "7" "x") (cluster "7" "other")).
  - done.
  - vm_compute. reflexivity.
  - intros u Hu. unfold cluster. repeat case_decide; try done. subst u. vm_compute in Hu. intuition discriminate.
Defined.

Definition versions (rv : string) : list secretVersion :=
  [mkSecretVersion "team-a" "pg" "u1" rv; mkSecretVersion "team-a" "db" "u2" "1"; mkSecretVersion "shared" "ca" "u3" "1"].

(** A digest that tells one text from the others. *)
Definition digest_of (payload : string) : string :=
  if decide (payload = pool_key_text "h" (versions "1"))
  then "0123456789abcdef0123456789abcdef0123456789abcdef0123456789abcdef"
  else "fedcba9876543210fedcba9876543210fedcba9876543210fedcba9876543210".

#[local] Program Instance demo_sha : Sha256 := {| sha256_hex := digest_of |}.
Next Obligation. intros. unfold digest_of. by case_decide. Qed.
Next Obligation. intros. unfold digest_of. by case_decide. Qed.

(** An updated Secret changes the key. *)
Lemma pool_key_tracks_secrets_witness : poolEntryKey "h" (versions "1") ≠ poolEntryKey "h" (versions "2").
Proof.
  intros Hk.
  refine (_ (proj1 (proj1 (pool_key_tracks_secrets "h" "h" (cluster "1" "x") (cluster "2" "x") pg "team-a"
    (versions "1") (versions "2") _ _ _ _ _ _ _)) Hk)).
  - by intros [_ [=]].
  - done.
  - done.
  - by repeat constructor.
  - by repeat constructor.
  - vm_compute. reflexivity.
  - vm_compute. reflexivity.
  - vm_compute. discriminate.
Defined.
End SecretsDemo.
