(* ===== verification/ReadApi.v ===== *)
(** The read-only inventory HTTP API, [src/internal/inventory]: the bearer-token
    middleware with its cache of access decisions, the list filters, pagination,
    the inventory summary and the status projections.

    The answers of the API server (token review, access review, status objects)
    and the clock readings are arguments. A request is what a handler reads of
    [http.Request]: the path, the query, the path values of the matched pattern
    and the Authorization header. *)

From S2P Require Import Prelude GoStrings Values Store Json Api Errors Envelope Coalesce GoTemplate Conditions.

(** * Requests *)

Record Request := mkRequest {
  rq_Path : string;
  rq_Query : string → string;
  rq_PathValue : string → string;
  rq_Authorization : string;
}.

(** The value [strconv.Atoi] returns, whatever the error: a number out of range
    is clamped, anything else that does not parse is 0. *)
Definition atoi_value (s : string) : Z :=
  let z := match s with
           | String "-" r => Z.opp <$> atoi_digits r
           | String "+" r => atoi_digits r
           | _ => atoi_digits s
           end in
  Z.max min_int64 (Z.min max_int64 (default 0%Z z)).

(** * Filters and pages *)

(** Go: internal/inventory/types.go:12-23 [ListFilter] *)
Record ListFilter := mkListFilter {
  f_Namespace : string;
  f_Inventory : string;
  f_Target : string;
  f_Group : string;
  f_Version : string;
  f_Kind : string;
  f_Name : string;
  f_Limit : Z;
  f_Offset : Z;
}.

(** Go: internal/inventory/types.go:25-31 [Pagination] *)
Record Pagination := mkPagination {
  pg_Limit : Z;
  pg_Offset : Z;
  pg_Total : Z;
  pg_HasMore : bool;
}.

Definition defaultPageLimit : Z := 500.
Definition maxPageLimit : Z := 5000.

(** The namespace and the inventory a request names: the path values of the
    pattern when it has them, else the query. *)
Definition named (r : Request) (path_key query_key : string) : string :=
  if decide (rq_PathValue r path_key ≠ "") then trim_space (rq_PathValue r path_key)
  else trim_space (rq_Query r query_key).

(** Go: internal/inventory/filter.go:19-49 [parseListFilter] *)
Definition parseListFilter (r : Request) : ListFilter :=
  let q key := trim_space (rq_Query r key) in
  let limit := atoi_value (q "limit") in
  let offset := atoi_value (q "offset") in
  let offset := if decide (offset < 0)%Z then 0%Z else offset in
  mkListFilter (named r "namespace" "namespace") (named r "name" "inventory")
    (q "target") (q "group") (q "version") (q "kind") (q "name") limit offset.

(** Go: internal/inventory/filter.go:68-89 [itemMatchesFilter] *)
Definition itemMatchesFilter (item : Item) (f : ListFilter) : bool :=
  if decide (f_Target f ≠ "" ∧ TargetName item ≠ f_Target f) then false
  else if decide (f_Group f ≠ "" ∧ Group item ≠ f_Group f) then false
  else if decide (f_Version f ≠ "" ∧ Version item ≠ f_Version f) then false
  else if decide (f_Kind f ≠ "" ∧ Kind item ≠ f_Kind f) then false
  else if decide (f_Name f ≠ "" ∧ Name item ≠ f_Name f) then false
  else if decide (f_Namespace f ≠ "" ∧ Namespace item ≠ f_Namespace f ∧ TargetNamespace item ≠ f_Namespace f) then false
  else true.

(** Go: internal/inventory/filter.go:51-66 [filterItems] *)
Definition filterItems (items : list Item) (f : ListFilter) : list Item :=
  filter (λ item, Is_true (itemMatchesFilter item f)) items.

(** [items[lo:hi]] for [0 <= lo <= hi <= len(items)]. *)
Definition slice {A} (items : list A) (lo hi : Z) : list A := take (Z.to_nat (hi - lo)) (drop (Z.to_nat lo) items).

(** Go: internal/inventory/filter.go:91-121 [paginateItems] *)
Definition paginateItems (items : list Item) (limit offset : Z) : list Item * option Pagination :=
  let total := Z.of_nat (length items) in
  if decide (total = 0)%Z then ([], None)
  else
    let limit := if decide (limit ≤ 0)%Z then defaultPageLimit else limit in
    let limit := if decide (limit > maxPageLimit)%Z then maxPageLimit else limit in
    let offset := if decide (offset > total)%Z then total else offset in
    let endp := (offset + limit)%Z in
    let endp := if decide (endp > total)%Z then total else endp in
    (slice items offset endp, Some (mkPagination limit offset total (bool_decide (endp < total)%Z))).

(** * Status projections *)

(** Go: internal/inventory/types.go:33-40 [ExportStatus] *)
Record ExportStatus := mkExportStatus {
  es_SinkName : string;
  es_SinkNamespace : string;
  es_Status : string;
  es_LastExportTime : string;
  es_Message : string;
}.

(** The parts of a [KollectInventory] and a [KollectTarget] the API reads. *)
Record KollectInventory := mkKollectInventory {
  ki_Name : string;
  ki_Namespace : string;
  ki_Generation : Z;
  ki_Spec : KollectInventorySpec;
  ki_ObservedGeneration : Z;
  ki_ItemCount : Z;
  ki_Conditions : list Outcome.Condition;
  ki_LastExportTime : option Z;
  ki_SinkExports : list Outcome.InventorySinkExportStatus;
}.

Record TargetObject := mkTargetObject {
  kt_Name : string;
  kt_Namespace : string;
  kt_Generation : Z;
  kt_ObservedGeneration : Z;
  kt_Conditions : list Outcome.Condition;
}.

(** Go: internal/inventory/types.go:55-64 [ResourceStatus] *)
Record ResourceStatus := mkResourceStatus {
  rs_Name : string;
  rs_Namespace : string;
  rs_Generation : Z;
  rs_ObservedGeneration : Z;
  rs_ItemCount : Z;
  rs_Conditions : list Outcome.Condition;
  rs_LastExportTime : string;
}.

Definition statusUnknown : string := "unknown".
Definition statusDegraded : string := "degraded".
Definition ReasonDebounced : string := "Debounced".

(** [t.UTC().Format(time.RFC3339)] on an optional time: whole seconds. *)
Definition format_time (t : option Z) : string :=
  match t with None => "" | Some t => rfc3339nano (t / second * second) end.

(** The switch over a condition's status. *)
Definition status_of (cond : Outcome.Condition) : string :=
  if decide (Outcome.cond_Status cond = "True") then "ok"
  else if decide (Outcome.cond_Status cond = "False") then statusDegraded
  else statusUnknown.

(** Go: internal/inventory/status.go:191-206 [sinkExportStatusFromCondition] *)
Definition sinkExportStatusFromCondition (cond : Outcome.Condition) : string :=
  if decide (Outcome.cond_Reason cond = ReasonDebounced) then "debounced" else status_of cond.

(** Go: internal/inventory/status.go:99-113 [inventoryResourceStatus] *)
Definition inventoryResourceStatus (inv : KollectInventory) : ResourceStatus :=
  mkResourceStatus (ki_Name inv) (ki_Namespace inv) (ki_Generation inv) (ki_ObservedGeneration inv)
    (ki_ItemCount inv) (ki_Conditions inv) (format_time (ki_LastExportTime inv)).

(** Go: internal/inventory/status.go:115-123 [targetResourceStatus] *)
Definition targetResourceStatus (target : TargetObject) : ResourceStatus :=
  mkResourceStatus (kt_Name target) (kt_Namespace target) (kt_Generation target) (kt_ObservedGeneration target)
    0 (kt_Conditions target) "".

(** Go: internal/inventory/status.go:125-189 [exportStatusFromInventory] *)
Definition exportStatusFromInventory `{!ConditionLib} (inv : KollectInventory) : list ExportStatus :=
  let synced := FindStatusCondition (ki_Conditions inv) conditionSynced in
  let status := match synced with Some c => status_of c | None => statusUnknown end in
  let message := match synced with Some c => Outcome.cond_Message c | None => "" end in
  let lastExport := format_time (ki_LastExportTime inv) in
  (λ binding,
    let entryName := binding_Family binding +:+ "/" +:+ binding_Name binding in
    let entry sinkStatus last sinkMessage := mkExportStatus (ref_Name (binding_Ref binding)) (ki_Namespace inv) sinkStatus last sinkMessage in
    match list_find (λ se, Outcome.st_Name se = entryName) (ki_SinkExports inv) with
    | None => entry status lastExport message
    | Some (_, se) =>
        let last := format_time (Outcome.st_LastExportTime se) in
        match FindStatusCondition (Outcome.st_Conditions se) conditionSynced with
        | None => entry status last message
        | Some c => entry (sinkExportStatusFromCondition c) last (Outcome.cond_Message c)
        end
    end) <$> CollectInventorySinkBindings (ki_Spec inv).

(** The objects the API server lists and gets, all of them or of one namespace. *)
Record StatusSource := mkStatusSource {
  list_inventories : result err (list KollectInventory);
  list_targets : result err (list TargetObject);
  get_inventory : string → string → result err KollectInventory;
}.

(** [client.InNamespace], when the namespace is given. *)
Definition in_namespace {A} (ns : A → string) (namespace : string) (l : list A) : list A :=
  if decide (namespace = "") then l else filter (λ x, ns x = namespace) l.

(** Go: internal/inventory/status.go:39-59 [ListInventoryStatus] *)
Definition ListInventoryStatus (src : StatusSource) (namespace : string) : result err (list ResourceStatus) :=
  l ← list_inventories src; Ok (inventoryResourceStatus <$> in_namespace ki_Namespace namespace l).

(** Go: internal/inventory/status.go:61-81 [ListTargetStatus] *)
Definition ListTargetStatus (src : StatusSource) (namespace : string) : result err (list ResourceStatus) :=
  l ← list_targets src; Ok (targetResourceStatus <$> in_namespace kt_Namespace namespace l).

(** Go: internal/inventory/status.go:83-97 [GetInventoryExportStatus] *)
Definition GetInventoryExportStatus `{!ConditionLib} (src : StatusSource) (namespace name : string) : result err (list ExportStatus) :=
  if decide (namespace = "" ∨ name = "") then Ok []
  else inv ← get_inventory src namespace name; Ok (exportStatusFromInventory inv).

(** * The summary *)

(** Go: internal/inventory/types.go:42-53 [InventorySummary] *)
Record InventorySummary := mkInventorySummary {
  is_SchemaVersion : string;
  is_ItemCount : Z;
  is_Namespace : string;
  is_Inventory : string;
  is_Items : list Item;
  is_UpdatedAt : string;
  is_Pagination : option Pagination;
  is_ExportStatus : list ExportStatus;
  is_Checksum : string;
}.

Section summary.
Context `{!MapRange, !SortFunc, !Sha256, !ConditionLib}.

(** Go: internal/inventory/server.go:208-219 [collectItems] *)
Definition collectItems (store : option Store.StoreState) (f : ListFilter) : list Item :=
  match store with
  | None => []
  | Some s =>
      if decide (f_Namespace f = "" ∧ f_Inventory f = "") then Store.summary_Items (Store.Summary "" s).1
      else Store.summary_Items (Store.Summary (f_Namespace f) s).1
  end.

(** Go: internal/inventory/server.go:167-206 [buildSummary] *)
Definition buildSummary (store : option Store.StoreState) (status : option StatusSource) (now : Z) (f : ListFilter) :
    InventorySummary :=
  let items := filterItems (collectItems store f) f in
  let limit := if decide (f_Limit f ≤ 0)%Z then defaultPageLimit else f_Limit f in
  let '(paged, pagination) := paginateItems items limit (f_Offset f) in
  let total := Z.of_nat (length items) in
  let pagination :=
    if decide (items ≠ [] ∧ pagination = None) then Some (mkPagination total 0 total false) else pagination in
  let checksum := match ItemsFingerprint paged with Ok h => h | Err _ => "" end in
  let exportStatus :=
    match status with
    | Some src =>
        if decide (f_Namespace f ≠ "" ∧ f_Inventory f ≠ "") then
          match GetInventoryExportStatus src (f_Namespace f) (f_Inventory f) with Ok l => l | Err _ => [] end
        else []
    | None => []
    end in
  mkInventorySummary ExportSchemaVersion (Z.of_nat (length paged)) (f_Namespace f) (f_Inventory f) paged
    (format_time (Some now)) pagination exportStatus checksum.
End summary.

(** * Authentication and authorisation *)

Definition sarVerbList : string := "list".
Definition sarResourceKollectInventories : string := "kollectinventories".
Definition sarResourceKollectTargets : string := "kollecttargets".

(** Go: internal/inventory/auth_cache.go:13-16 [authCacheEntry] *)
Record authCacheEntry := mkAuthCacheEntry {
  ac_allowed : bool;
  ac_expiresAt : Z;
}.

(** Go: internal/inventory/auth_cache.go:18-22 [authCache] *)
Record authCache := mkAuthCache {
  ac_ttl : Z;
  ac_items : gmap string authCacheEntry;
}.

(** Go: internal/inventory/auth_cache.go:24-30 [newAuthCache] *)
Definition newAuthCache (ttl : Z) : option authCache := if decide (ttl ≤ 0)%Z then None else Some (mkAuthCache ttl ∅).

(** Go: internal/inventory/auth_cache.go:32-46 [get] *)
Definition cache_get (c : option authCache) (now : Z) (key : string) : option bool :=
  match c with
  | None => None
  | Some c =>
      match ac_items c !! key with
      | Some entry => if decide (now > ac_expiresAt entry)%Z then None else Some (ac_allowed entry)
      | None => None
      end
  end.

(** Go: internal/inventory/auth_cache.go:48-60 [set] *)
Definition cache_set (c : option authCache) (now : Z) (key : string) (allowed : bool) : option authCache :=
  match c with
  | None => None
  | Some c => Some (mkAuthCache (ac_ttl c) (<[key := mkAuthCacheEntry allowed (now + ac_ttl c)]> (ac_items c)))
  end.

(** Go: internal/inventory/auth_cache.go:68-70 [authCacheKey] *)
Definition authCacheKey (tokenHash verb namespace name : string) : string :=
  tokenHash +:+ "|" +:+ verb +:+ "|" +:+ namespace +:+ "|" +:+ name.

(** What an access review asks: the resource attributes of the request. *)
Record scope := mkScope {
  sc_namespace : string;
  sc_name : string;
  sc_verb : string;
  sc_resource : string;
}.

(** Go: internal/inventory/auth.go:75-93 [inventoryAuthScope] *)
Definition inventoryAuthScope (r : Request) : string * string * string :=
  let namespace := named r "namespace" "namespace" in
  let name := named r "name" "inventory" in
  (namespace, name, if decide (name ≠ "") then "get" else sarVerbList).

(** Go: internal/inventory/auth.go:61-73 [requestAuthScope] *)
Definition requestAuthScope (r : Request) : scope :=
  if has_prefix "/v1alpha1/status/targets" (rq_Path r) then
    mkScope (trim_space (rq_Query r "namespace")) "" sarVerbList sarResourceKollectTargets
  else if has_prefix "/v1alpha1/status/inventories" (rq_Path r) then
    mkScope (trim_space (rq_Query r "namespace")) "" sarVerbList sarResourceKollectInventories
  else
    let '(namespace, name, verb) := inventoryAuthScope r in
    mkScope namespace name verb sarResourceKollectInventories.

(** The errors of [bearerToken]: no header, another scheme, an empty token. *)
Inductive bearer_error := MissingHeader | NotBearer | EmptyToken.

(** Go: internal/inventory/bearer.go:11-25 [bearerToken] *)
Definition bearerToken (header : string) : result bearer_error string :=
  if decide (header = "") then Err MissingHeader
  else if negb (has_prefix "Bearer " header) then Err NotBearer
  else
    let token := trim_space (trim_prefix "Bearer " header) in
    if decide (token = "") then Err EmptyToken else Ok token.

Record UserInfo := mkUserInfo {
  user_Username : string;
  user_Groups : list string;
}.

(** The API server: the user of a token that authenticates, and whether a user
    may access a scope. *)
Record auth_api := mkAuthApi {
  token_review : string → result err (option UserInfo);
  access_review : UserInfo → scope → result err bool;
}.

(** Go: internal/inventory/auth.go:157-174 [authenticate] *)
Definition authenticate (api : auth_api) (token : string) : option UserInfo :=
  match token_review api token with
  | Err _ => None
  | Ok None => None
  | Ok (Some user) => Some user
  end.

(** Go: internal/inventory/auth.go:176-205 [authorizeResource] *)
Definition authorizeResource (api : auth_api) (user : UserInfo) (sc : scope) : result err bool := access_review api user sc.

(** Go: internal/inventory/auth.go:35-42 [AuthConfig] *)
Record AuthConfig := mkAuthConfig {
  au_Mode : string;
  au_Client : bool;
  au_RequireInventoryGet : bool;
  au_CacheTTL : Z;
  au_cache : option authCache;
}.

Definition AuthModeDisabled : string := "disabled".

(** Go: internal/inventory/auth.go:44-50 [AuthDisabled] *)
Definition AuthDisabled (a : AuthConfig) : bool := bool_decide (au_Mode a = AuthModeDisabled).

Definition set_cache (c : option authCache) (a : AuthConfig) : AuthConfig :=
  mkAuthConfig (au_Mode a) (au_Client a) (au_RequireInventoryGet a) (au_CacheTTL a) c.

(** Go: internal/inventory/auth.go:52-59 [InitCache] *)
Definition InitCache (a : AuthConfig) : AuthConfig :=
  match au_cache a with
  | Some _ => a
  | None => if decide (au_CacheTTL a ≤ 0)%Z then a else set_cache (newAuthCache (au_CacheTTL a)) a
  end.

(** What the middleware does with a request: hand it to the handler, or answer. *)
Inductive decision :=
  | Serve
  | Unauthorized
  | Forbidden
  | ServerError.

#[export] Instance decision_eq_dec : EqDecision decision.
Proof. solve_decision. Defined.

Section middleware.
Context `{!Sha256}.

(** Go: internal/inventory/auth_cache.go:62-66 [tokenHash] *)
Definition tokenHash (token : string) : string := sha256_hex token.

Definition scope_key (token : string) (sc : scope) : string :=
  authCacheKey (tokenHash token) (sc_verb sc) (sc_namespace sc) (sc_name sc +:+ ":" +:+ sc_resource sc).

(** The middleware up to the cache lookup. [None]: the decision needs a review.
    Go: internal/inventory/auth.go:104-125 [Middleware, up to the cache lookup] *)
Definition mw_lookup (a : AuthConfig) (now : Z) (r : Request) : option decision :=
  match bearerToken (rq_Authorization r) with
  | Err _ => Some Unauthorized
  | Ok token =>
      match cache_get (au_cache a) now (scope_key token (requestAuthScope r)) with
      | Some allowed => if au_RequireInventoryGet a && negb allowed then Some Forbidden else Some Serve
      | None => None
      end
  end.

(** The rest of the middleware, after a miss.
    Go: internal/inventory/auth.go:127-153 [Middleware, after a miss] *)
Definition mw_review (api : auth_api) (a : AuthConfig) (now : Z) (r : Request) : decision * AuthConfig :=
  match bearerToken (rq_Authorization r) with
  | Err _ => (Unauthorized, a)
  | Ok token =>
      let sc := requestAuthScope r in
      match authenticate api token with
      | None => (Unauthorized, a)
      | Some user =>
          match (if au_RequireInventoryGet a then authorizeResource api user sc else Ok true) with
          | Err _ => (ServerError, a)
          | Ok allowed =>
              let a := set_cache (cache_set (au_cache a) now (scope_key token sc) allowed) a in
              (if allowed then Serve else Forbidden, a)
          end
      end
  end.

(** Go: internal/inventory/auth.go:95-155 [Middleware] *)
Definition Middleware (api : auth_api) (now_get now_set : Z) (r : Request) (a : AuthConfig) : decision * AuthConfig :=
  if AuthDisabled a || negb (au_Client a) then (Serve, a)
  else
    let a := InitCache a in
    match mw_lookup a now_get r with
    | Some d => (d, a)
    | None => mw_review api a now_set r
    end.
End middleware.

(** * The server *)

(** The patterns [Start] registers. *)
Inductive pattern :=
  | PInventory
  | PInventoryNamed
  | PWatch
  | PStatusInventories
  | PStatusTargets
  | PInventoryDeprecated
  | PWatchDeprecated.

(** What the router promises of a request it hands to a pattern's handler: the
    path of the pattern, path values for its wildcards only. *)
Definition matched (p : pattern) (r : Request) : Prop :=
  match p with
  | PInventory => rq_Path r = "/v1alpha1/inventory" ∧ ∀ k, rq_PathValue r k = ""
  | PInventoryNamed => has_prefix "/v1alpha1/inventory/" (rq_Path r) = true
  | PWatch => rq_Path r = "/v1alpha1/inventory/watch" ∧ ∀ k, rq_PathValue r k = ""
  | PStatusInventories => rq_Path r = "/v1alpha1/status/inventories" ∧ ∀ k, rq_PathValue r k = ""
  | PStatusTargets => rq_Path r = "/v1alpha1/status/targets" ∧ ∀ k, rq_PathValue r k = ""
  | PInventoryDeprecated => rq_Path r = "/inventory" ∧ ∀ k, rq_PathValue r k = ""
  | PWatchDeprecated => rq_Path r = "/inventory/watch" ∧ ∀ k, rq_PathValue r k = ""
  end.

Inductive response :=
  | RSummary (s : InventorySummary)
  | RStatus (items : list ResourceStatus)
  | RRejected (d : decision)
  | RUnavailable
  | RListFailed (e : err).

(** Go: internal/inventory/server.go:20-27 [Server] *)
Record Server := mkServer {
  srv_Store : option Store.StoreState;
  srv_Auth : option AuthConfig;
  srv_Status : option StatusSource;
}.

(** Go: internal/inventory/status.go:216-261 [writeStatusList] *)
Definition writeStatusList (s : Server) (r : Request) (kind : string) : response :=
  match srv_Status s with
  | None => RStatus []
  | Some src =>
      let namespace := trim_space (rq_Query r "namespace") in
      match (if decide (kind = "inventories") then ListInventoryStatus src namespace else ListTargetStatus src namespace) with
      | Ok items => RStatus items
      | Err e => RListFailed e
      end
  end.

Section server.
Context `{!MapRange, !SortFunc, !Sha256, !ConditionLib}.

(** The summary a GET writes.
    Go: internal/inventory/server.go:87-108 [handleInventory] *)
Definition handleInventory (s : Server) (now : Z) (r : Request) : response :=
  RSummary (buildSummary (srv_Store s) (srv_Status s) now (parseListFilter r)).

(** One event of the stream: the first, and one for each signal of the store.
    Go: internal/inventory/server.go:110-165 [handleWatch] *)
Definition handleWatch (s : Server) (now : Z) (r : Request) : response :=
  match srv_Store s with
  | None => RUnavailable
  | Some _ => RSummary (buildSummary (srv_Store s) (srv_Status s) now (parseListFilter r))
  end.

Definition handle (p : pattern) (s : Server) (now : Z) (r : Request) : response :=
  match p with
  | PInventory | PInventoryNamed | PInventoryDeprecated => handleInventory s now r
  | PWatch | PWatchDeprecated => handleWatch s now r
  | PStatusInventories => writeStatusList s r "inventories"
  | PStatusTargets => writeStatusList s r "targets"
  end.

(** A request through the middleware of its pattern.
    Go: internal/inventory/server.go:29-85 [Start] *)
Definition serve (p : pattern) (api : auth_api) (now_get now_set now : Z) (r : Request) (s : Server) : response * Server :=
  match srv_Auth s with
  | None => (handle p s now r, s)
  | Some a =>
      let '(d, a) := Middleware api now_get now_set r a in
      let s := mkServer (srv_Store s) (Some a) (srv_Status s) in
      if decide (d = Serve) then (handle p s now r, s) else (RRejected d, s)
  end.
End server.

(** * The scope a cache key stands for *)

(** Kubernetes names hold no bar; a request may hold any bytes. *)
Definition plain_scope (sc : scope) : Prop :=
  has_byte "|" (sc_namespace sc) = false ∧ has_byte "|" (sc_name sc) = false.

#[export] Instance plain_scope_dec sc : Decision (plain_scope sc).
Proof. unfold plain_scope. apply _. Defined.

(** The verbs and resources of [requestAuthScope]. *)
Definition scope_ok (sc : scope) : Prop :=
  (sc_verb sc = "get" ∨ sc_verb sc = sarVerbList) ∧
  (sc_resource sc = sarResourceKollectInventories ∨ sc_resource sc = sarResourceKollectTargets).

Lemma requestAuthScope_ok r : scope_ok (requestAuthScope r).
Proof.
  unfold requestAuthScope, inventoryAuthScope, scope_ok. do 2 (destruct has_prefix; [by auto|]).
  destruct (decide (named r "name" "inventory" ≠ "")); cbn; auto.
Qed.

Lemma tagged_resource_inj name name' res res' :
  (res = sarResourceKollectInventories ∨ res = sarResourceKollectTargets) →
  (res' = sarResourceKollectInventories ∨ res' = sarResourceKollectTargets) →
  name +:+ ":" +:+ res = name' +:+ ":" +:+ res' → name = name' ∧ res = res'.
Proof.
  intros Hr Hr' Heq%(f_equal (λ s, rev (String.list_ascii_of_string s))).
  assert (∀ a b, String.list_ascii_of_string (a +:+ b) = (String.list_ascii_of_string a ++ String.list_ascii_of_string b)%list) as Happ.
  { induction a as [|c a IH]; intros b; [done|]. rewrite app_cons. cbn. f_equal. apply IH. }
  rewrite !Happ, !rev_app_distr in Heq.
  destruct Hr as [-> | ->], Hr' as [-> | ->]; cbn in Heq; simplify_eq; (split; [|done]);
    apply (f_equal (@rev ascii)) in Heq; rewrite !rev_involutive in Heq;
    by rewrite <- (String.string_of_list_ascii_of_string name), Heq, String.string_of_list_ascii_of_string.
Qed.

Lemma length_split_byte c s : length (split_byte c s) = S (count_byte c s).
Proof.
  induction s as [|d s IH]; [done|]. cbn [split_byte count_byte]. destruct (split_byte_cons c s) as (w & ws & Hw).
  rewrite Hw in *. cbn in IH. repeat case_decide; cbn; try congruence; lia.
Qed.

Section grants.
Context `{!Sha256}.

(** Two requests share a cache entry only when they ask for the same access with
    the same token hash, unless a bar in the namespace or the name of both
    blurs the fields. *)
Lemma scope_key_inj token token' sc sc' :
  plain_scope sc → scope_ok sc → scope_ok sc' → scope_key token sc = scope_key token' sc' →
  tokenHash token = tokenHash token' ∧ sc = sc'.
Proof.
  intros [Hns Hn] [Hv Hr] [Hv' Hr'] Heq. unfold scope_key, authCacheKey in Heq.
  assert (∀ t, has_byte "|" (tokenHash t) = false) as Hh.
  { intros t. eapply string_forall_free; [apply sha256_hex_digits|done]. }
  assert (has_byte "|" (sc_verb sc) = false ∧ has_byte "|" (sc_verb sc') = false) as [Hvb Hvb']
    by (destruct Hv as [-> | ->], Hv' as [-> | ->]; done).
  assert (has_byte "|" (sc_name sc +:+ ":" +:+ sc_resource sc) = false) as Hrb.
  { rewrite !has_byte_app, Hn. by destruct Hr as [-> | ->]. }
  apply (f_equal (split_byte "|")) in Heq.
  assert (∀ x, "|" +:+ x = String "|" x) as Hbar by done. rewrite !Hbar in Heq.
  rewrite !(split_byte_app "|" (tokenHash _)), (split_byte_app "|" (sc_verb sc)), (split_byte_app "|" (sc_verb sc')) in Heq by done.
  injection Heq as Hth Hvv Hrest. split; [done|].
  pose proof (f_equal length Hrest) as Hlen. rewrite (split_byte_app "|" (sc_namespace sc)), (split_byte_none "|" _ Hrb) in Hlen by done.
  rewrite length_split_byte, count_byte_app in Hlen. cbn in Hlen.
  rewrite decide_True in Hlen by done. assert (has_byte "|" (sc_namespace sc') = false) as Hns'.
  { unfold has_byte. destruct (Nat.eqb_spec (count_byte "|" (sc_namespace sc')) 0); [done|lia]. }
  rewrite !(split_byte_app "|") in Hrest by done. rewrite (split_byte_none "|" _ Hrb) in Hrest. injection Hrest as Hnn Hrr.
  rewrite split_byte_none in Hrr.
  - injection Hrr as Hrr. apply tagged_resource_inj in Hrr as [? ?]; [|done..]. destruct sc, sc'; cbn in *; congruence.
  - unfold has_byte. destruct (Nat.eqb_spec (count_byte "|" (sc_name sc' +:+ ":" +:+ sc_resource sc')) 0); [done|lia].
Qed.

(** Requests run concurrently; the cache is read once and written once under its
    lock, so a history is a sequence of lookups and of reviews. *)
Inductive event :=
  | ELookup (now : Z) (r : Request)
  | EReview (api : auth_api) (now : Z) (r : Request).

Definition ev_now (ev : event) : Z := match ev with ELookup now _ | EReview _ now _ => now end.
Definition ev_request (ev : event) : Request := match ev with ELookup _ r | EReview _ _ r => r end.

Definition mw_step (a : AuthConfig) (ev : event) : option decision * AuthConfig :=
  match ev with
  | ELookup now r => (mw_lookup a now r, a)
  | EReview api now r => let '(d, a) := mw_review api a now r in (Some d, a)
  end.

Definition mw_run (a : AuthConfig) (evs : list event) : AuthConfig := foldl (λ a ev, (mw_step a ev).2) a evs.

(** The API server authenticated the token of [ev]'s request and allowed its
    scope. *)
Definition granted (ev : event) (token : string) : Prop :=
  match ev with
  | ELookup _ _ => False
  | EReview api _ r =>
      bearerToken (rq_Authorization r) = Ok token ∧
      ∃ user, authenticate api token = Some user ∧ authorizeResource api user (requestAuthScope r) = Ok true
  end.

(** Every positive entry of the cache comes from a grant, and expires with it. *)
Definition cache_sound (a : AuthConfig) (evs : list event) : Prop :=
  ∀ c key entry, au_cache a = Some c → ac_items c !! key = Some entry → ac_allowed entry = true →
  ∃ ev token, ev ∈ evs ∧ granted ev token ∧ key = scope_key token (requestAuthScope (ev_request ev)) ∧
    ac_expiresAt entry = (ev_now ev + ac_ttl c)%Z.

Lemma mw_step_config a ev :
  au_RequireInventoryGet (mw_step a ev).2 = au_RequireInventoryGet a ∧
  (ac_ttl <$> au_cache (mw_step a ev).2) = (ac_ttl <$> au_cache a).
Proof.
  destruct ev as [now r|api now r]; [done|]. cbn. unfold mw_review.
  destruct (bearerToken (rq_Authorization r)) as [token|]; [|done]. destruct (authenticate api token) as [user|]; [|done].
  destruct (if au_RequireInventoryGet a then _ else _) as [allowed|]; [|done]. by destruct allowed, (au_cache a).
Qed.

Lemma mw_review_grants api a now r :
  au_RequireInventoryGet a = true → (mw_review api a now r).1 = Serve →
  ∃ token, granted (EReview api now r) token.
Proof.
  intros Hreq. unfold mw_review. cbn. rewrite Hreq. destruct (bearerToken (rq_Authorization r)) as [token|]; [|done].
  destruct (authenticate api token) as [user|] eqn:Hu; [|done].
  destruct (authorizeResource api user (requestAuthScope r)) as [[|]|] eqn:Ha; [|done..]. cbn. eauto 6.
Qed.

Lemma mw_step_sound a evs ev :
  au_RequireInventoryGet a = true → cache_sound a evs → cache_sound (mw_step a ev).2 (evs ++ [ev]).
Proof.
  intros Hreq Hs. assert (cache_sound a (evs ++ [ev])) as Hs'.
  { intros c key entry Hc He Ha. destruct (Hs c key entry Hc He Ha) as (ev' & token & ? & ?). exists ev', token. set_solver. }
  destruct ev as [now r|api now r]; [done|]. cbn. unfold mw_review.
  destruct (bearerToken (rq_Authorization r)) as [token|] eqn:Hb; [|done].
  destruct (authenticate api token) as [user|] eqn:Hu; [|done]. rewrite Hreq.
  destruct (authorizeResource api user (requestAuthScope r)) as [allowed|] eqn:Ha; [|done]. cbn.
  intros c key entry. unfold cache_set. destruct (au_cache a) as [c0|] eqn:Hc0; cbn; [|done]. intros [= <-]. cbn.
  destruct (decide (key = scope_key token (requestAuthScope r))) as [->|Hne].
  - rewrite lookup_insert_eq. intros [= <-]. cbn. intros ->. exists (EReview api now r), token. split_and!; [set_solver| |done..].
    cbn. eauto.
  - rewrite lookup_insert_ne by done. by apply Hs'.
Qed.

Lemma mw_run_snoc a evs ev : mw_run a (evs ++ [ev]) = (mw_step (mw_run a evs) ev).2.
Proof. unfold mw_run. by rewrite foldl_app. Qed.

Lemma mw_run_inv a evs :
  au_RequireInventoryGet a = true → cache_sound a [] →
  au_RequireInventoryGet (mw_run a evs) = true ∧ (ac_ttl <$> au_cache (mw_run a evs)) = (ac_ttl <$> au_cache a) ∧
  cache_sound (mw_run a evs) evs.
Proof.
  intros Hreq Hs. induction evs as [|ev evs IH] using rev_ind; [done|]. rewrite mw_run_snoc.
  destruct IH as (Hr & Ht & Hc), (mw_step_config (mw_run a evs) ev) as [Hr' Ht'].
  split_and!; [congruence|congruence|by apply mw_step_sound].
Qed.

(** C32. A request reaches its handler only on a grant of the API server for that
    very access. In any interleaving of lookups and reviews from a fresh cache,
    when the middleware, set to require the inventory grant as the operator sets
    it, serves a request whose namespace and name hold no bar, some review of the
    history, no older than the time to live, authenticated a token with the hash
    of the request's and was allowed the same verb on the same resource, namespace
    and name. *)
Theorem served_on_a_grant a evs ev :
  au_RequireInventoryGet a = true → au_cache a = newAuthCache (au_CacheTTL a) →
  plain_scope (requestAuthScope (ev_request ev)) → (mw_step (mw_run a evs) ev).1 = Some Serve →
  ∃ token token' ev',
    bearerToken (rq_Authorization (ev_request ev)) = Ok token ∧
    ev' ∈ evs ++ [ev] ∧ granted ev' token' ∧ tokenHash token' = tokenHash token ∧
    requestAuthScope (ev_request ev') = requestAuthScope (ev_request ev) ∧
    (ev_now ev ≤ ev_now ev' + Z.max 0 (au_CacheTTL a))%Z.
Proof.
  intros Hreq Hc Hp. assert (cache_sound a []) as Hs0.
  { intros c key entry Hac. rewrite Hc in Hac. unfold newAuthCache in Hac.
    destruct (decide (au_CacheTTL a ≤ 0)%Z); [done|]. injection Hac as <-. cbn; by intros ?%lookup_empty_Some. }
  destruct (mw_run_inv a evs Hreq Hs0) as (Hr & Ht & Hs). destruct ev as [now r|api now r]; cbn [mw_step fst ev_request ev_now] in *.
  - unfold mw_lookup. destruct (bearerToken (rq_Authorization r)) as [token|] eqn:Hb; [|done].
    unfold cache_get. destruct (au_cache (mw_run a evs)) as [c|] eqn:Hac; [|done].
    destruct (ac_items c !! scope_key token (requestAuthScope r)) as [entry|] eqn:He; [|done].
    destruct (decide (now > ac_expiresAt entry)%Z) as [|Hexp]; [done|]. rewrite Hr.
    destruct (ac_allowed entry) eqn:Hal; [|done]. intros _.
    destruct (Hs c _ entry Hac He Hal) as (ev' & token' & Hin & Hg & Hk & Hx).
    apply scope_key_inj in Hk as [Hth Hsc]; [|done|apply requestAuthScope_ok..].
    exists token, token', ev'. split_and!; [done|set_solver|done..|].
    rewrite Hc in Ht. unfold newAuthCache in Ht. destruct (decide (au_CacheTTL a ≤ 0)%Z); [done|]. cbn in Ht. simplify_eq. lia.
  - destruct (mw_review api (mw_run a evs) now r) as [d a'] eqn:Hm. cbn. intros [= ->].
    destruct (mw_review_grants api (mw_run a evs) now r Hr) as [token Hg]; [by rewrite Hm|].
    exists token, token, (EReview api now r). destruct Hg as [Hb Hg]. split_and!; [done|set_solver|by split|done..|cbn; lia].
Qed.
End grants.

(** * What a grant lets a caller read *)

Section confined.
Context `{!MapRange, !SortFunc, !Sha256, !ConditionLib}.

(** Two servers a caller of one namespace cannot tell apart: the rows of the
    namespace's targets and the status objects of the namespace are the same. *)
Definition same_store (ns : string) (st st' : option Store.StoreState) : Prop :=
  match st, st' with
  | Some s, Some s' => default ∅ (Store.shards s !! ns) = default ∅ (Store.shards s' !! ns)
  | None, None => True
  | _, _ => False
  end.

Definition same_list {A} (nsof : A → string) (ns : string) (l l' : result err (list A)) : Prop :=
  match l, l' with
  | Ok l, Ok l' => in_namespace nsof ns l = in_namespace nsof ns l'
  | Err e, Err e' => e = e'
  | _, _ => False
  end.

Definition same_status (ns : string) (src src' : option StatusSource) : Prop :=
  match src, src' with
  | Some src, Some src' =>
      same_list ki_Namespace ns (list_inventories src) (list_inventories src') ∧
      same_list kt_Namespace ns (list_targets src) (list_targets src') ∧
      ∀ name, get_inventory src ns name = get_inventory src' ns name
  | None, None => True
  | _, _ => False
  end.

Lemma summary_items_shard ns s s' :
  ns ≠ "" → default ∅ (Store.shards s !! ns) = default ∅ (Store.shards s' !! ns) →
  Store.summary_Items (Store.Summary ns s).1 = Store.summary_Items (Store.Summary ns s').1.
Proof.
  intros Hns Heq. unfold Store.Summary, Store.SnapshotNamespace, Store.shardFor.
  destruct (Store.shards s !! ns), (Store.shards s' !! ns); cbn in *; rewrite !decide_False by done; cbn; by rewrite ?Heq.
Qed.

Lemma buildSummary_confined ns st st' src src' now f :
  ns ≠ "" → f_Namespace f = ns → same_store ns st st' → same_status ns src src' →
  buildSummary st src now f = buildSummary st' src' now f.
Proof.
  intros Hns Hf Hst Hsrc. unfold buildSummary.
  assert (collectItems st f = collectItems st' f) as ->.
  { unfold collectItems, same_store in *. destruct st as [s|], st' as [s'|]; try done.
    rewrite !decide_False by naive_solver. rewrite Hf. by apply summary_items_shard. }
  destruct (paginateItems _ _ _) as [paged pagination]. f_equal.
  destruct src as [src|], src' as [src'|]; try done. destruct Hsrc as (_ & _ & Hg).
  unfold GetInventoryExportStatus. by rewrite Hf, Hg.
Qed.

(** The scope of each pattern. *)
Lemma matched_scope p r :
  matched p r →
  requestAuthScope r =
    match p with
    | PStatusTargets => mkScope (trim_space (rq_Query r "namespace")) "" sarVerbList sarResourceKollectTargets
    | PStatusInventories => mkScope (trim_space (rq_Query r "namespace")) "" sarVerbList sarResourceKollectInventories
    | _ => mkScope (named r "namespace" "namespace") (named r "name" "inventory") (inventoryAuthScope r).2 sarResourceKollectInventories
    end.
Proof.
  intros Hm. unfold requestAuthScope. destruct p; cbn [matched] in Hm;
    [by destruct Hm as [-> _]|apply has_prefix_true in Hm as [rest ->]; done|by destruct Hm as [-> _]..].
Qed.

Lemma writeStatusList_confined s s' r kind :
  same_status (trim_space (rq_Query r "namespace")) (srv_Status s) (srv_Status s') →
  writeStatusList s r kind = writeStatusList s' r kind.
Proof.
  intros Hsrc. unfold writeStatusList. destruct (srv_Status s) as [src|], (srv_Status s') as [src'|]; try done.
  destruct Hsrc as (Hi & Ht & _). unfold ListInventoryStatus, ListTargetStatus, same_list in *.
  destruct (decide (kind = "inventories")).
  - destruct (list_inventories src), (list_inventories src'); try done; cbn; by rewrite Hi.
  - destruct (list_targets src), (list_targets src'); try done; cbn; by rewrite Ht.
Qed.

(** The access the middleware checks is the access the handler uses. For a
    request of any registered pattern whose checked scope names a namespace, the
    response is determined by that namespace: two servers that agree on the rows
    of the namespace's targets and on its status objects answer alike, and a
    status list of targets is checked against targets, every other response
    against inventories. *)
Theorem response_within_scope p s s' now r :
  let sc := requestAuthScope r in
  matched p r → sc_namespace sc ≠ "" →
  same_store (sc_namespace sc) (srv_Store s) (srv_Store s') → same_status (sc_namespace sc) (srv_Status s) (srv_Status s') →
  handle p s now r = handle p s' now r ∧
  (sc_resource sc = sarResourceKollectTargets ↔ p = PStatusTargets).
Proof.
  intros sc Hm Hns Hst Hsrc. pose proof (matched_scope p r Hm) as Hsc. fold sc in Hsc.
  split; [|rewrite Hsc; by destruct p].
  assert (∀ f, f_Namespace f = sc_namespace sc →
    buildSummary (srv_Store s) (srv_Status s) now f = buildSummary (srv_Store s') (srv_Status s') now f) as Hb.
  { intros f Hf. by eapply buildSummary_confined. }
  destruct p; cbn [handle]; unfold handleInventory, handleWatch; rewrite Hsc in *; cbn [sc_namespace] in *;
    try (by apply writeStatusList_confined); rewrite (Hb (parseListFilter r)) by done; try done;
    unfold same_store in Hst; by destruct (srv_Store s), (srv_Store s').
Qed.
End confined.

(** * Pages *)

(** A client that follows [hasMore] over one order of the items. *)
Fixpoint read_pages (fuel : nat) (items : list Item) (limit offset : Z) : list (list Item) :=
  match fuel with
  | 0 => []
  | S fuel =>
      let '(page, pagination) := paginateItems items limit offset in
      match pagination with
      | Some p => if pg_HasMore p then page :: read_pages fuel items limit (pg_Offset p + pg_Limit p) else [page]
      | None => [page]
      end
  end.

(** The page size in force. *)
Definition effective_limit (limit : Z) : Z := if decide (limit ≤ 0)%Z then defaultPageLimit else Z.min limit maxPageLimit.

Lemma effective_limit_pos limit : (0 < effective_limit limit ≤ maxPageLimit)%Z.
Proof. unfold effective_limit, defaultPageLimit, maxPageLimit. case_decide; lia. Qed.

Lemma paginate_spec items limit offset :
  (0 ≤ offset ≤ Z.of_nat (length items))%Z → items ≠ [] →
  paginateItems items limit offset =
    (take (Z.to_nat (effective_limit limit)) (drop (Z.to_nat offset) items),
     Some (mkPagination (effective_limit limit) offset (Z.of_nat (length items))
       (bool_decide (offset + effective_limit limit < Z.of_nat (length items))%Z))).
Proof.
  intros Ho Hne. unfold paginateItems. rewrite decide_False by (destruct items; [done|cbn; lia]).
  assert ((if decide ((if decide (limit ≤ 0)%Z then defaultPageLimit else limit) > maxPageLimit)%Z then maxPageLimit
           else if decide (limit ≤ 0)%Z then defaultPageLimit else limit) = effective_limit limit) as ->.
  { unfold effective_limit, defaultPageLimit, maxPageLimit. repeat case_decide; lia. }
  rewrite (decide_False (P := (offset > _)%Z)) by lia. pose proof (effective_limit_pos limit) as Hl.
  unfold slice. destruct (decide (offset + effective_limit limit > Z.of_nat (length items))%Z).
  - f_equal.
    + rewrite !take_ge; [done|rewrite length_drop; lia..].
    + by rewrite !bool_decide_false by lia.
  - f_equal. f_equal. lia.
Qed.

Lemma read_pages_from items limit fuel offset :
  (0 ≤ offset ≤ Z.of_nat (length items))%Z → items ≠ [] → length items - Z.to_nat offset < fuel →
  concat (read_pages fuel items limit offset) = drop (Z.to_nat offset) items.
Proof.
  pose proof (effective_limit_pos limit) as Hl.
  revert offset. induction fuel as [|fuel IH]; intros offset Ho Hne Hf; [lia|].
  cbn [read_pages]. rewrite paginate_spec by done. cbn [pg_HasMore pg_Offset pg_Limit].
  case_bool_decide as Hmore.
  - cbn [concat]. rewrite IH by (done || lia). rewrite Z2Nat.inj_add by lia. rewrite <- drop_drop, take_drop. done.
  - cbn [concat]. rewrite List.app_nil_r. apply take_ge. rewrite length_drop. lia.
Qed.

(** Following [hasMore] from the first page reads every item of the list
    once, in order, and ends: the pages concatenate to the items, and none is
    longer than the page size in force, at most 5000. It holds of one order of
    the items. *)
Theorem pages_partition items limit :
  concat (read_pages (S (length items)) items limit 0) = items ∧
  Forall (λ page, length page ≤ Z.to_nat (effective_limit limit)) (read_pages (S (length items)) items limit 0).
Proof.
  split.
  - destruct items as [|i items]; [done|]. rewrite read_pages_from; [done|cbn; lia|done|lia].
  - destruct items as [|i items]; [repeat constructor; cbn; lia|]. 
    assert (∀ fuel offset, (0 ≤ offset ≤ Z.of_nat (length (i :: items)))%Z →
      Forall (λ page, length page ≤ Z.to_nat (effective_limit limit)) (read_pages fuel (i :: items) limit offset)) as Hp.
    { pose proof (effective_limit_pos limit) as Hl.
      induction fuel as [|fuel IH]; intros offset Ho; [constructor|]. cbn [read_pages].
      rewrite paginate_spec by done. cbn [pg_HasMore pg_Offset pg_Limit].
      case_bool_decide; constructor; try (rewrite length_take; lia); [apply IH; lia|constructor]. }
    apply Hp. lia.
Qed.

(** The items of a namespaced request do not depend on the inventory it names. *)
Lemma inventory_name_not_a_filter `{!MapRange} st f name :
  f_Namespace f ≠ "" →
  let f' := mkListFilter (f_Namespace f) name (f_Target f) (f_Group f) (f_Version f) (f_Kind f) (f_Name f) (f_Limit f) (f_Offset f) in
  filterItems (collectItems st f') f' = filterItems (collectItems st f) f.
Proof.
  intros Hns f'. unfold collectItems, f'. cbn [f_Namespace f_Inventory].
  destruct st as [s|]; [|done]. by rewrite !decide_False by naive_solver.
Qed.

(** No entry of the cache is ever dropped: an expired one only stops counting. *)
Lemma cache_never_shrinks `{!Sha256} a evs c :
  au_cache a = Some c → ∃ c', au_cache (mw_run a evs) = Some c' ∧ dom (ac_items c) ⊆ dom (ac_items c').
Proof.
  intros Hc. induction evs as [|ev evs (c' & Hc' & Hd)] using rev_ind; [by exists c|]. rewrite mw_run_snoc.
  destruct ev as [now r|api now r]; [by exists c'|]. cbn. unfold mw_review.
  destruct (bearerToken (rq_Authorization r)); [|by exists c'].
  destruct (authenticate api _); [|by exists c']. destruct (if au_RequireInventoryGet _ then _ else _); [|by exists c'].
  cbn. rewrite Hc'. cbn. eexists. split; [done|]. cbn. rewrite dom_insert. set_solver.
Qed.

(** * Two tenants *)
Module ReadApiDemo.

#[local] Instance demo_sha : Sha256 := demo_sha256.

Definition query (q : list (string * string)) (key : string) : string :=
  match list_find (λ p, p.1 = key) q with Some (_, p) => p.2 | None => "" end.

Definition get (path auth : string) (q : list (string * string)) : Request := mkRequest path (query q) (λ _, "") auth.

(** Tokens name their user; a user may read the namespace of its name. *)
Definition api : auth_api :=
  mkAuthApi (λ token, Ok (Some (mkUserInfo token []))) (λ user sc, Ok (bool_decide (sc_namespace sc = user_Username user))).

Definition config : AuthConfig := mkAuthConfig "kubernetes" true true (30 * second) (newAuthCache (30 * second)).

Definition own : Request := get "/v1alpha1/inventory" "Bearer team-a" [("namespace", "team-a")].
Definition foreign : Request := get "/v1alpha1/inventory" "Bearer team-a" [("namespace", "team-b")].

Example foreign_forbidden : (Middleware api 0 0 foreign config).1 = Forbidden.
Proof. vm_compute. reflexivity. Qed.

Lemma served_on_a_grant_witness :
  ∃ ev', ev' ∈ [EReview api 0 own; ELookup (20 * second) own] ∧
    ∃ token', granted ev' token' ∧ requestAuthScope (ev_request ev') = requestAuthScope own.
Proof.
  destruct (served_on_a_grant config [EReview api 0 own] (ELookup (20 * second) own)) as (token & token' & ev' & _ & Hin & Hg & _ & Hsc & _).
  - done.
  - done.
  - vm_compute. done.
  - vm_compute. reflexivity.
  - exists ev'. split; [exact Hin|]. exists token'. split; [exact Hg|exact Hsc].
Defined.

(** A bar in the query joins two scopes into one cache entry: a grant on the
    inventory ["b|c"] of ["a"] serves a request for ["c"] in ["a|b"]. *)
Example bar_shares_entry :
  scope_key "t" (requestAuthScope (get "/v1alpha1/inventory" "" [("namespace", "a"); ("inventory", "b|c")])) =
  scope_key "t" (requestAuthScope (get "/v1alpha1/inventory" "" [("namespace", "a|b"); ("inventory", "c")])).
Proof. vm_compute. reflexivity. Qed.

(** Refused requests for ever new names fill the cache; an hour later both
    expired entries are still there. *)
Example refused_requests_fill_cache :
  (λ c, size (ac_items c)) <$>
    au_cache (mw_run config
      [EReview api 0 (get "/v1alpha1/inventory" "Bearer team-a" [("namespace", "x1")]);
       EReview api 0 (get "/v1alpha1/inventory" "Bearer team-a" [("namespace", "x2")]);
       EReview api (3600 * second) own]) = Some 3.
Proof. vm_compute. reflexivity. Qed.

Definition row (ns target uid : string) : Item := mkItem ns target ns uid "" "v1" "ConfigMap" uid None.

Definition store (other : list Item) : Store.StoreState :=
  run (OpUpsert <$> [row "team-a" "t" "u1"; row "team-a" "t" "u2"] ++ other) Store.NewStore.

Definition server (other : list Item) : Server := mkServer (Some (store other)) (Some config) None.

#[local] Instance mr : MapRange := map_range_to_list.
#[local] Instance sf : SortFunc := sort_by_merge_sort.

(** Conditions as a list searched from the front. *)
#[local] Instance conds : ConditionLib :=
  {| FindStatusCondition cs t := snd <$> list_find (λ c, Outcome.cond_Type c = t) cs;
     RemoveStatusCondition cs t := filter (λ c, Outcome.cond_Type c ≠ t) cs |}.

Lemma response_within_scope_witness :
  handle PInventory (server [row "team-b" "t" "u3"]) 0 own = handle PInventory (server []) 0 own.
Proof.
  apply (response_within_scope PInventory (server [row "team-b" "t" "u3"]) (server []) 0 own).
  - done.
  - by vm_compute.
  - vm_compute. reflexivity.
  - done.
Defined.

(** The store lists rows in map order, which changes between requests: two
    consecutive pages of one row each can hold the same row and miss the other. *)
Example pages_repeat_rows :
  let page mr offset :=
    UID <$> is_Items (@buildSummary mr sf demo_sha conds (Some (store [])) None 0
      (parseListFilter (get "/v1alpha1/inventory" "" [("namespace", "team-a"); ("limit", "1"); ("offset", offset)]))) in
  page map_range_to_list "0" = page map_range_reversed "1".
Proof. vm_compute. reflexivity. Qed.

(** A debounced sink is reported with a status of its own. *)
Example debounced_status :
  sinkExportStatusFromCondition (Outcome.mkCondition "Synced" "True" "Debounced" "" 1 0) = "debounced".
Proof. reflexivity. Qed.
End ReadApiDemo.
