(* ===== verification/SinkExport.v ===== *)
(** One export to one sink: [src/internal/sink/export.go], the capabilities of
    [cap/capabilities.go] and the circuit breaker of [circuit_breaker.go].

    A backend acts on a world [W]; what acquiring it returns and whether the
    breaker lets a call through are arguments. Metrics are left out. The texts of
    the layout errors and [%q] are the class [ErrorTexts]. *)

From S2P Require Import Prelude GoStrings GoPath Values Store Json Envelope Partition Errors GoTemplate SinkSpec ObjectPath Layout GitTree GitErrors LayoutExport.

(** * Capabilities *)

(** Go: internal/sink/cap/capabilities.go:10-22 [Capabilities] *)
Record Capabilities := mkCapabilities {
  cap_Stream : bool;
  cap_SupportsDelete : bool;
  cap_ObjectStore : bool;
}.

(** Go: internal/sink/cap/capabilities.go:24-27 [SnapshotStore] *)
Definition SnapshotStore : Capabilities := mkCapabilities false false false.
(** Go: internal/sink/cap/capabilities.go:29-32 [ObjectStoreSnapshot] *)
Definition ObjectStoreSnapshot : Capabilities := mkCapabilities false false true.
(** Go: internal/sink/cap/capabilities.go:34-37 [StreamEmitter] *)
Definition StreamEmitter : Capabilities := mkCapabilities true false false.
(** Go: internal/sink/cap/capabilities.go:39-42 [RelationalStore] *)
Definition RelationalStore : Capabilities := mkCapabilities false true false.

(** [None] is the skip.
    Go: internal/sink/cap/capabilities.go:44-61 [ExportPayload] *)
Definition ExportPayload (c : Capabilities) (payload : string) : option string :=
  let payload := if decide (payload = "") then "[]" else payload in
  let trimmed := trim_space payload in
  if decide (trimmed = "[]" ∨ trimmed = "null" ∨ trimmed = "") then
    if cap_SupportsDelete c then Some "[]" else None
  else Some payload.

(** Go: internal/sink/export.go:263-267 [shouldExportForSpill] *)
Definition shouldExportForSpill (c : Capabilities) (maxBytes payloadSize : Z) : bool :=
  negb (spill_RequiresSpill (AssessSpill payloadSize maxBytes)) || cap_ObjectStore c.

(** * Errors *)

Class ErrorTexts := {
  text_of : export_error → string;
  quote : string → string;
}.

(** Go: internal/sink/export.go:29-36 [ErrSpillRequired] *)
Definition ErrSpillRequired : err := Leaf 5 "export payload requires object-store spill".

Definition terminal (e : err) : err := ClassError (Some ErrTerminal) (Some e).
Definition transient (e : err) : err := ClassError (Some ErrTransient) (Some e).

Section errors.
Context `{!ApiErrors, !ErrorTexts}.

(** Go: internal/sink/export.go:269-289 [ExportErrorReason] *)
Definition ExportErrorReason (e : option err) : string :=
  match e with
  | None => "unknown"
  | Some e' =>
      if errors_is 5 e' then "spill_required"
      else if decide (ClassOf e = ClassTerminal) then "terminal"
      else if decide (ClassOf e = ClassForbidden) then "forbidden"
      else "transient"
  end.

(** Go: internal/sink/export.go:235-241 [classifyExportFailure] *)
Definition classifyExportFailure (sinkName : string) (e : err) : err :=
  let wrapped := errorf ("export to " +:+ quote sinkName) e in
  if IsTerminal (Some e) then wrapped else transient wrapped.
End errors.

(** * The circuit breaker *)

(** Why the breaker refuses a call: it is open, or half-open and busy. *)
Inductive refusal := OpenState | TooManyRequests.

Definition refusal_err (r : refusal) : err :=
  match r with OpenState => Leaf 6 "circuit breaker is open" | TooManyRequests => Leaf 7 "too many requests" end.

(** [refused] is what the breaker of [key] decides before the call.
    Go: internal/sink/circuit_breaker.go:26-44 [exportThroughBreaker] *)
Definition exportThroughBreaker `{!ErrorTexts} {W} (key : string) (refused : option refusal) (fn : W → option err * W) (w : W) :
    option err * W :=
  match refused with
  | Some OpenState => (Some (transient (plain ("sink circuit breaker open for " +:+ quote key))), w)
  | Some r => (Some (refusal_err r), w)
  | None => fn w
  end.

(** * The export *)

(** [be_canTree] is whether the backend implements [FileExporter]. *)
Record Backend (W : Type) := mkBackend {
  be_Capabilities : Capabilities;
  be_canTree : bool;
  be_run : export_action → W → option err * W;
}.
Arguments mkBackend {W} _ _ _.
Arguments be_Capabilities {W} _.
Arguments be_canTree {W} _.
Arguments be_run {W} _ _ _.

(** Go: internal/sink/export.go:46-68 [ExportEnvelopeRequest] *)
Record ExportEnvelopeRequest := mkExportEnvelopeRequest {
  req_Registry : bool;
  req_SinkNamespace : string;
  req_SinkName : string;
  req_ObjectPath : string;
  req_Inventory : InventoryIdentity;
  req_Envelope : string;
  req_SinkSpec : KollectSinkSpec;
}.

Section run.
Context `{!UnicodeCase, !Yaml, !SortFunc, !Sha256, !JsonDecode, !ApiErrors, !GitErrorApi, !ErrorTexts}.
Context {W : Type}.

(** Go: internal/sink/export.go:218-233 [checkInventoryIdentity] *)
Definition checkInventoryIdentity (req : ExportEnvelopeRequest) : result err unit :=
  if id_IsZero (req_Inventory req) then Ok tt
  else
    let '(invNS, invName) := InventoryFromObjectPath (req_ObjectPath req) in
    let meta := EnvelopeMetaFromPayload (req_Envelope req) in
    match checkObjectPath (req_Inventory req) (req_ObjectPath req) invNS invName (emeta_PartIndex meta) (emeta_PartTotal meta) with
    | Ok _ => Ok tt
    | Err e => Err (terminal (errorf ("export to " +:+ quote (req_SinkName req)) (plain (text_of e))))
    end.

Definition envelope_err (e : envelope_error) : err := plain (text_of (EnvelopeFailed e)).

(** The envelope the backend is given: the request's, or one of the same header
    around the items the capabilities let through; [None] when there is nothing to
    export. *)
Definition projected_envelope (now : Z) (b : Backend W) (req : ExportEnvelopeRequest) : result err (option string) :=
  let envelope := req_Envelope req in
  itemsJSON ← lift_err (λ e, terminal (envelope_err e)) (ItemsJSONFromEnvelope envelope);
  let remarshal exportItemsJSON :=
    if decide (String.length exportItemsJSON = String.length itemsJSON) then Ok (Some envelope)
    else
      match decode_items exportItemsJSON with
      | None => Err (terminal (plain "decode export items"))
      | Some exportItems =>
          let orig := EnvelopeMetaFromPayload envelope in
          let at' := if decide (emeta_ExportedAt orig = zero_time) then now else emeta_ExportedAt orig in
          let preserved := mkMetadata (emeta_Generation orig) (emeta_Cluster orig) at'
                             (emeta_PartIndex orig) (emeta_PartTotal orig) in
          lift_err (λ e, terminal (envelope_err e)) (Some <$> MarshalEnvelope now exportItems preserved)
      end in
  match ExportPayload (be_Capabilities b) itemsJSON with
  | Some exportItemsJSON => remarshal exportItemsJSON
  | None => if exportsEmptyGitTree (be_canTree b) (req_SinkSpec req) then remarshal "[]" else Ok None
  end.

(** The part after the backend was acquired. *)
Definition run_acquired (now maxBytes : Z) (refused : option refusal) (b : Backend W) (req : ExportEnvelopeRequest)
    (plan : PrunePlan) (w : W) : result err (list string) * PrunePlan * W :=
  match projected_envelope now b req with
  | Err e => (Err e, plan, w)
  | Ok None => (Ok [], plan, w)
  | Ok (Some envelope) =>
      if negb (shouldExportForSpill (be_Capabilities b) maxBytes (Z.of_nat (String.length envelope))) then
        (Err (terminal (Wrap (error_text ErrSpillRequired +:+ ": " +:+ quote (req_SinkName req) +:+ " is " +:+
                 fmt_d (Z.of_nat (String.length envelope)) +:+ " bytes (inline cap " +:+ fmt_d SpillMandatoryBytes +:+ ")")
                 ErrSpillRequired)), plan, w)
      else
        let '(invNS, invName) := InventoryFromObjectPath (req_ObjectPath req) in
        let generation := GenerationFromEnvelope envelope in
        let defaultObjectPath := ObjectPath (req_SinkSpec req) invNS invName generation in
        let '(resolved, plan) := resolveSnapshotExport (be_canTree b) (req_SinkSpec req) envelope invNS invName generation
                                   defaultObjectPath (req_Inventory req) plan in
        match resolved with
        | Err e => (Err (terminal (errorf ("resolve layout for " +:+ quote (req_SinkName req)) (plain (text_of e)))), plan, w)
        | Ok snapshot =>
            let key := req_SinkNamespace req +:+ "/" +:+ req_SinkName req in
            let '(e, w) := exportThroughBreaker key refused (be_run b (se_run snapshot)) w in
            match ClassifyExportError e with
            | Some e => (Err (classifyExportFailure (req_SinkName req) e), plan, w)
            | None => (Ok (se_writtenPaths snapshot), plan, w)
            end
        end
  end.

(** Go: internal/sink/export.go:70-216 [RunExportEnvelope] *)
Definition RunExportEnvelope (now maxBytes : Z) (acquired : result err (Backend W)) (refused : option refusal)
    (req : ExportEnvelopeRequest) (plan : PrunePlan) (w : W) : result err (list string) * PrunePlan * W :=
  if negb (req_Registry req) then (Err (terminal (plain "sink registry is not configured")), plan, w)
  else if decide (sink_Type (req_SinkSpec req) = "") then
    (Err (terminal (plain ("sink spec is required for export to " +:+ quote (req_SinkName req)))), plan, w)
  else
    match checkInventoryIdentity req with
    | Err e => (Err e, plan, w)
    | Ok _ =>
        match acquired with
        | Err e => (Err (errorf ("acquire backend for " +:+ quote (req_SinkName req)) e), plan, w)
        | Ok b => run_acquired now maxBytes refused b req plan w
        end
    end.
End run.
