(* ===== verification/TargetReconcile.v ===== *)
(** The target reconcilers, [src/internal/controller/kollecttarget_controller.go]
    and [kollectclustertarget_controller.go], with the scope enforcement, the
    filter resolution, the finalizers and the sink checks they call.

    One call of [Reconcile] is a function of the engine and of the answers of the
    API server, collected in an environment with one field per request, so that
    every request may fail on its own. The result holds the engine, the status
    that reached the API server, the requeue and the error. A nil engine only
    occurs in tests and is not modelled. *)

From S2P Require Import Prelude GoStrings Values Store Api Filter Scope Errors Scrub Prune Json Envelope Extract Access Engine Intervals Coalesce ExportPass SinkExport Conditions.
Import Outcome Engine.

(** * Sinks of a namespace *)

(** What the API server answers about one sink: whether it resolves, and the
    conditions of the object. *)
Record sink_answer := mkSinkAnswer {
  sa_resolve : result err unit;
  sa_conditions : result err (list Condition);
}.

Definition ConditionConnectionVerified : string := "ConnectionVerified".

Section sinks.
Context `{!ApiErrors, !ConditionLib}.

(** The texts of the messages carry the kind of the family.
    Go: internal/controller/sink_status.go:74-115 [familySinkReachable] *)
Definition familySinkReachable (answer : sink_answer) (found : string) : bool * string * string :=
  match sa_resolve answer with
  | Err e => (false, if api_IsForbidden e then reasonSinkForbidden else reasonSinkNotFound, error_text e)
  | Ok _ =>
      match sa_conditions answer with
      | Err e => (false, "SinkLookupFailed", error_text e)
      | Ok conditions =>
          match FindStatusCondition conditions ConditionConnectionVerified with
          | Some verified =>
              let msg dflt := if decide (cond_Message verified ≠ "") then cond_Message verified else dflt in
              if decide (cond_Status verified = ConditionFalse) then (false, reasonSinkUnreachable, msg "sink connection not verified")
              else if decide (cond_Status verified = ConditionTrue) then (true, ConditionConnectionVerified, msg (found +:+ " connection verified"))
              else (true, "SinkResolved", found +:+ " found")
          | None => (true, "SinkResolved", found +:+ " found")
          end
      end
  end.

(** The loop over the bindings: the first that is not reachable decides. *)
Fixpoint first_unreachable (sink : InventorySinkBinding → sink_answer) (name : InventorySinkBinding → string)
    (bindings : list InventorySinkBinding) : option (string * string) :=
  match bindings with
  | [] => None
  | b :: bindings =>
      match familySinkReachable (sink b) (name b) with
      | (true, _, _) => first_unreachable sink name bindings
      | (false, reason, msg) => Some (reason, msg)
      end
  end.

(** Go: internal/controller/sink_status.go:21-40 [checkInventorySinksReachable] *)
Definition checkInventorySinksReachable (sink : InventorySinkBinding → sink_answer) (name : InventorySinkBinding → string)
    (bindings : list InventorySinkBinding) : bool * string * string :=
  match bindings with
  | [] => (true, "NoSinksConfigured", "no family sink refs configured")
  | _ =>
      match first_unreachable sink name bindings with
      | Some (reason, msg) => (false, reason, msg)
      | None => (true, reasonSinksReachable, pretty (length bindings) +:+ " sink(s) resolved")
      end
  end.

(** Go: internal/controller/sink_status.go:56-72 [uniqueInventorySinkBindings] *)
Definition uniqueInventorySinkBindings (inventories : list KollectInventorySpec) : list InventorySinkBinding :=
  foldl (λ bindings b,
    if decide (sinkExportKey b ∈ sinkExportKey <$> bindings) then bindings else bindings ++ [b])
    [] (inventories ≫= CollectInventorySinkBindings).

(** Go: internal/controller/sink_status.go:42-54 [checkTargetNamespaceSinksReachable] *)
Definition checkTargetNamespaceSinksReachable (inventories : result err (list KollectInventorySpec)) (quoted : string)
    (sink : InventorySinkBinding → sink_answer) (name : InventorySinkBinding → string) : bool * string * string :=
  match inventories with
  | Err e => (false, "InventoryListFailed", "list KollectInventory in " +:+ quoted +:+ ": " +:+ error_text e)
  | Ok l =>
      match uniqueInventorySinkBindings l with
      | [] => (true, "NoSinksInNamespace", "no inventory family sink refs in namespace")
      | bindings => checkInventorySinksReachable sink name bindings
      end
  end.
End sinks.

(** * The objects *)

(** Go: api/v1alpha1/kollecttarget_types.go:47-110 [KollectTargetStatus] *)
Record TargetStatus := mkTargetStatus {
  ts_Conditions : list Condition;
  ts_ObservedGeneration : Z;
  ts_MatchedNamespaces : list string;
  ts_EffectiveNamespaces : list string;
  ts_ActiveResourceRules : nat;
  ts_CollectedCount : option Z;
  ts_CollectedCountUpdatedAt : option Z;
  ts_ExtractionFailures : nat;
  ts_LastExtractionError : string;
}.

Definition set_conditions (cs : list Condition) (s : TargetStatus) : TargetStatus :=
  mkTargetStatus cs (ts_ObservedGeneration s) (ts_MatchedNamespaces s) (ts_EffectiveNamespaces s) (ts_ActiveResourceRules s)
    (ts_CollectedCount s) (ts_CollectedCountUpdatedAt s) (ts_ExtractionFailures s) (ts_LastExtractionError s).
Definition set_observed (g : Z) (s : TargetStatus) : TargetStatus :=
  mkTargetStatus (ts_Conditions s) g (ts_MatchedNamespaces s) (ts_EffectiveNamespaces s) (ts_ActiveResourceRules s)
    (ts_CollectedCount s) (ts_CollectedCountUpdatedAt s) (ts_ExtractionFailures s) (ts_LastExtractionError s).
Definition set_extraction (n : nat) (e : string) (s : TargetStatus) : TargetStatus :=
  mkTargetStatus (ts_Conditions s) (ts_ObservedGeneration s) (ts_MatchedNamespaces s) (ts_EffectiveNamespaces s) (ts_ActiveResourceRules s)
    (ts_CollectedCount s) (ts_CollectedCountUpdatedAt s) n e.
Definition set_count (c t : option Z) (s : TargetStatus) : TargetStatus :=
  mkTargetStatus (ts_Conditions s) (ts_ObservedGeneration s) (ts_MatchedNamespaces s) (ts_EffectiveNamespaces s) (ts_ActiveResourceRules s)
    c t (ts_ExtractionFailures s) (ts_LastExtractionError s).

(** Go: internal/controller/target_filter.go:10-18 [updateTargetFilterStatus] *)
Definition updateTargetFilterStatus (matched effective : list string) (activeRules : nat) (s : TargetStatus) : TargetStatus :=
  mkTargetStatus (ts_Conditions s) (ts_ObservedGeneration s) matched effective activeRules
    (ts_CollectedCount s) (ts_CollectedCountUpdatedAt s) (ts_ExtractionFailures s) (ts_LastExtractionError s).

(** Go: internal/controller/collected_count.go:10-37 [syncCollectedCountFields] *)
Definition syncCollectedCountFields (now : Z) (collected : nat) (s : TargetStatus) : Z * bool * TargetStatus :=
  let next := Z.of_nat collected in
  if decide (ts_CollectedCount s = Some next) then (next, false, s)
  else (next, true, set_count (Some next) (Some now) s).

Record target_obj := mkTargetObj {
  to_Target : KollectTarget;
  to_Finalizers : list string;
  to_Deleting : bool;
  to_Status : TargetStatus;
}.

Definition targetCleanupFinalizer : string := "kollect.dev/target-cleanup".

(** * One reconcile *)

(** The answers to the requests of one reconcile: the three reads of the scope
    and the namespace lists are separate requests. *)
Record target_env := mkTargetEnv {
  te_get : result err target_obj;
  te_update : option err;
  te_isConflict : err → bool;
  te_profile : result err KollectProfile;
  te_scope_policy : option (list KollectScope);
  te_scope_intent : option (list KollectScope);
  te_scope_register : option (list KollectScope);
  te_ns_intent : option (list (string * NamespaceMeta));
  te_ns_register : option (list (string * NamespaceMeta));
  te_ns_engine : option (list (string * NamespaceMeta));
  te_informer : option err;
  te_inventories : result err (list KollectInventorySpec);
  te_sink : InventorySinkBinding → sink_answer;
  te_sink_name : InventorySinkBinding → string;
  te_status : option err;
  te_now : Z;
  te_resync : Z;
  te_violation : violation → string;
  te_compile : compile_error → string;
}.

Definition scopeReasonLookupFailed : string := "ScopeLookupFailed".
Definition scopeReasonGVKDenied : string := "ScopeGVKDenied".
Definition scopeReasonNSDenied : string := "ScopeNamespaceDenied".

Section reconcile.
Context `{!KubeApi, !CelApi, !MapRange, !UnicodeCase, !ExtractApi, !Sha256, !SpecJson}.
Context `{!ApiErrors, !ConditionApi, !ConditionLib, !ErrorTexts}.
(** The result: [out_Saved] is the status this reconcile wrote, when it wrote
    one; [out_Finalizers] likewise. *)
Record outcome := mkReconciled {
  out_Engine : EngineState;
  out_Saved : option TargetStatus;
  out_Finalizers : option (list string);
  out_RequeueAfter : Z;
  out_Err : option err;
  out_Events : list string;
}.

Variable env : target_env.

(** Go: internal/controller/target_filter_resolve.go:19-26 [scopeCeilingForTarget] *)
Definition scopeCeilingForTarget (listed : option (list KollectScope)) : ScopeCeiling :=
  match Load listed with
  | Ok b => if Enforced b then ScopeCeilingFromScope (binding_Scope b) else mkScopeCeiling [] []
  | Err _ => mkScopeCeiling [] []
  end.

(** A failed refresh is logged and the old cache is used.
    Go: internal/controller/target_filter_resolve.go:28-63 [resolveTargetFilterStatus] *)
Definition resolveTargetFilterStatus (listed : option (list KollectScope)) (kube : option (list (string * NamespaceMeta)))
    (target : KollectTarget) (e : EngineState) : list string * list string * nat * ScopeCeiling * EngineState :=
  let ceiling := scopeCeilingForTarget listed in
  let e := (RefreshNamespaces (Some kube) e).2 in
  let '(matched, effective, activeRules) :=
    ComputeFilterStatus (target_Filter (target_Spec target)) (target_NamespaceSelector (target_Spec target))
      (NamespaceMetaSnapshot e) ceiling (NamespaceDefaultsSnapshot e) in
  (matched, effective, activeRules, ceiling, e).

(** [None]: the scope lets the target pass; [Some]: the reason and the message of
    the denial. The second component is the engine after the refresh.
    Go: internal/controller/scope_check.go:31-73 [enforceTarget] *)
Definition enforceTarget (target : KollectTarget) (profile : KollectProfile) (e : EngineState) :
    option (string * string) * EngineState :=
  match Load (te_scope_policy env) with
  | Err v => (Some (scopeReasonLookupFailed, te_violation env v), e)
  | Ok binding =>
      if negb (Enforced binding) then (None, e)
      else
        let gvks := CollectRuleGVKs (target_Filter (target_Spec target)) (profile_TargetGVK (profile_Spec profile)) in
        match ValidateResourceRuleGVKs (binding_Scope binding) gvks with
        | Err v => (Some (scopeReasonGVKDenied, te_violation env v), e)
        | Ok _ =>
            let '(matched, effective, _, _, e) := resolveTargetFilterStatus (te_scope_intent env) (te_ns_intent env) target e in
            let intentNS := if decide (length matched = 0) then effective else matched in
            let intentNS := if decide (length intentNS = 0) then [target_Namespace target] else intentNS in
            match ValidateTargetIncludedNamespaces (binding_Scope binding) intentNS with
            | Err v => (Some (scopeReasonNSDenied, te_violation env v), e)
            | Ok _ =>
                if decide (0 < length effective) then
                  match ValidateWorkloadNamespaces (binding_Scope binding) effective with
                  | Err v => (Some (scopeReasonNSDenied, te_violation env v), e)
                  | Ok _ => (None, e)
                  end
                else (None, e)
            end
        end
  end.

(** The conditions of a degraded target, and whether they are written.
    Go: internal/controller/kollecttarget_controller.go:273-287 [setDegraded] *)
Definition setDegraded (target : KollectTarget) (s : TargetStatus) (reason message : string) : option TargetStatus * option err :=
  let cs := RemoveStatusCondition (RemoveStatusCondition (ts_Conditions s) conditionReady) conditionSynced in
  let cs := setSinkReachableCondition (te_now env) cs (target_Generation target) false reason message in
  let '(written, cs) := setTargetCondition (te_now env) (target_Generation target) cs conditionDegraded reason message in
  if written then
    match te_status env with
    | None => (Some (set_conditions cs s), None)
    | Some e => (None, Some e)
    end
  else (None, None).

Definition degraded (target : KollectTarget) (s : TargetStatus) (fin : option (list string)) (events : list string)
    (reason message : string) (e : EngineState) : outcome :=
  let '(saved, er) := setDegraded target s reason message in mkReconciled e saved fin 0 er events.

(** Go: internal/controller/kollecttarget_controller.go:159-190 [degradeScopeDenied] *)
Definition degradeScopeDenied (target : KollectTarget) (s : TargetStatus) (fin : option (list string)) (reason message : string)
    (e : EngineState) : outcome :=
  let e := UnregisterTarget (target_Namespace target) (target_Name target) e in
  let '(saved, er) := setDegraded target s reason message in
  let er := match er with
            | Some er => Some er
            | None =>
                if decide (reason = scopeReasonLookupFailed)
                then Some (Leaf 0 ("KollectScope lookup failed for " +:+ target_Namespace target +:+ "/" +:+ target_Name target +:+ ": " +:+ message))
                else None
            end in
  mkReconciled e saved fin 0 er (if decide (reason = scopeReasonLookupFailed) then [] else [reason]).

(** Go: internal/controller/kollecttarget_controller.go:303-360 [setReady] *)
Definition setReady (target : KollectTarget) (s : TargetStatus) (fin : option (list string)) (events : list string) (collected : nat)
    (sinkReason sinkMsg scopeReason scopeMsg : string) (e : EngineState) : outcome :=
  let generation := target_Generation target in
  let cs := RemoveStatusCondition (ts_Conditions s) conditionDegraded in
  let s := set_observed generation s in
  let '(count, countChanged, s) := syncCollectedCountFields (te_now env) collected s in
  let msg := "profileRef " +:+ quote (target_ProfileRef (target_Spec target)) +:+ " resolved; collecting " +:+
             fmt_d count +:+ " resource(s)" in
  let sinkMsg := if decide (sinkMsg = "") then "namespace inventory sinks reachable" else sinkMsg in
  let cs := setSinkReachableCondition (te_now env) cs generation true sinkReason sinkMsg in
  let '(syncedReason, syncedMsg) :=
    if decide (scopeReason ≠ "") then (scopeReason, scopeMsg) else (reasonCollecting, msg) in
  let cs := setSyncedCondition generation true syncedReason syncedMsg (te_now env) cs in
  let '(written, cs) := setTargetCondition (te_now env) generation cs conditionReady reasonCollecting msg in
  let s := set_conditions cs s in
  let events := events ++ [sinkReason] in
  if written || countChanged then
    match te_status env with
    | None => mkReconciled e (Some s) fin (te_resync env) None events
    | Some er => mkReconciled e None fin 0 (Some er) events
    end
  else mkReconciled e None fin (te_resync env) None events.

(** Go: internal/controller/kollecttarget_controller.go:212-271 [applyTargetReadyState] *)
Definition applyTargetReadyState (target : KollectTarget) (s : TargetStatus) (fin : option (list string)) (count : nat)
    (forbiddenScope accessCheckFailed : bool) (extractFailCount : nat) (lastExtractErr : string) (e : EngineState) : outcome :=
  let s := set_extraction extractFailCount lastExtractErr s in
  let scopeReason := if forbiddenScope then reasonScopeForbidden else "" in
  let scopeMsg := if forbiddenScope
    then "RBAC denied list access for one or more scoped namespaces; partial collection continues for allowed namespaces" else "" in
  let events := if forbiddenScope then [reasonScopeForbidden] else [] in
  if accessCheckFailed then
    degraded target s fin events "AccessCheckFailed"
      "RBAC access review API failed; collection paused until access checks succeed" e
  else if decide (0 < extractFailCount) then
    degraded target s fin (events ++ [reasonExtractionFailed]) reasonExtractionFailed
      (pretty extractFailCount +:+ " resource(s) failed attribute extraction: " +:+ lastExtractErr) e
  else
    match checkTargetNamespaceSinksReachable (te_inventories env) (quote (target_Namespace target)) (te_sink env) (te_sink_name env) with
    | (false, reason, msg) => degraded target s fin (events ++ [reason]) reason msg e
    | (true, reason, msg) => setReady target s fin events count reason msg scopeReason scopeMsg e
    end.

(** Go: internal/controller/kollecttarget_controller.go:192-210 [reconcileTargetReady] *)
Definition reconcileTargetReady (target : KollectTarget) (s : TargetStatus) (fin : option (list string)) (e : EngineState) : outcome :=
  let ns := target_Namespace target in
  let name := target_Name target in
  let '(failures, lastErr) := ExtractFailures ns name e in
  applyTargetReadyState target s fin (ItemCount ns name e) (HasForbiddenScope ns name e) (HasAccessCheckFailure ns name e)
    failures lastErr e.

(** Registration, whose error is the one of the rules or of the informer. *)
Definition register (target : KollectTarget) (profile : KollectProfile) (opts : RegisterTargetOptions) (e : EngineState) :
    option string * EngineState :=
  match RegisterTarget (Some (te_ns_engine env)) target profile opts e with
  | (Err er, e) => (Some ("compile resourceRules: " +:+ te_compile env er), e)
  | (Ok (Some _), e) => (error_text <$> te_informer env, e)
  | (Ok None, e) => (None, e)
  end.

(** The body of [Reconcile] below the finalizer, for a target that is not
    suspended and whose profile was found.
    Go: internal/controller/kollecttarget_controller.go:118-155 [Reconcile, after the profile was read] *)
Definition reconcile_with_profile (target : KollectTarget) (profile : KollectProfile) (s : TargetStatus) (fin : option (list string))
    (e : EngineState) : outcome :=
  match enforceTarget target profile e with
  | (Some (reason, msg), e) => degradeScopeDenied target s fin reason msg e
  | (None, e) =>
      let '(matched, effective, activeRules, ceiling, e) :=
        resolveTargetFilterStatus (te_scope_register env) (te_ns_register env) target e in
      let s := updateTargetFilterStatus matched effective activeRules s in
      match register target profile (mkRegisterOptions ceiling effective) e with
      | (Some msg, e) => degraded target s fin [] "InformerRegistrationFailed" msg e
      | (None, e) => reconcileTargetReady target s fin e
      end
  end.

(** Go: internal/controller/target_finalizer.go:45-58 [finalizeTargetDeletion] *)
Definition finalizeTargetDeletion (obj : target_obj) (e : EngineState) : outcome :=
  let target := to_Target obj in
  if negb (bool_decide (targetCleanupFinalizer ∈ to_Finalizers obj)) then mkReconciled e None None 0 None []
  else
    let e := UnregisterTarget (target_Namespace target) (target_Name target) e in
    match te_update env with
    | None => mkReconciled e None (Some (filter (λ f, f ≠ targetCleanupFinalizer) (to_Finalizers obj))) 0 None []
    | Some er => if te_isConflict env er then mkReconciled e None None second None [] else mkReconciled e None None 0 (Some er) []
    end.

(** Go: internal/controller/kollecttarget_controller.go:44-157 [Reconcile] *)
Definition Reconcile (namespace name : string) (e : EngineState) : outcome :=
  match te_get env with
  | Err er =>
      if api_IsNotFound er then mkReconciled (UnregisterTarget namespace name e) None None 0 None []
      else mkReconciled e None None 0 (Some er) []
  | Ok obj =>
      let target := to_Target obj in
      let spec := target_Spec target in
      if to_Deleting obj then finalizeTargetDeletion obj e
      else
        let present := bool_decide (targetCleanupFinalizer ∈ to_Finalizers obj) in
        match (if present then None else te_update env) with
        | Some er => if te_isConflict env er then mkReconciled e None None second None [] else mkReconciled e None None 0 (Some er) []
        | None =>
            let fin := if present then None else Some (to_Finalizers obj ++ [targetCleanupFinalizer]) in
            let s := to_Status obj in
            if target_Suspend spec then
              degraded target s fin [] "Suspended" "spec.suspend is true"
                (UnregisterTarget (target_Namespace target) (target_Name target) e)
            else if decide (target_ProfileRef spec = "") then
              degraded target s fin [] "MissingProfileRef" "spec.profileRef is required" e
            else
              match te_profile env with
              | Err er =>
                  if api_IsNotFound er then
                    degraded target s fin [] "ProfileNotFound"
                      ("KollectProfile " +:+ quote (target_ProfileRef spec) +:+ " not found in namespace " +:+ quote (target_Namespace target)) e
                  else mkReconciled e None fin 0 (Some er) []
              | Ok profile => reconcile_with_profile target profile s fin e
              end
        end
  end.
End reconcile.

(** * What one reconcile establishes *)

Section properties.
Context `{!KubeApi, !CelApi, !MapRange, !UnicodeCase, !ExtractApi, !Sha256, !SpecJson}.
Context `{!ApiErrors, !ConditionApi, !ConditionLib, !ErrorTexts}.
Implicit Types (env : target_env) (e : EngineState) (target : KollectTarget) (profile : KollectProfile).

Definition key_of target : string := Store.targetKey (target_Namespace target) (target_Name target).

(** The engine no longer collects for a target and holds none of its rows. *)
Definition stopped (ns name : string) e : Prop :=
  targets e !! Store.targetKey ns name = None ∧
  ∀ uid, rows (estore e) !! (ns, name, uid) = None.

Lemma UnregisterTarget_targets ns name e :
  targets (UnregisterTarget ns name e) = delete (Store.targetKey ns name) (targets e).
Proof. unfold UnregisterTarget, set_estore. cbn [targets]. by destruct (unregister_locked_eq (Store.targetKey ns name) e) as (-> & _). Qed.

Lemma UnregisterTarget_stopped ns name e : stopped ns name (UnregisterTarget ns name e).
Proof.
  split.
  - rewrite UnregisterTarget_targets. apply lookup_delete_eq.
  - intros uid. unfold UnregisterTarget, set_estore. cbn [estore]. rewrite rows_RemoveTarget. apply map_lookup_filter_None. right. naive_solver.
Qed.

(** The finalizer is on the object, or was added. *)
Definition finalizer_held env (obj : target_obj) : Prop :=
  targetCleanupFinalizer ∈ to_Finalizers obj ∨ te_update env = None.

(** The reasons to stop: the target is gone or is being deleted with the finalizer
    on it; or the finalizer is held and the target is suspended, or its profile was
    read and the scope denies it, which a scope that cannot be read does. *)
Definition must_stop env e : Prop :=
  match te_get env with
  | Err er => api_IsNotFound er = true
  | Ok obj =>
      let target := to_Target obj in
      if to_Deleting obj then targetCleanupFinalizer ∈ to_Finalizers obj
      else
        finalizer_held env obj ∧
        (target_Suspend (target_Spec target) = true ∨
         target_ProfileRef (target_Spec target) ≠ "" ∧
         ∃ profile, te_profile env = Ok profile ∧ is_Some (enforceTarget env target profile e).1)
  end.

(** The scope in force could not be read. *)
Definition scope_unreadable env : Prop := te_scope_policy env = None.

Lemma enforceTarget_unreadable env target profile e :
  scope_unreadable env ↔ ∃ msg, (enforceTarget env target profile e).1 = Some (scopeReasonLookupFailed, msg).
Proof.
  unfold scope_unreadable, enforceTarget, Load. destruct (te_scope_policy env) as [[|s l]|]; cbn [negb Enforced].
  - split; [done|]. by intros [? ?].
  - split; [done|]. intros [msg Hm]. exfalso. revert Hm.
    destruct (ValidateResourceRuleGVKs _ _); [|done].
    destruct (resolveTargetFilterStatus _ _ _ _) as [[[[m f] ?] ?] ?].
    destruct (ValidateTargetIncludedNamespaces _ _); [|done]. case_decide; [|done]. by destruct (ValidateWorkloadNamespaces _ _).
  - split; [|done]. cbn. eauto.
Qed.

Lemma finalizer_step env obj :
  finalizer_held env obj →
  (if bool_decide (targetCleanupFinalizer ∈ to_Finalizers obj) then None else te_update env) = None.
Proof. intros [Hf|Hu]; [by rewrite bool_decide_true|rewrite Hu; by case_bool_decide]. Qed.

Lemma degraded_engine env target s fin events reason msg e :
  out_Engine (degraded env target s fin events reason msg e) = e.
Proof. unfold degraded. by destruct (setDegraded env target s reason msg). Qed.

Lemma degradeScopeDenied_engine env target s fin reason msg e :
  out_Engine (degradeScopeDenied env target s fin reason msg e) = UnregisterTarget (target_Namespace target) (target_Name target) e.
Proof. unfold degradeScopeDenied. by destruct (setDegraded env target s reason msg). Qed.

(** The reasons to leave a target as it is: it could not be read, it is being
    deleted and the finalizer is not on it, the finalizer could not be added, or its
    profile is not named, not there or could not be read. *)
Definition on_hold env : Prop :=
  match te_get env with
  | Err er => api_IsNotFound er = false
  | Ok obj =>
      let spec := target_Spec (to_Target obj) in
      if to_Deleting obj then targetCleanupFinalizer ∉ to_Finalizers obj
      else ¬ finalizer_held env obj ∨
           (target_Suspend spec = false ∧ (target_ProfileRef spec = "" ∨ ∃ er, te_profile env = Err er))
  end.

(** Those of them that are a request that failed. *)
Definition request_failed env : Prop :=
  match te_get env with
  | Err er => api_IsNotFound er = false
  | Ok obj =>
      let spec := target_Spec (to_Target obj) in
      to_Deleting obj = false ∧
      (¬ finalizer_held env obj ∨
       (target_Suspend spec = false ∧ target_ProfileRef spec ≠ "" ∧ ∃ er, te_profile env = Err er ∧ api_IsNotFound er = false))
  end.

#[local] Instance finalizer_held_dec env obj : Decision (finalizer_held env obj) := _.

Lemma finalizer_refused env obj :
  ¬ finalizer_held env obj →
  ∃ er, te_update env = Some er ∧ (if bool_decide (targetCleanupFinalizer ∈ to_Finalizers obj) then None else te_update env) = Some er.
Proof.
  intros Hn. unfold finalizer_held in Hn. destruct (te_update env) as [er|]; [|tauto]. exists er. split; [done|].
  rewrite bool_decide_false by tauto. done.
Qed.

Lemma hold_keeps_engine env ns name e :
  on_hold env →
  out_Engine (Reconcile env ns name e) = e ∧
  (request_failed env → is_Some (out_Err (Reconcile env ns name e)) ∨ out_RequeueAfter (Reconcile env ns name e) = second).
Proof.
  unfold on_hold, request_failed, Reconcile. destruct (te_get env) as [obj|er]; [|intros ->; cbn; eauto].
  destruct (to_Deleting obj).
  { intros Hn. unfold finalizeTargetDeletion. rewrite bool_decide_false by done. by split; [|intros [? _]]. }
  destruct (decide (finalizer_held env obj)) as [Hh|Hh].
  - rewrite finalizer_step by done. intros [?|[-> Hp]]; [done|]. case_decide as Hr.
    { rewrite degraded_engine. split; [done|]. by intros [_ [?|(_ & ? & _)]]. }
    destruct Hp as [?|[er Her]]; [done|]. rewrite Her. destruct (api_IsNotFound er) eqn:Hnf.
    + rewrite degraded_engine. split; [done|]. intros [_ [?|(_ & _ & er' & [= <-] & ?)]]; congruence.
    + cbn. split; [done|]. left. by eexists.
  - intros _. destruct (finalizer_refused env obj Hh) as (er & _ & ->). destruct (te_isConflict env er); cbn; eauto.
Qed.

Lemma stop_unregisters env ns name e :
  (∀ obj, te_get env = Ok obj → target_Namespace (to_Target obj) = ns ∧ target_Name (to_Target obj) = name) →
  must_stop env e →
  stopped ns name (out_Engine (Reconcile env ns name e)) ∧
  (scope_unreadable env → ∀ obj, te_get env = Ok obj → to_Deleting obj = false → target_Suspend (target_Spec (to_Target obj)) = false →
   is_Some (out_Err (Reconcile env ns name e))).
Proof.
  intros Hid Hstop. unfold must_stop, Reconcile in *. destruct (te_get env) as [obj|er].
  2: { rewrite Hstop. split; [apply UnregisterTarget_stopped|done]. }
  destruct (Hid obj eq_refl) as [Hns Hname]. destruct (to_Deleting obj) eqn:Hdel.
  { split; [|intros _ obj' [= <-]; congruence]. unfold finalizeTargetDeletion. rewrite bool_decide_true by done. cbn [negb].
    rewrite Hns, Hname. destruct (te_update env) as [er|]; [destruct (te_isConflict env er)|]; apply UnregisterTarget_stopped. }
  destruct Hstop as [Hfin Hwhy]. rewrite finalizer_step by done.
  destruct (target_Suspend (target_Spec (to_Target obj))) eqn:Hsus.
  { split; [|intros _ obj' [= <-]; congruence]. rewrite degraded_engine, Hns, Hname. apply UnregisterTarget_stopped. }
  destruct Hwhy as [?|(Hp & profile & Hprof & Hden)]; [done|]. rewrite decide_False, Hprof by done.
  unfold reconcile_with_profile. pose proof (enforceTarget_unreadable env (to_Target obj) profile e) as Hun.
  destruct (enforceTarget env (to_Target obj) profile e) as [[[reason msg]|] e1]; [|by destruct Hden].
  split; [rewrite degradeScopeDenied_engine, Hns, Hname; apply UnregisterTarget_stopped|].
  intros Hr _ _ _ _. apply Hun in Hr as [msg' [= -> ->]]. unfold degradeScopeDenied.
  destruct (setDegraded env (to_Target obj) (to_Status obj) scopeReasonLookupFailed msg') as [saved [er|]]; cbn; eauto.
Qed.

(** C23. What a reconcile of a target does to what is collected for it, by three cases
    that leave none out. It stops a target that is gone, that is being deleted with
    the finalizer on it, or, the finalizer being held or added, that is suspended or
    whose profile was read and that the scope denies, as a scope that cannot be read
    does: the target is unregistered and its rows are removed before the reconcile
    returns, whatever the status write answers, and after a scope that could not be
    read the reconcile of a target that is neither deleted nor suspended ends in an
    error, so that it is retried. It leaves the engine as it was when the target
    could not be read, is being deleted without the finalizer, when the finalizer
    could not be added, or when the profile of a target that is not suspended is not
    named, not there or could not be read; a request that failed ends in an error or
    comes back after a second. In every other pass the target is live, its profile
    was read and the scope lets it pass. *)
Theorem reconcile_stops_or_holds env ns name e :
  (∀ obj, te_get env = Ok obj → target_Namespace (to_Target obj) = ns ∧ target_Name (to_Target obj) = name) →
  let o := Reconcile env ns name e in
  (must_stop env e →
     stopped ns name (out_Engine o) ∧
     (scope_unreadable env → ∀ obj, te_get env = Ok obj → to_Deleting obj = false →
        target_Suspend (target_Spec (to_Target obj)) = false → is_Some (out_Err o))) ∧
  (on_hold env → out_Engine o = e ∧ (request_failed env → is_Some (out_Err o) ∨ out_RequeueAfter o = second)) ∧
  (must_stop env e ∨ on_hold env ∨
   ∃ obj profile, te_get env = Ok obj ∧ to_Deleting obj = false ∧ finalizer_held env obj ∧
     target_Suspend (target_Spec (to_Target obj)) = false ∧ te_profile env = Ok profile ∧
     (enforceTarget env (to_Target obj) profile e).1 = None).
Proof.
  intros Hid o. split; [by apply stop_unregisters|]. split; [by apply hold_keeps_engine|].
  unfold must_stop, on_hold. destruct (te_get env) as [obj|er]; [|destruct (api_IsNotFound er); tauto].
  destruct (to_Deleting obj) eqn:Hdel. { destruct (decide (targetCleanupFinalizer ∈ to_Finalizers obj)); tauto. }
  destruct (decide (finalizer_held env obj)) as [Hh|]; [|tauto].
  destruct (target_Suspend (target_Spec (to_Target obj))) eqn:Hsus; [tauto|].
  destruct (decide (target_ProfileRef (target_Spec (to_Target obj)) = "")) as [|Hp]; [tauto|].
  destruct (te_profile env) as [profile|er] eqn:Hprof; [|eauto 8].
  destruct (enforceTarget env (to_Target obj) profile e).1 eqn:Hen; [left|right; right].
  - split; [done|]. right. split; [done|]. exists profile. rewrite Hen. split; [done|]. by eexists.
  - exists obj, profile. by rewrite Hsus, Hen.
Qed.

(** ** The registration that is left *)

(** A namespace the scope admits workloads from. *)
Definition scope_admits (sc : KollectScope) (ns : string) : Prop :=
  ns ∉ DeniedNamespaces (scope_Ceiling (scope_Spec sc)) ∧
  (AllowedNamespaces (scope_Ceiling (scope_Spec sc)) = [] ∨ ns ∈ AllowedNamespaces (scope_Ceiling (scope_Spec sc))).

Lemma permitted_scope sc flt d ns : permitted (ScopeCeilingFromScope (Some sc)) flt d ns → scope_admits sc ns.
Proof. unfold permitted, scope_admits. cbn. tauto. Qed.

Lemma unrestricted_scope sc ns : CeilingRestrictsNamespaces (ScopeCeilingFromScope (Some sc)) = false → scope_admits sc ns.
Proof.
  unfold CeilingRestrictsNamespaces, scope_admits. cbn.
  destruct (AllowedNamespaces _), (DeniedNamespaces _); cbn; try done. intros _. split; [apply not_elem_of_nil|by left].
Qed.

Lemma setReady_engine env target s fin events collected sinkReason sinkMsg scopeReason scopeMsg e :
  out_Engine (setReady env target s fin events collected sinkReason sinkMsg scopeReason scopeMsg e) = e.
Proof.
  unfold setReady. destruct (syncCollectedCountFields _ _ _) as [[count changed] s2].
  destruct (if decide (scopeReason ≠ "") then _ else _) as [sr sm]. destruct (setTargetCondition _ _ _ _ _ _) as [written cs'].
  destruct (written || changed); [|done]. by destruct (te_status env).
Qed.

Lemma reconcileTargetReady_engine env target s fin e : out_Engine (reconcileTargetReady env target s fin e) = e.
Proof.
  unfold reconcileTargetReady, applyTargetReadyState. destruct (ExtractFailures _ _ _) as [failures lastErr].
  destruct (HasAccessCheckFailure _ _ _); [apply degraded_engine|]. case_decide; [apply degraded_engine|].
  destruct (checkTargetNamespaceSinksReachable _ _ _ _) as [[[|] reason] msg]; [apply setReady_engine|apply degraded_engine].
Qed.

(** The registration a reconcile leaves when the target passes its checks. *)
Lemma reconcile_registers env target profile s fin e st :
  let o := reconcile_with_profile env target profile s fin e in
  target_Suspend (target_Spec target) = false →
  is_ok (CompileResourceRules (ResourceRules (target_Filter (target_Spec target)))) = true →
  targets (out_Engine o) !! key_of target = Some st →
  ∃ matched e1 r, (enforceTarget env target profile e).1 = None ∧
    let ceiling := scopeCeilingForTarget (te_scope_register env) in
    let effective := EffectiveNamespaces matched ceiling (target_Filter (target_Spec target)) (defaults e1) in
    RegisterTarget (Some (te_ns_engine env)) target profile (mkRegisterOptions ceiling effective) e1 = (Ok r, out_Engine o).
Proof.
  intros o Hsus Hok Hst. subst o. unfold reconcile_with_profile in *.
  destruct (enforceTarget env target profile e) as [[[reason msg]|] e0].
  { rewrite degradeScopeDenied_engine in Hst. unfold key_of in Hst. by rewrite (proj1 (UnregisterTarget_stopped _ _ _)) in Hst. }
  unfold resolveTargetFilterStatus, ComputeFilterStatus, NamespaceDefaultsSnapshot in *.
  set (e1 := (RefreshNamespaces (Some (te_ns_register env)) e0).2) in *.
  set (matched := MatchIntentNamespaces _ _ _ _) in *. exists matched, e1.
  set (opts := mkRegisterOptions _ _) in *.
  unfold register in *. destruct (RegisterTarget (Some (te_ns_engine env)) target profile opts e1) as [r e2] eqn:Hr.
  pose proof Hr as Hr'. apply RegisterTarget_spec in Hr' as [(er & -> & ->)|(compiled & m & eff & Hcomp & Heff & [b ->] & He2)]; [| |done].
  { exfalso. unfold RegisterTarget in Hr. rewrite Hsus in Hr. destruct (CompileResourceRules _); [|done].
    destruct (effective_for _ _ _ _). by injection Hr. }
  destruct (te_informer env); cbn [fmap option_fmap option_map];
    [rewrite degraded_engine|rewrite reconcileTargetReady_engine]; eauto.
Qed.

(** C24. A target is collected inside its scope. When a reconcile read the scope
    in force, and read the same scope again for the registration, every object
    the target accepts from then on, however the engine's caches change, lives
    in a namespace that scope admits. *)
Theorem reconciled_within_scope env ns name e obj profile sc st :
  te_get env = Ok obj → to_Deleting obj = false → finalizer_held env obj →
  target_Suspend (target_Spec (to_Target obj)) = false → target_ProfileRef (target_Spec (to_Target obj)) ≠ "" →
  te_profile env = Ok profile →
  is_ok (CompileResourceRules (ResourceRules (target_Filter (target_Spec (to_Target obj))))) = true →
  Load (te_scope_policy env) = Ok (mkBinding true (Some sc)) → te_scope_register env = te_scope_policy env →
  targets (out_Engine (Reconcile env ns name e)) !! key_of (to_Target obj) = Some st →
  ∀ gvr u later, matchesTarget st gvr u later = targetMatchAccepted → scope_admits sc (resource_namespace u).
Proof.
  intros Hget Hdel Hfin Hsus Href Hprof Hok Hload Hsame Hst gvr u later Hm.
  unfold Reconcile in Hst. rewrite Hget, Hdel, finalizer_step, Hsus, decide_False, Hprof in Hst by done.
  destruct (reconcile_registers env (to_Target obj) profile _ _ e st Hsus Hok Hst) as (matched & e1 & r & _ & Hr).
  assert (scopeCeilingForTarget (te_scope_register env) = ScopeCeilingFromScope (Some sc)) as Hc.
  { unfold scopeCeilingForTarget. by rewrite Hsame, Hload. }
  rewrite Hc in Hr. cbv zeta in Hr. set (opts := mkRegisterOptions _ _) in Hr.
  destruct (registration_bounds_objects _ _ _ opts _ _ _ st Hsus Hr Hst gvr u later Hm) as [Hne He].
  destruct (decide (opt_EffectiveNamespaces opts = [])) as [Hnil|Hnil].
  - destruct (CeilingRestrictsNamespaces (ScopeCeilingFromScope (Some sc))) eqn:Hres;
      [eapply permitted_scope; apply He; done|by apply unrestricted_scope].
  - apply Hne in Hnil. unfold opts in Hnil. cbn [opt_EffectiveNamespaces] in Hnil.
    apply elem_of_EffectiveNamespaces in Hnil as (_ & _ & Hp). by eapply permitted_scope.
Qed.

(** ** The status that is written *)

Context `{!ConditionLaws}.

(** What a written status says: either the target is Ready, not Degraded, and
    the engine holds its registration, over the namespaces the status lists, and
    as many rows as the status counts; or it is Degraded and not Ready. *)
Definition truthful target (o : outcome) : Prop :=
  ∀ s, out_Saved o = Some s →
  match FindStatusCondition (ts_Conditions s) conditionReady with
  | Some _ =>
      FindStatusCondition (ts_Conditions s) conditionDegraded = None ∧
      ts_ObservedGeneration s = target_Generation target ∧
      ts_CollectedCount s = Some (Z.of_nat (ItemCount (target_Namespace target) (target_Name target) (out_Engine o))) ∧
      ∃ st, targets (out_Engine o) !! key_of target = Some st ∧ st_target st = target ∧
        (ts_EffectiveNamespaces s ≠ [] → st_effectiveNamespaces st = EffectiveNamespaceSet (ts_EffectiveNamespaces s))
  | None => is_Some (FindStatusCondition (ts_Conditions s) conditionDegraded)
  end.

Lemma setDegraded_saved env target s reason msg s' :
  (setDegraded env target s reason msg).1 = Some s' →
  FindStatusCondition (ts_Conditions s') conditionReady = None ∧
  ∃ c, FindStatusCondition (ts_Conditions s') conditionDegraded = Some c ∧ cond_Reason c = reason.
Proof.
  unfold setDegraded. set (cs := setSinkReachableCondition _ _ _ _ _ _).
  pose proof (setTargetCondition_find (te_now env) (target_Generation target) cs conditionDegraded reason msg) as (c & Hc & _ & Hr & _).
  pose proof (setTargetCondition_other (te_now env) (target_Generation target) cs conditionDegraded reason msg conditionReady ltac:(done)) as Ho.
  destruct (setTargetCondition (te_now env) (target_Generation target) cs conditionDegraded reason msg) as [[|] cs']; [|done].
  destruct (te_status env); [done|]. intros [= <-]. cbn [ts_Conditions set_conditions snd] in *. split; [|by exists c].
  rewrite Ho. unfold cs. rewrite find_reachable_other, find_remove_other, find_remove by done. done.
Qed.

Lemma degraded_truthful env target s fin events reason msg e : truthful target (degraded env target s fin events reason msg e).
Proof.
  intros s'. unfold degraded. pose proof (setDegraded_saved env target s reason msg) as Hd.
  destruct (setDegraded env target s reason msg) as [saved er]. cbn [out_Saved]. intros ->.
  destruct (Hd s' eq_refl) as (-> & c & -> & _). eauto.
Qed.

Lemma degradeScopeDenied_truthful env target s fin reason msg e : truthful target (degradeScopeDenied env target s fin reason msg e).
Proof.
  intros s'. unfold degradeScopeDenied. pose proof (setDegraded_saved env target s reason msg) as Hd.
  destruct (setDegraded env target s reason msg) as [saved er]. cbn [out_Saved]. intros ->.
  destruct (Hd s' eq_refl) as (-> & c & -> & _). eauto.
Qed.

Lemma sync_count now collected s :
  let r := syncCollectedCountFields now collected s in
  r.1.1 = Z.of_nat collected ∧ ts_CollectedCount r.2 = Some (Z.of_nat collected) ∧
  ts_ObservedGeneration r.2 = ts_ObservedGeneration s ∧ ts_EffectiveNamespaces r.2 = ts_EffectiveNamespaces s.
Proof. unfold syncCollectedCountFields. case_decide; done. Qed.

Lemma setReady_truthful env target s fin events sinkReason sinkMsg scopeReason scopeMsg e st :
  targets e !! key_of target = Some st → st_target st = target →
  (ts_EffectiveNamespaces s ≠ [] → st_effectiveNamespaces st = EffectiveNamespaceSet (ts_EffectiveNamespaces s)) →
  truthful target (setReady env target s fin events (ItemCount (target_Namespace target) (target_Name target) e)
    sinkReason sinkMsg scopeReason scopeMsg e).
Proof.
  intros Hst Htg Heff s'. unfold setReady. set (collected := ItemCount _ _ e). set (s1 := set_observed _ s).
  pose proof (sync_count (te_now env) collected s1) as (Hc & Hcount & Hobs & Hef).
  destruct (syncCollectedCountFields (te_now env) collected s1) as [[count changed] s2]. cbn [fst snd] in *.
  set (msg := "profileRef " +:+ _). destruct (if decide (scopeReason ≠ "") then _ else _) as [sr sm].
  set (cs := setSyncedCondition _ _ _ _ _ _).
  pose proof (setTargetCondition_find (te_now env) (target_Generation target) cs conditionReady reasonCollecting msg) as (c & Hf & _).
  pose proof (setTargetCondition_other (te_now env) (target_Generation target) cs conditionReady reasonCollecting msg conditionDegraded ltac:(done)) as Ho.
  destruct (setTargetCondition (te_now env) (target_Generation target) cs conditionReady reasonCollecting msg) as [written cs'].
  cbn [snd] in *. destruct (written || changed); [|done]. destruct (te_status env); [done|].
  cbn [out_Saved]. intros [= <-]. cbn [ts_Conditions set_conditions out_Engine ts_ObservedGeneration ts_CollectedCount ts_EffectiveNamespaces].
  rewrite Hf, Ho, Hobs, Hcount, Hef. split_and!; [|done|done|eauto].
  unfold cs. rewrite find_synced_other, find_reachable_other, find_remove by done. done.
Qed.

(** A status the reconciler writes is true of the engine it leaves. The
    conditions Ready and Degraded exclude each other and one of them is there;
    Ready means that the target is registered in its current generation, over
    the effective namespaces the status lists, and [collectedCount] is the
    number of rows the store holds for it. *)
Theorem status_truthful env ns name e obj :
  te_get env = Ok obj → truthful (to_Target obj) (Reconcile env ns name e).
Proof.
  intros Hget. assert (∀ a b c d g, truthful (to_Target obj) (mkReconciled a None b c d g)) as Hnone by done.
  unfold Reconcile. rewrite Hget. destruct (to_Deleting obj).
  { unfold finalizeTargetDeletion. destruct (bool_decide _); cbn [negb]; [|done].
    destruct (te_update env) as [er|]; [destruct (te_isConflict env er)|]; done. }
  destruct (if bool_decide _ then None else te_update env) as [er|]; [by destruct (te_isConflict env er)|].
  destruct (target_Suspend (target_Spec (to_Target obj))) eqn:Hsus; [apply degraded_truthful|].
  destruct (decide (target_ProfileRef (target_Spec (to_Target obj)) = "")); [apply degraded_truthful|].
  destruct (te_profile env) as [profile|er]; [|destruct (api_IsNotFound er); [apply degraded_truthful|done]].
  unfold reconcile_with_profile. destruct (enforceTarget env (to_Target obj) profile e) as [[[reason msg]|] e1];
    [apply degradeScopeDenied_truthful|].
  destruct (resolveTargetFilterStatus _ _ _ _) as [[[[matched effective] rules] ceiling] e2].
  unfold register. destruct (RegisterTarget _ _ _ _ e2) as [r e3] eqn:Hr.
  apply RegisterTarget_spec in Hr as [(er & -> & ->)|(compiled & m & eff & Hcomp & Heff & [b ->] & ->)];
    [apply degraded_truthful| |done].
  destruct (te_informer env); cbn [fmap option_fmap option_map]; [apply degraded_truthful|].
  unfold reconcileTargetReady. destruct (ExtractFailures _ _ _) as [failures lastErr]. unfold applyTargetReadyState.
  destruct (HasAccessCheckFailure _ _ _); [apply degraded_truthful|]. case_decide; [apply degraded_truthful|].
  destruct (checkTargetNamespaceSinksReachable _ _ _ _) as [[[|] reason] msg]; [|apply degraded_truthful].
  eapply setReady_truthful; [apply lookup_insert_eq|done|].
  cbn [ts_EffectiveNamespaces set_extraction updateTargetFilterStatus st_effectiveNamespaces registered_state].
  unfold effective_for in Heff. cbn [opt_EffectiveNamespaces] in Heff. intros Hne. destruct effective; [done|]. by injection Heff as <- _.
Qed.
End properties.

(** * A team and its pods *)
Module TargetDemo.
Import EngineDemo ListConditions.

#[local] Existing Instances demo_kube demo_cel demo_extract demo_sha256 map_range_to_list ascii_only_case.
#[local] Instance api_errors : ApiErrors :=
  {| api_IsNotFound e := bool_decide (error_text e = "not found"); api_IsInvalid _ := false;
     api_IsBadRequest _ := false; api_IsForbidden _ := false |}.
#[local] Instance texts : ErrorTexts := {| text_of _ := ""; quote s := s |}.

Definition blank : TargetStatus := mkTargetStatus [] 0 [] [] 0 None None 0 "".

Definition object (status : TargetStatus) : target_obj := mkTargetObj (pods None []) [targetCleanupFinalizer] false status.

(** The scope of the team: its own namespace only. *)
Definition team_scope : KollectScope :=
  mkKollectScope "scope" (mkKollectScopeSpec (mkScopeCeilingSpec [] ["team"] [] None) [] [] []).

Definition env (obj : target_obj) (policy register : option (list KollectScope)) (nss : list (string * NamespaceMeta)) (now : Z) : target_env :=
  mkTargetEnv (Ok obj) None (λ _, false) (Ok profile) policy policy register (Some nss) (Some nss) (Some nss) None
    (Ok []) (λ _, mkSinkAnswer (Ok tt) (Ok [])) (λ _, "") None now (60 * second) (λ _, "denied") (λ _, "rules").

Definition team : list (string * NamespaceMeta) := [("team", empty_meta)].

Definition no_scope : option (list KollectScope) := Some [].
Definition scoped : option (list KollectScope) := Some [team_scope].

Definition key : string := "team/pods".

(** A target that was registered without a scope is denied by one that cannot be
    read. *)
Lemma reconcile_stops_or_holds_witness :
  stopped "team" "pods" (out_Engine (Reconcile (env (object blank) None None team 0) "team" "pods" collected)).
Proof.
  refine (proj1 (proj1 (reconcile_stops_or_holds (env (object blank) None None team 0) "team" "pods" collected _) _)).
  - intros obj [= <-]. done.
  - cbn. split; [by left; left|]. right. split; [done|]. exists profile. split; [done|]. by eexists.
Defined.

(** The registration a reconcile leaves under the key of the target. *)
Definition left (e : target_env) : option targetState := targets (out_Engine (Reconcile e "team" "pods" (NewEngine Store.NewStore))) !! key.

Lemma reconciled_within_scope_witness :
  ∃ st, left (env (object blank) scoped scoped team 0) = Some st ∧
    matchesTarget st gvr web (NewEngine Store.NewStore) = targetMatchAccepted ∧ scope_admits team_scope (resource_namespace web).
Proof.
  destruct (left (env (object blank) scoped scoped team 0)) as [st|] eqn:Hst; [|vm_compute in Hst; discriminate Hst].
  assert (matchesTarget st gvr web (NewEngine Store.NewStore) = targetMatchAccepted) as Hm.
  { vm_compute in Hst. injection Hst as <-. vm_compute. reflexivity. }
  exists st. split; [reflexivity|]. split; [exact Hm|].
  refine (reconciled_within_scope (env (object blank) scoped scoped team 0) "team" "pods" (NewEngine Store.NewStore) (object blank)
    profile team_scope st eq_refl eq_refl _ eq_refl _ eq_refl eq_refl _ eq_refl Hst gvr web _ Hm).
  - by left; left.
  - done.
  - reflexivity.
Defined.

Lemma status_truthful_witness :
  ∃ s, out_Saved (Reconcile (env (object blank) scoped scoped team 0) "team" "pods" (NewEngine Store.NewStore)) = Some s ∧
    truthful (pods None []) (Reconcile (env (object blank) scoped scoped team 0) "team" "pods" (NewEngine Store.NewStore)).
Proof.
  destruct (out_Saved (Reconcile (env (object blank) scoped scoped team 0) "team" "pods" (NewEngine Store.NewStore))) as [s|] eqn:Hs;
    [|vm_compute in Hs; discriminate Hs].
  exists s. split; [reflexivity|].
  exact (status_truthful (env (object blank) scoped scoped team 0) "team" "pods" (NewEngine Store.NewStore) (object blank) eq_refl).
Defined.

(** The scope is read once more for the registration, and there a failed read is
    no scope: the target passes its scope and is registered without a ceiling. A
    target that matches no namespace yet then accepts the objects of a namespace
    the scope does not allow, as soon as one appears. *)
Definition elsewhere : list (string * value) := [("name", VString "web"); ("namespace", VString "other"); ("uid", VString "u9"); ("app", VString "web")].
Definition later : EngineState := set_nsMeta {["other" := empty_meta]} (NewEngine Store.NewStore).

Example failed_reload_lifts_ceiling :
  (λ st, bool_decide (matchesTarget st gvr elsewhere later = targetMatchAccepted)) <$> left (env (object blank) scoped None [] 0) = Some true ∧
  (λ st, bool_decide (matchesTarget st gvr elsewhere later = targetMatchAccepted)) <$> left (env (object blank) scoped scoped [] 0) = Some false.
Proof. split; vm_compute; reflexivity. Qed.

(** The status after a first reconcile. *)
Definition first_status : TargetStatus :=
  default blank (out_Saved (Reconcile (env (object blank) no_scope no_scope team 0) "team" "pods" (NewEngine Store.NewStore))).

(** A namespace that comes to match without an object in it changes the filter
    status, but neither the Ready condition nor the count, and is not written. *)
Definition widened : target_env := env (object first_status) no_scope no_scope [("team", empty_meta); ("new", empty_meta)] (5 * second).

Example widened_filter_not_written :
  ts_EffectiveNamespaces first_status = ["team"] ∧
  st_effectiveNamespaces <$> (targets (out_Engine (Reconcile widened "team" "pods" registered)) !! key) = Some (list_to_set ["new"; "team"]) ∧
  out_Saved (Reconcile widened "team" "pods" registered) = None.
Proof. vm_compute. done. Qed.

(** A denied access review sets the flag of the target; the Synced condition that
    should tell it is not written while the count stays the same. *)
Definition denied : EngineState := set_flags (λ _, {[key]}) id id registered.

Example forbidden_scope_not_written :
  let o := Reconcile (env (object first_status) no_scope no_scope team (5 * second)) "team" "pods" denied in
  HasForbiddenScope "team" "pods" (out_Engine o) = true ∧ out_Saved o = None ∧ out_Events o = [reasonScopeForbidden; "NoSinksInNamespace"].
Proof. vm_compute. done. Qed.

(** A target whose profile was deleted is Degraded and goes on collecting with
    the profile it was registered with. *)
Example missing_profile_keeps_collecting :
  let e := env (object first_status) no_scope no_scope team 0 in
  let gone := mkTargetEnv (te_get e) None (λ _, false) (Err (Leaf 0 "not found")) no_scope no_scope no_scope (Some team) (Some team) (Some team) None
    (Ok []) (te_sink e) (λ _, "") None 0 (60 * second) (λ _, "") (λ _, "") in
  let o := Reconcile gone "team" "pods" collected in
  out_Engine o = collected ∧ is_Some (out_Saved o).
Proof. vm_compute. eauto. Qed.
End TargetDemo.
