(* ===== verification/ClusterTarget.v ===== *)
(** The cluster target reconciler,
    [src/internal/controller/kollectclustertarget_controller.go] with
    [cluster_target_finalizer.go], [cluster_profile_resolve.go] and the cluster
    half of [cluster_scope_enforce.go].

    A cluster target has no registration of its own: the reconciler registers one
    synthetic target per effective namespace, under the cluster target's name.
    The environment holds the answers of the API server, as in [TargetReconcile]. *)

From S2P Require Import Prelude GoStrings Values Store Api Filter Scope Errors Scrub Prune Json Envelope Extract Access Engine Intervals Coalesce ExportPass SinkExport Conditions TargetReconcile.
Import Outcome Engine.

(** Go: api/v1alpha1/kollectclustertarget_types.go:10-27 [KollectClusterTargetSpec] *)
Record KollectClusterTargetSpec := mkKollectClusterTargetSpec {
  ct_ProfileRef : NamespacedObjectReference;
  ct_NamespaceSelector : option LabelSelector;
  ct_Filter : CollectionFilterSpec;
  ct_Suspend : bool;
}.

Record cluster_obj := mkClusterObj {
  co_Name : string;
  co_Generation : Z;
  co_Spec : KollectClusterTargetSpec;
  co_Finalizers : list string;
  co_Deleting : bool;
  co_Status : TargetStatus;
}.

Definition clusterTargetCleanupFinalizer : string := "kollect.dev/cluster-target-cleanup".

(** The namespaces are listed three times: for the matched namespaces, for the
    filter, and by the engine. *)
Record cluster_env := mkClusterEnv {
  ce_get : result err cluster_obj;
  ce_update : option err;
  ce_isConflict : err → bool;
  ce_profile : result err KollectProfile;
  ce_ns_matched : result err (list (string * NamespaceMeta));
  ce_scope : option (list KollectClusterScope);
  ce_scope_err : err;
  ce_ns_filter : option (list (string * NamespaceMeta));
  ce_ns_engine : option (list (string * NamespaceMeta));
  ce_informer : string → option err;
  ce_status : option err;
  ce_now : Z;
  ce_violation : violation → string;
  ce_compile : compile_error → string;
}.

(** [listNamespaceMeta]: a failed list is an empty map.
    Go: internal/controller/target_filter_resolve.go:65-81 [listNamespaceMeta] *)
Definition listNamespaceMeta (listed : option (list (string * NamespaceMeta))) : gmap string NamespaceMeta :=
  match listed with
  | None => ∅
  | Some l => foldl (λ m kv, <[kv.1 := kv.2]> m) ∅ l
  end.

(** The synthetic target of one namespace, with no generation of its own. *)
Definition synthetic (name : string) (spec : KollectClusterTargetSpec) (ns : string) : KollectTarget :=
  mkKollectTarget ns name 0
    (mkKollectTargetSpec (nref_Name (ct_ProfileRef spec))
      (Some (mkLabelSelector {[LabelMetadataName := ns]} []))
      (ct_Filter spec) None [] false "").

Section reconcile.
Context `{!KubeApi, !CelApi, !MapRange, !UnicodeCase, !ExtractApi, !Sha256, !SpecJson}.
Context `{!ApiErrors, !ConditionApi, !ConditionLib, !ErrorTexts}.
Variable env : cluster_env.

(** Go: internal/controller/kollectclustertarget_controller.go:163-191 [matchedNamespaces] *)
Definition matchedNamespaces (spec : KollectClusterTargetSpec) (e : EngineState) : result err (list string) :=
  match ce_ns_matched env with
  | Err er => Err (Wrap ("list namespaces: " +:+ error_text er) er)
  | Ok l =>
      let meta := foldl (λ m kv, <[kv.1 := mkNamespaceMeta (meta_Labels kv.2) ∅]> m) ∅ l in
      Ok (MatchIntentNamespaces (ct_Filter spec) (ct_NamespaceSelector spec) meta (NamespaceDefaultsSnapshot e))
  end.

(** Go: internal/controller/kollectclustertarget_controller.go:249-255 [registeredNamespaces] *)
Definition registeredNamespaces (name : string) (e : EngineState) : list string := NamespacesForClusterTarget name e.

(** Go: internal/controller/kollectclustertarget_controller.go:257-265 [unregisterAll] *)
Definition unregisterAll (name : string) (e : EngineState) : EngineState :=
  foldl (λ e ns, UnregisterTarget ns name e) e (registeredNamespaces name e).

(** The registrations, one namespace after the other; an error stops the loop and
    leaves the registrations already made. *)
Fixpoint register_all (name : string) (spec : KollectClusterTargetSpec) (profile : KollectProfile) (ceiling : ScopeCeiling)
    (nss : list string) (e : EngineState) : option string * EngineState :=
  match nss with
  | [] => (None, e)
  | ns :: nss =>
      match RegisterTarget (Some (ce_ns_engine env)) (synthetic name spec ns) profile (mkRegisterOptions ceiling [ns]) e with
      | (Err er, e) => (Some ("compile resourceRules: " +:+ ce_compile env er), e)
      | (Ok _, e) =>
          match ce_informer env ns with
          | Some er => (Some (error_text er), e)
          | None => register_all name spec profile ceiling nss e
          end
      end
  end.

(** Go: internal/controller/kollectclustertarget_controller.go:193-247 [syncEngineTargets] *)
Definition syncEngineTargets (name : string) (spec : KollectClusterTargetSpec) (profile : KollectProfile) (effective : list string)
    (ceiling : ScopeCeiling) (e : EngineState) : option string * EngineState :=
  match RefreshNamespaces (Some (ce_ns_engine env)) e with
  | (false, e) => (Some "refresh namespace cache before cluster target registration", e)
  | (true, e) =>
      match register_all name spec profile ceiling effective e with
      | (Some msg, e) => (Some msg, e)
      | (None, e) =>
          (None, foldl (λ e ns, if decide (ns ∈ effective) then e else UnregisterTarget ns name e) e (registeredNamespaces name e))
      end
  end.

(** Go: internal/controller/kollectclustertarget_controller.go:267-281 [collectedCount] *)
Definition collectedCount (name : string) (matched : list string) (e : EngineState) : nat :=
  sum_list ((λ ns, ItemCount ns name e) <$> matched).

(** Go: internal/controller/kollectclustertarget_controller.go:341-356 [persistFilterStatusIfSkipped] *)
Definition persistFilterStatusIfSkipped (s : TargetStatus) (changed written : bool) : option TargetStatus * option err :=
  if negb changed || written then (None, None)
  else match ce_status env with None => (Some s, None) | Some er => (None, Some er) end.

(** The status write of [setClusterTargetCondition] and the one it may skip. *)
Definition write_status (s : TargetStatus) (changed written : bool) : option TargetStatus * option err :=
  if written then match ce_status env with None => (Some s, None) | Some er => (None, Some er) end
  else persistFilterStatusIfSkipped s changed written.

(** Go: internal/controller/kollectclustertarget_controller.go:283-301 [setDegraded] *)
Definition cluster_setDegraded (obj : cluster_obj) (s : TargetStatus) (reason message : string) (filterChanged : bool) :
    option TargetStatus * option err :=
  let cs := RemoveStatusCondition (RemoveStatusCondition (ts_Conditions s) conditionReady) conditionSynced in
  let '(written, cs) := setTargetCondition (ce_now env) (co_Generation obj) cs conditionDegraded reason message in
  write_status (set_conditions cs s) filterChanged written.

(** Go: internal/controller/kollectclustertarget_controller.go:358-369 [clusterTargetReadyMessage] *)
Definition clusterTargetReadyMessage (ref : NamespacedObjectReference) (matched : nat) (count : Z) : string :=
  "profileRef " +:+ quote (nref_Name ref) +:+ " in namespace " +:+ quote (nref_Namespace ref) +:+ " resolved; " +:+
  pretty matched +:+ " namespace(s) matched; collecting " +:+ fmt_d count +:+ " resource(s)".

(** Go: internal/controller/kollectclustertarget_controller.go:303-339 [setReady] *)
Definition cluster_setReady (obj : cluster_obj) (s : TargetStatus) (matched : list string) (filterChanged : bool) (e : EngineState) :
    option TargetStatus * option err :=
  let '(count, countChanged, s) := syncCollectedCountFields (ce_now env) (collectedCount (co_Name obj) matched e) s in
  let msg := clusterTargetReadyMessage (ct_ProfileRef (co_Spec obj)) (length matched) count in
  let cs := RemoveStatusCondition (ts_Conditions s) conditionDegraded in
  let s := set_observed (co_Generation obj) s in
  let cs := setSyncedCondition (co_Generation obj) true reasonCollecting msg (ce_now env) cs in
  let '(written, cs) := setTargetCondition (ce_now env) (co_Generation obj) cs conditionReady reasonCollecting msg in
  write_status (set_conditions cs s) (filterChanged || countChanged) written.

(** Go: internal/controller/kollectclustertarget_controller.go:371-381 [clusterTargetFilterChanged] *)
Definition clusterTargetFilterChanged (s : TargetStatus) (matched effective : list string) (activeRules : nat) : bool :=
  negb (bool_decide (ts_MatchedNamespaces s = matched)) || negb (bool_decide (ts_EffectiveNamespaces s = effective)) ||
  negb (bool_decide (ts_ActiveResourceRules s = activeRules)).

Definition finish (fin : option (list string)) (events : list string) (r : option TargetStatus * option err) (e : EngineState) : outcome :=
  mkReconciled e r.1 fin 0 r.2 events.

(** The denial of the cluster scope: the reason and the message. *)
Definition cluster_scope_denial (spec : KollectClusterTargetSpec) (profile : KollectProfile) (sc : option KollectClusterScope) :
    option (string * string) :=
  match ValidateClusterScopeStaticRefNamespace sc (nref_Namespace (ct_ProfileRef spec)) with
  | Err v => Some (scopeReasonNSDenied, ce_violation env v)
  | Ok _ =>
      match for_each (ValidateClusterScopeGVKs sc) (CollectRuleGVKs (ct_Filter spec) (profile_TargetGVK (profile_Spec profile))) with
      | Err v => Some (scopeReasonGVKDenied, ce_violation env v)
      | Ok _ => None
      end
  end.

(** Go: internal/controller/cluster_scope_enforce.go:70-107 [loadClusterScopeBinding] *)
Definition loadClusterScopeBinding (spec : KollectClusterTargetSpec) (profile : KollectProfile) :
    result err (ClusterBinding * option (string * string)) :=
  match LoadCluster (ce_scope env) with
  | Err _ => Err (ce_scope_err env)
  | Ok b => Ok (b, if cluster_Enforced b then cluster_scope_denial spec profile (cluster_Scope b) else None)
  end.

(** The body of [Reconcile] from the matched namespaces on. *)
Definition reconcile_matched (obj : cluster_obj) (fin : option (list string)) (profile : KollectProfile) (matched : list string)
    (e : EngineState) : outcome :=
  let spec := co_Spec obj in
  let name := co_Name obj in
  let s := co_Status obj in
  match loadClusterScopeBinding spec profile with
  | Err er => mkReconciled e None fin 0 (Some er) []
  | Ok (_, Some (reason, msg)) => finish fin [reason] (cluster_setDegraded obj s reason msg false) (unregisterAll name e)
  | Ok (b, None) =>
      let ceiling := if cluster_Enforced b then ScopeCeilingFromClusterScope (cluster_Scope b) else mkScopeCeiling [] [] in
      let '(_, effective, activeRules) :=
        ComputeFilterStatus (ct_Filter spec) (ct_NamespaceSelector spec) (listNamespaceMeta (ce_ns_filter env)) ceiling
          (NamespaceDefaultsSnapshot e) in
      let filterChanged := clusterTargetFilterChanged s matched effective activeRules in
      let s := updateTargetFilterStatus matched effective activeRules s in
      match syncEngineTargets name spec profile effective ceiling e with
      | (Some msg, e) => finish fin [] (cluster_setDegraded obj s "InformerRegistrationFailed" msg filterChanged) e
      | (None, e) => finish fin [] (cluster_setReady obj s effective filterChanged e) e
      end
  end.

(** Go: internal/controller/cluster_target_finalizer.go:23-34 [finalizeClusterTargetDeletion] *)
Definition finalizeClusterTargetDeletion (obj : cluster_obj) (e : EngineState) : outcome :=
  if negb (bool_decide (clusterTargetCleanupFinalizer ∈ co_Finalizers obj)) then mkReconciled e None None 0 None []
  else
    let e := unregisterAll (co_Name obj) e in
    match ce_update env with
    | None => mkReconciled e None (Some (filter (λ f, f ≠ clusterTargetCleanupFinalizer) (co_Finalizers obj))) 0 None []
    | Some er => if ce_isConflict env er then mkReconciled e None None second None [] else mkReconciled e None None 0 (Some er) []
    end.

(** Go: internal/controller/kollectclustertarget_controller.go:48-161 [Reconcile] *)
Definition cluster_Reconcile (e : EngineState) : outcome :=
  match ce_get env with
  | Err er => mkReconciled e None None 0 (if api_IsNotFound er then None else Some er) []
  | Ok obj =>
      let spec := co_Spec obj in
      if co_Deleting obj then finalizeClusterTargetDeletion obj e
      else
        let present := bool_decide (clusterTargetCleanupFinalizer ∈ co_Finalizers obj) in
        match (if present then None else ce_update env) with
        | Some er => if ce_isConflict env er then mkReconciled e None None second None [] else mkReconciled e None None 0 (Some er) []
        | None =>
            let fin := if present then None else Some (co_Finalizers obj ++ [clusterTargetCleanupFinalizer]) in
            if ct_Suspend spec then
              finish fin [] (cluster_setDegraded obj (co_Status obj) "Suspended" "spec.suspend is true" false) (unregisterAll (co_Name obj) e)
            else
              match ce_profile env with
              | Err er =>
                  let reason := if api_IsForbidden er then "ProfileForbidden" else "ProfileNotFound" in
                  finish fin (if api_IsForbidden er then [reason] else [])
                    (cluster_setDegraded obj (co_Status obj) reason (error_text er) false) (unregisterAll (co_Name obj) e)
              | Ok profile =>
                  match matchedNamespaces spec e with
                  | Err er => mkReconciled e None fin 0 (Some er) []
                  | Ok matched => reconcile_matched obj fin profile matched e
                  end
              end
        end
  end.
End reconcile.

(** * The registrations of a cluster target *)

Section properties.
Context `{!KubeApi, !CelApi, !MapRange, !UnicodeCase, !ExtractApi, !Sha256, !SpecJson}.
Context `{!ApiErrors, !ConditionApi, !ConditionLib, !ErrorTexts}.
Implicit Types (env : cluster_env) (e : EngineState) (spec : KollectClusterTargetSpec).

Abbreviation slash_free ns := (has_byte "/" ns = false).

Lemma cut_targetKey ns name : slash_free ns → cut_byte "/" (Store.targetKey ns name) = Some (ns, name).
Proof. intros Hns. apply cut_byte_Some. split; [done|]. done. Qed.

(** The names listed are the namespaces registered under the cluster target's
    name, whoever registered them. *)
Lemma elem_of_registered name e ns :
  index_ok e → ns ∈ registeredNamespaces name e ↔
    ns ≠ "" ∧ slash_free ns ∧ is_Some (targets e !! Store.targetKey ns name).
Proof.
  intros Hok. unfold registeredNamespaces, NamespacesForClusterTarget. rewrite elem_of_sort_strings, list_elem_of_bind. split.
  - intros ([k st] & Hin & Hst). apply elem_of_map_range in Hst. cbn [fst snd] in *.
    destruct (ix_key _ Hok k st Hst) as [-> Hsl]. case_decide as Hn; [by apply elem_of_nil in Hin|].
    rewrite cut_targetKey in Hin by done. case_decide; [by apply elem_of_nil in Hin|].
    apply list_elem_of_singleton in Hin as ->. split_and!; [done|done|]. rewrite Hn in Hst. eauto.
  - intros (Hne & Hsl & st & Hst). exists (Store.targetKey ns name, st). split; [|by apply elem_of_map_range]. cbn [fst snd].
    destruct (ix_key _ Hok _ st Hst) as [Hk Hsl']. apply Concurrent.targetKey_inj in Hk as [_ Hname]; [|done..].
    rewrite decide_False by naive_solver. rewrite cut_targetKey, decide_False by done. apply list_elem_of_singleton. done.
Qed.

Lemma RegisterTarget_synthetic kube name spec profile ceiling ns e r e' :
  slash_free ns → index_ok e →
  RegisterTarget kube (synthetic name spec ns) profile (mkRegisterOptions ceiling [ns]) e = (Ok r, e') →
  index_ok e' ∧ estore e' = estore e ∧ defaults e' = defaults e ∧
  ∃ st, targets e' = <[Store.targetKey ns name := st]> (targets e) ∧ st_target st = synthetic name spec ns ∧
    st_effectiveNamespaces st = {[ns]}.
Proof.
  intros Hsl Hok Hr. split; [eapply RegisterTarget_index; [| |exact Hr|exact Hok]; [reflexivity|exact Hsl]|].
  apply RegisterTarget_spec in Hr as [(er & ? & _)|(compiled & m & eff & _ & Heff & _ & ->)]; [done| |done].
  injection Heff as <- _. split_and!.
  - unfold drop_target. cbn [targets set_nsMeta]. by destruct (targets e !! _).
  - unfold drop_target. cbn [targets set_nsMeta]. by destruct (targets e !! _).
  - exists (registered_state (synthetic name spec ns) profile (mkRegisterOptions ceiling [ns]) compiled [ns]). split_and!; [|done|].
    + unfold drop_target. cbn [targets set_nsMeta target_Namespace target_Name synthetic]. destruct (targets e !! _); cbn;
        [unfold id; by rewrite insert_delete_eq|unfold id; by rewrite ?insert_delete_eq].
    + cbn. unfold EffectiveNamespaceSet. set_solver.
Qed.

(** The registration of a cluster target in one namespace. *)
Definition registered_in name spec e (ns : string) : Prop :=
  ∃ st, targets e !! Store.targetKey ns name = Some st ∧ st_target st = synthetic name spec ns ∧
    st_effectiveNamespaces st = {[ns]}.

(** A key of another target than the cluster target's. *)
Definition foreign_key name (k : string) : Prop := ∀ ns, slash_free ns → k ≠ Store.targetKey ns name.

Lemma register_all_spec env name spec profile ceiling nss e e' :
  Forall (λ ns, slash_free ns) nss → index_ok e → register_all env name spec profile ceiling nss e = (None, e') →
  index_ok e' ∧ Forall (registered_in name spec e') nss ∧
  (∀ k, (∀ ns, ns ∈ nss → k ≠ Store.targetKey ns name) → targets e' !! k = targets e !! k).
Proof.
  intros Hsl. revert e. induction Hsl as [|ns nss Hns Hsl IH]; intros e Hok; cbn [register_all].
  { intros [= <-]. split_and!; [done|constructor|done]. }
  destruct (RegisterTarget _ _ _ _ e) as [[r|er] e1] eqn:Hr; [|done]. destruct (ce_informer env ns); [done|].
  apply RegisterTarget_synthetic in Hr as (Hok1 & _ & _ & st & Ht & Hst & Heff); [|done..].
  intros Hrest. destruct (IH e1 Hok1 Hrest) as (Hok' & Hall & Hother). split_and!; [done| |].
  - constructor; [|done]. destruct (decide (ns ∈ nss)) as [Hin|Hnin]; [rewrite Forall_forall in Hall; by apply Hall|].
    exists st. split; [|done]. rewrite Hother, Ht; [apply lookup_insert_eq|].
    intros ns' Hin Hk. apply Concurrent.targetKey_inj in Hk as [-> _]; [done|done|]. rewrite Forall_forall in Hsl. by apply Hsl.
  - intros k Hk. rewrite Hother, Ht; [|intros ns' Hin; apply Hk; by right].
    apply lookup_insert_ne. intros <-. eapply Hk; [by left|done].
Qed.

Lemma UnregisterTarget_index ns name e : index_ok e → index_ok (UnregisterTarget ns name e).
Proof.
  intros Hok. apply (unregister_locked_index (Store.targetKey ns name)) in Hok as [Hn Hx Hk]. unfold UnregisterTarget, set_estore.
  by split.
Qed.

(** Unregistering the listed namespaces that are not wanted. *)
Lemma unregister_unwanted name (P : string → Prop) `{!∀ ns, Decision (P ns)} l e :
  let e' := foldl (λ e ns, if decide (P ns) then e else UnregisterTarget ns name e) e l in
  (index_ok e → index_ok e') ∧
  ∀ k st, targets e' !! k = Some st ↔ targets e !! k = Some st ∧ ∀ ns, ns ∈ l → ¬ P ns → k ≠ Store.targetKey ns name.
Proof.
  revert e. induction l as [|ns l IH]; intros e; cbn [foldl].
  { split; [done|]. intros k st. split; [|by intros [? _]]. intros Hk. split; [done|]. by intros ns ?%elem_of_nil. }
  set (e1 := if decide (P ns) then e else UnregisterTarget ns name e). destruct (IH e1) as [Hok Ht]. split.
  - intros He. apply Hok. unfold e1. destruct (decide (P ns)); [done|by apply UnregisterTarget_index].
  - intros k st. rewrite Ht. unfold e1. setoid_rewrite elem_of_cons. destruct (decide (P ns)) as [HP|HP]; [naive_solver|].
    rewrite UnregisterTarget_targets, lookup_delete_Some. naive_solver.
Qed.

Lemma unregisterAll_spec name e k st :
  targets (unregisterAll name e) !! k = Some st ↔
  targets e !! k = Some st ∧ ∀ ns, ns ∈ registeredNamespaces name e → k ≠ Store.targetKey ns name.
Proof.
  unfold unregisterAll. destruct (unregister_unwanted name (λ _, False) (registeredNamespaces name e) e) as [_ Ht].
  etransitivity; [apply (Ht k st)|]. naive_solver.
Qed.

(** Stopping a cluster target unregisters its name in every namespace. *)
Lemma unregisterAll_stops name e ns :
  index_ok e → ns ≠ "" → slash_free ns → targets (unregisterAll name e) !! Store.targetKey ns name = None.
Proof.
  intros Hok Hne Hsl. apply eq_None_not_Some. intros [st [Hst Hno]%unregisterAll_spec].
  eapply Hno; [|reflexivity]. apply elem_of_registered; [done|]. eauto.
Qed.

(** After a synchronisation the cluster target is registered in exactly the
    effective namespaces, in each for that namespace alone; the registrations of
    other names are untouched. *)
Lemma sync_exact env name spec profile effective ceiling e e' :
  index_ok e → Forall (λ ns, ns ≠ "" ∧ slash_free ns) effective →
  syncEngineTargets env name spec profile effective ceiling e = (None, e') →
  index_ok e' ∧
  (∀ ns, ns ≠ "" → slash_free ns → is_Some (targets e' !! Store.targetKey ns name) ↔ ns ∈ effective) ∧
  Forall (registered_in name spec e') effective ∧
  ∀ k, foreign_key name k → targets e' !! k = targets e !! k.
Proof.
  intros Hok Heff. unfold syncEngineTargets.
  destruct (RefreshNamespaces (Some (ce_ns_engine env)) e) as [[|] e0] eqn:Href; [|done].
  assert (index_ok e0 ∧ targets e0 = targets e) as [Hok0 Ht0].
  { unfold RefreshNamespaces, refreshNamespaceCache in Href. destruct (ce_ns_engine env); [|done]. injection Href as <-.
    destruct Hok. by split. }
  assert (Forall (λ ns, slash_free ns) effective) as Hsl by (eapply Forall_impl; [exact Heff|by intros ? []]).
  destruct (register_all env name spec profile ceiling effective e0) as [[msg|] e1] eqn:Hreg; [done|].
  destruct (register_all_spec _ _ _ _ _ _ _ _ Hsl Hok0 Hreg) as (Hok1 & Hall & Hother). intros [= <-].
  destruct (unregister_unwanted name (λ ns, ns ∈ effective) (registeredNamespaces name e1) e1) as [Hok2 Ht].
  set (e2 := foldl _ e1 _) in *. rewrite Forall_forall in Hall, Heff, Hsl.
  assert (∀ ns, ns ∈ effective → registered_in name spec e2 ns) as Hin.
  { intros ns Hns. destruct (Hall ns Hns) as (st & Hst & ?). exists st. split; [|done]. apply Ht. split; [done|].
    intros ns' Hr Hn Hk. apply elem_of_registered in Hr as (_ & Hsl' & _); [|done].
    apply Concurrent.targetKey_inj in Hk as [-> _]; [done|by apply Hsl|done]. }
  split_and!; [auto| |by apply Forall_forall|].
  - intros ns Hne Hs. split; [|intros (st & Hst & _)%Hin; eauto]. intros [st [Hst Hno]%Ht].
    destruct (decide (ns ∈ effective)) as [|Hn]; [done|]. exfalso. eapply Hno; [|exact Hn|reflexivity].
    apply elem_of_registered; eauto.
  - intros k Hk. rewrite <- Ht0, <- Hother by (intros ns Hns; apply Hk; by apply Hsl).
    apply option_eq. intros st. rewrite Ht. split; [by intros [? _]|]. intros Hst. split; [done|].
    intros ns Hr _. apply elem_of_registered in Hr as (_ & Hs & _); [|done]. by apply Hk.
Qed.

(** ** The status that is written *)

Context `{!ConditionLaws}.

(** A namespace the cluster scope admits workloads from. *)
Definition cluster_admits (sc : KollectClusterScope) (ns : string) : Prop :=
  ns ∉ DeniedNamespaces (cscope_Ceiling (cscope_Spec sc)) ∧
  (AllowedNamespaces (cscope_Ceiling (cscope_Spec sc)) = [] ∨ ns ∈ AllowedNamespaces (cscope_Ceiling (cscope_Spec sc))).

(** What a written status says of a cluster target: when it is Ready, it is
    registered in exactly the namespaces the status lists, for each of them
    alone, the cluster scope admits them, and the status counts the rows of all
    of them; when it is Degraded, it is registered nowhere, unless a registration
    failed. *)
Definition cluster_truthful env (obj : cluster_obj) (o : outcome) : Prop :=
  let name := co_Name obj in
  ∀ s, out_Saved o = Some s →
  match FindStatusCondition (ts_Conditions s) conditionReady with
  | Some _ =>
      FindStatusCondition (ts_Conditions s) conditionDegraded = None ∧
      ts_CollectedCount s = Some (Z.of_nat (collectedCount name (ts_EffectiveNamespaces s) (out_Engine o))) ∧
      (∀ ns, ns ≠ "" → slash_free ns →
        is_Some (targets (out_Engine o) !! Store.targetKey ns name) ↔ ns ∈ ts_EffectiveNamespaces s) ∧
      Forall (registered_in name (co_Spec obj) (out_Engine o)) (ts_EffectiveNamespaces s) ∧
      (∀ sc, LoadCluster (ce_scope env) = Ok (mkClusterBinding true (Some sc)) → Forall (cluster_admits sc) (ts_EffectiveNamespaces s))
  | None =>
      ∃ c, FindStatusCondition (ts_Conditions s) conditionDegraded = Some c ∧
        (cond_Reason c ≠ "InformerRegistrationFailed" →
         ∀ ns, ns ≠ "" → slash_free ns → targets (out_Engine o) !! Store.targetKey ns name = None)
  end.

Lemma write_status_saved env s changed written s' : (write_status env s changed written).1 = Some s' → s' = s.
Proof.
  unfold write_status, persistFilterStatusIfSkipped. destruct written; [destruct (ce_status env); naive_solver|].
  destruct changed; cbn; [destruct (ce_status env); naive_solver|done].
Qed.

Lemma cluster_setDegraded_saved env obj s reason msg changed s' :
  (cluster_setDegraded env obj s reason msg changed).1 = Some s' →
  FindStatusCondition (ts_Conditions s') conditionReady = None ∧
  ∃ c, FindStatusCondition (ts_Conditions s') conditionDegraded = Some c ∧ cond_Reason c = reason.
Proof.
  unfold cluster_setDegraded. set (cs := RemoveStatusCondition _ conditionSynced).
  pose proof (setTargetCondition_find (ce_now env) (co_Generation obj) cs conditionDegraded reason msg) as (c & Hc & _ & Hr & _).
  pose proof (setTargetCondition_other (ce_now env) (co_Generation obj) cs conditionDegraded reason msg conditionReady ltac:(done)) as Ho.
  destruct (setTargetCondition (ce_now env) (co_Generation obj) cs conditionDegraded reason msg) as [written cs'].
  intros ->%write_status_saved. cbn [ts_Conditions set_conditions snd] in *. split; [|by exists c].
  rewrite Ho. unfold cs. rewrite find_remove_other, find_remove by done. done.
Qed.

(** A degradation after which nothing is registered, or whose registration failed. *)
Lemma degraded_cluster_truthful env obj fin events s reason msg changed e :
  (reason ≠ "InformerRegistrationFailed" → ∀ ns, ns ≠ "" → slash_free ns → targets e !! Store.targetKey ns (co_Name obj) = None) →
  cluster_truthful env obj (finish fin events (cluster_setDegraded env obj s reason msg changed) e).
Proof.
  intros He s'. cbn. intros Hs. destruct (cluster_setDegraded_saved _ _ _ _ _ _ _ Hs) as (-> & c & -> & Hr).
  exists c. split; [done|]. rewrite Hr. done.
Qed.

Lemma cluster_setReady_saved env obj s matched changed e s' :
  (cluster_setReady env obj s matched changed e).1 = Some s' →
  is_Some (FindStatusCondition (ts_Conditions s') conditionReady) ∧
  FindStatusCondition (ts_Conditions s') conditionDegraded = None ∧
  ts_CollectedCount s' = Some (Z.of_nat (collectedCount (co_Name obj) matched e)) ∧
  ts_EffectiveNamespaces s' = ts_EffectiveNamespaces s.
Proof.
  unfold cluster_setReady. pose proof (sync_count (ce_now env) (collectedCount (co_Name obj) matched e) s) as (_ & Hcount & _ & Hef).
  destruct (syncCollectedCountFields _ _ s) as [[count countChanged] s1]. cbn [fst snd] in *.
  set (msg := clusterTargetReadyMessage _ _ _). set (cs := setSyncedCondition _ _ _ _ _ _).
  pose proof (setTargetCondition_find (ce_now env) (co_Generation obj) cs conditionReady reasonCollecting msg) as (c & Hf & _).
  pose proof (setTargetCondition_other (ce_now env) (co_Generation obj) cs conditionReady reasonCollecting msg conditionDegraded ltac:(done)) as Ho.
  destruct (setTargetCondition (ce_now env) (co_Generation obj) cs conditionReady reasonCollecting msg) as [written cs'].
  intros ->%write_status_saved. cbn [ts_Conditions set_conditions set_observed ts_CollectedCount ts_EffectiveNamespaces snd] in *.
  rewrite Hf, Ho, Hcount, Hef. split_and!; [eauto| |done|done].
  unfold cs. rewrite find_synced_other, find_remove by done. done.
Qed.

Lemma listNamespaceMeta_names listed ns :
  is_Some (listNamespaceMeta listed !! ns) → ∃ l, listed = Some l ∧ ns ∈ l.*1.
Proof.
  unfold listNamespaceMeta. destruct listed as [l|]; [|by intros [? ?%lookup_empty_Some]]. intros Hs. exists l. split; [done|].
  assert (∀ m : gmap string NamespaceMeta, is_Some (foldl (λ m kv, <[kv.1 := kv.2]> m) m l !! ns) → is_Some (m !! ns) ∨ ns ∈ l.*1) as Hf.
  { clear. induction l as [|[n meta] l IH]; intros m; cbn [foldl]; [by left|]. rewrite fmap_cons, elem_of_cons. cbn [fst snd].
    intros [Hm|Hin]%IH; [|by right; right]. destruct (decide (n = ns)) as [->|Hne]; [by right; left|].
    rewrite lookup_insert_ne in Hm by done. by left. }
  destruct (Hf ∅ Hs) as [[? ?%lookup_empty_Some]|]; done.
Qed.

(** The effective namespaces are names of the list. *)
Lemma effective_names listed flt sel d ceiling :
  (∀ l, listed = Some l → Forall (λ kv : string * NamespaceMeta, slash_free kv.1) l) →
  Forall (λ ns, ns ≠ "" ∧ slash_free ns) (EffectiveNamespaces (MatchIntentNamespaces flt sel (listNamespaceMeta listed) d) ceiling flt d).
Proof.
  intros Hl. apply Forall_forall. intros ns (Hm & Hne & _)%elem_of_EffectiveNamespaces. split; [done|].
  apply elem_of_MatchIntentNamespaces in Hm as (_ & _ & _ & _ & meta & Hmeta & _).
  destruct (listNamespaceMeta_names listed ns) as (l & -> & ([n ?] & -> & Hin)%list_elem_of_fmap); [eauto|].
  specialize (Hl l eq_refl). rewrite Forall_forall in Hl. by apply (Hl _ Hin).
Qed.

(** C25. A status the cluster reconciler writes is true of the engine it leaves:
    a Ready cluster target is registered in exactly the effective namespaces the
    status lists, in each for that namespace alone and all of them inside the
    cluster scope that was read, and [collectedCount] is the number of rows of
    all of them; a Degraded one is registered nowhere, unless a registration
    failed. *)
Theorem cluster_status_truthful env e obj :
  index_ok e → ce_get env = Ok obj →
  (∀ l, ce_ns_filter env = Some l → Forall (λ kv, slash_free kv.1) l) →
  cluster_truthful env obj (cluster_Reconcile env e).
Proof.
  intros Hok Hget Hnames. assert (∀ a b c d g, cluster_truthful env obj (mkReconciled a None b c d g)) as Hnone by done.
  assert (∀ ns, ns ≠ "" → slash_free ns → targets (unregisterAll (co_Name obj) e) !! Store.targetKey ns (co_Name obj) = None) as Hall
    by (intros; by apply unregisterAll_stops).
  unfold cluster_Reconcile. rewrite Hget. destruct (co_Deleting obj).
  { unfold finalizeClusterTargetDeletion. destruct (bool_decide _); cbn [negb]; [|done].
    destruct (ce_update env) as [er|]; [destruct (ce_isConflict env er)|]; done. }
  destruct (if bool_decide _ then None else ce_update env) as [er|]; [by destruct (ce_isConflict env er)|].
  destruct (ct_Suspend (co_Spec obj)); [by apply degraded_cluster_truthful|].
  destruct (ce_profile env) as [profile|er]; [|by apply degraded_cluster_truthful].
  destruct (matchedNamespaces env (co_Spec obj) e) as [matched|er]; [|done].
  unfold reconcile_matched, loadClusterScopeBinding. destruct (LoadCluster (ce_scope env)) as [b|v] eqn:Hload; [|done].
  destruct (if cluster_Enforced b then _ else _) as [[reason msg]|]; [by apply degraded_cluster_truthful|].
  unfold ComputeFilterStatus. set (ceiling := if cluster_Enforced b then _ else _).
  set (m := MatchIntentNamespaces _ _ _ _). set (effective := EffectiveNamespaces m ceiling _ _).
  destruct (syncEngineTargets env (co_Name obj) (co_Spec obj) profile effective ceiling e) as [[msg|] e1] eqn:Hsync.
  { apply degraded_cluster_truthful. done. }
  destruct (sync_exact _ _ _ _ _ _ _ _ Hok (effective_names _ _ _ _ _ Hnames) Hsync) as (_ & Hex & Hreg & _).
  intros s. cbn [finish out_Saved out_Engine]. intros Hs. destruct (cluster_setReady_saved _ _ _ _ _ _ _ Hs) as ([c ->] & -> & -> & ->).
  cbn [ts_EffectiveNamespaces updateTargetFilterStatus]. split_and!; [done|done|done|done|].
  intros sc Hsc. rewrite Hload in Hsc. injection Hsc as ->. apply Forall_forall. intros ns (_ & _ & Hp)%elem_of_EffectiveNamespaces.
  revert Hp. unfold ceiling, permitted, cluster_admits. cbn. tauto.
Qed.
End properties.

(** * Two namespaces *)
Module ClusterDemo.
Import EngineDemo ListConditions TargetDemo.

#[local] Existing Instances demo_kube demo_cel demo_extract demo_sha256 map_range_to_list ascii_only_case.
#[local] Existing Instances TargetDemo.api_errors TargetDemo.texts.

Definition all_pods (name : string) (suspend : bool) : cluster_obj :=
  mkClusterObj name 1
    (mkKollectClusterTargetSpec (mkNamespacedObjectReference "p" "platform") None (mkCollectionFilterSpec [] [] None []) suspend)
    [clusterTargetCleanupFinalizer] false blank.

Definition namespaces : list (string * NamespaceMeta) := [("a", empty_meta); ("b", empty_meta)].

(** A cluster scope that allows the namespace [a] only. *)
Definition only_a : KollectClusterScope :=
  mkKollectClusterScope "scope" (mkKollectClusterScopeSpec (mkScopeCeilingSpec [] ["a"] [] None) [] [] [] []).

Definition env (obj : cluster_obj) (filter_list : option (list (string * NamespaceMeta))) : cluster_env :=
  mkClusterEnv (Ok obj) None (λ _, false) (Ok profile) (Ok namespaces) (Some [only_a]) (Leaf 0 "") filter_list (Some namespaces)
    (λ _, None) None 0 (λ _, "") (λ _, "").

Definition fresh : EngineState := NewEngine Store.NewStore.

Lemma fresh_ok : index_ok fresh.
Proof.
  split.
  - intros g. unfold keys_at, fresh. cbn. rewrite lookup_empty. constructor.
  - intros g k. unfold keys_at, fresh. cbn. rewrite lookup_empty. split; [by intros ?%elem_of_nil|]. intros (st & Hst & _).
    by apply lookup_empty_Some in Hst.
  - intros k st Hst. unfold fresh in Hst. cbn in Hst. by apply lookup_empty_Some in Hst.
Qed.

Definition saved (o : outcome) : TargetStatus := default blank (out_Saved o).

Lemma cluster_status_truthful_witness :
  let o := cluster_Reconcile (env (all_pods "all" false) (Some namespaces)) fresh in
  ts_EffectiveNamespaces (saved o) = ["a"] ∧ cluster_truthful (env (all_pods "all" false) (Some namespaces)) (all_pods "all" false) o.
Proof.
  cbv zeta. split; [vm_compute; reflexivity|].
  apply (cluster_status_truthful (env (all_pods "all" false) (Some namespaces)) fresh (all_pods "all" false)).
  - exact fresh_ok.
  - reflexivity.
  - intros l [= <-]. by repeat constructor.
Defined.

(** The engine after the first reconcile. *)
Definition running : EngineState := out_Engine (cluster_Reconcile (env (all_pods "all" false) (Some namespaces)) fresh).

(** A failed list of the namespaces for the filter counts as no namespace: the
    cluster target is unregistered everywhere, its rows are dropped, and the
    status says Ready. *)
Example failed_list_drops_everything :
  let o := cluster_Reconcile (env (all_pods "all" false) None) running in
  registeredNamespaces "all" running = ["a"] ∧ registeredNamespaces "all" (out_Engine o) = [] ∧
  out_Err o = None ∧ is_Some (FindStatusCondition (ts_Conditions (saved o)) conditionReady).
Proof. vm_compute. eauto. Qed.

(** Registrations are found by name alone: suspending the cluster target [pods]
    unregisters the target [pods] of the namespace [team] and drops its rows. *)
Example same_name_unregistered :
  let o := cluster_Reconcile (env (all_pods "pods" true) (Some namespaces)) collected in
  is_Some (targets collected !! "team/pods") ∧ targets (out_Engine o) !! "team/pods" = None ∧
  rows (estore (out_Engine o)) !! ("team", "pods", "u1") = None.
Proof. vm_compute. eauto. Qed.
End ClusterDemo.
