(* ===== verification/ObjectStore.v ===== *)
(** The sinks that store an export as objects: the S3-compatible bucket of
    [src/internal/sink/s3] (GCS is the same backend behind another name) and the
    local directory of [src/internal/sink/local].

    The S3 service is the class [S3Api]: what the n-th call answers. Its laws,
    [S3Laws], are the documented behaviour of a listing: a page holds keys that
    exist and start with the prefix, a truncated page is not empty and comes with a
    token, and the pages up to a token leave out no key the token has passed. A
    directory is a [worktree] keyed by the full path; it has no symbolic links. *)

From S2P Require Import Prelude GoStrings GoPath Values Store Json Envelope Partition Errors GoTemplate SinkSpec ObjectPath Layout GitTree GitErrors LayoutExport SinkExport.

(** * The bucket *)

Record list_page := mkListPage {
  pg_Contents : list string;
  pg_IsTruncated : bool;
  pg_NextContinuationToken : option string;
}.

(** A failed deletion may have taken effect. *)
Inductive delete_result := Deleted | DeleteFailed (e : err) (removed : bool).

Class S3Api := {
  s3_list : nat → gmap string string → string → option string → result err list_page;
  s3_delete : nat → string → delete_result;
  s3_put : nat → string → option err;
}.

(** The objects of a bucket, and the number of calls the service has answered. *)
Record bucket := mkBucket {
  bk_objects : gmap string string;
  bk_calls : nat;
}.

(** Go: internal/sink/s3/config.go:22-35 [Config] *)
Record S3Config := mkS3Config {
  s3_Bucket : string;
  s3_Prefix : string;
  s3_Format : string;
}.

(** [url_parts] is [url.Parse]: scheme, host and path. The result is the bucket
    and the prefix.
    Go: internal/sink/s3/config.go:94-126 [parseEndpoint] *)
Definition parseEndpoint (url_parts : string → option (string * string * string)) (endpoint : string) : string * string :=
  let bucket_prefix s :=
    match cut_byte "/" s with None => (s, "") | Some (b, rest) => (b, trim_suffix "/" rest) end in
  match cut_prefix "s3://" endpoint with
  | Some rest => bucket_prefix rest
  | None =>
      match url_parts endpoint with
      | Some (scheme, host, p) =>
          if decide (scheme ≠ "" ∧ host ≠ "") then
            let p := trim ["/"%char] p in
            if decide (p ≠ "") then bucket_prefix p else ("", "")
          else bucket_prefix endpoint
      | None => bucket_prefix endpoint
      end
  end.

Section s3.
Context `{!S3Api, !ErrorTexts, !ApiErrors}.

Definition ListObjectsV2 (prefix : string) (token : option string) (w : bucket) : result err list_page * bucket :=
  (s3_list (bk_calls w) (bk_objects w) prefix token, mkBucket (bk_objects w) (S (bk_calls w))).

Definition DeleteObject (key : string) (w : bucket) : option err * bucket :=
  let gone := mkBucket (delete key (bk_objects w)) (S (bk_calls w)) in
  match s3_delete (bk_calls w) key with
  | Deleted => (None, gone)
  | DeleteFailed e true => (Some e, gone)
  | DeleteFailed e false => (Some e, mkBucket (bk_objects w) (S (bk_calls w)))
  end.

Definition PutObject (key body : string) (w : bucket) : option err * bucket :=
  match s3_put (bk_calls w) key with
  | None => (None, mkBucket (<[key := body]> (bk_objects w)) (S (bk_calls w)))
  | Some e => (Some e, mkBucket (bk_objects w) (S (bk_calls w)))
  end.

(** The key of an object path. *)
Definition s3_key (cfg : S3Config) (objectPath : string) : string :=
  if decide (s3_Prefix cfg ≠ "") then path_join (s3_Prefix cfg) objectPath else objectPath.

(** [encode] is the Parquet encoder.
    Go: internal/sink/s3/backend.go:75-129 [Export] *)
Definition s3_Export (encode : string → string → result err string) (cfg : S3Config) (payload objectPath : string)
    (w : bucket) : option err * bucket :=
  let objectPath := trim_space objectPath in
  let objectPath := if decide (objectPath = "") then "inventory/latest.json" else objectPath in
  let body :=
    if decide (s3_Format cfg = FormatParquet) then encode payload objectPath
    else if decide (payload = "") then Err (plain "s3 export: empty payload") else Ok payload in
  match body with
  | Err e => (Some e, w)
  | Ok body =>
      let '(e, w) := PutObject (s3_key cfg objectPath) body w in
      (errorf "s3 PutObject" <$> e, w)
  end.

(** ** Deletion *)

(** The keys of a page that belong to the matcher, one after the other. *)
Fixpoint delete_page (keyRoot : string) (m : KeyMatcher) (keys : list string) (w : bucket) :
    result err (list string) * bucket :=
  match keys with
  | [] => (Ok [], w)
  | key :: keys =>
      let rel := trim_prefix keyRoot key in
      if decide (rel = key ∧ keyRoot ≠ "") then delete_page keyRoot m keys w
      else if negb (Matches m rel) then delete_page keyRoot m keys w
      else
        match DeleteObject key w with
        | (Some e, w) => (Err (errorf ("s3 cleanup delete " +:+ quote key) e), w)
        | (None, w) =>
            let '(rest, w) := delete_page keyRoot m keys w in
            ((λ ds, rel :: ds) <$> rest, w)
        end
  end.

(** The prefix that is listed for a matcher. *)
Definition list_prefix (cfg : S3Config) (m : KeyMatcher) : string :=
  let p := km_Prefix m in
  if decide (s3_Prefix cfg ≠ "") then
    path_join (s3_Prefix cfg) (trim_suffix "/" p) +:+ (if has_suffix "/" p then "/" else "")
  else p.

(** The loop over the pages; [fuel] bounds their number, [None] is running out. *)
Fixpoint delete_pages (fuel : nat) (listPrefix keyRoot : string) (m : KeyMatcher) (token : option string) (w : bucket) :
    option (result err (list string) * bucket) :=
  match fuel with
  | 0 => None
  | S fuel =>
      match ListObjectsV2 listPrefix token w with
      | (Err e, w) => Some (Err (errorf ("s3 cleanup list " +:+ quote listPrefix) e), w)
      | (Ok page, w) =>
          match delete_page keyRoot m (pg_Contents page) w with
          | (Err e, w) => Some (Err e, w)
          | (Ok deleted, w) =>
              if negb (pg_IsTruncated page) then Some (Ok deleted, w)
              else
                match delete_pages fuel listPrefix keyRoot m (pg_NextContinuationToken page) w with
                | None => None
                | Some (rest, w) => Some ((λ ds, deleted ++ ds) <$> rest, w)
                end
          end
      end
  end.

(** Go: internal/sink/s3/delete.go:53-103 [deleteMatching] *)
Definition deleteMatching (fuel : nat) (cfg : S3Config) (keyRoot : string) (m : KeyMatcher) (w : bucket) :
    option (result err (list string) * bucket) :=
  delete_pages fuel (list_prefix cfg m) keyRoot m None w.

Fixpoint delete_matchers (fuel : nat) (cfg : S3Config) (keyRoot : string) (ms : list KeyMatcher) (w : bucket) :
    option (result err (list string) * bucket) :=
  match ms with
  | [] => Some (Ok [], w)
  | m :: ms =>
      match deleteMatching fuel cfg keyRoot m w with
      | None => None
      | Some (Err e, w) => Some (Err e, w)
      | Some (Ok got, w) =>
          match delete_matchers fuel cfg keyRoot ms w with
          | None => None
          | Some (rest, w) => Some ((λ ds, got ++ ds) <$> rest, w)
          end
      end
  end.

Definition key_root (cfg : S3Config) : string :=
  if decide (s3_Prefix cfg ≠ "") then trim_suffix "/" (s3_Prefix cfg) +:+ "/" else "".

(** The loop over the paths is the loop over all their matchers: a blank path has
    none.
    Go: internal/sink/s3/delete.go:18-51 [DeleteExport] *)
Definition s3_DeleteExport (fuel : nat) (cfg : S3Config) (paths : list string) (w : bucket) :
    option (result err (list string) * bucket) :=
  delete_matchers fuel cfg (key_root cfg) (concat (CleanupMatchers <$> filter (λ p, p ≠ "") (trim_space <$> paths))) w.
End s3.

(** * What a deletion removes *)

(** [passed t k]: a listing that continues at token [t] is past key [k]. *)
Class S3Laws `{!S3Api} := {
  passed : string → string → bool;
  s3_page n objs prefix token page :
    s3_list n objs prefix token = Ok page →
    let before k := match token with None => false | Some t => passed t k end in
    (∀ k, k ∈ pg_Contents page → is_Some (objs !! k) ∧ has_prefix prefix k = true ∧ before k = false) ∧
    (if pg_IsTruncated page then
       ∃ t, pg_NextContinuationToken page = Some t ∧ pg_Contents page ≠ [] ∧
         (∀ k, k ∈ pg_Contents page → passed t k = true) ∧ (∀ k, before k = true → passed t k = true) ∧
         (∀ k, is_Some (objs !! k) → has_prefix prefix k = true → before k = false → passed t k = true →
            k ∈ pg_Contents page)
     else ∀ k, is_Some (objs !! k) → has_prefix prefix k = true → before k = false → k ∈ pg_Contents page);
}.

Section s3_lemmas.
Context `{!S3Api, !ErrorTexts, !ApiErrors, !S3Laws}.

Definition before (token : option string) (k : string) : bool := match token with None => false | Some t => passed t k end.

(** The keys of a matcher below the root. *)
Definition owned (keyRoot : string) (m : KeyMatcher) (key : string) : bool :=
  let rel := trim_prefix keyRoot key in
  negb (bool_decide (rel = key ∧ keyRoot ≠ "")) && Matches m rel.

Lemma owned_true keyRoot m key : owned keyRoot m key = true ↔ ∃ rel, key = keyRoot +:+ rel ∧ Matches m rel = true.
Proof.
  unfold owned. rewrite andb_true_iff, negb_true_iff, bool_decide_eq_false. split.
  - intros [Hn Hm]. unfold trim_prefix in Hn, Hm. destruct (cut_prefix keyRoot key) as [rel|] eqn:Hc; cbn [default] in Hn, Hm.
    + apply cut_prefix_Some in Hc as ->. by exists rel.
    + destruct (decide (keyRoot = "")) as [->|Hr]; [by exists key|]. destruct Hn. done.
  - intros (rel & -> & Hm). rewrite trim_prefix_app. split; [|done]. intros [Heq Hne]. apply Hne.
    assert (String.length rel = String.length keyRoot + String.length rel) as Hl by (by rewrite <- length_app, <- Heq).
    destruct keyRoot; [done|cbn in Hl; lia].
Qed.

Lemma delete_page_ok keyRoot m keys w ds w' :
  delete_page keyRoot m keys w = (Ok ds, w') →
  (∀ k, bk_objects w' !! k = if decide (k ∈ keys ∧ owned keyRoot m k = true) then None else bk_objects w !! k) ∧
  (∀ q, q ∈ ds → Matches m q = true ∧ keyRoot +:+ q ∈ keys).
Proof.
  revert w ds. induction keys as [|key keys IH]; intros w ds; cbn [delete_page].
  { intros [= <- <-]. split; [|by intros q ?%not_elem_of_nil]. intros k. rewrite decide_False; [done|].
    by intros [?%not_elem_of_nil _]. }
  assert (owned keyRoot m key = false → delete_page keyRoot m keys w = (Ok ds, w') →
    (∀ k, bk_objects w' !! k = if decide (k ∈ key :: keys ∧ owned keyRoot m k = true) then None else bk_objects w !! k) ∧
    (∀ q, q ∈ ds → Matches m q = true ∧ keyRoot +:+ q ∈ key :: keys)) as Hskip.
  { intros Ho [Hk Hq]%IH. split.
    - intros k. rewrite Hk. apply decide_ext. rewrite elem_of_cons. split; [tauto|]. intros [[->|?] ?]; [congruence|done].
    - intros q [? ?]%Hq. split; [done|by right]. }
  unfold owned in Hskip at 1. destruct (decide (trim_prefix keyRoot key = key ∧ keyRoot ≠ "")) as [Hrel|Hrel];
    [apply Hskip; by rewrite bool_decide_true|].
  rewrite bool_decide_false in Hskip by done. cbn [negb andb] in Hskip.
  destruct (Matches m (trim_prefix keyRoot key)) eqn:Hm; cbn [negb]; [|by apply Hskip]. clear Hskip.
  assert (owned keyRoot m key = true) as Ho by (unfold owned; by rewrite bool_decide_false, Hm).
  apply owned_true in Ho as Hrelkey. destruct Hrelkey as (rel & Hkey & Hrelm).
  unfold DeleteObject. destruct (s3_delete _ _) as [|e []]; [|done..].
  destruct (delete_page keyRoot m keys _) as [[ds'|] w1] eqn:Hd; [|done]. intros [= <- <-].
  apply IH in Hd as [Hk Hq]. split.
  - intros k. rewrite Hk. cbn [bk_objects]. destruct (decide (k = key)) as [->|Hne].
    + rewrite lookup_delete_eq. rewrite (decide_True (P := key ∈ key :: keys ∧ _)); [by case_decide|]. split; [left|done].
    + rewrite lookup_delete_ne by done. apply decide_ext. rewrite elem_of_cons. tauto.
  - intros q [->|Hin]%elem_of_cons; [|apply Hq in Hin as [? ?]; split; [done|by right]].
    rewrite Hkey, trim_prefix_app. split; [done|left].
Qed.

(** All pages of a listing together: every key of the matcher under the prefix. *)
Lemma delete_pages_ok fuel listPrefix keyRoot m token w ds w' :
  delete_pages fuel listPrefix keyRoot m token w = Some (Ok ds, w') →
  (∀ k, bk_objects w' !! k =
     if decide (owned keyRoot m k = true ∧ has_prefix listPrefix k = true ∧ before token k = false) then None
     else bk_objects w !! k) ∧
  (∀ q, q ∈ ds → Matches m q = true ∧ is_Some (bk_objects w !! (keyRoot +:+ q))).
Proof.
  revert token w ds. induction fuel as [|fuel IH]; intros token w ds; cbn [delete_pages]; [done|].
  cbn [ListObjectsV2]. destruct (s3_list _ _ _ _) as [page|] eqn:Hl; [|done]. apply s3_page in Hl as [Hc Ht].
  fold (before token) in Hc, Ht. destruct (delete_page _ _ _ _) as [[ds1|] w1] eqn:Hp; [|done].
  apply delete_page_ok in Hp as [Hk Hq]. cbn [bk_objects] in Hk.
  assert (∀ q, q ∈ ds1 → Matches m q = true ∧ is_Some (bk_objects w !! (keyRoot +:+ q))) as Hds1.
  { intros q [? Hin]%Hq. split; [done|]. by apply Hc in Hin as [? _]. }
  destruct (pg_IsTruncated page); cbn [negb].
  - destruct Ht as (t & -> & _ & Hpt & Hmono & Hcomp).
    destruct (delete_pages fuel _ _ _ _ w1) as [[[ds2|] w2]|] eqn:Hrec; [|done..]. intros [= <- <-].
    apply IH in Hrec as [Hk2 Hq2]. cbn [before] in Hk2. split.
    + intros k. rewrite Hk2, Hk. destruct (passed t k) eqn:Hpk.
      * rewrite (decide_False (P := owned keyRoot m k = true ∧ _)) by (by intros (_ & _ & ?)).
        destruct (decide (k ∈ pg_Contents page ∧ _)) as [[Hin Ho]|Hn].
        { apply Hc in Hin as (_ & ? & ?). by rewrite decide_True. }
        case_decide as Hd; [|done]. destruct Hd as (Ho & Hpre & Hb). destruct (bk_objects w !! k) eqn:Hs; [|done].
        destruct Hn. split; [|done]. apply Hcomp; [by eexists|done..].
      * rewrite (decide_False (P := k ∈ _ ∧ _)) by (intros [Hin _]; apply Hpt in Hin; congruence). apply decide_ext.
        split; intros (? & ? & ?); (split_and!; [done..|]); [|done]. destruct (before token k) eqn:Hb; [|done]. apply Hmono in Hb. congruence.
    + intros q [Hin|Hin]%elem_of_app; [by apply Hds1|]. apply Hq2 in Hin as [? Hs]. split; [done|]. rewrite Hk in Hs.
      case_decide; [by destruct Hs|done].
  - intros [= <- <-]. split; [|done]. intros k. rewrite Hk. destruct (decide (k ∈ pg_Contents page ∧ _)) as [[Hin Ho]|Hn].
    + apply Hc in Hin as (_ & ? & ?). by rewrite decide_True.
    + case_decide as Hd; [|done]. destruct Hd as (Ho & Hpre & Hb). destruct (bk_objects w !! k) eqn:Hs; [|done].
      destruct Hn. split; [|done]. apply Ht; [by eexists|done..].
Qed.

(** The keys a listing has still to visit. *)
Definition pending (listPrefix : string) (token : option string) (w : bucket) : gset string :=
  filter (λ k, has_prefix listPrefix k = true ∧ before token k = false) (dom (bk_objects w)).

Lemma delete_pages_total fuel listPrefix keyRoot m token w :
  size (pending listPrefix token w) < fuel → is_Some (delete_pages fuel listPrefix keyRoot m token w).
Proof.
  revert token w. induction fuel as [|fuel IH]; intros token w Hf; cbn [delete_pages]; [lia|].
  cbn [ListObjectsV2]. destruct (s3_list _ _ _ _) as [page|] eqn:Hl; [|by eexists]. apply s3_page in Hl as [Hc Ht].
  fold (before token) in Hc, Ht. destruct (delete_page _ _ _ _) as [[ds1|] w1] eqn:Hp; [|by eexists].
  apply delete_page_ok in Hp as [Hk _]. cbn [bk_objects] in Hk.
  destruct (pg_IsTruncated page); cbn [negb]; [|by eexists]. destruct Ht as (t & -> & Hne & Hpt & Hmono & _).
  destruct (IH (Some t) w1) as [[r w2] ->]; [|by eexists].
  assert (size (pending listPrefix (Some t) w1) < size (pending listPrefix token w)); [|lia].
  apply subset_size. split.
  - intros k. unfold pending. rewrite !elem_of_filter, !elem_of_dom. intros [[Hpre Hb] Hs]. cbn [before] in Hb. split_and!; [done| |].
    + destruct (before token k) eqn:Hbk; [|done]. apply Hmono in Hbk. congruence.
    + rewrite Hk in Hs. case_decide; [by destruct Hs|done].
  - destruct (pg_Contents page) as [|k ks]; [done|]. intros Hsub. specialize (Hc k ltac:(left)). destruct Hc as (Hs & Hpre & Hb).
    specialize (Hsub k). unfold pending in Hsub. rewrite !elem_of_filter, !elem_of_dom in Hsub.
    destruct Hsub as [[_ Hb'] _]; [done|]. cbn [before] in Hb'. by rewrite (Hpt k ltac:(left)) in Hb'.
Qed.

Lemma delete_matchers_ok fuel cfg keyRoot ms w ds w' :
  (∀ m k, m ∈ ms → owned keyRoot m k = true → has_prefix (list_prefix cfg m) k = true) →
  delete_matchers fuel cfg keyRoot ms w = Some (Ok ds, w') →
  (∀ k, bk_objects w' !! k = if decide (Exists (λ m, owned keyRoot m k = true) ms) then None else bk_objects w !! k) ∧
  (∀ q, q ∈ ds → Exists (λ m, Matches m q = true) ms ∧ is_Some (bk_objects w !! (keyRoot +:+ q))).
Proof.
  revert w ds. induction ms as [|m ms IH]; intros w ds Hpre; cbn [delete_matchers].
  { intros [= <- <-]. split; [|by intros q ?%not_elem_of_nil]. intros k. rewrite decide_False; [done|]. by intros ?%Exists_nil. }
  unfold deleteMatching. destruct (delete_pages _ _ _ _ _ w) as [[[got|] w1]|] eqn:Hp; [|done..].
  destruct (delete_matchers fuel cfg keyRoot ms w1) as [[[rest|] w2]|] eqn:Hr; [|done..]. intros [= <- <-].
  apply delete_pages_ok in Hp as [Hk1 Hq1]. apply IH in Hr as [Hk2 Hq2]; [|intros; apply Hpre; [by right|done]]. cbn [before] in Hk1. split.
  - intros k. rewrite Hk2, Hk1. destruct (decide (Exists _ ms)) as [He|He].
    + by rewrite decide_True by (by apply Exists_cons; right).
    + apply decide_ext. rewrite Exists_cons. split; [by intros (? & _); left|]. intros [Ho|?]; [|done].
      split_and!; [done| |done]. apply Hpre; [left|done].
  - intros q [Hin|Hin]%elem_of_app; [apply Hq1 in Hin as [? ?]; split; [by left|done]|].
    apply Hq2 in Hin as [? Hs]. split; [by right|]. rewrite Hk1 in Hs. case_decide; [by destruct Hs|done].
Qed.

(** * Which keys a configuration addresses *)

(** A sink prefix in normal form, or none. *)
Definition normal_prefix (cfg : S3Config) : Prop := s3_Prefix cfg = "" ∨ normal_path (s3_Prefix cfg).

(** A path in normal form without blanks around it, whose file name does not start
    with two dots. *)
Definition addressable (p : string) : Prop :=
  trim_space p = p ∧ normal_path p ∧ has_prefix ".." (path_split p).2 = false.

#[export] Instance normal_prefix_dec cfg : Decision (normal_prefix cfg) := _.
#[export] Instance addressable_dec p : Decision (addressable p) := _.

Lemma key_root_normal cfg : normal_path (s3_Prefix cfg) → key_root cfg = s3_Prefix cfg +:+ "/".
Proof. intros Hn. unfold key_root. rewrite decide_True by (by apply normal_nonempty). by rewrite normal_trim_suffix. Qed.

Lemma listed_keys cfg m k :
  normal_prefix cfg → normal_path (km_Prefix m) → owned (key_root cfg) m k = true → has_prefix (list_prefix cfg m) k = true.
Proof.
  intros Hc Hm (rel & -> & Hmatch)%owned_true. apply Matches_true in Hmatch as (rest & -> & _).
  unfold list_prefix. destruct Hc as [Hc|Hc].
  - unfold key_root. rewrite Hc, !decide_False by (by intros []). apply (has_prefix_app (km_Prefix m)).
  - rewrite (key_root_normal _ Hc), decide_True by (by apply normal_nonempty).
    rewrite normal_trim_suffix, normal_path_join, (proj1 (normal_no_slash _ Hm)) by done.
    apply has_prefix_true. exists rest. by rewrite app_nil_r, !app_assoc.
Qed.

(** The export of an addressable path is stored below the key root. *)
Lemma s3_key_root cfg p : normal_prefix cfg → addressable p → s3_key cfg p = key_root cfg +:+ p.
Proof.
  intros Hc (_ & Hp & _). unfold s3_key. destruct Hc as [Hc|Hc].
  - unfold key_root. by rewrite Hc, !decide_False by (by intros []).
  - rewrite decide_True, key_root_normal, normal_path_join, !app_assoc by (done || by apply normal_nonempty). done.
Qed.

Lemma swept_matchers paths k keyRoot :
  Forall addressable paths →
  Exists (λ m, owned keyRoot m k = true) (concat (CleanupMatchers <$> filter (λ p, p ≠ "") (trim_space <$> paths))) ↔
  ∃ rel p, k = keyRoot +:+ rel ∧ p ∈ paths ∧ covered p rel.
Proof.
  intros Hp. assert (filter (λ p, p ≠ "") (trim_space <$> paths) = paths) as ->.
  { induction Hp as [|p paths (Ht & Hne%normal_nonempty & _) _ IH]; [done|]. cbn [fmap list_fmap].
    by rewrite filter_cons, Ht, decide_True, IH. }
  rewrite Forall_forall in Hp. rewrite Exists_exists. split.
  - intros (m & (ms & Hms & Hm)%list_elem_of_In%in_concat & (rel & -> & Hr)%owned_true).
    apply list_elem_of_In, list_elem_of_fmap in Hms as (p & -> & Hin). exists rel, p. split_and!; [done..|].
    apply Hp in Hin as (? & ? & _). apply swept_covered; [done..|]. apply existsb_exists. by exists m.
  - intros (rel & p & -> & Hin & Hc). pose proof (Hp _ Hin) as (? & ? & _).
    apply swept_covered in Hc as (m & Hm & Hr)%existsb_exists; [|done..]. exists m. split; [|apply owned_true; by exists rel].
    apply list_elem_of_In, in_concat. exists (CleanupMatchers p). split; [|done]. apply list_elem_of_In, list_elem_of_fmap. by exists p.
Qed.

(** The whole deletion. *)
Lemma s3_delete_spec fuel cfg paths w :
  size (bk_objects w) < fuel → normal_prefix cfg → Forall addressable paths →
  is_Some (s3_DeleteExport fuel cfg paths w) ∧
  ∀ deleted w', s3_DeleteExport fuel cfg paths w = Some (Ok deleted, w') →
    (∀ k, bk_objects w' !! k = None ↔
       bk_objects w !! k = None ∨ ∃ rel p, k = key_root cfg +:+ rel ∧ p ∈ paths ∧ covered p rel) ∧
    (∀ k, is_Some (bk_objects w' !! k) → bk_objects w' !! k = bk_objects w !! k) ∧
    (∀ p, p ∈ paths → own_key p → bk_objects w' !! s3_key cfg p = None) ∧
    (∀ q, q ∈ deleted → is_Some (bk_objects w !! (key_root cfg +:+ q)) ∧ bk_objects w' !! (key_root cfg +:+ q) = None).
Proof.
  intros Hf Hc Hp. rewrite Forall_forall in Hp. set (ms := concat (CleanupMatchers <$> filter (λ p, p ≠ "") (trim_space <$> paths))).
  assert (∀ m k, m ∈ ms → owned (key_root cfg) m k = true → has_prefix (list_prefix cfg m) k = true) as Hl.
  { intros m k Hm. apply listed_keys; [done|]. apply list_elem_of_In, in_concat in Hm as (l & Hl & Hm).
    apply list_elem_of_In, list_elem_of_fmap in Hl as (p & -> & Hin). apply list_elem_of_filter in Hin as [_ Hin].
    apply list_elem_of_fmap in Hin as (p' & -> & Hin). apply Hp in Hin as (Ht & Hn & Hd). rewrite Ht in Hm.
    eapply matcher_prefix_normal; [exact Ht|done|done|]. by apply list_elem_of_In. }
  split.
  - unfold s3_DeleteExport. fold ms. clear Hl. generalize ms. clear ms. intros ms. revert w Hf. induction ms as [|m ms IH]; intros w Hf; [by eexists|].
    cbn [delete_matchers]. unfold deleteMatching.
    destruct (delete_pages_total fuel (list_prefix cfg m) (key_root cfg) m None w) as [[[got|] w1] Hd].
    { eapply Nat.le_lt_trans; [|exact Hf]. rewrite <- size_dom. apply subseteq_size. unfold pending. set_solver. }
    + rewrite Hd. destruct (IH w1) as [[r w2] ->]; [|by eexists]. apply delete_pages_ok in Hd as [Hk _].
      eapply Nat.le_lt_trans; [|exact Hf]. rewrite <- !size_dom. apply subseteq_size. intros k. rewrite !elem_of_dom, Hk.
      case_decide; [by intros []|done].
    + rewrite Hd. by eexists.
  - intros deleted w' Hd. apply delete_matchers_ok in Hd as [Hk Hq]; [|exact Hl].
    assert (∀ k, bk_objects w' !! k = None ↔
      bk_objects w !! k = None ∨ ∃ rel p, k = key_root cfg +:+ rel ∧ p ∈ paths ∧ covered p rel) as Hgone.
    { intros k. rewrite Hk, <- swept_matchers by (by apply Forall_forall). case_decide; tauto. }
    split_and!; [exact Hgone| | |].
    + intros k Hs. rewrite Hk in Hs |- *. case_decide; [by destruct Hs|done].
    + intros p Hin Ho. apply Hgone. right. exists p, p. apply Hp in Hin as Ha.
      split_and!; [by apply s3_key_root|done|by apply covered_own].
    + intros q [Hm Hs]%Hq. split; [done|]. rewrite Hk, decide_True; [done|]. eapply Exists_impl; [exact Hm|].
      intros m Hmq. apply owned_true. by exists q.
Qed.

(** C40. Deleting an inventory's paths from a bucket, when the sink's prefix is empty or
    in normal form and each path is in normal form, has no blanks around it and
    no file name that starts with two dots: the loop over the listing pages ends
    within as many pages as the bucket has objects, plus one, although it deletes
    while it lists. When it succeeds, the objects that are gone are exactly those
    below the prefix that one of the paths covers: the path itself and its parts,
    with the marker of a part before the extension, or for a path of the hive
    layout the Parquet files of every generation in its partition and those of its
    parts. So the object of a path is gone, except for a path of the hive layout
    that does not end in the Parquet file of a generation; what stays is unchanged,
    and every reported path was there and is gone. *)
Theorem s3_delete_exact fuel cfg paths w :
  size (bk_objects w) < fuel → normal_prefix cfg → Forall addressable paths →
  is_Some (s3_DeleteExport fuel cfg paths w) ∧
  ∀ deleted w', s3_DeleteExport fuel cfg paths w = Some (Ok deleted, w') →
    (∀ k, bk_objects w' !! k = None ↔
       bk_objects w !! k = None ∨ ∃ rel p, k = key_root cfg +:+ rel ∧ p ∈ paths ∧ covered p rel) ∧
    (∀ k, is_Some (bk_objects w' !! k) → bk_objects w' !! k = bk_objects w !! k) ∧
    (∀ p, p ∈ paths → own_key p → bk_objects w' !! s3_key cfg p = None) ∧
    (∀ q, q ∈ deleted → is_Some (bk_objects w !! (key_root cfg +:+ q)) ∧ bk_objects w' !! (key_root cfg +:+ q) = None).
Proof. apply s3_delete_spec. Qed.
End s3_lemmas.

(** * The local directory *)

Section local.
Context `{!ErrorTexts}.
Variable OutputDir : string.

(** Go: internal/sink/local/backend.go:69-84 [safeJoin] *)
Definition safeJoin (p : string) : result err string :=
  if has_prefix "/" p then Err (plain ("local sink: path " +:+ quote p +:+ " must be relative, got an absolute path"))
  else
    let base := path_clean OutputDir in
    let full := path_clean (path_join base p) in
    if bool_decide (full ≠ base) && negb (has_prefix (base +:+ "/") full)
    then Err (plain ("local sink: path " +:+ quote p +:+ " escapes output directory"))
    else Ok full.

(** [io_err] is a failure of the file system on a path.
    Go: internal/sink/local/backend.go:46-67 [Export] *)
Definition local_Export (io_err : string → err) (payload p : string) (t : worktree) : option err * worktree :=
  match safeJoin p with
  | Err e => (Some e, t)
  | Ok full =>
      if decide (wt_nodes t !! full = Some (Regular payload)) then (None, t)
      else
        match fs_write full payload t with
        | Some t => (None, t)
        | None => (Some (errorf ("local sink: write " +:+ quote full) (io_err full)), t)
        end
  end.

(** [before] is the tree at the time of the listing. *)
Fixpoint remove_entries (before : worktree) (m : KeyMatcher) (listDir baseDir : string) (names : list string) (t : worktree) :
    result err (list string) * worktree :=
  match names with
  | [] => (Ok [], t)
  | name :: names =>
      let full := JoinDir listDir name in
      if decide (lstat before (baseDir +:+ "/" +:+ name) = Some StatDir) then remove_entries before m listDir baseDir names t
      else if negb (Matches m full) then remove_entries before m listDir baseDir names t
      else
        match safeJoin full with
        | Err e => (Err e, t)
        | Ok fullPath =>
            let '(rest, t) := remove_entries before m listDir baseDir names (fs_remove fullPath t) in
            ((λ ds, full :: ds) <$> rest, t)
        end
  end.

(** A missing directory holds nothing to remove; removing a file succeeds.
    Go: internal/sink/local/delete.go:48-90 [removeMatchingDir] *)
Definition removeMatchingDir (io_err : string → err) (m : KeyMatcher) (t : worktree) : result err (list string) * worktree :=
  let listDir := ListDir m in
  match safeJoin listDir with
  | Err e => (Err e, t)
  | Ok baseDir =>
      match lstat t baseDir with
      | None => (Ok [], t)
      | Some StatDir => remove_entries t m listDir baseDir (read_dir t baseDir) t
      | Some _ => (Err (errorf ("local sink cleanup read dir " +:+ quote listDir) (io_err baseDir)), t)
      end
  end.

(** Go: internal/sink/local/delete.go:34-46 [removeMatching] *)
Fixpoint removeMatching (io_err : string → err) (ms : list KeyMatcher) (t : worktree) : result err (list string) * worktree :=
  match ms with
  | [] => (Ok [], t)
  | m :: ms =>
      match removeMatchingDir io_err m t with
      | (Err e, t) => (Err e, t)
      | (Ok got, t) => let '(rest, t) := removeMatching io_err ms t in ((λ ds, got ++ ds) <$> rest, t)
      end
  end.

(** Go: internal/sink/local/delete.go:15-32 [DeleteExport] *)
Fixpoint local_DeleteExport (io_err : string → err) (paths : list string) (t : worktree) : result err (list string) * worktree :=
  match paths with
  | [] => (Ok [], t)
  | p :: paths =>
      match removeMatching io_err (CleanupMatchers p) t with
      | (Err e, t) => (Err e, t)
      | (Ok got, t) => let '(rest, t) := local_DeleteExport io_err paths t in ((λ ds, got ++ ds) <$> rest, t)
      end
  end.

(** ** Nothing outside the directory *)

(** [q] is the output directory or below it. *)
Definition inside (q : string) : Prop := q = path_clean OutputDir ∨ has_prefix (path_clean OutputDir +:+ "/") q = true.

Lemma safeJoin_inside p full : safeJoin p = Ok full → inside full.
Proof.
  unfold safeJoin, inside. destruct (has_prefix "/" p); [done|]. destruct (_ && _) eqn:Hb; [done|]. intros [= <-].
  apply andb_false_iff in Hb as [Hb|Hb]; [left|right]; [apply bool_decide_eq_false in Hb; by apply dec_stable|].
  by apply negb_false_iff in Hb.
Qed.

(** [t'] is [t] without some files inside the directory that [sel] accepts. *)
Definition shrunk (sel : string → Prop) (t t' : worktree) : Prop :=
  ∀ q, wt_nodes t' !! q = wt_nodes t !! q ∨
       (wt_nodes t' !! q = None ∧ inside q ∧ ∃ rel, sel rel ∧ safeJoin rel = Ok q).

#[local] Instance shrunk_refl sel : Reflexive (shrunk sel).
Proof. intros t q. by left. Qed.

#[local] Instance shrunk_trans sel : Transitive (shrunk sel).
Proof.
  intros t1 t2 t3 H12 H23 q. destruct (H23 q) as [-> | (-> & Hr)]; [apply H12|]. by right.
Qed.

Lemma shrunk_impl (sel sel' : string → Prop) t t' : (∀ rel, sel rel → sel' rel) → shrunk sel t t' → shrunk sel' t t'.
Proof. intros Hs Ht q. destruct (Ht q) as [?|(? & ? & rel & ? & ?)]; [by left|]. right. split_and!; [done..|]. exists rel. auto. Qed.

Lemma remove_entries_shrunk before m listDir baseDir names t :
  shrunk (λ rel, Matches m rel = true) t (remove_entries before m listDir baseDir names t).2.
Proof.
  revert t. induction names as [|name names IH]; intros t; cbn [remove_entries]; [reflexivity|].
  case_decide; [apply IH|]. destruct (Matches m (JoinDir listDir name)) eqn:Hm; cbn [negb]; [|apply IH].
  destruct (safeJoin (JoinDir listDir name)) as [full|e] eqn:Hj; [|reflexivity].
  destruct (remove_entries _ _ _ _ names (fs_remove full t)) as [r t1] eqn:Hr. cbn [snd].
  etrans; [|specialize (IH (fs_remove full t)); rewrite Hr in IH; exact IH].
  intros q. cbn [fs_remove wt_nodes]. destruct (decide (q = full)) as [->|Hne]; [|left; by rewrite lookup_delete_ne].
  right. split; [apply lookup_delete_eq|]. split; [by eapply safeJoin_inside|]. by eexists.
Qed.

Lemma removeMatching_shrunk io_err ms t :
  shrunk (λ rel, Exists (λ m, Matches m rel = true) ms) t (removeMatching io_err ms t).2.
Proof.
  revert t. induction ms as [|m ms IH]; intros t; cbn [removeMatching]; [reflexivity|].
  assert (shrunk (λ rel, Matches m rel = true) t (removeMatchingDir io_err m t).2) as Hd.
  { unfold removeMatchingDir. destruct (safeJoin _); [|reflexivity]. destruct (lstat t _) as [[]|]; try reflexivity.
    apply remove_entries_shrunk. }
  eapply (shrunk_impl _ (λ rel, Exists (λ m', Matches m' rel = true) (m :: ms))) in Hd; [|by left].
  destruct (removeMatchingDir io_err m t) as [[got|] t1]; [|exact Hd].
  specialize (IH t1). destruct (removeMatching io_err ms t1) as [r t2]. cbn [snd] in *. etrans; [exact Hd|].
  eapply shrunk_impl; [|exact IH]. by right.
Qed.

(** Deleting exports from a local directory, whatever the paths are and whether
    or not it succeeds, changes nothing outside the output directory, and the files
    that go are files of a matcher of one of the paths. *)
Theorem local_delete_confined io_err paths t :
  shrunk (λ rel, Exists (λ p, swept p rel = true) paths) t (local_DeleteExport io_err paths t).2.
Proof.
  revert t. induction paths as [|p paths IH]; intros t; cbn [local_DeleteExport]; [reflexivity|].
  pose proof (removeMatching_shrunk io_err (CleanupMatchers p) t) as Hd.
  eapply (shrunk_impl _ (λ rel, Exists (λ p', swept p' rel = true) (p :: paths))) in Hd.
  2:{ intros rel (m & Hin & Hm)%Exists_exists. left. apply existsb_exists. exists m. by rewrite <- list_elem_of_In. }
  destruct (removeMatching io_err _ t) as [[got|] t1]; [|exact Hd].
  specialize (IH t1). destruct (local_DeleteExport io_err paths t1) as [r t2]. cbn [snd] in *. etrans; [exact Hd|].
  eapply shrunk_impl; [|exact IH]. by right.
Qed.
End local.

(** * Evaluated *)

Module ObjectStoreDemo.
#[local] Existing Instances no_api_errors.
#[local] Instance no_texts : ErrorTexts := {| text_of _ := ""; quote s := s |}.

(** A service that lists one key a page, in order, and never fails. *)
Definition after (token : option string) (k : string) : bool :=
  match token with None => true | Some t => negb (bool_decide (String.le k t)) end.

#[local] Instance demo_s3 : S3Api :=
  {| s3_list _ objs prefix token :=
       let keys := sort_strings (filter (λ k, has_prefix prefix k = true ∧ after token k = true) (map_to_list objs).*1) in
       Ok (mkListPage (take 1 keys) (bool_decide (1 < length keys)) (head keys));
     s3_delete _ _ := Deleted; s3_put _ _ := None |}.

#[local] Instance demo_s3_laws : S3Laws.
Proof.
  refine {| passed t k := bool_decide (String.le k t) |}. intros n objs prefix token page [= <-] before.
  set (keys := sort_strings _). assert (∀ k, before k = negb (after token k)) as Hb.
  { intros k. unfold before, after. destruct token; [by rewrite negb_involutive|done]. }
  assert (∀ k, k ∈ keys ↔ is_Some (objs !! k) ∧ has_prefix prefix k = true ∧ before k = false) as Hkeys.
  { intros k. unfold keys. rewrite elem_of_sort_strings, list_elem_of_filter, list_elem_of_fmap, Hb, negb_false_iff. split.
    - intros [[? ?] ([k' v] & -> & Hin%elem_of_map_to_list)]. split_and!; [by eexists|done..].
    - intros ([v Hv] & ? & ?). split; [done|]. exists (k, v). by rewrite elem_of_map_to_list. }
  pose proof (sort_strings_sorted (filter (λ k, has_prefix prefix k = true ∧ after token k = true) (map_to_list objs).*1)) as Hs.
  fold keys in Hs. clearbody keys. destruct keys as [|k0 rest]; cbn.
  { split; [by intros k ?%not_elem_of_nil|]. intros k ? ? ?. by apply Hkeys. }
  split; [intros k ->%list_elem_of_singleton; apply Hkeys; left|]. apply Sorted_StronglySorted in Hs; [|apply _].
  apply StronglySorted_inv in Hs as [_ Hs]. rewrite Forall_forall in Hs. destruct rest as [|k1 rest]; cbn.
  { intros k ? ? ?. by apply Hkeys. }
  exists k0. split_and!; [done|done|..].
  - intros k ->%list_elem_of_singleton. by apply bool_decide_eq_true.
  - intros k Hk. apply bool_decide_eq_true. destruct (total String.le k k0) as [?|Hle]; [done|]. exfalso.
    assert (k0 ∈ k0 :: k1 :: rest) as (_ & _ & Hb0)%Hkeys by left. rewrite Hb in Hk, Hb0.
    rewrite negb_true_iff in Hk. rewrite negb_false_iff in Hb0. unfold after in Hk, Hb0. destruct token as [t|]; [|done].
    apply negb_false_iff, bool_decide_eq_true in Hk. apply negb_true_iff, bool_decide_eq_false in Hb0. apply Hb0. by trans k.
  - intros k Hk Hpre Hbk Hle%bool_decide_eq_true. assert (k ∈ k0 :: k1 :: rest) as Hin by (by apply Hkeys).
    apply elem_of_cons in Hin as [->|Hin]; [left|]. apply Hs in Hin. apply list_elem_of_singleton. by apply (anti_symm String.le).
Qed.

Definition app : string := "inventory/team/app.json".
Definition objects : gmap string string :=
  list_to_map ((λ k, (k, "{}")) <$>
    ["pre/inventory/team/app.json"; "pre/inventory/team/app.part-0001-of-0003.json"; "pre/inventory/team/app.part-0002-of-0003.json";
     "pre/inventory/team/app.part-0003-of-0003.json"; "pre/inventory/team/app-v2.json"; "inventory/team/app.json"]).
Definition remaining (cfg : S3Config) (path : string) (objs : gmap string string) : option (list string) :=
  '(_, w) ← s3_DeleteExport 10 cfg [path] (mkBucket objs 0); Some (sort_strings (map_to_list (bk_objects w)).*1).

Example deletes_parts :
  remaining (mkS3Config "b" "pre" "") app objects = Some ["inventory/team/app.json"; "pre/inventory/team/app-v2.json"].
Proof. by vm_compute. Qed.

Lemma s3_delete_exact_witness :
  let cfg := mkS3Config "b" "pre" "" in
  ∃ w', s3_DeleteExport 10 cfg [app] (mkBucket objects 0) =
      Some (Ok [app; "inventory/team/app.part-0001-of-0003.json"; "inventory/team/app.part-0002-of-0003.json";
                "inventory/team/app.part-0003-of-0003.json"], w') ∧ bk_objects w' !! s3_key cfg app = None.
Proof.
  intros cfg. destruct (s3_delete_exact 10 cfg [app] (mkBucket objects 0)) as [[[r w'] Hr] Hspec].
  - apply (bool_decide_unpack _). vm_compute. exact I.
  - apply (bool_decide_unpack _). vm_compute. exact I.
  - apply (bool_decide_unpack _). vm_compute. exact I.
  - eexists. split; [vm_compute; reflexivity|]. refine (proj1 (proj2 (proj2 (Hspec _ _ _))) app _ _); [vm_compute; reflexivity|left|]. by vm_compute.
Defined.

(** An export below a prefix that is not in normal form is stored under the
    cleaned key, which the deletion lists and then does not recognise: it removes
    nothing and reports no error. The same holds for a path template with an empty
    element below any prefix. *)
Example unclean_prefix_kept :
  let cfg := mkS3Config "b" "a//b" "" in
  let '(e, w) := s3_Export (λ p _, Ok p) cfg "{}" app (mkBucket ∅ 0) in
  e = None ∧ (map_to_list (bk_objects w)).*1 = ["a/b/inventory/team/app.json"] ∧
  option_map fst (s3_DeleteExport 10 cfg [app] w) = Some (Ok []).
Proof. by vm_compute. Qed.

Example unclean_template_kept :
  let cfg := mkS3Config "b" "pre" "" in
  let path := "exports//team/app.json" in
  let '(e, w) := s3_Export (λ p _, Ok p) cfg "{}" path (mkBucket ∅ 0) in
  e = None ∧ (map_to_list (bk_objects w)).*1 = ["pre/exports/team/app.json"] ∧
  option_map fst (s3_DeleteExport 10 cfg [path] w) = Some (Ok []).
Proof. by vm_compute. Qed.

(** A path template may render a path that looks like one of the hive layout and is
    not: its matcher accepts Parquet files only, and the deletion leaves the
    object where it is. *)
Example hive_like_kept :
  let cfg := mkS3Config "b" "pre" "" in
  let path := "exports/name=app/generation=latest.json" in
  let '(e, w) := s3_Export (λ p _, Ok p) cfg "{}" path (mkBucket ∅ 0) in
  e = None ∧ (map_to_list (bk_objects w)).*1 = ["pre/exports/name=app/generation=latest.json"] ∧
  swept path path = false ∧ option_map fst (s3_DeleteExport 10 cfg [path] w) = Some (Ok []).
Proof. by vm_compute. Qed.

Definition dir (files : list string) : worktree := mkWorktree (list_to_map ((λ k, (k, Regular "{}")) <$> files)) ∅.

Example local_deletes_parts :
  let '(e, t) := local_DeleteExport "/out/" plain [app]
    (dir ["/out/inventory/team/app.json"; "/out/inventory/team/app.part-0001-of-0002.json"; "/out/inventory/team/app-v2.json";
          "/etc/inventory/team/app.json"]) in
  e = Ok [app; "inventory/team/app.part-0001-of-0002.json"] ∧
  sort_strings (map_to_list (wt_nodes t)).*1 = ["/etc/inventory/team/app.json"; "/out/inventory/team/app-v2.json"].
Proof. by vm_compute. Qed.

(** The matcher of a hive path lists the directory above its partition, and a
    local deletion does not descend: the generation files stay. *)
Example local_hive_kept :
  let path := "inventory/cluster=default/ns=team/name=app/generation=3.parquet" in
  ((λ m, ListDir m) <$> CleanupMatchers path) = ["inventory/cluster=default/ns=team"] ∧
  swept path path = true ∧
  (local_DeleteExport "/out" plain [path] (dir ["/out/" +:+ path])).1 = Ok [].
Proof. by vm_compute. Qed.

(** The working directory and the root directory are refused as output
    directories, for every path. *)
Example local_dot_refused :
  is_ok (safeJoin "." app) = false ∧ is_ok (safeJoin "./" app) = false ∧ is_ok (safeJoin "/" app) = false ∧
  safeJoin "./inventory" app = Ok "inventory/inventory/team/app.json".
Proof. by vm_compute. Qed.
End ObjectStoreDemo.
