(* ===== verification/GitExport.v ===== *)
(** Delivering an export or a deletion to a Git remote: request validation
    ([src/internal/sink/git/validate.go], [validation/git.go]), the fingerprint
    tracker ([fingerprint.go]), claims on a merge target ([prune_target.go]), the
    mirror ([mirror.go]), commits and pushes ([export.go], [sync_remote.go]) and
    the go-git side of [delete.go].

    A repository is its branches, the branch its HEAD names, the index and the
    working tree; a commit carries its history. A write that fails half-way is
    reported as one that wrote nothing. What go-git does is the class [GoGit], and [GoGitLaws]
    states the behaviour its documentation promises; the argument [n] of an
    operation counts its attempts, so that a transport failure may go away. The
    authentication and the address guard run before all of this. *)

From S2P Require Import Prelude GoStrings GoPath Json Envelope Errors GoTemplate ObjectPath GitTree GoRegexp GitErrors.

(** * Validation *)

Definition SchemeFile : string := "file".
Definition gitDefaultBranch : string := "main".
Definition defaultObjectKey : string := "inventory/latest.json".

(** [net/url]: the scheme, the path and the fragment, and the text of the URL
    without its user information, without and with its fragment. *)
Record URL := mkURL {
  url_Scheme : string;
  url_Path : string;
  url_Fragment : string;
}.

Class UrlApi := {
  url_parse : string → option URL;
  url_text : string → bool → string; (* [String()] of a parsed text, user dropped; [true] keeps the fragment *)
}.

Inductive git_error :=
  | NoFiles
  | EmptyPayload (p : string)
  | BadObjectPath (e : path_error)
  | PruneRejected (e : prune_error)
  | DuplicatePath (p : string)
  | InvalidEndpoint
  | BadCloneURL (why : string)
  | BadRef (ref : string).

Definition ref_char (c : ascii) : bool := is_alnum c || byte_in 65 90 c || one_of ["."; "_"; "/"; "-"]%char c.
Definition ref_first (c : ascii) : bool := is_alnum c || byte_in 65 90 c.

(** [safeGitRefPattern]: anchored, and [$] without flags is the end of the text. *)
Definition safe_ref (s : string) : bool :=
  match s with "" => false | String c s => ref_first c && string_forall ref_char s end.

(** Go: internal/validation/git.go:18-46 [ValidateGitRef] *)
Definition ValidateGitRef (ref : string) : result git_error unit :=
  let ref := trim_space ref in
  if bool_decide (ref = "") || has_prefix "-" ref ||
     (bool_decide (ref = ".") || bool_decide (ref = "..") || contains ref "..") || has_prefix "." ref ||
     (has_suffix "." ref || has_suffix ".lock" ref) || (bool_decide (ref = "@") || contains ref "@{") ||
     has_prefix "refs/" ref || negb (safe_ref ref)
  then Err (BadRef ref) else Ok tt.

(** Go: internal/sink/git/export.go:32-35 [BranchSpec] *)
Record BranchSpec := mkBranchSpec {
  bs_PushBranch : string;
  bs_CloneBranch : string;
}.

(** Go: internal/sink/git/export.go:325-343 [resolveBranches] *)
Definition resolveBranches (defaultBranch : string) (spec : option BranchSpec) : string * string :=
  match spec with
  | None => (defaultBranch, defaultBranch)
  | Some s =>
      let pushBranch := if decide (bs_PushBranch s ≠ "") then bs_PushBranch s else defaultBranch in
      let cloneBranch := if decide (bs_CloneBranch s ≠ "") then bs_CloneBranch s
                         else if decide (bs_PushBranch s ≠ "") then bs_PushBranch s else defaultBranch in
      (cloneBranch, pushBranch)
  end.

(** Go: internal/sink/git/config.go:216-222 [EffectiveBranch] *)
Definition EffectiveBranch (branch defaultBranch : string) : string :=
  if decide (branch ≠ "") then branch else defaultBranch.

(** The part of the sink's [Config] this file reads. *)
Record GitConfig := mkGitConfig {
  gc_Endpoint : string;
  gc_Branch : string;
  gc_ForcePush : bool;
  gc_Prune : PruneConfig;
}.

(** Go: internal/sink/git/validate.go:53-58 [exportRequest] *)
Record exportRequest := mkExportRequest {
  er_cloneURL : string;
  er_cloneBranch : string;
  er_pushBranch : string;
  er_objectPath : string;
}.

Section validate.
Context `{!UnicodeCase, !Sha256, !UrlApi}.

(** Go: internal/sink/git/export.go:484-500 [parseRemote] *)
Definition parseRemote (endpoint : string) : result git_error (string * string) :=
  let endpoint := trim_space endpoint in
  match url_parse endpoint with
  | None => Err InvalidEndpoint
  | Some u =>
      let frag := trim_prefix "branch=" (url_Fragment u) in
      if decide (frag ≠ url_Fragment u ∧ frag ≠ "") then Ok (url_text endpoint false, frag)
      else Ok (url_text endpoint true, gitDefaultBranch)
  end.

(** Go: internal/sink/git/export.go:475-482 [isFileRemote] *)
Definition isFileRemote (cloneURL : string) : bool :=
  match url_parse cloneURL with None => false | Some u => bool_decide (url_Scheme u = SchemeFile) end.

(** The path is made absolute by the process's working directory, which is not
    part of the result's acceptance.
    Go: internal/sink/git/validate.go:153-188 [parseFileGitBarePath] *)
Definition parseFileGitBarePath (cloneURL : string) : result git_error string :=
  match url_parse (trim_space cloneURL) with
  | None => Err InvalidEndpoint
  | Some u =>
      let p := url_Path u in
      if decide (url_Scheme u ≠ SchemeFile) then Err (BadCloneURL "not a file:// URL")
      else if decide (p = "") then Err (BadCloneURL "empty file path")
      else if contains p nul || has_byte (ascii_of_nat 10) p || has_byte (ascii_of_nat 13) p
      then Err (BadCloneURL "file path contains invalid characters")
      else if has_prefix "-" p || has_prefix "-" (path_clean p) then Err (BadCloneURL "file path must not start with '-'")
      else Ok (path_clean p)
  end.

(** Go: internal/sink/git/validate.go:124-151 [validateCloneURL] *)
Definition validateCloneURL (cloneURL : string) : result git_error unit :=
  let cloneURL := trim_space cloneURL in
  if decide (cloneURL = "") then Err (BadCloneURL "empty clone URL")
  else if has_prefix "-" cloneURL then Err (BadCloneURL "clone URL must not start with '-'")
  else
    match url_parse cloneURL with
    | None => Err InvalidEndpoint
    | Some u =>
        if decide (url_Scheme u = SchemeFile) then parseFileGitBarePath cloneURL;; Ok tt
        else if decide (url_Scheme u ∈ ["http"; "https"; "ssh"]) then Ok tt
        else Err (BadCloneURL "unsupported clone URL scheme")
    end.

(** The file loop of [validateExportFiles]. *)
Fixpoint validate_files (seen : gset string) (files : list FileEntry) : result git_error (list FileEntry) :=
  match files with
  | [] => Ok []
  | f :: files =>
      if decide (entry_Data f = "") then Err (EmptyPayload (entry_Path f))
      else
        validatedPath ← lift_err BadObjectPath (ValidateRelativeObjectPath (entry_Path f));
        let validatedPath := if decide (validatedPath = "") then defaultObjectKey else validatedPath in
        lift_err PruneRejected (validatePrunePath validatedPath);;
        if decide (validatedPath ∈ seen) then Err (DuplicatePath validatedPath)
        else
          rest ← validate_files ({[validatedPath]} ∪ seen) files;
          Ok (mkFileEntry validatedPath (entry_Data f) :: rest)
  end.

(** The remote and the branches of a request. *)
Definition request_of (cfg : GitConfig) (branch : option BranchSpec) (objectPath : string) : result git_error exportRequest :=
  '(cloneURL, defaultBranch) ← parseRemote (gc_Endpoint cfg);
  validateCloneURL cloneURL;;
  let '(cloneBranch, pushBranch) := resolveBranches (EffectiveBranch (gc_Branch cfg) defaultBranch) branch in
  ValidateGitRef cloneBranch;;
  ValidateGitRef pushBranch;;
  Ok (mkExportRequest cloneURL cloneBranch pushBranch objectPath).

Definition nothing_to_export (cfg : PruneConfig) (files : list FileEntry) : bool :=
  bool_decide (length files = 0) && (bool_decide (cfg_PruneOwner cfg = "") || negb (cfg_Prune cfg)).

(** Go: internal/sink/git/validate.go:60-122 [validateExportFiles] *)
Definition validateExportFiles (cfg : GitConfig) (files : list FileEntry) (branch : option BranchSpec) :
    result git_error (exportRequest * list FileEntry) :=
  if nothing_to_export (gc_Prune cfg) files then Err NoFiles
  else
    validated ← validate_files ∅ files;
    let objectPath := match validated with f :: _ => entry_Path f | [] => pruneRecordPath (cfg_PruneOwner (gc_Prune cfg)) end in
    req ← request_of cfg branch objectPath;
    Ok (req, validated).

Fixpoint validate_delete (seen : gset string) (paths : list string) : result git_error (list string) :=
  match paths with
  | [] => Ok []
  | p :: paths =>
      validatedPath ← lift_err BadObjectPath (ValidateRelativeObjectPath p);
      if decide (validatedPath = "" ∨ validatedPath ∈ seen) then validate_delete seen paths
      else rest ← validate_delete ({[validatedPath]} ∪ seen) paths; Ok (validatedPath :: rest)
  end.

(** [None] when there is nothing to delete.
    Go: internal/sink/git/delete.go:144-196 [validateDeletePaths] *)
Definition validateDeletePaths (cfg : GitConfig) (paths : list string) (branch : option BranchSpec) :
    result git_error (option (exportRequest * list string)) :=
  validated ← validate_delete ∅ paths;
  let owner := cfg_PruneOwner (gc_Prune cfg) in
  if decide (length validated = 0 ∧ owner = "") then Ok None
  else
    let objectPath := match validated with p :: _ => p | [] => pruneRecordPath owner end in
    req ← request_of cfg branch objectPath;
    Ok (Some (req, validated)).
End validate.

(** * The fingerprint tracker *)

(** [%q] of a string, and [fmt.Sprintf("%q/%t/%q/%q", checksum, prune, paths, keep)]. *)
Class GoFormat := { fingerprint_text : string → bool → list string → list string → string }.

Abbreviation fingerprints := (gmap string string).

Section fingerprint.
Context `{!Sha256, !GoFormat}.

(** Go: internal/sink/git/fingerprint.go:14-17 [exportFingerprintKey] *)
Definition exportFingerprintKey (endpoint branch objectPath : string) : string :=
  trim_space endpoint +:+ nul +:+ trim_space branch +:+ nul +:+ trim_space objectPath.

(** Go: internal/sink/git/fingerprint.go:26-40 [shouldSkip] *)
Definition fp_shouldSkip (key checksum : string) (t : fingerprints) : bool :=
  let checksum := trim_space checksum in
  bool_decide (checksum ≠ "") && bool_decide (default "" (t !! key) = checksum).

(** Go: internal/sink/git/fingerprint.go:42-54 [record] *)
Definition fp_record (key checksum : string) (t : fingerprints) : fingerprints :=
  let checksum := trim_space checksum in
  if decide (checksum = "") then delete key t else <[key := checksum]> t.

(** Go: internal/sink/git/fingerprint.go:56-77 [ownedExportFingerprint] *)
Definition ownedExportFingerprint (endpoint branch objectPath checksum : string) (cfg : PruneConfig) (files : list FileEntry) :
    string * string :=
  let key := exportFingerprintKey endpoint branch objectPath in
  if decide (cfg_PruneOwner cfg = "") then (key, checksum)
  else
    let key := exportFingerprintKey endpoint branch "" +:+ nul +:+ "owner" +:+ nul +:+ cfg_PruneOwner cfg in
    let checksum := trim_space checksum in
    if decide (checksum = "") then (key, "")
    else
      let paths := entry_Path <$> files in
      let keep := sort_strings (pruneKeepSet cfg paths) in
      (key, sha256_hex (fingerprint_text checksum (cfg_Prune cfg) (sort_strings paths) keep)).
End fingerprint.

(** * Repositories *)

Abbreviation tree := (gmap string node).

(** A commit is its content: the parents, the tree, and the rest of it (author,
    date, message) as a number. *)
Inductive commit := Commit (parents : list commit) (tr : tree) (rest : nat).

Definition co_parents (c : commit) : list commit := let 'Commit ps _ _ := c in ps.
Definition co_tree (c : commit) : tree := let 'Commit _ tr _ := c in tr.

#[export] Instance commit_eq_dec : EqDecision commit.
Proof.
  hnf. fix go 1. intros [p1 t1 n1] [p2 t2 n2].
  refine (cast_if_and3 (@decide (p1 = p2) (list_eq_dec (dec := go) p1 p2)) (decide (t1 = t2)) (decide (n1 = n2)));
    congruence.
Defined.

(** [a] is [b] or an ancestor of it. *)
Definition ancestor : relation commit := rtc (λ a b, a ∈ co_parents b).

Record repo := mkRepo {
  r_refs : gmap string commit;
  r_head : string;
  r_index : tree;
  r_tree : worktree;
}.

(** The branches of the remote. *)
Abbreviation remote := (gmap string commit).

Definition set_wt (t : worktree) (r : repo) : repo := mkRepo (r_refs r) (r_head r) (r_index r) t.
Definition set_index (i : tree) (r : repo) : repo := mkRepo (r_refs r) (r_head r) i (r_tree r).

(** [Storer.SetReference] of a branch. *)
Definition set_ref (b : string) (c : commit) (r : repo) : repo :=
  mkRepo (<[b := c]> (r_refs r)) (r_head r) (r_index r) (r_tree r).

(** [repo.Head()]. *)
Definition head_hash (r : repo) : option commit := r_refs r !! r_head r.

(** What go-git does. [gg_has] is whether a commit is in the local object store;
    [gg_list] lists the branches; [gg_ignored] is whether a [.gitignore] of the
    working tree matches a path, which hides it from a status while it is not
    tracked. *)
Class GoGit := {
  gg_clone : nat → string → remote → result err repo;
  gg_init : repo;
  gg_fetch : nat → string → repo → remote → option err * repo;
  gg_list : remote → result err (list (string * commit));
  gg_checkout : string → bool → option commit → repo → option err * repo;
  gg_ignored : worktree → string → bool;
  gg_clean : repo → result err bool;
  gg_commit : repo → result err (commit * repo);
  gg_push : nat → bool → string → repo → remote → option err * remote;
  gg_pull : nat → string → repo → remote → option err * repo;
  gg_reset_hard : commit → repo → option err * repo;
  gg_has : repo → commit → bool;
  gg_is_ancestor : repo → commit → commit → result err bool;
  already_up_to_date : nat; (* the identity of [NoErrAlreadyUpToDate] *)
}.

Section delivery.
Context `{!UnicodeCase, !Sha256, !PruneCodec, !MapRange, !ApiErrors, !GitErrorApi, !GoGit}.

(** The context and the sleeps between attempts. *)
Variable ctx_err : nat → option err.
Variable sleep_err : nat → Z → option err.

Definition fails (e : option err) : option err :=
  match e with
  | Some e' => if errors_is already_up_to_date e' then None else Some e'
  | None => None
  end.

Definition retried {W} (fn : nat → W → option err * W) (w : W) : option err * W :=
  let '(e, _, w) := withTransportRetry ctx_err sleep_err defaultTransportRetry fn w in (e, w).

(** Go: internal/sink/git/export.go:565-575 [isEmptyRemote] *)
Definition isEmptyRemote (e : option err) : bool :=
  match e with
  | None => false
  | Some e =>
      let msg := to_lower (error_text e) in
      contains msg "remote repository is empty" || contains msg "couldn't find remote ref" || contains msg "reference not found"
  end.

(** Go: internal/sink/git/export.go:502-563 [cloneOrInit] *)
Definition cloneOrInit (branch : string) (rm : remote) : result err (repo * bool) :=
  let attempt n (_ : option (result err repo)) :=
    let r := gg_clone n branch rm in
    (match r with Ok _ => None | Err e => if isEmptyRemote (Some e) then None else Some e end, Some r) in
  match retried attempt None with
  | (Some e, _) => Err (errorf "git clone" e)
  | (None, Some (Ok r)) => Ok (r, bool_decide (head_hash r = None))
  | (None, Some (Err e)) => if isEmptyRemote (Some e) then Ok (gg_init, true) else Err (errorf "git clone" e)
  | (None, None) => Err (errorf "git clone" (plain "no attempt"))
  end.

(** [None] is a cold mirror directory.
    Go: internal/sink/git/mirror.go:169-207 [openOrWarmMirror] *)
Definition openOrWarmMirror (mirror : option repo) (branch : string) (rm : remote) : result err (repo * bool) :=
  match mirror with
  | None => cloneOrInit branch rm
  | Some r =>
      let '(e, r) := retried (λ n r, gg_fetch n branch r rm) r in
      match fails e with
      | Some e => Err (errorf "mirror fetch" e)
      | None => Ok (r, bool_decide (head_hash r = None))
      end
  end.

(** Go: internal/sink/git/mirror.go:222-245 [checkoutMirrorBranch] *)
Definition checkoutMirrorBranch (cloneBranch pushBranch : string) (r : repo) : option err * repo :=
  match r_refs r !! pushBranch with
  | Some _ => gg_checkout pushBranch false None r
  | None => gg_checkout pushBranch true (r_refs r !! cloneBranch) r
  end.

(** Staging the written paths, or with pruning every change that a status of the
    tree shows: an untracked file that is ignored is not one.
    Go: internal/sink/git/export.go:288-323 [stageChanges] *)
Definition stageChanges (objectPaths : list string) (prune : bool) (r : repo) : repo :=
  let files := wt_nodes (r_tree r) in
  if prune then set_index (filter (λ pn, is_Some (r_index r !! pn.1) ∨ gg_ignored (r_tree r) pn.1 = false) files) r
  else set_index (foldl (λ i p, match files !! p with Some n => <[p := n]> i | None => i end) (r_index r) objectPaths) r.

(** ** Pushing *)

Definition errSnapshotSuperseded : err :=
  Leaf 8 "snapshot commit superseded by remote tip during non-fast-forward sync; not delivered".

(** The refspec is forced for an empty remote and under the force-push policy.
    Go: internal/sink/git/export.go:345-352 [pushRefSpec] *)
Definition pushForce (emptyRemote forcePush : bool) : bool := emptyRemote || forcePush.

(** Go: internal/sink/git/export.go:361-396 [verifySnapshotDelivered] *)
Definition verifySnapshotDelivered (branch : string) (snapshot : commit) (r : repo) : option err :=
  match r_refs r !! branch with
  | None => Some (plain "verify snapshot delivery: resolve branch")
  | Some tip =>
      if decide (tip = snapshot) then None
      else
        if negb (gg_has r snapshot) then Some (plain "verify snapshot delivery: load snapshot commit")
        else if negb (gg_has r tip) then Some (plain "verify snapshot delivery: load branch tip")
        else
          match gg_is_ancestor r snapshot tip with
          | Err e => Some (errorf "verify snapshot delivery: ancestry walk" e)
          | Ok true => None
          | Ok false => Some errSnapshotSuperseded
          end
  end.

(** The errors of the ownership engine, as the export reports them.
    Go: internal/sink/git/prune_owned.go:254-256 [invalidPrune] *)
Definition prune_err (text : string) (e : prune_error) : err :=
  let e' := plain text in
  match e with
  | WriteFailed _ => e'
  | _ => ClassError (Some ErrTerminal) (Some (if rejected_for_owner e then inventoryScopedError e' else e'))
  end.

(** A release rejects with [invalidPrune] only. *)
Definition release_err (e : prune_error) : err :=
  match e with WriteFailed _ => plain "release" | _ => ClassError (Some ErrTerminal) (Some (plain "release")) end.

(** Go: internal/sink/git/sync_remote.go:16-54 [syncRemoteBeforePush] *)
Definition syncRemoteBeforePush (n : nat) (branch : string) (rm : remote) (r : repo) : option err * repo :=
  let '(e, r) := retried (λ n r, gg_fetch n branch r rm) r in
  match fails e with
  | Some e => (Some (errorf "git fetch before push" e), r)
  | None =>
      let '(e, r) := gg_pull n branch r rm in
      match fails e with
      | Some e => (Some (errorf "git pull merge before push" e), r)
      | None => (None, r)
      end
  end.

(** One attempt of the push, with the recovery from a remote that moved on. *)
Definition push_attempt (forcePush force : bool) (branch : string) (n : nat) (w : repo * remote) : option err * (repo * remote) :=
  let '(r, rm) := w in
  let '(e, rm) := gg_push (2 * n) force branch r rm in
  match fails e with
  | None => (None, (r, rm))
  | Some e =>
      if negb forcePush && isNonFastForwardError (Some e) then
        let '(se, r) := syncRemoteBeforePush n branch rm r in
        match se with
        | Some se => (Some se, (r, rm))
        | None =>
            let r := match head_hash r with Some h => set_ref branch h r | None => r end in
            let '(e, rm) := gg_push (2 * n + 1) force branch r rm in
            (fails e, (r, rm))
        end
      else (Some e, (r, rm))
  end.

(** Go: internal/sink/git/export.go:398-473 [pushCommitted] *)
Definition pushCommitted (forcePush : bool) (branch : string) (emptyRemote : bool) (snapshot : commit) (r : repo) (rm : remote) :
    option err * (repo * remote) :=
  let r := set_ref branch snapshot r in
  let '(e, (r, rm)) := retried (push_attempt forcePush (pushForce emptyRemote forcePush) branch) (r, rm) in
  match e with
  | Some e => (Some (errorf "git push" e), (r, rm))
  | None => (verifySnapshotDelivered branch snapshot r, (r, rm))
  end.
(** ** Claims on a merge target *)

Definition meta_entries (tr : tree) : list string := read_dir (mkWorktree tr ∅) pruneMetadataDir.

(** The entries of the metadata directory as files of a tree of their own: a
    file or a link is copied, a subdirectory becomes an empty directory.
    Go: internal/sink/git/prune_target.go:73-106 [pruneMetadataFromTree] *)
Definition pruneMetadataFromTree (tr : tree) : result prune_error worktree :=
  match tr !! pruneMetadataDir with
  | Some n => Ok (mkWorktree {[pruneMetadataDir := n]} ∅)
  | None =>
      let entries := meta_entries tr in
      if decide (entries = []) then Ok (mkWorktree ∅ ∅)
      else if decide (maxPruneOwners < Z.of_nat (length entries))%Z then Err TooManyOwners
      else
        let full name := pruneMetadataDir +:+ "/" +:+ name in
        let sizes := omap (λ name, match tr !! full name with
                                   | Some (Regular d) => Some (Z.of_nat (String.length d)) | _ => None end) entries in
        if decide (maxPruneMetadataBytes < foldr Z.add 0 sizes)%Z then Err MetadataTooLarge
        else
          Ok (mkWorktree (list_to_map (omap (λ name, pair (full name) <$> tr !! full name) entries))
                ({[pruneMetadataDir]} ∪ list_to_set (full <$> filter (λ name, tr !! full name = None) entries)))
  end.

Fixpoint foreign_on_target (owner : string) (owners : gmap string string) (paths : list string) : result prune_error unit :=
  match paths with
  | [] => Ok tt
  | p :: paths =>
      match owners !! p with
      | Some o => if decide (o = owner) then foreign_on_target owner owners paths else Err (ForeignClaim p o)
      | None => foreign_on_target owner owners paths
      end
  end.

(** Go: internal/sink/git/prune_target.go:22-71 [checkMergeTargetClaims] *)
Definition checkMergeTargetClaims (r : repo) (target : string) (cfg : PruneConfig) (written : list string) : option err :=
  if decide (cfg_PruneOwner cfg = "") then None
  else
    match r_refs r !! target with
    | None => None
    | Some c =>
        if negb (gg_has r c) then Some (plain "merge target: load commit")
        else
          match (fs ← pruneMetadataFromTree (co_tree c);
                 '(owners, _, _) ← loadPruneRecords fs;
                 foreign_on_target (cfg_PruneOwner cfg) owners
                   (sort_strings (pruneKeepSet cfg written ++ cfg_PruneClaimPaths cfg))) with
          | Ok _ => None
          | Err e => Some (prune_err "merge target" e)
          end
    end.

(** ** The export *)

(** The mirror directory ([None] when cold) and the remote. *)
Definition world : Type := option repo * remote.

(** Go: internal/sink/git/export.go:184-246 [exportRemoteInWorkdir] *)
Definition exportRemoteInWorkdir (cfg : GitConfig) (req : exportRequest) (files : list FileEntry) (w : world) :
    option err * world :=
  let '(mirror, rm) := w in
  let prune := gc_Prune cfg in
  match openOrWarmMirror mirror (er_cloneBranch req) rm with
  | Err e => (Some e, w)
  | Ok (r, emptyRemote) =>
      match checkoutMirrorBranch (er_cloneBranch req) (er_pushBranch req) r with
      | (Some e, r) => (Some (errorf "checkout branch" e), (Some r, rm))
      | (None, r) =>
          match (if decide (er_pushBranch req ≠ er_cloneBranch req)
                 then checkMergeTargetClaims r (er_cloneBranch req) prune (entry_Path <$> files) else None) with
          | Some e => (Some e, (Some r, rm))
          | None =>
              match writeBillyExportFiles (r_tree r) prune files with
              | Err e => (Some (prune_err "prune" e), (Some r, rm))
              | Ok (writtenPaths, t) =>
                  let r := stageChanges writtenPaths (cfg_Prune prune) (set_wt t r) in
                  match gg_clean r with
                  | Err e => (Some (errorf "git status" e), (Some r, rm))
                  | Ok true => (None, (Some r, rm))
                  | Ok false =>
                      match gg_commit r with
                      | Err e => (Some (errorf "git commit" e), (Some r, rm))
                      | Ok (c, r) =>
                          let '(e, (r, rm)) := pushCommitted (gc_ForcePush cfg) (er_pushBranch req) emptyRemote c r rm in
                          (e, (Some r, rm))
                      end
                  end
              end
          end
      end
  end.
Context `{!UrlApi, !GoFormat}.

Definition git_err (e : git_error) : err :=
  match e with PruneRejected e => prune_err "git export" e | _ => plain "git export" end.

(** [setup] is a failure of the authentication, the address guard or the mirror
    directory; [via_cli] is the git executable's path for [file://] remotes.
    Go: internal/sink/git/export.go:83-150 [ExportFilesWithBranch] *)
Definition ExportFilesWithBranch (setup : option err) (via_cli : exportRequest → list FileEntry → world → option err * world)
    (cfg : GitConfig) (files : list FileEntry) (branch : option BranchSpec) (checksum : string)
    (t : fingerprints) (w : world) : option err * fingerprints * world :=
  if nothing_to_export (gc_Prune cfg) files then (Some (git_err NoFiles), t, w)
  else
    match validateExportFiles cfg files branch with
    | Err e => (Some (git_err e), t, w)
    | Ok (req, validated) =>
        let lockKey := if decide (gc_Endpoint cfg = "") then er_cloneURL req else gc_Endpoint cfg in
        let '(fpKey, fingerprint) :=
          ownedExportFingerprint lockKey (er_pushBranch req) (er_objectPath req) checksum (gc_Prune cfg) validated in
        if fp_shouldSkip fpKey fingerprint t then (None, t, w)
        else
          let '(e, w) :=
            if isFileRemote (er_cloneURL req) then via_cli req validated w
            else match setup with
                 | Some e => (Some e, w)
                 | None => exportRemoteInWorkdir cfg req validated w
                 end in
          (ClassifyExportError e, match e with None => fp_record fpKey fingerprint t | Some _ => t end, w)
    end.

(** ** Deletion *)

(** Go: internal/sink/git/delete.go:620-680 [fetchRemotePushBranch] *)
Definition fetchRemotePushBranch (req : exportRequest) (empty_remote_err : nat) (rm : remote) (r : repo) : option err * repo :=
  if decide (er_pushBranch req = er_cloneBranch req) then (None, r)
  else
    match gg_list rm with
    | Err e => if errors_is empty_remote_err e then (None, r) else (Some (errorf "git remote list" e), r)
    | Ok refs =>
        if decide (er_pushBranch req ∈ refs.*1) then
          let '(e, r) := gg_fetch 0 (er_pushBranch req) r rm in
          match fails e with Some e => (Some (errorf "fetch push branch" e), r) | None => (None, r) end
        else (None, r)
    end.

(** The tip of the push branch on the remote, and whether the remote already holds
    the local HEAD.
    Go: internal/sink/git/delete.go:735-782 [pushBranchSynced] *)
Definition pushBranchSynced (cloneBranch pushBranch : string) (rm : remote) (r : repo) : result err (bool * option commit) :=
  refs ← lift_err (errorf "git remote list") (gg_list rm);
  let tips : gmap string commit := list_to_map (reverse refs) in
  match head_hash r with
  | None => Err (plain "head")
  | Some head =>
      match tips !! pushBranch with
      | Some pushTip => Ok (bool_decide (pushTip = head), Some pushTip)
      | None => Ok (bool_decide (tips !! cloneBranch = Some head), None)
      end
  end.

(** Go: internal/sink/git/delete.go:784-810 [remoteTipFastForwardable] *)
Definition remoteTipFastForwardable (r : repo) (remoteTip head : commit) : bool :=
  if decide (remoteTip = head) then true
  else
    gg_has r remoteTip && gg_has r head && match gg_is_ancestor r remoteTip head with Ok b => b | Err _ => false end.

(** Go: internal/sink/git/delete.go:682-733 [deliverRemoteStrandedDeletion] *)
Definition deliverRemoteStrandedDeletion (cfg : GitConfig) (req : exportRequest) (emptyRemote pushBranchExisted : bool)
    (r : repo) (rm : remote) : option err * (repo * remote) :=
  if negb pushBranchExisted then (None, (r, rm))
  else
    match pushBranchSynced (er_cloneBranch req) (er_pushBranch req) rm r with
    | Err e => (Some (errorf "git cleanup" e), (r, rm))
    | Ok (true, _) | Ok (_, None) => (None, (r, rm))
    | Ok (false, Some pushTip) =>
        match head_hash r with
        | None => (Some (plain "head"), (r, rm))
        | Some head =>
            if remoteTipFastForwardable r pushTip head
            then pushCommitted (gc_ForcePush cfg) (er_pushBranch req) emptyRemote head r rm
            else (None, (r, rm))
        end
    end.

(** Removals are staged as they happen; a path the index never tracked is removed
    from the disk only.
    Go: internal/sink/git/delete.go:812-829 [releaseInWorktree] *)
Definition releaseInWorktree (cfg : PruneConfig) (paths : list string) (r : repo) : result prune_error (list string * repo) :=
  let tracked p := bool_decide (is_Some (r_index r !! p)) in
  '(removed, t) ← releaseFS tracked (r_tree r) cfg paths;
  Ok (removed, set_index (filter (λ pn, pn.1 ∉ removed) (r_index r)) (set_wt t r)).

(** Go: internal/sink/git/delete.go:519-618 [deleteRemote] *)
Definition deleteRemote (empty_remote_err : nat) (cfg : GitConfig) (req : exportRequest) (paths : list string) (w : world) :
    result err (list string) * world :=
  let '(mirror, rm) := w in
  match openOrWarmMirror mirror (er_cloneBranch req) rm with
  | Err e => (Err e, w)
  | Ok (r, emptyRemote) =>
      match (match head_hash r with Some h => gg_reset_hard h r | None => (None, r) end) with
      | (Some e, r) => (Err (errorf "mirror reset" e), (Some r, rm))
      | (None, r) =>
          let pushBranchExisted := bool_decide (is_Some (r_refs r !! er_pushBranch req)) in
          match (if pushBranchExisted then (None, r) else fetchRemotePushBranch req empty_remote_err rm r) with
          | (Some e, r) => (Err (errorf "git cleanup" e), (Some r, rm))
          | (None, r) =>
              match checkoutMirrorBranch (er_cloneBranch req) (er_pushBranch req) r with
              | (Some e, r) => (Err (errorf "checkout branch" e), (Some r, rm))
              | (None, r) =>
                  match releaseInWorktree (gc_Prune cfg) paths r with
                  | Err e => (Err (release_err e), (Some r, rm))
                  | Ok ([], r) =>
                      let '(e, (r, rm)) := deliverRemoteStrandedDeletion cfg req emptyRemote pushBranchExisted r rm in
                      (match e with Some e => Err e | None => Ok [] end, (Some r, rm))
                  | Ok (removed, r) =>
                      match gg_commit r with
                      | Err e => (Err (errorf "git commit" e), (Some r, rm))
                      | Ok (c, r) =>
                          let '(e, (r, rm)) := pushCommitted (gc_ForcePush cfg) (er_pushBranch req) emptyRemote c r rm in
                          (match e with Some e => Err e | None => Ok removed end, (Some r, rm))
                      end
                  end
              end
          end
      end
  end.

(** Go: internal/sink/git/delete.go:76-130 [DeleteExportWithBranch] *)
Definition DeleteExportWithBranch (setup : option err) (via_cli : exportRequest → list string → world → result err (list string) * world)
    (empty_remote_err : nat) (cfg : GitConfig) (paths : list string) (branch : option BranchSpec) (w : world) :
    result err (list string) * world :=
  if decide (length paths = 0 ∧ cfg_PruneOwner (gc_Prune cfg) = "") then (Ok [], w)
  else
    match validateDeletePaths cfg paths branch with
    | Err e => (Err (git_err e), w)
    | Ok None => (Ok [], w)
    | Ok (Some (req, validated)) =>
        let '(res, w) :=
          if isFileRemote (er_cloneURL req) then via_cli req validated w
          else match setup with Some e => (Err e, w) | None => deleteRemote empty_remote_err cfg req validated w end in
        (match res with
         | Ok deleted => Ok deleted
         | Err e => Err (default e (ClassifyExportError (Some e)))
         end, w)
    end.
End delivery.

(** * What go-git promises *)

(** A successful clone or forced fetch of a branch makes the local branch the
    remote's; a clone has the files of the branch and no others, and a fetch leaves
    the files alone; a checkout makes the index that of the branch and puts its
    files into the working tree, where files that were there and that the branch
    does not have may stay; a status is clean only when index and HEAD agree; a
    commit records the index on top of HEAD and
    moves HEAD's branch; a successful push makes the remote branch the local one,
    and touches no other; an ancestry test that says yes is right; a listing is the
    remote's branches. *)
Class GoGitLaws `{!GoGit} : Prop := {
  clone_tip n b rm r : gg_clone n b rm = Ok r → r_refs r !! b = rm !! b;
  fetch_tip n b r rm e r' :
    gg_fetch n b r rm = (e, r') → match e with Some e => errors_is already_up_to_date e = true | None => True end →
    r_refs r' !! b = rm !! b;
  clone_files n b rm r c : gg_clone n b rm = Ok r → rm !! b = Some c → wt_nodes (r_tree r) = co_tree c;
  fetch_files n b r rm e r' : gg_fetch n b r rm = (e, r') → r_tree r' = r_tree r;
  checkout_branch b create at_ r r' c :
    gg_checkout b create at_ r = (None, r') → r_refs r !! b = Some c →
    r_refs r' = r_refs r ∧ r_head r' = b ∧ r_index r' = co_tree c ∧
    (∀ p n, co_tree c !! p = Some n → wt_nodes (r_tree r') !! p = Some n) ∧
    (∀ p n, wt_nodes (r_tree r') !! p = Some n → co_tree c !! p = Some n ∨ (co_tree c !! p = None ∧ wt_nodes (r_tree r) !! p = Some n));
  clean_agrees r : gg_clean r = Ok true → r_index r = from_option co_tree ∅ (head_hash r);
  commit_records r c r' : gg_commit r = Ok (c, r') → co_tree c = r_index r;
  push_updates n f b r rm e rm' :
    gg_push n f b r rm = (e, rm') → match e with Some e => errors_is already_up_to_date e = true | None => True end →
    rm' !! b = r_refs r !! b ∧ ∀ b', b' ≠ b → rm' !! b' = rm !! b';
  is_ancestor_sound r a b : gg_is_ancestor r a b = Ok true → ancestor a b;
  list_branches rm refs : gg_list rm = Ok refs → ∀ b, (list_to_map (reverse refs) : remote) !! b = rm !! b;
}.

Section delivery_lemmas.
Context `{!UnicodeCase, !Sha256, !PruneCodec, !MapRange, !ApiErrors, !GitErrorApi, !GoGit, !GoGitLaws}.
Context (ctx_err : nat → option err) (sleep_err : nat → Z → option err).
Hypothesis Hctx : ∀ n e, ctx_err n = Some e → errors_is already_up_to_date e = false.
Hypothesis Hsleep : ∀ n d e, sleep_err n d = Some e → errors_is already_up_to_date e = false.

Lemma fails_None e : fails e = None ↔ match e with Some e => errors_is already_up_to_date e = true | None => True end.
Proof. destruct e as [e|]; cbn; [|done]. by destruct (errors_is _ e). Qed.

Lemma retried_fetch b rm r e r' :
  retried ctx_err sleep_err (λ n r, gg_fetch n b r rm) r = (e, r') → fails e = None → r_refs r' !! b = rm !! b.
Proof.
  unfold retried. destruct (withTransportRetry _ _ _ _ r) as [[e1 outs] r1] eqn:Hw. intros [= <- <-].
  apply (withTransportRetry_inv ctx_err sleep_err defaultTransportRetry (λ n r, gg_fetch n b r rm)
           (λ _, True) (λ e r, fails e = None → r_refs r !! b = rm !! b) ) in Hw as [_ ?]; try done.
  - intros n w e w' _ Hf. split; [done|]. rewrite fails_None. by eapply fetch_tip.
  - intros n e w He _. cbn. by rewrite (Hctx n e He).
  - intros n d e w He _. cbn. by rewrite (Hsleep n d e He).
Qed.

Lemma retried_fetch_files b rm r e r' :
  retried ctx_err sleep_err (λ n r, gg_fetch n b r rm) r = (e, r') → r_tree r' = r_tree r.
Proof.
  unfold retried. destruct (withTransportRetry _ _ _ _ r) as [[e1 outs] r1] eqn:Hw. intros [= <- <-].
  apply (withTransportRetry_inv ctx_err sleep_err defaultTransportRetry (λ n r, gg_fetch n b r rm)
           (λ r', r_tree r' = r_tree r) (λ _ _, True)) in Hw as [? _]; try done.
  intros n w e w' Hi Hf. split; [|done]. by rewrite (fetch_files _ _ _ _ _ _ Hf).
Qed.

(** The files a mirror has before the checkout: those of a fresh clone, or those that
    are left in a warm one. *)
Definition mirror_files (mirror : option repo) (c : commit) : tree :=
  match mirror with Some r => wt_nodes (r_tree r) | None => co_tree c end.

Lemma openOrWarmMirror_tip mirror b rm r empty c :
  openOrWarmMirror ctx_err sleep_err mirror b rm = Ok (r, empty) → rm !! b = Some c →
  (∀ n e, gg_clone n b rm = Err e → isEmptyRemote (Some e) = false) →
  r_refs r !! b = Some c ∧ wt_nodes (r_tree r) = mirror_files mirror c.
Proof.
  intros Ho Hc Hempty. destruct mirror as [r0|]; cbn [openOrWarmMirror mirror_files] in Ho |- *.
  - destruct (retried _ _ _ r0) as [e r1] eqn:Hr. destruct (fails e) eqn:Hf; [done|]. injection Ho as <- _.
    by rewrite (retried_fetch _ _ _ _ _ Hr Hf), (retried_fetch_files _ _ _ _ _ Hr).
  - unfold cloneOrInit in Ho.
    destruct (retried _ _ _ None) as [e s] eqn:Hr. unfold retried in Hr.
    destruct (withTransportRetry _ _ _ _ _) as [[e1 outs] s1] eqn:Hw. injection Hr as <- <-.
    apply (withTransportRetry_inv ctx_err sleep_err defaultTransportRetry _ (λ _, True)
             (λ e s, e = None → ∃ n r, s = Some (Ok r) ∧ gg_clone n b rm = Ok r)) in Hw as [_ Hp]; [..|done].
    + destruct e1; [done|]. destruct (Hp eq_refl) as (n & r1 & -> & Hb). injection Ho as <- _.
      split; [by rewrite (clone_tip _ _ _ _ Hb)|by eapply clone_files].
    + intros n w e w' _ [He <-]%pair_equal_spec. split; [done|]. intros ->. destruct (gg_clone n b rm) as [r1|e1'] eqn:Hcl.
      * by exists n, r1.
      * rewrite (Hempty n e1' Hcl) in He. done.
    + done.
    + done.
Qed.

Lemma push_tip n f b r rm e rm' : gg_push n f b r rm = (e, rm') → fails e = None → rm' !! b = r_refs r !! b.
Proof. intros Hp Hf%fails_None. by destruct (push_updates _ _ _ _ _ _ _ Hp Hf). Qed.

Lemma push_attempt_ok fp force b n w e w' :
  push_attempt ctx_err sleep_err fp force b n w = (e, w') → e = None → w'.2 !! b = r_refs w'.1 !! b.
Proof.
  destruct w as [r rm]. unfold push_attempt. destruct (gg_push (2 * n) force b r rm) as [e1 rm1] eqn:Hp.
  destruct (fails e1) as [e1'|] eqn:Hf; [|intros [= <- <-] _; by eapply push_tip].
  destruct (_ && _); [|by intros [= <- _]].
  destruct (syncRemoteBeforePush _ _ _ _ _ r) as [[se|] r1]; [by intros [= <- _]|].
  set (r2 := match head_hash r1 with Some h => _ | None => _ end).
  destruct (gg_push (2 * n + 1) force b r2 rm1) as [e2 rm2] eqn:Hp2. intros [= <- <-] Hf2.
  by eapply push_tip.
Qed.

Lemma pushCommitted_delivers fp b empty c r rm r' rm' :
  pushCommitted ctx_err sleep_err fp b empty c r rm = (None, (r', rm')) → ∃ tip, rm' !! b = Some tip ∧ ancestor c tip.
Proof.
  unfold pushCommitted. destruct (retried _ _ _ _) as [e [r1 rm1]] eqn:Hr. unfold retried in Hr.
  destruct (withTransportRetry _ _ _ _ _) as [[e1 outs] w1] eqn:Hw. injection Hr as -> ->.
  apply (withTransportRetry_inv ctx_err sleep_err defaultTransportRetry _ (λ _, True)
           (λ e w, e = None → w.2 !! b = r_refs w.1 !! b)) in Hw as [_ Hp]; try done.
  - destruct e as [e|]; [done|]. intros [= Hv <- <-]. specialize (Hp eq_refl). cbn in Hp. rewrite Hp.
    unfold verifySnapshotDelivered in Hv. destruct (r_refs r1 !! b) as [tip|]; [|done]. exists tip. split; [done|].
    destruct (decide (tip = c)) as [->|]; [by apply rtc_refl|].
    destruct (gg_has r1 c), (gg_has r1 tip); cbn [negb] in Hv; try done.
    destruct (gg_is_ancestor r1 c tip) as [[]|] eqn:Ha; try done. by eapply is_ancestor_sound.
  - intros n w e' w' _ Hpa. split; [done|]. by eapply push_attempt_ok.
Qed.
(** The files of an export are in the tree it leaves. *)
Lemma prune_dir_keeps keep recorded t dir q :
  is_Some (keep !! q) → wt_nodes (prune_dir keep recorded t dir) !! q = wt_nodes t !! q.
Proof.
  intros Hq. unfold prune_dir. generalize (read_dir t dir) as names. intros names.
  assert (∀ t', wt_nodes t' !! q = wt_nodes t !! q →
    wt_nodes (foldl (λ t' name, let p := path_join dir name in
      if decide (lstat t p = Some StatDir ∨ is_Some (keep !! p) ∨ is_Some (recorded !! p)) then t' else fs_remove p t')
      t' names) !! q = wt_nodes t !! q) as Hgen; [|by apply Hgen].
  induction names as [|name names IH]; intros t' Ht'; cbn [foldl]; [done|]. apply IH. cbv zeta. case_decide as Hd; [done|].
  cbn [fs_remove wt_nodes]. rewrite lookup_delete_ne; [done|]. intros Heq. apply Hd. right. left. by rewrite Heq.
Qed.

Lemma writeBilly_written t cfg files paths t' q d :
  cfg_PruneOwner cfg ≠ "" ∨ cfg_PruneKeepPaths cfg = [] →
  writeBillyExportFiles t cfg files = Ok (paths, t') → written_data files q = Some d →
  wt_nodes t' !! q = Some (Regular d).
Proof.
  intros Hk Hrun Hq. assert (q ∈ entry_Path <$> files) as Hw by (apply written_data_Some; by eexists).
  destruct (decide (cfg_PruneOwner cfg = "")) as [Ho|Ho].
  - destruct Hk as [?|Hk]; [done|]. unfold writeBillyExportFiles in Hrun. apply result_bind_ok in Hrun as (plan & Hplan & Hrun).
    unfold prepareOwnedPrune in Hplan. rewrite decide_True in Hplan by done. injection Hplan as <-.
    apply result_bind_ok in Hrun as (t1 & Ht1 & Hrun). cbn [apply_plan] in Hrun. apply result_bind_ok in Hrun as (t2 & [= <-] & Hrun).
    apply result_bind_ok in Hrun as (t3 & Ht3 & [= _ <-]).
    assert (wt_nodes t1 !! q = Some (Regular d)) as Hn by (by rewrite (write_files_nodes _ _ _ q Ht1), Hq).
    unfold pruneBillyOrphans in Ht3. destruct (_ || _); [by injection Ht3 as <-|].
    unfold removeBillyOrphans in Ht3. apply result_bind_ok in Ht3 as ([[recorded x] y] & _ & Ht3). injection Ht3 as <-.
    unfold pruneKeepSet. rewrite Hk. cbn [length]. rewrite decide_False by lia.
    set (written := entry_Path <$> files) in *. rewrite <- Hn. generalize (managedDirs written) as dirs. intros dirs.
    assert (∀ t', wt_nodes t' !! q = wt_nodes t1 !! q →
      wt_nodes (foldl (prune_dir (pathSet written) recorded) t' dirs) !! q = wt_nodes t1 !! q) as Hgen; [|by apply Hgen].
    induction dirs as [|dir dirs IH]; intros t' Ht'; cbn [foldl]; [done|]. apply IH.
    rewrite prune_dir_keeps by (by apply pathSet_lookup). done.
  - pose proof Hrun as Hprep. unfold writeBillyExportFiles in Hprep. apply result_bind_ok in Hprep as (plan & Hprep & _).
    apply prepareOwnedPrune_ok in Hprep as (owners & records & total & Hload & _); [|done].
    destruct (cfg_Prune cfg) eqn:Hpr.
    + destruct (owned_export_tree _ _ _ _ _ _ _ _ Ho Hpr Hload Hrun) as (Hn & _ & _ & _ & Hwk & Hval).
      rewrite Hn, decide_False by (by apply valid_path_not_record, Hval, Hwk).
      rewrite decide_False by (intros [_ Hk']; by apply Hk', Hwk). by rewrite Hq.
    + destruct (owned_write_tree _ _ _ _ _ _ _ _ Ho Hpr Hload Hrun) as [Hn _]. by rewrite Hn, Hq.
Qed.

Lemma writeBilly_paths t cfg files paths t' :
  writeBillyExportFiles t cfg files = Ok (paths, t') → paths = entry_Path <$> files.
Proof.
  unfold writeBillyExportFiles. intros (? & _ & Hr)%result_bind_ok. apply result_bind_ok in Hr as (? & _ & Hr).
  apply result_bind_ok in Hr as (? & _ & Hr). apply result_bind_ok in Hr as (? & _ & [= <- _]). done.
Qed.

Lemma stageChanges_index paths prune r q n :
  q ∈ paths → wt_nodes (r_tree r) !! q = Some n →
  prune = false ∨ is_Some (r_index r !! q) ∨ gg_ignored (r_tree r) q = false →
  r_index (stageChanges paths prune r) !! q = Some n.
Proof.
  intros Hq Hn Hseen. unfold stageChanges. destruct prune; cbn [r_index set_index].
  { destruct Hseen as [?|Hseen]; [done|]. by apply map_lookup_filter_Some. }
  generalize (r_index r) as i. revert Hq. clear Hseen.
  assert (∀ l (i : tree), i !! q = Some n →
    foldl (λ i p, match wt_nodes (r_tree r) !! p with Some n => <[p := n]> i | None => i end) i l !! q = Some n) as Hstay.
  { induction l as [|p l IH]; intros i Hi; cbn [foldl]; [done|]. apply IH. destruct (wt_nodes (r_tree r) !! p) eqn:Hp; [|done].
    destruct (decide (p = q)) as [->|]; [rewrite lookup_insert_eq; congruence|by rewrite lookup_insert_ne]. }
  induction paths as [|p paths IH]; [by intros ?%not_elem_of_nil|]. intros [->|Hq]%elem_of_cons i; cbn [foldl]; [|by apply IH].
  apply Hstay. rewrite Hn. by rewrite lookup_insert_eq.
Qed.

Lemma stageChanges_pruning paths r q :
  r_index (stageChanges paths true r) !! q =
  if decide (is_Some (r_index r !! q) ∨ gg_ignored (r_tree r) q = false) then wt_nodes (r_tree r) !! q else None.
Proof.
  unfold stageChanges. cbn [r_index set_index]. destruct (wt_nodes (r_tree r) !! q) as [n|] eqn:Hn; case_decide as Hd.
  - by apply map_lookup_filter_Some.
  - apply map_lookup_filter_None. right. by intros n' _.
  - apply map_lookup_filter_None. by left.
  - apply map_lookup_filter_None. by left.
Qed.

(** What an export has delivered when it starts from [mirror] and from the commit
    [c0] of the branch [b]: a commit at or below the tip of the branch, with every
    file of the export that a status shows; with pruning its tree is, but for
    ignored files, what the export made of the files of the branch and those that
    were left in the mirror. *)
Definition delivered (cfg : PruneConfig) (files : list FileEntry) (mirror : option repo) (b : string) (c0 : commit) (rm' : remote) : Prop :=
  ∃ t0 t1 paths tip c,
    (∀ p n, co_tree c0 !! p = Some n → wt_nodes t0 !! p = Some n) ∧
    (∀ p n, wt_nodes t0 !! p = Some n →
       co_tree c0 !! p = Some n ∨ (co_tree c0 !! p = None ∧ ∃ r0, mirror = Some r0 ∧ wt_nodes (r_tree r0) !! p = Some n)) ∧
    writeBillyExportFiles t0 cfg files = Ok (paths, t1) ∧
    rm' !! b = Some tip ∧ ancestor c tip ∧
    (∀ q d, written_data files q = Some d →
       cfg_Prune cfg = false ∨ is_Some (co_tree c0 !! q) ∨ gg_ignored t1 q = false → co_tree c !! q = Some (Regular d)) ∧
    (cfg_Prune cfg = true → ∀ q,
       co_tree c !! q = if decide (is_Some (co_tree c0 !! q) ∨ gg_ignored t1 q = false) then wt_nodes t1 !! q else None).

Lemma exportRemote_delivers cfg req files mirror rm w' c0 :
  er_pushBranch req = er_cloneBranch req → rm !! er_cloneBranch req = Some c0 →
  (∀ n e, gg_clone n (er_cloneBranch req) rm = Err e → isEmptyRemote (Some e) = false) →
  cfg_PruneOwner (gc_Prune cfg) ≠ "" ∨ cfg_PruneKeepPaths (gc_Prune cfg) = [] →
  exportRemoteInWorkdir ctx_err sleep_err cfg req files (mirror, rm) = (None, w') →
  delivered (gc_Prune cfg) files mirror (er_pushBranch req) c0 w'.2.
Proof.
  intros Hb Hc0 Hempty Hkeep. unfold exportRemoteInWorkdir. rewrite Hb.
  destruct (openOrWarmMirror _ _ mirror _ rm) as [[r1 empty]|] eqn:Ho; [|done].
  destruct (openOrWarmMirror_tip _ _ _ _ _ _ Ho Hc0 Hempty) as [Htip Hfiles].
  unfold checkoutMirrorBranch. rewrite Htip. destruct (gg_checkout _ _ _ r1) as [[e|] r2] eqn:Hco; [done|].
  destruct (checkout_branch _ _ _ _ _ _ Hco Htip) as (Hrefs & Hhead & Hidx & Hhas & Hleft).
  rewrite decide_False by tauto.
  destruct (writeBillyExportFiles (r_tree r2) _ files) as [[paths t']|] eqn:Hw; [|done].
  set (r3 := stageChanges paths _ (set_wt t' r2)).
  assert (r_refs r3 = r_refs r2 ∧ r_head r3 = r_head r2) as (Hr3 & Hh3).
  { unfold r3, stageChanges. by destruct (cfg_Prune _). }
  assert (∀ q d, written_data files q = Some d →
    cfg_Prune (gc_Prune cfg) = false ∨ is_Some (co_tree c0 !! q) ∨ gg_ignored t' q = false → r_index r3 !! q = Some (Regular d)) as Hin.
  { intros q d Hq Hseen. apply stageChanges_index; [|by eapply writeBilly_written|by rewrite <- Hidx in Hseen].
    rewrite (writeBilly_paths _ _ _ _ _ Hw). apply written_data_Some. by eexists. }
  assert (cfg_Prune (gc_Prune cfg) = true → ∀ q,
    r_index r3 !! q = if decide (is_Some (co_tree c0 !! q) ∨ gg_ignored t' q = false) then wt_nodes t' !! q else None) as Hpr.
  { intros Hp q. unfold r3. rewrite Hp, stageChanges_pruning. cbn [set_wt r_index r_tree]. by rewrite Hidx. }
  assert (∀ rm' tip c, rm' !! er_cloneBranch req = Some tip → ancestor c tip → co_tree c = r_index r3 →
    delivered (gc_Prune cfg) files mirror (er_cloneBranch req) c0 rm') as Hdone.
  { intros rm' tip c Ht Ha Hc. exists (r_tree r2), t', paths, tip, c. rewrite Hc. split_and!; try done.
    intros p n [?|[Hn Hold]]%Hleft; [by left|]. right. split; [done|]. rewrite Hfiles in Hold.
    destruct mirror as [r0|]; cbn in Hold; [by exists r0|congruence]. }
  destruct (gg_clean r3) as [[]|] eqn:Hcl; [| |done].
  - intros [= <-]. pose proof (clean_agrees _ Hcl) as Hi. unfold head_hash in Hi. rewrite Hr3, Hh3, Hhead, Hrefs, Htip in Hi.
    by apply (Hdone rm c0 c0).
  - destruct (gg_commit r3) as [[c r4]|] eqn:Hcm; [|done]. pose proof (commit_records _ _ _ Hcm) as Hct.
    destruct (pushCommitted _ _ _ _ _ c r4 rm) as [[e|] [r5 rm5]] eqn:Hp; [done|]. intros [= <-].
    destruct (pushCommitted_delivers _ _ _ _ _ _ _ _ Hp) as (tip & Ht & Ha). by apply (Hdone rm5 tip c).
Qed.

Context `{!UrlApi, !GoFormat}.

Lemma direct_request cfg files req validated :
  validateExportFiles cfg files None = Ok (req, validated) → er_pushBranch req = er_cloneBranch req.
Proof.
  unfold validateExportFiles. destruct (nothing_to_export _ _); [done|]. intros (v & _ & Hr)%result_bind_ok.
  apply result_bind_ok in Hr as (req' & Hreq & [= <- _]). unfold request_of in Hreq.
  apply result_bind_ok in Hreq as ([url b] & _ & Hreq). apply then_ok in Hreq as [_ Hreq]. cbn [resolveBranches] in Hreq.
  apply then_ok in Hreq as [_ Hreq]. by apply then_ok in Hreq as [_ [= <-]].
Qed.


Lemma stranded_fast_forward cfg req empty existed r rm r' rm' :
  deliverRemoteStrandedDeletion ctx_err sleep_err cfg req empty existed r rm = (None, (r', rm')) →
  rm' !! er_pushBranch req = rm !! er_pushBranch req ∨
  ∃ old new, rm !! er_pushBranch req = Some old ∧ rm' !! er_pushBranch req = Some new ∧ ancestor old new.
Proof.
  unfold deliverRemoteStrandedDeletion. destruct existed; cbn [negb]; [|by intros [= _ <-]; left].
  destruct (pushBranchSynced _ _ rm r) as [[synced tip]|] eqn:Hs; [|done].
  destruct synced; [by intros [= _ <-]; left|]. destruct tip as [tip|]; [|by intros [= _ <-]; left].
  destruct (head_hash r) as [head|] eqn:Hh; [|done].
  destruct (remoteTipFastForwardable r tip head) eqn:Hff; [|by intros [= _ <-]; left].
  intros Hp. right. destruct (pushCommitted_delivers _ _ _ _ _ _ _ _ Hp) as (new & Hn & Ha).
  exists tip, new. split_and!; [|done|].
  - unfold pushBranchSynced in Hs. apply result_bind_ok in Hs as (refs & Hl & Hs). rewrite Hh in Hs.
    destruct (gg_list rm) as [refs'|] eqn:Hgl; [|done]. injection Hl as ->. rewrite !(list_branches _ _ Hgl) in Hs.
    destruct (rm !! er_pushBranch req); [|done]. by injection Hs as _ ->.
  - etrans; [|exact Ha]. unfold remoteTipFastForwardable in Hff. case_decide as He; [by rewrite He|].
    apply andb_true_iff in Hff as [_ Hff]. destruct (gg_is_ancestor r tip head) as [[]|] eqn:Hia; try done.
    by eapply is_ancestor_sound.
Qed.

(** A deletion that reports what it removed has been delivered: the remote
    branch has a commit without any of those paths. A deletion that found nothing
    leaves the remote branch alone or fast-forwards it, and so never takes work of
    another inventory off it. *)
Theorem deletion_delivered empty_err cfg req paths mirror rm removed w' :
  deleteRemote ctx_err sleep_err empty_err cfg req paths (mirror, rm) = (Ok removed, w') →
  if decide (removed = []) then
    w'.2 !! er_pushBranch req = rm !! er_pushBranch req ∨
    ∃ old new, rm !! er_pushBranch req = Some old ∧ w'.2 !! er_pushBranch req = Some new ∧ ancestor old new
  else
    ∃ tip c, w'.2 !! er_pushBranch req = Some tip ∧ ancestor c tip ∧ ∀ p, p ∈ removed → co_tree c !! p = None.
Proof.
  unfold deleteRemote. destruct (openOrWarmMirror _ _ mirror _ rm) as [[r1 empty]|]; [|done].
  destruct (match head_hash r1 with Some h => _ | None => _ end) as [[e|] r2]; [done|].
  set (existed := bool_decide _). destruct (if existed then _ else _) as [[e|] r3]; [done|].
  destruct (checkoutMirrorBranch _ _ r3) as [[e|] r4]; [done|].
  destruct (releaseInWorktree _ paths r4) as [[rem r5]|] eqn:Hrel; [|done].
  destruct rem as [|p rem].
  - destruct (deliverRemoteStrandedDeletion _ _ cfg req empty existed r5 rm) as [[e|] [r6 rm6]] eqn:Hd; [done|].
    intros [= <- <-]. rewrite decide_True by done. by eapply stranded_fast_forward.
  - destruct (gg_commit r5) as [[c r6]|] eqn:Hc; [|done].
    destruct (pushCommitted _ _ _ _ _ c r6 rm) as [[e|] [r7 rm7]] eqn:Hp; [done|]. intros [= <- <-].
    rewrite decide_False by done. destruct (pushCommitted_delivers _ _ _ _ _ _ _ _ Hp) as (tip & Ht & Ha).
    exists tip, c. split_and!; [done|done|]. intros q Hq. rewrite (commit_records _ _ _ Hc).
    unfold releaseInWorktree in Hrel. apply result_bind_ok in Hrel as ([rem' t'] & _ & [= -> <-]).
    cbn [set_index r_index]. apply map_lookup_filter_None. right. intros n _ Hn. by apply Hn.
Qed.
End delivery_lemmas.

(** * A reference remote *)

Module GitDemo.
#[local] Existing Instances GitTreeDemo.demo_sha GitTreeDemo.demo_codec ascii_only_case map_range_to_list no_api_errors.

(** Reachability over the parents, as a function. *)
Fixpoint is_anc (a b : commit) : bool :=
  bool_decide (a = b) || (let 'Commit ps _ _ := b in existsb (is_anc a) ps).

Lemma is_anc_sound a b : is_anc a b = true → ancestor a b.
Proof.
  revert b. fix go 1. intros [ps tr n]. cbn [is_anc]. intros [Heq%bool_decide_eq_true|Hex]%orb_true_iff; [by rewrite Heq|].
  assert (∃ p, p ∈ ps ∧ ancestor a p) as (p & Hp & Ha).
  { induction ps as [|p ps IH]; [done|]. cbn [existsb] in Hex. apply orb_true_iff in Hex as [Hp|Hps].
    - exists p. split; [left|]. by apply go.
    - destruct (IH Hps) as (p' & ? & ?). exists p'. split; [by right|done]. }
  eapply rtc_r; [exact Ha|exact Hp].
Qed.

(** A [.gitignore] at the root with one path in it. *)
Definition ignored (t : worktree) (p : string) : bool := bool_decide (wt_nodes t !! ".gitignore" = Some (Regular p)).

(** A checkout keeps what is not tracked. *)
Definition checked_out (c : commit) (r : repo) : worktree :=
  mkWorktree (co_tree c ∪ filter (λ pn, r_index r !! pn.1 = None) (wt_nodes (r_tree r))) ∅.

Definition status_clean (r : repo) : bool :=
  bool_decide (filter (λ pn, is_Some (r_index r !! pn.1) ∨ ignored (r_tree r) pn.1 = false) (wt_nodes (r_tree r)) = r_index r ∧
               r_index r = from_option co_tree ∅ (head_hash r)).

(** A remote that is either down or follows Git's rules: a push without force is a
    fast-forward. *)
Definition ref_git (down : bool) : GoGit := {|
  gg_clone _ b rm :=
    match rm !! b with
    | Some c => Ok (mkRepo {[b := c]} b (co_tree c) (mkWorktree (co_tree c) ∅))
    | None => Err (plain "couldn't find remote ref")
    end;
  gg_init := mkRepo ∅ "master" ∅ (mkWorktree ∅ ∅);
  gg_fetch _ b r rm :=
    match rm !! b with
    | Some c => (None, set_ref b c r)
    | None => (Some (plain "couldn't find remote ref"), r)
    end;
  gg_list rm := Ok (map_to_list rm);
  gg_checkout b create at_ r :=
    match r_refs r !! b, at_ with
    | Some c, _ => (None, mkRepo (r_refs r) b (co_tree c) (checked_out c r))
    | None, Some c => (None, mkRepo (<[b := c]> (r_refs r)) b (co_tree c) (checked_out c r))
    | None, None => (Some (plain "reference not found"), r)
    end;
  gg_ignored := ignored;
  gg_clean r := Ok (status_clean r);
  gg_commit r := let c := Commit (option_list (head_hash r)) (r_index r) 0 in Ok (c, set_ref (r_head r) c r);
  gg_push _ force b r rm :=
    match r_refs r !! b with
    | None => (Some (plain "reference not found"), rm)
    | Some c =>
        if down then (Some (plain "dial tcp: connection refused"), rm)
        else if force || from_option (λ tip, is_anc tip c) true (rm !! b) then (None, <[b := c]> rm)
        else (Some (plain "non-fast-forward update"), rm)
    end;
  gg_pull _ b r rm := (None, r);
  gg_reset_hard c r := (None, mkRepo (r_refs r) (r_head r) (co_tree c) (mkWorktree (co_tree c) ∅));
  gg_has _ _ := true;
  gg_is_ancestor _ a b := Ok (is_anc a b);
  already_up_to_date := 9;
|}.

Lemma ref_git_laws down : @GoGitLaws (ref_git down).
Proof.
  split; cbn.
  - intros n b rm r. destruct (rm !! b) eqn:Hb; [|done]. intros [= <-]. cbn. by rewrite lookup_singleton_eq.
  - intros n b r rm e r'. destruct (rm !! b) eqn:Hb; intros [= <- <-]; [|done]. intros _. cbn. by rewrite lookup_insert_eq.
  - intros n b rm r c. destruct (rm !! b) eqn:Hb; [|done]. by intros [= <-] [= <-].
  - intros n b r rm e r'. by destruct (rm !! b); intros [= <- <-].
  - intros b create at_ r r' c. destruct (r_refs r !! b) as [c'|] eqn:Hb; [|by destruct at_]. intros [= <-] [= <-]. split_and!; [done..| |].
    + intros p n Hn. cbn. by apply lookup_union_Some_l.
    + cbn. intros p n [?|[? [? _]%map_lookup_filter_Some]]%lookup_union_Some_raw; [by left|by right].
  - intros r [= Hd]. by apply bool_decide_eq_true in Hd as [_ ?].
  - by intros r c r' [= <- _].
  - intros n f b r rm e rm'. destruct (r_refs r !! b) as [c|] eqn:Hb; [|by intros [= <- _]].
    destruct down; [by intros [= <- _]|]. destruct (_ || _); intros [= <- <-]; [|done]. intros _.
    split; [by rewrite lookup_insert_eq|]. intros b' Hne. by rewrite lookup_insert_ne.
  - intros r a b [= Ha]. by apply is_anc_sound.
  - intros rm refs [= <-] b. rewrite <- (list_to_map_to_list rm) at 2. f_equal. apply list_to_map_proper.
    + rewrite reverse_Permutation. apply NoDup_fst_map_to_list.
    + apply reverse_Permutation.
Qed.

#[local] Instance demo_errors : GitErrorApi :=
  {| http_err_codes _ := []; is_auth_sentinel _ := false; IsProbableEOF _ := false; IsConnectionReset _ := false |}.
#[local] Instance demo_urls : UrlApi := {| url_parse _ := Some (mkURL "https" "/r.git" ""); url_text s _ := s |}.
#[local] Instance demo_format : GoFormat :=
  {| fingerprint_text c p l k := c +:+ (if p then "/t" else "/f") +:+ join "," l +:+ ";" +:+ join "," k |}.

Definition no_ctx (_ : nat) : option err := None.
Definition no_sleep (_ : nat) (_ : Z) : option err := None.
Definition base : commit := Commit [] {["README.md" := Regular "hello"]} 0.
Definition rm0 : remote := {["main" := base]}.
Definition cfgA : GitConfig := mkGitConfig "https://git.example/r.git" "" false (mkPruneConfig true "A" [] [] false).
Definition fileX : list FileEntry := [mkFileEntry "inventory/a/x.yaml" "x"].
Definition direct : exportRequest := mkExportRequest "https://git.example/r.git" "main" "main" "inventory/a/x.yaml".
Definition feature : exportRequest := mkExportRequest "https://git.example/r.git" "main" "kollect/a" "inventory/a/x.yaml".
Definition run_with (g : GoGit) := exportRemoteInWorkdir no_ctx no_sleep.
Definition run (down : bool) := run_with (ref_git down).

Definition no_cli (_ : exportRequest) (_ : list FileEntry) (w : world) : option err * world := (None, w).
Definition exported (down : bool) (t : fingerprints) (w : world) : option err * fingerprints * world :=
  let _ := ref_git down in ExportFilesWithBranch no_ctx no_sleep None no_cli cfgA fileX None "abc" t w.

(** The branch has an older version of the file. *)
Definition older : commit := Commit [] (<["inventory/a/x.yaml" := Regular "old"]> (co_tree base)) 0.
Definition rm1 : remote := {["main" := older]}.


#[local] Instance up : GoGit := ref_git false.
#[local] Instance up_laws : GoGitLaws := ref_git_laws false.

Lemma deletion_delivered_witness :
  let w1 := (run false cfgA direct fileX (None, rm0)).2 in
  let res := deleteRemote no_ctx no_sleep 10 cfgA direct ["inventory/a/x.yaml"] w1 in
  ∃ tip c, res.2.2 !! "main" = Some tip ∧ ancestor c tip ∧ co_tree c !! "inventory/a/x.yaml" = None.
Proof.
  intros w1 res.
  destruct (deletion_delivered no_ctx no_sleep 10 cfgA direct
    ["inventory/a/x.yaml"] w1.1 w1.2 ["inventory/a/x.yaml"; pruneRecordPath "A"] res.2) as (tip & c & Ht & Ha & Hp).
  - vm_compute. reflexivity.
  - exists tip, c. split; [exact Ht|]. split; [exact Ha|]. apply Hp. left.
Defined.

(** An export to a feature branch whose push fails is not repeated: the commit
    stays on the mirror's branch, so that the next export finds nothing to commit,
    reports success, and the remote never gets the branch. *)
Example stranded_export_lost :
  let '(e1, w1) := run true cfgA feature fileX (None, rm0) in
  let '(e2, w2) := run false cfgA feature fileX w1 in
  is_Some e1 ∧ e2 = None ∧ w2.2 !! "kollect/a" = None.
Proof. vm_compute. split_and!; [by eexists|done|done]. Qed.

(** A file that an interrupted export of another inventory left in the mirror, not
    tracked, is committed and pushed by the next pruning export. *)
Definition interrupted : repo :=
  mkRepo {["main" := base]} "main" (co_tree base) (mkWorktree (<["inventory/b/y.yaml" := Regular "half"]> (co_tree base)) ∅).

Example leftover_pushed :
  let '(e, w) := run false cfgA direct fileX (Some interrupted, rm0) in
  e = None ∧ (co_tree <$> w.2 !! "main") ≫= (λ tr, tr !! "inventory/b/y.yaml") = Some (Regular "half").
Proof. vm_compute. split; reflexivity. Qed.

(** A pruning export stages what a status shows. A file that a [.gitignore] of the
    branch matches is written and not committed: the ownership record that is pushed
    lists it, the branch does not have it, and the export reports success. *)
Definition ignoring : remote := {["main" := Commit [] (<[".gitignore" := Regular "inventory/a/x.yaml"]> (co_tree base)) 0]}.

Example ignored_file_not_pushed :
  let '(e, w) := run false cfgA direct fileX (None, ignoring) in
  let tr := from_option co_tree ∅ (w.2 !! "main") in
  e = None ∧ tr !! "inventory/a/x.yaml" = None ∧ is_Some (tr !! pruneRecordPath "A").
Proof. vm_compute. split_and!; [reflexivity..|by eexists]. Qed.

Definition export (t : fingerprints) (w : world) :=
  ExportFilesWithBranch no_ctx no_sleep None (λ _ _ w, (None, w)) cfgA fileX None "abc" t w.
Definition delete (w : world) :=
  DeleteExportWithBranch no_ctx no_sleep None (λ _ _ w, (Ok [], w)) 10 cfgA ["inventory/a/x.yaml"] None w.

(** The tracker outlives a deletion: an inventory that is deleted, its files
    retracted, and created again with the same rows is skipped as already
    exported. *)
Example recreated_export_skipped :
  let '(e1, t1, w1) := export ∅ (None, rm0) in
  let '(d, w2) := delete w1 in
  let '(e3, t3, w3) := export t1 w2 in
  e1 = None ∧ d = Ok ["inventory/a/x.yaml"; pruneRecordPath "A"] ∧
  (co_tree <$> w1.2 !! "main") ≫= (λ tr, tr !! "inventory/a/x.yaml") = Some (Regular "x") ∧
  e3 = None ∧ (co_tree <$> w3.2 !! "main") ≫= (λ tr, tr !! "inventory/a/x.yaml") = None.
Proof. vm_compute. split_and!; reflexivity. Qed.
End GitDemo.
