(* ===== verification/Multipart.v ===== *)
(** A snapshot that is exported in several parts: the loop over the parts in
    [exportToSinks] of [src/internal/controller/kollectinventory_controller.go],
    against any backend that takes file trees.

    The theorems are about the requests the loop makes: [logging] records them, and
    [carry_out] applies them, in their order, to the tree of the branch, with the
    front of [ExportFiles] and [writeBillyExportFiles]. What the Git backend makes of
    one request, a commit or nothing when its fingerprint is the last one's, is with
    the delivery of Git exports. *)

From S2P Require Import Prelude GoStrings GoPath Values Store Json Envelope Partition Errors GoTemplate SinkSpec ObjectPath Layout GitTree GitErrors LayoutExport SinkExport GitExport.

(** * The loop over the parts *)

Section loop.
Context `{!UnicodeCase, !Yaml, !SortFunc, !Sha256, !JsonDecode, !ApiErrors, !GitErrorApi, !ErrorTexts}.
Context {W : Type}.
Context (now : nat → Z) (maxBytes : Z) (acquire : nat → result err (Backend W)) (refuse : nat → option refusal).
Context (SinkNamespace SinkName objectPath : string) (inventory : InventoryIdentity) (spec : KollectSinkSpec).

Definition part_request (part : EnvelopePartition) : ExportEnvelopeRequest :=
  mkExportEnvelopeRequest true SinkNamespace SinkName
    (PartitionObjectPath objectPath (Z.to_nat (part_Index part)) (Z.to_nat (part_Total part)))
    inventory (part_Envelope part) spec.

Fixpoint export_loop (i : nat) (parts : list EnvelopePartition) (plan : PrunePlan) (w : W) :
    result err (list string) * PrunePlan * W :=
  match parts with
  | [] => (Ok [], plan, w)
  | part :: parts =>
      match RunExportEnvelope (now i) maxBytes (acquire i) (refuse i) (part_request part) plan w with
      | (Err e, plan, w) => (Err e, plan, w)
      | (Ok written, plan, w) =>
          match export_loop (S i) parts plan w with
          | (Err e, plan, w) => (Err e, plan, w)
          | (Ok rest, plan, w) => (Ok (written ++ rest), plan, w)
          end
      end
  end.

(** The paths written, or the first part's failure; the parts before it stay
    exported.
    Go: internal/controller/kollectinventory_controller.go:399-434 [exportToSinks, the loop over the parts] *)
Definition export_parts (parts : list EnvelopePartition) (w : W) : result err (list string) * W :=
  let prunePlan := if decide (1 < length parts) then NewPrunePlan else None in
  let '(e, _, w) := export_loop 0 parts prunePlan w in (e, w).
End loop.

(** * The requests of a run *)

(** A backend that also records what it is asked for. *)
Definition logging {W} (b : Backend W) : Backend (W * list export_action) :=
  mkBackend (be_Capabilities b) (be_canTree b)
    (λ action s, let '(e, w) := be_run b action s.1 in (e, (w, s.2 ++ [action]))).

Definition logged {W} (acquire : nat → result err (Backend W)) (i : nat) : result err (Backend (W * list export_action)) :=
  match acquire i with Ok b => Ok (logging b) | Err e => Err e end.

Section store.
Context `{!UnicodeCase, !Sha256, !PruneCodec, !MapRange}.

(** What a request does to the tree of the branch. *)
Definition tree_export (cfg : PruneConfig) (files : list FileEntry) (t : worktree) : option err * worktree :=
  if nothing_to_export cfg files then (Some (git_err NoFiles), t)
  else
    match validate_files ∅ files with
    | Err e => (Some (git_err e), t)
    | Ok validated =>
        match writeBillyExportFiles t cfg validated with
        | Err e => (Some (git_err (PruneRejected e)), t)
        | Ok (_, t') => (None, t')
        end
    end.

Definition tree_backend (cfg : PruneConfig) : Backend worktree :=
  mkBackend SnapshotStore true
    (λ action t, match action with
                 | ExportTree files opts => tree_export (filesConfig cfg opts) files t
                 | ExportDocument payload path => tree_export cfg [mkFileEntry path payload] t
                 end).

(** The requests carried out on a tree one after the other; [None]: one of them is
    refused. *)
Fixpoint carry_out (cfg : PruneConfig) (requests : list export_action) (t : worktree) : option worktree :=
  match requests with
  | [] => Some t
  | action :: requests =>
      match be_run (tree_backend cfg) action t with
      | (None, t) => carry_out cfg requests t
      | (Some _, _) => None
      end
  end.

Lemma tree_run cfg files opts t t' :
  be_run (tree_backend cfg) (ExportTree files opts) t = (None, t') →
  ∃ validated paths, validate_files ∅ files = Ok validated ∧
    writeBillyExportFiles t (filesConfig cfg opts) validated = Ok (paths, t').
Proof.
  cbn [tree_backend be_run]. unfold tree_export.
  destruct (nothing_to_export _ _); [done|]. destruct (validate_files ∅ files) as [v|]; [|done].
  destruct (writeBillyExportFiles t _ v) as [[paths t1]|] eqn:Hw; [|done]. intros [= <-]. by exists v, paths.
Qed.
End store.

(** * Paths of a projected tree *)

Section paths.
Context `{!UnicodeCase, !Sha256, !PruneCodec, !MapRange}.

(** A path a record may list is its own normal form. *)
Lemma prune_valid_relative p : validatePrunePath p = Ok tt → ValidateRelativeObjectPath p = Ok p ∧ p ≠ "".
Proof.
  intros Hp. pose proof Hp as Hv. unfold validatePrunePath in Hp. destruct (_ || _) eqn:Hb; [done|].
  rewrite !orb_false_iff, !bool_decide_eq_false, negb_false_iff in Hb. destruct Hb as [[[[[_ Hne] Htrim] Hroot] Hclean] Hch].
  apply dec_stable in Htrim, Hclean. split; [|done]. unfold ValidateRelativeObjectPath. rewrite <- Htrim, decide_False by done.
  assert (contains p nul = false) as ->.
  { apply not_true_iff_false. intros (r1 & r2 & ->)%contains_true. rewrite !string_forall_app, !andb_true_iff in Hch. by destruct Hch as (_ & ? & _). }
  rewrite Hclean, Hroot. pose proof (clean_relative p Hroot) as Hc. rewrite Hclean in Hc.
  assert (p ≠ "." ∧ ".." ∉ split_byte "/" p) as [Hdot Hdd].
  { rewrite for_each_ok, Forall_forall in Hp. split.
    - intros ->. by specialize (Hp "." ltac:(left)).
    - intros Hin. by specialize (Hp ".." Hin). }
  destruct (escapes 0 _).
  - destruct Hc as [l Hl]. exfalso. apply Hdd. rewrite Hl. destruct l as [|x l]; [by left|]. rewrite join_cons.
    change (split_byte "/" _) with (split_byte "/" (".." +:+ String "/" (join "/" (x :: l)))). rewrite split_byte_app by done. left.
  - destruct Hc as (l & Hl & Hj). case_decide as Hnil; [done|]. by rewrite Hj, join_ordinary_no_dotdot.
Qed.

Lemma validate_files_valid seen files v :
  validate_files seen files = Ok v → (∀ p, p ∈ entry_Path <$> files → validatePrunePath p = Ok tt) → v = files.
Proof.
  revert seen v. induction files as [|[p d] files IH]; intros seen v; cbn [validate_files entry_Path entry_Data]; [by intros [= <-]|].
  intros Hv Hp. destruct (prune_valid_relative p (Hp p ltac:(left))) as [Hr Hne]. rewrite Hr in Hv.
  case_decide; [done|]. cbn [lift_err] in Hv. apply result_bind_ok in Hv as (q & [= <-] & Hv).
  cbv zeta in Hv. rewrite (decide_False (P := p = "")) in Hv by done. apply then_ok in Hv as [_ Hv]. destruct (decide (p ∈ seen)); [done|].
  apply result_bind_ok in Hv as (rest & Hrest & [= <-]). f_equal. apply (IH _ _ Hrest). intros q Hq. apply Hp. by right.
Qed.
End paths.

(** * One part *)

Section multipart.
Context `{!UnicodeCase, !Yaml, !SortFunc, !Sha256, !JsonDecode, !ApiErrors, !GitErrorApi, !ErrorTexts, !PruneCodec, !MapRange}.
Context (cfg : PruneConfig).

(** The layout a part is projected with. *)
Definition part_layout (req : ExportEnvelopeRequest) (items : list Item) : ResolvedLayout :=
  let '(invNS, invName) := InventoryFromObjectPath (req_ObjectPath req) in
  let '(resourceExportMode, manifestKey) := inferResourceLayoutHints items in
  let r := Resolve (mkResolveInput (req_SinkSpec req) invNS invName (GenerationFromEnvelope (req_Envelope req))
                      resourceExportMode manifestKey) in
  let meta := EnvelopeMetaFromPayload (req_Envelope req) in
  if decide (emeta_ExportedAt meta ≠ zero_time) then with_ExportedAt (rfc3339 (emeta_ExportedAt meta)) r else r.

(** The files a part is projected to. *)
Definition projects (req : ExportEnvelopeRequest) (r : ResolvedLayout) (files : list FileEntry) : Prop :=
  ∃ items fs, ItemsFromExportPayload (req_Envelope req) = Ok items ∧ r = part_layout req items ∧
    Project items r = Ok fs ∧ files = (λ f, mkFileEntry (file_Path f) (file_Data f)) <$> fs.

(** An envelope whose items are not empty. *)
Definition has_rows (envelope : string) : Prop :=
  ∃ j, ItemsJSONFromEnvelope envelope = Ok j ∧ trim_space j ∉ ["[]"; "null"; ""].

(** The prune owner of an inventory on a sink. *)
Definition sink_owner (spec : KollectSinkSpec) (inventory : InventoryIdentity) : result owner_error string :=
  let cluster := trim_space (sink_Cluster spec) in
  InventoryPruneOwner (id_Kind inventory) (if decide (cluster = "") then "default" else cluster)
    (id_Namespace inventory) (id_Name inventory).

Lemma part_layout_prune req items :
  exportsEmptyGitTree true (req_SinkSpec req) = true →
  rl_Prune (part_layout req items) = true ∧ IsDocument (part_layout req items) = false ∧
  rl_Cluster (part_layout req items) = trim_space (sink_Cluster (req_SinkSpec req)).
Proof.
  unfold exportsEmptyGitTree. rewrite !andb_true_iff, !bool_decide_eq_true. intros [_ Hm].
  unfold part_layout, IsDocument. destruct (InventoryFromObjectPath _) as [ns name], (inferResourceLayoutHints items) as [m key].
  set (r := Resolve _). assert (rl_Prune r = true ∧ rl_Mode r ≠ LayoutModeDocument ∧ rl_Cluster r = trim_space (sink_Cluster (req_SinkSpec req))) as (Hp & Hd & Hc).
  { unfold r, Resolve. cbn [ri_Spec ri_ResourceExportMode rl_Prune rl_Mode rl_Cluster]. rewrite bool_decide_eq_true.
    destruct (m && negb _); done. }
  case_decide; cbn [with_ExportedAt rl_Prune rl_Mode rl_Cluster]; by rewrite bool_decide_false.
Qed.

Lemma projected_rows now b req :
  be_Capabilities b = SnapshotStore → has_rows (req_Envelope req) →
  projected_envelope (W := worktree) now b req = Ok (Some (req_Envelope req)).
Proof.
  intros Hc (j & Hj & Hn). unfold projected_envelope. rewrite Hj, Hc. cbn [lift_err].
  assert (ExportPayload SnapshotStore j = Some j) as Hp.
  { unfold ExportPayload. destruct (decide (j = "")) as [->|]; [|rewrite decide_False; [done|]]; set_solver. }
  change (Ok j ≫= ?f) with (f j). cbv beta zeta. rewrite Hp. by rewrite decide_True.
Qed.

(** A part that was exported: its files were projected, bound to the prune plan
    and handed to the backend. *)
Lemma part_exported now maxBytes refused req plan w written plan' w' :
  exportsEmptyGitTree true (req_SinkSpec req) = true → has_rows (req_Envelope req) →
  RunExportEnvelope now maxBytes (Ok (tree_backend cfg)) refused req plan w = (Ok written, plan', w') →
  ∃ r fs files path opts,
    projects req r files ∧ files = (λ f, mkFileEntry (file_Path f) (file_Data f)) <$> fs ∧
    ∃ entries, resolveTree r (EnvelopeMetaFromPayload (req_Envelope req)) fs (req_Inventory req) plan =
      (Ok (mkSnapshotExport path (ExportTree entries opts) written), plan') ∧
    ∃ validated paths, validate_files ∅ entries = Ok validated ∧
      writeBillyExportFiles w (filesConfig cfg opts) validated = Ok (paths, w').
Proof.
  intros Htree Hrows. unfold RunExportEnvelope. destruct (req_Registry req); [|done]. cbn [negb]. case_decide; [done|].
  destruct (checkInventoryIdentity req); [|done].
  unfold run_acquired. rewrite projected_rows by done. destruct (shouldExportForSpill _ _ _); [|done]. cbn [negb].
  destruct (InventoryFromObjectPath (req_ObjectPath req)) as [ns name] eqn:Hinv.
  unfold resolveSnapshotExport. change (be_canTree (tree_backend cfg)) with true.
  pose proof Htree as Hfam. unfold exportsEmptyGitTree in Hfam. rewrite !andb_true_iff in Hfam. destruct Hfam as [[[_ ->] _] _].
  cbn [negb]. destruct (ItemsFromExportPayload (req_Envelope req)) as [items|] eqn:Hitems; [|done].
  destruct (part_layout_prune req items Htree) as (_ & Hdoc & _).
  unfold part_layout in Hdoc. rewrite Hinv in Hdoc.
  destruct (inferResourceLayoutHints items) as [m key] eqn:Hhints. cbv zeta in Hdoc |- *. set (r0 := Resolve _) in *.
  assert (IsDocument r0 = false) as -> by (by case_decide). cbn [andb].
  set (r := if decide _ then _ else r0) in *. assert (r = part_layout req items) as Hr.
  { unfold part_layout. by rewrite Hinv, Hhints. }
  destruct (Project items r) as [fs|] eqn:Hproj; [|done].
  destruct (resolveTree r _ fs _ plan) as [[s|] plan1] eqn:Hres; [|done].
  assert (∃ entries opts, se_run s = ExportTree entries opts) as (entries & opts & Hse).
  { unfold resolveTree in Hres. destruct (gitExportOpts _ _ _ _ _) as [o p]. apply pair_equal_spec in Hres as [Hres _].
    apply result_bind_ok in Hres as (ow & _ & Hres). cbv zeta in Hres. apply result_bind_ok in Hres as ([e o'] & _ & [= <-]). by eexists _, _. }
  destruct (exportThroughBreaker _ refused _ w) as [[e|] w1] eqn:Hrun; [by destruct (classify_keeps_cause e) as (? & -> & _)|].
  destruct refused as [[]|]; [done..|]. cbn [exportThroughBreaker] in Hrun.
  cbn [ClassifyExportError]. intros [= <- <- <-]. rewrite Hse in Hrun.
  destruct s as [path run wr]. cbn in *. subst run.
  exists r, fs, ((λ f, mkFileEntry (file_Path f) (file_Data f)) <$> fs), path, opts. split_and!; [by exists items, fs|done|].
  exists entries. split; [done|]. by apply tree_run.
Qed.

(** * The prune plan *)

Lemma owner_of_sink r spec inventory owner :
  rl_Cluster r = trim_space (sink_Cluster spec) → inventoryPruneOwner r inventory = Ok owner →
  sink_owner spec inventory = Ok owner ∧ owner ≠ "".
Proof.
  unfold inventoryPruneOwner, sink_owner. intros ->. destruct (id_IsZero _); [done|]. rewrite then_ok. intros [_ Ho].
  set (c := if decide _ then _ else _) in *. destruct (InventoryPruneOwner _ c _ _) as [o|] eqn:He; [|done]. injection Ho as <-. split; [done|].
  unfold InventoryPruneOwner in He. case_decide; [done|]. by injection He as <-.
Qed.

Lemma file_entry_paths (fs : list File) : entry_Path <$> ((λ f, mkFileEntry (file_Path f) (file_Data f)) <$> fs) = file_Path <$> fs.
Proof. symmetry. exact (list_fmap_compose (λ f, mkFileEntry (file_Path f) (file_Data f)) entry_Path fs). Qed.

(** A part before the last one does not prune; it claims the manifest's path. *)
Lemma tree_before_last r meta fs inventory S path entries opts written plan' :
  rl_Prune r = true → (1 < emeta_PartTotal meta)%Z → (emeta_PartIndex meta < emeta_PartTotal meta)%Z →
  resolveTree r meta fs inventory (Some S) = (Ok (mkSnapshotExport path (ExportTree entries opts) written), plan') →
  entries = (λ f, mkFileEntry (file_Path f) (file_Data f)) <$> fs ∧ written = entry_Path <$> entries ∧
  plan' = Some (S ∪ list_to_set written) ∧
  ∃ owner m, inventoryPruneOwner r inventory = Ok owner ∧
    filesConfig cfg opts = mkPruneConfig false owner [] [m] (cfg_ReleaseOnly cfg).
Proof.
  intros Hp Htot Hidx. unfold resolveTree, gitExportOpts, setManifestClaim, appendSetManifest. rewrite Hp. cbn [negb orb].
  rewrite (bool_decide_false (_ ≤ 1)%Z), (decide_False (P := Some S = None)), (decide_False (P := (_ ≤ _)%Z)) by (done || lia).
  rewrite (bool_decide_false (_ ≤ emeta_PartIndex meta)%Z), (bool_decide_true (_ < _)%Z) by (done || lia). cbn [orb plan_Add].
  rewrite bool_decide_false by done. intros [Hr <-]%pair_equal_spec. apply result_bind_ok in Hr as (owner & Ho & Hr).
  injection Hr as _ <- <- <-. split_and!; [done|done| |].
  - by rewrite file_entry_paths.
  - exists owner, (setManifestPath r (emeta_PartIndex meta) (emeta_PartTotal meta)). split; [done|].
    unfold filesConfig. cbn [opt_Prune opt_PruneOwner opt_PruneKeepPaths opt_SuppressPrune opt_PruneClaimPaths negb].
    by rewrite andb_false_r.
Qed.

(** The last part prunes against the paths of all parts and the manifest. *)
Lemma tree_last r meta fs inventory S path entries opts written plan' :
  rl_Prune r = true → (1 < emeta_PartTotal meta)%Z → emeta_PartIndex meta = emeta_PartTotal meta →
  resolveTree r meta fs inventory (Some S) = (Ok (mkSnapshotExport path (ExportTree entries opts) written), plan') →
  let files := (λ f, mkFileEntry (file_Path f) (file_Data f)) <$> fs in
  let union := sort_strings (elements (S ∪ list_to_set (entry_Path <$> files) : gset string)) in
  ∃ owner r' m, inventoryPruneOwner r inventory = Ok owner ∧ entry_Path m ∉ union ∧ rl_Cluster r' = rl_Cluster r ∧
    entry_Path m = SetManifestPath r' ∧
    entry_Data m = MarshalSetManifest (BuildSetManifest r' (Z.to_nat (emeta_PartTotal meta)) union) ∧
    entries = files ++ [m] ∧ written = entry_Path <$> entries ∧
    filesConfig cfg opts = mkPruneConfig true owner (union ++ [entry_Path m]) [] (cfg_ReleaseOnly cfg).
Proof.
  intros Hp Htot Hidx. cbv zeta. unfold resolveTree, gitExportOpts, setManifestClaim, appendSetManifest, setManifestPath. rewrite Hp, Hidx. cbn [negb orb].
  rewrite (bool_decide_false (_ ≤ 1)%Z), (decide_False (P := Some S = None)), (decide_True (P := (_ ≤ _)%Z)) by (done || lia).
  rewrite (bool_decide_true (_ ≤ emeta_PartTotal meta)%Z), (bool_decide_false (_ < _)%Z) by (done || lia). cbn [orb plan_Add].
  intros [Hr _]%pair_equal_spec. apply result_bind_ok in Hr as (owner & Ho & Hr). cbv zeta in Hr. 
  change (plan_Add (file_Path <$> fs) (Some S)) with (Some (S ∪ list_to_set (file_Path <$> fs)) : PrunePlan) in Hr.
  rewrite bool_decide_false in Hr by done. cbn [plan_Union] in Hr.
  rewrite file_entry_paths.
  set (union := sort_strings _) in *. destruct (decide (_ ∈ union)) as [|Hm]; [done|]. injection Hr as _ <- <- <-.
  set (r' := with_InventoryName _ r). exists owner, r'. eexists (mkFileEntry (SetManifestPath r') _).
  split; [exact Ho|]. split; [cbn [entry_Path]; exact Hm|]. do 5 (split; [reflexivity|]).
  unfold filesConfig. cbn [opt_Prune opt_PruneOwner opt_PruneKeepPaths opt_SuppressPrune opt_PruneClaimPaths negb entry_Path].
  by rewrite orb_true_r.
Qed.

(** * All parts *)

Context (now : nat → Z) (maxBytes : Z) (refuse : nat → option refusal).
Context (SinkNamespace SinkName objectPath : string) (inventory : InventoryIdentity) (spec : KollectSinkSpec).
Context (Htree : exportsEmptyGitTree true spec = true).

Abbreviation request := (part_request SinkNamespace SinkName objectPath inventory spec).
Abbreviation run := (export_loop now maxBytes (λ _, Ok (tree_backend cfg)) refuse SinkNamespace SinkName objectPath inventory spec).

(** Part [i] of [n], counted from zero, as its envelope describes itself. *)
Definition part_at (n i : nat) (part : EnvelopePartition) : Prop :=
  let meta := EnvelopeMetaFromPayload (part_Envelope part) in
  emeta_PartIndex meta = Z.of_nat (S i) ∧ emeta_PartTotal meta = Z.of_nat n ∧ has_rows (part_Envelope part).

Definition projected (part : EnvelopePartition) (files : list FileEntry) : Prop := ∃ r, projects (request part) r files.

(** What writing [files] makes of a tree. *)
Definition overwrite (files : list FileEntry) (q : string) (old : option node) : option node :=
  match written_data files q with Some d => Some (Regular d) | None => old end.

Lemma written_data_app fs gs q :
  written_data (fs ++ gs) q = match written_data gs q with Some d => Some d | None => written_data fs q end.
Proof.
  unfold written_data. rewrite filter_app, last_app. by destruct (last (filter _ gs)).
Qed.

Lemma overwrite_app fs gs q old : overwrite (fs ++ gs) q old = overwrite gs q (overwrite fs q old).
Proof. unfold overwrite. rewrite written_data_app. by destruct (written_data gs q). Qed.

(** One part before the last. *)
Lemma part_step n i part U w written plan' w' res :
  part_at n i part → S (S i) ≤ n → loadPruneRecords w = Ok res →
  RunExportEnvelope (now i) maxBytes (Ok (tree_backend cfg)) (refuse i) (request part) (Some U) w = (Ok written, plan', w') →
  ∃ files validated owner,
    projected part files ∧ sink_owner spec inventory = Ok owner ∧ written = entry_Path <$> files ∧
    plan' = Some (U ∪ list_to_set written) ∧ validate_files ∅ files = Ok validated ∧
    loadPruneRecords w' = Ok res ∧
    (∀ q, wt_nodes w' !! q = overwrite validated q (wt_nodes w !! q)) ∧
    (∀ q o, res.1.1 !! q = Some o → o ≠ owner → q ∉ entry_Path <$> validated).
Proof.
  intros (Hi & Hn & Hrows) Hlt Hload Hrun. destruct res as [[owners records] total].
  apply part_exported in Hrun as (r & fs & files & path & opts & Hproj & Hfs & entries & Hres & validated & paths & Hv & Hw);
    [|done|done].
  destruct Hproj as (items & fs' & Hitems & Hr & Hproj & Hfiles). destruct (part_layout_prune (request part) items Htree) as (Hp & _ & Hc).
  rewrite <- Hr in Hp, Hc. cbn [part_request req_Envelope req_Inventory] in Hres. apply tree_before_last in Hres as (-> & -> & -> & owner & m & Ho & Hcfg); [|done|lia|lia].
  apply (owner_of_sink r spec) in Ho as [Ho Hne]; [|done]. rewrite Hcfg in Hw.
  set (c := mkPruneConfig _ _ _ _ _) in Hw. change (cfg_PruneOwner c ≠ "") in Hne.
  exists files, validated, owner. rewrite <- Hfs. split_and!; [by exists r, items, fs'|done..|by rewrite <- Hfs in Hv| | |].
  - exact (owned_write_records _ _ _ _ _ _ Hne eq_refl Hload Hw).
  - by apply (owned_write_tree _ _ _ _ _ _ _ _ Hne eq_refl Hload Hw).
  - cbn. by apply (owned_write_tree _ _ _ _ _ _ _ _ Hne eq_refl Hload Hw).
Qed.

(** The parts before the last write over the tree, one after the other. *)
Lemma parts_prefix n parts i U w written plan' w' res :
  (∀ j part, parts !! j = Some part → part_at n (i + j) part) → i + length parts < n →
  loadPruneRecords w = Ok res → run i parts (Some U) w = (Ok written, plan', w') →
  ∃ fss vss,
    Forall2 projected parts fss ∧ Forall2 (λ fs v, validate_files ∅ fs = Ok v) fss vss ∧
    written = entry_Path <$> concat fss ∧ plan' = Some (U ∪ list_to_set written) ∧
    loadPruneRecords w' = Ok res ∧
    (∀ q, wt_nodes w' !! q = overwrite (concat vss) q (wt_nodes w !! q)) ∧
    (∀ q o owner, res.1.1 !! q = Some o → sink_owner spec inventory = Ok owner → o ≠ owner →
       q ∉ entry_Path <$> concat vss).
Proof.
  revert i U w written. induction parts as [|part parts IH]; intros i U w written Hparts Hn Hload; cbn [export_loop].
  - intros [= <- <- <-]. exists [], []. split_and!; try done; [f_equal; set_solver|].
    intros q o owner _ _ _. apply not_elem_of_nil.
  - destruct (RunExportEnvelope _ _ _ _ _ _ w) as [[[wr|] plan1] w1] eqn:Hrun; [|done].
    destruct (export_loop _ _ _ _ _ _ _ _ _ _ _ _ w1) as [[[rest|] plan2] w2] eqn:Hloop; [|done]. intros [= <- <- <-].
    cbn [length] in Hn. eapply (part_step n) in Hrun as (fs & v & owner & Hproj & Ho & -> & -> & Hv & Hload1 & Hnodes & Hfor);
      [|rewrite <- (Nat.add_0_r i); by apply Hparts|lia|done].
    apply IH in Hloop as (fss & vss & Hps & Hvs & -> & -> & Hload2 & Hnodes2 & Hfor2);
      [|intros j p Hj; rewrite Nat.add_succ_comm; by apply (Hparts (S j))|lia|done].
    exists (fs :: fss), (v :: vss). cbn [concat]. rewrite !fmap_app, list_to_set_app_L. split_and!; try done.
    + by constructor.
    + by constructor.
    + f_equal. symmetry. apply (assoc_L (∪)).
    + intros q. by rewrite Hnodes2, Hnodes, overwrite_app.
    + intros q o owner' Hq Ho' Hne. rewrite elem_of_app. assert (owner' = owner) as -> by congruence.
      intros [Hin|Hin]; [by eapply Hfor|by eapply Hfor2].
Qed.

Lemma loop_snoc parts part i plan w written plan' w' :
  run i (parts ++ [part]) plan w = (Ok written, plan', w') →
  ∃ wr1 plan1 w1 wr2, run i parts plan w = (Ok wr1, plan1, w1) ∧ written = wr1 ++ wr2 ∧
    RunExportEnvelope (now (i + length parts)) maxBytes (Ok (tree_backend cfg)) (refuse (i + length parts))
      (request part) plan1 w1 = (Ok wr2, plan', w').
Proof.
  revert i plan w written. induction parts as [|p parts IH]; intros i plan w written; cbn [export_loop app length].
  - rewrite Nat.add_0_r. destruct (RunExportEnvelope _ _ _ _ _ _ w) as [[[wr|] plan1] w1] eqn:Hrun; [|done]. intros [= <- <- <-].
    exists [], plan, w, wr. by rewrite List.app_nil_r.
  - destruct (RunExportEnvelope _ _ _ _ (request p) _ w) as [[[wr|] plan1] w1]; [|done].
    destruct (export_loop _ _ _ _ _ _ _ _ _ (S i) (parts ++ [part]) plan1 w1) as [[[rest|] plan2] w2] eqn:Hl; [|done].
    intros [= <- <- <-]. apply IH in Hl as (wr1 & plan3 & w3 & wr2 & -> & -> & Hrun). rewrite Nat.add_succ_comm in Hrun.
    exists (wr ++ wr1), plan3, w3, wr2. by rewrite List.app_assoc.
Qed.

(** The last part: what it writes, and what it leaves of the tree. *)
Lemma part_last n i part U w written plan' w' owners records total :
  part_at n i part → n = S i → 1 < n → loadPruneRecords w = Ok (owners, records, total) →
  RunExportEnvelope (now i) maxBytes (Ok (tree_backend cfg)) (refuse i) (request part) (Some U) w = (Ok written, plan', w') →
  ∃ files m owner r,
    let union : gset string := U ∪ list_to_set (entry_Path <$> files) in
    let keep := sort_strings (elements union) ++ [entry_Path m] in
    projected part files ∧ sink_owner spec inventory = Ok owner ∧ written = entry_Path <$> (files ++ [m]) ∧
    entry_Path m = SetManifestPath r ∧ entry_Path m ∉ union ∧
    entry_Data m = MarshalSetManifest (BuildSetManifest r n (sort_strings (elements union))) ∧
    (∀ q, q ∈ keep → validatePrunePath q = Ok tt) ∧
    (∀ q o, owners !! q = Some o → o ≠ owner → q ∉ keep) ∧
    (∀ q, wt_nodes w' !! q =
       if decide (q = pruneRecordPath owner)
       then Some (Regular (encode_record (mkPruneRecord 1 owner (sort_strings (map_range (pathSet keep)).*1))))
       else if decide (owners !! q = Some owner ∧ q ∉ keep) then None
       else overwrite (files ++ [m]) q (wt_nodes w !! q)).
Proof.
  intros (Hi & Hn & Hrows) Hlast Htwo Hload Hrun.
  apply part_exported in Hrun as (r & fs & files & path & opts & Hproj & Hfs & entries & Hres & validated & paths & Hv & Hw);
    [|done|done].
  destruct Hproj as (items & fs' & Hitems & Hr & Hproj & Hfiles). destruct (part_layout_prune (request part) items Htree) as (Hp & _ & Hc).
  rewrite <- Hr in Hp, Hc. cbn [part_request req_Envelope req_Inventory] in Hres.
  apply tree_last in Hres as (owner & r' & m & Ho & Hm & _ & Hmp & Hmd & -> & -> & Hcfg); [|done|lia|lia].
  apply (owner_of_sink r spec) in Ho as [Ho Hne]; [|done]. rewrite Hcfg in Hw. rewrite <- Hfs in *. rewrite Hn, Nat2Z.id in Hmd.
  set (union := U ∪ list_to_set (entry_Path <$> files)) in *. set (keep := sort_strings (elements union) ++ [entry_Path m]) in *.
  set (c := mkPruneConfig _ _ _ _ _) in Hw. change (cfg_PruneOwner c ≠ "") in Hne.
  assert (∀ l, pruneKeepSet c l = keep) as Hkeep.
  { intros l. unfold pruneKeepSet, c. cbn [cfg_PruneKeepPaths]. rewrite decide_True; [done|]. unfold keep. rewrite List.length_app. cbn. lia. }
  destruct (owned_export_tree _ c _ _ _ _ _ _ Hne eq_refl Hload Hw) as (Hnodes & _ & _ & Hfor & _ & Hval).
  unfold next_record in Hnodes. rewrite Hkeep in Hnodes, Hfor, Hval.
  assert (validated = files ++ [m]) as ->.
  { apply (validate_files_valid _ _ _ Hv). intros p Hin. apply Hval. unfold keep. rewrite fmap_app in Hin.
    apply elem_of_app in Hin as [Hin|Hin]; apply elem_of_app; [left|by right].
    apply elem_of_sort_strings, elem_of_elements, elem_of_union_r, elem_of_list_to_set. done. }
  exists files, m, owner, r'. split_and!; try done; [by exists r, items, fs'|].
  intros Hin. apply Hm, elem_of_sort_strings, elem_of_elements. done.
Qed.

Lemma validated_same fss vss :
  Forall2 (λ fs v, validate_files ∅ fs = Ok v) fss vss →
  (∀ p, p ∈ entry_Path <$> concat fss → validatePrunePath p = Ok tt) → vss = fss.
Proof.
  induction 1 as [|fs v fss vss Hv _ IH]; [done|]. cbn [concat]. intros Hp. f_equal.
  - apply (validate_files_valid _ _ _ Hv). intros p Hin. apply Hp. rewrite fmap_app. apply elem_of_app. by left.
  - apply IH. intros p Hin. apply Hp. rewrite fmap_app. apply elem_of_app. by right.
Qed.

(** The parts on the tree itself. *)
Lemma multipart_tree_exact parts w written w' owners records total :
  1 < length parts → (∀ j part, parts !! j = Some part → part_at (length parts) j part) →
  loadPruneRecords w = Ok (owners, records, total) →
  export_parts now maxBytes (λ _, Ok (tree_backend cfg)) refuse SinkNamespace SinkName objectPath inventory spec parts w = (Ok written, w') →
  ∃ owner fss m r record,
    let union : gset string := list_to_set (entry_Path <$> concat fss) in
    let files := concat fss ++ [m] in
    sink_owner spec inventory = Ok owner ∧ Forall2 projected parts fss ∧ written = entry_Path <$> files ∧
    entry_Path m = SetManifestPath r ∧ entry_Path m ∉ entry_Path <$> concat fss ∧
    entry_Data m = MarshalSetManifest (BuildSetManifest r (length parts) (sort_strings (elements union))) ∧
    (∀ q, q ∈ written → wt_nodes w' !! q = Regular <$> written_data files q) ∧
    (∀ q, owners !! q = Some owner → q ∉ written → wt_nodes w' !! q = None) ∧
    (∀ q o, owners !! q = Some o → o ≠ owner → wt_nodes w' !! q = wt_nodes w !! q) ∧
    (∀ q, owners !! q = None → q ∉ written → q ≠ pruneRecordPath owner → wt_nodes w' !! q = wt_nodes w !! q) ∧
    wt_nodes w' !! pruneRecordPath owner = Some (Regular (encode_record record)) ∧ rec_Owner record = owner ∧
    (∀ p, p ∈ rec_Paths record ↔ p ∈ written).
Proof.
  intros Htwo Hparts Hload. unfold export_parts. rewrite decide_True by done.
  destruct (export_loop _ _ _ _ _ _ _ _ _ 0 parts NewPrunePlan w) as [[e plan2] w2] eqn:Hrun. intros [= -> ->].
  destruct parts as [|part0 parts0 _] using rev_ind; [cbn in Htwo; lia|]. rename part0 into part, parts0 into parts.
  rewrite List.length_app in Hparts, Htwo |- *. cbn [length] in Hparts, Htwo |- *.
  apply loop_snoc in Hrun as (wr1 & plan1 & w1 & wr2 & Hpre & -> & Hlast).
  apply (parts_prefix (length parts + 1)) with (res := (owners, records, total)) in Hpre
    as (fss & vss & Hps & Hvs & -> & -> & Hload1 & Hnodes1 & _); [|intros j p Hj; apply Hparts; by apply lookup_app_l_Some|lia|done].
  rewrite (left_id_L ∅ (∪)) in Hlast. cbn [Nat.add] in Hlast.
  eapply (part_last (length parts + 1)) in Hlast as (files & m & owner & r & Hproj & Ho & -> & Hmp & Hmu & Hmd & Hval & Hfor & Hnodes);
    [|apply Hparts; by rewrite lookup_app_r, Nat.sub_diag|lia|lia|done].
  set (union := list_to_set (entry_Path <$> concat fss) ∪ list_to_set (entry_Path <$> files)) in *.
  set (keep := sort_strings (elements union) ++ [entry_Path m]) in *.
  assert (concat (fss ++ [files]) = concat fss ++ files) as Hcat by (by rewrite concat_app; cbn [concat]; rewrite List.app_nil_r).
  assert (list_to_set (entry_Path <$> concat (fss ++ [files])) = union) as Hunion by (by rewrite Hcat, fmap_app, list_to_set_app_L).
  assert (∀ q, q ∈ keep ↔ q ∈ entry_Path <$> concat (fss ++ [files]) ++ [m]) as Hkeep.
  { intros q. unfold keep. rewrite fmap_app, !elem_of_app, elem_of_sort_strings, elem_of_elements, <- Hunion, elem_of_list_to_set. done. }
  assert (vss = fss) as ->.
  { apply (validated_same _ _ Hvs). intros p Hin. apply Hval, Hkeep. rewrite Hcat, !fmap_app, !elem_of_app. by left; left. }
  assert (∀ q, wt_nodes w' !! q =
       if decide (q = pruneRecordPath owner)
       then Some (Regular (encode_record (mkPruneRecord 1 owner (sort_strings (map_range (pathSet keep)).*1))))
       else if decide (owners !! q = Some owner ∧ q ∉ keep) then None
       else overwrite (concat (fss ++ [files]) ++ [m]) q (wt_nodes w !! q)) as Hfinal.
  { intros q. by rewrite Hnodes, Hnodes1, <- overwrite_app, Hcat, <- List.app_assoc. }
  assert ((entry_Path <$> concat fss) ++ (entry_Path <$> files ++ [m]) = entry_Path <$> concat (fss ++ [files]) ++ [m]) as Hwr.
  { by rewrite Hcat, <- fmap_app, List.app_assoc. }
  assert (∀ q, q ∉ entry_Path <$> concat (fss ++ [files]) ++ [m] →
    overwrite (concat (fss ++ [files]) ++ [m]) q (wt_nodes w !! q) = wt_nodes w !! q) as Hout.
  { intros q Hq. unfold overwrite. by rewrite not_written_data. }
  pose proof (loadPruneRecords_loaded _ _ _ _ Hload) as Hl.
  exists owner, (fss ++ [files]), m, r, (mkPruneRecord 1 owner (sort_strings (map_range (pathSet keep)).*1)).
  cbv zeta. rewrite Hwr, Hunion. split_and!; try done.
  - apply Forall2_app; [done|]. by constructor.
  - intros Hin. apply Hmu. rewrite <- Hunion. by apply elem_of_list_to_set.
  - intros q Hq. rewrite Hfinal, decide_False by (by apply valid_path_not_record, Hval, Hkeep).
    rewrite decide_False by (intros [_ Hn]; by apply Hn, Hkeep). unfold overwrite. by apply written_data_Some in Hq as [d ->].
  - intros q Hq Hn. rewrite Hfinal, decide_False by (by eapply recorded_not_record). rewrite decide_True; [done|].
    split; [done|]. by rewrite Hkeep.
  - intros q o Hq Hne. assert (q ∉ keep) as Hn by (by eapply Hfor). rewrite Hfinal, decide_False by (by eapply recorded_not_record).
    rewrite decide_False by (intros [? _]; congruence). apply Hout. by rewrite <- Hkeep.
  - intros q Hq Hn Hr. rewrite Hfinal, !decide_False by (done || intros [? _]; congruence). by apply Hout.
  - by rewrite Hfinal, decide_True.
  - intros p. cbn [rec_Paths]. by rewrite elem_of_sort_strings, elem_of_pathSet_range, Hkeep.
Qed.

(** The parts before the last on the tree itself. *)
Lemma partial_tree_keeps parts rest w written plan w' owners records total owner :
  let n := length (parts ++ rest) in
  rest ≠ [] → (∀ j part, (parts ++ rest) !! j = Some part → part_at n j part) →
  loadPruneRecords w = Ok (owners, records, total) → sink_owner spec inventory = Ok owner →
  run 0 parts NewPrunePlan w = (Ok written, plan, w') →
  loadPruneRecords w' = Ok (owners, records, total) ∧
  (∀ q, is_Some (wt_nodes w !! q) → is_Some (wt_nodes w' !! q)) ∧
  (∀ q o, owners !! q = Some o → o ≠ owner → wt_nodes w' !! q = wt_nodes w !! q).
Proof.
  cbv zeta. intros Hrest Hparts Hload Ho Hrun.
  apply (parts_prefix (length (parts ++ rest))) with (res := (owners, records, total)) in Hrun
    as (fss & vss & _ & _ & _ & _ & Hload' & Hnodes & Hfor); [| |destruct rest; [done|rewrite List.length_app; cbn; lia]|done].
  - split_and!; [done| |].
    + intros q Hq. rewrite Hnodes. unfold overwrite. by destruct (written_data _ q).
    + intros q o Hq Hne. rewrite Hnodes. unfold overwrite. rewrite not_written_data; [done|]. by apply (Hfor q o owner).
  - intros j p Hj. apply Hparts. by apply lookup_app_l_Some.
Qed.
End multipart.

(** * From requests to the tree *)

Section requests.
Context `{!UnicodeCase, !Yaml, !SortFunc, !Sha256, !JsonDecode, !ApiErrors, !GitErrorApi, !ErrorTexts, !PruneCodec, !MapRange}.
Context {W : Type} (cfg : PruneConfig).

(** A backend that takes snapshots and file trees. *)
Definition takes_trees (b : Backend W) : Prop := be_Capabilities b = SnapshotStore ∧ be_canTree b = true.

Lemma carry_out_app l1 l2 t t' :
  carry_out cfg (l1 ++ l2) t = Some t' → ∃ t1, carry_out cfg l1 t = Some t1 ∧ carry_out cfg l2 t1 = Some t'.
Proof.
  revert t. induction l1 as [|x l1 IH]; intros t; cbn [app carry_out]; [by eauto|].
  destruct (be_run (tree_backend cfg) x t) as [[e|] t1]; [done|]. apply IH.
Qed.

(** One export makes at most one request, and carrying it out is what the export
    does to a tree. *)
Lemma run_carried now maxBytes b refused req plan w log written plan' w' log' :
  takes_trees b →
  RunExportEnvelope now maxBytes (Ok (logging b)) refused req plan (w, log) = (Ok written, plan', (w', log')) →
  ∃ requests, log' = log ++ requests ∧
    ∀ t t', carry_out cfg requests t = Some t' →
      RunExportEnvelope now maxBytes (Ok (tree_backend cfg)) refused req plan t = (Ok written, plan', t').
Proof.
  intros [Hc Ht]. unfold RunExportEnvelope. destruct (negb _); [done|]. case_decide; [done|].
  destruct (checkInventoryIdentity req); [|done]. unfold run_acquired, projected_envelope.
  change (be_Capabilities (logging b)) with (be_Capabilities b). change (be_canTree (logging b)) with (be_canTree b).
  change (be_Capabilities (tree_backend cfg)) with SnapshotStore. change (be_canTree (tree_backend cfg)) with true. rewrite Hc, Ht.
  destruct (_ ≫= _) as [[envelope|]|]; [| |done].
  - destruct (negb _); [done|]. destruct (InventoryFromObjectPath _) as [ns name].
    destruct (resolveSnapshotExport _ _ _ _ _ _ _ _ plan) as [[s|] plan1]; [|done].
    destruct refused as [r|]; cbn [exportThroughBreaker].
    { destruct r; (match goal with |- context [ClassifyExportError (Some ?e)] => by destruct (classify_keeps_cause e) as (? & -> & _) end). }
    cbn [logging be_run fst snd]. destruct (be_run b (se_run s) w) as [[e|] w1]; [by destruct (classify_keeps_cause e) as (? & -> & _)|].
    cbn [ClassifyExportError]. intros [= <- <- <- <-]. exists [se_run s]. split; [done|]. intros t t'. cbn [carry_out].
    destruct (be_run (tree_backend cfg) (se_run s) t) as [[e|] t1]; [done|]. by intros [= ->].
  - intros [= <- <- <- <-]. exists []. split; [by rewrite List.app_nil_r|]. by intros t t' [= ->].
Qed.

Context (now : nat → Z) (maxBytes : Z) (acquire : nat → result err (Backend W)) (refuse : nat → option refusal).
Context (SinkNamespace SinkName objectPath : string) (inventory : InventoryIdentity) (spec : KollectSinkSpec).
Context (Htakes : ∀ i b, acquire i = Ok b → takes_trees b) (Htree : exportsEmptyGitTree true spec = true).

Abbreviation asked := (export_loop now maxBytes (logged acquire) refuse SinkNamespace SinkName objectPath inventory spec).
Abbreviation on_tree := (export_loop now maxBytes (λ _, Ok (tree_backend cfg)) refuse SinkNamespace SinkName objectPath inventory spec).

Lemma loop_carried i parts plan w log written plan' w' log' :
  asked i parts plan (w, log) = (Ok written, plan', (w', log')) →
  ∃ requests, log' = log ++ requests ∧
    ∀ t t', carry_out cfg requests t = Some t' → on_tree i parts plan t = (Ok written, plan', t').
Proof.
  revert i plan w log written. induction parts as [|part parts IH]; intros i plan w log written; cbn [export_loop].
  { intros [= <- <- <- <-]. exists []. split; [by rewrite List.app_nil_r|]. by intros t t' [= ->]. }
  destruct (RunExportEnvelope _ _ (logged acquire i) _ _ plan (w, log)) as [[[wr|] plan1] [w1 log1]] eqn:Hrun; [|done].
  destruct (export_loop _ _ _ _ _ _ _ _ _ (S i) parts plan1 (w1, log1)) as [[[rest|] plan2] [w2 log2]] eqn:Hloop; [|done].
  intros [= <- <- <- <-]. apply IH in Hloop as (l2 & -> & Hl2).
  assert (∃ b, logged acquire i = Ok (logging b) ∧ takes_trees b) as (b & Hb & Hok).
  { revert Hrun. unfold logged. destruct (acquire i) as [b|] eqn:Ha; [by eauto|]. unfold RunExportEnvelope. destruct (negb _); [done|].
    case_decide; [done|]. by destruct (checkInventoryIdentity _). }
  rewrite Hb in Hrun. apply run_carried in Hrun as (l1 & -> & Hl1); [|done]. exists (l1 ++ l2). split; [by rewrite List.app_assoc|].
  intros t t' (t1 & Hc1 & Hc2)%carry_out_app. by rewrite (Hl1 _ _ Hc1), (Hl2 _ _ Hc2).
Qed.

(** C35. A snapshot that is exported to a Git tree in several parts, all of which
    succeed: the requests that the loop made of the backend, carried out in their
    order on a tree whose ownership records load, leave exactly the union of the
    parts, if none is refused there. Every projected file of every part and the
    manifest that lists them are there with the bytes requested last, the inventory's
    recorded files that no part wrote are gone, its ownership record lists what was
    written, and the files of other inventories and the files nobody recorded are as
    they were. This is so for a sink with a tree layout and parts that say in their
    envelopes which of how many they are and that hold rows. It says what is asked
    for, not what is pushed: the Git backend answers with success and pushes nothing
    when a request's fingerprint is that of its last one. *)
Theorem multipart_export_exact parts w written w' requests t t' owners records total :
  1 < length parts → (∀ j part, parts !! j = Some part → part_at (length parts) j part) →
  loadPruneRecords t = Ok (owners, records, total) →
  export_parts now maxBytes (logged acquire) refuse SinkNamespace SinkName objectPath inventory spec parts (w, []) = (Ok written, (w', requests)) →
  carry_out cfg requests t = Some t' →
  ∃ owner fss m r record,
    let union : gset string := list_to_set (entry_Path <$> concat fss) in
    let files := concat fss ++ [m] in
    sink_owner spec inventory = Ok owner ∧
    Forall2 (projected SinkNamespace SinkName objectPath inventory spec) parts fss ∧ written = entry_Path <$> files ∧
    entry_Path m = SetManifestPath r ∧ entry_Path m ∉ entry_Path <$> concat fss ∧
    entry_Data m = MarshalSetManifest (BuildSetManifest r (length parts) (sort_strings (elements union))) ∧
    (∀ q, q ∈ written → wt_nodes t' !! q = Regular <$> written_data files q) ∧
    (∀ q, owners !! q = Some owner → q ∉ written → wt_nodes t' !! q = None) ∧
    (∀ q o, owners !! q = Some o → o ≠ owner → wt_nodes t' !! q = wt_nodes t !! q) ∧
    (∀ q, owners !! q = None → q ∉ written → q ≠ pruneRecordPath owner → wt_nodes t' !! q = wt_nodes t !! q) ∧
    wt_nodes t' !! pruneRecordPath owner = Some (Regular (encode_record record)) ∧ rec_Owner record = owner ∧
    (∀ p, p ∈ rec_Paths record ↔ p ∈ written).
Proof.
  intros Htwo Hparts Hload Hrun Hcarry.
  eapply (multipart_tree_exact cfg now maxBytes refuse SinkNamespace SinkName objectPath inventory spec); [done..|].
  revert Hrun. unfold export_parts. destruct (export_loop _ _ (logged acquire) _ _ _ _ _ _ 0 parts _ (w, [])) as [[e plan2] s] eqn:Hloop.
  intros [= -> ->]. apply loop_carried in Hloop as (l & -> & Hl). by rewrite (Hl _ _ Hcarry).
Qed.

(** While parts are outstanding nothing is removed: carrying out the requests of the
    parts before the last leaves every file of the branch there, the files of other
    inventories unchanged and the ownership records the old ones. *)
Theorem partial_export_removes_nothing parts rest w written plan w' requests t t' owners records total owner :
  let n := length (parts ++ rest) in
  rest ≠ [] → (∀ j part, (parts ++ rest) !! j = Some part → part_at n j part) →
  loadPruneRecords t = Ok (owners, records, total) → sink_owner spec inventory = Ok owner →
  asked 0 parts NewPrunePlan (w, []) = (Ok written, plan, (w', requests)) → carry_out cfg requests t = Some t' →
  loadPruneRecords t' = Ok (owners, records, total) ∧
  (∀ q, is_Some (wt_nodes t !! q) → is_Some (wt_nodes t' !! q)) ∧
  (∀ q o, owners !! q = Some o → o ≠ owner → wt_nodes t' !! q = wt_nodes t !! q).
Proof.
  intros n Hrest Hparts Hload Ho (l & -> & Hl)%loop_carried Hcarry.
  eapply (partial_tree_keeps cfg now maxBytes refuse SinkNamespace SinkName objectPath inventory spec); [done..|]. by apply Hl.
Qed.
End requests.

(** * Two parts on a shared branch *)

Module MultipartDemo.
#[local] Existing Instances GitTreeDemo.demo_sha ascii_only_case map_range_to_list sort_by_merge_sort no_api_errors.
#[local] Instance no_git_errors : GitErrorApi :=
  {| http_err_codes _ := []; is_auth_sentinel _ := false; IsProbableEOF _ := false; IsConnectionReset _ := false |}.
#[local] Instance no_texts : ErrorTexts := {| text_of _ := ""; quote s := s |}.
#[local] Instance same_yaml : Yaml := {| json_to_yaml s := Some s |}.

Definition row (name : string) : Item := mkItem "team" "pods" "web" name "" "v1" "Pod" name (Some [("image", VString name)]).
Definition env (index : Z) (items : list Item) : ExportEnvelope :=
  mkEnvelope ExportSchemaVersion "" 1 index 2 1 "" "" items.

Definition other_row : Item := mkItem "team" "all-pods" "web" "a" "" "v1" "Pod" "a" (Some [("image", VString "c")]).

(** A decoder that knows four envelopes. *)
#[local] Instance demo_decode : JsonDecode :=
  {| decode_envelope s := if decide (s = "one") then Some (env 1 [row "a"]) else if decide (s = "two") then Some (env 2 [row "b"])
                          else if decide (s = "other") then Some (env 2 [other_row])
                          else if decide (s = "both") then Some (env 1 [row "a"; other_row]) else None;
     decode_items _ := None; parse_rfc3339nano _ := None |}.

Definition inventory : InventoryIdentity := mkInventoryIdentity InventoryKindNamespaced "team" "app".
Definition spec : KollectSinkSpec :=
  mkKollectSinkSpec SinkTypeGit "" "" "" None None (Some (mkLayoutSpec LayoutModePerResource "" "" None None)) None.
Definition owner : string := match sink_owner spec inventory with Ok o => o | Err _ => "" end.

Definition recMine : pruneRecord := mkPruneRecord 1 owner ["old/pod.yaml"].
#[local] Instance demo_codec : PruneCodec :=
  {| decode_record s := head (filter (λ r, encode_record r = s) [recMine; GitTreeDemo.recB]) |}.

Definition t0 : worktree :=
  mkWorktree
    (<["README.md" := Regular "hello"]> (<["old/pod.yaml" := Regular "x"]> (<["inventory/b/y.yaml" := Regular "y"]>
      (<[pruneRecordPath owner := Regular (encode_record recMine)]>
        (<[pruneRecordPath "BB" := Regular (encode_record GitTreeDemo.recB)]> ∅))))) ∅.

Definition cfg : PruneConfig := mkPruneConfig false "" [] [] false.
Definition part (index : Z) (envelope : string) : EnvelopePartition := mkPartition index 2 1 "" envelope.
Definition run (parts : list EnvelopePartition) : result err (list string) * worktree :=
  export_parts (λ _, 0%Z) 1000000 (λ _, Ok (tree_backend cfg)) (λ _, None) "team" "git" "inventory/team/app.json" inventory spec
    parts t0.

Definition two_parts : list EnvelopePartition := [part 1 "one"; part 2 "two"].
Definition owners0 : gmap string string := match loadPruneRecords t0 with Ok (o, _, _) => o | Err _ => ∅ end.
Definition records0 : gmap string pruneRecord := match loadPruneRecords t0 with Ok (_, r, _) => r | Err _ => ∅ end.
Definition total0 : Z := match loadPruneRecords t0 with Ok (_, _, n) => n | Err _ => 0%Z end.

(** A backend that pushes nothing and reports success. *)
Definition silent : Backend unit := mkBackend SnapshotStore true (λ _ w, (None, w)).
Definition asked (parts : list EnvelopePartition) : result err (list string) * (unit * list export_action) :=
  export_parts (λ _, 0%Z) 1000000 (logged (λ _, Ok silent)) (λ _, None) "team" "git" "inventory/team/app.json" inventory spec parts (tt, []).

Lemma silent_takes (i : nat) (b : Backend unit) : Ok (E := err) silent = Ok b → takes_trees b.
Proof. intros [= <-]. done. Qed.

Lemma two_parts_at j p : two_parts !! j = Some p → part_at 2 j p.
Proof.
  destruct j as [|[|j]]; intros [= <-]; (split; [vm_compute; reflexivity|]); (split; [vm_compute; reflexivity|]);
    (eexists; split; [vm_compute; reflexivity|]); vm_compute; intros Hin;
    repeat (apply elem_of_cons in Hin as [Hin|Hin]; [discriminate Hin|]); by apply not_elem_of_nil in Hin.
Qed.

Definition written_paths : list string :=
  ["default/web/pod/a.yaml"; "default/web/pod/b.yaml"; "inventory/team/app.manifest.json"].

Lemma written_elsewhere p : p ∈ written_paths → p ≠ "old/pod.yaml" ∧ p ≠ "README.md".
Proof. intros Hp. repeat (apply elem_of_cons in Hp as [->|Hp]; [done|]). by apply not_elem_of_nil in Hp. Qed.

Lemma multipart_export_exact_witness :
  let t := (run two_parts).2 in
  carry_out cfg (asked two_parts).2.2 t0 = Some t ∧
  wt_nodes t !! "old/pod.yaml" = None ∧ wt_nodes t !! "inventory/b/y.yaml" = wt_nodes t0 !! "inventory/b/y.yaml" ∧
  wt_nodes t !! "README.md" = wt_nodes t0 !! "README.md".
Proof.
  intros t. assert (carry_out cfg (asked two_parts).2.2 t0 = Some t) as Hc by (vm_compute; reflexivity). split; [exact Hc|].
  destruct (multipart_export_exact cfg (λ _, 0%Z) 1000000 (λ _, Ok silent) (λ _, None) "team" "git"
    "inventory/team/app.json" inventory spec silent_takes eq_refl two_parts tt
    written_paths tt (asked two_parts).2.2 t0 t owners0 records0 total0)
    as (o & fss & m & r & rec & Ho & _ & _ & _ & _ & _ & _ & Hold & Hfor & Hun & _);
    [cbn; lia|apply two_parts_at|vm_compute; reflexivity|vm_compute; reflexivity|exact Hc|].
  assert (o = owner) as -> by (vm_compute in Ho; injection Ho as <-; vm_compute; reflexivity).
  split_and!.
  - apply Hold; [vm_compute; reflexivity|]. intros Hin. exact (proj1 (written_elsewhere _ Hin) eq_refl).
  - apply (Hfor _ "BB"); [vm_compute; reflexivity|]. vm_compute. discriminate.
  - apply Hun; [vm_compute; reflexivity| |vm_compute; discriminate]. intros Hin. exact (proj2 (written_elsewhere _ Hin) eq_refl).
Defined.

(** Two rows that are projected to one path are refused inside a part, and not
    across parts: the later part replaces the earlier one's file. *)
Example collision_across_parts :
  (run [part 1 "both"; part 2 "two"]).1 =
    Err (terminal (errorf "resolve layout for git" (plain ""))) ∧
  (run [part 1 "one"; part 2 "other"]).1 =
    Ok ["default/web/pod/a.yaml"; "default/web/pod/a.yaml"; "inventory/team/app.manifest.json"].
Proof. split; vm_compute; reflexivity. Qed.
End MultipartDemo.
