(* ===== verification/Cleanup.v ===== *)
(** What happens to the exports of a deleted inventory: one sink in
    [src/internal/sink/cleanup.go], all sinks of an inventory in
    [src/internal/controller/sink_cleanup.go], and the finalizer in
    [inventory_finalizer.go] and [cluster_inventory_finalizer.go].

    A backend acts on a world [W]. What resolving a binding, acquiring a backend
    and looking up the other inventory return are oracles indexed by the position
    of the binding, so every answer is possible at every call. What a retraction
    needs of a backend is the class [ExportCleaner]; the bucket of [ObjectStore] is
    an instance. *)

From S2P Require Import Prelude GoStrings GoPath Values Store Api Filter Errors Json Envelope Partition Intervals Coalesce ExportPass.
From S2P Require Import GoTemplate SinkSpec ObjectPath Layout GitTree GitErrors LayoutExport SinkExport ObjectStore.
Import Tracker Outcome.

(** * One sink *)

(** Go: internal/sink/git/delete.go:45-54 [ReleaseOptions] *)
Record ReleaseOptions := mkReleaseOptions {
  ro_Owner : string;
  ro_KeepFiles : bool;
}.

(** A backend with the two interfaces a deletion may find on it. *)
Record CleanupBackend (W : Type) := mkCleanupBackend {
  cb_backend : Backend W;
  cb_DeleteExport : option (list string → W → result err (list string) * W);
  cb_ReleaseExport : option (list string → ReleaseOptions → W → result err (list string) * W);
}.
Arguments mkCleanupBackend {W} _ _ _.
Arguments cb_backend {W} _.
Arguments cb_DeleteExport {W} _.
Arguments cb_ReleaseExport {W} _.

(** Go: internal/sink/cleanup.go:68-109 [CleanupExportRequest] *)
Record CleanupExportRequest := mkCleanupExportRequest {
  cr_Registry : bool;
  cr_SinkNamespace : string;
  cr_SinkName : string;
  cr_SinkSpec : KollectSinkSpec;
  cr_ObjectPath : string;
  cr_Generation : Z;
  cr_Inventory : InventoryIdentity;
  cr_LastExportedPaths : list string;
  cr_ExportPathsUnrecorded : bool;
  cr_SharedExportIdentity : bool;
}.

(** Go: internal/sink/cleanup.go:111-112 [CleanupExportOutcome] *)
Inductive CleanupExportOutcome :=
  | CleanupCleaned
  | CleanupPruned
  | CleanupRetained
  | CleanupRetainedByPolicy
  | CleanupRetainedSharedIdentity.

#[export] Instance CleanupExportOutcome_eq_dec : EqDecision CleanupExportOutcome.
Proof. solve_decision. Defined.

(** Go: internal/sink/cleanup.go:135-145 [retractableSnapshotTypes] *)
Definition retractableSnapshotTypes : list string := [SinkTypeGit; SinkTypeGitLab; SinkTypeS3; SinkTypeGCS; SinkTypeLocal].

(** Go: internal/sink/cleanup.go:501-504 [streamSinkTypes] *)
Definition streamSinkTypes : list string := [SinkTypeKafka; SinkTypeNats].

Definition MergeRequestModeBranchMR : string := "merge_request".

(** Go: internal/sink/cleanup.go:397-404 [RetractsOnDeletion] *)
Definition RetractsOnDeletion (spec : KollectSinkSpec) : bool :=
  bool_decide (sink_Type spec ∈ retractableSnapshotTypes) &&
  bool_decide (EffectiveDeletionPolicy (Some spec) = DeletionPolicyDelete).

(** [None] when the retraction may proceed.
    Go: internal/sink/cleanup.go:406-420 [retractionPrecheck] *)
Definition retractionPrecheck (req : CleanupExportRequest) : option CleanupExportOutcome :=
  if decide (EffectiveDeletionPolicy (Some (cr_SinkSpec req)) ≠ DeletionPolicyDelete) then Some CleanupRetainedByPolicy
  else if cr_SharedExportIdentity req then Some CleanupRetainedSharedIdentity
  else None.

(** Go: internal/sink/cleanup.go:422-444 [recordedExportPathsUnaddressed] *)
Definition recordedExportPathsUnaddressed (recorded candidates deleted : list string) : bool :=
  let addressed : gset string := list_to_set (candidates ++ deleted) in
  existsb (λ p, negb (bool_decide (p ∈ addressed))) recorded.

(** Go: internal/sink/cleanup.go:319-361 [retractionOutcome] *)
Definition retractionOutcome (req : CleanupExportRequest) (paths deleted : list string) (staleGenerations treeMode : bool) :
    CleanupExportOutcome :=
  let spec := cr_SinkSpec req in
  let mrMediated := bool_decide (sink_Type spec = SinkTypeGitLab) &&
                    bool_decide (sink_GitLabMRMode spec = Some MergeRequestModeBranchMR) in
  if treeMode || staleGenerations || mrMediated || cr_ExportPathsUnrecorded req ||
     recordedExportPathsUnaddressed (cr_LastExportedPaths req) paths deleted
  then CleanupRetained else CleanupCleaned.

Section sink.
Context `{!UnicodeCase, !Yaml, !SortFunc, !Sha256, !JsonDecode, !ApiErrors, !GitErrorApi, !ErrorTexts}.
Context {W : Type}.

Definition cleanup_layout (spec : KollectSinkSpec) (invNS invName : string) (generation : Z) : ResolvedLayout :=
  Resolve (mkResolveInput spec invNS invName generation false "").

(** [dedup_seen] keeps the first occurrences.
    Go: internal/sink/cleanup.go:476-488 [dedupeStrings] *)
Definition dedupeStrings (values : list string) : list string := dedup_seen ∅ values.

(** Go: internal/sink/cleanup.go:446-474 [cleanupCandidatePaths] *)
Definition cleanupCandidatePaths (spec : KollectSinkSpec) (invNS invName : string) (generation : Z) : list string :=
  if negb (isGitLayoutFamily (sink_Type spec)) then [ObjectPath spec invNS invName generation]
  else
    let resolved := cleanup_layout spec invNS invName generation in
    dedupeStrings ([DocumentPath resolved] ++ (if rl_IndexEnabled resolved then [IndexPath resolved] else []) ++
                   [SetManifestPath resolved]).

(** Go: internal/sink/cleanup.go:287-306 [cleanupPruneOwner] *)
Definition cleanupPruneOwner (req : CleanupExportRequest) : result export_error string :=
  if id_IsZero (cr_Inventory req) then Err IdentityMissing
  else
    let '(invNS, invName) := InventoryFromObjectPath (cr_ObjectPath req) in
    checkObjectPath (cr_Inventory req) (cr_ObjectPath req) invNS invName 0 0;;
    inventoryPruneOwner (cleanup_layout (cr_SinkSpec req) invNS invName (cr_Generation req)) (cr_Inventory req).

(** Go: internal/sink/cleanup.go:490-499 [classifyCleanupFailure] *)
Definition classifyCleanupFailure (sinkName : string) (e : err) : err :=
  let wrapped := errorf ("cleanup delete for " +:+ quote sinkName) e in
  if IsTerminal (Some e) then wrapped else transient wrapped.

(** Go: internal/sink/cleanup.go:308-317 [cleanupFailure] *)
Definition cleanupFailure (sinkName : string) (e : err) : err := classifyCleanupFailure sinkName e.

(** [acquired] is what the export's own acquire returns.
    Go: internal/sink/cleanup.go:363-395 [pruneRelationalExport] *)
Definition pruneRelationalExport (now maxBytes : Z) (acquired : result err (Backend W)) (refused : option refusal)
    (req : CleanupExportRequest) (w : W) : option err * W :=
  match MarshalEnvelope now [] (mkMetadata (cr_Generation req) "" now 0 0) with
  | Err e => (Some (terminal (envelope_err e)), w)
  | Ok envelope =>
      let ereq := mkExportEnvelopeRequest (cr_Registry req) (cr_SinkNamespace req) (cr_SinkName req) (cr_ObjectPath req)
                    (mkInventoryIdentity "" "" "") envelope (cr_SinkSpec req) in
      match RunExportEnvelope now maxBytes acquired refused ereq None w with
      | (Err e, _, w) => (Some e, w)
      | (Ok _, _, w) => (None, w)
      end
  end.

(** Go: internal/sink/cleanup.go:248-285 [releaseGitExport] *)
Definition releaseGitExport (req : CleanupExportRequest) (b : CleanupBackend W) (owner invNS invName : string) (w : W) :
    result err CleanupExportOutcome * W :=
  match cb_ReleaseExport b with
  | None => (Err (terminal (plain ("sink " +:+ quote (cr_SinkName req) +:+ ": " +:+ sink_Type (cr_SinkSpec req) +:+
                                  " backend cannot release ownership records"))), w)
  | Some release =>
      let kept := retractionPrecheck req in
      let paths := cleanupCandidatePaths (cr_SinkSpec req) invNS invName (cr_Generation req) in
      let resolved := cleanup_layout (cr_SinkSpec req) invNS invName (cr_Generation req) in
      match release paths (mkReleaseOptions owner (bool_decide (is_Some kept))) w with
      | (Err e, w) => (Err (cleanupFailure (cr_SinkName req) e), w)
      | (Ok deleted, w) =>
          match kept with
          | Some o => (Ok o, w)
          | None =>
              let treeMode := negb (IsDocument resolved) in
              let staleGenerations := contains (sink_PathTemplate (cr_SinkSpec req)) "{generation}" in
              (Ok (retractionOutcome req paths deleted staleGenerations treeMode), w)
          end
      end
  end.

(** The backends other than the Git family, once acquired. *)
Definition retractObjects (req : CleanupExportRequest) (b : CleanupBackend W) (invNS invName : string) (w : W) :
    result err CleanupExportOutcome * W :=
  match cb_DeleteExport b with
  | None => (Ok CleanupRetained, w)
  | Some del =>
      match retractionPrecheck req with
      | Some outcome => (Ok outcome, w)
      | None =>
          let spec := cr_SinkSpec req in
          let paths := cleanupCandidatePaths spec invNS invName (cr_Generation req) in
          let staleGenerations := contains (sink_PathTemplate spec) "{generation}" && negb (IsParquetFormat spec) in
          match del paths w with
          | (Err e, w) => (Err (cleanupFailure (cr_SinkName req) e), w)
          | (Ok deleted, w) => (Ok (retractionOutcome req paths deleted staleGenerations false), w)
          end
      end
  end.

(** [reacquired] is the second acquire, by the empty export of a relational sink. *)
Definition run_backend (now maxBytes : Z) (acquired : result err (CleanupBackend W)) (reacquired : result err (Backend W))
    (refused : option refusal) (req : CleanupExportRequest) (owner : string) (w : W) : result err CleanupExportOutcome * W :=
  match acquired with
  | Err e => (Err (errorf ("acquire backend for cleanup of " +:+ quote (cr_SinkName req)) e), w)
  | Ok b =>
      let '(invNS, invName) := InventoryFromObjectPath (cr_ObjectPath req) in
      if cap_SupportsDelete (be_Capabilities (cb_backend b)) then
        let '(e, w) := pruneRelationalExport now maxBytes reacquired refused req w in
        (match e with None => Ok CleanupPruned | Some e => Err e end, w)
      else if isGitLayoutFamily (sink_Type (cr_SinkSpec req)) then releaseGitExport req b owner invNS invName w
      else retractObjects req b invNS invName w
  end.

(** Go: internal/sink/cleanup.go:147-246 [RunCleanupExport] *)
Definition RunCleanupExport (now maxBytes : Z) (acquired : result err (CleanupBackend W)) (reacquired : result err (Backend W))
    (refused : option refusal) (req : CleanupExportRequest) (w : W) : result err CleanupExportOutcome * W :=
  let type := sink_Type (cr_SinkSpec req) in
  if negb (cr_Registry req) then (Err (terminal (plain "sink registry is not configured")), w)
  else if decide (type = "") then
    (Err (terminal (plain ("sink spec is required for cleanup of " +:+ quote (cr_SinkName req)))), w)
  else if decide (type ∈ streamSinkTypes) then (Ok CleanupRetained, w)
  else if isGitLayoutFamily type then
    match cleanupPruneOwner req with
    | Err e => (Err (terminal (plain (text_of e))), w)
    | Ok owner => run_backend now maxBytes acquired reacquired refused req owner w
    end
  else
    match (if decide (type ∈ retractableSnapshotTypes) then retractionPrecheck req else None) with
    | Some outcome => (Ok outcome, w)
    | None => run_backend now maxBytes acquired reacquired refused req "" w
    end.
End sink.

(** * All sinks of an inventory *)

(** Go: internal/controller/sink_cleanup.go:22-41 [SinkCleanupReport] *)
Record SinkCleanupReport := mkReport {
  rep_SinkGone : list string;
  rep_Retained : list string;
  rep_RetainedByPolicy : list string;
  rep_SharedIdentity : list string;
}.

Definition empty_report : SinkCleanupReport := mkReport [] [] [] [].

(** Go: internal/controller/sink_cleanup.go:43-46 [empty] *)
Definition rep_empty (r : SinkCleanupReport) : bool :=
  bool_decide (rep_SinkGone r = [] ∧ rep_Retained r = [] ∧ rep_RetainedByPolicy r = [] ∧ rep_SharedIdentity r = []).

(** Go: internal/controller/sink_cleanup.go:48-53 [sinkExportEvidence] *)
Record sinkExportEvidence := mkEvidence {
  ev_paths : list string;
  ev_exported : bool;
}.

(** [ct_sharedIdentity] is the lookup of the other inventory, by attempt.
    Go: internal/controller/sink_cleanup.go:55-67 [cleanupTarget] *)
Record cleanupTarget := mkCleanupTarget {
  ct_objectPath : string;
  ct_inventory : InventoryIdentity;
  ct_generation : Z;
  ct_evidence : gmap string sinkExportEvidence;
  ct_sharedIdentity : option (nat → result err bool);
}.

Definition identity_text (key objectPath : string) : string :=
  key +:+ " (inventory export identity " +:+ objectPath +:+ ")".

(** Go: internal/controller/sink_cleanup.go:174-187 [add] *)
Definition rep_add (outcome : CleanupExportOutcome) (key objectPath : string) (r : SinkCleanupReport) : SinkCleanupReport :=
  match outcome with
  | CleanupRetained =>
      mkReport (rep_SinkGone r) (rep_Retained r ++ [identity_text key objectPath]) (rep_RetainedByPolicy r) (rep_SharedIdentity r)
  | CleanupRetainedByPolicy =>
      mkReport (rep_SinkGone r) (rep_Retained r) (rep_RetainedByPolicy r ++ [key]) (rep_SharedIdentity r)
  | CleanupRetainedSharedIdentity =>
      mkReport (rep_SinkGone r) (rep_Retained r) (rep_RetainedByPolicy r) (rep_SharedIdentity r ++ [identity_text key objectPath])
  | CleanupCleaned | CleanupPruned => r
  end.

Definition rep_gone (key : string) (r : SinkCleanupReport) : SinkCleanupReport :=
  mkReport (rep_SinkGone r ++ [key]) (rep_Retained r) (rep_RetainedByPolicy r) (rep_SharedIdentity r).

(** Go: internal/controller/sink_cleanup.go:189-205 [exportEvidenceBySink] *)
Definition exportEvidenceBySink (exports : list InventorySinkExportStatus) : gmap string sinkExportEvidence :=
  foldl (λ out e, <[st_Name e := mkEvidence (st_LastExportPaths e) (bool_decide (is_Some (st_LastExportTime e)))]> out) ∅ exports.

(** The memo of a pass: how often the lookup ran, and its answer once it had one. *)
Record shared_memo := mkMemo {
  memo_calls : nat;
  memo_answer : option bool;
}.

(** Go: internal/controller/sink_cleanup.go:69-88 [sharedIdentityOnce] *)
Definition sharedIdentityOnce (t : cleanupTarget) (m : shared_memo) : result err bool * shared_memo :=
  match ct_sharedIdentity t, memo_answer m with
  | None, _ => (Ok false, m)
  | Some _, Some b => (Ok b, m)
  | Some lookup, None =>
      match lookup (memo_calls m) with
      | Ok b => (Ok b, mkMemo (S (memo_calls m)) (Some b))
      | Err e => (Err e, mkMemo (S (memo_calls m)) None)
      end
  end.

(** What resolving a binding yields. *)
Record resolved_sink := mkResolvedCleanup {
  res_Namespace : string;
  res_Spec : KollectSinkSpec;
}.

(** Go: internal/sink/resolver.go:108-117 [SinkNamespaceForResolved] *)
Definition SinkNamespaceForResolved (resolved : option resolved_sink) (fallback : string) : string :=
  match resolved with
  | None => fallback
  | Some r => if decide (res_Namespace r ≠ "") then res_Namespace r else fallback
  end.

Section controller.
Context `{!UnicodeCase, !Yaml, !SortFunc, !Sha256, !JsonDecode, !ApiErrors, !GitErrorApi, !ErrorTexts}.
Context {W : Type}.

(** What a pass reads of the outside. *)
Record cleanup_env := mkCleanupEnv {
  ce_now : Z;
  ce_maxBytes : Z;
  ce_resolve : nat → result err resolved_sink;
  ce_acquire : nat → result err (CleanupBackend W);
  ce_reacquire : nat → result err (Backend W);
  ce_refuse : nat → option refusal;
}.

Definition cleanup_request (t : cleanupTarget) (sinkNamespace : string) (binding : InventorySinkBinding)
    (resolved : resolved_sink) (shared : bool) : CleanupExportRequest :=
  let evidence := default (mkEvidence [] false) (ct_evidence t !! sinkExportKey binding) in
  mkCleanupExportRequest true (SinkNamespaceForResolved (Some resolved) sinkNamespace) (binding_Name binding)
    (res_Spec resolved) (ct_objectPath t) (ct_generation t) (ct_inventory t) (ev_paths evidence)
    (ev_exported evidence && bool_decide (length (ev_paths evidence) = 0)) shared.

(** One binding: an error of the pass, or the report with its outcome. *)
Definition cleanup_binding (env : cleanup_env) (t : cleanupTarget) (sinkNamespace : string) (i : nat)
    (binding : InventorySinkBinding) (report : SinkCleanupReport) (m : shared_memo) (w : W) :
    result err SinkCleanupReport * shared_memo * W :=
  match ce_resolve env i with
  | Err e => if api_IsNotFound e then (Ok (rep_gone (sinkExportKey binding) report), m, w) else (Err e, m, w)
  | Ok resolved =>
      let '(shared, m) := if RetractsOnDeletion (res_Spec resolved) then sharedIdentityOnce t m else (Ok false, m) in
      match shared with
      | Err e => (Err e, m, w)
      | Ok shared =>
          let req := cleanup_request t sinkNamespace binding resolved shared in
          let '(outcome, w) := RunCleanupExport (ce_now env) (ce_maxBytes env) (ce_acquire env i) (ce_reacquire env i)
                                 (ce_refuse env i) req w in
          match outcome with
          | Err e => (Err e, m, w)
          | Ok o => (Ok (rep_add o (sinkExportKey binding) (ct_objectPath t) report), m, w)
          end
      end
  end.

Fixpoint cleanup_bindings (env : cleanup_env) (t : cleanupTarget) (sinkNamespace : string) (i : nat)
    (bindings : list InventorySinkBinding) (report : SinkCleanupReport) (errs : list err) (m : shared_memo) (w : W) :
    SinkCleanupReport * list err * W :=
  match bindings with
  | [] => (report, errs, w)
  | b :: bindings =>
      match cleanup_binding env t sinkNamespace i b report m w with
      | (Ok report, m, w) => cleanup_bindings env t sinkNamespace (S i) bindings report errs m w
      | (Err e, m, w) => cleanup_bindings env t sinkNamespace (S i) bindings report (errs ++ [e]) m w
      end
  end.

(** [errors.Join] of no errors is nil.
    Go: internal/controller/sink_cleanup.go:90-172 [cleanupSinkExports] *)
Definition cleanupSinkExports (env : cleanup_env) (registry : bool) (sinkNamespace : string)
    (bindings : list InventorySinkBinding) (t : cleanupTarget) (w : W) : SinkCleanupReport * option err * W :=
  if negb registry || bool_decide (length bindings = 0) then (empty_report, None, w)
  else
    let '(report, errs, w) := cleanup_bindings env t sinkNamespace 0 bindings empty_report [] (mkMemo 0 None) w in
    (report, if decide (errs = []) then None else Some (Join errs), w).
End controller.

(** * The finalizer *)

(** [get] is the error of reading the other object.
    Go: internal/controller/sink_cleanup.go:212-232 [exportIdentityShared] *)
Definition exportIdentityShared `{!ApiErrors, !ErrorTexts} (is_no_match : err → bool) (key : string) (get : option err) :
    result err bool :=
  match get with
  | None => Ok true
  | Some e =>
      if api_IsNotFound e || api_IsForbidden e || is_no_match e then Ok false
      else Err (transient (errorf ("check shared export identity " +:+ key) e))
  end.

Definition clusterExportNamespace : string := "cluster".

(** Go: internal/controller/inventory_finalizer.go:111-125 [clusterCounterpartLookup] *)
Definition clusterCounterpartLookup `{!ApiErrors, !ErrorTexts} (is_no_match : err → bool) (tenantMode : bool)
    (namespace name : string) (get : nat → option err) : option (nat → result err bool) :=
  if bool_decide (namespace ≠ clusterExportNamespace) || tenantMode then None
  else Some (λ n, exportIdentityShared is_no_match ("/" +:+ name) (get n)).

(** Go: internal/controller/runtime_options.go:63-71 [watchesNamespace] *)
Definition watchesNamespace (watchNamespaces : list string) (ns : string) : bool :=
  bool_decide (length watchNamespaces = 0) || bool_decide (ns ∈ watchNamespaces).

(** Go: internal/controller/cluster_inventory_finalizer.go:102-117 [namespacedCounterpartLookup] *)
Definition namespacedCounterpartLookup `{!ApiErrors, !ErrorTexts} (is_no_match : err → bool) (watchNamespaces : list string)
    (name : string) (get : nat → option err) : option (nat → result err bool) :=
  if negb (watchesNamespace watchNamespaces clusterExportNamespace) then None
  else Some (λ n, exportIdentityShared is_no_match (clusterExportNamespace +:+ "/" +:+ name) (get n)).

Definition AnnotationForceCleanup : string := "kollect.dev/force-cleanup".
Definition ForceCleanupTrue : string := "true".
Definition terminalCleanupRequeue : Z := 300 * second.
Definition conflictRequeueAfter : Z := second.

(** Go: internal/controller/inventory_finalizer.go:127-132 [forceCleanupRequested] *)
Definition forceCleanupRequested (annotations : gmap string string) : bool :=
  bool_decide (default "" (annotations !! AnnotationForceCleanup) = ForceCleanupTrue).

(** The events of a deletion, by their reason and subject. *)
Inductive announcement :=
  | EventSinkGone (key : string)
  | EventRetainedByPolicy (key : string)
  | EventSharedIdentity (text : string)
  | EventRetained (text : string)
  | EventCleanupForced
  | EventCleanupTerminal (e : err).

(** Go: internal/controller/sink_cleanup.go:234-269 [recordCleanupAnnouncements] *)
Definition recordCleanupAnnouncements (recorder : bool) (report : SinkCleanupReport) : list announcement :=
  if rep_empty report || negb recorder then []
  else (EventSinkGone <$> rep_SinkGone report) ++ (EventRetainedByPolicy <$> rep_RetainedByPolicy report) ++
       (EventSharedIdentity <$> rep_SharedIdentity report) ++ (EventRetained <$> rep_Retained report).

(** What a reconcile of a deleting inventory leaves: the object's finalizers on the
    server, when to look again, the error returned and the events. *)
Record finalize_result := mkFinalize {
  fin_finalizers : list string;
  fin_requeue : option Z;
  fin_err : option err;
  fin_events : list announcement;
}.

Section finalizer.
Context `{!UnicodeCase, !Yaml, !SortFunc, !Sha256, !JsonDecode, !ApiErrors, !GitErrorApi, !ErrorTexts}.
Context {W : Type}.

(** [update] is the error of the update, [is_conflict] the optimistic-lock test.
    Go: internal/controller/finalizer.go:36-52 [removeFinalizerAndUpdate] *)
Definition removeFinalizerAndUpdate (is_conflict : err → bool) (finalizers : list string) (finalizer : string)
    (update : option err) (events : list announcement) : finalize_result :=
  match update with
  | None => mkFinalize (filter (λ f, f ≠ finalizer) finalizers) None None events
  | Some e => if is_conflict e then mkFinalize finalizers (Some conflictRequeueAfter) None events
              else mkFinalize finalizers None (Some e) events
  end.

(** Both controllers run this code with their own finalizer, bindings and target;
    [debounce] is the export interval of the inventory.
    Go: internal/controller/inventory_finalizer.go:39-87 [finalizeInventoryDeletion] *)
Definition finalizeInventoryDeletion (env : cleanup_env (W := W)) (is_conflict : err → bool) (update : option err)
    (recorder registry : bool) (debounce : Z) (finalizer : string) (finalizers : list string) (annotations : gmap string string)
    (sinkNamespace : string) (bindings : list InventorySinkBinding) (t : cleanupTarget) (w : W) : finalize_result * W :=
  if negb (bool_decide (finalizer ∈ finalizers)) then (mkFinalize finalizers None None [], w)
  else if forceCleanupRequested annotations then
    (removeFinalizerAndUpdate is_conflict finalizers finalizer update (if recorder then [EventCleanupForced] else []), w)
  else
    let '(report, e, w) := cleanupSinkExports env registry sinkNamespace bindings t w in
    let events := recordCleanupAnnouncements recorder report in
    match e with
    | Some e =>
        if IsTerminal (Some e) then
          (mkFinalize finalizers (Some terminalCleanupRequeue) None (events ++ (if recorder then [EventCleanupTerminal e] else [])), w)
        else (mkFinalize finalizers (Some debounce) (Some e) events, w)
    | None => (removeFinalizerAndUpdate is_conflict finalizers finalizer update events, w)
    end.

(** Go: internal/controller/inventory_finalizer.go:89-109 [cleanupInventoryDeletion] *)
Definition inventory_target (is_no_match : err → bool) (tenantMode : bool) (namespace name : string) (generation : Z)
    (exports : list InventorySinkExportStatus) (get : nat → option err) : cleanupTarget :=
  mkCleanupTarget ("inventory/" +:+ namespace +:+ "/" +:+ name +:+ ".json")
    (mkInventoryIdentity InventoryKindNamespaced namespace name) generation (exportEvidenceBySink exports)
    (clusterCounterpartLookup is_no_match tenantMode namespace name get).

(** Go: internal/controller/cluster_inventory_finalizer.go:75-100 [cleanupClusterInventorySinks] *)
Definition cluster_inventory_target (is_no_match : err → bool) (watchNamespaces : list string) (name : string) (generation : Z)
    (exports : list InventorySinkExportStatus) (get : nat → option err) : cleanupTarget :=
  mkCleanupTarget ("inventory/" +:+ clusterExportNamespace +:+ "/" +:+ name +:+ ".json")
    (mkInventoryIdentity InventoryKindCluster "" name) generation (exportEvidenceBySink exports)
    (namespacedCounterpartLookup is_no_match watchNamespaces name get).
End finalizer.

(** * What a deletion guarantees *)

(** A backend that can retract, on the paths it can address: what it was asked to
    remove and what it reports is gone, and nothing is touched that none of the
    paths covers. *)
Class ExportCleaner {W} (del : list string → W → result err (list string) * W) (stored : W → string → option string) := {
  cleaner_removes paths w deleted w' :
    Forall addressable paths → del paths w = (Ok deleted, w') →
    (∀ p, (p ∈ paths ∧ own_key p) ∨ p ∈ deleted → stored w' p = None) ∧
    (∀ q, stored w' q = stored w q ∨ (stored w' q = None ∧ Exists (λ p, covered p q) paths));
}.

Section bucket_cleaner.
Context `{!S3Api, !ErrorTexts, !ApiErrors, !S3Laws}.
Variable cfg : S3Config.

(** The bucket's deletion with enough fuel. *)
Definition s3_cleaner (paths : list string) (w : bucket) : result err (list string) * bucket :=
  default (Err (plain "s3 cleanup"), w) (s3_DeleteExport (S (size (bk_objects w))) cfg paths w).

Definition s3_stored (w : bucket) (p : string) : option string := bk_objects w !! (key_root cfg +:+ p).

#[export] Instance s3_export_cleaner : normal_prefix cfg → ExportCleaner s3_cleaner s3_stored.
Proof.
  intros Hc. split. intros paths w deleted w' Ha Hd. unfold s3_cleaner in Hd.
  destruct (s3_delete_spec (S (size (bk_objects w))) cfg paths w) as [[r Hr] Hspec]; [lia|done|done|].
  rewrite Hr in Hd. cbn in Hd. subst r. destruct (Hspec _ _ Hr) as (Hgone & Hkeep & Hpaths & Hdel).
  split.
  - intros p [[Hp Ho]|Hp]; [|by apply Hdel]. unfold s3_stored. rewrite <- s3_key_root; [by apply Hpaths|done|].
    rewrite Forall_forall in Ha. by apply Ha.
  - intros q. unfold s3_stored. destruct (bk_objects w' !! (key_root cfg +:+ q)) eqn:Hq.
    + left. rewrite <- Hq. apply Hkeep. by eexists.
    + apply Hgone in Hq as [Hq|(rel & p & Heq & Hp & Hs)]; [left; by rewrite Hq|]. right. apply app_inv_l in Heq as <-.
      split; [done|]. apply Exists_exists. by exists p.
Qed.
End bucket_cleaner.

Section guarantees.
Context `{!UnicodeCase, !Yaml, !SortFunc, !Sha256, !JsonDecode, !ApiErrors, !GitErrorApi, !ErrorTexts}.
Context {W : Type}.
Implicit Types (req : CleanupExportRequest) (w : W).

Lemma unaddressed_false recorded candidates deleted :
  recordedExportPathsUnaddressed recorded candidates deleted = false →
  ∀ p, p ∈ recorded → p ∈ candidates ∨ p ∈ deleted.
Proof.
  unfold recordedExportPathsUnaddressed. rewrite <- not_true_iff_false, existsb_exists. intros Hn p Hp.
  destruct (decide (p ∈ (list_to_set (candidates ++ deleted) : gset string))) as [Hin|Hin].
  - by rewrite elem_of_list_to_set, elem_of_app in Hin.
  - destruct Hn. exists p. rewrite <- list_elem_of_In. split; [done|]. by rewrite bool_decide_false.
Qed.

(** The tombstone of a sink whose backend keeps the promise of the class. *)
Lemma tombstone_of_cleaner now maxBytes (b : CleanupBackend W) reacquired refused req w w' del (stored : W → string → option string) :
  let '(invNS, invName) := InventoryFromObjectPath (cr_ObjectPath req) in
  let path := ObjectPath (cr_SinkSpec req) invNS invName (cr_Generation req) in
  ExportCleaner del stored → cb_DeleteExport b = Some del → isGitLayoutFamily (sink_Type (cr_SinkSpec req)) = false →
  addressable path → own_key path →
  RunCleanupExport now maxBytes (Ok b) reacquired refused req w = (Ok CleanupCleaned, w') →
  stored w' path = None ∧ (∀ p, p ∈ cr_LastExportedPaths req → stored w' p = None) ∧
  cr_ExportPathsUnrecorded req = false ∧
  (∀ q, stored w' q = stored w q ∨ (stored w' q = None ∧ covered path q)).
Proof.
  destruct (InventoryFromObjectPath (cr_ObjectPath req)) as [invNS invName] eqn:Hinv. intros path Hc Hdel Hgit Ha Hown.
  unfold RunCleanupExport. destruct (cr_Registry req); cbn [negb]; [|done]. case_decide; [done|]. case_decide; [done|]. rewrite Hgit.
  destruct (if decide _ then _ else None) as [o|] eqn:Hpre.
  { intros [= -> _]. case_decide; [|done]. unfold retractionPrecheck in Hpre. case_decide; [done|]. by destruct (cr_SharedExportIdentity req). }
  cbn [run_backend]. rewrite Hinv, Hgit. destruct (cap_SupportsDelete _).
  { destruct (pruneRelationalExport _ _ _ _ _ _) as [[e|] w1]; done. }
  unfold retractObjects. rewrite Hdel. destruct (retractionPrecheck req) as [o|] eqn:Hpre'.
  { intros [= -> _]. unfold retractionPrecheck in Hpre'. case_decide; [done|]. by destruct (cr_SharedExportIdentity req). }
  unfold cleanupCandidatePaths. rewrite Hgit. cbn [negb]. fold path. destruct (del [path] w) as [[deleted|e] w1] eqn:Hd; [|done].
  unfold retractionOutcome. destruct (_ || _) eqn:Ho; [done|]. intros [= <-]. rewrite !orb_false_iff in Ho.
  destruct Ho as [[[_ _] Hunrec] Hun]. apply cleaner_removes in Hd as [Hgone Hrest]; [|constructor; [exact Ha|constructor]].
  split_and!; [apply Hgone; left; split; [left|done]| |done|].
  - intros p Hp. apply Hgone. eapply unaddressed_false in Hp as [->%list_elem_of_singleton|Hp]; [|by right|exact Hun]. left. split; [left|done].
  - intros q. destruct (Hrest q) as [?|[? [Hs|Hs%Exists_nil]%Exists_cons]]; [by left|by right|done].
Qed.

(** A sink whose policy keeps the exports, or whose export identity another
    inventory shares, loses no exported file to the deletion: the object stores and
    the local directory are not even contacted, and a Git sink is asked for nothing
    but the release of the inventory's ownership record. *)
Theorem retained_exports_kept now maxBytes (b : CleanupBackend W) reacquired refused req w :
  let spec := cr_SinkSpec req in
  cr_Registry req = true → sink_Type spec ∈ retractableSnapshotTypes →
  EffectiveDeletionPolicy (Some spec) ≠ DeletionPolicyDelete ∨ cr_SharedExportIdentity req = true →
  cap_SupportsDelete (be_Capabilities (cb_backend b)) = false →
  let run a := RunCleanupExport now maxBytes a reacquired refused req w in
  if isGitLayoutFamily (sink_Type spec)
  then (run (Ok b)).2 = w ∨ ∃ release paths owner,
         cb_ReleaseExport b = Some release ∧ cleanupPruneOwner req = Ok owner ∧
         (run (Ok b)).2 = (release paths (mkReleaseOptions owner true) w).2
  else ∀ a, ∃ o, run a = (Ok o, w) ∧ o ∈ [CleanupRetainedByPolicy; CleanupRetainedSharedIdentity].
Proof.
  intros spec Hreg Htype Hkeep Hsd run.
  assert (∃ o, retractionPrecheck req = Some o ∧ o ∈ [CleanupRetainedByPolicy; CleanupRetainedSharedIdentity]) as (o & Hpre & Ho).
  { unfold retractionPrecheck. fold spec. case_decide as Hp.
    - exists CleanupRetainedByPolicy. split; [done|left].
    - destruct Hkeep as [? | ->]; [done|]. exists CleanupRetainedSharedIdentity. split; [done|right; left]. }
  assert (sink_Type spec ≠ "" ∧ sink_Type spec ∉ streamSinkTypes) as [Hne Hns].
  { unfold retractableSnapshotTypes in Htype. split; [|intros Hs; unfold streamSinkTypes in Hs];
      repeat (apply elem_of_cons in Htype as [Htype|Htype]; [rewrite Htype in *; try done|]); set_solver. }
  unfold run, RunCleanupExport. fold spec. rewrite Hreg. cbn [negb]. rewrite decide_False by done. rewrite decide_False by done.
  destruct (isGitLayoutFamily (sink_Type spec)) eqn:Hgit.
  - destruct (cleanupPruneOwner req) as [owner|e]; [|by left]. cbn [run_backend].
    destruct (InventoryFromObjectPath _) as [ns name]. rewrite Hsd. fold spec. rewrite Hgit. unfold releaseGitExport.
    destruct (cb_ReleaseExport b) as [release|]; [|by left]. right. rewrite Hpre, bool_decide_true by done.
    exists release, (cleanupCandidatePaths spec ns name (cr_Generation req)), owner. split; [done|]. split; [done|].
    fold spec. destruct (release _ _ w) as [[deleted|e] w1]; done.
  - intros a. exists o. split; [|exact Ho]. rewrite (decide_False (P := sink_Type spec = "")), decide_False by done.
    destruct (decide (sink_Type spec ∈ retractableSnapshotTypes)) as [_|Hn]; [|by destruct Hn]. by rewrite Hpre.
Qed.

(** The owner a deletion releases is the owner the exports recorded. *)
Lemma cleanup_owner_is_export_owner req owner r :
  rl_Cluster r = trim_space (sink_Cluster (cr_SinkSpec req)) → cleanupPruneOwner req = Ok owner →
  inventoryPruneOwner r (cr_Inventory req) = Ok owner.
Proof.
  unfold cleanupPruneOwner. destruct (id_IsZero (cr_Inventory req)) eqn:Hz; [done|].
  destruct (InventoryFromObjectPath _) as [ns name]. rewrite then_ok. intros Hr [_ Ho]. revert Ho.
  unfold inventoryPruneOwner. rewrite Hr. done.
Qed.

(** ** The pass over all sinks *)

(** The report names the sink under its outcome. *)
Definition announced (o : CleanupExportOutcome) (key objectPath : string) (r : SinkCleanupReport) : Prop :=
  match o with
  | CleanupRetained => identity_text key objectPath ∈ rep_Retained r
  | CleanupRetainedByPolicy => key ∈ rep_RetainedByPolicy r
  | CleanupRetainedSharedIdentity => identity_text key objectPath ∈ rep_SharedIdentity r
  | CleanupCleaned | CleanupPruned => True
  end.

(** The answer a retraction acted on is the lookup's, when there is one. *)
Definition shared_answer (t : cleanupTarget) (shared : bool) : Prop :=
  match ct_sharedIdentity t with None => shared = false | Some lookup => ∃ n, lookup n = Ok shared end.

(** What became of the [i]-th binding. *)
Definition handled (env : cleanup_env (W := W)) (t : cleanupTarget) (sinkNamespace : string) (i : nat)
    (b : InventorySinkBinding) (r : SinkCleanupReport) : Prop :=
  (∃ e, ce_resolve env i = Err e ∧ api_IsNotFound e = true ∧ sinkExportKey b ∈ rep_SinkGone r) ∨
  (∃ resolved shared o w w',
     ce_resolve env i = Ok resolved ∧
     (RetractsOnDeletion (res_Spec resolved) = true → shared_answer t shared) ∧
     RunCleanupExport (ce_now env) (ce_maxBytes env) (ce_acquire env i) (ce_reacquire env i) (ce_refuse env i)
       (cleanup_request t sinkNamespace b resolved shared) w = (Ok o, w') ∧
     announced o (sinkExportKey b) (ct_objectPath t) r).

Definition report_le (r r' : SinkCleanupReport) : Prop :=
  rep_SinkGone r ⊆ rep_SinkGone r' ∧ rep_Retained r ⊆ rep_Retained r' ∧
  rep_RetainedByPolicy r ⊆ rep_RetainedByPolicy r' ∧ rep_SharedIdentity r ⊆ rep_SharedIdentity r'.

#[local] Instance report_le_preorder : PreOrder report_le.
Proof. split; [by intros r; split_and!|]. intros r1 r2 r3 (?&?&?&?) (?&?&?&?). split_and!; by etrans. Qed.

Lemma handled_le env t ns i b r r' : report_le r r' → handled env t ns i b r → handled env t ns i b r'.
Proof.
  intros (H1' & H2' & H3' & H4') [(e & ? & ? & ?)|(res & sh & o & w & w' & ? & ? & ? & Ha)]; [left; exists e; set_solver|].
  right. exists res, sh, o, w, w'. split_and!; [done..|]. destruct o; cbn in *; set_solver.
Qed.

Lemma rep_add_le o key path r : report_le r (rep_add o key path r) ∧ announced o key path (rep_add o key path r).
Proof. destruct o; cbn; unfold report_le; cbn; (split; [split_and!; set_solver|set_solver]). Qed.

Definition memo_ok (t : cleanupTarget) (m : shared_memo) : Prop :=
  match memo_answer m with None => True | Some b => shared_answer t b end.

Lemma sharedIdentityOnce_ok t m r m' :
  memo_ok t m → sharedIdentityOnce t m = (r, m') → memo_ok t m' ∧ ∀ b, r = Ok b → shared_answer t b.
Proof.
  unfold sharedIdentityOnce, memo_ok, shared_answer. destruct (ct_sharedIdentity t) as [lookup|].
  - destruct (memo_answer m) as [b|] eqn:Hm.
    + intros Hb [= <- <-]. rewrite Hm. split; [done|]. by intros b' [= <-].
    + intros _. destruct (lookup (memo_calls m)) as [b|] eqn:Hl; intros [= <- <-]; cbn; (split; [by eauto|]); [|done].
      intros b' [= <-]. by eexists.
  - intros Hm [= <- <-]. split; [done|]. by intros b [= <-].
Qed.

Lemma cleanup_binding_ok env t ns i b r m w r' m' w' :
  memo_ok t m → cleanup_binding env t ns i b r m w = (r', m', w') →
  memo_ok t m' ∧ ∀ report, r' = Ok report → report_le r report ∧ handled env t ns i b report.
Proof.
  intros Hm. unfold cleanup_binding. destruct (ce_resolve env i) as [resolved|e] eqn:Hr.
  - destruct (if RetractsOnDeletion _ then _ else _) as [shared m1] eqn:Hs.
    assert (memo_ok t m1 ∧ ∀ sh, shared = Ok sh → RetractsOnDeletion (res_Spec resolved) = true → shared_answer t sh) as [Hm1 Hsh].
    { destruct (RetractsOnDeletion _); [|by injection Hs as _ <-]. apply sharedIdentityOnce_ok in Hs as [? Ha]; [|done].
      split; [done|]. intros sh Hsh _. by apply Ha. }
    destruct shared as [shared|e]; [|by intros [= <- <- <-]].
    destruct (RunCleanupExport _ _ _ _ _ _ w) as [[o|e] w1] eqn:Hrun; [|by intros [= <- <- <-]].
    intros [= <- <- <-]. split; [done|]. intros report [= <-]. destruct (rep_add_le o (sinkExportKey b) (ct_objectPath t) r) as [Hle Ha].
    split; [exact Hle|]. right. exists resolved, shared, o, w, w1. split_and!; [done|by apply Hsh|done|done].
  - destruct (api_IsNotFound e) eqn:Hn; [|by intros [= <- <- <-]]. intros [= <- <- <-]. split; [done|]. intros report [= <-].
    split; [unfold report_le, rep_gone; cbn; set_solver|]. left. exists e. split_and!; [done..|]. cbn. set_solver.
Qed.

Lemma cleanup_bindings_ok env t ns i bindings r errs m w r' w' :
  memo_ok t m → cleanup_bindings env t ns i bindings r errs m w = (r', [], w') →
  errs = [] ∧ report_le r r' ∧ ∀ j b, bindings !! j = Some b → handled env t ns (i + j) b r'.
Proof.
  revert i r errs m w. induction bindings as [|b bindings IH]; intros i r errs m w Hm; cbn [cleanup_bindings].
  { intros [= <- <- <-]. split_and!; [done|reflexivity|done]. }
  destruct (cleanup_binding env t ns i b r m w) as [[[report|e] m1] w1] eqn:Hb; apply cleanup_binding_ok in Hb as [Hm1 Hok]; try done.
  - intros Hrec. apply IH in Hrec as (-> & Hle & Hh); [|done]. destruct (Hok report eq_refl) as [Hle1 Hh1].
    split_and!; [done|by etrans|]. intros [|j] b'; [intros [= <-]; rewrite Nat.add_0_r; by eapply handled_le|].
    intros Hj. rewrite <- Nat.add_succ_comm. by apply Hh.
  - intros Hrec. apply IH in Hrec as (He & _); [|done]. by destruct errs.
Qed.

(** A pass over the sinks without an error has dealt with every binding. *)
Lemma cleanupSinkExports_handled env ns bindings t w report w' :
  cleanupSinkExports env true ns bindings t w = (report, None, w') →
  ∀ i b, bindings !! i = Some b → handled env t ns i b report.
Proof.
  unfold cleanupSinkExports. cbn [negb orb]. case_bool_decide as Hlen.
  { intros _ i b Hb. apply length_zero_iff_nil in Hlen. by rewrite Hlen in Hb. }
  destruct (cleanup_bindings _ _ _ _ _ _ _ _ w) as [[report' errs] w1] eqn:Hc.
  destruct (decide (errs = [])) as [->|Hne].
  - intros [= <- <-]. apply cleanup_bindings_ok in Hc as (_ & _ & Hh); [exact Hh|done].
  - done.
Qed.

(** The write that removes the finalizer. *)
Lemma removeFinalizer_spec is_conflict finalizers finalizer update events :
  finalizer ∈ finalizers →
  let r := removeFinalizerAndUpdate is_conflict finalizers finalizer update events in
  (finalizer ∉ fin_finalizers r → update = None ∧ fin_events r = events) ∧
  (finalizer ∈ fin_finalizers r → fin_finalizers r = finalizers ∧
     ∃ e, update = Some e ∧ fin_requeue r = (if is_conflict e then Some conflictRequeueAfter else None) ∧
          fin_err r = if is_conflict e then None else Some e).
Proof.
  intros Hin. cbv zeta. unfold removeFinalizerAndUpdate.
  destruct update as [e|]; [destruct (is_conflict e) eqn:He|]; cbn; (split; [try done|]).
  - intros _. split; [done|]. exists e. by rewrite He.
  - intros _. split; [done|]. exists e. by rewrite He.
  - by intros [Hf _]%list_elem_of_filter.
Qed.

(** C38. With a sink registry, the cleanup finalizer goes only when there is nothing
    left to clean: the operator forced it, or every bound sink is either gone from
    the cluster and announced as such, or was cleaned without an error in this
    pass, acting on the lookup's answer about a shared identity, and whatever it
    kept is announced. A pass that fails keeps the finalizer; it comes back after
    a fixed time and without an error when the failure is terminal, and with that
    error after the export interval otherwise. Besides, the finalizer stays only
    when the write that removes it is refused: a conflict comes back after a
    second, any other refusal with its error. *)
Theorem finalizer_removed_when_clean env is_conflict update recorder registry debounce finalizer finalizers annotations ns
    bindings t w res w' :
  finalizer ∈ finalizers → registry = true →
  finalizeInventoryDeletion env is_conflict update recorder registry debounce finalizer finalizers annotations ns bindings t w =
    (res, w') →
  (finalizer ∉ fin_finalizers res →
     update = None ∧
     (forceCleanupRequested annotations = true ∧ w' = w ∨
      ∃ report, (∀ i b, bindings !! i = Some b → handled env t ns i b report) ∧
                fin_events res = recordCleanupAnnouncements recorder report)) ∧
  (∀ report e, forceCleanupRequested annotations = false →
     cleanupSinkExports env registry ns bindings t w = (report, Some e, w') →
     fin_finalizers res = finalizers ∧ fin_requeue res = Some (if IsTerminal (Some e) then terminalCleanupRequeue else debounce) ∧
     fin_err res = if IsTerminal (Some e) then None else Some e) ∧
  (finalizer ∈ fin_finalizers res →
     fin_finalizers res = finalizers ∧
     ((forceCleanupRequested annotations = false ∧ ∃ report e, cleanupSinkExports env registry ns bindings t w = (report, Some e, w')) ∨
      ∃ e, update = Some e ∧ fin_requeue res = (if is_conflict e then Some conflictRequeueAfter else None) ∧
           fin_err res = if is_conflict e then None else Some e)).
Proof.
  intros Hin ->. unfold finalizeInventoryDeletion. rewrite bool_decide_true by done. cbn [negb].
  pose proof (λ events, removeFinalizer_spec is_conflict finalizers finalizer update events Hin) as Hrem. cbv zeta in Hrem.
  destruct (forceCleanupRequested annotations) eqn:Hforce.
  { intros [= <- <-]. edestruct Hrem as [Hr1 Hr2]. split_and!; [|done|].
    - intros [Hu _]%Hr1. split; [done|by left].
    - intros [? ?]%Hr2. split; [done|by right]. }
  destruct (cleanupSinkExports env true ns bindings t w) as [[report [e|]] w1] eqn:Hc.
  - intros Hres. assert (fin_finalizers res = finalizers ∧ w' = w1 ∧
      fin_requeue res = Some (if IsTerminal (Some e) then terminalCleanupRequeue else debounce) ∧
      fin_err res = if IsTerminal (Some e) then None else Some e) as (Hf & -> & Hq & He).
    { destruct (IsTerminal (Some e)); injection Hres as <- <-; done. }
    split_and!; [by rewrite Hf|by intros ? ? _ [= <- <-]|]. intros _. split; [done|]. left. split; [done|]. by exists report, e.
  - intros [= <- <-]. edestruct Hrem as [Hr1 Hr2]. split_and!; [|by intros ? ? _ [= _ ?]|].
    + intros [Hu Hev]%Hr1. split; [done|]. right. exists report. split; [|done]. by eapply cleanupSinkExports_handled.
    + intros [? ?]%Hr2. split; [done|by right].
Qed.
End guarantees.

Section s3_guarantees.
Context `{!UnicodeCase, !Yaml, !SortFunc, !Sha256, !JsonDecode, !ApiErrors, !GitErrorApi, !ErrorTexts, !S3Api, !S3Laws}.

(** C37. The tombstone of an S3 sink, when the sink's prefix is empty or in normal
    form, and the path the spec renders now is in normal form, has no blanks around
    it, no file name that starts with two dots, and if it is read as one of the
    hive layout ends in the Parquet file of a generation: when the cleanup reports
    that the export was removed, every path the inventory's status recorded for it,
    and the path its spec renders now, are gone from the bucket; the recording was
    not missing; and of everything else below the prefix only what the rendered
    path covers (its parts, or the generations of its partition) can have gone. *)
Theorem clean_tombstone cfg now maxBytes (b : CleanupBackend bucket) reacquired refused req w w' :
  let '(invNS, invName) := InventoryFromObjectPath (cr_ObjectPath req) in
  let path := ObjectPath (cr_SinkSpec req) invNS invName (cr_Generation req) in
  normal_prefix cfg → cb_DeleteExport b = Some (s3_cleaner cfg) → isGitLayoutFamily (sink_Type (cr_SinkSpec req)) = false →
  addressable path → own_key path →
  RunCleanupExport now maxBytes (Ok b) reacquired refused req w = (Ok CleanupCleaned, w') →
  bk_objects w' !! s3_key cfg path = None ∧ (∀ p, p ∈ cr_LastExportedPaths req → s3_stored cfg w' p = None) ∧
  cr_ExportPathsUnrecorded req = false ∧
  (∀ q, s3_stored cfg w' q = s3_stored cfg w q ∨ (s3_stored cfg w' q = None ∧ covered path q)).
Proof.
  pose proof (tombstone_of_cleaner now maxBytes b reacquired refused req w w' (s3_cleaner cfg) (s3_stored cfg)) as Hc.
  destruct (InventoryFromObjectPath (cr_ObjectPath req)) as [invNS invName]. cbv zeta in Hc |- *. intros Hn Hb Hg Ha Ho Hrun.
  rewrite s3_key_root by done. apply Hc; [|done..]. by apply s3_export_cleaner.
Qed.
End s3_guarantees.

(** * A deletion, evaluated *)

Module CleanupDemo.
#[local] Existing Instances ObjectStoreDemo.demo_s3 ObjectStoreDemo.demo_s3_laws ObjectStoreDemo.no_texts no_api_errors ascii_only_case
  sort_by_merge_sort GitTreeDemo.demo_sha.
#[local] Instance no_git_errors : GitErrorApi :=
  {| http_err_codes _ := []; is_auth_sentinel _ := false; IsProbableEOF _ := false; IsConnectionReset _ := false |}.
#[local] Instance no_decode : JsonDecode := {| decode_envelope _ := None; decode_items _ := None; parse_rfc3339nano _ := None |}.
#[local] Instance same_yaml : Yaml := {| json_to_yaml s := Some s |}.

Definition cfg : S3Config := mkS3Config "b" "pre" "".
Definition backend : CleanupBackend bucket := mkCleanupBackend (mkBackend ObjectStoreSnapshot false (λ _ w, (None, w))) (Some (s3_cleaner cfg)) None.
Definition spec (policy : string) : KollectSinkSpec := mkKollectSinkSpec SinkTypeS3 "" "" policy None None None None.
Definition inv : InventoryIdentity := mkInventoryIdentity InventoryKindNamespaced "team" "app".
Definition request (policy : string) (recorded : list string) : CleanupExportRequest :=
  mkCleanupExportRequest true "team" "s3" (spec policy) ObjectStoreDemo.app 1 inv recorded false false.
Definition w0 : bucket := mkBucket ObjectStoreDemo.objects 0.
Definition run (req : CleanupExportRequest) : result err CleanupExportOutcome * bucket :=
  RunCleanupExport 0 1000000 (Ok backend) (Err (plain "")) None req w0.

Lemma demo_prefix : normal_prefix cfg.
Proof. apply (bool_decide_unpack _). vm_compute. exact I. Qed.

Definition part2 : string := "inventory/team/app.part-0002-of-0003.json".
Definition retracting : CleanupExportRequest := request DeletionPolicyDelete [part2].

Lemma retracting_inventory : InventoryFromObjectPath (cr_ObjectPath retracting) = ("team", "app").
Proof. vm_compute. reflexivity. Qed.

Lemma clean_tombstone_witness : s3_stored cfg (run retracting).2 part2 = None.
Proof.
  pose proof (clean_tombstone cfg 0 1000000 backend (Err (plain "")) None retracting w0 (run retracting).2) as Hc.
  rewrite retracting_inventory in Hc. destruct Hc as (_ & Hp & _).
  - exact demo_prefix.
  - reflexivity.
  - reflexivity.
  - apply (bool_decide_unpack _). vm_compute. exact I.
  - intros Hh. vm_compute in Hh. discriminate.
  - vm_compute. reflexivity.
  - apply Hp. left.
Defined.

(** A recorded path that the current spec does not render is announced. *)
Example moved_path_retained :
  (run (request DeletionPolicyDelete ["exports/team/app.json"])).1 = Ok CleanupRetained ∧
  (run (request "" [ObjectStoreDemo.app])).1 = Ok CleanupRetainedByPolicy.
Proof. by vm_compute. Qed.

(** Where the sink prefix is not in normal form, nothing is removed and the
    deletion still reports a clean tombstone. *)
Example unclean_prefix_tombstone :
  let cfg := mkS3Config "b" "a//b" "" in
  let w := (s3_Export (λ p _, Ok p) cfg "{}" ObjectStoreDemo.app (mkBucket ∅ 0)).2 in
  let b := mkCleanupBackend (cb_backend backend) (Some (s3_cleaner cfg)) None in
  let '(o, w') := RunCleanupExport 0 1000000 (Ok b) (Err (plain "")) None
                    (request DeletionPolicyDelete [ObjectStoreDemo.app]) w in
  o = Ok CleanupCleaned ∧ bk_objects w' !! s3_key cfg ObjectStoreDemo.app = Some "{}".
Proof. by vm_compute. Qed.

(** A template whose path looks like one of the hive layout and is not: nothing is
    removed, and the recorded path counts as addressed because it was asked for. *)
Example hive_like_tombstone :
  let path := "exports/name=app/generation=latest.json" in
  let w := (s3_Export (λ p _, Ok p) cfg "{}" path (mkBucket ∅ 0)).2 in
  let req := mkCleanupExportRequest true "team" "s3"
    (mkKollectSinkSpec SinkTypeS3 "" "exports/name={name}/generation=latest{extension}" DeletionPolicyDelete None None None None)
    ObjectStoreDemo.app 1 inv [path] false false in
  let '(o, w') := RunCleanupExport 0 1000000 (Ok backend) (Err (plain "")) None req w in
  o = Ok CleanupCleaned ∧ bk_objects w' !! s3_key cfg path = Some "{}".
Proof. by vm_compute. Qed.

Definition keeping : CleanupExportRequest := request "" [ObjectStoreDemo.app].

Lemma keeping_family : isGitLayoutFamily (sink_Type (cr_SinkSpec keeping)) = false.
Proof. vm_compute. reflexivity. Qed.

Lemma retained_exports_kept_witness : ∃ o, run keeping = (Ok o, w0).
Proof.
  pose proof (retained_exports_kept 0 1000000 backend (Err (plain "")) None keeping w0) as Hr.
  cbv zeta in Hr. rewrite keeping_family in Hr. destruct Hr with (a := Ok (E := err) backend) as (o & Ho & _).
  - reflexivity.
  - right. right. left.
  - left. vm_compute. discriminate.
  - reflexivity.
  - exists o. exact Ho.
Defined.

Definition binding : InventorySinkBinding := mkInventorySinkBinding "s3" "snapshot" (mkInventorySinkRef "s3" "" None None).
Definition env : cleanup_env :=
  mkCleanupEnv 0 1000000 (λ _, Ok (mkResolvedCleanup "team" (spec DeletionPolicyDelete))) (λ _, Ok backend) (λ _, Err (plain "")) (λ _, None).
Definition target : cleanupTarget := inventory_target (λ _, false) false "team" "app" 1 [] (λ _, None).
Definition finalizer : string := "kollect.dev/inventory-cleanup".
Definition finalized : finalize_result * bucket :=
  finalizeInventoryDeletion env (λ _, false) None true true 0 finalizer [finalizer] ∅ "team" [binding] target w0.

Lemma finalizer_removed_when_clean_witness :
  fin_finalizers finalized.1 = [] ∧ ∃ report, handled env target "team" 0 binding report.
Proof.
  destruct (finalizer_removed_when_clean env (λ _, false) None true true 0 finalizer [finalizer] ∅ "team" [binding] target w0
    finalized.1 finalized.2) as (Hf & _); [left|reflexivity|apply surjective_pairing|].
  split; [vm_compute; reflexivity|].
  destruct Hf as [_ [[Hforce _]|(report & Hh & _)]].
  - assert (fin_finalizers finalized.1 = []) as -> by (vm_compute; reflexivity). apply not_elem_of_nil.
  - vm_compute in Hforce. discriminate.
  - exists report. apply Hh. reflexivity.
Defined.
End CleanupDemo.
