(* ===== verification/InventoryReconcile.v ===== *)
(** The reconciler of namespaced inventories around its export pass,
    [src/internal/controller/kollectinventory_controller.go], with the spill gate
    of [export_spill.go], the scope check of inventories and the admission of an
    inventory spec.

    One call of [Reconcile] is a function of the memory the reconcilers share (the
    debounce tracker and the fingerprint memo) and of an environment with one
    field per request to the API server, per read of the clock and per read of the
    store: the store may change between two reads, so each read has its own store
    state. One reading of the clock stands for the timestamps of the conditions. *)

From S2P Require Import Prelude GoStrings Values Store Api Filter Scope Errors Json Envelope FingerprintCache Partition.
From S2P Require Import Intervals Coalesce ExportPass SinkSpec LayoutExport Conditions PassRecord SinkExport TargetReconcile GitErrors Layout Cleanup.
Import Tracker Outcome.

(** * Admission of an inventory spec *)

(** Go: internal/validation/inventory.go:83-99 [validateInventoryFamilySinkRefs] *)
Definition validateInventoryFamilySinkRefs (dns1123 : string → bool) (globalCap : Z) (spec : KollectInventorySpec) : ErrorList :=
  if decide (MaxInventorySinkRefs < TotalInventorySinkRefCount (Some spec)) then [mkFieldError FieldInvalid [Child "spec"]]
  else
    ValidateInventorySinkRefs dns1123 globalCap (inv_SnapshotSinkRefs spec) (Some [Child "spec"; Child "snapshotSinkRefs"]) ++
    ValidateInventorySinkRefs dns1123 globalCap (inv_DatabaseSinkRefs spec) (Some [Child "spec"; Child "databaseSinkRefs"]) ++
    ValidateInventorySinkRefs dns1123 globalCap (inv_EventSinkRefs spec) (Some [Child "spec"; Child "eventSinkRefs"]).

(** Go: internal/validation/inventory.go:56-81 [ValidateInventorySpec] *)
Definition ValidateInventorySpec (dns1123 : string → bool) (globalCap : Z) (spec : option KollectInventorySpec) : ErrorList :=
  match spec with
  | None => []
  | Some spec =>
      validateInventoryFamilySinkRefs dns1123 globalCap spec ++
      ValidateOptionalDurationInterval (inv_ExportMinInterval spec) [Child "spec"; Child "exportMinInterval"] ++
      match inv_MaxExportBytes spec with
      | None => []
      | Some b =>
          if decide (b ≤ 0)%Z then [mkFieldError FieldInvalid [Child "spec"; Child "maxExportBytes"]]
          else if decide (globalCap < b)%Z then [mkFieldError FieldInvalid [Child "spec"; Child "maxExportBytes"]]
          else []
      end
  end.

(** * The object *)

(** Go: api/v1alpha1/kollectinventory_types.go:62-101 [KollectInventoryStatus] *)
Record KollectInventoryStatus := mkInventoryStatus {
  is_Conditions : list Condition;
  is_ObservedGeneration : Z;
  is_ItemCount : nat;
  is_LastExportTime : option Z;
  is_SinkExports : list InventorySinkExportStatus;
}.

(** The object as it is read. *)
Record inventory_obj := mkInventoryObj {
  vo_Namespace : string;
  vo_Name : string;
  vo_UID : string;
  vo_Generation : Z;
  vo_Annotations : gmap string string;
  vo_Finalizers : list string;
  vo_Deleting : bool;
  vo_Spec : KollectInventorySpec;
  vo_Status : KollectInventoryStatus;
}.

Definition set_is_conditions (cs : list Condition) (s : KollectInventoryStatus) : KollectInventoryStatus :=
  mkInventoryStatus cs (is_ObservedGeneration s) (is_ItemCount s) (is_LastExportTime s) (is_SinkExports s).

Definition set_is_exports (exports : list InventorySinkExportStatus) (s : KollectInventoryStatus) : KollectInventoryStatus :=
  mkInventoryStatus (is_Conditions s) (is_ObservedGeneration s) (is_ItemCount s) (is_LastExportTime s) exports.

Definition inventoryCleanupFinalizer : string := "kollect.dev/inventory-cleanup".
Definition AnnotationRequestedAt : string := "kollect.dev/requestedAt".
Definition ExportShardWarnRows : nat := 1800.

Definition scopeReasonSinkDenied : string := "ScopeSinkDenied".
Definition spillReasonPayloadTooLarge : string := "PayloadTooLarge".
Definition conditionExportShardWarn : string := "ExportShardWarning".
Definition reasonExportShardWarn : string := "ApproachingExportCap".

(** * The environment of a reconcile *)

(** The reads of the store, in the order of the code. *)
Inductive store_read := ReadCount | ReadVersion | ReadCompute | ReadItems | ReadMarshal | ReadRecount.

(** The answers to the requests of one reconcile, and its readings of the clock.
    [ie_sink_type] is what [loadClusterInventorySink] answers to the spill gate;
    [ie_resolve_preview] and [ie_resolve] are the lookups of the preview and of
    the pass. *)
Record inv_env := mkInvEnv {
  ie_get : result err inventory_obj;
  ie_update : option err;
  ie_status : option err;
  ie_isConflict : err → bool;
  ie_scope : option (list KollectScope);
  ie_scope_preview : option (list KollectScope);
  ie_scope_pass : option (list KollectScope);
  ie_violation : violation → string;
  ie_sink : InventorySinkBinding → sink_answer;
  ie_sink_name : InventorySinkBinding → string;
  ie_sink_type : InventorySinkBinding → result err string;
  ie_store : option (store_read → Store.StoreState);
  ie_maxExportBytesGlobal : Z;
  ie_now : Z;
  ie_now_marshal : Z;
  ie_now_preview : Z;
  ie_now_pass : Z;
  ie_clock : nat → nat → Z;
  ie_resolve_preview : nat → result err ResolvedSink;
  ie_resolve : nat → result err ResolvedSink;
  ie_write : nat → nat → result err (list string);
  ie_exportTime : nat → Z;
  ie_schedule : list sinkJob → list sinkJob;
  ie_part_err : partition_error → err;
  ie_envelope_err : envelope_error → err;
}.

(** What the reconcilers keep between two calls. *)
Record memory := mkMemory {
  mem_tracker : gmap string sinkCoalesceState;
  mem_cache : gmap string namespaceFingerprintEntry;
}.

(** The result: [inv_Saved] is the status that was written, when one was;
    [inv_Pass] is what the export pass reported, when it ran. *)
Record inv_outcome := mkInvOutcome {
  inv_Memory : memory;
  inv_Saved : option KollectInventoryStatus;
  inv_RequeueAfter : Z;
  inv_Err : option err;
  inv_Events : list string;
  inv_Pass : option perSinkExportOutcome;
}.

(** [fmt.Sprintf("%d", n)] of a count. *)
Definition fmt_nat (n : nat) : string := fmt_d (Z.of_nat n).

(** Go: internal/controller/kollectinventory_controller.go:663-671 [hasSnapshotSinkBinding] *)
Definition hasSnapshotSinkBinding (bindings : list InventorySinkBinding) : bool :=
  existsb (λ b, bool_decide (binding_Family b = SinkFamilySnapshot)) bindings.

(** Go: internal/controller/inventory_sink_helpers.go:57-63 [inventorySinkBindings] *)
Definition inventorySinkBindings (inv : inventory_obj) : list InventorySinkBinding := CollectInventorySinkBindings (vo_Spec inv).

(** Go: internal/controller/inventory_sink_helpers.go:73-75 [totalInventorySinkRefs] *)
Definition totalInventorySinkRefs (inv : inventory_obj) : nat := TotalInventorySinkRefCount (Some (vo_Spec inv)).

(** Go: internal/controller/kollectinventory_controller.go:100-102 [exportDebounce] *)
Definition exportDebounce (inv : inventory_obj) : Z := ExportMinIntervalFor (Some (vo_Spec inv)) 0.

(** * The spill gate *)

(** [sink_type] is the type of the sink a binding resolves to.
    Go: internal/controller/export_spill.go:148-168 [hasObjectStoreSink] *)
Fixpoint hasObjectStoreSink (sink_type : InventorySinkBinding → result err string) (bindings : list InventorySinkBinding) : result err bool :=
  match bindings with
  | [] => Ok false
  | b :: bindings =>
      if decide (binding_Family b ≠ SinkFamilySnapshot) then hasObjectStoreSink sink_type bindings
      else
        sinkType ← sink_type b;
        if IsObjectStoreSinkType sinkType then Ok true else hasObjectStoreSink sink_type bindings
  end.

(** The reason and the message of a gate that is closed.
    Go: internal/controller/export_spill.go:29-71 [assessExportSpill] *)
Definition assessExportSpill (sink_type : InventorySinkBinding → result err string) (payloadSize maxBytes : Z)
    (bindings : list InventorySinkBinding) : result err (option (string * string)) :=
  let spill := AssessSpill payloadSize maxBytes in
  if spill_ExceedsCap spill
  then Ok (Some (spillReasonPayloadTooLarge, "export payload " +:+ fmt_d payloadSize +:+ " bytes exceeds cap " +:+ fmt_d (spill_Cap spill)))
  else if negb (spill_RequiresSpill spill) then Ok None
  else
    hasObjectStore ← hasObjectStoreSink sink_type bindings;
    if (hasObjectStore : bool) then Ok None
    else Ok (Some (spillReasonSpillRequired,
                   "export payload " +:+ fmt_d payloadSize +:+ " bytes requires object-store spill (configure s3 or gcs snapshot sink)")).

Section reconcile.
Context `{!UnicodeCase, !Yaml, !SortFunc, !Sha256, !JsonDecode, !ApiErrors, !GitErrorApi, !ErrorTexts, !MapRange}.
Context `{!ConditionApi, !ConditionLib}.

Variable env : inv_env.

(** A scope that cannot be read, or none, gives no floor.
    Go: internal/controller/kollectinventory_controller.go:526-532 [scopeFloor] *)
Definition scopeFloor (listed : option (list KollectScope)) : Z :=
  match Load listed with
  | Ok b => if Enforced b then match binding_Scope b with Some _ => ScopeMinExportInterval (binding_Scope b) | None => 0%Z end else 0%Z
  | Err _ => 0%Z
  end.

(** Go: internal/controller/kollectinventory_controller.go:534-540 [maxExportBytes] *)
Definition maxExportBytes (inv : inventory_obj) : Z :=
  match inv_MaxExportBytes (vo_Spec inv) with
  | Some b => if decide (0 < b)%Z then b else ie_maxExportBytesGlobal env
  | None => ie_maxExportBytesGlobal env
  end.

(** [None]: the scope lets the inventory pass.
    Go: internal/controller/scope_check.go:75-94 [enforceInventory] *)
Definition enforceInventory (inv : inventory_obj) : option (string * string) :=
  match Load (ie_scope env) with
  | Err v => Some (scopeReasonLookupFailed, ie_violation env v)
  | Ok binding =>
      if negb (Enforced binding) then None
      else match ValidateInventoryFamilySinkRefs (binding_Scope binding) (inventorySinkBindings inv) with
           | Err v => Some (scopeReasonSinkDenied, ie_violation env v)
           | Ok _ => None
           end
  end.

(** The message, around the dash of the source.
    Go: internal/controller/export_spill.go:87-104 [noteExportShardWarning] *)
Definition noteExportShardWarning (conditions : list Condition) (generation : Z) (itemCount : nat) : bool * list Condition :=
  if decide (itemCount < ExportShardWarnRows) then (false, RemoveStatusCondition conditions conditionExportShardWarn)
  else (true, SetStatusCondition conditions
    (mkCondition conditionExportShardWarn ConditionTrue reasonExportShardWarn
       (fmt_nat itemCount +:+ " collected rows in namespace — split into multiple KollectInventory resources (<~" +:+
        fmt_nat ExportShardWarnRows +:+ " rows each)") generation (ie_now env))).

(** ** Writing the status *)

(** The write: [Some] of the status that reached the API server, or the requeue
    and the error. *)
Definition status_update (s : KollectInventoryStatus) : KollectInventoryStatus + Z * option err :=
  match ie_status env with
  | None => inl s
  | Some e => inr (if ie_isConflict env e then (conflictRequeueAfter, None) else (0%Z, Some e))
  end.

(** Go: internal/controller/kollectinventory_controller.go:629-661 [setInventoryDegraded] *)
Definition setInventoryDegraded (inv : inventory_obj) (s : KollectInventoryStatus) (itemCount : nat) (reason message : string)
    (m : memory) (events : list string) (pass : option perSinkExportOutcome) : inv_outcome :=
  let message := redact_Text message in
  let cs := RemoveStatusCondition (is_Conditions s) conditionReady in
  let cs := setSyncedCondition (vo_Generation inv) false reason message (ie_now env) cs in
  let cs := SetStatusCondition cs (mkCondition conditionDegraded ConditionTrue reason message (vo_Generation inv) (ie_now env)) in
  let s := mkInventoryStatus cs (vo_Generation inv) itemCount (is_LastExportTime s) (is_SinkExports s) in
  match status_update s with
  | inl s => mkInvOutcome m (Some s) (RequeueAfterForZeroInterval (exportDebounce inv)) None events pass
  | inr (requeue, e) => mkInvOutcome m None requeue e events pass
  end.

(** The conditions Ready and Degraded after a pass.
    Go: internal/controller/kollectinventory_controller.go:562-606 [updateStatus, the conditions of a pass] *)
Definition pass_conditions (inv : inventory_obj) (itemCount : nat) (outcome : perSinkExportOutcome) (cs : list Condition) :
    list Condition * list string :=
  let failed := FailedCount outcome in
  let generation := vo_Generation inv in
  let now := ie_now env in
  let cs := setSinkReachableFromExport now cs generation (ExportErr outcome) in
  let cs := aggregateInventorySync generation (ExportedCount outcome) (DebouncedCount outcome) failed now cs in
  let sinkCount := totalInventorySinkRefs inv in
  if decide (failed = 0 ∧ ExportErr outcome = None) then
    let cs := RemoveStatusCondition cs conditionDegraded in
    (SetStatusCondition cs (mkCondition conditionReady ConditionTrue reasonExported
       ("exported " +:+ fmt_nat itemCount +:+ " item(s) across " +:+ fmt_nat sinkCount +:+ " sink(s)") generation now),
     if decide (0 < ExportedCount outcome) then ["ExportSucceeded"] else [])
  else if decide (0 < ExportedCount outcome) then
    let cs := RemoveStatusCondition cs conditionDegraded in
    (SetStatusCondition cs (mkCondition conditionReady ConditionTrue ReasonPartiallySynced
       ("exported " +:+ fmt_nat itemCount +:+ " item(s) to " +:+ fmt_nat (ExportedCount outcome) +:+ "/" +:+ fmt_nat sinkCount +:+ " sink(s)")
       generation now), [])
  else if decide (0 < failed) then
    let message := match ExportErr outcome with Some e => redact_Text (error_text e) | None => "export failed" end in
    let cs := SetStatusCondition cs (mkCondition conditionDegraded ConditionTrue reasonExportFailed message generation now) in
    (SetStatusCondition cs (mkCondition conditionReady ConditionFalse reasonExportFailed message generation now), [])
  else (cs, []).

(** Go: internal/controller/kollectinventory_controller.go:542-627 [updateStatus] *)
Definition updateStatus (inv : inventory_obj) (s : KollectInventoryStatus) (itemCount : nat) (outcome : perSinkExportOutcome)
    (m : memory) (events : list string) (pass : option perSinkExportOutcome) : inv_outcome :=
  let sinks := bool_decide (0 < totalInventorySinkRefs inv) in
  let last := if sinks then match latestExportTime (SinkExports outcome) with Some t => Some t | None => is_LastExportTime s end
              else is_LastExportTime s in
  let '(cs, more) := if sinks then pass_conditions inv itemCount outcome (is_Conditions s) else (is_Conditions s, []) in
  let s := mkInventoryStatus cs (vo_Generation inv) itemCount last (SinkExports outcome) in
  match status_update s with
  | inr (requeue, e) =>
      mkInvOutcome (mkMemory (forgetUnpersistedExports outcome (mem_tracker m)) (mem_cache m)) None requeue e (events ++ more) pass
  | inl s =>
      let requeue := if decide (RequeueAfter outcome ≤ 0)%Z then exportDebounce inv else RequeueAfter outcome in
      mkInvOutcome m (Some s) requeue None (events ++ more) pass
  end.

(** ** The preview *)

(** The loop over the bindings: [None] as soon as one is not debounced. *)
Fixpoint preview_bindings (inv : inventory_obj) (invKey checksum : string) (defaultInterval floor : Z) (n : nat)
    (bindings : list InventorySinkBinding) (o : perSinkExportOutcome) (t : gmap string sinkCoalesceState) :
    option perSinkExportOutcome * gmap string sinkCoalesceState :=
  match bindings with
  | [] => (Some o, t)
  | binding :: bindings =>
      let exportKey := sinkExportKey binding in
      let o := set_exports (upsertSinkExportStatus exportKey) o in
      let o := set_exports (alter_status exportKey (carryOverSinkExport (is_SinkExports (vo_Status inv)) exportKey)) o in
      match ie_resolve_preview env n with
      | Err _ => (None, t)
      | Ok resolved =>
          let interval := ResolveSinkExportInterval (binding_Ref binding) (sinkExportMinInterval (Some resolved)) defaultInterval floor in
          let identity := newSinkExportIdentity (vo_UID inv) (Some resolved) in
          let i := mkInputs identity (vo_Generation inv) checksum (default "" (vo_Annotations inv !! AnnotationRequestedAt)) in
          let '(skip, t) := shouldSkip invKey exportKey i interval (ie_now_preview env) t in
          if skip then
            let o := mkOutcome (ExportedCount o) (S (DebouncedCount o)) (FailedCount o) (FailedSink o) (ExportErr o)
                       (SinkExports o) (RequeueAfter o) (failedSinks o) (exportErrs o) (trackerKey o) (exportedSinks o) in
            let o := set_exports (alter_status exportKey (setSinkExportDebounced (vo_Generation inv) interval (ie_exportTime env n))) o in
            let due := nextDue invKey exportKey interval (ie_now_preview env) t in
            preview_bindings inv invKey checksum defaultInterval floor (S n) bindings
              (set_requeue (mergeRequeueAfter (RequeueAfter o) due) o) t
          else (None, t)
      end
  end.

(** Go: internal/controller/kollectinventory_controller.go:464-520 [previewAllSinksDebounced] *)
Definition previewAllSinksDebounced (inv : inventory_obj) (invKey checksum : string) (t : gmap string sinkCoalesceState) :
    option perSinkExportOutcome * gmap string sinkCoalesceState :=
  let bindings := inventorySinkBindings inv in
  match bindings with
  | [] => (None, t)
  | _ =>
      match preview_bindings inv invKey checksum (exportDebounce inv) (scopeFloor (ie_scope_preview env)) 0 bindings
              (empty_outcome (exportDebounce inv)) t with
      | (Some o, t) => (if decide (DebouncedCount o = length bindings) then Some o else None, t)
      | (None, t) => (None, t)
      end
  end.

(** ** The reconcile *)

(** What the pass reads. *)
Definition inventory_pass_env (inv : inventory_obj) (invKey : string) (items : list Item) (checksum : string) : pass_env :=
  mkPassEnv invKey (vo_UID inv) (vo_Generation inv) (default "" (vo_Annotations inv !! AnnotationRequestedAt))
    (is_SinkExports (vo_Status inv)) items checksum (ie_now_pass env) (exportDebounce inv) (scopeFloor (ie_scope_pass env))
    (maxExportBytes inv) (ie_clock env) (ie_resolve env) (ie_write env) (ie_exportTime env) (ie_part_err env).

(** Go: internal/controller/kollectinventory_controller.go:241-281 [applyInventoryExportOutcome] *)
Definition applyInventoryExportOutcome (inv : inventory_obj) (s : KollectInventoryStatus) (itemCount : nat) (invKey : string)
    (items : list Item) (fingerprint : string) (m : memory) (events : list string) : inv_outcome :=
  let '(outcome, t) := exportToSinks (inventory_pass_env inv invKey items fingerprint) (ie_schedule env)
                         (inventorySinkBindings inv) (mem_tracker m) in
  let m := mkMemory t (mem_cache m) in
  match ExportErr outcome with
  | Some e =>
      if isTotalExportFailure outcome then
        let reason := if errors_is ErrSpillRequired e then spillReasonSpillRequired
                      else if IsTerminal (Some e) then ReasonExportTerminal else reasonProgressing in
        let cs := setSinkReachableFromExport (ie_now env) (is_Conditions s) (vo_Generation inv) (Some e) in
        let cs := setSyncedCondition (vo_Generation inv) false reason (error_text e) (ie_now env) cs in
        let s := set_is_exports (SinkExports outcome) (set_is_conditions cs s) in
        let r := setInventoryDegraded inv s itemCount reason (error_text e) m (events ++ [reason]) (Some outcome) in
        mkInvOutcome (inv_Memory r) (inv_Saved r) (if IsTerminal (Some e) then 0%Z else inv_RequeueAfter r) (inv_Err r)
          (inv_Events r) (inv_Pass r)
      else updateStatus inv s itemCount outcome m (events ++ [reasonExportFailed]) (Some outcome)
  | None => updateStatus inv s itemCount outcome m events (Some outcome)
  end.

(** From the fingerprint to the export, for an inventory whose sinks are
    reachable. [count] is the count of rows read first.
    Go: internal/controller/kollectinventory_controller.go:165-237 [Reconcile, from the fingerprint on] *)
Definition reconcile_export (inv : inventory_obj) (invKey : string) (s : KollectInventoryStatus) (count : nat)
    (store : store_read → Store.StoreState) (m : memory) : inv_outcome :=
  let ns := vo_Namespace inv in
  let snapshot r := (Store.SnapshotNamespace ns (store r)).1 in
  let stop m e := mkInvOutcome m None 0 (Some e) [] None in
  let computed := ItemsFingerprint (snapshot ReadCompute) in
  let '(fingerprint, itemsComputed, cache) :=
    getOrCompute ns (Store.NamespaceVersion ns (store ReadVersion)) (match computed with Ok fp => fp | Err _ => "" end) (mem_cache m) in
  let m := mkMemory (mem_tracker m) cache in
  match (if itemsComputed then computed else Ok fingerprint) with
  | Err e => stop m (ie_envelope_err env e)
  | Ok _ =>
      let bindings := inventorySinkBindings inv in
      let refs := totalInventorySinkRefs inv in
      let '(preview, t) := if decide (0 < refs) then previewAllSinksDebounced inv invKey fingerprint (mem_tracker m)
                           else (None, mem_tracker m) in
      let m := mkMemory t (mem_cache m) in
      match preview with
      | Some outcome => updateStatus inv s count outcome m [] None
      | None =>
          let items := match itemsComputed, snapshot ReadCompute with true, (_ :: _) as items => items | _, _ => snapshot ReadItems end in
          let gate :=
            if hasSnapshotSinkBinding bindings then Ok None
            else match MarshalExportEnvelope (ie_now_marshal env) (snapshot ReadMarshal) (mkMetadata (vo_Generation inv) "" zero_time 0 0) with
                 | Err e => Err (ie_envelope_err env e)
                 | Ok payload => assessExportSpill (ie_sink_type env) (Z.of_nat (String.length payload)) (maxExportBytes inv) bindings
                 end in
          match gate with
          | Err e => stop m e
          | Ok (Some (reason, message)) => setInventoryDegraded inv s count reason message m [] None
          | Ok None =>
              let count := (Store.CountForNamespace ns (store ReadRecount)).1 in
              let '(warned, cs) := noteExportShardWarning (is_Conditions s) (vo_Generation inv) count in
              let s := set_is_conditions cs s in
              let events := if (warned : bool) then [reasonExportShardWarn] else [] in
              if decide (refs = 0) then
                let s := set_is_conditions
                           (setSyncedCondition (vo_Generation inv) true "NoExport" "no family sink refs configured" (ie_now env) (is_Conditions s)) s in
                updateStatus inv s count (empty_outcome (exportDebounce inv)) m events None
              else applyInventoryExportOutcome inv s count invKey items fingerprint m events
          end
      end
  end.

(** The branches of an object that is not being deleted. *)
Definition reconcile_live (inv : inventory_obj) (invKey : string) (m : memory) : inv_outcome :=
  let stop r e := mkInvOutcome m None r e [] None in
  match (if bool_decide (inventoryCleanupFinalizer ∈ vo_Finalizers inv) then None else ie_update env) with
  | Some e => if ie_isConflict env e then stop conflictRequeueAfter None else stop 0%Z (Some e)
  | None =>
      let s := vo_Status inv in
      let count := match ie_store env with
                   | Some store => (Store.CountForNamespace (vo_Namespace inv) (store ReadCount)).1
                   | None => 0
                   end in
      if inv_Suspend (vo_Spec inv) then setInventoryDegraded inv s count "Suspended" "spec.suspend is true" m [] None
      else
        match enforceInventory inv with
        | Some (reason, message) =>
            setInventoryDegraded inv s count reason message m (if decide (reason = scopeReasonLookupFailed) then [] else [reason]) None
        | None =>
            let '(sinkOK, sinkReason, sinkMsg) :=
              checkInventorySinksReachable (ie_sink env) (ie_sink_name env) (inventorySinkBindings inv) in
            let s := set_is_conditions (setSinkReachableCondition (ie_now env) (is_Conditions s) (vo_Generation inv) sinkOK sinkReason sinkMsg) s in
            if negb sinkOK then setInventoryDegraded inv s count sinkReason sinkMsg m [sinkReason] None
            else
              match ie_store env with
              | None => stop 0%Z None
              | Some store => reconcile_export inv invKey s count store m
              end
        end
  end.

(** A deleting object goes to the finalizer, whose best-effort status of a
    terminal failure is the last part of the result.
    Go: internal/controller/kollectinventory_controller.go:113-239 [Reconcile] *)
Definition inventory_Reconcile {W} (cleanup : cleanup_env (W := W)) (recorder registry tenantMode : bool)
    (is_no_match : err → bool) (counterpart : nat → option err) (text : string) (invKey : string) (m : memory) (w : W) :
    inv_outcome * option finalize_result * W :=
  match ie_get env with
  | Err e => (mkInvOutcome m None 0 (if api_IsNotFound e then None else Some e) [] None, None, w)
  | Ok inv =>
      if vo_Deleting inv then
        let '(f, w) :=
          finalizeInventoryDeletion cleanup (ie_isConflict env) (ie_update env) recorder registry (exportDebounce inv)
            inventoryCleanupFinalizer (vo_Finalizers inv) (vo_Annotations inv) (vo_Namespace inv) (inventorySinkBindings inv)
            (inventory_target is_no_match tenantMode (vo_Namespace inv) (vo_Name inv) (vo_Generation inv)
               (is_SinkExports (vo_Status inv)) counterpart) w in
        let saved := if decide (fin_requeue f = Some terminalCleanupRequeue ∧ fin_err f = None)
                     then inv_Saved (setInventoryDegraded inv (vo_Status inv) (is_ItemCount (vo_Status inv)) "CleanupTerminal" text m [] None)
                     else None in
        (mkInvOutcome m saved (default 0%Z (fin_requeue f)) (fin_err f) [] None, Some f, w)
      else (reconcile_live inv invKey m, None, w)
  end.
End reconcile.

(** * Lemmas *)

(** ** Admission *)

Lemma validate_refs_names dns cap base allow seen i refs :
  validate_refs dns cap base allow seen i refs = [] →
  NoDup (ref_Name <$> refs) ∧ Forall (λ r, ref_Name r ∉ seen) refs.
Proof.
  revert seen i. induction refs as [|ref refs IH]; intros seen i; [by split; constructor|]. cbn [validate_refs].
  intros (Hn & (Hd & (_ & (_ & (_ & Hr)%List.app_eq_nil)%List.app_eq_nil)%List.app_eq_nil)%List.app_eq_nil)%List.app_eq_nil.
  assert (ref_Name ref ≠ "") as Hne.
  { intros Heq. unfold validateSameNamespaceRef in Hn. by rewrite Heq in Hn. }
  rewrite bool_decide_true in Hd by done. rewrite decide_True in Hr by done. apply IH in Hr as [Hnd Hs].
  rewrite Forall_forall in Hs. split.
  - rewrite fmap_cons. constructor; [|done]. intros (r & Heq & Hin)%list_elem_of_fmap. apply (Hs r Hin). rewrite <- Heq. set_solver.
  - constructor; [cbn in Hd; by case_bool_decide|]. apply Forall_forall. intros r Hin. specialize (Hs r Hin). set_solver.
Qed.

Lemma refs_NoDup dns cap refs base : ValidateInventorySinkRefs dns cap refs base = [] → NoDup (ref_Name <$> refs).
Proof. unfold ValidateInventorySinkRefs, validateInventorySinkRefs. intros [_ Hr]%List.app_eq_nil. by eapply validate_refs_names. Qed.

Lemma family_keys family (refs : InventorySinkRefList) :
  sinkExportKey <$> ((λ r, mkInventorySinkBinding (ref_Name r) family r) <$> refs) = (λ n, family +:+ "/" +:+ n) <$> (ref_Name <$> refs).
Proof. by rewrite <- !list_fmap_compose. Qed.

Lemma family_keys_NoDup family names : NoDup names → NoDup ((λ n, family +:+ "/" +:+ n) <$> names).
Proof. apply NoDup_fmap_2. intros a b Heq. apply string_app_inj in Heq. by injection Heq. Qed.

(** The bound sinks of an admitted inventory have distinct keys. *)
Lemma admitted_keys dns cap spec :
  ValidateInventorySpec dns cap (Some spec) = [] → NoDup (sinkExportKey <$> CollectInventorySinkBindings spec).
Proof.
  cbn [ValidateInventorySpec]. intros [Hf _]%List.app_eq_nil. unfold validateInventoryFamilySinkRefs in Hf. case_decide; [done|].
  apply List.app_eq_nil in Hf as [H1 [H2 H3]%List.app_eq_nil]. apply refs_NoDup in H1, H2, H3.
  unfold CollectInventorySinkBindings, collectSinkBindings. rewrite !fmap_app, !family_keys.
  apply NoDup_app. split_and!; [by apply family_keys_NoDup| |apply NoDup_app; split_and!; [by apply family_keys_NoDup| |by apply family_keys_NoDup]].
  - intros k (n & -> & _)%list_elem_of_fmap. rewrite elem_of_app, !list_elem_of_fmap. intros [(? & ? & _)|(? & ? & _)]; done.
  - intros k (n & -> & _)%list_elem_of_fmap. rewrite list_elem_of_fmap. intros (? & ? & _); done.
Qed.

Lemma admitted_debounce dns cap inv : ValidateInventorySpec dns cap (Some (vo_Spec inv)) = [] → (0 ≤ exportDebounce inv)%Z.
Proof.
  cbn [ValidateInventorySpec]. intros [_ [Hi _]%List.app_eq_nil]%List.app_eq_nil. rewrite ValidateOptionalDurationInterval_nil in Hi.
  unfold exportDebounce, ExportMinIntervalFor, InventoryDefaultInterval. cbn.
  destruct (inv_ExportMinInterval (vo_Spec inv)) as [d|]; [destruct (Hi d eq_refl); lia|done].
Qed.

Lemma total_refs_length inv : totalInventorySinkRefs inv = length (inventorySinkBindings inv).
Proof.
  unfold totalInventorySinkRefs, inventorySinkBindings, CollectInventorySinkBindings, collectSinkBindings.
  rewrite !List.length_app, !length_fmap. cbn. lia.
Qed.

(** ** The baselines a reconcile leaves *)
Section properties.
Context `{!UnicodeCase, !Yaml, !SortFunc, !Sha256, !JsonDecode, !ApiErrors, !GitErrorApi, !ErrorTexts, !MapRange}.
Context `{!ConditionApi, !ConditionLib, !ConditionLaws}.

Definition keys_of (inv : inventory_obj) : list string := sinkExportKey <$> inventorySinkBindings inv.

(** No baseline of the inventory is new. *)
Definition inherits (invKey : string) (t0 t : gmap string sinkCoalesceState) : Prop :=
  ∀ k s, t !! key invKey k = Some s → ∃ s0, t0 !! key invKey k = Some s0 ∧ state_inputs s0 = state_inputs s.

(** Every baseline is new and shown in [exports], or was there before and, if its
    sink is bound, is shown as before. *)
Definition settles (invKey : string) (inv : inventory_obj) (t0 t : gmap string sinkCoalesceState)
    (exports : list InventorySinkExportStatus) : Prop :=
  ∀ k s, t !! key invKey k = Some s →
    (k ∈ keys_of inv ∧ shown exports k s ∧ lastGeneration s = vo_Generation inv ∧ inventoryUID (identity s) = vo_UID inv) ∨
    (∃ s0, t0 !! key invKey k = Some s0 ∧ state_inputs s0 = state_inputs s ∧
           (k ∈ keys_of inv → shown (is_SinkExports (vo_Status inv)) k s → shown exports k s)).

Lemma inherits_refl invKey t : inherits invKey t t.
Proof. intros k s Hs. eauto. Qed.

Lemma inherits_trans invKey t0 t1 t2 : inherits invKey t0 t1 → inherits invKey t1 t2 → inherits invKey t0 t2.
Proof. intros H01 H12 k s (s1 & (s0 & ? & ?)%H01 & ?)%H12. exists s0. split; [done|congruence]. Qed.

Lemma inherits_settles invKey inv t0 t : inherits invKey t0 t → settles invKey inv t0 t (is_SinkExports (vo_Status inv)).
Proof. intros Ht k s (s0 & ? & ?)%Ht. right. by exists s0. Qed.

Lemma settles_trans invKey inv t0 t1 t2 exports :
  inherits invKey t0 t1 → settles invKey inv t1 t2 exports → settles invKey inv t0 t2 exports.
Proof.
  intros H01 H12 k s [?|(s1 & (s0 & ? & ?)%H01 & ? & ?)]%H12; [by left|]. right. exists s0. split_and!; [done|congruence|done].
Qed.

(** The entries of sinks that were not exported show what they showed. *)
Lemma carried_shown env exports k s :
  (∃ st, find_status k exports = Some st ∧ export_record st = carried env k) → shown (pe_previous env) k s → shown exports k s.
Proof.
  intros (st & Hf & Hr) (st0 & Hf0 & Hc & Ht). unfold carried in Hr. rewrite Hf0 in Hr. exists st.
  unfold export_record in Hr. injection Hr as Hr1 Hr2 _. split_and!; [done|congruence|by rewrite Hr1].
Qed.

Lemma pass_settles env invKey inv t0 o t :
  pe_invKey env = invKey → pe_invUID env = vo_UID inv → pe_generation env = vo_Generation inv →
  pe_previous env = is_SinkExports (vo_Status inv) →
  pass_report env (keys_of inv) (o, t) → pass_trace env t0 [] o t → settles invKey inv t0 t (SinkExports o).
Proof.
  intros Hk Hu Hg Hp (deb & Hperm & _ & _ & Hn & _ & _ & Hrec) [Hb _ _ _] k s Hs. rewrite <- Hk in Hs.
  destruct (Hb k s Hs) as [(Hx & Hsh & Hgen & Hid)|(Hx & s0 & Hs0 & Hi)].
  - left. split_and!; [rewrite <- Hperm, !elem_of_app; tauto|done|congruence|congruence].
  - right. exists s0. rewrite <- Hk. split_and!; [done|done|]. intros Hin Hsh. rewrite <- Hp in Hsh.
    apply (carried_shown env); [|done]. apply Hrec. rewrite <- Hperm, !elem_of_app in Hin. rewrite elem_of_app. tauto.
Qed.

Lemma forget_all_lookup inv ks k t :
  foldl (λ t k, forget inv k t) t ks !! key inv k = if decide (k ∈ ks) then None else t !! key inv k.
Proof.
  revert t. induction ks as [|k' ks IH]; intros t; [done|]. cbn [foldl]. rewrite IH.
  destruct (decide (k = k')) as [->|Hne].
  - rewrite forget_lookup_self. rewrite (decide_True (P := k' ∈ k' :: ks)) by (by left). by case_decide.
  - rewrite forget_lookup_other by done. apply decide_ext. rewrite elem_of_cons. naive_solver.
Qed.

(** Forgetting the exports of a pass leaves only baselines from before it. *)
Lemma forget_inherits env invKey t0 o t :
  pe_invKey env = invKey → pass_trace env t0 [] o t → inherits invKey t0 (forgetUnpersistedExports o t).
Proof.
  intros <- [Hb _ Ht _] k s Hs. unfold forgetUnpersistedExports in Hs.
  destruct (decide (exportedSinks o = [])) as [Hnil|Hne].
  - rewrite Hnil in Hs. destruct (Hb k s Hs) as [[Hx _]|[_ ?]]; [rewrite Hnil in Hx; by apply elem_of_nil in Hx|done].
  - rewrite (Ht Hne), forget_all_lookup in Hs. destruct (decide (k ∈ exportedSinks o)); [done|].
    destruct (Hb k s Hs) as [[Hx _]|[_ ?]]; done.
Qed.

Lemma unexported_inherits env invKey t0 o t :
  pe_invKey env = invKey → exportedSinks o = [] → pass_trace env t0 [] o t → inherits invKey t0 t.
Proof.
  intros <- Hnil [Hb _ _ _] k s Hs. destruct (Hb k s Hs) as [[Hx _]|[_ ?]]; [rewrite Hnil in Hx; by apply elem_of_nil in Hx|done].
Qed.

(** ** The preview *)

Variable env : inv_env.

Lemma skip_inherits invKey k i interval now t : inherits invKey t (shouldSkip invKey k i interval now t).2.
Proof.
  intros k' s Hs. destruct (DebounceSpec.shouldSkip_effect invKey k i interval now t) as [He|(s1 & s2 & Hs1 & Hi & _ & He)]; rewrite He in Hs; [eauto|].
  apply lookup_insert_Some in Hs as [[Hk <-]|[_ Hs]]; [|eauto]. rewrite <- Hk. exists s1. split; [done|congruence].
Qed.

Lemma preview_trace inv invKey checksum interval floor n bindings o t (pe := inventory_pass_env env inv invKey [] "") t0 seen deb r t' :
  pass_inv pe seen deb [] o t → NoDup (seen ++ (sinkExportKey <$> bindings)) → pass_trace pe t0 [] o t →
  failedSinks o = [] → exportedSinks o = [] →
  preview_bindings env inv invKey checksum interval floor n bindings o t = (r, t') →
  inherits invKey t t' ∧
  ∀ o', r = Some o' → (∃ deb', pass_inv pe (seen ++ (sinkExportKey <$> bindings)) deb' [] o' t') ∧ pass_trace pe t0 [] o' t' ∧
    failedSinks o' = [] ∧ exportedSinks o' = [].
Proof.
  revert n o t seen deb. induction bindings as [|b bindings IH]; intros n o t seen deb Hi Hnd Htr Hf Hx; cbn [preview_bindings].
  { intros [= <- <-]. split; [apply inherits_refl|]. intros o' [= <-]. cbn. rewrite List.app_nil_r. eauto. }
  rewrite fmap_cons in Hnd |- *. set (k := sinkExportKey b) in *.
  assert (k ∉ seen) as Hk. { intros Hin. apply NoDup_app in Hnd as (_ & Hn & _). apply (Hn _ Hin). by left. }
  pose proof (seeded_fresh pe k (SinkExports o)) as Hse. rewrite (pi_names _ _ _ _ _ _ Hi) in Hse. specialize (Hse Hk).
  change (pe_previous pe) with (is_SinkExports (vo_Status inv)) in Hse. set (E' := alter_status k _ _) in Hse.
  change (set_exports _ (set_exports _ o)) with (set_exports (λ _, E') o).
  destruct (ie_resolve_preview env n) as [resolved|e]; [|intros [= <- <-]; split; [apply inherits_refl|done]].
  cbv zeta. set (iv := ResolveSinkExportInterval _ _ _ _). set (i := mkInputs _ _ _ _).
  destruct (shouldSkip invKey k i iv (ie_now_preview env) t) as [skip t1] eqn:Hskip.
  assert (t1 = (shouldSkip invKey k i iv (ie_now_preview env) t).2) as Ht1 by (by rewrite Hskip).
  assert (inherits invKey t t1) as Hin by (rewrite Ht1; apply skip_inherits).
  destruct skip; [|intros [= <- <-]; split; [done|done]]. intros Hp.
  pose proof (trace_seed pe _ _ _ _ k E' Htr) as Htr1. rewrite (pi_names _ _ _ _ _ _ Hi) in Htr1. specialize (Htr1 Hk Hse).
  rewrite (cons_middle k), List.app_assoc in Hnd |- *.
  eapply (IH _ _ _ _ (deb ++ [k])) in Hp as [Hin' Hsome]; [split; [by eapply inherits_trans|exact Hsome]| |exact Hnd| |done|done].
  - rewrite Ht1. apply (inv_debounce_fresh pe seen deb [] o); [done|done|]. apply seeded_alter; [apply setSinkExportDebounced_keeps|exact Hse].
  - rewrite Ht1. apply (trace_skip pe _ _ [] _ _ k i iv (ie_now_preview env) _ _ Htr1);
      [by intros k' ?%list_elem_of_singleton; left|cbn; rewrite ?Hx, ?Hf; apply not_elem_of_nil..|apply nextDue_positive].
Qed.

(** What a preview that skips the export promises is what a pass in which every
    sink is debounced reports. *)
Lemma preview_report inv invKey checksum t r t' (pe := inventory_pass_env env inv invKey [] "") :
  NoDup (keys_of inv) → (0 ≤ exportDebounce inv)%Z → previewAllSinksDebounced env inv invKey checksum t = (r, t') →
  inherits invKey t t' ∧
  ∀ o, r = Some o → pass_report pe (keys_of inv) (o, t') ∧ pass_trace pe t [] o t' ∧ failedSinks o = [] ∧ exportedSinks o = [].
Proof.
  intros Hnd Hd. unfold previewAllSinksDebounced. unfold keys_of in *. destruct (inventorySinkBindings inv) as [|b bs] eqn:Hb.
  { intros [= <- <-]. split; [apply inherits_refl|done]. }
  destruct (preview_bindings _ _ _ _ _ _ _ _ _ _) as [r1 t1] eqn:Hp.
  eapply (preview_trace _ _ _ _ _ _ _ _ _ t [] []) in Hp as [Hin Hsome];
    [|apply (pass_inv_empty pe)|exact Hnd|by apply (trace_empty pe)|done|done].
  destruct r1 as [o|]; intros [= <- <-]; (split; [exact Hin|]); [|done]. intros o'. case_decide; [|done]. intros [= <-].
  destruct (Hsome o eq_refl) as ([deb Hi] & Htr & Hf & Hx). split_and!; [|done..]. by eapply pass_inv_report.
Qed.

(** ** The status *)

Definition up_to_date (s : KollectInventoryStatus) (k : string) : Prop :=
  ∃ st c, find_status k (is_SinkExports s) = Some st ∧
    FindStatusCondition (st_Conditions st) conditionSynced = Some c ∧ cond_Status c = ConditionTrue.

(** What a written status says of the bound sinks: Ready is true, Degraded absent
    and at least one sink up to date, all of them when the reason is Exported; or
    Ready is false or absent and Degraded is true. *)
Definition inventory_truthful (inv : inventory_obj) (s : KollectInventoryStatus) : Prop :=
  is_ObservedGeneration s = vo_Generation inv ∧
  (0 < totalInventorySinkRefs inv →
   match FindStatusCondition (is_Conditions s) conditionReady with
   | Some c =>
       st_Name <$> is_SinkExports s = keys_of inv ∧
       if decide (cond_Status c = ConditionTrue) then
         FindStatusCondition (is_Conditions s) conditionDegraded = None ∧
         (∃ k, k ∈ keys_of inv ∧ up_to_date s k) ∧
         (cond_Reason c = reasonExported ↔ ∀ k, k ∈ keys_of inv → up_to_date s k)
       else
         (∃ d, FindStatusCondition (is_Conditions s) conditionDegraded = Some d ∧ cond_Status d = ConditionTrue) ∧
         (∃ k, k ∈ keys_of inv ∧ ¬ up_to_date s k)
   | None => ∃ d, FindStatusCondition (is_Conditions s) conditionDegraded = Some d ∧ cond_Status d = ConditionTrue
   end).

Lemma find_aggregate_other gen exported debounced failed now cs t :
  t ≠ conditionSynced → FindStatusCondition (aggregateInventorySync gen exported debounced failed now cs) t = FindStatusCondition cs t.
Proof. intros Ht. unfold aggregateInventorySync. repeat case_decide; by apply find_synced_other. Qed.

(** The entries of a pass: a bound sink is up to date when it did not fail. *)
Lemma pass_up_to_date pe inv s o t t0 k :
  pass_report pe (keys_of inv) (o, t) → pass_trace pe t0 [] o t → is_SinkExports s = SinkExports o → k ∈ keys_of inv →
  up_to_date s k ↔ k ∉ failedSinks o.
Proof.
  intros (deb & Hperm & _ & _ & Hn & _) [_ Hs _ _] He Hin. unfold up_to_date. rewrite He.
  destruct (find_status k (SinkExports o)) as [st|] eqn:Hf.
  2: { apply find_status_None in Hf. by rewrite Hn in Hf. }
  destruct (Hs k st Hf) as (c & Hc & Hst); [apply not_elem_of_nil|]. split.
  - intros (st' & c' & [= <-] & Hc' & Ht) Hx. rewrite Hc in Hc'. injection Hc' as <-. rewrite Hst, decide_True in Ht by done. done.
  - intros Hx. exists st, c. rewrite decide_False in Hst by done. done.
Qed.

Lemma degraded_saved inv s0 count reason message m events pass s :
  inv_Saved (setInventoryDegraded env inv s0 count reason message m events pass) = Some s →
  inventory_truthful inv s ∧ is_SinkExports s = is_SinkExports s0.
Proof.
  unfold setInventoryDegraded, status_update. destruct (ie_status env) as [e|]; [by destruct (ie_isConflict env e)|].
  cbn [inv_Saved]. intros [= <-]. split; [|done]. split; [done|]. intros _. cbn [is_Conditions].
  set (cs := setSyncedCondition _ _ _ _ _ _).
  set (c := mkCondition conditionDegraded _ _ _ _ _).
  rewrite find_set_other by done. unfold cs. rewrite find_synced_other, find_remove by done.
  destruct (find_set cs c) as (d & Hd & _ & Hst & _). exists d. split; [exact Hd|exact Hst].
Qed.

Lemma length_pos_elem {A} (l : list A) : 0 < length l → ∃ x, x ∈ l.
Proof. destruct l as [|x l]; cbn; [lia|]. exists x. by left. Qed.

(** The two ways Ready ends up true, and the one it ends up false. *)
Lemma ready_true cs c : let cs := SetStatusCondition (RemoveStatusCondition cs conditionDegraded) c in
  cond_Type c = conditionReady → cond_Status c = ConditionTrue →
  FindStatusCondition cs conditionDegraded = None ∧
  ∃ r, FindStatusCondition cs conditionReady = Some r ∧ cond_Status r = ConditionTrue ∧ cond_Reason r = cond_Reason c.
Proof.
  cbv zeta. intros Ht Hs. rewrite find_set_other by (by rewrite Ht). rewrite find_remove. split; [done|].
  destruct (find_set (RemoveStatusCondition cs conditionDegraded) c) as (r & Hf & _ & Hst & Hre & _).
  rewrite Ht in Hf. exists r. split_and!; [done|congruence|done].
Qed.

Lemma ready_false cs d c : let cs := SetStatusCondition (SetStatusCondition cs d) c in
  cond_Type d = conditionDegraded → cond_Status d = ConditionTrue → cond_Type c = conditionReady → cond_Status c = ConditionFalse →
  (∃ r, FindStatusCondition cs conditionDegraded = Some r ∧ cond_Status r = ConditionTrue) ∧
  ∃ r, FindStatusCondition cs conditionReady = Some r ∧ cond_Status r = ConditionFalse.
Proof.
  cbv zeta. intros Htd Hsd Htc Hsc. rewrite find_set_other by (by rewrite Htc). split.
  - destruct (find_set cs d) as (r & Hf & _ & Hst & _). rewrite Htd in Hf. exists r. split; [done|congruence].
  - destruct (find_set (SetStatusCondition cs d) c) as (r & Hf & _ & Hst & _). rewrite Htc in Hf. exists r. split; [done|congruence].
Qed.

Lemma updated_saved pe inv s0 count o t0 t m events pass s :
  0 < totalInventorySinkRefs inv → NoDup (keys_of inv) → pass_report pe (keys_of inv) (o, t) → pass_trace pe t0 [] o t →
  inv_Saved (updateStatus env inv s0 count o m events pass) = Some s →
  inventory_truthful inv s ∧ is_SinkExports s = SinkExports o.
Proof.
  intros Hrefs Hnd Hrep Htr. unfold updateStatus, status_update. rewrite bool_decide_true by done.
  destruct (pass_conditions env inv count o (is_Conditions s0)) as [cs more] eqn:Hcs.
  destruct (ie_status env) as [e|]; [by destruct (ie_isConflict env e)|].
  cbn [inv_Saved]. intros [= <-]. split; [|done]. set (s := mkInventoryStatus _ _ _ _ _).
  pose proof (λ k, pass_up_to_date pe inv s o t t0 k Hrep Htr eq_refl) as Hup.
  destruct Hrep as (deb & Hperm & [= Hd Hf Hx] & Herr & Hn & _).
  assert (∀ k, k ∈ failedSinks o ∨ k ∈ exportedSinks o → k ∈ keys_of inv) as Hin.
  { intros k. rewrite <- Hperm, !elem_of_app. tauto. }
  assert (∀ k, k ∈ exportedSinks o → k ∉ failedSinks o) as Hdisj.
  { rewrite <- Hperm in Hnd. apply NoDup_app in Hnd as (_ & _ & (_ & Hfx & _)%NoDup_app). intros k Hk Hk'. by apply (Hfx k). }
  split; [done|]. intros _. cbn [is_Conditions s is_SinkExports]. unfold pass_conditions in Hcs.
  set (base := aggregateInventorySync _ _ _ _ _ _) in Hcs.
  destruct (decide (FailedCount o = 0 ∧ ExportErr o = None)) as [[Hf0 He0]|Hnot].
  { injection Hcs as <- _. set (c := mkCondition conditionReady _ _ _ _ _).
    destruct (ready_true base c eq_refl eq_refl) as (-> & r & -> & Hr & Hreason). rewrite decide_True by done.
    assert (∀ k, k ∈ keys_of inv → up_to_date s k) as Hall.
    { intros k Hk. apply (Hup k Hk). apply Herr in He0. rewrite He0. apply not_elem_of_nil. }
    split_and!; [done|done| |].
    - destruct (length_pos_elem (keys_of inv)) as [k Hk]; [unfold keys_of; rewrite length_fmap, <- total_refs_length; done|]. eauto.
    - by rewrite Hreason. }
  assert (0 < length (failedSinks o)) as Hfl.
  { destruct (failedSinks o) as [|k l] eqn:Hl; [|cbn; lia]. destruct Hnot. split; [cbn in Hf; lia|]. by apply Herr. }
  destruct (length_pos_elem _ Hfl) as [kf Hkf].
  destruct (decide (0 < ExportedCount o)) as [Hpos|Hzero].
  { injection Hcs as <- _. set (c := mkCondition conditionReady _ _ _ _ _).
    destruct (ready_true base c eq_refl eq_refl) as (-> & r & -> & Hr & Hreason). rewrite decide_True by done.
    rewrite Hx in Hpos. destruct (length_pos_elem _ Hpos) as [kx Hkx]. split_and!; [done|done| |].
    - exists kx. split; [by apply Hin; right|]. apply Hup; [by apply Hin; right|by apply Hdisj].
    - rewrite Hreason. cbn [c cond_Reason]. split; [done|]. intros Hall.
      assert (kf ∈ keys_of inv) as Hkin by (by apply Hin; left). by apply (Hup kf Hkin) in Hkf; [|apply Hall]. }
  rewrite decide_True in Hcs by lia. injection Hcs as <- _.
  set (d := mkCondition conditionDegraded _ _ _ _ _). set (c := mkCondition conditionReady _ _ _ _ _).
  destruct (ready_false base d c eq_refl eq_refl eq_refl eq_refl) as (Hdeg & r & -> & Hr).
  rewrite decide_False by (by rewrite Hr). split_and!; [done|done|].
  assert (kf ∈ keys_of inv) as Hkin by (by apply Hin; left). exists kf. split; [done|]. intros Hu. by apply (Hup kf Hkin) in Hu.
Qed.

(** ** One reconcile *)

(** A failed export is tried again: with an error, at a set time, or not at all
    when every sink failed for good. *)
Definition retried (r : inv_outcome) : Prop :=
  ∀ o, inv_Pass r = Some o → 0 < FailedCount o →
    is_Some (inv_Err r) ∨ (0 < inv_RequeueAfter r)%Z ∨ (isTotalExportFailure o = true ∧ IsTerminal (ExportErr o) = true).

Definition reconciled_ok (invKey : string) (inv : inventory_obj) (t0 : gmap string sinkCoalesceState) (r : inv_outcome) : Prop :=
  match inv_Saved r with
  | Some s => inventory_truthful inv s ∧ settles invKey inv t0 (mem_tracker (inv_Memory r)) (is_SinkExports s)
  | None => inherits invKey t0 (mem_tracker (inv_Memory r))
  end ∧ retried r.

Lemma conflict_positive : (0 < conflictRequeueAfter)%Z.
Proof. done. Qed.

Lemma stopped_ok invKey inv t0 m requeue e events :
  inherits invKey t0 (mem_tracker m) → reconciled_ok invKey inv t0 (mkInvOutcome m None requeue e events None).
Proof. by split. Qed.

Lemma degraded_ok invKey inv t0 s0 count reason message m events :
  is_SinkExports s0 = is_SinkExports (vo_Status inv) → inherits invKey t0 (mem_tracker m) →
  reconciled_ok invKey inv t0 (setInventoryDegraded env inv s0 count reason message m events None).
Proof.
  intros He Hin. pose proof (degraded_saved inv s0 count reason message m events None) as Hs.
  unfold setInventoryDegraded, status_update in *. destruct (ie_status env) as [e|].
  - destruct (ie_isConflict env e); by apply stopped_ok.
  - destruct (Hs _ eq_refl) as [Ht _]. split; [|done]. split; [exact Ht|]. cbn [is_SinkExports inv_Memory]. rewrite He.
    by apply inherits_settles.
Qed.

Lemma requeue_positive pe t0 o t inv :
  pass_trace pe t0 [] o t → (0 < ExportedCount o ∨ 0 < DebouncedCount o) →
  (0 < (if decide (RequeueAfter o ≤ 0)%Z then exportDebounce inv else RequeueAfter o))%Z.
Proof. intros [_ _ _ [_ [Hp|[? ?]]]] Hc; [rewrite decide_False by lia; done|lia]. Qed.

Lemma updated_ok invKey inv t0 t1 t items fp s0 count o cache events pass (pe := inventory_pass_env env inv invKey items fp) :
  0 < totalInventorySinkRefs inv → NoDup (keys_of inv) → inherits invKey t0 t1 →
  pass_report pe (keys_of inv) (o, t) → pass_trace pe t1 [] o t →
  (pass = None ∨ pass = Some o ∧ (0 < FailedCount o → 0 < ExportedCount o ∨ 0 < DebouncedCount o)) →
  reconciled_ok invKey inv t0 (updateStatus env inv s0 count o (mkMemory t cache) events pass).
Proof.
  intros Hrefs Hnd H01 Hrep Htr Hpass.
  pose proof (λ s, updated_saved pe inv s0 count o t1 t (mkMemory t cache) events pass s Hrefs Hnd Hrep Htr) as Hs.
  unfold updateStatus, status_update in *. rewrite bool_decide_true in * by done.
  destruct (pass_conditions env inv count o (is_Conditions s0)) as [cs more].
  destruct (ie_status env) as [e|].
  - pose proof (forget_inherits pe invKey t1 o t eq_refl Htr) as Hin.
    destruct (ie_isConflict env e); (split; [by eapply inherits_trans|]); intros o' _ _; cbn;
      [right; left; apply conflict_positive|left; eauto].
  - destruct (Hs _ eq_refl) as [Ht _]. split.
    + split; [exact Ht|]. cbn [is_SinkExports inv_Memory mem_tracker]. eapply settles_trans; [exact H01|].
      by eapply (pass_settles pe).
    + intros o' Ho Hf. cbn [inv_Pass] in Ho. destruct Hpass as [->|[-> Hcnt]]; [done|]. injection Ho as <-.
      right. left. cbn [inv_RequeueAfter]. eapply requeue_positive; [exact Htr|auto].
Qed.

Lemma keys_nil inv : totalInventorySinkRefs inv = 0 → keys_of inv = [].
Proof. rewrite total_refs_length. unfold keys_of. by intros ->%length_zero_iff_nil. Qed.

(** Without bound sinks nothing is exported and nothing is shown. *)
Lemma no_sinks_ok invKey inv t0 s0 count m requeue events :
  totalInventorySinkRefs inv = 0 → inherits invKey t0 (mem_tracker m) →
  reconciled_ok invKey inv t0 (updateStatus env inv s0 count (empty_outcome requeue) m events None).
Proof.
  intros Hz Hin. unfold updateStatus, status_update. rewrite bool_decide_false by lia.
  destruct (ie_status env) as [e|]; [by destruct (ie_isConflict env e); split|]. split; [|done]. split; [split; [done|lia]|].
  intros k s (s' & ? & ?)%Hin. right. exists s'. split_and!; [done|done|]. rewrite (keys_nil inv Hz). by intros ?%elem_of_nil.
Qed.

Lemma total_failure o : isTotalExportFailure o = true → ExportedCount o = 0 ∧ DebouncedCount o = 0.
Proof. unfold isTotalExportFailure. intros H'. apply andb_prop in H' as [[_ Hx]%andb_prop Hd]. by apply bool_decide_eq_true in Hx, Hd. Qed.

Lemma applied_ok invKey inv t0 s0 count items fp m events :
  0 < totalInventorySinkRefs inv → NoDup (keys_of inv) → (∀ jobs, ie_schedule env jobs ≡ₚ jobs) → (0 ≤ exportDebounce inv)%Z →
  inherits invKey t0 (mem_tracker m) →
  reconciled_ok invKey inv t0 (applyInventoryExportOutcome env inv s0 count invKey items fp m events).
Proof.
  intros Hrefs Hnd Hsched Hd Hin. unfold applyInventoryExportOutcome. set (pe := inventory_pass_env env inv invKey items fp).
  destruct (namespaced_pass pe (ie_schedule env) (inventorySinkBindings inv) (mem_tracker m) Hnd Hsched Hd) as [Hrep Htr].
  destruct (exportToSinks pe _ _ _) as [o t]. cbn [fst snd] in Htr. fold (keys_of inv) in Hrep.
  pose proof Hrep as (deb & _ & [= Hdc Hfc Hxc] & Herr & _).
  destruct (ExportErr o) as [e|] eqn:He.
  2: { eapply updated_ok; [done|done|exact Hin|exact Hrep|exact Htr|]. right. split; [done|].
       rewrite (proj1 Herr eq_refl) in Hfc. cbn in Hfc. lia. }
  destruct (isTotalExportFailure o) eqn:Htot.
  - pose proof (total_failure o Htot) as [Hx0 Hd0].
    assert (exportedSinks o = []) as Hxs by (apply length_zero_iff_nil; lia).
    pose proof (unexported_inherits pe invKey _ o t eq_refl Hxs Htr) as Hin'.
    pose proof (pass_settles pe invKey inv _ o t eq_refl eq_refl eq_refl eq_refl Hrep Htr) as Hset.
    match goal with |- context [setInventoryDegraded env inv ?s ?c ?r ?msg ?mm ?ev ?p] =>
      pose proof (degraded_saved inv s c r msg mm ev p) as Hs end.
    unfold setInventoryDegraded, status_update in *. destruct (ie_status env) as [er|].
    + destruct (ie_isConflict env er); (split; [by eapply inherits_trans|]); intros o' [= <-] _; cbn; [|left; eauto].
      destruct (IsTerminal (Some e)) eqn:Hterm; [right; right; by rewrite He|right; left; apply conflict_positive].
    + destruct (Hs _ eq_refl) as [Ht _]. split; [split; [exact Ht|]|].
      * cbn. eapply settles_trans; [exact Hin|exact Hset].
      * intros o' [= <-] _. cbn. destruct (IsTerminal (Some e)) eqn:Hterm; [right; right; by rewrite He|].
        right. left. apply RequeueAfterForZeroInterval_pos.
  - eapply updated_ok; [done|done|exact Hin|exact Hrep|exact Htr|]. right. split; [done|]. intros _.
    unfold isTotalExportFailure in Htot. rewrite He, (bool_decide_true (Some e ≠ None)) in Htot by done. cbn in Htot.
    apply andb_false_iff in Htot as [Hz|Hz]; apply bool_decide_eq_false in Hz; lia.
Qed.

Lemma export_ok invKey inv s0 count store m :
  NoDup (keys_of inv) → (∀ jobs, ie_schedule env jobs ≡ₚ jobs) → (0 ≤ exportDebounce inv)%Z →
  is_SinkExports s0 = is_SinkExports (vo_Status inv) →
  reconciled_ok invKey inv (mem_tracker m) (reconcile_export env inv invKey s0 count store m).
Proof.
  intros Hnd Hsched Hd Hs0. unfold reconcile_export.
  destruct (getOrCompute _ _ _ _) as [[fp computed] cache]. cbn [mem_tracker mem_cache].
  set (fres := if computed then _ else _). destruct fres as [x|x]; [|apply stopped_ok, inherits_refl].
  destruct (if decide (0 < totalInventorySinkRefs inv) then _ else _) as [preview t] eqn:Hpre.
  assert (inherits invKey (mem_tracker m) t ∧ ∀ o, preview = Some o → 0 < totalInventorySinkRefs inv ∧
    let pe := inventory_pass_env env inv invKey [] "" in pass_report pe (keys_of inv) (o, t) ∧ pass_trace pe (mem_tracker m) [] o t)
    as [Hin Hprev].
  { destruct (decide (0 < totalInventorySinkRefs inv)).
    - destruct (preview_report _ _ _ _ _ _ Hnd Hd Hpre) as [? Hp]. split; [done|]. intros o Ho. split; [done|].
      by destruct (Hp o Ho) as (? & ? & _).
    - injection Hpre as <- <-. split; [apply inherits_refl|done]. }
  destruct preview as [o|].
  { destruct (Hprev o eq_refl) as (Hrefs & Hrep & Htr). eapply updated_ok; [done|done|apply inherits_refl|exact Hrep|exact Htr|by left]. }
  set (gate := if hasSnapshotSinkBinding _ then _ else _). destruct gate as [[[reason message]|]|e];
    [by apply degraded_ok| |by apply stopped_ok].
  destruct (noteExportShardWarning _ _ _ _) as [warned cs].
  destruct (decide (totalInventorySinkRefs inv = 0)) as [Hz|Hz]; [by apply no_sinks_ok|].
  apply applied_ok; [lia|done..].
Qed.

Lemma live_ok invKey inv m :
  NoDup (keys_of inv) → (∀ jobs, ie_schedule env jobs ≡ₚ jobs) → (0 ≤ exportDebounce inv)%Z →
  reconciled_ok invKey inv (mem_tracker m) (reconcile_live env inv invKey m).
Proof.
  intros Hnd Hsched Hd. unfold reconcile_live.
  destruct (if bool_decide _ then None else ie_update env) as [e|].
  { destruct (ie_isConflict env e); apply stopped_ok, inherits_refl. }
  set (count := match ie_store env with Some _ => _ | None => _ end).
  destruct (inv_Suspend (vo_Spec inv)); [apply degraded_ok; [done|apply inherits_refl]|].
  destruct (enforceInventory env inv) as [[reason message]|]; [apply degraded_ok; [done|apply inherits_refl]|].
  destruct (checkInventorySinksReachable _ _ _) as [[[|] reason] message]; cbn [negb];
    [|apply degraded_ok; [done|apply inherits_refl]].
  destruct (ie_store env) as [store|]; [by apply export_ok|apply stopped_ok, inherits_refl].
Qed.

(** C8. A status the inventory reconciler writes is true of the sinks. For an
    admitted inventory with bound sinks, in whatever order the exports finish:
    Ready is true only when Degraded is gone and a sink is up to date, with the
    reason Exported exactly when every bound sink's entry is Synced; a Ready that
    is false comes with Degraded and a sink that is not up to date, and a status
    without Ready is Degraded. *)
Theorem inventory_status_truthful {W} dns inv cleanup recorder registry tenantMode is_no_match counterpart text invKey m (w : W) s :
  ie_get env = Ok inv → vo_Deleting inv = false → ValidateInventorySpec dns (ie_maxExportBytesGlobal env) (Some (vo_Spec inv)) = [] →
  (∀ jobs, ie_schedule env jobs ≡ₚ jobs) →
  inv_Saved (inventory_Reconcile env cleanup recorder registry tenantMode is_no_match counterpart text invKey m w).1.1 = Some s →
  inventory_truthful inv s.
Proof.
  intros Hget Hdel Hadm Hsched. unfold inventory_Reconcile. rewrite Hget, Hdel. cbn [fst]. intros Hs.
  destruct (live_ok invKey inv m (admitted_keys _ _ _ Hadm) Hsched (admitted_debounce _ _ _ Hadm)) as [Hok _].
  rewrite Hs in Hok. apply Hok.
Qed.

(** C9. A failed export is never dropped: when the pass of an admitted inventory
    left a sink failed, the reconcile ends with an error or asks to be run again
    at a set time, whatever the status write answers and also with the interval
    0s, unless every sink failed and the failure is terminal. *)
Theorem failed_export_retried {W} dns inv cleanup recorder registry tenantMode is_no_match counterpart text invKey m (w : W) o :
  let r := (inventory_Reconcile env cleanup recorder registry tenantMode is_no_match counterpart text invKey m w).1.1 in
  ie_get env = Ok inv → ValidateInventorySpec dns (ie_maxExportBytesGlobal env) (Some (vo_Spec inv)) = [] →
  (∀ jobs, ie_schedule env jobs ≡ₚ jobs) →
  inv_Pass r = Some o → 0 < FailedCount o →
  is_Some (inv_Err r) ∨ (0 < inv_RequeueAfter r)%Z ∨ (isTotalExportFailure o = true ∧ IsTerminal (ExportErr o) = true).
Proof.
  intros r Hget Hadm Hsched. unfold r, inventory_Reconcile. rewrite Hget. destruct (vo_Deleting inv).
  - by destruct (finalizeInventoryDeletion _ _ _ _ _ _ _ _ _ _ _ _ _).
  - cbn [fst]. by destruct (live_ok invKey inv m (admitted_keys _ _ _ Hadm) Hsched (admitted_debounce _ _ _ Hadm)) as [_ Hok]; auto.
Qed.
End properties.

(** * Many reconciles *)

(** ** The inventory and the operator's memory, over time *)
Section history.
Context `{!UnicodeCase, !Yaml, !SortFunc, !Sha256, !JsonDecode, !ApiErrors, !GitErrorApi, !ErrorTexts, !MapRange}.
Context `{!ConditionApi, !ConditionLib, !ConditionLaws}.
Context {W : Type}.
Variable invKey : string.
Variable dns : string → bool.

Definition admitted (cap : Z) (inv : inventory_obj) : Prop := ValidateInventorySpec dns cap (Some (vo_Spec inv)) = [].

Definition with_status (saved : option KollectInventoryStatus) (inv : inventory_obj) : inventory_obj :=
  match saved with
  | Some s => mkInventoryObj (vo_Namespace inv) (vo_Name inv) (vo_UID inv) (vo_Generation inv) (vo_Annotations inv) (vo_Finalizers inv)
                (vo_Deleting inv) (vo_Spec inv) s
  | None => inv
  end.

(** The object on the API server and the memory of the operator. A reconcile may
    read an outdated object, but then its status write is refused; an edit of the
    spec raises the generation; metadata changes without it; a recreated object
    has a UID no baseline carries; and what the operator does for other
    inventories, a restart included, adds no baseline of this one. *)
Inductive inv_step : memory * inventory_obj → memory * inventory_obj → Prop :=
  | StepReconcile env read cleanup recorder registry tenantMode is_no_match counterpart text m obj (w : W) :
      ie_get env = Ok read → admitted (ie_maxExportBytesGlobal env) read → (∀ jobs, ie_schedule env jobs ≡ₚ jobs) →
      (ie_status env = None → read = obj) →
      let r := (inventory_Reconcile env cleanup recorder registry tenantMode is_no_match counterpart text invKey m w).1.1 in
      inv_step (m, obj) (inv_Memory r, with_status (inv_Saved r) obj)
  | StepEdit m obj spec :
      inv_step (m, obj) (m, mkInventoryObj (vo_Namespace obj) (vo_Name obj) (vo_UID obj) (vo_Generation obj + 1)
                              (vo_Annotations obj) (vo_Finalizers obj) (vo_Deleting obj) spec (vo_Status obj))
  | StepMetadata m obj annotations finalizers deleting :
      inv_step (m, obj) (m, mkInventoryObj (vo_Namespace obj) (vo_Name obj) (vo_UID obj) (vo_Generation obj)
                              annotations finalizers deleting (vo_Spec obj) (vo_Status obj))
  | StepRecreate m obj obj' :
      (∀ k s, mem_tracker m !! key invKey k = Some s → inventoryUID (identity s) ≠ vo_UID obj') → inv_step (m, obj) (m, obj')
  | StepOther m m' obj :
      inherits invKey (mem_tracker m) (mem_tracker m') → inv_step (m, obj) (m', obj).

(** A baseline of the object's own generation is of a bound sink and shown in the
    status on the API server; no baseline is of a later generation. *)
Definition persisted (mo : memory * inventory_obj) : Prop :=
  ∀ k s, mem_tracker mo.1 !! key invKey k = Some s → inventoryUID (identity s) = vo_UID mo.2 →
    (lastGeneration s ≤ vo_Generation mo.2)%Z ∧
    (lastGeneration s = vo_Generation mo.2 → k ∈ keys_of mo.2 ∧ shown (is_SinkExports (vo_Status mo.2)) k s).

Lemma inputs_fields s0 s : state_inputs s0 = state_inputs s →
  identity s0 = identity s ∧ lastGeneration s0 = lastGeneration s ∧ lastChecksum s0 = lastChecksum s.
Proof. unfold state_inputs. by intros [=]. Qed.

Lemma shown_inputs exports k s0 s : lastChecksum s0 = lastChecksum s → shown exports k s0 → shown exports k s.
Proof. intros Hc (st & ? & ? & ?). exists st. split_and!; [done|congruence|done]. Qed.

Lemma inherits_persisted m m' obj : inherits invKey (mem_tracker m) (mem_tracker m') → persisted (m, obj) → persisted (m', obj).
Proof.
  intros Hin Hp k s (s0 & Hs0 & (Hid & Hg & Hc)%inputs_fields)%Hin Huid. destruct (Hp k s0 Hs0) as [Hle Hsh]; [cbn in *; congruence|].
  cbn in *. rewrite <- Hg. split; [done|]. intros He. destruct (Hsh He) as [? Hshow]. split; [done|]. by eapply shown_inputs.
Qed.

Lemma settles_persisted m m' obj s :
  settles invKey obj (mem_tracker m) (mem_tracker m') (is_SinkExports s) → persisted (m, obj) → persisted (m', with_status (Some s) obj).
Proof.
  intros Hset Hp k st Hst Huid. cbn in *. destruct (Hset k st Hst) as [(Hk & Hsh & Hg & _)|(s0 & Hs0 & (Hid & Hg & Hc)%inputs_fields & Hkeep)].
  - split; [lia|done].
  - destruct (Hp k s0 Hs0) as [Hle Hsh]; [cbn; congruence|]. cbn in *. split; [lia|]. intros He.
    destruct (Hsh ltac:(lia)) as [Hk Hshow]. split; [done|]. apply Hkeep; [done|]. by eapply shown_inputs.
Qed.

Lemma saved_needs_write env inv (cleanup : cleanup_env (W := W)) recorder registry tenantMode is_no_match counterpart text m w s :
  inv_Saved (inventory_Reconcile env cleanup recorder registry tenantMode is_no_match counterpart text invKey m w).1.1 = Some s →
  ie_get env = Ok inv → ie_status env = None.
Proof.
  destruct (ie_status env) as [e|] eqn:He; [|done]. intros Hs Hget. exfalso. revert Hs. unfold inventory_Reconcile. rewrite Hget.
  assert (∀ s0 count reason message m events pass,
    inv_Saved (setInventoryDegraded env inv s0 count reason message m events pass) = None) as Hdeg.
  { intros. unfold setInventoryDegraded, status_update. rewrite He. by destruct (ie_isConflict env e). }
  assert (∀ s0 count o m events pass, inv_Saved (updateStatus env inv s0 count o m events pass) = None) as Hupd.
  { intros. unfold updateStatus, status_update. rewrite He. destruct (if bool_decide _ then _ else _). by destruct (ie_isConflict env e). }
  destruct (vo_Deleting inv).
  { destruct (finalizeInventoryDeletion _ _ _ _ _ _ _ _ _ _ _ _ _) as [f w']. cbn. case_decide; [by rewrite Hdeg|done]. }
  cbn. unfold reconcile_live. destruct (if bool_decide _ then None else ie_update env) as [er|]; [by destruct (ie_isConflict env er)|].
  destruct (inv_Suspend _); [by rewrite Hdeg|]. destruct (enforceInventory env inv) as [[? ?]|]; [by rewrite Hdeg|].
  destruct (checkInventorySinksReachable _ _ _) as [[[|] ?] ?]; cbn [negb]; [|by rewrite Hdeg].
  destruct (ie_store env) as [store|]; [|done]. unfold reconcile_export. destruct (getOrCompute _ _ _ _) as [[fp computed] cache].
  set (fres := if computed then _ else _). destruct fres; [|done].
  destruct (if decide (0 < _) then _ else _) as [[o|] t]; [by rewrite Hupd|].
  set (gate := if hasSnapshotSinkBinding _ then _ else _). destruct gate as [[[? ?]|]|]; [by rewrite Hdeg| |done].
  destruct (noteExportShardWarning _ _ _ _) as [warned cs]. destruct (decide (totalInventorySinkRefs inv = 0)); [by rewrite Hupd|].
  unfold applyInventoryExportOutcome. destruct (exportToSinks _ _ _ _) as [o t']. destruct (ExportErr o); [|by rewrite Hupd].
  destruct (isTotalExportFailure o); [cbn [inv_Saved]; by rewrite Hdeg|by rewrite Hupd].
Qed.

Lemma step_persisted mo mo' : inv_step mo mo' → persisted mo → persisted mo'.
Proof.
  intros Hstep Hp. destruct Hstep as [env read cleanup recorder registry tenantMode is_no_match counterpart text m obj w Hget Hadm Hsched Hlock r
    |m obj spec|m obj annotations finalizers deleting|m obj obj' Hfresh|m m' obj Hin].
  - assert (reconciled_ok invKey read (mem_tracker m) r ∨
      inv_Memory r = m ∧ ∀ s, inv_Saved r = Some s → is_SinkExports s = is_SinkExports (vo_Status read)) as Hok.
    { unfold r, inventory_Reconcile. rewrite Hget. destruct (vo_Deleting read).
      - right. destruct (finalizeInventoryDeletion _ _ _ _ _ _ _ _ _ _ _ _ _) as [f w']. cbn. split; [done|]. intros s.
        case_decide; [|done]. intros Hs. apply degraded_saved in Hs as [_ ->]. done.
      - left. cbn. apply (live_ok env invKey read m (admitted_keys _ _ _ Hadm) Hsched (admitted_debounce _ _ _ Hadm)). }
    destruct (inv_Saved r) as [s|] eqn:Hs.
    + assert (read = obj) as -> by (apply Hlock; by eapply saved_needs_write). destruct Hok as [[Hok _]|[Hm Hx]].
      * rewrite Hs in Hok. by eapply settles_persisted; [apply Hok|].
      * rewrite Hm. apply (settles_persisted m m); [|done]. rewrite (Hx s eq_refl). apply inherits_settles, inherits_refl.
    + destruct Hok as [[Hok _]|[-> _]]; [rewrite Hs in Hok; by eapply inherits_persisted|done].
  - intros k s Hs Huid. cbn in *. destruct (Hp k s Hs Huid) as [Hle _]. cbn in Hle. split; [lia|lia].
  - exact Hp.
  - intros k s Hs Huid. by destruct (Hfresh k s Hs).
  - by eapply inherits_persisted.
Qed.

Lemma reachable_persisted mo mo' : rtc inv_step mo mo' → persisted mo → persisted mo'.
Proof. induction 1 as [|x y z Hxy _ IH]; [done|]. intros Hp. apply IH. by eapply step_persisted. Qed.

(** C7. A sink is debounced only for an export the cluster can see: over any
    history of reconciles, refused status writes, edits, recreations and work for
    other inventories, when the tracker would skip a sink for the inventory as it
    is on the API server, the sink is bound and the status stored there shows a
    successful export with the very checksum that is skipped. So an export whose
    status was lost is repeated. *)
Theorem debounce_shown_in_status obj0 cache m obj k i interval now :
  rtc inv_step (mkMemory ∅ cache, obj0) (m, obj) →
  inventoryUID (in_identity i) = vo_UID obj → in_generation i = vo_Generation obj →
  (shouldSkip invKey k i interval now (mem_tracker m)).1 = true →
  k ∈ keys_of obj ∧
  ∃ st, find_status k (is_SinkExports (vo_Status obj)) = Some st ∧ st_LastChecksum st = in_checksum i ∧ is_Some (st_LastExportTime st).
Proof.
  intros Hsteps Huid Hgen Hskip.
  assert (persisted (m, obj)) as Hp.
  { apply (reachable_persisted _ _ Hsteps). by intros k' s Hs. }
  unfold shouldSkip in Hskip. destruct (mem_tracker m !! key invKey k) as [s|] eqn:Hs; [|done].
  destruct (decide (lastGeneration s ≠ in_generation i)) as [|Hg%dec_stable]; [done|].
  destruct (decide (identity s ≠ in_identity i)) as [|Hid%dec_stable]; [done|].
  destruct (decide (lastChecksum s ≠ in_checksum i)) as [|Hc%dec_stable]; [done|].
  destruct (Hp k s Hs) as [_ Hsh]; [cbn; congruence|]. destruct Hsh as [Hk (st & ? & ? & ?)]; [cbn; congruence|].
  split; [done|]. exists st. split_and!; [done|congruence|done].
Qed.
End history.

(** * A team's inventory *)
Module InventoryDemo.
Import ListConditions.
#[local] Existing Instances ascii_only_case sort_by_merge_sort demo_sha256 no_api_errors map_range_to_list
  CleanupDemo.no_git_errors CleanupDemo.no_decode CleanupDemo.same_yaml TargetDemo.texts.

Definition spec (snapshot : list string) (suspend : bool) : KollectInventorySpec :=
  mkKollectInventorySpec ((λ n, mkInventorySinkRef n "" None None) <$> snapshot) [] [] (Some 0%Z) None suspend None.

Definition blank : KollectInventoryStatus := mkInventoryStatus [] 0 0 None [].

Definition object (sp : KollectInventorySpec) (status : KollectInventoryStatus) : inventory_obj :=
  mkInventoryObj "team-a" "inv" "uid-1" 1 ∅ [inventoryCleanupFinalizer] false sp status.

(** The sink of [fails] refuses every write; [status] is the answer to the status
    update. *)
Definition env (obj : inventory_obj) (fails : nat → bool) (status : option err) : inv_env :=
  mkInvEnv (Ok obj) None status (λ _, false) (Some []) (Some []) (Some []) (λ _, "") (λ _, mkSinkAnswer (Ok tt) (Ok [])) (λ _, "sink")
    (λ _, Ok "git") (Some (λ _, Store.Upsert (mkItem "team-a" "t" "shop" "web" "apps" "v1" "Deployment" "u1" None) Store.NewStore)) 1000000
    (100 * second) (100 * second) (100 * second) (100 * second) (λ _ _, 0%Z)
    (λ _, Ok (mkResolvedSink "sink" 1 None)) (λ _, Ok (mkResolvedSink "sink" 1 None))
    (λ n _, if fails n then Err (Leaf 9 "refused") else Ok ["inventory/team-a/inv.json"]) (λ _, (101 * second)%Z) (λ jobs, jobs)
    (λ _, Leaf 10 "partition") (λ _, Leaf 11 "envelope").

Definition cleanup : cleanup_env (W := unit) :=
  mkCleanupEnv 0 0 (λ _, Err (Leaf 1 "")) (λ _, Err (Leaf 1 "")) (λ _, Err (Leaf 1 "")) (λ _, None).

Definition reconcile (e : inv_env) (m : memory) : inv_outcome :=
  (inventory_Reconcile e cleanup true true false (λ _, false) (λ _, None) "" "team-a/inv" m tt).1.1.

Definition fresh : memory := mkMemory ∅ ∅.
Definition two : inventory_obj := object (spec ["git"; "s3"] false) blank.

Definition saved (r : inv_outcome) : KollectInventoryStatus := default blank (inv_Saved r).
Definition reason_of (s : KollectInventoryStatus) (t : string) : option string := cond_Reason <$> find (is_Conditions s) t.

Definition all_fine : inv_env := env two (λ _, false) None.
Definition one_fails : inv_env := env two (λ n, bool_decide (n = 1)) None.

Lemma some_saved (r : inv_outcome) : bool_decide (is_Some (inv_Saved r)) = true → inv_Saved r = Some (saved r).
Proof. intros Hb%bool_decide_eq_true. unfold saved. by destruct (inv_Saved r); [|destruct Hb]. Qed.

Lemma inventory_status_truthful_witness :
  reason_of (saved (reconcile all_fine fresh)) conditionReady = Some reasonExported ∧
  reason_of (saved (reconcile one_fails fresh)) conditionReady = Some ReasonPartiallySynced ∧
  inventory_truthful two (saved (reconcile one_fails fresh)).
Proof.
  split; [vm_compute; reflexivity|]. split; [vm_compute; reflexivity|].
  apply (inventory_status_truthful one_fails (λ _, true) two cleanup true true false (λ _, false) (λ _, None) "" "team-a/inv" fresh tt).
  - reflexivity.
  - reflexivity.
  - vm_compute. reflexivity.
  - intros jobs. reflexivity.
  - apply (some_saved (reconcile one_fails fresh)). vm_compute. reflexivity.
Defined.

(** The interval of the inventory is 0s, and the failed sink is still tried again. *)
Lemma failed_export_retried_witness :
  inv_RequeueAfter (reconcile one_fails fresh) = ZeroIntervalWatchdog ∧
  ∀ o, inv_Pass (reconcile one_fails fresh) = Some o → 0 < FailedCount o →
    is_Some (inv_Err (reconcile one_fails fresh)) ∨ (0 < inv_RequeueAfter (reconcile one_fails fresh))%Z ∨
    (isTotalExportFailure o = true ∧ IsTerminal (ExportErr o) = true).
Proof.
  split; [vm_compute; reflexivity|]. intros o.
  apply (failed_export_retried one_fails (λ _, true) two cleanup true true false (λ _, false) (λ _, None) "" "team-a/inv" fresh tt).
  - reflexivity.
  - vm_compute. reflexivity.
  - intros jobs. reflexivity.
Defined.

(** After the export the sinks are skipped, and the status says why; had the
    status write failed, they would be exported again. *)
Definition after : memory * inventory_obj :=
  (inv_Memory (reconcile all_fine fresh), with_status (inv_Saved (reconcile all_fine fresh)) two).

Definition again : inputs := mkInputs (mkIdentity "uid-1" "sink" 1) 1 (sha256_hex "") "".

Definition skips (m : memory) : bool := (shouldSkip "team-a/inv" "snapshot/git" again 0 (102 * second) (mem_tracker m)).1.

Lemma debounce_shown_in_status_witness :
  skips (inv_Memory (reconcile (env two (λ _, false) (Some (Leaf 3 "write"))) fresh)) = false ∧
  "snapshot/git" ∈ keys_of after.2 ∧
  ∃ st, find_status "snapshot/git" (is_SinkExports (vo_Status after.2)) = Some st ∧ st_LastChecksum st = sha256_hex "" ∧
    is_Some (st_LastExportTime st).
Proof.
  split; [vm_compute; reflexivity|].
  refine (debounce_shown_in_status (W := unit) "team-a/inv" (λ _, true) two ∅ after.1 after.2 "snapshot/git" again 0 (102 * second) _ _ _ _).
  - apply rtc_once. apply (StepReconcile "team-a/inv" (λ _, true) all_fine two cleanup true true false (λ _, false) (λ _, None) "" fresh two tt).
    + reflexivity.
    + unfold admitted. vm_compute. reflexivity.
    + intros jobs. reflexivity.
    + intros _. reflexivity.
  - vm_compute. reflexivity.
  - vm_compute. reflexivity.
  - vm_compute. reflexivity.
Defined.

(** An inventory without sinks that was suspended stays Degraded after it is
    resumed: only a pass over sinks removes the condition. *)
Example resumed_without_sinks_stays_degraded :
  let suspended := saved (reconcile (env (object (spec [] true) blank) (λ _, false) None) fresh) in
  let resumed := saved (reconcile (env (object (spec [] false) suspended) (λ _, false) None) fresh) in
  reason_of resumed conditionDegraded = Some "Suspended" ∧ reason_of resumed conditionSynced = Some "NoExport" ∧
  reason_of resumed conditionReady = None.
Proof. vm_compute. done. Qed.
End InventoryDemo.
