(* ===== verification/ClusterInventory.v ===== *)
(** The reconciler of cluster inventories,
    [src/internal/controller/kollectclusterinventory_controller.go]: the choice of
    namespaces and cluster targets, the rollup of their rows by namespace, the
    scope policy, and the status around the export pass of [ExportPass].

    As in [InventoryReconcile], one call is a function of the debounce tracker and
    of an environment with one field per answer. The engine is read once per
    target and the store once per target and namespace, each at its own time. A
    nil store, engine or registry only occurs in tests and is not modelled. *)

From S2P Require Import Prelude GoStrings Values Store Api Filter Scope Errors Scrub Prune Aggregate Json Envelope Partition Extract Access Engine.
From S2P Require Import Intervals Coalesce ExportPass SinkSpec LayoutExport Conditions PassRecord Secrets SinkExport TargetReconcile ClusterTarget GitErrors Layout Cleanup InventoryReconcile.
Import Tracker Outcome Engine.

(** * Admission of a cluster inventory spec *)

(** [subdomain] and [dns1123] are the two DNS checks reporting no message.
    Go: internal/validation/ref.go:15-49 [ValidateNamespacedObjectRef] *)
Definition ValidateNamespacedObjectRef (subdomain dns1123 : string → bool) (ref : NamespacedObjectReference) (path : list path_elem)
    (requireNamespace : bool) : ErrorList :=
  (if decide (trim_space (nref_Name ref) = "") then [mkFieldError FieldRequired (path ++ [Child "name"])]
   else if has_byte "/" (nref_Name ref) then [mkFieldError FieldInvalid (path ++ [Child "name"])]
   else if subdomain (nref_Name ref) then [] else [mkFieldError FieldInvalid (path ++ [Child "name"])]) ++
  (if decide (trim_space (nref_Namespace ref) = "")
   then if requireNamespace then [mkFieldError FieldRequired (path ++ [Child "namespace"])] else []
   else if dns1123 (nref_Namespace ref) then [] else [mkFieldError FieldInvalid (path ++ [Child "namespace"])]).

(** Go: internal/validation/ref.go:51-66 [validateNameOnlyRef] *)
Definition validateNameOnlyRef (ref : string) (path : list path_elem) : ErrorList :=
  if decide (trim_space ref = "") then [mkFieldError FieldRequired path]
  else if has_byte "/" ref then [mkFieldError FieldInvalid path] else [].

(** Go: internal/validation/clustertarget.go:36-42 [namespaceSelectorEmpty] *)
Definition namespaceSelectorEmpty (sel : option LabelSelector) : bool :=
  match sel with
  | None => true
  | Some sel => bool_decide (size (sel_matchLabels sel) = 0) && bool_decide (length (sel_matchExpressions sel) = 0)
  end.

(** The loop over [spec.namespaces]; [seen] holds the names met so far. *)
Fixpoint validate_namespaces (dns1123 : string → bool) (seen : gset string) (i : nat) (namespaces : list string) : ErrorList :=
  match namespaces with
  | [] => []
  | ns :: namespaces =>
      let path := [Child "spec"; Child "namespaces"; PathIndex i] in
      if decide (trim_space ns = "") then mkFieldError FieldRequired path :: validate_namespaces dns1123 seen (S i) namespaces
      else if decide (trim_space ns ≠ ns) then mkFieldError FieldInvalid path :: validate_namespaces dns1123 seen (S i) namespaces
      else
        (if decide (ns ∈ seen) then [mkFieldError FieldDuplicate path] else []) ++
        (if dns1123 ns then [] else [mkFieldError FieldInvalid path]) ++
        validate_namespaces dns1123 ({[ns]} ∪ seen) (S i) namespaces
  end.

(** Go: internal/validation/clusterinventory.go:93-109 [validateClusterInventoryFamilySinkRefs] *)
Definition validateClusterInventoryFamilySinkRefs (dns1123 : string → bool) (globalCap : Z) (spec : KollectClusterInventorySpec) : ErrorList :=
  if decide (MaxInventorySinkRefs < TotalClusterInventorySinkRefCount (Some spec)) then [mkFieldError FieldInvalid [Child "spec"]]
  else
    ValidateClusterInventorySinkRefs dns1123 globalCap (cinv_SnapshotSinkRefs spec) (Some [Child "spec"; Child "snapshotSinkRefs"]) ++
    ValidateClusterInventorySinkRefs dns1123 globalCap (cinv_DatabaseSinkRefs spec) (Some [Child "spec"; Child "databaseSinkRefs"]) ++
    ValidateClusterInventorySinkRefs dns1123 globalCap (cinv_EventSinkRefs spec) (Some [Child "spec"; Child "eventSinkRefs"]).

(** Go: internal/validation/clusterinventory.go:17-91 [ValidateClusterInventorySpec] *)
Definition ValidateClusterInventorySpec (subdomain dns1123 : string → bool) (globalCap : Z) (spec : option KollectClusterInventorySpec) :
    ErrorList :=
  match spec with
  | None => []
  | Some spec =>
      match cinv_ProfileRef spec with
      | Some ref => ValidateNamespacedObjectRef subdomain dns1123 ref [Child "spec"; Child "profileRef"] true
      | None => []
      end ++
      concat (imap (λ i ref, validateNameOnlyRef ref [Child "spec"; Child "targetRefs"; PathIndex i]) (cinv_TargetRefs spec)) ++
      validate_namespaces dns1123 ∅ 0 (cinv_Namespaces spec) ++
      (if namespaceSelectorEmpty (cinv_NamespaceSelector spec) then [mkFieldError FieldRequired [Child "spec"; Child "namespaceSelector"]] else []) ++
      validateClusterInventoryFamilySinkRefs dns1123 globalCap spec ++
      (if bool_decide (trim_space (cinv_SinkNamespace spec) ≠ "") && has_byte "/" (cinv_SinkNamespace spec)
       then [mkFieldError FieldInvalid [Child "spec"; Child "sinkNamespace"]] else []) ++
      ValidateOptionalDurationInterval (cinv_ExportMinInterval spec) [Child "spec"; Child "exportMinInterval"] ++
      (if decide (cinv_Dedupe spec ∈ [""; "keepAll"; "byResourceUID"]) then [] else [mkFieldError FieldNotSupported [Child "spec"; Child "dedupe"]])
  end.

(** * The objects *)

(** Go: api/v1alpha1/kollectclusterinventory_types.go:127-144 [InventoryNamespaceShardStatus] *)
Record InventoryNamespaceShardStatus := mkShardStatus {
  shs_Namespace : string;
  shs_ItemCount : nat;
  shs_TargetCount : nat;
  shs_Checksum : string;
}.

(** Go: api/v1alpha1/kollectclusterinventory_types.go:85-125 [KollectClusterInventoryStatus] *)
Record KollectClusterInventoryStatus := mkClusterInventoryStatus {
  cs_Conditions : list Condition;
  cs_ObservedGeneration : Z;
  cs_ItemCount : nat;
  cs_TargetCount : nat;
  cs_NamespaceShards : list InventoryNamespaceShardStatus;
  cs_LastExportTime : option Z;
  cs_SinkExports : list InventorySinkExportStatus;
}.

Record cluster_inventory_obj := mkClusterInventoryObj {
  qo_Name : string;
  qo_UID : string;
  qo_Generation : Z;
  qo_Created : Z;
  qo_Annotations : gmap string string;
  qo_Finalizers : list string;
  qo_Deleting : bool;
  qo_Spec : KollectClusterInventorySpec;
  qo_Status : KollectClusterInventoryStatus;
}.

(** A cluster target as the list returns it. *)
Record listed_target := mkListedTarget {
  lt_Name : string;
  lt_Labels : labels;
  lt_NamespaceSelector : option LabelSelector;
  lt_Conditions : list Condition;
}.

Definition clusterInventoryCleanupFinalizer : string := "kollect.dev/cluster-inventory-cleanup".
Definition clusterTargetBootstrapWindow : Z := 300 * second.
Definition reasonSinkNamespaceDenied : string := "SinkNamespaceDenied".
Definition ConditionExportSucceeded : string := "ExportSucceeded".

Definition set_cs_conditions (cs : list Condition) (s : KollectClusterInventoryStatus) : KollectClusterInventoryStatus :=
  mkClusterInventoryStatus cs (cs_ObservedGeneration s) (cs_ItemCount s) (cs_TargetCount s) (cs_NamespaceShards s) (cs_LastExportTime s)
    (cs_SinkExports s).

Definition set_cs_exports (exports : list InventorySinkExportStatus) (s : KollectClusterInventoryStatus) : KollectClusterInventoryStatus :=
  mkClusterInventoryStatus (cs_Conditions s) (cs_ObservedGeneration s) (cs_ItemCount s) (cs_TargetCount s) (cs_NamespaceShards s)
    (cs_LastExportTime s) exports.

(** Go: internal/controller/inventory_sink_helpers.go:65-71 [clusterInventorySinkBindings] *)
Definition clusterInventorySinkBindings (inv : cluster_inventory_obj) : list InventorySinkBinding :=
  CollectClusterInventorySinkBindings (qo_Spec inv).

(** Go: internal/controller/inventory_sink_helpers.go:77-79 [totalClusterInventorySinkRefs] *)
Definition totalClusterInventorySinkRefs (inv : cluster_inventory_obj) : nat := TotalClusterInventorySinkRefCount (Some (qo_Spec inv)).

(** Go: internal/controller/kollectclusterinventory_controller.go:386-390 [exportDebounce] *)
Definition cluster_exportDebounce (inv : cluster_inventory_obj) : Z := ClusterExportMinIntervalFor (Some (qo_Spec inv)) 0.

(** * Selection *)
Section selection.
Context `{!KubeApi, !ConditionLib}.

(** [metav1.LabelSelectorAsSelector] of a pointer: nil matches nothing. *)
Definition selector_of (sel : option LabelSelector) : option selector :=
  match sel with
  | None => Some (λ _, false)
  | Some sel => LabelSelectorAsSelector sel
  end.

(** The namespaces are a list of names and labels; [bad] is the error of a selector
    that does not compile.
    Go: internal/controller/kollectclusterinventory_controller.go:558-598 [selectedInventoryNamespaces] *)
Definition selectedInventoryNamespaces (listed : result err (list (string * labels))) (bad : err) (inv : cluster_inventory_obj) :
    result err (list (string * labels)) :=
  match selector_of (cinv_NamespaceSelector (qo_Spec inv)) with
  | None => Err (Wrap ("namespaceSelector: " +:+ error_text bad) bad)
  | Some invSel =>
      let explicitNames := filter (λ n, n ≠ "") (trim_space <$> cinv_Namespaces (qo_Spec inv)) in
      nsList ← listed;
      Ok (filter (λ ns, (explicitNames = [] ∨ ns.1 ∈ explicitNames) ∧ invSel ns.2 = true) nsList)
  end.

(** Go: internal/controller/kollectclusterinventory_controller.go:600-607 [namespaceNameSet] *)
Definition namespaceNameSet (namespaces : list (string * labels)) : gset string := list_to_set namespaces.*1.

(** Go: internal/controller/kollectclusterinventory_controller.go:609-621 [targetIncluded] *)
Definition targetIncluded (inv : cluster_inventory_obj) (ct : listed_target) : bool :=
  bool_decide (length (cinv_TargetRefs (qo_Spec inv)) = 0) || existsb (λ ref, bool_decide (ref = lt_Name ct)) (cinv_TargetRefs (qo_Spec inv)).

(** The outer option is the compile error, the inner one nil.
    Go: internal/controller/kollectclusterinventory_controller.go:550-556 [targetSelectorFor] *)
Definition targetSelectorFor (inv : cluster_inventory_obj) : option (option selector) :=
  match cinv_TargetRefs (qo_Spec inv), cinv_TargetSelector (qo_Spec inv) with
  | [], Some sel => Some <$> LabelSelectorAsSelector sel
  | _, _ => Some None
  end.

(** Go: internal/controller/kollectclusterinventory_controller.go:623-641 [clusterTargetMatchesInventoryNS] *)
Definition clusterTargetMatchesInventoryNS (ct : listed_target) (namespaces : list (string * labels)) : bool :=
  match selector_of (lt_NamespaceSelector ct) with
  | None => false
  | Some targetSel => existsb (λ ns, targetSel ns.2) namespaces
  end.

(** Go: internal/controller/kollectclusterinventory_controller.go:514-548 [selectedClusterTargets] *)
Definition selectedClusterTargets (listed : result err (list listed_target)) (bad : err) (inv : cluster_inventory_obj)
    (namespaces : list (string * labels)) : result err (list listed_target) :=
  targets ← listed;
  match targetSelectorFor inv with
  | None => Err bad
  | Some targetSel =>
      Ok (filter (λ ct, targetIncluded inv ct = true ∧
                        match targetSel with Some sel => sel (lt_Labels ct) | None => true end = true ∧
                        clusterTargetMatchesInventoryNS ct namespaces = true) targets)
  end.

(** Go: internal/controller/kollectclusterinventory_controller.go:676-679 [clusterTargetReady] *)
Definition clusterTargetReady (ct : listed_target) : bool :=
  match FindStatusCondition (lt_Conditions ct) conditionReady with
  | Some cond => bool_decide (cond_Status cond = ConditionTrue)
  | None => false
  end.
End selection.

(** * The rollup *)

(** Go: internal/controller/kollectclusterinventory_controller.go:420-424 [namespaceRollupShard] *)
Record namespaceRollupShard := mkShard {
  sh_items : list Item;
  sh_targets : gset string;
}.

(** Go: internal/controller/kollectclusterinventory_controller.go:413-418 [clusterRollup] *)
Record clusterRollup := mkClusterRollup {
  ru_Items : list Item;
  ru_Payload : string;
  ru_Checksum : string;
  ru_NamespaceShards : list InventoryNamespaceShardStatus;
}.

Section rollup.
Context `{!MapRange, !SortFunc, !Sha256}.

(** The namespaces the engine has a target of the name in, and the rows of a
    target in a namespace, at the time of each read. *)
Variable namespaces : string → list string.
Variable store : string → string → Store.StoreState.

Definition read_rows (ns name : string) : list Item := (Store.SnapshotTarget ns name (store ns name)).1.

(** The reads of the two nested loops, in order: an empty selection selects every
    namespace. *)
Definition rollup_reads (targets : list listed_target) (selected : gset string) : list (string * string) :=
  targets ≫= λ ct, (λ ns, (ns, lt_Name ct)) <$> filter (λ ns, selected = ∅ ∨ ns ∈ selected) (namespaces (lt_Name ct)).

(** Go: internal/controller/kollectclusterinventory_controller.go:392-411 [collectRollupItems] *)
Definition collectRollupItems (mode : DedupeMode) (targets : list listed_target) (selected : gset string) : list Item :=
  MergeRows (rollup_reads targets selected ≫= λ r, read_rows r.1 r.2) mode.

(** One iteration: the rows go to the shard of the namespace. *)
Definition add_to_shard (shards : gmap string namespaceRollupShard) (r : string * string) : gmap string namespaceRollupShard :=
  match read_rows r.1 r.2 with
  | [] => shards
  | snapshot =>
      let shard := default (mkShard [] ∅) (shards !! r.1) in
      <[r.1 := mkShard (sh_items shard ++ snapshot) ({[r.2]} ∪ sh_targets shard)]> shards
  end.

Definition rollup_shards (targets : list listed_target) (selected : gset string) : gmap string namespaceRollupShard :=
  foldl add_to_shard ∅ (rollup_reads targets selected).

(** Go: internal/controller/kollectclusterinventory_controller.go:504-512 [composeNamespaceShardChecksum] *)
Definition composeNamespaceShardChecksum (shardChecksums : list string) : string :=
  sha256_hex (foldl (λ payload c, payload +:+ c +:+ String (ascii_of_nat 10) "") "" shardChecksums).

(** The loop over the namespaces in order: the status entries, the texts of the
    checksum and the rows. *)
Fixpoint compose_shards (mode : DedupeMode) (shards : list (string * namespaceRollupShard)) :
    result envelope_error (list InventoryNamespaceShardStatus * list string * list Item) :=
  match shards with
  | [] => Ok ([], [], [])
  | (ns, shard) :: shards =>
      let items := MergeRows (sh_items shard) mode in
      checksum ← ItemsFingerprint items;
      rest ← compose_shards mode shards;
      let '(statuses, checksums, composed) := rest in
      Ok (mkShardStatus ns (length items) (size (sh_targets shard)) checksum :: statuses, (ns +:+ ":" +:+ checksum) :: checksums,
          items ++ composed)
  end.

(** The shards in the order of their sorted names. *)
Definition sorted_shards (shards : gmap string namespaceRollupShard) : list (string * namespaceRollupShard) :=
  sort_strings (map_range shards).*1 ≫= λ ns, match shards !! ns with Some shard => [(ns, shard)] | None => [] end.

(** Go: internal/controller/kollectclusterinventory_controller.go:426-502 [composeNamespaceRollup] *)
Definition composeNamespaceRollup (now generation : Z) (mode : DedupeMode) (targets : list listed_target) (selected : gset string) :
    result envelope_error clusterRollup :=
  composed ← compose_shards mode (sorted_shards (rollup_shards targets selected));
  let '(statuses, checksums, rows) := composed in
  let items := MergeRows rows mode in
  payload ← MarshalExportEnvelope now items (mkMetadata generation "" zero_time 0 0);
  Ok (mkClusterRollup items payload (composeNamespaceShardChecksum checksums) statuses).
End rollup.

(** * One reconcile *)
Section reconcile.
Context `{!KubeApi, !CelApi, !MapRange, !UnicodeCase, !Yaml, !SortFunc, !Sha256, !JsonDecode, !ApiErrors, !GitErrorApi, !ErrorTexts}.
Context `{!ConditionApi, !ConditionLib}.

(** The answers to the requests of one reconcile. *)
Record rollup_env := mkRollupEnv {
  qe_get : result err cluster_inventory_obj;
  qe_update : option err;
  qe_status : option err;
  qe_isConflict : err → bool;
  qe_namespaces : result err (list (string * labels));
  qe_targets : result err (list listed_target);
  qe_selector_err : err;
  qe_scope : option (list KollectClusterScope);
  qe_scope_err : violation → err;
  qe_violation : violation → string;
  qe_scope_floor : option (list KollectScope);
  qe_sink : InventorySinkBinding → sink_answer;
  qe_sink_name : InventorySinkBinding → string;
  qe_sink_type : InventorySinkBinding → result err string;
  qe_engine : string → EngineState;
  qe_store : string → string → Store.StoreState;
  qe_maxExportBytesGlobal : Z;
  qe_now : Z;
  qe_now_marshal : Z;
  qe_now_pass : Z;
  qe_clock : nat → nat → Z;
  qe_resolve : nat → result err ResolvedSink;
  qe_write : nat → nat → result err (list string);
  qe_exportTime : nat → Z;
  qe_part_err : partition_error → err;
  qe_envelope_err : envelope_error → err;
}.

(** The result; [ro_Pass] holds the rows given to the export pass and what the
    pass reported, when it ran. *)
Record rollup_outcome := mkRollupOutcome {
  ro_Tracker : gmap string sinkCoalesceState;
  ro_Saved : option KollectClusterInventoryStatus;
  ro_RequeueAfter : Z;
  ro_Err : option err;
  ro_Events : list string;
  ro_Pass : option (list Item * perSinkExportOutcome);
}.

Variable env : rollup_env.

(** Go: internal/controller/kollectclusterinventory_controller.go:378-384 [clusterScopeFloor] *)
Definition clusterScopeFloor (listed : option (list KollectScope)) : Z :=
  match Load listed with
  | Ok b => if Enforced b then match binding_Scope b with Some _ => ScopeMinExportInterval (binding_Scope b) | None => 0%Z end else 0%Z
  | Err _ => 0%Z
  end.

(** ** Writing the status *)

Definition rollup_status_update (s : KollectClusterInventoryStatus) : KollectClusterInventoryStatus + Z * option err :=
  match qe_status env with
  | None => inl s
  | Some e => inr (if qe_isConflict env e then (conflictRequeueAfter, None) else (0%Z, Some e))
  end.

(** Go: internal/controller/kollectclusterinventory_controller.go:690-720 [setDegraded] *)
Definition rollup_setDegraded (inv : cluster_inventory_obj) (s : KollectClusterInventoryStatus) (reason message : string)
    (t : gmap string sinkCoalesceState) (events : list string) (pass : option (list Item * perSinkExportOutcome)) : rollup_outcome :=
  let message := redact_Text message in
  let cs := RemoveStatusCondition (cs_Conditions s) conditionReady in
  let cs := setSyncedCondition (qo_Generation inv) false reason message (qe_now env) cs in
  let cs := SetStatusCondition cs (mkCondition conditionDegraded ConditionTrue reason message (qo_Generation inv) (qe_now env)) in
  let s := mkClusterInventoryStatus cs (qo_Generation inv) (cs_ItemCount s) (cs_TargetCount s) (cs_NamespaceShards s) (cs_LastExportTime s)
             (cs_SinkExports s) in
  match rollup_status_update s with
  | inl s => mkRollupOutcome t (Some s) (RequeueAfterForZeroInterval (cluster_exportDebounce inv)) None events pass
  | inr (requeue, e) => mkRollupOutcome t None requeue e events pass
  end.

(** The conditions after a pass over sinks. The message of a failure is written as
    the error gives it.
    Go: internal/controller/kollectclusterinventory_controller.go:737-819 [updateStatus, the conditions of a pass] *)
Definition rollup_pass_conditions (inv : cluster_inventory_obj) (targetCount itemCount : nat) (outcome : perSinkExportOutcome)
    (cs : list Condition) : list Condition * list string :=
  let failed := FailedCount outcome in
  let set type status reason message cs := SetStatusCondition cs (mkCondition type status reason message (qo_Generation inv) (qe_now env)) in
  let cs := setSinkReachableFromExport (qe_now env) cs (qo_Generation inv) (ExportErr outcome) in
  let cs := aggregateInventorySync (qo_Generation inv) (ExportedCount outcome) (DebouncedCount outcome) failed (qe_now env) cs in
  let rolled := "rolled up " +:+ fmt_nat targetCount +:+ " target(s), " +:+ fmt_nat itemCount +:+ " item(s)" in
  if decide (failed = 0 ∧ ExportErr outcome = None) then
    let cs := RemoveStatusCondition cs conditionDegraded in
    let cs := set ConditionExportSucceeded ConditionTrue reasonExported
                ("exported " +:+ fmt_nat itemCount +:+ " item(s); " +:+ sinksUpToDateMessage (ExportedCount outcome) (DebouncedCount outcome)) cs in
    (set conditionReady ConditionTrue reasonExported rolled cs, if decide (0 < ExportedCount outcome) then ["ExportSucceeded"] else [])
  else if decide (0 < ExportedCount outcome) then
    let cs := RemoveStatusCondition cs conditionDegraded in
    let cs := set ConditionExportSucceeded ConditionTrue ReasonPartiallySynced
                ("exported " +:+ fmt_nat itemCount +:+ " item(s) to " +:+ fmt_nat (ExportedCount outcome) +:+ "/" +:+
                 fmt_nat (totalClusterInventorySinkRefs inv) +:+ " sink(s)") cs in
    (set conditionReady ConditionTrue ReasonPartiallySynced rolled cs, [])
  else if decide (0 < failed) then
    let message := match ExportErr outcome with Some e => error_text e | None => "export failed" end in
    let cs := set conditionDegraded ConditionTrue reasonExportFailed message cs in
    let cs := set conditionReady ConditionFalse reasonExportFailed message cs in
    (set ConditionExportSucceeded ConditionFalse reasonExportFailed message cs, [])
  else (cs, []).

(** The conditions of a rollup that has no sinks.
    Go: internal/controller/kollectclusterinventory_controller.go:820-832 [updateStatus, without sinks] *)
Definition rollup_only_conditions (inv : cluster_inventory_obj) (targetCount itemCount : nat) (outcome : perSinkExportOutcome)
    (cs : list Condition) : list Condition :=
  match ExportErr outcome with
  | Some _ => cs
  | None =>
      let msg := "rolled up " +:+ fmt_nat targetCount +:+ " target(s), " +:+ fmt_nat itemCount +:+ " item(s)" in
      let cs := RemoveStatusCondition cs conditionDegraded in
      let cs := setSyncedCondition (qo_Generation inv) true "RolledUp" msg (qe_now env) cs in
      SetStatusCondition cs (mkCondition conditionReady ConditionTrue "RolledUp" msg (qo_Generation inv) (qe_now env))
  end.

(** Go: internal/controller/kollectclusterinventory_controller.go:722-849 [updateStatus] *)
Definition rollup_updateStatus (inv : cluster_inventory_obj) (s : KollectClusterInventoryStatus) (targetCount itemCount : nat)
    (outcome : perSinkExportOutcome) (shards : list InventoryNamespaceShardStatus) (t : gmap string sinkCoalesceState)
    (events : list string) (pass : option (list Item * perSinkExportOutcome)) : rollup_outcome :=
  let sinks := bool_decide (0 < length (clusterInventorySinkBindings inv)) in
  let last := if sinks then match latestExportTime (SinkExports outcome) with Some t => Some t | None => cs_LastExportTime s end
              else cs_LastExportTime s in
  let '(cs, more) := if sinks then rollup_pass_conditions inv targetCount itemCount outcome (cs_Conditions s)
                     else (rollup_only_conditions inv targetCount itemCount outcome (cs_Conditions s), []) in
  let s := mkClusterInventoryStatus cs (qo_Generation inv) itemCount targetCount shards last (SinkExports outcome) in
  match rollup_status_update s with
  | inr (requeue, e) => mkRollupOutcome (forgetUnpersistedExports outcome t) None requeue e (events ++ more) pass
  | inl s =>
      let requeue := if decide (RequeueAfter outcome ≤ 0)%Z then cluster_exportDebounce inv else RequeueAfter outcome in
      mkRollupOutcome t (Some s) requeue None (events ++ more) pass
  end.

(** ** The scope policy *)

(** [Ok None]: the policy lets the inventory pass.
    Go: internal/controller/cluster_scope_enforce.go:17-45 [enforceClusterScopePolicy] *)
Definition enforceClusterScopePolicy (inv : cluster_inventory_obj) (sinkNS : string) (bindings : list InventorySinkBinding) :
    result err (option (string * string)) :=
  match LoadCluster (qe_scope env) with
  | Err v => Err (qe_scope_err env v)
  | Ok binding =>
      if negb (cluster_Enforced binding) then Ok None
      else
        match for_each (ValidateClusterScopeStaticRefNamespace (cluster_Scope binding))
                (ClusterInventoryStaticRefNamespaces (Some (qo_Spec inv)) sinkNS) with
        | Err v => Ok (Some (reasonSinkNamespaceDenied, qe_violation env v))
        | Ok _ =>
            match ValidateClusterInventoryClusterScopeSinkRefs (cluster_Scope binding) bindings with
            | Err v => Ok (Some (scopeReasonSinkDenied, qe_violation env v))
            | Ok _ => Ok None
            end
        end
  end.

(** ** The export of a rollup *)

Definition rollup_namespaces (name : string) : list string := NamespacesForClusterTarget name (qe_engine env name).

Definition rollup_pass_env (inv : cluster_inventory_obj) (invKey : string) (items : list Item) (checksum : string) : pass_env :=
  mkPassEnv invKey (qo_UID inv) (qo_Generation inv) (default "" (qo_Annotations inv !! AnnotationRequestedAt))
    (cs_SinkExports (qo_Status inv)) items checksum (qe_now_pass env) (cluster_exportDebounce inv)
    (clusterScopeFloor (qe_scope_floor env)) (qe_maxExportBytesGlobal env) (qe_clock env) (qe_resolve env) (qe_write env)
    (qe_exportTime env) (qe_part_err env).

(** Go: internal/controller/kollectclusterinventory_controller.go:168-245 [reconcileRollupExport] *)
Definition reconcileRollupExport (invKey : string) (inv : cluster_inventory_obj) (s : KollectClusterInventoryStatus)
    (targets : list listed_target) (selected : gset string) (sinkNS : string) (t : gmap string sinkCoalesceState) : rollup_outcome :=
  let bindings := clusterInventorySinkBindings inv in
  let mode := DedupeModeFromSpec (Some (qo_Spec inv)) in
  let stop e := mkRollupOutcome t None 0 (Some e) [] None in
  match composeNamespaceRollup rollup_namespaces (qe_store env) (qe_now_marshal env) (qo_Generation inv) mode targets selected with
  | Err e => stop (qe_envelope_err env e)
  | Ok rollup =>
      match assessExportSpill (qe_sink_type env) (Z.of_nat (String.length (ru_Payload rollup))) (qe_maxExportBytesGlobal env) bindings with
      | Err e => stop e
      | Ok (Some (reason, message)) => rollup_setDegraded inv s reason message t [] None
      | Ok None =>
          let itemCount := length (ru_Items rollup) in
          if decide (length bindings = 0) then
            let s := set_cs_conditions
                       (setSyncedCondition (qo_Generation inv) true "NoExport" "no family sink refs configured" (qe_now env) (cs_Conditions s)) s in
            rollup_updateStatus inv s (length targets) itemCount (empty_outcome (cluster_exportDebounce inv)) (ru_NamespaceShards rollup) t [] None
          else
            let '(outcome, t) := exportClusterToSinks (rollup_pass_env inv invKey (ru_Items rollup) (ru_Checksum rollup)) bindings sinkNS t in
            let pass := Some (ru_Items rollup, outcome) in
            match ExportErr outcome with
            | Some e =>
                if isTotalExportFailure outcome then
                  let reason := if errors_is ErrSpillRequired e then spillReasonSpillRequired
                                else if IsTerminal (Some e) then ReasonExportTerminal else reasonProgressing in
                  let cs := setSinkReachableFromExport (qe_now env) (cs_Conditions s) (qo_Generation inv) (Some e) in
                  let cs := setSyncedCondition (qo_Generation inv) false reason (error_text e) (qe_now env) cs in
                  let s := set_cs_exports (SinkExports outcome) (set_cs_conditions cs s) in
                  let r := rollup_setDegraded inv s reason (error_text e) t [reason] pass in
                  mkRollupOutcome (ro_Tracker r) (ro_Saved r) (if IsTerminal (Some e) then 0%Z else ro_RequeueAfter r) (ro_Err r)
                    (ro_Events r) (ro_Pass r)
                else rollup_updateStatus inv s (length targets) itemCount outcome (ru_NamespaceShards rollup) t [reasonExportFailed] pass
            | None => rollup_updateStatus inv s (length targets) itemCount outcome (ru_NamespaceShards rollup) t [] pass
            end
      end
  end.

(** The branches after the selection of the targets.
    Go: internal/controller/kollectclusterinventory_controller.go:115-163 [Reconcile, with the targets selected] *)
Definition reconcile_targets (invKey : string) (inv : cluster_inventory_obj) (namespaces : list (string * labels))
    (targets : list listed_target) (t : gmap string sinkCoalesceState) : rollup_outcome :=
  let s := qo_Status inv in
  let stop requeue e := mkRollupOutcome t None requeue e [] None in
  if decide (length targets = 0) then
    if time_after (qo_Created inv + clusterTargetBootstrapWindow) (qe_now env) then stop (30 * second)%Z None
    else rollup_setDegraded inv s "NoTargets" "no KollectClusterTarget objects matched" t [] None
  else
    let degradedTargets := lt_Name <$> filter (λ ct, clusterTargetReady ct = false) targets in
    if decide (0 < length degradedTargets) then
      rollup_setDegraded inv s "TargetDegraded"
        (fmt_nat (length degradedTargets) +:+ " target(s) not Ready: [" +:+ join " " degradedTargets +:+ "]") t [] None
    else
      let sinkNS := if decide (cinv_SinkNamespace (qo_Spec inv) = "") then DefaultSecretNamespace else cinv_SinkNamespace (qo_Spec inv) in
      let bindings := clusterInventorySinkBindings inv in
      match enforceClusterScopePolicy inv sinkNS bindings with
      | Err e => stop 0%Z (Some e)
      | Ok (Some (reason, message)) => rollup_setDegraded inv s reason message t [reason] None
      | Ok None =>
          let '(sinkOK, sinkReason, sinkMsg) := checkInventorySinksReachable (qe_sink env) (qe_sink_name env) bindings in
          let s := set_cs_conditions (setSinkReachableCondition (qe_now env) (cs_Conditions s) (qo_Generation inv) sinkOK sinkReason sinkMsg) s in
          if negb sinkOK then rollup_setDegraded inv s sinkReason sinkMsg t [sinkReason] None
          else reconcileRollupExport invKey inv s targets (namespaceNameSet namespaces) sinkNS t
      end.

(** Go: internal/controller/kollectclusterinventory_controller.go:72-166 [Reconcile] *)
Definition clusterinventory_Reconcile {W} (cleanup : cleanup_env (W := W)) (recorder registry : bool) (is_no_match : err → bool)
    (watchNamespaces : list string) (counterpart : nat → option err) (text : string) (invKey : string)
    (t : gmap string sinkCoalesceState) (w : W) : rollup_outcome * option finalize_result * W :=
  let stop requeue e := (mkRollupOutcome t None requeue e [] None, None, w) in
  match qe_get env with
  | Err e => stop 0%Z (if api_IsNotFound e then None else Some e)
  | Ok inv =>
      if qo_Deleting inv then
        let sinkNS := if decide (cinv_SinkNamespace (qo_Spec inv) = "") then DefaultSecretNamespace else cinv_SinkNamespace (qo_Spec inv) in
        let '(f, w) :=
          finalizeInventoryDeletion cleanup (qe_isConflict env) (qe_update env) recorder registry (cluster_exportDebounce inv)
            clusterInventoryCleanupFinalizer (qo_Finalizers inv) (qo_Annotations inv) sinkNS (clusterInventorySinkBindings inv)
            (cluster_inventory_target is_no_match watchNamespaces (qo_Name inv) (qo_Generation inv) (cs_SinkExports (qo_Status inv)) counterpart) w in
        let saved := if decide (fin_requeue f = Some terminalCleanupRequeue ∧ fin_err f = None)
                     then ro_Saved (rollup_setDegraded inv (qo_Status inv) "CleanupTerminal" text t [] None) else None in
        (mkRollupOutcome t saved (default 0%Z (fin_requeue f)) (fin_err f) [] None, Some f, w)
      else
        match (if bool_decide (clusterInventoryCleanupFinalizer ∈ qo_Finalizers inv) then None else qe_update env) with
        | Some e => if qe_isConflict env e then stop conflictRequeueAfter None else stop 0%Z (Some e)
        | None =>
            if cinv_Suspend (qo_Spec inv) then
              (rollup_setDegraded inv (qo_Status inv) "Suspended" "spec.suspend is true" t [] None, None, w)
            else
              match selectedInventoryNamespaces (qe_namespaces env) (qe_selector_err env) inv with
              | Err e => stop 0%Z (Some e)
              | Ok namespaces =>
                  match selectedClusterTargets (qe_targets env) (qe_selector_err env) inv namespaces with
                  | Err e => stop 0%Z (Some e)
                  | Ok targets => (reconcile_targets invKey inv namespaces targets t, None, w)
                  end
              end
        end
  end.
End reconcile.

(** * Lemmas on the rollup *)

Lemma elem_of_MergeRows items mode x : x ∈ MergeRows items mode → x ∈ items.
Proof.
  destruct (merge_rows_last_wins items) as (Hk & Hl & _). destruct mode; [by rewrite Hk|].
  intros (l1 & l2 & -> & _)%Hl. set_solver.
Qed.

(** Which row of a resource is last is decided among the rows of its namespace. *)
Lemma last_row_filter l x : last_row l x ↔ last_row (filter (λ y, Namespace y = Namespace x) l) x.
Proof.
  induction l as [|y l IH] using rev_ind; [done|]. rewrite last_row_snoc, filter_app, IH.
  destruct (decide (Namespace y = Namespace x)) as [He|Hne].
  - rewrite (filter_cons_True (λ y, Namespace y = Namespace x)) by done. rewrite filter_nil. by rewrite last_row_snoc.
  - rewrite (filter_cons_False (λ y, Namespace y = Namespace x)) by done. rewrite filter_nil, List.app_nil_r. split.
    + by intros [->|[? _]].
    + intros ?. right. split; [done|]. unfold ResourceKeyFromItem. congruence.
Qed.

(** Rows with distinct keys are each the last of theirs. *)
Lemma last_row_NoDup l x : NoDup (ResourceKeyFromItem <$> l) → last_row l x ↔ x ∈ l.
Proof.
  intros Hnd. split; [intros (l1 & l2 & -> & _); set_solver|]. intros (l1 & l2 & ->)%list_elem_of_split.
  exists l1, l2. split; [done|]. rewrite fmap_app, fmap_cons in Hnd. apply NoDup_app in Hnd as (_ & _ & [? _]%NoDup_cons). done.
Qed.

Lemma MergeRows_last items x : x ∈ MergeRows items DedupeByResourceUID ↔ last_row items x.
Proof. apply merge_rows_last_wins. Qed.

Lemma MergeRows_keys items : NoDup (ResourceKeyFromItem <$> MergeRows items DedupeByResourceUID).
Proof. apply merge_rows_last_wins. Qed.

Lemma filter_all {A} (P : A → Prop) `{∀ x, Decision (P x)} (l : list A) : Forall P l → filter P l = l.
Proof. induction 1 as [|x l Hx _ IH]; [done|]. rewrite filter_cons_True by done. by rewrite IH. Qed.

Lemma filter_none {A} (P : A → Prop) `{∀ x, Decision (P x)} (l : list A) : Forall (λ x, ¬ P x) l → filter P l = [].
Proof. induction 1 as [|x l Hx _ IH]; [done|]. by rewrite filter_cons_False. Qed.

Lemma bind_assoc {A B C} (f : A → list B) (g : B → list C) (l : list A) : (l ≫= f) ≫= g = l ≫= λ x, f x ≫= g.
Proof. induction l as [|x l IH]; [done|]. by rewrite !bind_cons, bind_app, IH. Qed.

(** Grouping a list by a key. *)
Lemma group_perm {A} (f : A → string) (l : list A) (ks : list string) :
  NoDup ks → (∀ x, x ∈ l → f x ∈ ks) → (ks ≫= λ k, filter (λ x, f x = k) l) ≡ₚ l.
Proof.
  revert l. induction ks as [|k ks IH]; intros l Hnd Hin.
  - destruct l as [|x l]; [done|]. destruct (not_elem_of_nil (f x)). apply Hin. by left.
  - apply NoDup_cons in Hnd as [Hk Hnd]. rewrite bind_cons.
    etrans; [|apply (filter_app_complement (λ x, f x = k) l)]. apply Permutation_app_head.
    etrans; [|apply (IH (filter (λ x, ¬ f x = k) l)); [done|]].
    + apply reflexive_eq. apply Forall_bind_ext, Forall_forall. intros k' Hk'.
      rewrite (list_filter_filter_l (λ x, f x = k') (λ x, ¬ f x = k)); [done|]. intros x <- Hx. by rewrite Hx in Hk'.
    + intros x [Hne Hx]%list_elem_of_filter. specialize (Hin x Hx). apply elem_of_cons in Hin as [?|?]; done.
Qed.

Lemma filter_groups (g : string → list Item) (ks : list string) n :
  NoDup ks → (∀ k x, x ∈ g k → Namespace x = k) →
  filter (λ x, Namespace x = n) (ks ≫= g) = if decide (n ∈ ks) then g n else [].
Proof.
  intros Hnd Hg. induction ks as [|k ks IH]; [done|]. apply NoDup_cons in Hnd as [Hk Hnd].
  rewrite bind_cons, filter_app, IH by done. destruct (decide (k = n)) as [->|Hne].
  - rewrite (filter_all (λ x, Namespace x = n)) by (apply Forall_forall; intros x; apply Hg).
    rewrite (decide_False (P := n ∈ ks)), (decide_True (P := n ∈ n :: ks)) by (done || by left). by rewrite List.app_nil_r.
  - rewrite (filter_none (λ x, Namespace x = n)) by (apply Forall_forall; intros x Hx; rewrite (Hg _ _ Hx); done).
    apply decide_ext. rewrite elem_of_cons. naive_solver.
Qed.

Section rollup_laws.
Context `{!MapRange, !SortFunc, !Sha256}.
Variable namespaces : string → list string.
Variable store : string → string → Store.StoreState.

Abbreviation rows_of r := (read_rows store r.1 r.2) (only parsing).

Lemma shard_rows reads shards ns :
  default [] (sh_items <$> foldl (add_to_shard store) shards reads !! ns) =
  default [] (sh_items <$> shards !! ns) ++ (filter (λ r, r.1 = ns) reads ≫= λ r, rows_of r).
Proof.
  revert shards. induction reads as [|r reads IH]; intros shards; cbn [foldl]; [by rewrite List.app_nil_r|].
  rewrite IH. unfold add_to_shard. destruct (decide (r.1 = ns)) as [<-|Hne].
  - rewrite (filter_cons_True (λ r', r'.1 = r.1)), bind_cons by done. destruct (rows_of r) as [|i l]; [done|].
    rewrite lookup_insert_eq. cbn [fmap option_fmap option_map default sh_items]. rewrite List.app_assoc. f_equal. f_equal.
    by destruct (shards !! r.1).
  - rewrite (filter_cons_False (λ r', r'.1 = ns)) by done. destruct (rows_of r); [done|]. by rewrite lookup_insert_ne.
Qed.

Lemma compose_rows mode shards statuses checksums rows :
  compose_shards mode shards = Ok (statuses, checksums, rows) → rows = shards ≫= λ p, MergeRows (sh_items p.2) mode.
Proof.
  revert statuses checksums rows. induction shards as [|[ns sh] shards IH]; intros statuses checksums rows; cbn [compose_shards].
  { by intros [= <- <- <-]. }
  destruct (ItemsFingerprint _); [|done]. cbn [mbind result_bind].
  destruct (compose_shards mode shards) as [[[st cs] rs]|]; [|done]. cbn [mbind result_bind]. intros [= <- <- <-].
  rewrite bind_cons. cbn [snd]. f_equal. by eapply IH.
Qed.

(** The shards, as the groups of the flat list of rows. *)
Definition flat_rows (targets : list listed_target) (selected : gset string) : list Item :=
  rollup_reads namespaces targets selected ≫= λ r, rows_of r.

Definition shard_names (targets : list listed_target) (selected : gset string) : list string :=
  sort_strings (map_range (rollup_shards namespaces store targets selected)).*1.

Lemma shard_names_NoDup targets selected : NoDup (shard_names targets selected).
Proof. unfold shard_names. rewrite sort_strings_perm, map_range_perm. apply NoDup_fst_map_to_list. Qed.

Lemma elem_of_shard_names targets selected ns :
  ns ∈ shard_names targets selected ↔ is_Some (rollup_shards namespaces store targets selected !! ns).
Proof.
  unfold shard_names. rewrite elem_of_sort_strings, list_elem_of_fmap. split.
  - intros ([ns' sh] & -> & Hin). apply elem_of_map_range in Hin. eauto.
  - intros [sh Hsh]. exists (ns, sh). split; [done|]. by apply elem_of_map_range.
Qed.

Lemma rollup_rows mode targets selected statuses checksums rows :
  compose_shards mode (sorted_shards (rollup_shards namespaces store targets selected)) = Ok (statuses, checksums, rows) →
  rows = shard_names targets selected ≫= λ ns,
    MergeRows (filter (λ r, r.1 = ns) (rollup_reads namespaces targets selected) ≫= λ r, rows_of r) mode.
Proof.
  intros ->%compose_rows. unfold sorted_shards. fold (shard_names targets selected). rewrite bind_assoc.
  apply Forall_bind_ext, Forall_forall. intros ns [sh Hsh]%elem_of_shard_names.
  pose proof (shard_rows (rollup_reads namespaces targets selected) ∅ ns) as Hr.
  fold (rollup_shards namespaces store targets selected) in Hr. rewrite Hsh in Hr |- *. rewrite lookup_empty in Hr. cbn in Hr.
  rewrite bind_cons. cbn [snd mbind list_bind]. by rewrite Hr, List.app_nil_r.
Qed.

(** ** The two rollups *)

(** Every row a read returns is of the namespace that is read, as the rows of a
    cluster target are. *)
Definition rows_at_home (targets : list listed_target) (selected : gset string) : Prop :=
  Forall (λ r, Forall (λ i, Namespace i = r.1) (rows_of r)) (rollup_reads namespaces targets selected).

Lemma home_filter reads ns :
  Forall (λ r, Forall (λ i, Namespace i = r.1) (rows_of r)) reads →
  filter (λ i, Namespace i = ns) (reads ≫= λ r, rows_of r) = filter (λ r, r.1 = ns) reads ≫= λ r, rows_of r.
Proof.
  induction 1 as [|r reads Hr _ IH]; [done|]. rewrite bind_cons, filter_app, IH. destruct (decide (r.1 = ns)) as [<-|Hne].
  - rewrite (filter_cons_True (λ r', r'.1 = r.1)), bind_cons by done. by rewrite (filter_all (λ i, Namespace i = r.1)).
  - rewrite (filter_cons_False (λ r', r'.1 = ns)) by done. rewrite filter_none; [done|].
    eapply Forall_impl; [exact Hr|]. cbn. congruence.
Qed.

Lemma shard_names_cover targets selected x :
  rows_at_home targets selected → x ∈ flat_rows targets selected → Namespace x ∈ shard_names targets selected.
Proof.
  intros Hhome Hx. apply elem_of_shard_names. destruct (rollup_shards namespaces store targets selected !! Namespace x) as [sh|] eqn:Hsh; [eauto|].
  exfalso. pose proof (shard_rows (rollup_reads namespaces targets selected) ∅ (Namespace x)) as Hr.
  fold (rollup_shards namespaces store targets selected) in Hr. rewrite Hsh, lookup_empty in Hr. cbn in Hr.
  rewrite <- (home_filter _ (Namespace x) Hhome) in Hr. apply (not_elem_of_nil x). rewrite Hr. apply list_elem_of_filter. by split.
Qed.

(** The rows of the rollup by namespace are those of the flat one. *)
Lemma grouped_merge mode flat ks :
  NoDup ks → (∀ x, x ∈ flat → Namespace x ∈ ks) →
  MergeRows (ks ≫= λ ns, MergeRows (filter (λ i, Namespace i = ns) flat) mode) mode ≡ₚ MergeRows flat mode.
Proof.
  intros Hnd Hin. destruct mode.
  { rewrite !(proj1 (merge_rows_last_wins _)). etrans; [|by apply (group_perm Namespace flat ks)].
    apply reflexive_eq, list_bind_ext; [|done]. intros ns. apply merge_rows_last_wins. }
  apply NoDup_Permutation; [apply (NoDup_fmap_1 ResourceKeyFromItem), MergeRows_keys..|]. intros x. rewrite !MergeRows_last.
  rewrite last_row_filter, (last_row_filter flat).
  rewrite (filter_groups (λ ns, MergeRows (filter (λ i, Namespace i = ns) flat) DedupeByResourceUID)); [|done|].
  2: { intros k y Hy%elem_of_MergeRows. by apply list_elem_of_filter in Hy as [? _]. }
  destruct (decide (Namespace x ∈ ks)) as [Hk|Hk].
  - rewrite last_row_NoDup by apply MergeRows_keys. apply MergeRows_last.
  - rewrite (filter_none (λ i, Namespace i = Namespace x) flat); [done|]. apply Forall_forall. intros y Hy%Hin Heq. by rewrite Heq in Hy.
Qed.

Lemma compose_Items now generation mode targets selected ru :
  composeNamespaceRollup namespaces store now generation mode targets selected = Ok ru →
  ru_Items ru = MergeRows (shard_names targets selected ≫= λ ns,
    MergeRows (filter (λ r, r.1 = ns) (rollup_reads namespaces targets selected) ≫= λ r, rows_of r) mode) mode.
Proof.
  unfold composeNamespaceRollup. destruct (compose_shards _ _) as [[[statuses checksums] rows]|] eqn:Hc; [|done].
  apply rollup_rows in Hc as ->. cbn [mbind result_bind]. destruct (MarshalExportEnvelope _ _ _); [|done]. by intros [= <-].
Qed.

(** A row of the rollup was read under the name of a target, in a namespace of the
    selection that has the target. *)
Lemma compose_reads now generation mode targets selected ru x :
  composeNamespaceRollup namespaces store now generation mode targets selected = Ok ru → x ∈ ru_Items ru →
  ∃ ct ns, ct ∈ targets ∧ ns ∈ namespaces (lt_Name ct) ∧ (selected = ∅ ∨ ns ∈ selected) ∧ x ∈ read_rows store ns (lt_Name ct).
Proof.
  intros ->%compose_Items (ns & Hx%elem_of_MergeRows & _)%elem_of_MergeRows%list_elem_of_bind.
  apply list_elem_of_bind in Hx as (r & Hx & [_ Hr]%list_elem_of_filter).
  apply list_elem_of_bind in Hr as (ct & Hr & Hct). apply list_elem_of_fmap in Hr as (ns' & -> & [Hsel Hns]%list_elem_of_filter).
  by exists ct, ns'.
Qed.

(** Rolling up by namespace loses and invents nothing: the rows exported for a
    cluster inventory, which are deduplicated inside each namespace shard, laid out
    in the order of the namespace names and deduplicated again, are up to order the
    rows of the flat rollup that deduplicates all rows at once, in both dedupe modes,
    provided every row lies in the namespace it was read for, as the rows of a
    cluster target do. *)
Theorem rollup_matches_flat now generation mode targets selected ru :
  composeNamespaceRollup namespaces store now generation mode targets selected = Ok ru → rows_at_home targets selected →
  ru_Items ru ≡ₚ collectRollupItems namespaces store mode targets selected.
Proof.
  intros Hru Hhome. rewrite (compose_Items _ _ _ _ _ _ Hru). unfold collectRollupItems.
  etrans; [|apply (grouped_merge mode (flat_rows targets selected) (shard_names targets selected))].
  - apply reflexive_eq. f_equal. apply list_bind_ext; [|done]. intros ns. f_equal. symmetry. by apply home_filter.
  - apply shard_names_NoDup.
  - intros x. by apply shard_names_cover.
Qed.
End rollup_laws.

(** ** What a reconcile exports *)
Section selection_laws.
Context `{!KubeApi, !CelApi, !MapRange, !UnicodeCase, !Yaml, !SortFunc, !Sha256, !JsonDecode, !ApiErrors, !GitErrorApi, !ErrorTexts}.
Context `{!ConditionApi, !ConditionLib}.

Lemma read_rows_of store ns name x :
  store_ok (store ns name) → x ∈ read_rows store ns name → TargetNamespace x = ns ∧ TargetName x = name.
Proof.
  intros Hok. unfold read_rows. pose proof (reads_report_rows ns name (store ns name)) as Hr.
  destruct (Store.SnapshotNamespace ns _), (Store.SnapshotTarget ns name _) as [snap s2], (Store.CountForNamespace _ _), (Store.CountForTarget _ _ _).
  destruct Hr as [(_ & Hs & _) _]. cbn [fst]. rewrite Hs. intros ([k y] & -> & Hk)%list_elem_of_fmap.
  apply elem_of_map_to_list, map_lookup_filter_Some in Hk as [Hy Hk]. apply rows_key_of in Hy; [|done]. cbn in *.
  unfold RowSpec.key_of in Hy. subst k. cbn in Hk. by injection Hk.
Qed.

Variable env : rollup_env.

(** A namespace the API server listed, which the namespace selector matches and the
    explicit list names, if it names any. *)
Definition namespace_selected (inv : cluster_inventory_obj) (ns : string) (labels : labels) : Prop :=
  ∃ listed sel, qe_namespaces env = Ok listed ∧ (ns, labels) ∈ listed ∧
    selector_of (cinv_NamespaceSelector (qo_Spec inv)) = Some sel ∧ sel labels = true ∧
    (Forall (λ n, trim_space n = "") (cinv_Namespaces (qo_Spec inv)) ∨ ∃ n, n ∈ cinv_Namespaces (qo_Spec inv) ∧ ns = trim_space n).

(** What the spec says of a cluster target: it is one of the references or, when
    there are none, the target selector matches its labels, if there is one. *)
Definition target_included (inv : cluster_inventory_obj) (ct : listed_target) : Prop :=
  match cinv_TargetRefs (qo_Spec inv), cinv_TargetSelector (qo_Spec inv) with
  | [], None => True
  | [], Some s => ∃ sel, LabelSelectorAsSelector s = Some sel ∧ sel (lt_Labels ct) = true
  | refs, _ => lt_Name ct ∈ refs
  end.

(** A listed cluster target the spec includes, whose own namespace selector matches
    a selected namespace. *)
Definition target_selected (inv : cluster_inventory_obj) (ct : listed_target) : Prop :=
  (∃ cts, qe_targets env = Ok cts ∧ ct ∈ cts) ∧ target_included inv ct ∧
  ∃ sel ns labels, selector_of (lt_NamespaceSelector ct) = Some sel ∧ namespace_selected inv ns labels ∧ sel labels = true.

(** The row belongs to a selected namespace, and to a Ready selected cluster target
    that is registered there. *)
Definition row_selected (inv : cluster_inventory_obj) (x : Item) : Prop :=
  (∃ labels, namespace_selected inv (TargetNamespace x) labels) ∧
  ∃ ct, target_selected inv ct ∧ TargetName x = lt_Name ct ∧ clusterTargetReady ct = true ∧
    TargetNamespace x ∈ NamespacesForClusterTarget (lt_Name ct) (qe_engine env (lt_Name ct)).

(** The cluster scope in force admits the sinks and the namespaces they name. *)
Definition sinks_admitted (inv : cluster_inventory_obj) : Prop :=
  ∃ b, LoadCluster (qe_scope env) = Ok b ∧
    (cluster_Enforced b = true →
     ValidateClusterInventoryClusterScopeSinkRefs (cluster_Scope b) (clusterInventorySinkBindings inv) = Ok tt ∧
     ∀ binding ns, binding ∈ clusterInventorySinkBindings inv → ns ≠ "" →
       ns = binding_namespace (trim_space (if decide (cinv_SinkNamespace (qo_Spec inv) = "") then DefaultSecretNamespace
                                           else cinv_SinkNamespace (qo_Spec inv))) binding →
       ValidateClusterScopeStaticRefNamespace (cluster_Scope b) ns = Ok tt).

Lemma selected_namespace bad inv selected ns labels :
  selectedInventoryNamespaces (qe_namespaces env) bad inv = Ok selected → (ns, labels) ∈ selected → namespace_selected inv ns labels.
Proof.
  unfold selectedInventoryNamespaces, namespace_selected. destruct (selector_of _) as [sel|]; [|done].
  destruct (qe_namespaces env) as [listed|]; [|done].
  cbn [mbind result_bind]. intros [= <-] [[He Hs] Hin]%list_elem_of_filter. exists listed, sel. cbn in He, Hs. split_and!; [done..|].
  destruct He as [He|[_ (n & -> & Hn)%list_elem_of_fmap]%list_elem_of_filter]; [left|by right; exists n].
  apply Forall_forall. intros n Hn. destruct (decide (trim_space n = "")) as [|Hne]; [done|]. exfalso.
  apply (not_elem_of_nil (trim_space n)). rewrite <- He. apply list_elem_of_filter. split; [done|]. by apply list_elem_of_fmap_2.
Qed.

Lemma selected_target bad inv namespaces targets ct :
  selectedInventoryNamespaces (qe_namespaces env) bad inv = Ok namespaces →
  selectedClusterTargets (qe_targets env) bad inv namespaces = Ok targets → ct ∈ targets →
  namespaces ≠ [] ∧ target_selected inv ct.
Proof.
  intros Hns. unfold selectedClusterTargets. destruct (qe_targets env) as [cts|] eqn:Hcts; [|done]. cbn [mbind result_bind].
  destruct (targetSelectorFor inv) as [targetSel|] eqn:Hts; [|done]. intros [= <-] [(Hi & Hl & Hm) Hin]%list_elem_of_filter.
  unfold clusterTargetMatchesInventoryNS in Hm. destruct (selector_of (lt_NamespaceSelector ct)) as [sel|] eqn:Hsel; [|done].
  apply existsb_exists in Hm as ([ns labels] & Hn%list_elem_of_In & Hm). split; [by intros ->; apply not_elem_of_nil in Hn|].
  split; [by exists cts|]. split; [|exists sel, ns, labels; split_and!; [done| |done]; by eapply selected_namespace].
  unfold targetIncluded in Hi. unfold targetSelectorFor in Hts. unfold target_included.
  destruct (cinv_TargetRefs (qo_Spec inv)) as [|r refs].
  - destruct (cinv_TargetSelector (qo_Spec inv)) as [s|]; [|done].
    destruct (LabelSelectorAsSelector s) as [f|]; [|done]. injection Hts as <-. by exists f.
  - cbn [length bool_decide orb] in Hi. apply existsb_exists in Hi as (n & Hn' & <-%bool_decide_eq_true). by apply list_elem_of_In.
Qed.

Lemma scope_admits inv bindings sinkNS :
  bindings = clusterInventorySinkBindings inv →
  sinkNS = (if decide (cinv_SinkNamespace (qo_Spec inv) = "") then DefaultSecretNamespace else cinv_SinkNamespace (qo_Spec inv)) →
  enforceClusterScopePolicy env inv sinkNS bindings = Ok None → sinks_admitted inv.
Proof.
  intros -> HsinkNS. unfold enforceClusterScopePolicy. destruct (LoadCluster _) as [b|] eqn:Hb; [|done].
  intros He. exists b. split; [done|]. intros Hen. rewrite Hen in He. cbn [negb] in He.
  destruct (for_each _ _) as [[]|] eqn:Hf; [|done]. destruct (ValidateClusterInventoryClusterScopeSinkRefs _ _) as [[]|]; [|done].
  split; [done|]. intros binding ns Hin Hne Heq. rewrite for_each_ok, Forall_forall in Hf. apply Hf.
  apply (static_ref_namespaces_exact (qo_Spec inv) sinkNS). split; [done|]. right. exists binding. subst sinkNS. done.
Qed.

Lemma degraded_pass inv s reason message t events pass : ro_Pass (rollup_setDegraded env inv s reason message t events pass) = pass.
Proof. unfold rollup_setDegraded. by destruct (rollup_status_update _ _) as [?|[]]. Qed.

Lemma updated_pass inv s n m o shards t events pass : ro_Pass (rollup_updateStatus env inv s n m o shards t events pass) = pass.
Proof.
  unfold rollup_updateStatus. destruct (if bool_decide _ then rollup_pass_conditions _ _ _ _ _ _ else _).
  by destruct (rollup_status_update _ _) as [?|[]].
Qed.

Lemma exported_rows invKey inv s targets selected sinkNS t items o :
  ro_Pass (reconcileRollupExport env invKey inv s targets selected sinkNS t) = Some (items, o) →
  ∃ ru, composeNamespaceRollup (rollup_namespaces env) (qe_store env) (qe_now_marshal env) (qo_Generation inv)
          (DedupeModeFromSpec (Some (qo_Spec inv))) targets selected = Ok ru ∧ items = ru_Items ru.
Proof.
  unfold reconcileRollupExport. destruct (composeNamespaceRollup _ _ _ _ _ _ _) as [ru|]; [|done].
  destruct (assessExportSpill _ _ _ _) as [[[]|]|]; [by rewrite degraded_pass| |done]. case_decide; [by rewrite updated_pass|].
  destruct (exportClusterToSinks _ _ _ _) as [o' t']. intros Hp. exists ru. split; [done|]. revert Hp.
  destruct (ExportErr o') as [e|]; [destruct (isTotalExportFailure o')|]; cbn [ro_Pass]; rewrite ?degraded_pass, ?updated_pass; congruence.
Qed.

Lemma selected_pass invKey inv namespaces targets t items o bad :
  (∀ ns name, store_ok (qe_store env ns name)) →
  selectedInventoryNamespaces (qe_namespaces env) bad inv = Ok namespaces →
  selectedClusterTargets (qe_targets env) bad inv namespaces = Ok targets →
  ro_Pass (reconcile_targets env invKey inv namespaces targets t) = Some (items, o) →
  Forall (row_selected inv) items ∧ sinks_admitted inv.
Proof.
  intros Hstore Hns Hct. unfold reconcile_targets. case_decide; [case_match; [done|by rewrite degraded_pass]|].
  case_decide as Hready; [by rewrite degraded_pass|]. cbv zeta.
  destruct (enforceClusterScopePolicy _ _ _ _) as [[[]|]|] eqn:Hsc; [by rewrite degraded_pass| |done].
  destruct (checkInventorySinksReachable _ _ _) as [[sinkOK ?] ?]. destruct sinkOK; cbn [negb]; [|by rewrite degraded_pass].
  intros (ru & Hru & ->)%exported_rows. split; [|by eapply scope_admits].
  apply Forall_forall. intros x (ct & ns & Hc & Hin & Hsel & Hx)%(compose_reads _ _ _ _ _ _ _ _ _ Hru).
  apply read_rows_of in Hx as [Hxn Hxt]; [|done]. destruct (selected_target _ _ _ _ _ Hns Hct Hc) as [Hne Hts].
  destruct Hsel as [Hsel|Hsel]; unfold namespaceNameSet in Hsel.
  { destruct namespaces as [|[n l] namespaces]; [done|]. exfalso. apply (not_elem_of_empty (C := gset string) n). rewrite <- Hsel. set_solver. }
  rewrite elem_of_list_to_set, list_elem_of_fmap in Hsel. destruct Hsel as ([ns' labels] & -> & Hl). cbn [fst] in *.
  unfold row_selected. rewrite Hxn. split; [exists labels; by eapply selected_namespace|]. exists ct. split_and!; try done.
  destruct (clusterTargetReady ct) eqn:Hr; [done|]. exfalso. apply Hready. rewrite length_fmap.
  destruct (filter _ targets) as [|ct' l] eqn:Hf; [|cbn; lia]. destruct (not_elem_of_nil ct). rewrite <- Hf.
  apply list_elem_of_filter. by split.
Qed.

(** C11. A cluster inventory exports only what it selects: whatever the API server,
    the engine and the sinks answer, every row handed to the export pass belongs to a
    listed namespace that matches the namespace selector (and the explicit list, if
    one is given), and was collected under the name of a listed cluster target that
    is Ready and registered in that namespace, that is one of the target references
    or, when there are none, matches the target selector (if there is one), and whose
    own namespace selector matches a selected namespace; the pass runs only for an
    object that is neither suspended nor being deleted, and only when the cluster
    scope in force admits every sink it binds and every namespace those sinks are
    read from. *)
Theorem rollup_within_selection {W} (cleanup : cleanup_env (W := W)) recorder registry is_no_match watchNamespaces counterpart text invKey t w
    items o :
  (∀ ns name, store_ok (qe_store env ns name)) →
  ro_Pass (clusterinventory_Reconcile env cleanup recorder registry is_no_match watchNamespaces counterpart text invKey t w).1.1 = Some (items, o) →
  ∃ inv, qe_get env = Ok inv ∧ qo_Deleting inv = false ∧ cinv_Suspend (qo_Spec inv) = false ∧
    Forall (row_selected inv) items ∧ sinks_admitted inv.
Proof.
  intros Hstore. unfold clusterinventory_Reconcile. destruct (qe_get env) as [inv|]; [|done].
  destruct (qo_Deleting inv) eqn:Hdel. { by destruct (finalizeInventoryDeletion _ _ _ _ _ _ _ _ _ _ _ _ _). }
  destruct (if bool_decide _ then None else qe_update env) as [e|]; [by destruct (qe_isConflict env e)|].
  destruct (cinv_Suspend (qo_Spec inv)) eqn:Hsus; [cbn [fst]; by rewrite degraded_pass|].
  destruct (selectedInventoryNamespaces _ _ _) as [namespaces|] eqn:Hns; [|done].
  destruct (selectedClusterTargets _ _ _ _) as [targets|] eqn:Hct; [|done]. cbn [fst]. intros Hp.
  exists inv. split_and!; [done..| |]; by eapply selected_pass.
Qed.
End selection_laws.

(** * Concrete rollups *)
Module RollupDemo.
Import EngineDemo ListConditions.
#[local] Existing Instances demo_kube demo_cel demo_extract demo_sha256 map_range_to_list ascii_only_case sort_by_merge_sort no_api_errors
  CleanupDemo.no_git_errors CleanupDemo.no_decode CleanupDemo.same_yaml TargetDemo.texts.

Definition row (ns uid : string) : Item := mkItem ns "all" ns uid "" "v1" "Pod" uid None.

(** Two rows of the target [all] in the namespace [a] and one in [b]. *)
Definition stored : Store.StoreState := run [OpUpsert (row "a" "u1"); OpUpsert (row "b" "u2"); OpUpsert (row "a" "u3")] Store.NewStore.

Definition ready : Condition := mkCondition conditionReady ConditionTrue "" "" 1 0.
Definition all : listed_target := mkListedTarget "all" ∅ (Some (mkLabelSelector ∅ [])) [ready].

Definition rolled (mode : DedupeMode) : result envelope_error clusterRollup :=
  composeNamespaceRollup (λ _, ["a"; "b"]) (λ _ _, stored) 0 1 mode [all] ∅.

Definition or_empty (r : result envelope_error clusterRollup) : clusterRollup :=
  match r with Ok ru => ru | Err _ => mkClusterRollup [] "" "" [] end.

Lemma some_rollup r : (match r with Ok _ => true | Err _ => false end) = true → r = Ok (or_empty r).
Proof. by destruct r. Qed.

Lemma rollup_matches_flat_witness :
  length (collectRollupItems (λ _, ["a"; "b"]) (λ _ _, stored) DedupeByResourceUID [all] ∅) = 3 ∧
  ru_Items (or_empty (rolled DedupeByResourceUID)) ≡ₚ collectRollupItems (λ _, ["a"; "b"]) (λ _ _, stored) DedupeByResourceUID [all] ∅.
Proof.
  split; [vm_compute; reflexivity|]. apply (rollup_matches_flat (λ _, ["a"; "b"]) (λ _ _, stored) 0 1 DedupeByResourceUID [all] ∅).
  - apply (some_rollup (rolled DedupeByResourceUID)). vm_compute. reflexivity.
  - unfold rows_at_home. apply (bool_decide_unpack (Forall _ _)). vm_compute. exact I.
Defined.

(** An inventory of the namespaces with the label [team=x]: [a], and not [b]. *)
Definition spec (sinks : list string) : KollectClusterInventorySpec :=
  mkKollectClusterInventorySpec None [] None (Some (mkLabelSelector {["team" := "x"]} [])) []
    ((λ n, mkInventorySinkRef n "" None None) <$> sinks) [] [] "platform" (Some 0%Z) "" false.

Definition object (sp : KollectClusterInventorySpec) : cluster_inventory_obj :=
  mkClusterInventoryObj "inv" "uid-1" 1 0 ∅ [clusterInventoryCleanupFinalizer] false sp (mkClusterInventoryStatus [] 0 0 0 [] None []).

Definition engine : EngineState :=
  out_Engine (cluster_Reconcile (mkClusterEnv (Ok (ClusterDemo.all_pods "all" false)) None (λ _, false) (Ok profile) (Ok ClusterDemo.namespaces)
    (Some []) (Leaf 0 "") (Some ClusterDemo.namespaces) (Some ClusterDemo.namespaces) (λ _, None) None 0 (λ _, "") (λ _, "")) ClusterDemo.fresh).

(** A cluster scope that admits the sink [git] of the namespace [platform]. *)
Definition git_only : KollectClusterScope :=
  mkKollectClusterScope "scope" (mkKollectClusterScopeSpec (mkScopeCeilingSpec [] [] [] None) ["git"] [] [] ["platform"]).

Definition env (obj : cluster_inventory_obj) : rollup_env :=
  mkRollupEnv (Ok obj) None None (λ _, false) (Ok [("a", {["team" := "x"]}); ("b", ∅)]) (Ok [all]) (Leaf 0 "") (Some [git_only])
    (λ _, Leaf 1 "") (λ _, "") (Some []) (λ _, mkSinkAnswer (Ok tt) (Ok [])) (λ _, "sink") (λ _, Ok "git") (λ _, engine) (λ _ _, stored) 1000000
    (100 * second) (100 * second) (100 * second) (λ _ _, 0%Z) (λ _, Ok (mkResolvedSink "sink" 1 None))
    (λ _ _, Ok ["inventory/inv.json"]) (λ _, (101 * second)%Z) (λ _, Leaf 10 "partition") (λ _, Leaf 11 "envelope").

Definition reconcile (e : rollup_env) (t : gmap string sinkCoalesceState) : rollup_outcome :=
  (clusterinventory_Reconcile e InventoryDemo.cleanup true true (λ _, false) [] (λ _, None) "" "inv" t tt).1.1.

Definition exported (r : rollup_outcome) : list Item := match ro_Pass r with Some (items, _) => items | None => [] end.
Definition reported (r : rollup_outcome) : perSinkExportOutcome := match ro_Pass r with Some (_, o) => o | None => empty_outcome 0 end.

Lemma some_pass r : (match ro_Pass r with Some _ => true | None => false end) = true → ro_Pass r = Some (exported r, reported r).
Proof. unfold exported, reported. by destruct (ro_Pass r) as [[]|]. Qed.

Definition git : cluster_inventory_obj := object (spec ["git"]).

Lemma rollup_within_selection_witness :
  rollup_namespaces (env git) "all" = ["a"; "b"] ∧ (UID <$> exported (reconcile (env git) ∅)) = ["u3"; "u1"] ∧
  ∃ inv, Ok git = Ok (E := err) inv ∧ qo_Deleting inv = false ∧ cinv_Suspend (qo_Spec inv) = false ∧
    Forall (row_selected (env git) inv) (exported (reconcile (env git) ∅)) ∧ sinks_admitted (env git) inv.
Proof.
  split; [vm_compute; reflexivity|]. split; [vm_compute; reflexivity|].
  apply (rollup_within_selection (env git) InventoryDemo.cleanup true true (λ _, false) [] (λ _, None) "" "inv" ∅ tt (exported (reconcile (env git) ∅)) (reported (reconcile (env git) ∅))).
  - intros ns name. apply store_ok_run, store_ok_NewStore.
  - unfold reconcile. apply some_pass. vm_compute. reflexivity.
Defined.

(** With one sink debounced and the other failing, the error goes into the status
    as it is: a redaction that hides every text is not applied. *)
#[local] Instance hide_all : ConditionApi :=
  {| SetStatusCondition cs c := remove cs (cond_Type c) ++ [c]; redact_Text _ := "hidden"; ErrSpillRequired := 5 |}.

Definition two : cluster_inventory_obj := object (spec ["git"; "s3"]).

Definition one_fails : rollup_env :=
  let e := env two in
  mkRollupEnv (qe_get e) (qe_update e) (qe_status e) (qe_isConflict e) (qe_namespaces e) (qe_targets e) (qe_selector_err e) (Some [])
    (qe_scope_err e) (qe_violation e) (qe_scope_floor e) (qe_sink e) (qe_sink_name e) (qe_sink_type e) (qe_engine e) (qe_store e)
    (qe_maxExportBytesGlobal e) (qe_now e) (qe_now_marshal e) (qe_now_pass e) (qe_clock e) (qe_resolve e)
    (λ n _, if bool_decide (n = 1) then Err (Leaf 9 "https://user:pw@host refused") else Ok ["inventory/inv.json"]) (qe_exportTime e)
    (qe_part_err e) (qe_envelope_err e).

Definition hidden_message (r : rollup_outcome) : option bool :=
  s ← ro_Saved r; c ← find (cs_Conditions s) conditionDegraded; Some (bool_decide (cond_Message c = "hidden")).

Example partial_failure_unredacted :
  hidden_message (reconcile one_fails (ro_Tracker (reconcile one_fails ∅))) = Some false.
Proof. vm_compute. reflexivity. Qed.
End RollupDemo.
