(* ===== verification/SqlText.v ===== *)
(** SQL texts the database sinks build from names and rows
    ([src/internal/sink/postgres/backend.go], [src/internal/sink/bigquery/backend.go]),
    with readers for the quoted forms they use: PostgreSQL's quoted identifiers, and
    GoogleSQL's single-quoted literals and the [SELECT ... UNION ALL ...] list the
    BigQuery sink inlines its rows as. A reader follows the lexical rules of the SQL
    dialect, not the way the code writes; what it accepts is only the fragment the
    code can produce. *)

From S2P Require Import Prelude GoStrings Values Store Json GoTemplate.

Implicit Types (s t : string) (c : ascii).

Definition dq : ascii := ascii_of_nat 34.
Definition sq : ascii := ascii_of_nat 39.
Definition bs : ascii := ascii_of_nat 92.
Definition lf : ascii := ascii_of_nat 10.
Definition cr : ascii := ascii_of_nat 13.
Definition bq : ascii := ascii_of_nat 96.
Definition one (c : ascii) : string := String c "".

(** * PostgreSQL identifiers *)

(** Go: internal/sink/postgres/backend.go:243-245 [pgxQuoteIdent] *)
Definition pgxQuoteIdent (name : string) : string := one dq +:+ replace_all (one dq) (one dq +:+ one dq) name +:+ one dq.

Definition cons_fst (c : ascii) (r : option (string * string)) : option (string * string) := prod_map (String c) id <$> r.

(** The rest of a quoted identifier: a doubled quote stands for one, a single one
    ends the identifier. *)
Fixpoint quoted_rest (s : string) : option (string * string) :=
  match s with
  | "" => None
  | String c s =>
      if decide (c = dq) then
        match s with
        | String c' s' => if decide (c' = dq) then cons_fst dq (quoted_rest s') else Some ("", s)
        | "" => Some ("", "")
        end
      else cons_fst c (quoted_rest s)
  end.

Definition read_identifier (s : string) : option (string * string) :=
  match s with String c s => if decide (c = dq) then quoted_rest s else None | "" => None end.

(** * GoogleSQL literals *)

(** Go: internal/sink/bigquery/backend.go:362-377 [sqlStringLiteralEscaper] *)
Definition sqlStringLiteralEscaper : list (string * string) :=
  [(one bs, one bs +:+ one bs); (one sq, one bs +:+ one sq); (one lf, one bs +:+ "n"); (one cr, one bs +:+ "r")].

(** Go: internal/sink/bigquery/backend.go:379-384 [sqlStringLiteral] *)
Definition sqlStringLiteral (v : string) : string := one sq +:+ replacer sqlStringLiteralEscaper v +:+ one sq.

(** The single-character escape sequences of GoogleSQL. *)
Definition unescape (c : ascii) : option ascii :=
  if decide (c ∈ [bs; sq; dq; bq; "?"%char]) then Some c
  else if decide (c = "n"%char) then Some lf
  else if decide (c = "r"%char) then Some cr
  else if decide (c = "t"%char) then Some (ascii_of_nat 9)
  else if decide (c = "a"%char) then Some (ascii_of_nat 7)
  else if decide (c = "b"%char) then Some (ascii_of_nat 8)
  else if decide (c = "f"%char) then Some (ascii_of_nat 12)
  else if decide (c = "v"%char) then Some (ascii_of_nat 11)
  else None.

(** The rest of a literal or identifier quoted by [q], which have the same escapes;
    a raw line break is refused. *)
Fixpoint literal_rest (q : ascii) (s : string) : option (string * string) :=
  match s with
  | "" => None
  | String c s =>
      if decide (c = q) then Some ("", s)
      else if decide (c = bs) then
        match s with
        | String e s' => match unescape e with Some b => cons_fst b (literal_rest q s') | None => None end
        | "" => None
        end
      else if decide (c = lf ∨ c = cr) then None
      else cons_fst c (literal_rest q s)
  end.

Definition read_literal (s : string) : option (string * string) :=
  match s with String c s => if decide (c = sq) then literal_rest sq s else None | "" => None end.

(** Go: internal/sink/bigquery/backend.go:336-342 [qualifiedTable] *)
Definition qualifiedTable (project dataset table : string) : string :=
  let drop v := replace_all (one bq) "" v in
  one bq +:+ drop project +:+ "." +:+ drop dataset +:+ "." +:+ drop table +:+ one bq.

Definition read_table (s : string) : option (string * string) :=
  match s with String c s => if decide (c = bq) then literal_rest bq s else None | "" => None end.

(** * The inlined source rows *)

(** Go: internal/sink/bigquery/backend.go:56-64 [mergeRow] *)
Record mergeRow := mkMergeRow {
  mr_InventoryNamespace : string;
  mr_InventoryName : string;
  mr_Cluster : string;
  mr_TargetName : string;
  mr_SourceUID : string;
  mr_ResourceNamespace : string;
  mr_PayloadJSON : string;
}.

(** The format of one row. *)
Definition select_row (row : mergeRow) : string :=
  "SELECT " +:+ sqlStringLiteral (mr_InventoryNamespace row) +:+ " AS inventory_namespace, " +:+
  sqlStringLiteral (mr_InventoryName row) +:+ " AS inventory_name, " +:+
  sqlStringLiteral (mr_Cluster row) +:+ " AS cluster, " +:+
  sqlStringLiteral (mr_TargetName row) +:+ " AS target_name, " +:+
  sqlStringLiteral (mr_SourceUID row) +:+ " AS source_uid, " +:+
  sqlStringLiteral (mr_ResourceNamespace row) +:+ " AS resource_namespace, " +:+
  sqlStringLiteral (mr_PayloadJSON row) +:+ " AS payload_json".

(** Go: internal/sink/bigquery/backend.go:344-360 [mergeSourceRowsSQL] *)
Definition mergeSourceRowsSQL (rows : list mergeRow) : string := "(" +:+ join " UNION ALL " (select_row <$> rows) +:+ ")".

(** A literal and the text that follows it. *)
Definition read_column (label s : string) : option (string * string) :=
  '(v, s) ← read_literal s; s ← cut_prefix label s; Some (v, s).

Definition read_select (s : string) : option (mergeRow * string) :=
  s ← cut_prefix "SELECT " s;
  '(a, s) ← read_column " AS inventory_namespace, " s;
  '(b, s) ← read_column " AS inventory_name, " s;
  '(c, s) ← read_column " AS cluster, " s;
  '(d, s) ← read_column " AS target_name, " s;
  '(e, s) ← read_column " AS source_uid, " s;
  '(f, s) ← read_column " AS resource_namespace, " s;
  '(g, s) ← read_column " AS payload_json" s;
  Some (mkMergeRow a b c d e f g, s).

Fixpoint read_selects (fuel : nat) (s : string) : option (list mergeRow * string) :=
  match fuel with
  | 0 => None
  | S fuel =>
      '(row, s) ← read_select s;
      match cut_prefix " UNION ALL " s with
      | Some s => '(rows, s) ← read_selects fuel s; Some (row :: rows, s)
      | None => s ← cut_prefix ")" s; Some ([row], s)
      end
  end.

(** The parenthesised list; the fuel is the length of the text, and every row takes
    some of it. *)
Definition read_source (s : string) : option (list mergeRow * string) :=
  s ← cut_prefix "(" s; read_selects (String.length s) s.

(** * Reading back *)

Lemma cons_fst_Some c a s : cons_fst c (Some (a, s)) = Some (String c a, s).
Proof. done. Qed.

Lemma double_quote_step c s :
  replace_all (one dq) (one dq +:+ one dq) (String c s) =
  if decide (c = dq) then String dq (String dq (replace_all (one dq) (one dq +:+ one dq) s))
  else String c (replace_all (one dq) (one dq +:+ one dq) s).
Proof.
  destruct (decide (c = dq)) as [->|Hne].
  - change (String dq s) with (one dq +:+ s). unfold one at 1. by rewrite replace_all_hit.
  - apply replace_all_miss. apply not_true_iff_false. rewrite has_prefix_true. intros (r & [= Hc _]). done.
Qed.

(** An identifier that is not followed by another quote reads back as the name. *)
Lemma identifier_reads_back name s :
  (∀ s', s ≠ String dq s') → read_identifier (pgxQuoteIdent name +:+ s) = Some (name, s).
Proof.
  intros Hs. unfold pgxQuoteIdent. rewrite !app_assoc. change (one dq +:+ ?t) with (String dq t). unfold read_identifier.
  rewrite decide_True by done. induction name as [|c name IH].
  - change (replace_all _ _ "" +:+ one dq +:+ s) with (String dq s). cbn [quoted_rest]. rewrite decide_True by done.
    destruct s as [|c s]; [done|]. rewrite decide_False; [done|]. intros ->. by apply (Hs s).
  - rewrite double_quote_step. destruct (decide (c = dq)) as [->|Hne]; rewrite !app_cons; cbn [quoted_rest].
    + rewrite !decide_True by done. by rewrite IH.
    + rewrite decide_False by done. by rewrite IH.
Qed.

(** The escaper is a map on bytes, since every key is one byte. *)
Definition escape (c : ascii) : string :=
  if decide (c = bs) then one bs +:+ one bs
  else if decide (c = sq) then one bs +:+ one sq
  else if decide (c = lf) then one bs +:+ "n"
  else if decide (c = cr) then one bs +:+ "r"
  else one c.

Lemma one_prefix k c s : has_prefix (one k) (String c s) = bool_decide (c = k).
Proof.
  apply eq_true_iff_eq. rewrite has_prefix_true, bool_decide_eq_true. unfold one. split.
  - by intros (r & [= -> _]).
  - intros ->. by exists s.
Qed.

Lemma escaper_hit c s :
  replacer_hit sqlStringLiteralEscaper (String c s) =
  if decide (c ∈ [bs; sq; lf; cr]) then Some (one c, escape c) else None.
Proof.
  unfold replacer_hit, sqlStringLiteralEscaper, escape. cbn [list_find fst]. rewrite !one_prefix.
  destruct (decide (c = bs)) as [->|]; [done|]. destruct (decide (c = sq)) as [->|]; [done|].
  destruct (decide (c = lf)) as [->|]; [done|]. destruct (decide (c = cr)) as [->|]; [done|].
  rewrite (decide_False (P := c ∈ [bs; sq; lf; cr])) by set_solver. by rewrite !bool_decide_false by done.
Qed.

Lemma escaper_bind s : replacer sqlStringLiteralEscaper s = string_bind escape s.
Proof.
  unfold replacer. induction s as [|c s IH]; [done|]. cbn [replacer_go string_bind]. rewrite escaper_hit.
  destruct (decide (c ∈ [bs; sq; lf; cr])) as [_|Hn]; [by rewrite <- IH|]. rewrite IH. unfold escape.
  rewrite !decide_False by set_solver. done.
Qed.

Lemma literal_byte c s : literal_rest sq (escape c +:+ s) = cons_fst c (literal_rest sq s).
Proof.
  unfold escape.
  destruct (decide (c = bs)) as [->|H1]; [done|]. destruct (decide (c = sq)) as [->|H2]; [done|].
  destruct (decide (c = lf)) as [->|H3]; [done|]. destruct (decide (c = cr)) as [->|H4]; [done|].
  change (one c +:+ s) with (String c s). cbn [literal_rest]. rewrite !decide_False by tauto. done.
Qed.

(** A literal reads back as the value it was made from, whatever text follows. *)
Lemma literal_reads_back v s : read_literal (sqlStringLiteral v +:+ s) = Some (v, s).
Proof.
  unfold sqlStringLiteral. rewrite escaper_bind, !app_assoc. change (one sq +:+ ?t) with (String sq t). unfold read_literal.
  rewrite decide_True by done. induction v as [|c v IH]; [done|]. cbn [string_bind]. rewrite app_assoc, literal_byte.
  by rewrite IH.
Qed.

Lemma column_reads_back v label s : read_column label (sqlStringLiteral v +:+ label +:+ s) = Some (v, s).
Proof. unfold read_column. rewrite literal_reads_back. cbn. by rewrite cut_prefix_app. Qed.

Lemma select_reads_back row s : read_select (select_row row +:+ s) = Some (row, s).
Proof.
  unfold select_row, read_select. rewrite !app_assoc, cut_prefix_app. cbn [mbind option_bind].
  do 7 (rewrite column_reads_back; cbn [mbind option_bind]). by destruct row.
Qed.

Definition plain_name (s : string) : Prop := string_forall (λ c, bool_decide (c ∉ [bs; bq; lf; cr])) s = true.

Lemma plain_keeps s : plain_name s → replace_all (one bq) "" s = s.
Proof.
  unfold plain_name. induction s as [|c s IH]; [done|]. cbn [string_forall]. intros [Hc Hs]%andb_true_iff.
  apply bool_decide_eq_true in Hc. rewrite replace_all_miss; [by rewrite IH|]. rewrite one_prefix.
  apply bool_decide_eq_false. set_solver.
Qed.

Lemma plain_rest v s : plain_name v → literal_rest bq (v +:+ s) = prod_map (String.append v) id <$> literal_rest bq s.
Proof.
  unfold plain_name. induction v as [|c v IH]; cbn [string_forall].
  { intros _. change ("" +:+ s) with s. by destruct (literal_rest bq s) as [[]|]. }
  intros [Hc%bool_decide_eq_true Hv]%andb_true_iff. rewrite app_cons. cbn [literal_rest]. rewrite !decide_False by set_solver.
  rewrite IH by done. by destruct (literal_rest bq s) as [[]|].
Qed.

(** A table path made of plain names reads back. *)
Lemma table_reads_back project dataset table s :
  plain_name project → plain_name dataset → plain_name table →
  read_table (qualifiedTable project dataset table +:+ s) = Some (project +:+ "." +:+ dataset +:+ "." +:+ table, s).
Proof.
  intros Hp Hd Ht. unfold qualifiedTable. rewrite !plain_keeps by done. rewrite !app_assoc.
  change (one bq +:+ ?t) with (String bq t). unfold read_table. rewrite decide_True by done.
  change (one bq +:+ s) with (String bq s).
  rewrite !(plain_rest project), !(plain_rest "."), !(plain_rest dataset), !(plain_rest "."), (plain_rest table) by done.
  cbn [literal_rest]. rewrite decide_True by done. cbn. by rewrite GoStrings.app_nil_r.
Qed.

(** A backslash is not removed from a table name, and it takes the closing quote
    with it: no statement on such a table can be read. *)
Example backslash_table_unreadable : read_table (qualifiedTable "p" "d" ("t" +:+ one bs) +:+ " AS t WHERE x") = None.
Proof. reflexivity. Qed.

Lemma selects_read_back fuel rows s :
  rows ≠ [] → length rows ≤ fuel →
  read_selects fuel (join " UNION ALL " (select_row <$> rows) +:+ ")" +:+ s) = Some (rows, s).
Proof.
  revert fuel. induction rows as [|row rows IH]; intros fuel Hne Hf; [done|]. destruct fuel as [|fuel]; [cbn in Hf; lia|].
  cbn [read_selects]. destruct rows as [|row' rows].
  - rewrite fmap_cons, fmap_nil. change (join " UNION ALL " [select_row row]) with (select_row row). rewrite select_reads_back. done.
  - rewrite !fmap_cons, join_cons, !app_assoc, select_reads_back. cbn [mbind option_bind]. rewrite cut_prefix_app.
    rewrite <- fmap_cons, IH; [done..|]. cbn in *. lia.
Qed.

Lemma rows_shorter_than_text rows : length rows ≤ String.length (join " UNION ALL " (select_row <$> rows)).
Proof.
  induction rows as [|row [|row' rows] IH]; [done|cbn [fmap list_fmap join String.concat length]|].
  - unfold select_row. rewrite length_app. cbn [String.length]. lia.
  - rewrite !fmap_cons, join_cons, <- fmap_cons. rewrite !length_app. cbn [length String.length] in *. lia.
Qed.

Lemma source_reads_back rows s : rows ≠ [] → read_source (mergeSourceRowsSQL rows +:+ s) = Some (rows, s).
Proof.
  intros Hne. unfold mergeSourceRowsSQL, read_source. rewrite !app_assoc, cut_prefix_app. cbn [mbind option_bind].
  apply selects_read_back; [done|]. rewrite length_app. pose proof (rows_shorter_than_text rows). lia.
Qed.

(** C21. Nothing in a row can escape from the SQL text it is inlined in: for every
    list of rows, whatever quotes, backslashes and line breaks their names and
    payloads hold and whatever text follows, the source list the BigQuery sink writes
    into its MERGE and DELETE statements reads back, by the lexical rules of
    GoogleSQL, as exactly those rows; and a quoted PostgreSQL identifier reads back
    as the name. *)
Theorem sql_text_reads_back rows name s :
  rows ≠ [] → (∀ s', s ≠ String dq s') →
  read_source (mergeSourceRowsSQL rows +:+ s) = Some (rows, s) ∧ read_identifier (pgxQuoteIdent name +:+ s) = Some (name, s).
Proof.
  intros Hne Hs. split; [by apply source_reads_back|by apply identifier_reads_back].
Qed.

(** A target name that tries to close its literal, and a payload with quotes. *)
Lemma sql_text_reads_back_witness :
  let row := mkMergeRow "team" "inv" "" ("x" +:+ one bs +:+ one sq +:+ ") UNION ALL SELECT") "u1" "ns" (one dq +:+ one lf +:+ one sq) in
  read_source (mergeSourceRowsSQL [row; row] +:+ " AS s") = Some ([row; row], " AS s") ∧
  read_identifier (pgxQuoteIdent ("a" +:+ one dq +:+ "; DROP") +:+ " AS s") = Some ("a" +:+ one dq +:+ "; DROP", " AS s").
Proof.
  cbv zeta. apply (sql_text_reads_back [_; _] ("a" +:+ one dq +:+ "; DROP") " AS s").
  - discriminate.
  - intros s'. discriminate.
Defined.
