(* ===== verification/DatabaseSinks.v ===== *)
(** The database sinks: PostgreSQL, MongoDB and BigQuery
    ([src/internal/sink/postgres], [src/internal/sink/mongodb],
    [src/internal/sink/bigquery]).

    Each writes a snapshot as rows keyed by inventory, target and source UID and
    removes the rows of the inventory that are not in the snapshot any more. The
    destination is the state of the model: a map by primary key for PostgreSQL, a
    list of documents for MongoDB, a list of rows for BigQuery, which has no keys. A
    statement has the effect its dialect documents; whether a request fails, and what
    of it the server applied then, is an argument. The contract the three share is the
    class [SnapshotTable]. *)

From S2P Require Import Prelude GoStrings Values Store Json Envelope SinkSpec ObjectPath SqlText Errors.

(** * Rows and scopes *)

(** The columns, in the order of the primary key first. *)
Record db_row := mkDbRow {
  db_inventory_namespace : string;
  db_inventory_name : string;
  db_target_name : string;
  db_source_uid : string;
  db_cluster : string;
  db_resource_namespace : string;
  db_payload : string;
  db_exported_at : Z;
}.

#[export] Instance db_row_eq_dec : EqDecision db_row.
Proof. solve_decision. Defined.

(** Go: internal/sink/mongodb/export_plan.go:13-17 [exportScope] *)
Record exportScope := mkExportScope {
  sc_inventoryNamespace : string;
  sc_inventoryName : string;
  sc_cluster : string;
}.

#[export] Instance exportScope_eq_dec : EqDecision exportScope.
Proof. solve_decision. Defined.

Definition scope_of (r : db_row) : exportScope := mkExportScope (db_inventory_namespace r) (db_inventory_name r) (db_cluster r).
Definition row_id (r : db_row) : string * string := (db_target_name r, db_source_uid r).
Definition item_id (i : Item) : string * string := (TargetName i, UID i).

(** The primary key of the PostgreSQL table and the unique index of the MongoDB
    collection. The cluster is not part of it. *)
Definition row_key (r : db_row) : string * string * (string * string) :=
  (db_inventory_namespace r, db_inventory_name r, row_id r).

(** Go: internal/sink/postgres/export_plan.go:47-53 [resourceNamespace] *)
Definition resourceNamespace (invNS : string) (item : Item) : string :=
  if decide (Namespace item = "") then invNS else Namespace item.

(** The row of an item; [None] when the item has no JSON. *)
Definition item_row (sc : exportScope) (at_ : Z) (item : Item) : option db_row :=
  itemJSON ← json_item item;
  Some (mkDbRow (sc_inventoryNamespace sc) (sc_inventoryName sc) (TargetName item) (UID item) (sc_cluster sc)
          (resourceNamespace (sc_inventoryNamespace sc) item) itemJSON at_).

Definition snapshot_rows (sc : exportScope) (at_ : Z) (items : list Item) : option (list db_row) := mapM (item_row sc at_) items.

(** * PostgreSQL *)
Module Postgres.
Abbreviation pg_table := (gmap (string * string * (string * string)) db_row) (only parsing).

Section postgres.
Context `{!JsonDecode}.

(** The stages an export can fail at. *)
Inductive pg_error :=
  | ErrDecodePayloadFailed (e : envelope_error)
  | ErrBeginTxFailed (e : err)
  | ErrCommitTxFailed (e : err)
  | ErrDeleteAllFailed (e : err)
  | ErrDeleteStaleFailed (e : err)
  | ErrMarshalItem
  | ErrUpsertFailed (e : err)
  | ErrBulkUpsertFailed
  | ErrBulkUpsertCreateStagingFailed (e : err)
  | ErrBulkUpsertCopyFailed (e : err)
  | ErrBulkUpsertMergeFailed (e : err).

(** What the server answers: to BEGIN, to the statements of the transaction by their
    number, and to COMMIT, where a lost answer leaves open whether it was applied. *)
Record pg_server := mkPgServer {
  pg_begin : option err;
  pg_fault : nat → option err;
  pg_commit : option (err * bool);
  pg_cardinality : err;
}.

Definition bulkUpsertThreshold : nat := 32.

(** INSERT ... ON CONFLICT DO UPDATE of one row: every column that is not in the key
    is set. *)
Definition upsert_row (t : pg_table) (r : db_row) : pg_table := <[row_key r := r]> t.

(** Go: internal/sink/postgres/export_plan.go:18-45 [buildUpsertRows] *)
Definition buildUpsertRows (sc : exportScope) (items : list Item) (exportedAt : Z) : option (list db_row) :=
  snapshot_rows sc exportedAt items.

(** The statements of the loop, from number [n] on. *)
Fixpoint upsert_loop (srv : pg_server) (n : nat) (rows : list db_row) (t : pg_table) : result pg_error pg_table :=
  match rows with
  | [] => Ok t
  | r :: rows =>
      match pg_fault srv n with
      | Some e => Err (ErrUpsertFailed e)
      | None => upsert_loop srv (S n) rows (upsert_row t r)
      end
  end.

(** Go: internal/sink/postgres/bulk_export.go:48-66 [rowUpsertItems] *)
Definition rowUpsertItems (srv : pg_server) (sc : exportScope) (items : list Item) (exportedAt : Z) (t : pg_table) :
    result pg_error pg_table :=
  match buildUpsertRows sc items exportedAt with
  | None => Err ErrMarshalItem
  | Some rows => upsert_loop srv 0 rows t
  end.

(** One INSERT ... SELECT ... ON CONFLICT DO UPDATE from the staging table: the
    server refuses to touch a row twice. *)
Definition merge_staging (srv : pg_server) (staging : list db_row) (t : pg_table) : result pg_error pg_table :=
  match pg_fault srv 2 with
  | Some e => Err (ErrBulkUpsertMergeFailed e)
  | None => if decide (NoDup (row_key <$> staging)) then Ok (foldl upsert_row t staging)
            else Err (ErrBulkUpsertMergeFailed (pg_cardinality srv))
  end.

(** Go: internal/sink/postgres/bulk_export.go:79-97 [bulkUpsertItems] *)
Definition bulkUpsertItems (srv : pg_server) (sc : exportScope) (items : list Item) (exportedAt : Z) (t : pg_table) :
    result pg_error pg_table :=
  match pg_fault srv 0 with
  | Some e => Err (ErrBulkUpsertCreateStagingFailed e)
  | None =>
      match buildUpsertRows sc items exportedAt with
      | None => Err ErrBulkUpsertFailed
      | Some rows =>
          match pg_fault srv 1 with
          | Some e => Err (ErrBulkUpsertCopyFailed e)
          | None => merge_staging srv rows t
          end
      end
  end.

(** Go: internal/sink/postgres/bulk_export.go:33-46 [upsertItems] *)
Definition upsertItems (srv : pg_server) (sc : exportScope) (items : list Item) (exportedAt : Z) (t : pg_table) : result pg_error pg_table :=
  if decide (bulkUpsertThreshold ≤ length items) then bulkUpsertItems srv sc items exportedAt t
  else rowUpsertItems srv sc items exportedAt t.

(** Go: internal/sink/postgres/export_plan.go:55-59 [staleDeletePlan] *)
Record staleDeletePlan := mkStaleDeletePlan {
  deleteAll : bool;
  targetNames : list string;
  sourceUIDs : list string;
}.

(** Go: internal/sink/postgres/export_plan.go:61-77 [buildStaleDeletePlan] *)
Definition buildStaleDeletePlan (items : list Item) : staleDeletePlan :=
  if decide (length items = 0) then mkStaleDeletePlan true [] []
  else mkStaleDeletePlan false (TargetName <$> items) (UID <$> items).

(** The statement number of the deletion follows those of the upserts.
    Go: internal/sink/postgres/backend.go:144-180 [deleteStaleRows] *)
Definition deleteStaleRows (srv : pg_server) (sc : exportScope) (items : list Item) (t : pg_table) : result pg_error pg_table :=
  let n := if decide (bulkUpsertThreshold ≤ length items) then 3 else length items in
  let plan := buildStaleDeletePlan items in
  if deleteAll plan then
    match pg_fault srv n with
    | Some e => Err (ErrDeleteAllFailed e)
    | None => Ok (filter (λ kr, scope_of kr.2 ≠ sc) t)
    end
  else
    match pg_fault srv n with
    | Some e => Err (ErrDeleteStaleFailed e)
    | None => Ok (filter (λ kr, scope_of kr.2 ≠ sc ∨ row_id kr.2 ∈ zip (targetNames plan) (sourceUIDs plan)) t)
    end.

(** From BEGIN to COMMIT: the second component is what the table holds afterwards.
    Every early return rolls back. *)
Definition pg_transaction (srv : pg_server) (sc : exportScope) (items : list Item) (exportedAt : Z) (t : pg_table) :
    result pg_error unit * pg_table :=
  match pg_begin srv with
  | Some e => (Err (ErrBeginTxFailed e), t)
  | None =>
      match (w ← upsertItems srv sc items exportedAt t; deleteStaleRows srv sc items w) with
      | Err e => (Err e, t)
      | Ok w =>
          match pg_commit srv with
          | Some (e, applied) => (Err (ErrCommitTxFailed e), if (applied : bool) then w else t)
          | None => (Ok tt, w)
          end
      end
  end.

(** Go: internal/sink/postgres/backend.go:113-142 [export] *)
Definition pg_export (srv : pg_server) (cluster payload objectPath : string) (now : Z) (t : pg_table) : result pg_error unit * pg_table :=
  match ItemsFromExportPayload payload with
  | Err e => (Err (ErrDecodePayloadFailed e), t)
  | Ok items =>
      let '(invNS, invName) := legacyInventoryFromObjectPath objectPath in
      pg_transaction srv (mkExportScope invNS invName cluster) items now t
  end.
End postgres.
End Postgres.

(** * MongoDB *)
Module MongoDB.
Section mongodb.
Context `{!JsonDecode}.

Inductive mongo_error :=
  | ErrDecodePayload (e : envelope_error)
  | ErrMarshalItem
  | ErrDecodeItemPayload
  | ErrUpsertFailed (e : err)
  | ErrDuplicateKey
  | ErrDeleteAll (e : err)
  | ErrDeleteStale (e : err).

(** A request that fails may have been applied, and a deletion applied to some of its
    documents. [mg_unique] tells whether the collection has the unique index, which a
    collection that existed before need not have; [mg_decodes] is [json.Unmarshal] of
    an encoded item, which fails on values nested too deeply. *)
Record mongo_server := mkMongoServer {
  mg_unique : bool;
  mg_decodes : string → bool;
  mg_replace : nat → option (err * bool);
  mg_delete : option (err * (db_row → bool));
}.

(** Go: internal/sink/mongodb/export_plan.go:19-26 [newExportScope] *)
Definition newExportScope (objectPath cluster : string) : exportScope :=
  let '(invNS, invName) := legacyInventoryFromObjectPath objectPath in mkExportScope invNS invName cluster.

(** Go: internal/sink/mongodb/export_plan.go:36-42 [upsertFilter] *)
Definition upsertFilter (sc : exportScope) (item : Item) (r : db_row) : bool :=
  bool_decide (scope_of r = sc ∧ row_id r = item_id item).

(** Go: internal/sink/mongodb/backend.go:227-253 [itemDocument] *)
Definition itemDocument (srv : mongo_server) (sc : exportScope) (item : Item) (exportedAt : Z) : result mongo_error db_row :=
  match item_row sc exportedAt item with
  | None => Err ErrMarshalItem
  | Some r => if mg_decodes srv (db_payload r) then Ok r else Err ErrDecodeItemPayload
  end.

(** [ReplaceOne] with upsert: the first match is replaced, or the document is
    inserted, which the unique index may refuse. *)
Definition replace_one (unique : bool) (matches : db_row → bool) (doc : db_row) (docs : list db_row) : option (list db_row) :=
  match list_find (λ r, matches r = true) docs with
  | Some (i, _) => Some (<[i := doc]> docs)
  | None => if unique && bool_decide (row_key doc ∈ row_key <$> docs) then None else Some (docs ++ [doc])
  end.

(** The loop of upserts; the documents written before an error stay. *)
Fixpoint replace_loop (srv : mongo_server) (sc : exportScope) (exportedAt : Z) (n : nat) (items : list Item) (docs : list db_row) :
    result mongo_error unit * list db_row :=
  match items with
  | [] => (Ok tt, docs)
  | item :: items =>
      match itemDocument srv sc item exportedAt with
      | Err e => (Err e, docs)
      | Ok doc =>
          match mg_replace srv n, replace_one (mg_unique srv) (upsertFilter sc item) doc docs with
          | Some (e, applied), r => (Err (ErrUpsertFailed e), if (applied : bool) then default docs r else docs)
          | None, None => (Err ErrDuplicateKey, docs)
          | None, Some docs => replace_loop srv sc exportedAt (S n) items docs
          end
      end
  end.

(** The documents the filter selects, and whether it is that of the empty snapshot.
    Go: internal/sink/mongodb/backend.go:274-290 [staleDeleteFilter] *)
Definition staleDeleteFilter (sc : exportScope) (items : list Item) (r : db_row) : bool :=
  if decide (length items = 0) then bool_decide (scope_of r = sc)
  else bool_decide (scope_of r = sc) && negb (existsb (λ item, bool_decide (row_id r = item_id item)) items).

(** Go: internal/sink/mongodb/backend.go:255-272 [deleteStaleDocuments] *)
Definition deleteStaleDocuments (srv : mongo_server) (sc : exportScope) (items : list Item) (docs : list db_row) :
    result mongo_error unit * list db_row :=
  let stale := staleDeleteFilter sc items in
  match mg_delete srv with
  | Some (e, hit) =>
      (Err (if decide (length items = 0) then ErrDeleteAll e else ErrDeleteStale e), filter (λ r, stale r && hit r = false) docs)
  | None => (Ok tt, filter (λ r, stale r = false) docs)
  end.

Definition mongo_run (srv : mongo_server) (sc : exportScope) (items : list Item) (exportedAt : Z) (docs : list db_row) :
    result mongo_error unit * list db_row :=
  match replace_loop srv sc exportedAt 0 items docs with
  | (Err e, docs) => (Err e, docs)
  | (Ok _, docs) => deleteStaleDocuments srv sc items docs
  end.

(** Go: internal/sink/mongodb/backend.go:154-176 [Export] *)
Definition mongo_export (srv : mongo_server) (cluster payload objectPath : string) (now : Z) (docs : list db_row) :
    result mongo_error unit * list db_row :=
  match ItemsFromExportPayload payload with
  | Err e => (Err (ErrDecodePayload e), docs)
  | Ok items => mongo_run srv (newExportScope objectPath cluster) items now docs
  end.
End mongodb.
End MongoDB.

(** * BigQuery *)
Module BigQuery.
Section bigquery.
Context `{!JsonDecode}.

Inductive bigquery_error :=
  | ErrDecodePayloadFailed (e : envelope_error)
  | ErrBuildRows
  | ErrMergeUpsertFailed (e : err)
  | ErrDeleteStaleFailed (e : err)
  | ErrDelete (e : err)
  | ErrEmulatorInsertFailed (e : err).

(** The statements, with the source rows as the text they are inlined as. *)
Inductive statement :=
  | Merge (source : string) (exported_at : Z)
  | DeleteStale (sc : exportScope) (source : string)
  | DeleteAll (sc : exportScope)
  | InsertAll (source : string) (exported_at : Z).

(** The answer to a job by its number: a failed one may have been applied. *)
Record bigquery_server := mkBigQueryServer {
  bqs_fault : nat → option (err * bool);
  bqs_refused : err;
}.

Definition source_row (at_ : Z) (m : mergeRow) : db_row :=
  mkDbRow (mr_InventoryNamespace m) (mr_InventoryName m) (mr_TargetName m) (mr_SourceUID m) (mr_Cluster m) (mr_ResourceNamespace m)
    (mr_PayloadJSON m) at_.

Definition merge_key (r : db_row) : exportScope * (string * string) := (scope_of r, row_id r).

(** MERGE: a row that matches is updated, which the server refuses when it matches
    two source rows; every source row that matches none is inserted. *)
Definition merge_rows (source rows : list db_row) : option (list db_row) :=
  let updates r := filter (λ s, merge_key s = merge_key r) source in
  if decide (Forall (λ r, length (updates r) ≤ 1) rows) then
    Some (((λ r, default r (head (updates r))) <$> rows) ++ filter (λ s, merge_key s ∉ merge_key <$> rows) source)
  else None.

Definition source_rows (text : string) (at_ : Z) : option (list db_row) :=
  match read_source text with
  | Some (ms, rest) => if decide (rest = "") then Some (source_row at_ <$> ms) else None
  | None => None
  end.

(** A statement whose source cannot be read, and a refused MERGE, have no effect. *)
Definition run_statement (st : statement) (rows : list db_row) : option (list db_row) :=
  match st with
  | Merge text at_ => src ← source_rows text at_; merge_rows src rows
  | DeleteStale sc text => src ← source_rows text 0; Some (filter (λ r : db_row, scope_of r ≠ sc ∨ row_id r ∈ row_id <$> (src : list db_row)) rows)
  | DeleteAll sc => Some (filter (λ r, scope_of r ≠ sc) rows)
  | InsertAll text at_ => src ← source_rows text at_; Some (rows ++ src)
  end.

(** One job, with its error site. *)
Definition execute (srv : bigquery_server) (n : nat) (wrap : err → bigquery_error) (st : statement) (rows : list db_row) :
    result bigquery_error unit * list db_row :=
  match bqs_fault srv n, run_statement st rows with
  | Some (e, applied), r => (Err (wrap e), if (applied : bool) then default rows r else rows)
  | None, None => (Err (wrap (bqs_refused srv)), rows)
  | None, Some rows => (Ok tt, rows)
  end.

Definition then_execute (r : result bigquery_error unit * list db_row) (f : list db_row → result bigquery_error unit * list db_row) :=
  match r with (Ok _, rows) => f rows | (Err e, rows) => (Err e, rows) end.

(** Go: internal/sink/bigquery/backend.go:309-334 [toMergeRows] *)
Definition toMergeRows (items : list Item) (invNS invName cluster : string) : option (list mergeRow) :=
  mapM (λ item,
    payload ← json_item item;
    let resourceNS := trim_space (Namespace item) in
    let resourceNS := if decide (resourceNS = "") then invNS else resourceNS in
    Some (mkMergeRow invNS invName cluster (TargetName item) (UID item) resourceNS payload)) items.

(** Go: internal/sink/bigquery/backend.go:215-259 [runMergeUpsert] *)
Definition runMergeUpsert (srv : bigquery_server) (rows : list mergeRow) (now : Z) (table : list db_row) :=
  execute srv 0 ErrMergeUpsertFailed (Merge (mergeSourceRowsSQL rows) now) table.

(** Go: internal/sink/bigquery/backend.go:261-288 [runDeleteStale] *)
Definition runDeleteStale (srv : bigquery_server) (sc : exportScope) (rows : list mergeRow) (table : list db_row) :=
  execute srv 1 ErrDeleteStaleFailed (DeleteStale sc (mergeSourceRowsSQL rows)) table.

(** Go: internal/sink/bigquery/backend.go:290-307 [runDeleteAll] *)
Definition runDeleteAll (srv : bigquery_server) (sc : exportScope) (table : list db_row) :=
  execute srv 0 ErrDelete (DeleteAll sc) table.

(** Go: internal/sink/bigquery/backend.go:390-410 [runEmulatorReplace] *)
Definition runEmulatorReplace (srv : bigquery_server) (sc : exportScope) (rows : list mergeRow) (now : Z) (table : list db_row) :=
  then_execute (runDeleteAll srv sc table)
    (execute srv 1 ErrEmulatorInsertFailed (InsertAll (mergeSourceRowsSQL rows) now)).

Definition bigquery_run (useEmulator : bool) (srv : bigquery_server) (sc : exportScope) (items : list Item) (now : Z) (table : list db_row) :
    result bigquery_error unit * list db_row :=
  if decide (length items = 0) then runDeleteAll srv sc table
  else
    match toMergeRows items (sc_inventoryNamespace sc) (sc_inventoryName sc) (sc_cluster sc) with
    | None => (Err ErrBuildRows, table)
    | Some rows =>
        if useEmulator then runEmulatorReplace srv sc rows now table
        else then_execute (runMergeUpsert srv rows now table) (runDeleteStale srv sc rows)
    end.

(** Go: internal/sink/bigquery/backend.go:141-170 [Export] *)
Definition bigquery_export (useEmulator : bool) (srv : bigquery_server) (cluster payload objectPath : string) (now : Z) (table : list db_row) :
    result bigquery_error unit * list db_row :=
  match ItemsFromExportPayload payload with
  | Err e => (Err (ErrDecodePayloadFailed e), table)
  | Ok items =>
      let '(invNS, invName) := legacyInventoryFromObjectPath objectPath in
      bigquery_run useEmulator srv (mkExportScope invNS invName cluster) items now table
  end.
End bigquery.
End BigQuery.

(** * The contract *)

(** What an export of a snapshot assumes of it: no two rows with one identity, and
    namespaces without blanks around them. *)
Definition clean (items : list Item) : Prop :=
  NoDup (item_id <$> items) ∧ Forall (λ i, trim_space (Namespace i) = Namespace i) items.

#[export] Instance clean_dec items : Decision (clean items).
Proof. unfold clean. apply _. Defined.

(** No other cluster stores a row of the same inventory with an identity of the
    snapshot: a source UID occurs in one cluster only. *)
Definition no_clash (sc : exportScope) (items : list Item) (rows : list db_row) : Prop :=
  ∀ r, r ∈ rows → db_inventory_namespace r = sc_inventoryNamespace sc → db_inventory_name r = sc_inventoryName sc →
    db_cluster r ≠ sc_cluster sc → row_id r ∉ item_id <$> items.

(** A table that snapshots are exported to. [tbl_exports] relates the tables before
    and after an export that reported success; it replaces the rows of the inventory
    in the cluster by those of the snapshot and touches no other row. *)
Class SnapshotTable (T : Type) := {
  tbl_rows : T → list db_row;
  tbl_ok : T → Prop;
  tbl_exports : exportScope → list Item → Z → T → T → Prop;
  tbl_exact sc items at_ t t' :
    tbl_ok t → clean items → no_clash sc items (tbl_rows t) → tbl_exports sc items at_ t t' →
    tbl_ok t' ∧ ∃ rows, snapshot_rows sc at_ items = Some rows ∧
      ∀ r, r ∈ tbl_rows t' ↔ r ∈ rows ∨ (r ∈ tbl_rows t ∧ scope_of r ≠ sc);
}.

(** ** Rows of a snapshot *)

Lemma item_row_Some sc at_ i r : item_row sc at_ i = Some r → scope_of r = sc ∧ row_id r = item_id i.
Proof. unfold item_row. destruct (json_item i); [|done]. intros [= <-]. by destruct sc. Qed.

Lemma snapshot_rows_Some sc at_ items rows :
  snapshot_rows sc at_ items = Some rows → row_id <$> rows = item_id <$> items ∧ Forall (λ r, scope_of r = sc) rows.
Proof.
  intros HF%mapM_Some. induction HF as [|i r items rows [Hs Hi]%item_row_Some _ [IH1 IH2]]; [done|].
  rewrite !fmap_cons, Hi, IH1. by split; [|constructor].
Qed.

Lemma NoDup_ids {A} (f : db_row → A) (rows : list db_row) :
  (∀ r r', r ∈ rows → r' ∈ rows → f r = f r' → row_id r = row_id r') → NoDup (row_id <$> rows) → NoDup (f <$> rows).
Proof.
  induction rows as [|r rows IH]; intros Hf; [constructor|]. rewrite !fmap_cons. intros [Hr Hnd]%NoDup_cons. constructor.
  - intros (r' & Heq & Hin)%list_elem_of_fmap. apply Hr, list_elem_of_fmap. exists r'. split; [|done].
    apply Hf; [by left|by right|done].
  - apply IH; [|done]. intros a b Ha Hb. by apply Hf; right.
Qed.

Lemma NoDup_fmap_filter {A B} (f : A → B) (P : A → Prop) `{∀ x, Decision (P x)} (l : list A) :
  NoDup (f <$> l) → NoDup (f <$> filter P l).
Proof.
  intros Hnd. eapply sublist_NoDup; [exact Hnd|]. apply fmap_sublist, sublist_filter.
Qed.

Lemma snapshot_keys sc at_ items rows :
  clean items → snapshot_rows sc at_ items = Some rows →
  NoDup (row_key <$> rows) ∧ NoDup (BigQuery.merge_key <$> rows).
Proof.
  intros [Hnd _] [Hids _]%snapshot_rows_Some. rewrite <- Hids in Hnd.
  split; (apply NoDup_ids; [|done]); intros r r' _ _; unfold row_key, BigQuery.merge_key; congruence.
Qed.

(** ** PostgreSQL keeps the contract *)
Section postgres_laws.
Import Postgres.

Definition pg_ok (t : pg_table) : Prop := map_Forall (λ k r, row_key r = k) t.
Definition pg_rows (t : pg_table) : list db_row := (map_to_list t).*2.

Lemma elem_of_pg_rows t r : pg_ok t → r ∈ pg_rows t ↔ t !! row_key r = Some r.
Proof.
  intros Hok. unfold pg_rows. rewrite list_elem_of_fmap. split.
  - intros ([k r'] & -> & Hin%elem_of_map_to_list). cbn. by rewrite (Hok _ _ Hin).
  - intros Hr. exists (row_key r, r). split; [done|]. by apply elem_of_map_to_list.
Qed.

Lemma upsert_fold rows t :
  pg_ok t → pg_ok (foldl upsert_row t rows) ∧
  (NoDup (row_key <$> rows) → ∀ r, r ∈ rows → foldl upsert_row t rows !! row_key r = Some r) ∧
  (∀ k, k ∉ row_key <$> rows → foldl upsert_row t rows !! k = t !! k).
Proof.
  revert t. induction rows as [|r rows IH]; intros t Hok; cbn [foldl]; [split_and!; [done|by intros _ r ?%elem_of_nil|done]|].
  destruct (IH (upsert_row t r)) as (Hok' & Hin & Hout); [by apply map_Forall_insert_2|]. split_and!; [done| |].
  - rewrite fmap_cons. intros [Hr Hnd]%NoDup_cons r' [->|Hr']%elem_of_cons; [|by apply Hin].
    rewrite Hout by done. unfold upsert_row. by rewrite lookup_insert_eq.
  - intros k. rewrite fmap_cons, not_elem_of_cons. intros [Hne Hk]. rewrite Hout by done. unfold upsert_row. by rewrite lookup_insert_ne.
Qed.

Lemma upsert_loop_ok srv n rows t w : upsert_loop srv n rows t = Ok w → w = foldl upsert_row t rows.
Proof.
  revert n t. induction rows as [|r rows IH]; intros n t; cbn; [by intros [= <-]|]. destruct (pg_fault srv n); [done|]. apply IH.
Qed.

(** Both paths leave the rows of the snapshot upserted one after the other. *)
Lemma upsertItems_ok srv sc items at_ t w :
  upsertItems srv sc items at_ t = Ok w → ∃ rows, snapshot_rows sc at_ items = Some rows ∧ w = foldl upsert_row t rows.
Proof.
  unfold upsertItems, bulkUpsertItems, rowUpsertItems, merge_staging, buildUpsertRows. case_decide as Hb.
  - destruct (pg_fault srv 0); [done|]. destruct (snapshot_rows _ _ _) as [rows|]; [|done]. destruct (pg_fault srv 1); [done|].
    destruct (pg_fault srv 2); [done|]. case_decide; [|done]. intros [= <-]. eauto.
  - destruct (snapshot_rows _ _ _) as [rows|]; [|done]. intros ->%upsert_loop_ok. eauto.
Qed.

Lemma zip_ids (items : list Item) : zip (TargetName <$> items) (UID <$> items) = item_id <$> items.
Proof. induction items as [|i items IH]; [done|]. by rewrite !fmap_cons, <- IH. Qed.

Lemma deleteStaleRows_ok srv sc items t w :
  deleteStaleRows srv sc items t = Ok w → w = filter (λ kr, scope_of kr.2 ≠ sc ∨ row_id kr.2 ∈ item_id <$> items) t.
Proof.
  unfold deleteStaleRows, buildStaleDeletePlan. destruct items as [|i items].
  - cbn [length decide deleteAll]. rewrite decide_True by done. cbn [deleteAll]. destruct (pg_fault srv _); [done|]. intros [= <-].
    apply map_filter_ext. intros k r _. cbn. split; [by left|]. by intros [?|?%elem_of_nil].
  - rewrite (decide_False (P := length (i :: items) = 0)) by done. cbn [deleteAll targetNames sourceUIDs].
    destruct (pg_fault srv _); [done|]. intros [= <-]. by rewrite zip_ids.
Qed.

Lemma pg_transaction_ok srv sc items at_ t t' :
  pg_transaction srv sc items at_ t = (Ok tt, t') →
  ∃ rows, snapshot_rows sc at_ items = Some rows ∧
    t' = filter (λ kr, scope_of kr.2 ≠ sc ∨ row_id kr.2 ∈ item_id <$> items) (foldl upsert_row t rows).
Proof.
  unfold pg_transaction. destruct (pg_begin srv); [done|]. destruct (upsertItems srv sc items at_ t) as [w|] eqn:Hu; [|done].
  cbn [mbind result_bind]. destruct (deleteStaleRows srv sc items w) as [w'|] eqn:Hd; [|done].
  destruct (pg_commit srv) as [[e []]|]; [done..|]. intros [= <-]. apply upsertItems_ok in Hu as (rows & Hr & ->).
  apply deleteStaleRows_ok in Hd as ->. eauto.
Qed.

Lemma pg_reconciled sc items at_ rows t :
  pg_ok t → clean items → no_clash sc items (pg_rows t) → snapshot_rows sc at_ items = Some rows →
  let t' := filter (λ kr, scope_of kr.2 ≠ sc ∨ row_id kr.2 ∈ item_id <$> items) (foldl upsert_row t rows) in
  pg_ok t' ∧ ∀ r, r ∈ pg_rows t' ↔ r ∈ rows ∨ (r ∈ pg_rows t ∧ scope_of r ≠ sc).
Proof.
  intros Hok Hcl Hnc Hrows t'. destruct (snapshot_keys _ _ _ _ Hcl Hrows) as [Hnd _].
  destruct (snapshot_rows_Some _ _ _ _ Hrows) as [Hids Hsc]. rewrite Forall_forall in Hsc.
  destruct (upsert_fold rows t Hok) as (Hok1 & Hin & Hout). specialize (Hin Hnd).
  assert (pg_ok t') as Hok'. { intros k r [Hk _]%map_lookup_filter_Some. by apply Hok1. }
  split; [done|]. intros r. rewrite !elem_of_pg_rows by done. unfold t'. rewrite map_lookup_filter_Some. cbn [snd]. split.
  - intros [Hr Hc]. destruct (decide (row_key r ∈ row_key <$> rows)) as [(s & Hk & Hs)%list_elem_of_fmap|Hk].
    + left. rewrite Hk, (Hin s Hs) in Hr. by injection Hr as <-.
    + rewrite Hout in Hr by done. right. split; [done|]. intros Heq. apply Hk. destruct Hc as [Hc|Hc]; [done|].
      rewrite <- Hids in Hc. apply list_elem_of_fmap in Hc as (s & Hid & Hs). apply list_elem_of_fmap. exists s. split; [|done].
      specialize (Hsc s Hs). rewrite <- Heq in Hsc. unfold scope_of in Hsc. injection Hsc as ??. unfold row_key. congruence.
  - intros [Hr|[Hr Hs]].
    + split; [by apply Hin|]. right. rewrite <- Hids. by apply list_elem_of_fmap_2.
    + split; [|by left]. rewrite Hout; [done|]. intros (s & Hk & Hs')%list_elem_of_fmap.
      specialize (Hsc s Hs'). unfold row_key in Hk. injection Hk as Hn Hm Ht Hu.
      refine (Hnc r _ _ _ _ _); [by apply elem_of_pg_rows|subst sc; done..| |].
      * intros Hcl'. apply Hs. subst sc. unfold scope_of in *. cbn in Hcl'. congruence.
      * rewrite <- Hids. apply list_elem_of_fmap. exists s. unfold row_id. split; [congruence|done].
Qed.

#[export] Instance postgres_table : SnapshotTable pg_table.
Proof.
  refine {| tbl_rows := pg_rows; tbl_ok := pg_ok; tbl_exports sc items at_ t t' := ∃ srv, pg_transaction srv sc items at_ t = (Ok tt, t') |}.
  intros sc items at_ t t' Hok Hcl Hnc (srv & (rows & Hrows & ->)%pg_transaction_ok).
  destruct (pg_reconciled sc items at_ rows t Hok Hcl Hnc Hrows) as [? ?]. eauto.
Defined.
End postgres_laws.

(** ** MongoDB keeps the contract *)
Section mongodb_laws.
Import MongoDB BigQuery.

(** At most one document per identity and cluster, which the unique index implies. *)
Definition mongo_ok (docs : list db_row) : Prop := NoDup (merge_key <$> docs).

Lemma replace_one_ok unique matches doc docs docs' :
  mongo_ok docs → (∀ r, matches r = true ↔ merge_key r = merge_key doc) → replace_one unique matches doc docs = Some docs' →
  mongo_ok docs' ∧ ∀ r, r ∈ docs' ↔ r = doc ∨ (r ∈ docs ∧ merge_key r ≠ merge_key doc).
Proof.
  intros Hnd Hm. unfold replace_one. destruct (list_find _ docs) as [[i x]|] eqn:Hf.
  - apply list_find_Some in Hf as (Hi & Hx%Hm & _). intros [= <-]. unfold mongo_ok in *.
    assert (merge_key <$> <[i:=doc]> docs = merge_key <$> docs) as Hk.
    { rewrite list_fmap_insert, <- Hx. apply list_insert_id. by rewrite list_lookup_fmap, Hi. }
    rewrite Hk. split; [done|]. intros r. rewrite list_elem_of_lookup. split.
    + intros [j Hj]. apply list_lookup_insert_Some in Hj as [(-> & <- & _)|[Hne Hj]]; [by left|]. right.
      split; [by eapply list_elem_of_lookup_2|]. rewrite <- Hx. intros Heq. apply Hne.
      eapply (NoDup_lookup _ _ _ (merge_key x) Hnd); [by rewrite list_lookup_fmap, Hi|]. rewrite list_lookup_fmap, Hj. cbn. congruence.
    + intros [->|[[j Hj]%list_elem_of_lookup Hr]]; [exists i|exists j].
      * apply list_lookup_insert_eq. by eapply lookup_lt_Some.
      * rewrite list_lookup_insert_ne; [done|]. intros ->. congruence.
  - apply list_find_None in Hf. rewrite Forall_forall in Hf. destruct (unique && _); [done|]. intros [= <-].
    assert (merge_key doc ∉ merge_key <$> docs) as Hn.
    { intros (r & Heq & Hr)%list_elem_of_fmap. apply (Hf r Hr). by apply Hm. }
    unfold mongo_ok. rewrite fmap_app. split.
    + apply NoDup_app. split_and!; [done| |apply NoDup_singleton]. intros k Hk ->%list_elem_of_singleton. done.
    + intros r. rewrite elem_of_app, list_elem_of_singleton. split; [|tauto]. intros [Hr|]; [right|by left].
      split; [done|]. intros Heq. apply Hn, list_elem_of_fmap. by exists r.
Qed.

Lemma itemDocument_ok srv sc item at_ doc : itemDocument srv sc item at_ = Ok doc → item_row sc at_ item = Some doc.
Proof. unfold itemDocument. destruct (item_row sc at_ item); [|done]. case_match; [by intros [= <-]|done]. Qed.

Lemma upsertFilter_key sc at_ item doc r :
  item_row sc at_ item = Some doc → upsertFilter sc item r = true ↔ merge_key r = merge_key doc.
Proof.
  intros [Hs Hi]%item_row_Some. unfold upsertFilter, merge_key. by rewrite bool_decide_eq_true, Hs, Hi, pair_equal_spec.
Qed.

(** What the loop does when it ends well, and what it never does. *)
Lemma replace_loop_spec srv sc at_ n items docs res docs' :
  mongo_ok docs → replace_loop srv sc at_ n items docs = (res, docs') →
  mongo_ok docs' ∧
  (∀ r, scope_of r ≠ sc → r ∈ docs' ↔ r ∈ docs) ∧ (∀ r, r ∈ docs → merge_key r ∈ merge_key <$> docs') ∧
  (res = Ok tt → NoDup (item_id <$> items) → ∃ rows, snapshot_rows sc at_ items = Some rows ∧
    ∀ r, r ∈ docs' ↔ r ∈ rows ∨ (r ∈ docs ∧ merge_key r ∉ merge_key <$> rows)).
Proof.
  revert n docs. induction items as [|item items IH]; intros n docs Hok; cbn [replace_loop].
  { intros [= <- <-]. split_and!; [done|done|intros r Hr; by apply list_elem_of_fmap_2|]. intros _ _. exists []. split; [done|]. intros r.
    rewrite fmap_nil, !elem_of_nil. naive_solver. }
  assert (mongo_ok docs ∧ (∀ r, scope_of r ≠ sc → r ∈ docs ↔ r ∈ docs) ∧ (∀ r, r ∈ docs → merge_key r ∈ merge_key <$> docs)) as Hsame.
  { split_and!; [done..|]. intros r Hr. by apply list_elem_of_fmap_2. }
  destruct (itemDocument srv sc item at_) as [doc|e] eqn:Hdoc; [|intros [= <- <-]; naive_solver].
  apply itemDocument_ok in Hdoc. pose proof (λ r, upsertFilter_key sc at_ item doc r Hdoc) as Hm.
  destruct (item_row_Some _ _ _ _ Hdoc) as [Hsc Hid].
  assert (∀ docs1, replace_one (mg_unique srv) (upsertFilter sc item) doc docs = Some docs1 →
    mongo_ok docs1 ∧ (∀ r, scope_of r ≠ sc → r ∈ docs1 ↔ r ∈ docs) ∧ (∀ r, r ∈ docs → merge_key r ∈ merge_key <$> docs1) ∧
    ∀ r, r ∈ docs1 ↔ r = doc ∨ (r ∈ docs ∧ merge_key r ≠ merge_key doc)) as Hstep.
  { intros docs1 (Hok1 & Hmem)%(replace_one_ok _ _ _ _ _ Hok Hm). split_and!; [done| | |done].
    - intros r Hr. rewrite Hmem. split; [by intros [->|[? _]]|]. intros Hin. right. split; [done|]. intros [= ??].
      apply Hr. rewrite <- Hsc. unfold scope_of. congruence.
    - intros r Hr. apply list_elem_of_fmap. destruct (decide (merge_key r = merge_key doc)) as [Heq|Hne].
      + exists doc. split; [done|]. apply Hmem. by left.
      + exists r. split; [done|]. apply Hmem. by right. }
  destruct (mg_replace srv n) as [[e applied]|], (replace_one _ _ doc docs) as [docs1|] eqn:Hr1.
  - intros [= <- <-]. destruct applied; cbn; [destruct (Hstep _ eq_refl) as (?&?&?&_)|]; naive_solver.
  - intros [= <- <-]. destruct applied; naive_solver.
  - intros Hl. destruct (Hstep _ eq_refl) as (Hok1 & Hout1 & Hkeep1 & Hmem1). apply IH in Hl as (Hok' & Hout & Hkeep & Hex); [|done].
    split_and!; [done| | |].
    + intros r Hr. by rewrite Hout, Hout1.
    + intros r (r1 & Heq & Hr1')%Hkeep1%list_elem_of_fmap. rewrite Heq. by apply Hkeep.
    + intros Hres Hnd. rewrite fmap_cons in Hnd. apply NoDup_cons in Hnd as [Hn Hnd]. destruct (Hex Hres Hnd) as (rows & Hrows & Hmem).
      exists (doc :: rows). split. { unfold snapshot_rows in *. cbn. rewrite Hdoc. cbn. by rewrite Hrows. }
      destruct (snapshot_rows_Some _ _ _ _ Hrows) as [Hids _].
      assert (merge_key doc ∉ merge_key <$> rows) as Hd.
      { intros (s & Heq & Hs)%list_elem_of_fmap. apply Hn. rewrite <- Hids, <- Hid. apply list_elem_of_fmap. exists s. split; [|done].
        by apply pair_equal_spec in Heq as [_ ?]. }
      intros r. rewrite Hmem, Hmem1, fmap_cons, elem_of_cons, not_elem_of_cons. split; [naive_solver|].
      intros [[->|?]|(? & ? & ?)]; naive_solver.
  - intros [= <- <-]. naive_solver.
Qed.

Lemma staleDeleteFilter_spec sc items r :
  staleDeleteFilter sc items r = true ↔ scope_of r = sc ∧ row_id r ∉ item_id <$> items.
Proof.
  unfold staleDeleteFilter. destruct items as [|i items].
  - rewrite decide_True by done. rewrite bool_decide_eq_true, fmap_nil. split; [|by intros [? _]]. split; [done|]. apply not_elem_of_nil.
  - rewrite decide_False by done. rewrite andb_true_iff, bool_decide_eq_true, negb_true_iff. apply and_iff_compat_l.
    rewrite <- not_true_iff_false, existsb_exists, list_elem_of_fmap. apply not_iff_compat. split.
    + intros (x & Hx & ?%bool_decide_eq_true). exists x. split; [done|]. by apply list_elem_of_In.
    + intros (x & ? & Hx). exists x. split; [by apply list_elem_of_In|]. by apply bool_decide_eq_true.
Qed.

#[export] Instance mongodb_table : SnapshotTable (list db_row).
Proof.
  refine {| tbl_rows docs := docs; tbl_ok := mongo_ok; tbl_exports sc items at_ t t' := ∃ srv, mongo_run srv sc items at_ t = (Ok tt, t') |}.
  intros sc items at_ docs docs' Hok [Hnd _] _ (srv & Hrun). unfold mongo_run in Hrun.
  destruct (replace_loop srv sc at_ 0 items docs) as [[[]|] docs1] eqn:Hl; [|done].
  apply replace_loop_spec in Hl as (Hok1 & _ & _ & Hex); [|done]. destruct (Hex eq_refl Hnd) as (rows & Hrows & Hmem).
  destruct (snapshot_rows_Some _ _ _ _ Hrows) as [Hids Hsc]. rewrite Forall_forall in Hsc.
  unfold deleteStaleDocuments in Hrun. destruct (mg_delete srv) as [[]|]; [done|]. injection Hrun as <-. split.
  - by apply NoDup_fmap_filter.
  - exists rows. split; [done|]. intros r. rewrite list_elem_of_filter, Hmem, <- not_true_iff_false, staleDeleteFilter_spec. split.
    + intros [Hf [?|[Hr Hk]]]; [by left|right]. split; [done|]. intros Heq. apply Hf. split; [done|]. rewrite <- Hids.
      intros (s & Hid & Hs)%list_elem_of_fmap. apply Hk, list_elem_of_fmap. exists s. split; [|done].
      unfold merge_key. by rewrite Heq, Hid, (Hsc s Hs).
    + intros [Hr|[Hr Hne]].
      * split; [|by left]. intros [_ Hni]. apply Hni. rewrite <- Hids. by apply list_elem_of_fmap_2.
      * split; [by intros [? _]|]. right. split; [done|]. intros (s & Hk & Hs)%list_elem_of_fmap. apply Hne.
        rewrite <- (Hsc s Hs). by apply pair_equal_spec in Hk as [? _].
Defined.
End mongodb_laws.

(** ** BigQuery keeps the contract *)
Section bigquery_laws.
Import BigQuery.

(** The row of the snapshot with the identity of [r], if there is one. *)
Lemma updates_of source r :
  NoDup (merge_key <$> source) →
  (∃ s, s ∈ source ∧ merge_key s = merge_key r ∧ filter (λ s, merge_key s = merge_key r) source = [s]) ∨
  (merge_key r ∉ merge_key <$> source ∧ filter (λ s, merge_key s = merge_key r) source = []).
Proof.
  induction source as [|s source IH]; intros Hnd; [by right; split; [apply not_elem_of_nil|]|].
  rewrite fmap_cons in Hnd |- *. apply NoDup_cons in Hnd as [Hs Hnd]. destruct (IH Hnd) as [(s' & Hin & Hk & Hf)|[Hk Hf]]; clear IH.
  - left. exists s'. split_and!; [by right|done|]. rewrite filter_cons_False; [done|]. intros Heq. apply Hs. rewrite Heq, <- Hk.
    by apply list_elem_of_fmap_2.
  - destruct (decide (merge_key s = merge_key r)) as [Heq|Hne].
    + left. exists s. split_and!; [by left|done|]. by rewrite filter_cons_True, Hf.
    + right. rewrite not_elem_of_cons. split; [done|]. by rewrite filter_cons_False.
Qed.

Lemma merge_rows_spec source rows rows' :
  NoDup (merge_key <$> source) → merge_rows source rows = Some rows' →
  ∀ r, r ∈ rows' ↔ r ∈ source ∨ (r ∈ rows ∧ merge_key r ∉ merge_key <$> source).
Proof.
  intros Hnd. unfold merge_rows. case_decide; [|done]. intros [= <-] r. rewrite elem_of_app, list_elem_of_fmap, list_elem_of_filter. split.
  - intros [(x & -> & Hx)|[_ Hr]]; [|by left]. destruct (updates_of source x Hnd) as [(s & Hs & Hk & Hf)|[Hk Hf]]; rewrite Hf; cbn; eauto.
  - intros [Hr|[Hr Hk]].
    + destruct (decide (merge_key r ∈ merge_key <$> rows)) as [(x & Heq & Hx)%list_elem_of_fmap|]; [|by right]. left. exists x.
      split; [|done]. destruct (updates_of source x Hnd) as [(s & Hs & Hk & Hf)|[Hk Hf]]; rewrite Hf; cbn.
      * eapply (NoDup_fmap_elem_eq merge_key source); [done|done|done|]. congruence.
      * destruct Hk. rewrite <- Heq. by apply list_elem_of_fmap_2.
    + left. exists r. split; [|done]. by destruct (updates_of source r Hnd) as [(s & Hs & Hk' & Hf)|[_ Hf]]; rewrite Hf; cbn;
        [destruct Hk; rewrite <- Hk'; apply list_elem_of_fmap_2|].
Qed.

Lemma source_rows_back at_ ms : ms ≠ [] → source_rows (mergeSourceRowsSQL ms) at_ = Some (source_row at_ <$> ms).
Proof.
  intros Hne. unfold source_rows. pose proof (source_reads_back ms "" Hne) as Hr. rewrite GoStrings.app_nil_r in Hr. by rewrite Hr.
Qed.

Lemma toMergeRows_rows sc at_ items ms :
  clean items → toMergeRows items (sc_inventoryNamespace sc) (sc_inventoryName sc) (sc_cluster sc) = Some ms →
  snapshot_rows sc at_ items = Some (source_row at_ <$> ms).
Proof.
  intros [_ Ht]. unfold toMergeRows, snapshot_rows. rewrite !mapM_Some. intros HF. rewrite Forall2_fmap_r. revert Ht.
  induction HF as [|i m items ms Hm _ IH]; intros Ht; [constructor|]. apply Forall_cons in Ht as [Hi Ht]. constructor; [|by apply IH].
  revert Hm. unfold item_row, resourceNamespace. destruct (json_item i) as [js|]; [|done]. cbn. rewrite Hi. intros [= <-]. done.
Qed.

Lemma execute_ok srv n wrap st rows rows' : execute srv n wrap st rows = (Ok tt, rows') → run_statement st rows = Some rows'.
Proof. unfold execute. destruct (bqs_fault srv n) as [[]|], (run_statement st rows); by intros [= <-]. Qed.

Lemma bigquery_run_ok useEmulator srv sc items at_ rows rows' :
  clean items → bigquery_run useEmulator srv sc items at_ rows = (Ok tt, rows') →
  ∃ snapshot, snapshot_rows sc at_ items = Some snapshot ∧ ∀ r, r ∈ rows' ↔ r ∈ snapshot ∨ (r ∈ rows ∧ scope_of r ≠ sc).
Proof.
  intros Hcl. unfold bigquery_run. case_decide as Hlen.
  { apply nil_length_inv in Hlen as ->. intros Hr%execute_ok. injection Hr as <-. exists []. split; [done|]. intros r.
    rewrite list_elem_of_filter, elem_of_nil. naive_solver. }
  destruct (toMergeRows _ _ _ _) as [ms|] eqn:Hms; [|done]. intros Hrun.
  assert (ms ≠ []) as Hne. { intros ->. apply mapM_Some, Forall2_nil_inv_r in Hms. by subst. }
  pose proof (toMergeRows_rows sc at_ _ _ Hcl Hms) as Hrows. exists (source_row at_ <$> ms). split; [done|].
  destruct (snapshot_keys _ _ _ _ Hcl Hrows) as [_ Hnd]. destruct (snapshot_rows_Some _ _ _ _ Hrows) as [Hids Hsc].
  rewrite Forall_forall in Hsc. set (snap := source_row at_ <$> ms) in *. intros r. destruct useEmulator.
  - unfold runEmulatorReplace in Hrun. destruct (runDeleteAll srv sc rows) as [[[]|] rows1] eqn:Hd; cbn in Hrun; [|done]. revert Hrun.
    apply execute_ok in Hd. injection Hd as <-. intros Hi%execute_ok. cbn in Hi. rewrite source_rows_back in Hi by done.
    injection Hi as <-. rewrite elem_of_app, list_elem_of_filter. tauto.
  - destruct (runMergeUpsert srv ms at_ rows) as [[[]|] rows1] eqn:Hm; cbn in Hrun; [|done]. revert Hrun.
    apply execute_ok in Hm. cbn in Hm. rewrite source_rows_back in Hm by done. cbn in Hm. fold snap in Hm.
    intros Hd%execute_ok. cbn in Hd. rewrite source_rows_back in Hd by done. injection Hd as <-.
    assert (row_id <$> (source_row 0 <$> ms) = row_id <$> snap) as Hid by (unfold snap; by rewrite <- !list_fmap_compose).
    rewrite list_elem_of_filter, Hid, (merge_rows_spec _ _ _ Hnd Hm). split.
    + intros [Hc [?|[Hr Hk]]]; [by left|right]. split; [done|]. intros Heq. destruct Hc as [?|(s & Hi & Hs)%list_elem_of_fmap]; [done|].
      apply Hk, list_elem_of_fmap. exists s. unfold merge_key. rewrite Heq, Hi, (Hsc s Hs). done.
    + intros [Hr|[Hr Hne']]; [split; [right; by apply list_elem_of_fmap_2|by left]|]. split; [by left|]. right. split; [done|].
      intros (s & Hk & Hs)%list_elem_of_fmap. apply Hne'. rewrite <- (Hsc s Hs). by apply pair_equal_spec in Hk as [? _].
Qed.

(** The rows of a BigQuery table. *)
Record bigquery_table := mkBigQueryTable { bigquery_rows : list db_row }.

#[export] Instance bigquery_snapshots : SnapshotTable bigquery_table.
Proof.
  refine {| tbl_rows := bigquery_rows; tbl_ok _ := True;
            tbl_exports sc items at_ t t' :=
              ∃ useEmulator srv, bigquery_run useEmulator srv sc items at_ (bigquery_rows t) = (Ok tt, bigquery_rows t') |}.
  intros sc items at_ t t' _ Hcl _ (emu & srv & Hrun). split; [done|]. by eapply bigquery_run_ok.
Defined.
End bigquery_laws.

(** * Histories of exports *)

Record export_event := mkExportEvent {
  ev_scope : exportScope;
  ev_items : list Item;
  ev_at : Z;
}.

(** A sequence of exports that reported success. *)
Inductive exported `{SnapshotTable T} : T → list export_event → T → Prop :=
  | exported_nil t : exported t [] t
  | exported_snoc t evs t1 ev t2 :
      exported t evs t1 → tbl_exports (ev_scope ev) (ev_items ev) (ev_at ev) t1 t2 → exported t (evs ++ [ev]) t2.

(** The latest export of an inventory from a cluster. *)
Definition last_export (sc : exportScope) (evs : list export_event) : option export_event :=
  last (filter (λ ev, ev_scope ev = sc) evs).

(** The rows are those of the latest snapshots, and no others. *)
Definition holds_last (evs : list export_event) (rows : list db_row) : Prop :=
  ∀ r, r ∈ rows ↔ ∃ ev snapshot,
    last_export (scope_of r) evs = Some ev ∧ snapshot_rows (ev_scope ev) (ev_at ev) (ev_items ev) = Some snapshot ∧ r ∈ snapshot.

(** Clusters that share an inventory's name do not share objects. *)
Definition own_objects (evs : list export_event) : Prop :=
  ∀ e1 e2, e1 ∈ evs → e2 ∈ evs →
    sc_inventoryNamespace (ev_scope e1) = sc_inventoryNamespace (ev_scope e2) →
    sc_inventoryName (ev_scope e1) = sc_inventoryName (ev_scope e2) → sc_cluster (ev_scope e1) ≠ sc_cluster (ev_scope e2) →
    ∀ id, id ∈ item_id <$> ev_items e1 → id ∉ item_id <$> ev_items e2.

Lemma last_export_snoc sc evs ev :
  last_export sc (evs ++ [ev]) = if decide (ev_scope ev = sc) then Some ev else last_export sc evs.
Proof.
  unfold last_export. rewrite filter_app. case_decide as Hd.
  - rewrite filter_cons_True by done. by rewrite filter_nil, last_snoc.
  - rewrite filter_cons_False by done. by rewrite filter_nil, List.app_nil_r.
Qed.

Lemma last_export_elem sc evs ev : last_export sc evs = Some ev → ev ∈ evs ∧ ev_scope ev = sc.
Proof. intros Hl%last_Some_elem_of. by apply list_elem_of_filter in Hl as [? ?]. Qed.

(** What is stored comes from an export of the history. *)
Lemma stored_from evs rows r :
  holds_last evs rows → r ∈ rows → ∃ ev, ev ∈ evs ∧ ev_scope ev = scope_of r ∧ row_id r ∈ item_id <$> ev_items ev.
Proof.
  intros Hh (ev & snap & [Hin Hsc]%last_export_elem & Hs & Hr)%Hh. exists ev. split_and!; [done..|].
  destruct (snapshot_rows_Some _ _ _ _ Hs) as [<- _]. by apply list_elem_of_fmap_2.
Qed.

Lemma exported_holds `{SnapshotTable T} (t0 t : T) evs :
  tbl_ok t0 → tbl_rows t0 = [] → Forall (λ ev, clean (ev_items ev)) evs → own_objects evs → exported t0 evs t →
  tbl_ok t ∧ holds_last evs (tbl_rows t).
Proof.
  intros Hok Hnil Hcl Hown Hex. induction Hex as [t|t evs t1 ev t2 Hex IH Hstep].
  { split; [done|]. intros r. rewrite Hnil, elem_of_nil. split; [done|]. by intros (ev & ? & ? & _). }
  apply Forall_app in Hcl as [Hcl [Hev _]%Forall_cons]. destruct IH as [Hok1 Hh]; [done..| |].
  { intros e1 e2 H1 H2. apply Hown; apply elem_of_app; by left. }
  assert (no_clash (ev_scope ev) (ev_items ev) (tbl_rows t1)) as Hnc.
  { intros r (e & He & Hsc & Hid)%(stored_from _ _ _ Hh) Hns Hname Hc. apply (Hown e ev); [set_solver..| | | |done]; by rewrite Hsc. }
  destruct (tbl_exact _ _ _ _ _ Hok1 Hev Hnc Hstep) as (Hok2 & snap & Hsnap & Hmem). split; [done|]. intros r.
  rewrite Hmem, last_export_snoc. destruct (snapshot_rows_Some _ _ _ _ Hsnap) as [_ Hsc]. rewrite Forall_forall in Hsc.
  destruct (decide (ev_scope ev = scope_of r)) as [Heq|Hne].
  - rewrite <- Heq. split.
    + intros [Hr|[_ ?]]; [by exists ev, snap|done].
    + intros (e & s & [= <-] & Hs & Hr). left. congruence.
  - rewrite (Hh r). split; [|naive_solver]. intros [Hr|[? _]]; [|done]. by destruct Hne; rewrite (Hsc r Hr).
Qed.

(** ** The inventory of a path *)

Lemma legacy_inventory_path ns name :
  has_byte "/" ns = false → has_byte "/" name = false → legacyInventoryFromObjectPath (inventory_path ns name) = (ns, name).
Proof.
  intros Hns Hname. unfold legacyInventoryFromObjectPath. rewrite inventory_path_trim. unfold inventory_path. rewrite trim_prefix_app.
  change (ns +:+ "/" +:+ ?r) with (ns +:+ String "/" r). rewrite split_byte_app by done.
  rewrite split_byte_none by (by rewrite has_byte_app, Hname). by rewrite trim_suffix_app.
Qed.

(** ** Exports of sinks *)

(** One export as the operator runs it: the sink's spec and the cluster its backend
    is configured with, the inventory, the envelope and the time. *)
Record sink_export := mkSinkExport {
  se_spec : KollectSinkSpec;
  se_cluster : string;
  se_namespace : string;
  se_name : string;
  se_generation : Z;
  se_payload : string;
  se_at : Z;
}.

Definition se_scope (e : sink_export) : exportScope := mkExportScope (se_namespace e) (se_name e) (se_cluster e).

(** The sink sets neither a path template nor the Parquet format, so the path names
    the inventory. *)
Definition names_inventory (e : sink_export) : Prop :=
  trim_space (sink_PathTemplate (se_spec e)) = "" ∧ sink_ObjectStoreFormat (se_spec e) = None ∧
  k8s_name (se_namespace e) = true ∧ k8s_name (se_name e) = true.

#[export] Instance names_inventory_dec e : Decision (names_inventory e).
Proof. unfold names_inventory. apply _. Defined.

(** A sequence of exports, each as [run] has it. *)
Inductive export_run {T} (run : sink_export → T → T → Prop) : T → list sink_export → T → Prop :=
  | run_nil t : export_run run t [] t
  | run_snoc t evs t1 e t2 : export_run run t evs t1 → run e t1 t2 → export_run run t (evs ++ [e]) t2.

Section sink_exports.
Context `{!UnicodeCase, !JsonDecode}.

Definition se_path (e : sink_export) : string := ObjectPath (se_spec e) (se_namespace e) (se_name e) (se_generation e).

(** The rows of the envelope; none when it does not decode, and then the export
    fails. *)
Definition se_items (e : sink_export) : list Item :=
  match ItemsFromExportPayload (se_payload e) with Ok items => items | Err _ => [] end.

Definition event_of (e : sink_export) : export_event := mkExportEvent (se_scope e) (se_items e) (se_at e).

(** An export that the destination reported as a success. *)
Definition pg_exported (e : sink_export) (t t' : gmap (string * string * (string * string)) db_row) : Prop :=
  ∃ srv, Postgres.pg_export srv (se_cluster e) (se_payload e) (se_path e) (se_at e) t = (Ok tt, t').
Definition mongo_exported (e : sink_export) (docs docs' : list db_row) : Prop :=
  ∃ srv, MongoDB.mongo_export srv (se_cluster e) (se_payload e) (se_path e) (se_at e) docs = (Ok tt, docs').
Definition bigquery_exported (e : sink_export) (t t' : bigquery_table) : Prop :=
  ∃ useEmulator srv, BigQuery.bigquery_export useEmulator srv (se_cluster e) (se_payload e) (se_path e) (se_at e) (bigquery_rows t) =
    (Ok tt, bigquery_rows t').

Lemma se_path_scope e : names_inventory e → legacyInventoryFromObjectPath (se_path e) = (se_namespace e, se_name e).
Proof.
  intros (Ht & Hf & Hns & Hname). unfold se_path. rewrite ObjectPath_default by done.
  by rewrite legacy_inventory_path by (by apply k8s_name_free).
Qed.

(** The exports run on the inventory's own scope and on the rows of the envelope. *)
Lemma pg_export_run srv e t :
  names_inventory e →
  Postgres.pg_export srv (se_cluster e) (se_payload e) (se_path e) (se_at e) t = Postgres.pg_transaction srv (se_scope e) (se_items e) (se_at e) t ∨
  ∃ er, Postgres.pg_export srv (se_cluster e) (se_payload e) (se_path e) (se_at e) t = (Err er, t).
Proof.
  intros Hn. unfold Postgres.pg_export, se_items. destruct (ItemsFromExportPayload _); [|right; by eexists].
  left. by rewrite se_path_scope.
Qed.

Lemma mongo_export_run srv e docs :
  names_inventory e →
  MongoDB.mongo_export srv (se_cluster e) (se_payload e) (se_path e) (se_at e) docs = MongoDB.mongo_run srv (se_scope e) (se_items e) (se_at e) docs ∨
  ∃ er, MongoDB.mongo_export srv (se_cluster e) (se_payload e) (se_path e) (se_at e) docs = (Err er, docs).
Proof.
  intros Hn. unfold MongoDB.mongo_export, MongoDB.newExportScope, se_items. destruct (ItemsFromExportPayload _); [|right; by eexists].
  left. by rewrite se_path_scope.
Qed.

Lemma bigquery_export_run emu srv e rows :
  names_inventory e →
  BigQuery.bigquery_export emu srv (se_cluster e) (se_payload e) (se_path e) (se_at e) rows =
    BigQuery.bigquery_run emu srv (se_scope e) (se_items e) (se_at e) rows ∨
  ∃ er, BigQuery.bigquery_export emu srv (se_cluster e) (se_payload e) (se_path e) (se_at e) rows = (Err er, rows).
Proof.
  intros Hn. unfold BigQuery.bigquery_export, se_items. destruct (ItemsFromExportPayload _); [|right; by eexists].
  left. by rewrite se_path_scope.
Qed.

(** A sequence of exports is a history of snapshots. *)
Lemma export_run_exported `{SnapshotTable T} (run : sink_export → T → T → Prop) t0 evs t :
  (∀ e t t', names_inventory e → run e t t' → tbl_exports (se_scope e) (se_items e) (se_at e) t t') →
  Forall names_inventory evs → export_run run t0 evs t → exported t0 (event_of <$> evs) t.
Proof.
  intros Hrun Hn Hex. induction Hex as [t|t evs t1 e t2 Hex IH Hstep]; [constructor|].
  apply Forall_app in Hn as [Hn [He _]%Forall_cons]. rewrite fmap_app. econstructor; [by apply IH|]. by apply Hrun.
Qed.

Lemma export_run_holds `{SnapshotTable T} (run : sink_export → T → T → Prop) t0 evs t :
  (∀ e t t', names_inventory e → run e t t' → tbl_exports (se_scope e) (se_items e) (se_at e) t t') →
  tbl_ok t0 → tbl_rows t0 = [] →
  Forall names_inventory evs → Forall (λ e, clean (se_items e)) evs → own_objects (event_of <$> evs) → export_run run t0 evs t →
  holds_last (event_of <$> evs) (tbl_rows t).
Proof.
  intros Hrun Hok Hnil Hn Hcl Hown Hex. eapply exported_holds; [done..| |done|by eapply export_run_exported].
  by apply Forall_fmap.
Qed.

(** ** Properties *)

(** C16. A database destination holds the latest snapshot of every inventory and
    nothing else. Start from an empty table and run any sequence of exports, of any
    inventories and clusters, each reported as a success: then the rows of the
    PostgreSQL table, whether they went through single upserts or the staging table,
    the documents of the MongoDB collection, with or without its unique index, and
    the rows of the BigQuery table or emulator, are exactly the rows of the last
    envelope exported for each inventory from each cluster. This is so provided the
    sinks set neither a path template nor the Parquet format (a template can merge
    inventories), no envelope holds an object twice under one target or a namespace
    with blanks around it, and clusters that export an inventory of one name share
    no objects. *)
Theorem tables_hold_last_snapshot evs :
  Forall names_inventory evs → Forall (λ e, clean (se_items e)) evs → own_objects (event_of <$> evs) →
  (∀ t, export_run pg_exported ∅ evs t → holds_last (event_of <$> evs) (pg_rows t)) ∧
  (∀ docs, export_run mongo_exported [] evs docs → holds_last (event_of <$> evs) docs) ∧
  (∀ t, export_run bigquery_exported (mkBigQueryTable []) evs t → holds_last (event_of <$> evs) (bigquery_rows t)).
Proof.
  intros Hn Hcl Hown. split_and!; intros t Hex.
  - refine (export_run_holds (H1 := postgres_table) pg_exported ∅ evs t _ _ _ Hn Hcl Hown Hex); [|done..].
    intros e t1 t2 He [srv Hs]. exists srv. destruct (pg_export_run srv e t1 He) as [<-|[er Her]]; [done|by rewrite Her in Hs].
  - refine (export_run_holds (H1 := mongodb_table) mongo_exported [] evs t _ _ _ Hn Hcl Hown Hex); [|by apply NoDup_nil|done].
    intros e t1 t2 He [srv Hs]. exists srv. destruct (mongo_export_run srv e t1 He) as [<-|[er Her]]; [done|by rewrite Her in Hs].
  - refine (export_run_holds (H1 := bigquery_snapshots) bigquery_exported _ evs t _ _ _ Hn Hcl Hown Hex); [|done..].
    intros e t1 t2 He (emu & srv & Hs). exists emu, srv.
    destruct (bigquery_export_run emu srv e (bigquery_rows t1) He) as [<-|[er Her]]; [done|by rewrite Her in Hs].
Qed.
End sink_exports.

(** An export keeps the rows of the objects that are still there, and all rows of
    other inventories. *)
Definition keeps (sc : exportScope) (items : list Item) (before after : list db_row) : Prop :=
  (∀ r, scope_of r ≠ sc → r ∈ after ↔ r ∈ before) ∧
  (∀ r, r ∈ before → scope_of r = sc → row_id r ∈ item_id <$> items → BigQuery.merge_key r ∈ BigQuery.merge_key <$> after).

Lemma keeps_refl sc items rows : keeps sc items rows rows.
Proof. split; [done|]. intros r Hr _ _. by apply list_elem_of_fmap_2. Qed.

(** A snapshot that was put in place keeps them. *)
Lemma exact_keeps sc items at_ rows before after :
  snapshot_rows sc at_ items = Some rows → (∀ r, r ∈ after ↔ r ∈ rows ∨ (r ∈ before ∧ scope_of r ≠ sc)) → keeps sc items before after.
Proof.
  intros [Hids Hsc]%snapshot_rows_Some Hmem. rewrite Forall_forall in Hsc. split.
  - intros r Hr. rewrite Hmem. split; [|tauto]. intros [Hin|[? _]]; [|done]. by destruct Hr; apply Hsc.
  - intros r Hr Hs Hid. rewrite <- Hids in Hid. apply list_elem_of_fmap in Hid as (s & Hid & Hin). apply list_elem_of_fmap. exists s.
    split; [|apply Hmem; by left]. unfold BigQuery.merge_key. by rewrite Hs, Hid, (Hsc s Hin).
Qed.

Lemma keeps_filter sc items (P : db_row → bool) before after :
  keeps sc items before after →
  (∀ r, P r = false → scope_of r = sc ∧ row_id r ∉ item_id <$> items) → keeps sc items before (filter (λ r, P r = true) after).
Proof.
  intros [Hout Hin] HP. split.
  - intros r Hr. rewrite list_elem_of_filter, Hout by done. split; [tauto|]. intros ?. split; [|done].
    destruct (P r) eqn:Hp; [done|]. by destruct (HP r Hp).
  - intros r Hr Hs Hid. destruct (list_elem_of_fmap_1 _ _ _ (Hin r Hr Hs Hid)) as (s & Hk & Hs'). apply list_elem_of_fmap. exists s.
    split; [done|]. apply list_elem_of_filter. split; [|done]. destruct (P s) eqn:Hp; [done|]. destruct (HP s Hp) as [_ Hn].
    apply pair_equal_spec in Hk as [_ Hk]. by rewrite Hk in Hid.
Qed.

Lemma mongo_keeps srv sc items at_ docs :
  mongo_ok docs → keeps sc items docs (MongoDB.mongo_run srv sc items at_ docs).2.
Proof.
  intros Hok. unfold MongoDB.mongo_run. destruct (MongoDB.replace_loop srv sc at_ 0 items docs) as [res docs1] eqn:Hl.
  apply replace_loop_spec in Hl as (_ & Hout & Hkeep & _); [|done].
  assert (keeps sc items docs docs1) as Hk by (split; [done|]; intros r Hr _ _; by apply Hkeep). destruct res; [|done].
  unfold MongoDB.deleteStaleDocuments. destruct (MongoDB.mg_delete srv) as [[e hit]|]; cbn [snd].
  - rewrite (list_filter_iff _ (λ r, negb (MongoDB.staleDeleteFilter sc items r && hit r) = true)); [|intros r; by rewrite negb_true_iff].
    apply (keeps_filter _ _ (λ r, negb (MongoDB.staleDeleteFilter sc items r && hit r))); [done|].
    intros r [Hr _]%negb_false_iff%andb_true_iff. by apply staleDeleteFilter_spec.
  - rewrite (list_filter_iff _ (λ r, negb (MongoDB.staleDeleteFilter sc items r) = true)); [|intros r; by rewrite negb_true_iff].
    apply (keeps_filter _ _ (λ r, negb (MongoDB.staleDeleteFilter sc items r))); [done|].
    intros r Hr%negb_false_iff. by apply staleDeleteFilter_spec.
Qed.

Lemma pg_transaction_effect srv sc items at_ t :
  let '(res, t') := Postgres.pg_transaction srv sc items at_ t in
  (t' = t ∧ (res = Ok tt → False)) ∨
  ((res = Ok tt ∨ ∃ e, Postgres.pg_commit srv = Some (e, true)) ∧
   ∃ rows, snapshot_rows sc at_ items = Some rows ∧
     t' = filter (λ kr, scope_of kr.2 ≠ sc ∨ row_id kr.2 ∈ item_id <$> items) (foldl Postgres.upsert_row t rows)).
Proof.
  unfold Postgres.pg_transaction. destruct (Postgres.pg_begin srv); [by left|].
  destruct (Postgres.upsertItems srv sc items at_ t) as [w|] eqn:Hu; cbn [mbind result_bind]; [|by left].
  destruct (Postgres.deleteStaleRows srv sc items w) as [w'|] eqn:Hd; [|by left].
  apply upsertItems_ok in Hu as (rows & Hr & ->). apply deleteStaleRows_ok in Hd as ->.
  destruct (Postgres.pg_commit srv) as [[e []]|]; [right|by left|right]; eauto 6.
Qed.

Lemma pg_transaction_keeps srv sc items at_ t :
  clean items → pg_ok t → no_clash sc items (pg_rows t) →
  let '(res, t') := Postgres.pg_transaction srv sc items at_ t in
  keeps sc items (pg_rows t) (pg_rows t') ∧ (∀ e, res = Err e → t' = t ∨ ∃ lost, Postgres.pg_commit srv = Some (lost, true)).
Proof.
  intros Hcl Hok Hnc. pose proof (pg_transaction_effect srv sc items at_ t) as He.
  destruct (Postgres.pg_transaction srv sc items at_ t) as [res t'].
  destruct He as [[-> _]|[Hres (rows & Hrows & ->)]]; [split; [apply keeps_refl|by left]|].
  destruct (pg_reconciled sc items at_ rows t Hok Hcl Hnc Hrows) as [_ Hmem]. split; [by eapply exact_keeps|].
  intros e ->. right. destruct Hres as [?|?]; done.
Qed.

Lemma execute_effect srv n wrap st rows :
  (BigQuery.execute srv n wrap st rows).2 = rows ∨ BigQuery.run_statement st rows = Some (BigQuery.execute srv n wrap st rows).2.
Proof.
  unfold BigQuery.execute. destruct (BigQuery.bqs_fault srv n) as [[e []]|], (BigQuery.run_statement st rows); cbn; auto.
Qed.

Lemma merge_keeps sc items at_ ms rows rows' :
  clean items → snapshot_rows sc at_ items = Some (BigQuery.source_row at_ <$> ms) → ms ≠ [] →
  BigQuery.run_statement (BigQuery.Merge (mergeSourceRowsSQL ms) at_) rows = Some rows' → keeps sc items rows rows'.
Proof.
  intros Hcl Hrows Hne Hm. cbn in Hm. rewrite source_rows_back in Hm by done. cbn in Hm.
  destruct (snapshot_keys _ _ _ _ Hcl Hrows) as [_ Hnd]. destruct (snapshot_rows_Some _ _ _ _ Hrows) as [Hids Hsc].
  rewrite Forall_forall in Hsc. pose proof (merge_rows_spec _ _ _ Hnd Hm) as Hmem. set (snap := BigQuery.source_row at_ <$> ms) in *. split.
  - intros r Hr. rewrite Hmem. split; [intros [Hin|[? _]]; [by destruct Hr; apply Hsc|done]|]. intros Hin. right. split; [done|].
    intros (s & Hk & Hs)%list_elem_of_fmap. apply Hr. rewrite <- (Hsc s Hs). by apply pair_equal_spec in Hk as [? _].
  - intros r Hr _ _. apply list_elem_of_fmap. destruct (decide (BigQuery.merge_key r ∈ BigQuery.merge_key <$> snap)) as [(s & Hk & Hs)%list_elem_of_fmap|Hk].
    + exists s. split; [done|]. apply Hmem. by left.
    + exists r. split; [done|]. apply Hmem. by right.
Qed.

Lemma stale_keeps sc items at_ ms before rows rows' :
  snapshot_rows sc at_ items = Some (BigQuery.source_row at_ <$> ms) → ms ≠ [] → keeps sc items before rows →
  BigQuery.run_statement (BigQuery.DeleteStale sc (mergeSourceRowsSQL ms)) rows = Some rows' → keeps sc items before rows'.
Proof.
  intros [Hids _]%snapshot_rows_Some Hne Hk Hd. cbn in Hd. rewrite source_rows_back in Hd by done. injection Hd as <-.
  assert (row_id <$> (BigQuery.source_row 0 <$> ms) = item_id <$> items) as Hid by (rewrite <- Hids; by rewrite <- !list_fmap_compose).
  rewrite (list_filter_iff _ (λ r, bool_decide (scope_of r ≠ sc ∨ row_id r ∈ item_id <$> items) = true)).
  - apply (keeps_filter _ _ (λ r, bool_decide (scope_of r ≠ sc ∨ row_id r ∈ item_id <$> items))); [done|].
    intros r Hr%bool_decide_eq_false. destruct (decide (scope_of r = sc)); tauto.
  - intros r. by rewrite bool_decide_eq_true, Hid.
Qed.

Lemma bigquery_keeps srv sc items at_ rows :
  clean items → keeps sc items rows (BigQuery.bigquery_run false srv sc items at_ rows).2.
Proof.
  intros Hcl. unfold BigQuery.bigquery_run. case_decide as Hlen.
  { apply nil_length_inv in Hlen as ->. unfold BigQuery.runDeleteAll.
    destruct (execute_effect srv 0 BigQuery.ErrDelete (BigQuery.DeleteAll sc) rows) as [->|Hr]; [apply keeps_refl|]. injection Hr as <-.
    apply (exact_keeps _ _ at_ []); [done|]. intros r. rewrite list_elem_of_filter, elem_of_nil. tauto. }
  destruct (BigQuery.toMergeRows _ _ _ _) as [ms|] eqn:Hms; [|apply keeps_refl].
  assert (ms ≠ []) as Hne. { intros ->. apply mapM_Some, Forall2_nil_inv_r in Hms. by subst. }
  pose proof (toMergeRows_rows sc at_ _ _ Hcl Hms) as Hrows. unfold BigQuery.runMergeUpsert.
  pose proof (execute_effect srv 0 BigQuery.ErrMergeUpsertFailed (BigQuery.Merge (mergeSourceRowsSQL ms) at_) rows) as Hm.
  destruct (BigQuery.execute srv 0 _ _ rows) as [res rows1]. cbn [snd] in Hm.
  assert (keeps sc items rows rows1) as Hk1 by (destruct Hm as [->|Hm]; [apply keeps_refl|by eapply merge_keeps]).
  destruct res; [|done]. cbn [BigQuery.then_execute]. unfold BigQuery.runDeleteStale.
  destruct (execute_effect srv 1 BigQuery.ErrDeleteStaleFailed (BigQuery.DeleteStale sc (mergeSourceRowsSQL ms)) rows1) as [->|Hd]; [done|].
  by eapply stale_keeps.
Qed.

Section failures.
Context `{!UnicodeCase, !JsonDecode}.

(** C17. An export that fails loses nothing. Whatever the database answers to whichever
    request, and whether a failed request was applied or not, an export leaves every
    row of other inventories, and of the inventory in other clusters, as it was, and
    every stored object that is still in the envelope stays stored; a PostgreSQL
    export that reports an error leaves the whole table as it was, unless the answer
    to COMMIT was lost. This is so for a sink without a path template or the Parquet
    format and an envelope that holds no object twice under one target and no
    namespace with blanks around it; for PostgreSQL, when no other cluster has stored
    an object of the envelope under the inventory's name (the cluster is not in the
    primary key); for MongoDB, when the collection holds at most one document per
    inventory, cluster, target and object; and for BigQuery itself, not its
    emulator. *)
Theorem failed_export_loses_nothing e :
  names_inventory e → clean (se_items e) →
  (∀ srv t, pg_ok t → no_clash (se_scope e) (se_items e) (pg_rows t) →
    let '(res, t') := Postgres.pg_export srv (se_cluster e) (se_payload e) (se_path e) (se_at e) t in
    keeps (se_scope e) (se_items e) (pg_rows t) (pg_rows t') ∧
    (∀ er, res = Err er → t' = t ∨ ∃ lost, Postgres.pg_commit srv = Some (lost, true))) ∧
  (∀ srv docs, mongo_ok docs →
    keeps (se_scope e) (se_items e) docs (MongoDB.mongo_export srv (se_cluster e) (se_payload e) (se_path e) (se_at e) docs).2) ∧
  (∀ srv rows,
    keeps (se_scope e) (se_items e) rows (BigQuery.bigquery_export false srv (se_cluster e) (se_payload e) (se_path e) (se_at e) rows).2).
Proof.
  intros Hn Hcl. split_and!.
  - intros srv t Hok Hnc. destruct (pg_export_run srv e t Hn) as [->|[er ->]]; [|split; [apply keeps_refl|by left]].
    by apply pg_transaction_keeps.
  - intros srv docs Hok. destruct (mongo_export_run srv e docs Hn) as [->|[er ->]]; [by apply mongo_keeps|apply keeps_refl].
  - intros srv rows. destruct (bigquery_export_run false srv e rows Hn) as [->|[er ->]]; [by apply bigquery_keeps|apply keeps_refl].
Qed.
End failures.

(** * Concrete exports *)
Module DatabaseDemo.

Definition item (target uid name : string) : Item := mkItem "team" target "shop" name "apps" "v1" "Deployment" uid None.
Definition web : Item := item "t" "u1" "web".
Definition api : Item := item "t" "u2" "api".
Definition job : Item := item "t" "u3" "job".

Definition healthy : Postgres.pg_server := Postgres.mkPgServer None (λ _, None) None (Leaf 1 "second time").
Definition app : exportScope := mkExportScope "team" "app" "".
Definition other : exportScope := mkExportScope "team" "other" "".

(** The decoder of three named envelopes. *)
#[local] Instance demo_decode : JsonDecode := {|
  decode_envelope s :=
    let env items := Some (mkEnvelope ExportSchemaVersion "" 1 0 0 0 "" "" items) in
    if decide (s = "web+api") then env [web; api]
    else if decide (s = "web") then env [web]
    else if decide (s = "api+job") then env [api; job] else None;
  decode_items _ := None; parse_rfc3339nano _ := None |}.
#[local] Existing Instance ascii_only_case.

Definition plain_spec : KollectSinkSpec := mkKollectSinkSpec "postgres" "" "" "" None None None None.

(** Two exports of [app], the second without [web], around one of [other]. *)
Definition first_app : sink_export := mkSinkExport plain_spec "" "team" "app" 1 "web+api" 1.
Definition one_other : sink_export := mkSinkExport plain_spec "" "team" "other" 1 "web" 2.
Definition second_app : sink_export := mkSinkExport plain_spec "" "team" "app" 2 "api+job" 3.
Definition history : list sink_export := [first_app; one_other; second_app].

Definition step (t : Postgres.pg_table) (ev : export_event) : Postgres.pg_table :=
  (Postgres.pg_transaction healthy (ev_scope ev) (ev_items ev) (ev_at ev) t).2.

Definition run (t : Postgres.pg_table) (e : sink_export) : Postgres.pg_table :=
  (Postgres.pg_export healthy (se_cluster e) (se_payload e) (se_path e) (se_at e) t).2.

Lemma run_exports t e :
  (Postgres.pg_export healthy (se_cluster e) (se_payload e) (se_path e) (se_at e) t).1 = Ok tt → pg_exported e t (run t e).
Proof. intros Hok. exists healthy. unfold run. destruct (Postgres.pg_export _ _ _ _ _ _) as [res t']. cbn in Hok |- *. by subst. Qed.

Lemma history_named : Forall names_inventory history.
Proof. apply (bool_decide_unpack (Forall _ history)). vm_compute. exact I. Qed.

Lemma history_clean : Forall (λ e, clean (se_items e)) history.
Proof. apply (bool_decide_unpack (Forall _ history)). vm_compute. exact I. Qed.

Lemma history_own : own_objects (event_of <$> history).
Proof.
  assert (∀ e, e ∈ event_of <$> history → sc_cluster (ev_scope e) = "") as Hc.
  { apply Forall_forall. by repeat constructor. }
  intros e1 e2 H1%Hc H2%Hc _ _ Hne. by rewrite H1, H2 in Hne.
Qed.

Lemma tables_hold_last_snapshot_witness :
  (db_source_uid <$> pg_rows (foldl run ∅ history)) ≡ₚ ["u1"; "u2"; "u3"] ∧
  holds_last (event_of <$> history) (pg_rows (foldl run ∅ history)).
Proof.
  split; [apply (bool_decide_unpack (_ ≡ₚ _)); vm_compute; exact I|].
  refine (proj1 (tables_hold_last_snapshot history history_named history_clean history_own) _ _).
  set (t1 := run ∅ first_app). set (t2 := run t1 one_other).
  refine (run_snoc _ ∅ [_; _] t2 second_app _ _ (run_exports _ _ _)); [|vm_compute; reflexivity].
  refine (run_snoc _ ∅ [_] t1 one_other _ _ (run_exports _ _ _)); [|vm_compute; reflexivity].
  refine (run_snoc _ ∅ [] ∅ first_app _ (run_nil _ _) (run_exports _ _ _)). vm_compute. reflexivity.
Defined.

(** The third request to MongoDB fails after two documents were replaced: the stale
    one stays. *)
Definition flaky : MongoDB.mongo_server := MongoDB.mkMongoServer true (λ _, true) (λ n, if decide (n = 1) then Some (Leaf 2 "timeout", false) else None) None.

Definition row (sc : exportScope) (i : Item) (at_ : Z) : db_row :=
  mkDbRow (sc_inventoryNamespace sc) (sc_inventoryName sc) (TargetName i) (UID i) (sc_cluster sc) (Namespace i) (default "" (json_item i)) at_.

Definition docs0 : list db_row := [row app web 1; row app api 1; row other web 1].
Definition flaky_export : result MongoDB.mongo_error unit * list db_row :=
  MongoDB.mongo_export flaky (se_cluster second_app) (se_payload second_app) (se_path second_app) (se_at second_app) docs0.

Lemma failed_export_loses_nothing_witness :
  is_ok flaky_export.1 = false ∧ (db_exported_at <$> flaky_export.2) = [1; 3; 1]%Z ∧ keeps app [api; job] docs0 flaky_export.2.
Proof.
  split; [vm_compute; reflexivity|]. split; [vm_compute; reflexivity|].
  refine (proj1 (proj2 (failed_export_loses_nothing second_app _ _)) flaky docs0 _).
  - apply (bool_decide_unpack (names_inventory _)). vm_compute. exact I.
  - apply (bool_decide_unpack (clean _)). vm_compute. exact I.
  - apply (bool_decide_unpack (NoDup _)). vm_compute. exact I.
Defined.

(** ** Where the assumptions fail *)

(** One object twice under one target: with 31 more rows the export fails for ever,
    with fewer the later row wins. *)
Definition filler : list Item := (λ n, item "t" ("x" +:+ fmt_04d n) "x") <$> seq 0 31.

Example duplicate_breaks_bulk :
  Postgres.upsertItems healthy app (web :: web :: filler) 1 ∅ = Err (Postgres.ErrBulkUpsertMergeFailed (Leaf 1 "second time")) ∧
  is_ok (Postgres.upsertItems healthy app [web; web] 1 ∅) = true.
Proof. split; vm_compute; reflexivity. Qed.

(** BigQuery inserts both, and refuses every later export that has both again. *)
Definition answering : BigQuery.bigquery_server := BigQuery.mkBigQueryServer (λ _, None) (Leaf 3 "must match at most one source row").

Example duplicate_inserted_twice :
  let first := BigQuery.bigquery_run false answering app [web; web] 1 [] in
  first.1 = Ok tt ∧ length first.2 = 2 ∧
  (BigQuery.bigquery_run false answering app [web; web] 2 first.2).1 = Err (BigQuery.ErrMergeUpsertFailed (Leaf 3 "must match at most one source row")).
Proof. vm_compute. auto. Qed.

(** The cluster is not in the primary key: a cluster that shares the object takes the
    row over in PostgreSQL, and cannot export at all to MongoDB. *)
Definition east : exportScope := mkExportScope "team" "app" "east".

Example cluster_takes_row_over :
  let t := step ∅ (mkExportEvent app [web] 1) in
  (db_cluster <$> pg_rows t) = [""] ∧ (db_cluster <$> pg_rows (step t (mkExportEvent east [web] 2))) = ["east"] ∧
  (MongoDB.mongo_run (MongoDB.mkMongoServer true (λ _, true) (λ _, None) None) east [web] 2 [row app web 1]).1 = Err MongoDB.ErrDuplicateKey.
Proof. vm_compute. auto. Qed.

(** A path template that admission accepts makes two inventories of one namespace
    share a scope: the export of the second removes the rows of the first. *)
Definition templated : KollectSinkSpec := mkKollectSinkSpec "postgres" "c1" "{cluster}/{namespace}/{name}.json" "" None None None None.

Example template_merges_inventories :
  let _ := ascii_only_case in
  let scope name := MongoDB.newExportScope (ObjectPath templated "team" name 1) "c1" in
  ValidatePathTemplate (sink_PathTemplate templated) = Ok tt ∧ scope "app" = scope "other" ∧
  (db_source_uid <$> pg_rows (step (step ∅ (mkExportEvent (scope "app") [web] 1)) (mkExportEvent (scope "other") [api] 2))) = ["u2"].
Proof. vm_compute. auto. Qed.
End DatabaseDemo.
