(* ===== verification/DatabaseAccess.v ===== *)
(** Opening a database sink ([src/internal/sink/postgres], [mongodb], [bigquery]): the
    configuration from the spec and the Secret, the provisioning of the destination
    in its two modes, and the classes of the errors the drivers report.

    A destination is described by what provisioning can change of it: whether the
    table or collection exists and whether the collection has its unique index. *)

From S2P Require Import Prelude GoStrings Values Errors.

(** * Configuration *)

Definition ProvisioningModeEnsure : string := "ensure".
Definition ProvisioningModeExisting : string := "existing".

Record PostgresSpec := mkPostgresSpec { pg_DatabaseRef : option string; pg_Schema : string; pg_Table : string }.
Record MongoDBSpec := mkMongoDBSpec { mg_DatabaseRef : option string; mg_Database : string; mg_Collection : string }.
Record BigQuerySpec := mkBigQuerySpec { bq_Project : string; bq_Dataset : string; bq_Table : string; bq_Location : string; bq_SecretRef : option string }.

(** The fields of a normalized sink spec that the database sinks read. *)
Record db_spec := mkDbSpec {
  ds_Type : string;
  ds_Cluster : string;
  ds_Provisioning : option string;
  ds_Postgres : option PostgresSpec;
  ds_MongoDB : option MongoDBSpec;
  ds_BigQuery : option BigQuerySpec;
}.

Section config.
Context `{!UnicodeCase}.

(** Go: api/v1alpha1/sink_config.go:42-54 [EffectiveProvisioningMode] *)
Definition EffectiveProvisioningMode (spec : db_spec) : string :=
  match ds_Provisioning spec with
  | None => ProvisioningModeEnsure
  | Some mode => if decide (to_lower (trim_space mode) = ProvisioningModeExisting) then ProvisioningModeExisting else ProvisioningModeEnsure
  end.

(** Go: internal/sink/secretkv/secretkv.go:12-29 [FirstValue] *)
Fixpoint FirstValue (data : gmap string string) (keys : list string) : option string :=
  match keys with
  | [] => None
  | key :: keys =>
      match data !! key with
      | None => FirstValue data keys
      | Some v => if decide (trim_space v ≠ "") then Some (trim_space v) else FirstValue data keys
      end
  end.

(** The configuration errors, by what is missing. *)
Inductive config_error := WrongType | MissingBlock | MissingField (name : string) | EmptySecret | MissingKey.

Record db_config := mkDbConfig {
  cfg_DSN : string;
  cfg_Names : list string;
  cfg_Cluster : string;
  cfg_ProvisioningMode : string;
}.

(** Go: internal/sink/postgres/config.go:65-75 [dsnFromSecret] *)
Definition dsnFromSecret (data : gmap string string) : result config_error string :=
  if decide (size data = 0) then Err EmptySecret
  else match FirstValue data ["dsn"; "url"; "connectionString"; "DATABASE_URL"] with Some dsn => Ok dsn | None => Err MissingKey end.

(** Go: internal/sink/postgres/config.go:23-63 [ConfigFromSpec] *)
Definition postgres_ConfigFromSpec (spec : db_spec) (secret : gmap string string) : result config_error db_config :=
  if decide (ds_Type spec ≠ "postgres") then Err WrongType
  else match ds_Postgres spec with
  | None => Err MissingBlock
  | Some pg =>
      if decide (default "" (pg_DatabaseRef pg) = "") then Err (MissingField "databaseRef")
      else
        let table := trim_space (pg_Table pg) in
        if decide (table = "") then Err (MissingField "table")
        else
          let schema := trim_space (pg_Schema pg) in
          let schema := if decide (schema = "") then "public" else schema in
          dsn ← dsnFromSecret secret;
          Ok (mkDbConfig dsn [schema; table] (trim_space (ds_Cluster spec)) (EffectiveProvisioningMode spec))
  end.

(** Go: internal/sink/mongodb/config.go:70-80 [uriFromSecret] *)
Definition uriFromSecret (data : gmap string string) : result config_error string :=
  if decide (size data = 0) then Err EmptySecret
  else match FirstValue data ["uri"; "url"; "connectionString"; "MONGODB_URI"] with Some uri => Ok uri | None => Err MissingKey end.

(** Go: internal/sink/mongodb/config.go:28-68 [ConfigFromSpec] *)
Definition mongodb_ConfigFromSpec (spec : db_spec) (secret : gmap string string) : result config_error db_config :=
  if decide (ds_Type spec ≠ "mongodb") then Err WrongType
  else match ds_MongoDB spec with
  | None => Err MissingBlock
  | Some mg =>
      if decide (trim_space (default "" (mg_DatabaseRef mg)) = "") then Err (MissingField "databaseRef")
      else
        let database := trim_space (mg_Database mg) in
        if decide (database = "") then Err (MissingField "database")
        else
          let collection := trim_space (mg_Collection mg) in
          if decide (collection = "") then Err (MissingField "collection")
          else
            uri ← uriFromSecret secret;
            Ok (mkDbConfig uri [database; collection] (trim_space (ds_Cluster spec)) (EffectiveProvisioningMode spec))
  end.

(** Go: internal/sink/bigquery/config.go:94-105 [credentialsJSONFromSecret] *)
Definition credentialsJSONFromSecret (data : gmap string string) : result config_error string :=
  if decide (size data = 0) then Err EmptySecret
  else match data !! "credentials.json" with
       | Some raw => if decide (trim_space raw = "") then Err MissingKey else Ok raw
       | None => Err MissingKey
       end.

(** Whether the emulator's environment variable is set is read elsewhere; the
    credentials stand where the others have their connection string.
    Go: internal/sink/bigquery/config.go:44-92 [ConfigFromSpec] *)
Definition bigquery_ConfigFromSpec (spec : db_spec) (secret : gmap string string) : result config_error db_config :=
  if decide (ds_Type spec ≠ "bigquery") then Err WrongType
  else match ds_BigQuery spec with
  | None => Err MissingBlock
  | Some bq =>
      let project := trim_space (bq_Project bq) in
      if decide (project = "") then Err (MissingField "project")
      else
        let dataset := trim_space (bq_Dataset bq) in
        if decide (dataset = "") then Err (MissingField "dataset")
        else
          let table := trim_space (bq_Table bq) in
          if decide (table = "") then Err (MissingField "table")
          else
            creds ← match bq_SecretRef bq with None => Ok "" | Some _ => credentialsJSONFromSecret secret end;
            Ok (mkDbConfig creds [project; dataset; table; trim_space (bq_Location bq)] (trim_space (ds_Cluster spec))
                  (EffectiveProvisioningMode spec))
  end.
End config.

(** * Error classes *)

(** What [errors.As] finds in an error: the code and the reasons of a
    [*googleapi.Error], and the reason of a [*bigquery.Error]. *)
Record google_error := mkGoogleError { ge_Code : Z; ge_Reasons : list string }.
Record bigquery_cause := mkBigQueryCause { bc_google : option google_error; bc_bigquery : option string }.

Section classes.
Context `{!UnicodeCase}.

Definition reason_key (reason : string) : string := to_lower (trim_space reason).

(** Go: internal/sink/bigquery/errors.go:106-124 [reasonsFromGoogleAPI] *)
Definition reasonsFromGoogleAPI (e : google_error) : list string := filter (λ r, r ≠ "") (reason_key <$> ge_Reasons e).

(** Go: internal/sink/bigquery/errors.go:87-104 [collectReasons] *)
Definition collectReasons (c : bigquery_cause) : list string :=
  match bc_google c with Some g => reasonsFromGoogleAPI g | None => [] end ++
  match bc_bigquery c with Some r => if decide (reason_key r ≠ "") then [reason_key r] else [] | None => [] end.

(** The loop over the reasons: the first one that is known decides. *)
Fixpoint reasons_terminal (reasons : list string) : bool :=
  match reasons with
  | [] => false
  | r :: reasons =>
      if decide (r ∈ ["invalid"; "invalidquery"; "accessdenied"; "notfound"]) then true
      else if decide (r ∈ ["ratelimitexceeded"; "quotaexceeded"; "backenderror"; "internalerror"]) then false
      else reasons_terminal reasons
  end.

(** Go: internal/sink/bigquery/errors.go:62-85 [isTerminal] *)
Definition bigquery_isTerminal (c : bigquery_cause) : bool :=
  match bc_google c with
  | Some g => if decide (ge_Code g ∈ [400; 401; 403; 404]%Z) then true else reasons_terminal (collectReasons c)
  | None => reasons_terminal (collectReasons c)
  end.

(** Go: internal/sink/bigquery/errors.go:26-36 [classifyError] *)
Definition bigquery_classifyError (c : bigquery_cause) (e : err) : option err :=
  if bigquery_isTerminal c then Terminal (Some e) else Transient (Some e).

(** Go: internal/sink/bigquery/errors.go:38-60 [isDuplicateCreate] *)
Definition isDuplicateCreate (c : bigquery_cause) : bool :=
  match bc_google c with
  | Some g => bool_decide (ge_Code g = 409%Z) && existsb (λ r, bool_decide (r = "duplicate")) (reasonsFromGoogleAPI g)
  | None => false
  end.

(** [duplicate] is [mongo.IsDuplicateKeyError], [codes] those of a
    [mongo.WriteException].
    Go: internal/sink/mongodb/errors.go:59-79 [isTerminalWrite] *)
Definition isTerminalWrite (duplicate : bool) (codes : list Z) : bool :=
  duplicate || existsb (λ c, bool_decide (c ∈ [121; 11000]%Z)) codes.

(** Go: internal/sink/mongodb/errors.go:43-57 [classifyError] *)
Definition mongodb_classifyError `{!ApiErrors} (duplicate : bool) (codes : list Z) (e : err) : option err :=
  if IsTerminal (Some e) then Some e
  else if isTerminalWrite duplicate codes then Terminal (Some e) else Transient (Some e).

(** A quota that is used up is answered with 403, which makes it terminal before its
    reason is looked at. *)
Example quota_403_terminal :
  let _ := ascii_only_case in
  bigquery_isTerminal (mkBigQueryCause (Some (mkGoogleError 403 ["quotaExceeded"])) None) = true ∧
  bigquery_isTerminal (mkBigQueryCause None (Some "quotaExceeded")) = false.
Proof. vm_compute. done. Qed.
End classes.

(** * Provisioning *)

Record destination := mkDestination {
  dst_exists : bool;
  dst_index : bool;
}.

Inductive provision_error := ProbeFailed (e : err) | NotFound | CreateFailed (e : err) | IndexFailed (e : err).

Definition outcome : Type := result provision_error unit * destination.

(** A request that fails leaves the destination as it is, or was applied. *)
Record db_answers := mkDbAnswers {
  an_probe : option err;
  an_create : option (err * bool);
  an_duplicate : bool;
  an_index : option (err * bool);
}.

Section provisioning.
Variable answers : db_answers.

(** Go: internal/sink/postgres/backend.go:205-221 [classifyTableProbe] *)
Definition classifyTableProbe (exists_ : bool) (e : option err) : result provision_error unit :=
  match e with
  | Some e => Err (ProbeFailed e)
  | None => if exists_ then Ok tt else Err NotFound
  end.

(** Go: internal/sink/postgres/backend.go:182-203 [verifyTable] *)
Definition postgres_verifyTable (d : destination) : outcome := (classifyTableProbe (dst_exists d) (an_probe answers), d).

(** CREATE TABLE IF NOT EXISTS.
    Go: internal/sink/postgres/backend.go:223-237 [ensureTable] *)
Definition postgres_ensureTable (d : destination) : outcome :=
  match an_create answers with
  | Some (e, applied) => (Err (CreateFailed e), if (applied : bool) then mkDestination true (dst_index d) else d)
  | None => (Ok tt, mkDestination true (dst_index d))
  end.

(** Go: internal/sink/postgres/backend.go:75-88 [provisionTable] *)
Definition provisionTable (mode : string) (verify ensure : destination → outcome) (d : destination) : outcome :=
  if decide (mode = ProvisioningModeExisting) then verify d else ensure d.

(** The list holds the collection's name exactly when it exists.
    Go: internal/sink/mongodb/backend.go:178-192 [verifyCollection] *)
Definition verifyCollection (d : destination) : outcome :=
  match an_probe answers with
  | Some e => (Err (ProbeFailed e), d)
  | None => (if dst_exists d then Ok tt else Err NotFound, d)
  end.

(** Go: internal/sink/mongodb/backend.go:194-225 [ensureCollection] *)
Definition ensureCollection (d : destination) : outcome :=
  match an_probe answers with
  | Some e => (Err (ProbeFailed e), d)
  | None =>
      let created :=
        if dst_exists d then inl d
        else match an_create answers with
             | Some (e, applied) => inr (Err (CreateFailed e), if (applied : bool) then mkDestination true (dst_index d) else d)
             | None => inl (mkDestination true (dst_index d))
             end in
      match created with
      | inr r => r
      | inl d =>
          match an_index answers with
          | Some (e, applied) => (Err (IndexFailed e), if (applied : bool) then mkDestination (dst_exists d) true else d)
          | None => (Ok tt, mkDestination (dst_exists d) true)
          end
      end
  end.

(** The metadata of a table that does not exist is an error.
    Go: internal/sink/bigquery/backend.go:172-184 [verifyTable] *)
Definition bigquery_verifyTable (d : destination) : outcome :=
  match an_probe answers with
  | Some e => (Err (ProbeFailed e), d)
  | None => (if dst_exists d then Ok tt else Err NotFound, d)
  end.

(** Creating a table that exists is answered with an error, [an_duplicate] telling
    whether it is recognised as such.
    Go: internal/sink/bigquery/backend.go:186-213 [ensureTable] *)
Definition bigquery_ensureTable (d : destination) : outcome :=
  match an_create answers with
  | Some (e, applied) => (Err (CreateFailed e), if (applied : bool) then mkDestination true (dst_index d) else d)
  | None => if dst_exists d then (if an_duplicate answers then Ok tt else Err NotFound, d) else (Ok tt, mkDestination true (dst_index d))
  end.
End provisioning.

Definition provision (backend : string) (answers : db_answers) (mode : string) (d : destination) : outcome :=
  if decide (backend = "postgres") then provisionTable mode (postgres_verifyTable answers) (postgres_ensureTable answers) d
  else if decide (backend = "mongodb") then provisionTable mode (verifyCollection answers) (ensureCollection answers) d
  else provisionTable mode (bigquery_verifyTable answers) (bigquery_ensureTable answers) d.

(** Opening a sink respects its provisioning mode, whatever the database answers: in
    the mode [existing] nothing is created or changed, and the sink opens only on a
    destination that is there; in every other mode it opens only on one that is there
    afterwards, a collection with its index, and nothing that was there goes. *)
Lemma provisioning_respects_mode backend answers mode d :
  let '(res, d') := provision backend answers mode d in
  (res = Ok tt → dst_exists d' = true) ∧
  (mode = ProvisioningModeExisting → d' = d) ∧
  (mode ≠ ProvisioningModeExisting → backend = "mongodb" → res = Ok tt → dst_index d' = true) ∧
  (dst_exists d = true → dst_exists d' = true) ∧ (dst_index d = true → dst_index d' = true).
Proof.
  unfold provision, provisionTable, postgres_verifyTable, postgres_ensureTable, classifyTableProbe, verifyCollection, ensureCollection,
    bigquery_verifyTable, bigquery_ensureTable.
  destruct (decide (backend = "postgres")); [|destruct (decide (backend = "mongodb"))]; destruct (decide (mode = ProvisioningModeExisting));
    destruct (an_probe answers), (an_create answers) as [[? []]|], (an_index answers) as [[? []]|], (an_duplicate answers), d as [[] []];
    naive_solver.
Qed.
