(* ===== verification/EventSinks.v ===== *)
(** The event sinks: Kafka and NATS JetStream ([src/internal/sink/kafka],
    [src/internal/sink/nats]).

    An export publishes the envelope as one message. The broker's log is the state of
    the model, and for NATS also the connections, since the backend keeps one, dials
    again when it has died, and must leave none open once the pool has closed it. A
    call of [jetStream] or [Close] runs under the backend's lock and is one step. *)

From S2P Require Import Prelude GoStrings Values Store Json Envelope Errors DatabaseAccess.

(** * Messages *)

Definition SchemaVersion : string := ExportSchemaVersion.

Section messages.
(** [json.Marshal] of a raw message: the text without insignificant blanks, or
    nothing when it is not JSON. *)
Variable compact : string → option string.

(** Go: internal/sink/kafka/backend.go:23-30 [EventEnvelope] *)
Record EventEnvelope := mkEventEnvelope {
  ee_SchemaVersion : string;
  ee_Timestamp : string;
  ee_Cluster : string;
  ee_Namespace : string;
  ee_Payload : string;
}.

Definition json_event (e : EventEnvelope) : option string :=
  payload ← compact (ee_Payload e);
  Some (json_object [("schemaVersion", json_string (ee_SchemaVersion e)); ("timestamp", json_string (ee_Timestamp e));
                     ("cluster", json_string (ee_Cluster e)); ("namespace", json_string (ee_Namespace e)); ("payload", payload)]).

(** Go: internal/sink/kafka/backend.go:138-146 [namespaceFromObjectPath] *)
Definition namespaceFromObjectPath (objectPath : string) : string :=
  match split_byte "/" (trim_prefix "inventory/" (trim_space objectPath)) with p :: _ => p | [] => "" end.

(** Go: internal/sink/nats/envelope.go:13-23 [marshalEventEnvelope] *)
Definition marshalEventEnvelope (cluster namespace payload : string) (now : Z) : option string :=
  json_event (mkEventEnvelope SchemaVersion (rfc3339nano now) cluster namespace payload).

Inductive event_error :=
  | ErrEmptyPayload
  | ErrMarshalEnvelope
  | ErrPublish (e : err)
  | ErrBackendClosed
  | ErrConnect (e : err)
  | ErrJetStream (e : err)
  | ErrCreateStream (e : err).

(** * Kafka *)

(** The key of a message.
    Go: internal/sink/kafka/backend.go:117-120 [Export, the key] *)
Definition kafka_key (cluster namespace objectPath : string) : string :=
  let key := cluster +:+ "/" +:+ namespace in
  if decide (trim_space key = "/") then objectPath else key.

(** [fault]: a failed write may have reached the log.
    Go: internal/sink/kafka/backend.go:102-136 [Export] *)
Definition kafka_export (fault : option (err * bool)) (cluster payload objectPath : string) (now : Z) (log : list (string * string)) :
    result event_error unit * list (string * string) :=
  if decide (payload = "") then (Err ErrEmptyPayload, log)
  else
    let namespace := namespaceFromObjectPath objectPath in
    match json_event (mkEventEnvelope SchemaVersion (rfc3339nano now) cluster namespace payload) with
    | None => (Err ErrMarshalEnvelope, log)
    | Some body =>
        let written := log ++ [(kafka_key cluster namespace objectPath, body)] in
        match fault with
        | Some (e, applied) => (Err (ErrPublish e), if (applied : bool) then written else log)
        | None => (Ok tt, written)
        end
    end.
End messages.

(** The fields of a sink spec the event sinks read. *)
Record KafkaSpec := mkKafkaSpec { ks_Brokers : list string; ks_Topic : string }.
Record KafkaConfig := mkKafkaConfig { kc_Brokers : list string; kc_Topic : string; kc_Cluster : string; kc_Username : string; kc_Password : string }.

(** Go: internal/sink/secretkv/assign.go:6-20 [AssignIfPresent] *)
Definition AssignIfPresent (data : gmap string string) (key dest : string) : string := default dest (data !! key).

(** Go: internal/sink/kafka/config.go:28-78 [ConfigFromSpec] *)
Definition kafka_ConfigFromSpec (sinkType cluster : string) (spec : option KafkaSpec) (secret : gmap string string) : result config_error KafkaConfig :=
  if decide (sinkType ≠ "kafka") then Err WrongType
  else match spec with
  | None => Err MissingBlock
  | Some k =>
      if decide (length (ks_Brokers k) = 0) then Err (MissingField "brokers")
      else
        let topic := trim_space (ks_Topic k) in
        if decide (topic = "") then Err (MissingField "topic")
        else
          let brokers := filter (λ b, b ≠ "") (trim_space <$> ks_Brokers k) in
          if decide (length brokers = 0) then Err (MissingField "brokers")
          else Ok (mkKafkaConfig brokers topic (trim_space cluster) (AssignIfPresent secret "username" "")
                     (AssignIfPresent secret "token" (AssignIfPresent secret "password" "")))
  end.

(** * NATS *)

Record NatsSpec := mkNatsSpec { ns_URL : string; ns_Subject : string; ns_Stream : string }.
Record NatsConfig := mkNatsConfig {
  nc_URL : string; nc_Subject : string; nc_Stream : string; nc_Cluster : string; nc_Token : string; nc_Username : string; nc_Password : string;
}.

(** Go: internal/sink/nats/config.go:90-92 [sanitizeStreamName] *)
Definition sanitizeStreamName (name : string) : string := replace_all "." "_" name.

Section nats_config.
(** [url.Parse]: nothing when it fails, else whether the URL has user information. *)
Variable url_userinfo : string → option bool.

(** Go: internal/sink/nats/config.go:94-123 [validateServerURL] *)
Definition validateServerURL (servers : string) : result config_error unit :=
  for_each (λ server,
    let server := trim_space server in
    if decide (server = "") then Ok tt
    else
      let toParse := if contains server "://" then server else "nats://" +:+ server in
      match url_userinfo toParse with
      | None => Err (MissingField "invalid server URL")
      | Some true => Err (MissingField "credentials in server URL")
      | Some false => Ok tt
      end) (split_byte "," servers).

(** Go: internal/sink/nats/config.go:40-88 [ConfigFromSpec] *)
Definition nats_ConfigFromSpec (sinkType cluster endpoint : string) (spec : option NatsSpec) (secret : gmap string string) : result config_error NatsConfig :=
  if decide (sinkType ≠ "nats") then Err WrongType
  else match spec with
  | None => Err MissingBlock
  | Some n =>
      let url := trim_space (ns_URL n) in
      let url := if decide (url = "") then trim_space endpoint else url in
      if decide (url = "") then Err (MissingField "url")
      else
        let subject := trim_space (ns_Subject n) in
        if decide (subject = "") then Err (MissingField "subject")
        else
          let stream := trim_space (ns_Stream n) in
          let stream := if decide (stream = "") then "kollect_events" else stream in
          validateServerURL url;;
          Ok (mkNatsConfig url subject (sanitizeStreamName stream) (trim_space cluster) (AssignIfPresent secret "token" "")
                (AssignIfPresent secret "username" "") (AssignIfPresent secret "password" ""))
  end.
End nats_config.

(** ** The connection *)

(** The backend, and the connections that are open: [nb_conn] is the cached
    connection with its JetStream context, [nb_next] names the next one. *)
Record nats_backend := mkNatsBackend {
  nb_closed : bool;
  nb_conn : option nat;
  nb_open : gset nat;
  nb_next : nat;
}.

Definition NewBackend : nats_backend := mkNatsBackend false None ∅ 0.

(** What a dial, the JetStream context and the creation of the stream answer. *)
Record nats_answers := mkNatsAnswers {
  na_dial : option err;
  na_js : option err;
  na_stream : option err;
}.

(** Go: internal/sink/nats/backend.go:90-100 [Close] *)
Definition nats_Close (b : nats_backend) : nats_backend :=
  match nb_conn b with
  | Some c => mkNatsBackend true None (nb_open b ∖ {[c]}) (nb_next b)
  | None => mkNatsBackend true None (nb_open b) (nb_next b)
  end.

(** Go: internal/sink/nats/backend.go:123-128 [cachedConnDead] *)
Definition cachedConnDead (b : nats_backend) : bool :=
  match nb_conn b with Some c => bool_decide (c ∉ nb_open b) | None => true end.

(** A new connection; on a later error it is closed again.
    Go: internal/sink/nats/backend.go:147-169 [jetStream, the dial] *)
Definition dial_stream (a : nats_answers) (b : nats_backend) : result event_error nat * nats_backend :=
  match na_dial a with
  | Some e => (Err (ErrConnect e), b)
  | None =>
      let c := nb_next b in
      let opened := {[c]} ∪ nb_open b in
      let dropped := mkNatsBackend (nb_closed b) (nb_conn b) (opened ∖ {[c]}) (S c) in
      match na_js a with
      | Some e => (Err (ErrJetStream e), dropped)
      | None =>
          match na_stream a with
          | Some e => (Err (ErrCreateStream e), dropped)
          | None => (Ok c, mkNatsBackend (nb_closed b) (Some c) opened (S c))
          end
      end
  end.

(** Go: internal/sink/nats/backend.go:130-174 [jetStream] *)
Definition jetStream (a : nats_answers) (b : nats_backend) : result event_error nat * nats_backend :=
  if nb_closed b then (Err ErrBackendClosed, b)
  else
    match nb_conn b with
    | Some c =>
        if negb (cachedConnDead b) then (Ok c, b)
        else dial_stream a (mkNatsBackend (nb_closed b) None (nb_open b ∖ {[c]}) (nb_next b))
    | None => dial_stream a b
    end.

(** ** Publishing *)
Section publish.
Context `{!Sha256}.
Variable compact : string → option string.

(** Go: internal/sink/nats/backend.go:176-180 [msgID] *)
Definition msgID (cluster namespace payload : string) : string := sha256_hex (cluster +:+ "/" +:+ namespace +:+ "/" +:+ payload).

(** The stream stores a message unless it has seen its id. *)
Definition js_publish (id body : string) (log : list (string * string)) : list (string * string) :=
  if decide (id ∈ log.*1) then log else log ++ [(id, body)].

(** Go: internal/sink/nats/backend.go:102-121 [Export] *)
Definition nats_export (a : nats_answers) (fault : option (err * bool)) (cluster payload objectPath : string) (now : Z)
    (b : nats_backend) (log : list (string * string)) : result event_error unit * nats_backend * list (string * string) :=
  if decide (payload = "") then (Err ErrEmptyPayload, b, log)
  else
    match jetStream a b with
    | (Err e, b) => (Err e, b, log)
    | (Ok _, b) =>
        let namespace := namespaceFromObjectPath objectPath in
        match marshalEventEnvelope compact cluster namespace payload now with
        | None => (Err ErrMarshalEnvelope, b, log)
        | Some body =>
            let written := js_publish (msgID cluster namespace payload) body log in
            match fault with
            | Some (e, applied) => (Err (ErrPublish e), b, if (applied : bool) then written else log)
            | None => (Ok tt, b, written)
            end
        end
    end.
End publish.

(** * The life of a backend *)

(** What can happen: a call of [jetStream] by an export, the pool's [Close], and a
    connection that dies by itself. *)
Inductive nats_event :=
  | EvJetStream (a : nats_answers)
  | EvClose
  | EvDies (c : nat).

Definition nats_step (b : nats_backend) (ev : nats_event) : nats_backend :=
  match ev with
  | EvJetStream a => (jetStream a b).2
  | EvClose => nats_Close b
  | EvDies c => mkNatsBackend (nb_closed b) (nb_conn b) (nb_open b ∖ {[c]}) (nb_next b)
  end.

(** Only the cached connection is open, and none after a close. *)
Definition no_leak (b : nats_backend) : Prop :=
  (∀ c, c ∈ nb_open b → nb_conn b = Some c) ∧ (nb_closed b = true → nb_conn b = None).

Lemma dial_no_leak a b : nb_closed b = false → nb_open b = ∅ → nb_conn b = None → no_leak (dial_stream a b).2.
Proof.
  intros Hc Ho Hn. unfold dial_stream, no_leak. destruct (na_dial a), (na_js a), (na_stream a); cbn; rewrite ?Ho, ?Hn, ?Hc; set_solver.
Qed.

Lemma open_nothing b : no_leak b → nb_conn b = None → nb_open b = ∅.
Proof. intros [Ho _] Hn. apply elem_of_equiv_empty_L. intros c Hc%Ho. congruence. Qed.

Lemma step_no_leak b ev : no_leak b → no_leak (nats_step b ev).
Proof.
  intros Hb. pose proof Hb as [Ho Hc]. destruct ev as [a| |c]; cbn [nats_step].
  - unfold jetStream. destruct (nb_closed b) eqn:Hcl; [exact Hb|]. destruct (nb_conn b) as [c|] eqn:Hn.
    + destruct (cachedConnDead b); [|exact Hb]. cbn [negb]. apply dial_no_leak; [done| |done]. cbn. apply elem_of_equiv_empty_L.
      intros c' [Hc' Hne]%elem_of_difference. specialize (Ho c' Hc'). set_solver.
    + apply dial_no_leak; [done| |done]. by apply open_nothing.
  - unfold nats_Close, no_leak. destruct (nb_conn b) as [c|] eqn:Hn; cbn; split; [|done| |done].
    + intros c' [Hc' Hne]%elem_of_difference. specialize (Ho c' Hc'). set_solver.
    + intros c' Hc'. by specialize (Ho c' Hc').
  - split; cbn; [|done]. intros c' [Hc' _]%elem_of_difference. by apply Ho.
Qed.

Lemma run_no_leak evs b : no_leak b → no_leak (foldl nats_step b evs).
Proof. revert b. induction evs as [|ev evs IH]; intros b Hb; [done|]. by apply IH, step_no_leak. Qed.

(** A closed backend stays closed. *)
Lemma closed_stays b ev : nb_closed b = true → nb_closed (nats_step b ev) = true.
Proof.
  intros Hc. destruct ev; cbn; [unfold jetStream; by rewrite Hc|unfold nats_Close; by destruct (nb_conn b)|done].
Qed.

(** C22. A NATS backend never leaks a connection and heals by itself. Whatever
    sequence of exports, connection losses and closes it goes through, and whatever
    dials and requests fail: at most one connection is open, the one the backend
    still uses; once it is closed none is open, none is ever opened again and every
    export is refused; and while it is not closed, an export whose dial and whose
    setup of the stream succeed gets a connection that is alive, also after the
    cached one has died. *)
Theorem nats_connections_owned evs a :
  let b := foldl nats_step NewBackend evs in
  (∀ c, c ∈ nb_open b → nb_conn b = Some c) ∧
  (nb_closed b = true → nb_open b = ∅ ∧ jetStream a b = (Err ErrBackendClosed, b)) ∧
  (EvClose ∈ evs → nb_closed b = true) ∧
  (nb_closed b = false → na_dial a = None → na_js a = None → na_stream a = None →
   ∃ c b', jetStream a b = (Ok c, b') ∧ c ∈ nb_open b').
Proof.
  intros b. assert (no_leak b) as [Ho Hc] by (apply run_no_leak; by split). split_and!.
  - done.
  - intros Hcl. split; [by apply open_nothing; [split|apply Hc]|]. unfold jetStream. by rewrite Hcl.
  - subst b. clear Ho Hc. induction evs as [|ev evs IH] using rev_ind; [by intros ?%elem_of_nil|]. rewrite foldl_snoc, elem_of_app.
    intros [Hin|Heq%list_elem_of_singleton]; [by apply closed_stays, IH|]. rewrite <- Heq. cbn. unfold nats_Close. by destruct (nb_conn _).
  - intros Hcl Hd Hj Hs. unfold jetStream. rewrite Hcl.
    assert (∀ b1, ∃ c b', dial_stream a b1 = (Ok c, b') ∧ c ∈ nb_open b') as Hdial.
    { intros b1. unfold dial_stream. rewrite Hd, Hj, Hs. do 2 eexists. split; [done|]. set_solver. }
    destruct (nb_conn b) as [c|] eqn:Hn; [|apply Hdial]. destruct (cachedConnDead b) eqn:Hdead; [apply Hdial|].
    exists c, b. split; [done|]. unfold cachedConnDead in Hdead. rewrite Hn in Hdead. apply bool_decide_eq_false, dec_stable in Hdead. done.
Qed.

(** A retry of an export whose answer was lost stores nothing new. *)
Lemma nats_retry_stored_once `{!Sha256} compact a a' cluster payload path now now' e b log :
  let '(_, b1, log1) := nats_export compact a (Some (e, true)) cluster payload path now b log in
  let '(_, _, log2) := nats_export compact a' None cluster payload path now' b1 log1 in
  length log2 ≤ S (length log).
Proof.
  unfold nats_export. destruct (decide (payload = "")); [lia|]. destruct (jetStream a b) as [[c|] b1].
  - destruct (marshalEventEnvelope compact _ _ payload now) as [body|].
    + destruct (jetStream a' b1) as [[c'|] b2].
      * destruct (marshalEventEnvelope compact _ _ payload now') as [body'|]; unfold js_publish.
        -- set (id := msgID _ _ _). destruct (decide (id ∈ log.*1)) as [Hin|Hin]; [rewrite decide_True by done; lia|].
           rewrite decide_True by (rewrite fmap_app; set_solver). rewrite List.length_app. cbn. lia.
        -- case_decide; rewrite ?List.length_app; cbn; lia.
      * unfold js_publish. case_decide; rewrite ?List.length_app; cbn; lia.
    + destruct (jetStream a' b1) as [[c'|] b2]; [|lia]. destruct (marshalEventEnvelope compact _ _ payload now'); [|lia].
      unfold js_publish. case_decide; rewrite ?List.length_app; cbn; lia.
  - destruct (jetStream a' b1) as [[c'|] b2]; [|lia]. destruct (marshalEventEnvelope compact _ _ payload now'); [|lia].
    unfold js_publish. case_decide; rewrite ?List.length_app; cbn; lia.
Qed.

Module EventDemo.

Definition up : nats_answers := mkNatsAnswers None None None.
Definition no_stream : nats_answers := mkNatsAnswers None None (Some (Leaf 1 "stream")).

(** A failed stream creation, a success, a connection that dies, and a new one. *)
Definition life : list nats_event := [EvJetStream no_stream; EvJetStream up; EvDies 1; EvJetStream up].

Lemma nats_connections_owned_witness :
  nb_conn (foldl nats_step NewBackend life) = Some 2 ∧
  (∃ c b', jetStream up (foldl nats_step NewBackend life) = (Ok c, b') ∧ c ∈ nb_open b') ∧
  nb_open (foldl nats_step NewBackend (life ++ [EvClose])) = ∅.
Proof.
  split_and!; [vm_compute; reflexivity| |].
  - refine (proj2 (proj2 (proj2 (nats_connections_owned life up))) _ _ _ _); vm_compute; reflexivity.
  - refine (proj1 (proj1 (proj2 (nats_connections_owned (life ++ [EvClose]) up)) _)). vm_compute. reflexivity.
Defined.

(** The key of a Kafka message names the cluster and the namespace only: two
    inventories of one namespace share it, and on a compacted topic the later export
    replaces the other inventory. *)
Example inventories_share_key :
  let key path := kafka_key "prod" (namespaceFromObjectPath path) path in
  key "inventory/team/app.json" = "prod/team" ∧ key "inventory/team/other.json" = "prod/team".
Proof. vm_compute. done. Qed.
End EventDemo.
