(* ===== verification/Runner.v ===== *)
(** The one-shot collection of the command line,
    [src/internal/collect/runner.go]: for each target the kind is resolved, the
    namespaces are chosen, the objects are listed once, and every object gives a
    row of the store or a recorded failure.

    The cluster is the class [ClusterApi]. Its answers are indexed by the moment
    of the request, so two requests with the same arguments may be answered
    differently; the runner's clock advances with every request. The class holds
    what the documentation of the list calls and of the REST mapper promises. *)

From S2P Require Import Prelude GoStrings Values Store Api Filter Errors Scrub Extract.

(** * The cluster *)

(** [namespace_labels] are the labels a namespace has at a moment; [RESTMapping] gives the resource of a kind and whether it is namespaced,
    [selector_text] is [Selector.String] of a label selector that parses, and a
    namespace of [""] lists every namespace. *)
Class ClusterApi `{!KubeApi} := {
  RESTMapping : nat → GroupVersionKind → option (GroupVersionResource * bool);
  selector_text : LabelSelector → string;
  list_namespaces : nat → string → result err (list string);
  list_objects : nat → GroupVersionResource → string → string → result err (list object);
  namespace_labels : nat → string → labels;
  list_namespaces_named n sel l : list_namespaces n sel = Ok l → "" ∉ l;
  list_namespaces_selected n sel p l ns :
    LabelSelectorAsSelector sel = Some p → list_namespaces n (selector_text sel) = Ok l →
    ns ∈ l → p (namespace_labels n ns) = true;
  list_objects_namespace n gvr ns sel objs obj :
    ns ≠ "" → list_objects n gvr ns sel = Ok objs → obj ∈ objs → GetNamespace obj = ns;
  list_objects_labels n gvr ns sel p objs obj :
    LabelSelectorAsSelector sel = Some p → list_objects n gvr ns (selector_text sel) = Ok objs →
    obj ∈ objs → p (GetLabels obj) = true;
}.

(** * Results *)

(** Go: internal/collect/runner.go:88-95 [SkippedTarget] *)
Record SkippedTarget := mkSkipped { skipped_Name : string; skipped_Reason : string }.

(** Go: internal/collect/runner.go:97-112 [ExtractionFailure] *)
Record ExtractionFailure := mkFailure {
  fail_Target : string;
  fail_Namespace : string;
  fail_Name : string;
  fail_UID : string;
  fail_Reason : string;
}.

(** Go: internal/collect/runner.go:114-123 [Error] *)
Definition ExtractionFailure_Error (f : ExtractionFailure) : string :=
  let object := if decide (fail_Namespace f ≠ "") then fail_Namespace f +:+ "/" +:+ fail_Name f else fail_Name f in
  "target " +:+ fail_Target f +:+ ": extract " +:+ object +:+ " (uid=" +:+ fail_UID f +:+ "): " +:+ fail_Reason f.

(** The errors that stop one target. *)
Inductive run_error :=
  | ErrParseNamespaceSelector (target : string)
  | ErrListNamespaces (target : string) (e : err)
  | ErrParseLabelSelector (target : string).

(** Go: internal/collect/runner.go:125-138 [RunResult] *)
Record RunResult := mkRunResult {
  ItemCount : nat;
  SkippedTargets : list SkippedTarget;
  ExtractionFailures : list ExtractionFailure;
  RunErrors : list run_error;
}.

(** Go: internal/collect/runner.go:140-145 [Degraded] *)
Definition Degraded (r : RunResult) : bool :=
  (0 <? length (SkippedTargets r)) || (0 <? length (RunErrors r)) || (0 <? length (ExtractionFailures r)).

Definition skip_target (name reason : string) (res : RunResult) : RunResult :=
  mkRunResult (ItemCount res) (SkippedTargets res ++ [mkSkipped name reason]) (ExtractionFailures res) (RunErrors res).
Definition add_error (e : run_error) (res : RunResult) : RunResult :=
  mkRunResult (ItemCount res) (SkippedTargets res) (ExtractionFailures res) (RunErrors res ++ [e]).
Definition add_listed (count : nat) (fails : list ExtractionFailure) (res : RunResult) : RunResult :=
  mkRunResult (ItemCount res + count) (SkippedTargets res) (ExtractionFailures res ++ fails) (RunErrors res).

(** * Pure helpers *)

(** Go: internal/collect/runner.go:184-186 [targetKeyName] *)
Definition targetKeyName (target : KollectTarget) : string := target_Namespace target +:+ "/" +:+ target_Name target.

(** A nil map filters nothing.
    Go: internal/collect/runner.go:444-455 [namesSet] *)
Definition namesSet (names : list string) : gset string := list_to_set names.

(** Go: internal/collect/runner.go:293-312 [excludeNamespaces] *)
Definition excludeNamespaces (namespaces excluded : list string) : list string :=
  match excluded with
  | [] => namespaces
  | _ => filter (λ ns, ns ∉ excluded) namespaces
  end.

Definition maxReasonLen : nat := 256.

(** [None] is a nil error.
    Go: internal/collect/runner.go:396-412 [redactExtractionReason] *)
Definition redactExtractionReason (e : option string) : string :=
  match e with
  | None => "extraction failed"
  | Some msg =>
      if maxReasonLen <? String.length msg then String.substring 0 maxReasonLen msg +:+ "…" else msg
  end.

(** The comparison of the sort. *)
Definition failure_less (a b : ExtractionFailure) : bool :=
  if decide (fail_Target a ≠ fail_Target b) then String.ltb (fail_Target a) (fail_Target b)
  else if decide (fail_Namespace a ≠ fail_Namespace b) then String.ltb (fail_Namespace a) (fail_Namespace b)
  else if decide (fail_Name a ≠ fail_Name b) then String.ltb (fail_Name a) (fail_Name b)
  else String.ltb (fail_UID a) (fail_UID b).

(** Insertion in front of the first element that is not smaller: equal elements
    keep their order. *)
Fixpoint insert_failure (f : ExtractionFailure) (l : list ExtractionFailure) : list ExtractionFailure :=
  match l with
  | [] => [f]
  | g :: l' => if failure_less g f then g :: insert_failure f l' else f :: l
  end.

(** The stable sort.
    Go: internal/collect/runner.go:414-429 [sortExtractionFailures] *)
Definition sortExtractionFailures (l : list ExtractionFailure) : list ExtractionFailure := foldr insert_failure [] l.

(** * The runner *)

(** [run_clock] counts the requests made so far.
    Go: internal/collect/runner.go:27-38 [Runner] *)
Record Runner := mkRunner {
  run_scrubber : Scrubber;
  run_store : Store.StoreState;
  run_clock : nat;
}.

(** Go: internal/collect/runner.go:58-81 [NewRunnerWithMapper] *)
Definition NewRunnerWithMapper `{!UnicodeCase} (scrubKeys : list string) : Runner :=
  mkRunner (NewScrubber scrubKeys) Store.NewStore 0.

Definition tick (r : Runner) : Runner := mkRunner (run_scrubber r) (run_store r) (S (run_clock r)).
Definition set_store (s : Store.StoreState) (r : Runner) : Runner := mkRunner (run_scrubber r) s (run_clock r).

Section runner.
Context `{!KubeApi, !ClusterApi, !UnicodeCase, !ExtractApi, !ApiErrors}.
(** How an extraction error reads. *)
Context (msg : attribute_error → string).

(** [None] when the selector does not parse.
    Go: internal/collect/runner.go:431-442 [labelSelectorString] *)
Definition labelSelectorString (sel : option LabelSelector) : option string :=
  match sel with
  | None => Some ""
  | Some sel => match LabelSelectorAsSelector sel with None => None | Some _ => Some (selector_text sel) end
  end.

(** Go: internal/collect/runner.go:264-291 [baseNamespaces] *)
Definition baseNamespaces (now : nat) (target : KollectTarget) : result run_error (list string) :=
  match IncludedNamespaces (target_Filter (target_Spec target)) with
  | ns :: rest => Ok (ns :: rest)
  | [] =>
      match labelSelectorString (target_NamespaceSelector (target_Spec target)) with
      | None => Err (ErrParseNamespaceSelector (targetKeyName target))
      | Some sel => lift_err (ErrListNamespaces (targetKeyName target)) (list_namespaces now sel)
      end
  end.

(** Go: internal/collect/runner.go:245-262 [resolveNamespaces] *)
Definition resolveNamespaces (now : nat) (target : KollectTarget) (namespaced : bool) : result run_error (list string) :=
  if negb namespaced then Ok [""]
  else
    namespaces ← baseNamespaces now target;
    Ok (excludeNamespaces namespaces (ExcludedNamespaces (target_Filter (target_Spec target)))).

(** The row of an object.
    Go: internal/collect/runner.go:377-389 [listAndExtract, the row] *)
Definition runner_item (scrubber : Scrubber) (gvr : GroupVersionResource) (profile : KollectProfile)
    (target : KollectTarget) (item : object) (attrs : list (string * value)) : Item :=
  mkItem (target_Namespace target) (target_Name target) (GetNamespace item) (GetName item)
    (gvr_Group gvr) (gvr_Version gvr) (gvk_Kind (profile_TargetGVK (profile_Spec profile)))
    (GetUID item) (Some (ScrubAttributes scrubber attrs)).

(** Go: internal/collect/runner.go:363-375 [listAndExtract, the failure] *)
Definition failure_of (target : KollectTarget) (item : object) (e : attribute_error) : ExtractionFailure :=
  mkFailure (targetKeyName target) (GetNamespace item) (GetName item) (GetUID item)
    (redactExtractionReason (Some (msg e))).

(** [len(nameFilter) > 0] and the name is not in it. *)
Definition name_skipped (nameFilter : gset string) (item : object) : bool :=
  (0 <? size nameFilter) && negb (bool_decide (GetName item ∈ nameFilter)).

(** The loop over the listed objects. *)
Fixpoint extract_items (scrubber : Scrubber) (gvr : GroupVersionResource) (profile : KollectProfile)
    (target : KollectTarget) (nameFilter : gset string) (items : list object)
    (store : Store.StoreState) (count : nat) (failures : list ExtractionFailure) :
    Store.StoreState * nat * list ExtractionFailure :=
  match items with
  | [] => (store, count, failures)
  | item :: items =>
      let continue := extract_items scrubber gvr profile target nameFilter items in
      if name_skipped nameFilter item then continue store count failures
      else
        match Extract item (profile_Attributes (profile_Spec profile)) with
        | Err e => continue store count (failures ++ [failure_of target item e])
        | Ok attrs =>
            continue (Store.Upsert (runner_item scrubber gvr profile target item attrs) store) (S count) failures
        end
  end.

(** Go: internal/collect/runner.go:314-394 [listAndExtract] *)
Definition listAndExtract (gvr : GroupVersionResource) (namespace labelSelector : string)
    (profile : KollectProfile) (target : KollectTarget) (nameFilter : gset string) (r : Runner) :
    result err (nat * list ExtractionFailure) * Runner :=
  let answer := list_objects (run_clock r) gvr namespace labelSelector in
  let r := tick r in
  match answer with
  | Err e => (Err e, r)
  | Ok items =>
      let '(store, count, failures) :=
        extract_items (run_scrubber r) gvr profile target nameFilter items (run_store r) 0 [] in
      (Ok (count, failures), set_store store r)
  end.

(** The loop over the namespaces. *)
Fixpoint list_namespaces_loop (gvr : GroupVersionResource) (labelSelector : string) (profile : KollectProfile)
    (target : KollectTarget) (nameFilter : gset string) (namespaces : list string) (st : RunResult * Runner) :
    RunResult * Runner :=
  match namespaces with
  | [] => st
  | ns :: namespaces =>
      let '(res, r) := st in
      let '(answer, r) := listAndExtract gvr ns labelSelector profile target nameFilter r in
      let res :=
        match answer with
        | Ok (count, fails) => add_listed count fails res
        | Err e => if IsForbidden (Some e) then skip_target (targetKeyName target) "forbidden" res
                   else skip_target (targetKeyName target) "transient" res
        end in
      list_namespaces_loop gvr labelSelector profile target nameFilter namespaces (res, r)
  end.

(** Go: internal/collect/runner.go:188-243 [runTarget] *)
Definition runTarget (profile : KollectProfile) (target : KollectTarget) (st : RunResult * Runner) : RunResult * Runner :=
  let '(res, r) := st in
  match RESTMapping (run_clock r) (profile_TargetGVK (profile_Spec profile)) with
  | None => (skip_target (targetKeyName target) "gvk-not-found" res, tick r)
  | Some (gvr, namespaced) =>
      let r := tick r in
      match resolveNamespaces (run_clock r) target namespaced with
      | Err e => (add_error e res, tick r)
      | Ok namespaces =>
          let r := tick r in
          match labelSelectorString (target_LabelSelector (target_Spec target)) with
          | None => (add_error (ErrParseLabelSelector (targetKeyName target)) res, r)
          | Some labelSelector =>
              list_namespaces_loop gvr labelSelector profile target (namesSet (target_Names (target_Spec target)))
                namespaces (res, r)
          end
      end
  end.

(** [profileByName]: of two profiles with one name the last wins. *)
Definition profileByName (profiles : list KollectProfile) : gmap string KollectProfile :=
  foldl (λ m p, <[profile_Name p := p]> m) ∅ profiles.

Definition run_one (profiles : gmap string KollectProfile) (st : RunResult * Runner) (target : KollectTarget) :
    RunResult * Runner :=
  match profiles !! target_ProfileRef (target_Spec target) with
  | None => (skip_target (targetKeyName target) "profile-not-found" st.1, st.2)
  | Some profile => runTarget profile target st
  end.

(** Go: internal/collect/runner.go:147-182 [Run] *)
Definition Run (profiles : list KollectProfile) (targets : list KollectTarget) (r : Runner) : RunResult * Runner :=
  let '(res, r) := foldl (run_one (profileByName profiles)) (mkRunResult 0 [] [] [], r) targets in
  (mkRunResult (ItemCount res) (SkippedTargets res) (sortExtractionFailures (ExtractionFailures res)) (RunErrors res), r).

(** * What a pass did *)

(** The objects [objs] were listed for a target during the first [clock] requests:
    its kind was resolved, its namespaces and its label selector were, and [ns] is
    one of the namespaces. *)
Definition visited (clock : nat) (target : KollectTarget) (profile : KollectProfile) (gvr : GroupVersionResource)
    (namespaced : bool) (ns : string) (objs : list object) : Prop :=
  ∃ n0 n1 n2 namespaces sel,
    n0 < clock ∧ n1 < clock ∧ n2 < clock ∧
    RESTMapping n0 (profile_TargetGVK (profile_Spec profile)) = Some (gvr, namespaced) ∧
    resolveNamespaces n1 target namespaced = Ok namespaces ∧
    labelSelectorString (target_LabelSelector (target_Spec target)) = Some sel ∧
    ns ∈ namespaces ∧ list_objects n2 gvr ns sel = Ok objs.

Definition name_kept (target : KollectTarget) (obj : object) : Prop :=
  name_skipped (namesSet (target_Names (target_Spec target))) obj = false.

(** An object has its row in the store or its failure on record. *)
Definition accounted (r : Runner) (fails : list ExtractionFailure) (target : KollectTarget)
    (profile : KollectProfile) (obj : object) : Prop :=
  match Extract obj (profile_Attributes (profile_Spec profile)) with
  | Ok _ => is_Some (rows (run_store r) !! (target_Namespace target, target_Name target, GetUID obj))
  | Err e => failure_of target obj e ∈ fails
  end.

(** The whole of a target was collected. *)
Definition covered (r : Runner) (fails : list ExtractionFailure) (target : KollectTarget)
    (profile : KollectProfile) : Prop :=
  ∃ n0 n1 gvr namespaced namespaces sel,
    RESTMapping n0 (profile_TargetGVK (profile_Spec profile)) = Some (gvr, namespaced) ∧
    resolveNamespaces n1 target namespaced = Ok namespaces ∧
    labelSelectorString (target_LabelSelector (target_Spec target)) = Some sel ∧
    ∀ ns, ns ∈ namespaces → ∃ n2 objs, list_objects n2 gvr ns sel = Ok objs ∧
      ∀ obj, obj ∈ objs → name_kept target obj → accounted r fails target profile obj.

(** ** The loop over the objects *)

(** The rows and the failures after the loop: the ones before, and one for each
    object that the name filter keeps. *)
Lemma extract_items_spec scr gvr profile target nf items store count fails store' count' fails' :
  extract_items scr gvr profile target nf items store count fails = (store', count', fails') →
  (∀ k item, rows store' !! k = Some item → rows store !! k = Some item ∨
     ∃ obj attrs, obj ∈ items ∧ name_skipped nf obj = false ∧
       Extract obj (profile_Attributes (profile_Spec profile)) = Ok attrs ∧
       item = runner_item scr gvr profile target obj attrs ∧ k = RowSpec.key_of item) ∧
  (∀ k, is_Some (rows store !! k) → is_Some (rows store' !! k)) ∧
  fails ⊆ fails' ∧
  (∀ obj, obj ∈ items → name_skipped nf obj = false →
     match Extract obj (profile_Attributes (profile_Spec profile)) with
     | Ok _ => is_Some (rows store' !! (target_Namespace target, target_Name target, GetUID obj))
     | Err e => failure_of target obj e ∈ fails'
     end) ∧
  count' + length fails' = count + length fails + length (filter (λ obj, name_skipped nf obj = false) items).
Proof.
  revert store count fails. induction items as [|o items IH]; intros store count fails; cbn [extract_items].
  { intros [= <- <- <-]. rewrite filter_nil. split_and!; [by left|done..|by intros ? ?%not_elem_of_nil|simpl; lia]. }
  destruct (name_skipped nf o) eqn:Hn.
  { intros (Hs & Hm & Hf & Hc & Hl)%IH. rewrite filter_cons_False by congruence. split_and!; [|done..| |done].
    - intros k item [Hk|(obj & attrs & Ho & Hrest)]%Hs; [by left|]. right. exists obj, attrs. split; [by right|done].
    - intros obj [->|Ho]%elem_of_cons Hobj; [congruence|by apply Hc]. }
  rewrite filter_cons_True by done. destruct (Extract o _) as [attrs|e] eqn:He.
  - intros (Hs & Hm & Hf & Hc & Hl)%IH. setoid_rewrite rows_Upsert in Hs. setoid_rewrite rows_Upsert in Hm.
    set (i := runner_item scr gvr profile target o attrs) in *. unfold RowSpec.upsert in *. split_and!; [| |done| |].
    + intros k item [Hk|(obj & attrs' & Ho & Hrest)]%Hs.
      * apply lookup_insert_Some in Hk as [[<- <-]|[_ ?]]; [|by left]. right. exists o, attrs. split; [by left|done].
      * right. exists obj, attrs'. split; [by right|done].
    + intros k Hk. apply Hm. destruct (decide (RowSpec.key_of i = k)) as [->|?];
        [by rewrite lookup_insert_eq|by rewrite lookup_insert_ne].
    + intros obj [->|Ho]%elem_of_cons Hobj; [|by apply Hc]. rewrite He. apply Hm.
      change (_, _, _) with (RowSpec.key_of i). by rewrite lookup_insert_eq.
    + cbn [length]. lia.
  - intros (Hs & Hm & Hf & Hc & Hl)%IH. split_and!; [|done|set_solver| |].
    + intros k item [Hk|(obj & attrs & Ho & Hrest)]%Hs; [by left|]. right. exists obj, attrs. split; [by right|done].
    + intros obj [->|Ho]%elem_of_cons Hobj; [|by apply Hc]. rewrite He. apply Hf, elem_of_app. right. by left.
    + rewrite List.length_app in Hl. cbn [length] in *. lia.
Qed.

(** ** How a pass grows *)

(** Nothing is taken back: rows keep their keys, failures stay recorded, and a
    target once skipped stays skipped. *)
Record extends (st st' : RunResult * Runner) : Prop := mkExtends {
  ext_keys k : is_Some (rows (run_store st.2) !! k) → is_Some (rows (run_store st'.2) !! k);
  ext_fails : ExtractionFailures st.1 ⊆ ExtractionFailures st'.1;
  ext_skipped : SkippedTargets st'.1 = [] → SkippedTargets st.1 = [];
  ext_errors : RunErrors st'.1 = [] → RunErrors st.1 = [];
  ext_clock : run_clock st.2 ≤ run_clock st'.2;
  ext_scrubber : run_scrubber st'.2 = run_scrubber st.2;
}.

#[local] Instance extends_preorder : PreOrder extends.
Proof.
  split; [by split|]. intros x y z [] []. split; [auto|set_solver|auto..|lia|congruence].
Qed.

(** Every row and every failure has the object it came from among the listed. *)
Definition has_origin (targets : list KollectTarget) (profiles : gmap string KollectProfile) (st : RunResult * Runner)
    (k : RowSpec.key) (item : Item) : Prop :=
  ∃ target profile gvr namespaced ns objs obj attrs,
    target ∈ targets ∧ profiles !! target_ProfileRef (target_Spec target) = Some profile ∧
    visited (run_clock st.2) target profile gvr namespaced ns objs ∧ obj ∈ objs ∧ name_kept target obj ∧
    Extract obj (profile_Attributes (profile_Spec profile)) = Ok attrs ∧
    item = runner_item (run_scrubber st.2) gvr profile target obj attrs ∧ k = RowSpec.key_of item.

Definition sound targets profiles (st : RunResult * Runner) : Prop :=
  ∀ k item, rows (run_store st.2) !! k = Some item → has_origin targets profiles st k item.

Lemma visited_mono c c' target profile gvr b ns objs :
  c ≤ c' → visited c target profile gvr b ns objs → visited c' target profile gvr b ns objs.
Proof. intros Hc (n0 & n1 & n2 & nss & sel & ? & ? & ? & ?). exists n0, n1, n2, nss, sel. split_and!; [lia..|naive_solver|naive_solver|naive_solver|naive_solver|naive_solver]. Qed.

Lemma has_origin_mono targets targets' profiles st st' k item :
  targets ⊆ targets' → extends st st' → has_origin targets profiles st k item → has_origin targets' profiles st' k item.
Proof.
  intros Ht [_ _ _ _ Hc Hs] (target & profile & gvr & b & ns & objs & obj & attrs & ? & ? & Hv & Hrest).
  exists target, profile, gvr, b, ns, objs, obj, attrs. rewrite Hs.
  split_and!; [auto|done|by eapply visited_mono|naive_solver..].
Qed.

Lemma accounted_mono st st' target profile obj :
  extends st st' → accounted st.2 (ExtractionFailures st.1) target profile obj →
  accounted st'.2 (ExtractionFailures st'.1) target profile obj.
Proof. intros [Hk Hf _ _ _ _]. unfold accounted. destruct (Extract _ _); auto. Qed.

Lemma covered_mono st st' target profile :
  extends st st' → covered st.2 (ExtractionFailures st.1) target profile →
  covered st'.2 (ExtractionFailures st'.1) target profile.
Proof.
  intros Hext (n0 & n1 & gvr & b & nss & sel & ? & ? & ? & Hall).
  exists n0, n1, gvr, b, nss, sel. split_and!; [done..|]. intros ns (n2 & objs & Ho & Hobj)%Hall.
  exists n2, objs. split; [done|]. intros obj Hin Hk. eapply accounted_mono; [done|by apply Hobj].
Qed.

Lemma extends_skip name reason st : extends st (skip_target name reason st.1, tick st.2).
Proof. split; cbn; [done..| |done|lia|done]. by intros [_ ?]%app_nil. Qed.

Lemma extends_error e st : extends st (add_error e st.1, tick st.2).
Proof. split; cbn; [done..| |lia|done]. by intros [_ ?]%app_nil. Qed.

(** ** One namespace and one target *)

Lemma listAndExtract_step gvr ns sel profile target nf res r :
  let st' :=
    let '(answer, r') := listAndExtract gvr ns sel profile target nf r in
    (match answer with
     | Ok (count, fails) => add_listed count fails res
     | Err e => if IsForbidden (Some e) then skip_target (targetKeyName target) "forbidden" res
                else skip_target (targetKeyName target) "transient" res
     end, r') in
  extends (res, r) st' ∧ run_clock r < run_clock st'.2 ∧
  (∀ k item, rows (run_store st'.2) !! k = Some item → rows (run_store r) !! k = Some item ∨
     ∃ objs obj attrs, list_objects (run_clock r) gvr ns sel = Ok objs ∧ obj ∈ objs ∧ name_skipped nf obj = false ∧
       Extract obj (profile_Attributes (profile_Spec profile)) = Ok attrs ∧
       item = runner_item (run_scrubber r) gvr profile target obj attrs ∧ k = RowSpec.key_of item) ∧
  (SkippedTargets st'.1 = [] → ∃ objs, list_objects (run_clock r) gvr ns sel = Ok objs ∧
     ∀ obj, obj ∈ objs → name_skipped nf obj = false →
       accounted st'.2 (ExtractionFailures st'.1) target profile obj).
Proof.
  unfold listAndExtract. destruct (list_objects _ gvr ns sel) as [items|e] eqn:Hl.
  - destruct (extract_items _ _ _ _ _ _ _ _ _) as [[store count] fails] eqn:He.
    apply extract_items_spec in He as (Hs & Hm & Hf & Hc & _). cbn in *. split_and!; [|lia| |].
    + split; cbn; [done|set_solver|done..|lia|done].
    + intros k item [?|(obj & attrs & ?)]%Hs; [by left|right]. by exists items, obj, attrs.
    + intros _. exists items. split; [done|]. intros obj Ho Hk. specialize (Hc obj Ho Hk). unfold accounted. cbn.
      destruct (Extract _ _); [done|]. apply elem_of_app. by right.
  - cbn. destruct (IsForbidden _); (split_and!; [apply (extends_skip _ _ (res, r))|lia|by left|by intros [_ ?]%app_nil]).
Qed.

Lemma list_loop_spec targets profiles gvr namespaced sel profile target n0 n1 all namespaces st :
  let st' := list_namespaces_loop gvr sel profile target (namesSet (target_Names (target_Spec target))) namespaces st in
  target ∈ targets → profiles !! target_ProfileRef (target_Spec target) = Some profile →
  RESTMapping n0 (profile_TargetGVK (profile_Spec profile)) = Some (gvr, namespaced) →
  resolveNamespaces n1 target namespaced = Ok all → namespaces ⊆ all → n0 < run_clock st.2 → n1 < run_clock st.2 →
  labelSelectorString (target_LabelSelector (target_Spec target)) = Some sel →
  sound targets profiles st →
  extends st st' ∧ sound targets profiles st' ∧
  (SkippedTargets st'.1 = [] → ∀ ns, ns ∈ namespaces → ∃ n2 objs, list_objects n2 gvr ns sel = Ok objs ∧
     ∀ obj, obj ∈ objs → name_kept target obj → accounted st'.2 (ExtractionFailures st'.1) target profile obj).
Proof.
  intros st' Ht Hp Hmap Hres Hsub Hn0 Hn1 Hsel Hsound. subst st'. revert st Hsub Hn0 Hn1 Hsound.
  induction namespaces as [|ns namespaces IH]; intros [res r] Hsub Hn0 Hn1 Hsound; cbn [list_namespaces_loop].
  { split_and!; [done..|]. by intros _ ns ?%not_elem_of_nil. }
  pose proof (listAndExtract_step gvr ns sel profile target (namesSet (target_Names (target_Spec target))) res r) as Hstep.
  destruct (listAndExtract _ _ _ _ _ _ _) as [answer r']. cbv zeta in Hstep.
  set (res' := match answer with Ok _ => _ | Err _ => _ end) in *. cbn [fst snd] in *.
  destruct Hstep as (Hext & Hlt & Hrows & Hacc).
  destruct (IH (res', r')) as (Hext' & Hs' & Hall); cbn [snd fst]; [set_solver|lia..| |].
  - intros k item [Hk|(objs & obj & attrs & Hl & Ho & Hn & He & -> & ->)]%Hrows.
    + eapply has_origin_mono; [done|exact Hext|by apply Hsound].
    + exists target, profile, gvr, namespaced, ns, objs, obj, attrs. cbn [snd].
      rewrite (ext_scrubber _ _ Hext : run_scrubber r' = run_scrubber r). split_and!; [done..| |done|done|done|done|done].
      exists n0, n1, (run_clock r), all, sel. split_and!; [lia..|done|done|done|set_solver|done].
  - split_and!; [by etrans|done|]. intros Hsk ns' [->|Hns]%elem_of_cons; [|by apply Hall].
    destruct (Hacc (ext_skipped _ _ Hext' Hsk)) as (objs & Hl & Hobj). exists (run_clock r), objs. split; [done|].
    intros obj Ho Hk. eapply (accounted_mono (res', r')); [done|]. by apply Hobj.
Qed.

Lemma runTarget_spec targets profiles profile target st :
  let st' := runTarget profile target st in
  target ∈ targets → profiles !! target_ProfileRef (target_Spec target) = Some profile →
  sound targets profiles st →
  extends st st' ∧ sound targets profiles st' ∧
  (SkippedTargets st'.1 = [] → RunErrors st'.1 = [] → covered st'.2 (ExtractionFailures st'.1) target profile).
Proof.
  intros st' Ht Hp Hsound. subst st'. destruct st as [res r]. unfold runTarget.
  assert (∀ res' r', extends (res, r) (res', r') → run_store r' = run_store r → sound targets profiles (res', r')) as Hkeep.
  { intros res' r' Hext Hr k item Hk. cbn [snd] in Hk. rewrite Hr in Hk.
    eapply has_origin_mono; [done|exact Hext|by apply Hsound]. }
  destruct (RESTMapping _ _) as [[gvr namespaced]|] eqn:Hmap.
  2:{ pose proof (extends_skip (targetKeyName target) "gvk-not-found" (res, r)) as Hext. split_and!; [done|by apply Hkeep|].
      by intros [_ ?]%app_nil. }
  destruct (resolveNamespaces _ _ _) as [namespaces|e] eqn:Hres.
  2:{ assert (extends (res, r) (add_error e res, tick (tick r))) as Hext.
      { etrans; [apply (extends_error e (res, r))|]. split; cbn; [done..|lia|done]. }
      split_and!; [done|by apply Hkeep|]. by intros _ [_ ?]%app_nil. }
  destruct (labelSelectorString _) as [sel|] eqn:Hsel.
  2:{ set (e := ErrParseLabelSelector _). assert (extends (res, r) (add_error e res, tick (tick r))) as Hext.
      { etrans; [apply (extends_error e (res, r))|]. split; cbn; [done..|lia|done]. }
      split_and!; [done|by apply Hkeep|]. by intros _ [_ ?]%app_nil. }
  assert (extends (res, r) (res, tick (tick r))) as Hext by (split; cbn; [done..|lia|done]).
  destruct (list_loop_spec targets profiles gvr namespaced sel profile target (run_clock r) (run_clock (tick r)) namespaces
    namespaces (res, tick (tick r))) as (Hext' & Hs & Hall); [done..|cbn; lia|cbn; lia|done|by apply Hkeep|].
  split_and!; [by etrans|done|]. intros Hsk _. exists (run_clock r), (run_clock (tick r)), gvr, namespaced, namespaces, sel.
  split_and!; [done..|by apply Hall].
Qed.

(** ** The whole pass *)

Lemma lookup_profileByName profiles name profile :
  profileByName profiles !! name = Some profile → profile ∈ profiles ∧ profile_Name profile = name.
Proof.
  unfold profileByName. induction profiles as [|p profiles IH] using rev_ind; [done|].
  rewrite foldl_snoc. intros [[<- <-]|[_ [? ?]%IH]]%lookup_insert_Some; (split; [set_solver|done]).
Qed.

Lemma run_all_spec all profiles targets st :
  let st' := foldl (run_one profiles) st targets in
  targets ⊆ all → sound all profiles st →
  extends st st' ∧ sound all profiles st' ∧
  (SkippedTargets st'.1 = [] → RunErrors st'.1 = [] → ∀ target, target ∈ targets →
     ∃ profile, profiles !! target_ProfileRef (target_Spec target) = Some profile ∧
       covered st'.2 (ExtractionFailures st'.1) target profile).
Proof.
  intros st' Hsub Hsound. subst st'. revert st Hsub Hsound.
  induction targets as [|t targets IH]; intros st Hsub Hsound; cbn [foldl].
  { split_and!; [done..|]. by intros _ _ t ?%not_elem_of_nil. }
  assert (extends st (run_one profiles st t) ∧ sound all profiles (run_one profiles st t) ∧
    (SkippedTargets (run_one profiles st t).1 = [] → RunErrors (run_one profiles st t).1 = [] →
     ∃ profile, profiles !! target_ProfileRef (target_Spec t) = Some profile ∧
       covered (run_one profiles st t).2 (ExtractionFailures (run_one profiles st t).1) t profile)) as (Hext & Hs & Hc).
  { unfold run_one. destruct (profiles !! _) as [profile|] eqn:Hp.
    - destruct (runTarget_spec all profiles profile t st) as (? & ? & ?); [set_solver|done..|]. split_and!; [done..|eauto].
    - split_and!; [| |by intros [_ ?]%app_nil].
      + split; cbn; [done..| |done|done|done]. by intros [_ ?]%app_nil.
      + intros k item Hk. by apply Hsound in Hk. }
  destruct (IH (run_one profiles st t)) as (Hext' & Hs' & Hall); [set_solver|done|].
  split_and!; [by etrans|done|]. intros Hsk Her target [->|Ht]%elem_of_cons; [|by apply Hall].
  destruct Hc as (profile & Hp & Hcov); [by eapply ext_skipped|by eapply ext_errors|].
  exists profile. split; [done|]. by eapply covered_mono.
Qed.

Lemma insert_failure_perm f l : insert_failure f l ≡ₚ f :: l.
Proof.
  induction l as [|g l IH]; [done|]. cbn [insert_failure]. destruct (failure_less g f); [|done].
  rewrite IH. apply Permutation_swap.
Qed.

Lemma sortExtractionFailures_perm l : sortExtractionFailures l ≡ₚ l.
Proof. induction l as [|f l IH]; [done|]. cbn. by rewrite insert_failure_perm, IH. Qed.

Lemma ltb_asym s t : String.ltb s t = true → String.ltb t s = false.
Proof. unfold String.ltb. rewrite (String.compare_antisym s t). by destruct (String.compare t s). Qed.

Lemma failure_less_asym a b : failure_less a b = true → failure_less b a = false.
Proof.
  unfold failure_less. repeat case_decide; try congruence; apply ltb_asym.
Qed.

Lemma sortExtractionFailures_sorted l : Sorted (λ a b, failure_less b a = false) (sortExtractionFailures l).
Proof.
  induction l as [|f l IH]; [constructor|]. cbn. fold (sortExtractionFailures l). revert IH.
  generalize (sortExtractionFailures l). clear l. intros l Hl. induction Hl as [|g l Hl IH Hh]; cbn [insert_failure].
  { by repeat constructor. }
  destruct (failure_less g f) eqn:Hlt; [|constructor; [by constructor|]; by constructor]. constructor; [done|].
  destruct Hh as [|h l Hh]; cbn [insert_failure]; [constructor; by apply failure_less_asym|].
  destruct (failure_less h f); constructor; [done|by apply failure_less_asym].
Qed.

Lemma Run_spec profiles targets scrubKeys res r :
  Run profiles targets (NewRunnerWithMapper scrubKeys) = (res, r) →
  (∀ k item, rows (run_store r) !! k = Some item →
     has_origin targets (profileByName profiles) (res, r) k item) ∧
  run_scrubber r = NewScrubber scrubKeys ∧
  Sorted (λ a b, failure_less b a = false) (ExtractionFailures res) ∧
  (SkippedTargets res = [] → RunErrors res = [] → ∀ target, target ∈ targets →
     ∃ profile, profile ∈ profiles ∧ profile_Name profile = target_ProfileRef (target_Spec target) ∧
       covered r (ExtractionFailures res) target profile).
Proof.
  unfold Run. destruct (run_all_spec targets (profileByName profiles) targets
    (mkRunResult 0 [] [] [], NewRunnerWithMapper scrubKeys)) as (Hext & Hs & Hall); [done| |].
  { intros k item. cbn. by rewrite rows_NewStore, lookup_empty. }
  destruct (foldl _ _ _) as [res' r'] eqn:Hr. intros [= <- <-]. cbn in *. split_and!.
  - intros k item Hk. exact (Hs k item Hk).
  - exact (ext_scrubber _ _ Hext).
  - apply sortExtractionFailures_sorted.
  - intros Hsk Her target Ht. destruct (Hall Hsk Her target Ht) as (profile & Hp & Hc).
    apply lookup_profileByName in Hp as [? ?]. exists profile. split_and!; [done..|].
    refine (covered_mono (res', r') (mkRunResult 0 [] (sortExtractionFailures (ExtractionFailures res')) [], r') _ _ _ Hc).
    split; cbn; [done| |done..]. intros f Hf. by rewrite sortExtractionFailures_perm.
Qed.

(** ** Confinement *)

Lemma name_kept_spec target obj :
  name_kept target obj → target_Names (target_Spec target) = [] ∨ GetName obj ∈ target_Names (target_Spec target).
Proof.
  unfold name_kept, name_skipped, namesSet. destruct (target_Names _) as [|n names]; [by left|]. intros Hk. right.
  destruct (decide (GetName obj ∈ n :: names)) as [|Hnot]; [done|]. exfalso.
  rewrite bool_decide_eq_false_2 in Hk by (rewrite elem_of_list_to_set; done). rewrite andb_true_r in Hk.
  apply Nat.ltb_ge in Hk. assert (size (list_to_set (C := gset string) (n :: names)) = 0) as Hz by lia.
  apply size_empty_inv in Hz. set_solver.
Qed.

Lemma elem_of_excludeNamespaces ns namespaces excluded :
  ns ∈ excludeNamespaces namespaces excluded ↔ ns ∈ namespaces ∧ ns ∉ excluded.
Proof.
  unfold excludeNamespaces. destruct excluded; [set_solver|]. rewrite list_elem_of_filter. tauto.
Qed.

(** The namespaces of a namespaced kind: never an excluded one, and one of the
    included, or one that the selector matches. *)
Lemma resolveNamespaces_spec now target namespaces ns :
  resolveNamespaces now target true = Ok namespaces → ns ∈ namespaces →
  let filter := target_Filter (target_Spec target) in
  "" ∉ IncludedNamespaces filter →
  ns ≠ "" ∧ ns ∉ ExcludedNamespaces filter ∧
  (IncludedNamespaces filter ≠ [] → ns ∈ IncludedNamespaces filter) ∧
  (IncludedNamespaces filter = [] → ∀ sel p, target_NamespaceSelector (target_Spec target) = Some sel →
     LabelSelectorAsSelector sel = Some p → p (namespace_labels now ns) = true).
Proof.
  unfold resolveNamespaces, baseNamespaces. cbn [negb]. intros Hr Hns Hne.
  destruct (IncludedNamespaces _) as [|i included].
  - destruct (labelSelectorString _) as [text|] eqn:Ht; [|done]. destruct (list_namespaces now text) as [l|] eqn:Hl; [|done].
    injection Hr as <-. apply elem_of_excludeNamespaces in Hns as [Hin Hex]. split_and!; [|done|done|].
    + intros ->. by eapply list_namespaces_named.
    + intros _ sel p Hsel Hp. rewrite Hsel in Ht. cbn in Ht. rewrite Hp in Ht. injection Ht as <-.
      by eapply list_namespaces_selected.
  - injection Hr as <-. apply elem_of_excludeNamespaces in Hns as [Hin Hex].
    split_and!; [by intros ->|done|by intros _|done].
Qed.

(** C19. The rows of a one-shot pass stay inside what its targets ask for: every
    row of the store is the row of an object that the cluster listed for one of
    the targets, extracted with the profile the target names. The object has one
    of the target's names and satisfies its label selector; for a namespaced kind
    its namespace is not excluded, and is one of the included or, without any, one
    that satisfies the namespace selector (the empty string is the one entry of
    the included namespaces that lists more). No denied entry is left in the
    maps and lists of an attribute; a value of another Go type, which a CEL
    expression can build, is passed on unread. *)
Theorem run_rows_confined profiles targets scrubKeys res r k item :
  Run profiles targets (NewRunnerWithMapper scrubKeys) = (res, r) →
  rows (run_store r) !! k = Some item →
  ∃ target profile gvr namespaced obj attrs n0 n1 ns,
    (target ∈ targets ∧ profile ∈ profiles ∧ profile_Name profile = target_ProfileRef (target_Spec target)) ∧
    RESTMapping n0 (profile_TargetGVK (profile_Spec profile)) = Some (gvr, namespaced) ∧
    Extract obj (profile_Attributes (profile_Spec profile)) = Ok attrs ∧
    (item = runner_item (NewScrubber scrubKeys) gvr profile target obj attrs ∧ k = RowSpec.key_of item) ∧
    (target_Names (target_Spec target) = [] ∨ GetName obj ∈ target_Names (target_Spec target)) ∧
    (∀ sel p, target_LabelSelector (target_Spec target) = Some sel → LabelSelectorAsSelector sel = Some p →
       p (GetLabels obj) = true) ∧
    (let filter := target_Filter (target_Spec target) in
     namespaced = true → "" ∉ IncludedNamespaces filter →
     GetNamespace obj = ns ∧ ns ∉ ExcludedNamespaces filter ∧
     (IncludedNamespaces filter ≠ [] → ns ∈ IncludedNamespaces filter) ∧
     (IncludedNamespaces filter = [] → ∀ sel p, target_NamespaceSelector (target_Spec target) = Some sel →
        LabelSelectorAsSelector sel = Some p → p (namespace_labels n1 ns) = true)) ∧
    Forall (λ kv, secret_free scrubKeys kv.2) (default [] (Attributes item)).
Proof.
  intros (Hs & Hscr & _ & _)%Run_spec Hk.
  destruct (Hs k item Hk) as (target & profile & gvr & namespaced & ns & objs & obj & attrs & Ht & Hp & Hv & Ho & Hn & He & -> & ->).
  destruct Hv as (n0 & n1 & n2 & namespaces & text & _ & _ & _ & Hmap & Hres & Htext & Hns & Hl).
  apply lookup_profileByName in Hp as [Hp Hname]. cbn [snd]. rewrite Hscr.
  exists target, profile, gvr, namespaced, obj, attrs, n0, n1, ns. split_and!; [done..|by apply name_kept_spec| | |].
  - intros sel p Hsel Hpar. rewrite Hsel in Htext. cbn in Htext. rewrite Hpar in Htext. injection Htext as <-.
    by eapply list_objects_labels.
  - intros -> Hne. destruct (resolveNamespaces_spec n1 target namespaces ns Hres Hns Hne) as (Hnz & Hrest).
    split; [by eapply list_objects_namespace|done].
  - apply Forall_forall. intros kv (x & -> & _)%list_elem_of_fmap. apply clean_secret_free, Scrub_clean.
Qed.
End runner.

(** * A cluster *)
Module RunnerDemo.

#[local] Existing Instances map_range_to_list demo_kube demo_extract ascii_only_case.

(** Two namespaces; one object each, and a second in [b] that has no image. *)
Definition deployment (ns name app uid : string) (image : list (string * value)) : object :=
  [("namespace", VString ns); ("name", VString name); ("app", VString app); ("uid", VString uid)] ++ image.

Definition objects : list object :=
  [deployment "a" "web" "web" "1" [("image", VMap [("ref", VString "nginx"); ("password", VString "hunter2")])];
   deployment "b" "db" "db" "2" [("image", VString "pg")];
   deployment "b" "job" "web" "3" []].

(** The selector [app=v] as the server reads it. *)
Definition app_text (sel : LabelSelector) : string :=
  let v := map_get "app" (sel_matchLabels sel) in
  if decide (sel_matchLabels sel = {[ "app" := v ]}) then "app=" +:+ v else "-".

Definition listed (ns sel : string) : list object :=
  filter (λ o, (ns = "" ∨ demo_string "namespace" o = ns) ∧ (sel = "" ∨ "app=" +:+ demo_string "app" o = sel)) objects.

Lemma app_text_nonempty sel : app_text sel ≠ "".
Proof. unfold app_text. by case_decide. Qed.

Lemma app_text_matches sel p v :
  LabelSelectorAsSelector sel = Some p → "app=" +:+ v = app_text sel → p {[ "app" := v ]} = true.
Proof.
  unfold app_text. cbn. destruct (sel_matchExpressions sel); [|done]. intros [= <-].
  case_decide as Hd; [|done]. intros Hv. apply bool_decide_eq_true. rewrite Hd.
  assert (v = map_get "app" (sel_matchLabels sel)) as <- by (injection Hv; done).
  by apply map_Forall_singleton, lookup_singleton_eq.
Qed.

#[local] Obligation Tactic := idtac.

#[export, program] Instance cluster : ClusterApi := {|
  RESTMapping n gvk := if decide (gvk_Kind gvk = "Deployment") then Some (mkGVR "apps" "v1" "deployments", true) else None;
  selector_text := app_text;
  list_namespaces n sel := Ok (if decide (sel = "" ∨ sel = "app=web") then ["a"; "b"] else []);
  list_objects n gvr ns sel :=
    if decide (ns = "forbidden") then Err (Leaf 403 "forbidden") else Ok (listed ns sel);
  namespace_labels n ns := {[ "app" := "web" ]};
|}.
Next Obligation. intros n sel l. cbv beta. case_decide; intros [= <-]; set_solver. Qed.
Next Obligation.
  intros n sel p l ns Hp. cbv beta. case_decide as Hd; intros [= <-]; [|set_solver]. intros _.
  apply (app_text_matches sel p "web" Hp). destruct Hd as [Hd|]; [|done]. by destruct (app_text_nonempty sel).
Qed.
Next Obligation.
  intros n gvr ns sel objs obj Hns. cbv beta. case_decide; [done|]. intros [= <-]. unfold listed.
  rewrite list_elem_of_filter. intros [[[?|?] _] _]; done.
Qed.
Next Obligation.
  intros n gvr ns sel p objs obj Hp. cbv beta. case_decide; [done|]. intros [= <-]. unfold listed.
  rewrite list_elem_of_filter. intros [[_ [Hd|Hd]] _]; [by destruct (app_text_nonempty sel)|].
  by apply (app_text_matches sel p).
Qed.

#[export] Instance demo_api_errors : ApiErrors := {|
  api_IsNotFound _ := false; api_IsInvalid _ := false; api_IsBadRequest _ := false; api_IsForbidden _ := true |}.

Definition msg (e : attribute_error) : string := "attribute " +:+ err_attribute e.

Definition target (filter : CollectionFilterSpec) (labels : option LabelSelector) (names : list string) : KollectTarget :=
  mkKollectTarget "team" "deps" 1 (mkKollectTargetSpec "images" None filter labels names false "").

Definition profile : KollectProfile :=
  mkKollectProfile "team" "images" 1
    (mkKollectProfileSpec (mkGVK "apps" "v1" "Deployment") [mkAttributeSpec "image" "image" "" false] None []).

Definition run (t : KollectTarget) : RunResult * Runner := Run msg [profile] [t] (NewRunnerWithMapper []).
Definition uids (t : KollectTarget) : list string := (map_to_list (rows (run_store (run t).2))).*1.*2.

Definition no_filter : CollectionFilterSpec := mkCollectionFilterSpec [] [] None [].
Definition web : option LabelSelector := Some (mkLabelSelector {[ "app" := "web" ]} []).

(** The pass skips the object without an image and records it. *)
Example partial_run :
  let '(res, r) := run (target no_filter None []) in
  ItemCount res = 2 ∧ Degraded res = true ∧ Store.Len (run_store r) = 2 ∧
  ExtractionFailures res = [mkFailure "team/deps" "b" "job" "3" "attribute image"].
Proof. vm_compute. repeat split. Qed.

Example forbidden_namespace :
  SkippedTargets (run (target (mkCollectionFilterSpec ["a"; "forbidden"] [] None []) None [])).1 =
    [mkSkipped "team/deps" "forbidden"] ∧
  ItemCount (run (target (mkCollectionFilterSpec ["a"; "forbidden"] [] None []) None [])).1 = 1.
Proof. split; vm_compute; reflexivity. Qed.

(** An empty entry of [includedNamespaces] is the cluster-wide list: the excluded
    namespace is collected with the rest. *)
Example empty_namespace_ignores_exclusion :
  bool_decide ("2" ∈ uids (target (mkCollectionFilterSpec ["a"; ""] ["b"] None []) None [])) = true ∧
  bool_decide ("2" ∈ uids (target (mkCollectionFilterSpec ["a"; "b"] ["b"] None []) None [])) = false.
Proof. split; vm_compute; reflexivity. Qed.

(** A suspended target, a target whose resource rules match no object and one whose
    namespaces are all excluded by label are collected like any other. *)
Example filters_not_read :
  let rules := [mkResourceRule (mkGVK "apps" "v1" "Deployment") None {[ "app" := "none" ]} [] ""] in
  let spec suspend filter := mkKollectTarget "team" "deps" 1 (mkKollectTargetSpec "images" None filter None [] suspend "") in
  ItemCount (run (spec true no_filter)).1 = 2 ∧
  ItemCount (run (spec false (mkCollectionFilterSpec [] [] None rules))).1 = 2 ∧
  ItemCount (run (spec false (mkCollectionFilterSpec [] [] web []))).1 = 2.
Proof. split_and!; vm_compute; reflexivity. Qed.

Definition confined_target : KollectTarget := target (mkCollectionFilterSpec [] ["b"] None []) web ["web"].

Lemma run_rows_confined_witness :
  ∃ t obj attrs gvr, t ∈ [confined_target] ∧ GetName obj ∈ target_Names (target_Spec t) ∧ GetNamespace obj ∉ ["b"] ∧
    rows (run_store (run confined_target).2) !! ("team", "deps", "1") =
      Some (runner_item (NewScrubber []) gvr profile t obj attrs).
Proof.
  destruct (rows (run_store (run confined_target).2) !! ("team", "deps", "1")) as [item|] eqn:Hk; [|vm_compute in Hk; discriminate Hk].
  destruct (run_rows_confined msg [profile] [confined_target] [] (run confined_target).1 (run confined_target).2
    ("team", "deps", "1") item) as (t & p & gvr & b & obj & attrs & n0 & n1 & ns & (Ht & Hp & _) & Hmap & _ & [-> _] & Hn & _ & Hns & _);
    [by rewrite <-surjective_pairing|exact Hk|].
  apply list_elem_of_singleton in Hp as ->. exists t, obj, attrs, gvr. pose proof Ht as Ht'.
  apply list_elem_of_singleton in Ht' as ->. split_and!; [done|by destruct Hn| |done].
  assert (b = true) as -> by (vm_compute in Hmap; congruence). destruct (Hns eq_refl) as (-> & ? & _); [|done].
  apply not_elem_of_nil.
Defined.
End RunnerDemo.
