(* ===== verification/PipelineConfig.v ===== *)
(** The configuration of the command line, [src/internal/pipeline/loader.go] and
    the credential part of [src/internal/pipeline/wire.go]: the manifests of a
    directory, the one sink of a run, and the Secrets a sink refers to.

    Reading and decoding files is an argument: a directory is its entries, a file
    the documents its YAML decoder delivers. The environment is a function of the
    variable's name. *)

From S2P Require Import Prelude GoStrings Values Store Json Api Errors Secrets.

(** * The directory *)

(** A [corev1.Secret] manifest. *)
Record config_secret := mkConfigSecret {
  cs_Namespace : string;
  cs_Name : string;
  cs_Data : gmap string string;
  cs_StringData : gmap string string;
}.

(** The fields of a sink spec that a run reads; its type is [ss_Type]. *)
Record SinkConfig := mkSinkConfig {
  sc_Endpoint : string;
  sc_PathTemplate : string;
  sc_Cluster : string;
  sc_Secrets : SinkSecrets;
}.

Definition sc_Type (s : SinkConfig) : string := ss_Type (sc_Secrets s).

(** Go: internal/pipeline/loader.go:37-44 [LoadResult] *)
Record LoadResult := mkLoadResult {
  Profiles : list KollectProfile;
  Targets : list KollectTarget;
  Sinks : list SinkConfig;
  ConfigSecrets : list config_secret;
  Warnings : list string;
}.

(** A typed object of the scheme; [ObjOther] carries the name of its Go type. *)
Inductive decoded :=
  | ObjProfile (p : KollectProfile)
  | ObjTarget (t : KollectTarget)
  | ObjSink (s : SinkConfig)
  | ObjSecret (s : config_secret)
  | ObjOther (kind : string).

(** What the decoders make of one document. *)
Inductive document :=
  | DocSyntaxError (e : err)
  | DocBlank
  | DocNotRegistered (gvk : string)
  | DocInvalid (e : err)
  | DocObject (o : decoded).

Record dir_entry := mkDirEntry {
  de_Name : string;
  de_IsDir : bool;
  de_Read : result err (list document);
}.

Inductive load_error :=
  | ErrReadDir (e : err)
  | ErrReadFile (name : string) (e : err)
  | ErrParse (name : string) (e : err)
  | ErrProfileRef (target profile : string).

(** Go: internal/pipeline/loader.go:122-136 [dispatch] *)
Definition dispatch (res : LoadResult) (obj : decoded) (filename : string) : LoadResult :=
  let '(mkLoadResult ps ts sinks secrets ws) := res in
  match obj with
  | ObjProfile p => mkLoadResult (ps ++ [p]) ts sinks secrets ws
  | ObjTarget t => mkLoadResult ps (ts ++ [t]) sinks secrets ws
  | ObjSink s => mkLoadResult ps ts (sinks ++ [s]) secrets ws
  | ObjSecret s => mkLoadResult ps ts sinks (secrets ++ [s]) ws
  | ObjOther kind => mkLoadResult ps ts sinks secrets (ws ++ ["skipped unknown kind " +:+ kind +:+ " in " +:+ filename])
  end.

(** Go: internal/pipeline/loader.go:86-120 [decodeDocuments] *)
Fixpoint decodeDocuments (res : LoadResult) (docs : list document) (filename : string) : result load_error LoadResult :=
  match docs with
  | [] => Ok res
  | DocSyntaxError e :: _ | DocInvalid e :: _ => Err (ErrParse filename e)
  | DocBlank :: docs => decodeDocuments res docs filename
  | DocNotRegistered gvk :: docs => decodeDocuments (dispatch res (ObjOther gvk) filename) docs filename
  | DocObject o :: docs => decodeDocuments (dispatch res o filename) docs filename
  end.

(** Go: internal/pipeline/loader.go:138-151 [resolveProfileRefs] *)
Definition resolveProfileRefs (res : LoadResult) : result load_error unit :=
  let profileNames : gset string := list_to_set (profile_Name <$> Profiles res) in
  for_each (λ t, if decide (target_ProfileRef (target_Spec t) ∈ profileNames) then Ok tt
                 else Err (ErrProfileRef (target_Name t) (target_ProfileRef (target_Spec t)))) (Targets res).

Fixpoint load_entries (res : LoadResult) (entries : list dir_entry) : result load_error LoadResult :=
  match entries with
  | [] => Ok res
  | entry :: entries =>
      if de_IsDir entry then load_entries res entries
      else if negb (has_suffix ".yaml" (de_Name entry)) && negb (has_suffix ".yml" (de_Name entry))
      then load_entries res entries
      else
        match de_Read entry with
        | Err e => Err (ErrReadFile (de_Name entry) e)
        | Ok docs => res ← decodeDocuments res docs (de_Name entry); load_entries res entries
        end
  end.

(** Go: internal/pipeline/loader.go:46-84 [LoadConfig] *)
Definition LoadConfig (dir : result err (list dir_entry)) : result load_error LoadResult :=
  match dir with
  | Err e => Err (ErrReadDir e)
  | Ok entries =>
      res ← load_entries (mkLoadResult [] [] [] [] []) entries;
      resolveProfileRefs res;;
      Ok res
  end.

(** * The sink *)

Definition StdoutSentinel : string := "-".
Definition StdoutSinkType : string := "stdout".
Definition LocalSinkType : string := "local".

Inductive sink_error :=
  | ErrStdoutAmbiguous
  | ErrOutputAmbiguous
  | ErrNoSink
  | ErrManySinks (n : nat).

(** A spec of the given type and endpoint alone. *)
Definition bare_sink (type endpoint : string) : SinkConfig :=
  mkSinkConfig endpoint "" "" (mkSinkSecrets type None None None None None None None None).

(** Go: internal/pipeline/wire.go:33-58 [ResolveSink] *)
Definition ResolveSink (loaded : LoadResult) (output : string) : result sink_error SinkConfig :=
  if decide (output = StdoutSentinel ∧ Sinks loaded ≠ []) then Err ErrStdoutAmbiguous
  else if decide (output = StdoutSentinel) then Ok (bare_sink StdoutSinkType StdoutSentinel)
  else if decide (output ≠ "" ∧ Sinks loaded ≠ []) then Err ErrOutputAmbiguous
  else if decide (output ≠ "") then Ok (bare_sink LocalSinkType output)
  else
    match Sinks loaded with
    | [s] => Ok s
    | [] => Err ErrNoSink
    | sinks => Err (ErrManySinks (length sinks))
    end.

(** Go: internal/pipeline/stdout.go:57-60 [IsStdoutSink] *)
Definition IsStdoutSink (s : SinkConfig) : bool := bool_decide (sc_Type s = StdoutSinkType).

(** * Credentials *)

Inductive cli_error :=
  | ErrSecretNotInDirectory (field name : string)
  | ErrSecretEnvVarNotSet (secret key var : string)
  | ErrEmptySecret (namespace name : string)
  | ErrCARules (e : secret_error).

Definition is_env_start (c : ascii) : bool := byte_in 65 90 c || byte_in 97 122 c || Ascii.eqb c "_".
Definition is_env_char (c : ascii) : bool := is_env_start c || is_digit c.

(** The submatch of the pattern, when the whole value is one placeholder.
    Go: internal/pipeline/wire.go:64-68 [envPlaceholderPattern] *)
Definition env_placeholder (v : string) : option string :=
  match cut_prefix "${env:" v ≫= cut_suffix "}" with
  | Some (String c name) => if is_env_start c && string_forall is_env_char name then Some (String c name) else None
  | _ => None
  end.

Section credentials.
Context `{!MapRange}.
(** [os.Getenv]: an unset variable reads as the empty string. *)
Context (getenv : string → string).

(** The loop over the merged values; a key is visited once. *)
Fixpoint substitute (name : string) (entries : list (string * string)) (merged : gmap string string) :
    result cli_error (gmap string string) :=
  match entries with
  | [] => Ok merged
  | (key, value) :: entries =>
      match env_placeholder value with
      | None => substitute name entries merged
      | Some envName =>
          if decide (getenv envName = "") then Err (ErrSecretEnvVarNotSet name key envName)
          else substitute name entries (<[key := getenv envName]> merged)
      end
  end.

(** Go: internal/pipeline/wire.go:174-210 [resolveSecretValues] *)
Definition resolveSecretValues (s : config_secret) : result cli_error (gmap string string) :=
  let merged := cs_StringData s ∪ cs_Data s in
  merged ← substitute (cs_Name s) (map_range merged) merged;
  if SecretDataEmpty merged then Err (ErrEmptySecret (cs_Namespace s) (cs_Name s)) else Ok merged.

(** Go: internal/pipeline/wire.go:124-145 [resolveConfigSecret] *)
Fixpoint resolveConfigSecret (ref : SecretReference) (secrets : list config_secret) (field : string) :
    result cli_error (gmap string string) :=
  match secrets with
  | [] => Err (ErrSecretNotInDirectory field (sr_Name ref))
  | s :: secrets =>
      if decide (cs_Name s ≠ sr_Name ref) then resolveConfigSecret ref secrets field
      else if decide (sr_Namespace ref ≠ "" ∧ cs_Namespace s ≠ sr_Namespace ref) then resolveConfigSecret ref secrets field
      else resolveSecretValues s
  end.

(** Go: internal/pipeline/wire.go:147-172 [resolveCAPEM] *)
Definition cli_resolveCAPEM (tlsSpec : option TLSSpec) (secrets : list config_secret) : result cli_error string :=
  lift_err ErrCARules (CheckCASources tlsSpec);;
  match tlsSpec with
  | None => Ok ""
  | Some t =>
      if decide (tls_CABundle t ≠ "") then Ok (tls_CABundle t)
      else
        match tls_CASecretRef t with
        | None => Ok ""
        | Some ref =>
            data ← resolveConfigSecret ref secrets "sink tls.caSecretRef";
            lift_err ErrCARules (SelectCAKey (sr_Name ref) data)
        end
  end.

(** Go: internal/pipeline/wire.go:114-122 [gitAuthSecretRef] *)
Definition cli_gitAuthSecretRef (spec : SinkSecrets) : option SecretReference :=
  if decide (ss_Type spec ≠ "git") then None
  else match ss_GitAuth spec with None => None | Some (_, ref) => ref end.

(** Go: internal/pipeline/wire.go:70-112 [ResolveSinkSecretData] *)
Definition ResolveSinkSecretData (spec : SinkSecrets) (secrets : list config_secret) :
    result cli_error (option (gmap string string)) :=
  cli_resolveCAPEM (ss_TLS spec) secrets;;
  data ← match ss_SecretRef spec with
         | None => Ok None
         | Some ref => resolved ← resolveConfigSecret ref secrets "sink secretRef"; Ok (Some resolved)
         end;
  match cli_gitAuthSecretRef spec with
  | None => Ok data
  | Some ref => resolved ← resolveConfigSecret ref secrets "sink git.auth.secretRef"; Ok (Some resolved)
  end.

(** Go: internal/pipeline/wire.go:212-238 [databaseSecretRef] *)
Definition cli_databaseSecretRef (spec : SinkSecrets) : option SecretReference :=
  if decide (ss_Type spec = "postgres") then mjoin (ss_Postgres spec)
  else if decide (ss_Type spec = "bigquery") then mjoin (ss_BigQuery spec)
  else if decide (ss_Type spec = "mongodb") then mjoin (ss_MongoDB spec)
  else None.

(** Go: internal/pipeline/wire.go:240-251 [ResolveDatabaseSecretData] *)
Definition ResolveDatabaseSecretData (spec : SinkSecrets) (secrets : list config_secret) :
    result cli_error (option (gmap string string)) :=
  match cli_databaseSecretRef spec with
  | None => Ok None
  | Some ref =>
      if decide (sr_Name ref = "") then Ok None
      else resolved ← resolveConfigSecret ref secrets "sink database secret"; Ok (Some resolved)
  end.

(** Go: internal/pipeline/wire.go:253-271 [cliBuildContext] *)
Definition cliBuildContext (spec : SinkSecrets) (secretData : option (gmap string string)) (secrets : list config_secret) :
    result cli_error BuildContext :=
  caPEM ← cli_resolveCAPEM (ss_TLS spec) secrets;
  dbData ← ResolveDatabaseSecretData spec secrets;
  Ok (mkBuildContext caPEM secretData dbData).

(** The two steps a run takes before it builds the sink's client. *)
Definition cli_build (spec : SinkSecrets) (secrets : list config_secret) : result cli_error BuildContext :=
  secretData ← ResolveSinkSecretData spec secrets; cliBuildContext spec secretData secrets.
End credentials.

(** * The command line and the operator read the same credentials *)

(** No value of a manifest is a placeholder. *)
Definition literal (s : config_secret) : Prop :=
  map_Forall (λ _ v, env_placeholder v = None) (cs_StringData s ∪ cs_Data s).

(** The API server after the manifests were applied to it: [stringData] is merged
    over [data]. *)
Definition applied (secrets : list config_secret) (use : secretUse) : result err (option secret) :=
  Ok ((λ s, mkSecret "" "" (cs_StringData s.2 ∪ cs_Data s.2)) <$>
        list_find (λ s, cs_Namespace s = use_Namespace use ∧ cs_Name s = use_Name use) secrets).

Definition readable (get : secret_reader) (u : secretUse) : Prop :=
  ∃ s, get u = Ok (Some s) ∧ SecretDataEmpty (secret_Data s) = false.

Lemma readable_fetch get uses out : Forall (readable get) uses → ∃ secrets, fetch get uses out = Ok secrets.
Proof.
  intros Hu. revert out. induction Hu as [|u uses (s & Hg & He) _ IH]; intros out; cbn [fetch]; [eauto|].
  unfold getSecretObject. rewrite Hg. cbn [mbind result_bind]. rewrite He. apply IH.
Qed.

Lemma read_uses_readable get uses secrets secrets' :
  read_uses get uses secrets = Ok secrets' → (∀ u, is_Some (secrets !! u) → readable get u) → Forall (readable get) uses.
Proof.
  revert secrets. induction uses as [|u uses IH]; intros secrets; cbn [read_uses]; [constructor|].
  case_decide as Hd.
  { intros Hr Hs. constructor; [by apply Hs|by eapply IH]. }
  unfold getSecret. destruct (get u) as [[s|]|] eqn:Hg; [|done..]. destruct (SecretDataEmpty _) eqn:He; [done|].
  cbn [mbind result_bind]. intros Hr Hs. assert (readable get u) as Hu by (by exists s). constructor; [done|].
  eapply IH; [exact Hr|]. intros v [? [[<- _]|[_ ?]]%lookup_insert_Some]; [done|]. by apply Hs.
Qed.

(** A build that succeeds has read every Secret of the spec. *)
Lemma build_readable get spec ns bc :
  BuildContextFromSpec get spec ns = Ok bc → Forall (readable get) (referencedSecretRefs spec ns).
Proof.
  unfold BuildContextFromSpec. rewrite referenced_effective.
  destruct (CheckCASources _) as [[]|]; [|done]. cbn [mbind result_bind].
  destruct (checkCASecret get spec _) as [ca|] eqn:Hca; [|done]. cbn [mbind result_bind].
  destruct (read_uses _ _ _) as [secrets|] eqn:Hr; [|done]. intros _. eapply read_uses_readable; [exact Hr|].
  revert Hca. unfold checkCASecret. destruct (caSecretUse _ _) as [use|].
  2:{ intros [= <-] u [? ?%lookup_empty_Some]. done. }
  case_decide; [done|]. unfold getSecret. destruct (get use) as [[s|]|] eqn:Hg; [|done..].
  destruct (SecretDataEmpty _) eqn:He; [done|]. cbn [mbind result_bind]. destruct (SelectCAKey _ _); [|done].
  intros [= <-] u [? [<- _]%lookup_singleton_Some]. by exists s.
Qed.

Section agreement.
Context `{!MapRange}.
Context (getenv : string → string) (secrets : list config_secret) (ns : string) (spec : SinkSecrets).
Context (Hns : ns ≠ "") (Hhome : Forall (λ s, cs_Namespace s = ns) secrets) (Hliteral : Forall literal secrets).
Context (Hnamed : ∀ r, Some r ∈ secret_refs spec → sr_Name r ≠ "").
Context (Hkafka : ss_Type spec ≠ "kafka") (Hnats : ss_Type spec ≠ "nats").

Lemma substitute_literal name entries merged :
  Forall (λ kv, env_placeholder kv.2 = None) entries → substitute getenv name entries merged = Ok merged.
Proof. induction 1 as [|[k v] entries Hv _ IH]; [done|]. cbn in *. by rewrite Hv. Qed.

Lemma resolveSecretValues_literal s :
  literal s →
  resolveSecretValues getenv s =
    if SecretDataEmpty (cs_StringData s ∪ cs_Data s) then Err (ErrEmptySecret (cs_Namespace s) (cs_Name s))
    else Ok (cs_StringData s ∪ cs_Data s).
Proof.
  intros Hl. unfold resolveSecretValues. rewrite substitute_literal; [done|].
  apply Forall_forall. intros [k v] Hkv%elem_of_map_range. by apply (Hl k v).
Qed.

(** The directory answers for a reference what the API server answers. *)
Lemma resolve_applied field ref :
  match resolveConfigSecret getenv ref secrets field with
  | Ok d => ∃ s, applied secrets (use_of ns ref) = Ok (Some s) ∧ secret_Data s = d ∧ SecretDataEmpty d = false
  | Err _ => ¬ readable (applied secrets) (use_of ns ref)
  end.
Proof.
  unfold readable, applied, use_of, secretRefNamespace. cbn [use_Namespace use_Name].
  clear Hnamed Hkafka Hnats. induction secrets as [|s l IH]; cbn [resolveConfigSecret list_find].
  { by intros (s & [=] & _). }
  apply Forall_cons in Hhome as [Hs Hl], Hliteral as [Hlit Hlits]. specialize (IH Hl Hlits). clear Hl Hlits.
  assert (∀ o : option (nat * config_secret),
    (λ s, mkSecret "" "" (cs_StringData s.2 ∪ cs_Data s.2)) <$> (prod_map S id <$> o) =
    (λ s, mkSecret "" "" (cs_StringData s.2 ∪ cs_Data s.2)) <$> o) as Hshift by (by intros [[]|]).
  destruct (decide (cs_Name s ≠ sr_Name ref)) as [Hn|Hn%dec_stable].
  { rewrite decide_False by tauto. by rewrite Hshift. }
  destruct (decide (sr_Namespace ref ≠ "" ∧ cs_Namespace s ≠ sr_Namespace ref)) as [[Hr Hd]|Hd].
  { rewrite decide_False by (rewrite decide_True by done; tauto). by rewrite Hshift. }
  rewrite decide_True.
  2:{ split; [|done]. destruct (decide (sr_Namespace ref ≠ "")); [|done]. destruct (decide (cs_Namespace s = sr_Namespace ref)); tauto. }
  rewrite resolveSecretValues_literal by done. destruct (SecretDataEmpty _) eqn:He; cbn.
  - intros (? & [= <-] & ?). cbn in *. congruence.
  - eauto.
Qed.

(** ** With every Secret readable *)
Section all_read.
Context (fetched : gmap secretUse secret).
Context (Hfetch : fetchSecrets (applied secrets) (referencedSecretRefs spec ns) = Ok fetched).

Lemma listed_agree r :
  Some r ∈ secret_refs spec →
  ∃ d, (∀ field, resolveConfigSecret getenv r secrets field = Ok d) ∧
       ref_data (effective_default ns) fetched (Some r) = Ok (Some d).
Proof.
  intros Hr. pose proof (Hnamed r Hr) as Hn. apply fetch_ok in Hfetch as [Hu Hs].
  assert (effective_default ns = ns) as Hd by (unfold effective_default; by rewrite decide_False).
  assert (use_of ns r ∈ referencedSecretRefs spec ns) as Hin.
  { apply elem_of_referenced. rewrite Hd. eauto. }
  destruct (Hu _ Hin) as (s & Hg & He). exists (secret_Data s). split.
  - intros field. pose proof (resolve_applied field r) as Hres. destruct (resolveConfigSecret _ _ _ _) as [d|].
    + destruct Hres as (s' & Hg' & <- & _). congruence.
    + destruct Hres. by exists s.
  - unfold ref_data. rewrite decide_False by done. rewrite Hd, Hs, decide_True, Hg by done. done.
Qed.

Lemma ca_agree :
  cli_resolveCAPEM getenv (ss_TLS spec) secrets =
  lift_err ErrCARules (Secrets.resolveCAPEM (ss_TLS spec) (ref_data (effective_default ns) fetched)).
Proof.
  unfold cli_resolveCAPEM, Secrets.resolveCAPEM. destruct (CheckCASources _) as [[]|]; [|done]. cbn [mbind result_bind lift_err].
  destruct (ss_TLS spec) as [t|] eqn:Ht; [|done]. destruct (decide (tls_CABundle t ≠ "")) as [|Hb%dec_stable]; [done|].
  destruct (tls_CASecretRef t) as [r|] eqn:Hr; [|done]. destruct (listed_agree r) as (d & Hd & ->); [by eapply ca_listed|].
  by rewrite Hd.
Qed.

Lemma cli_matches_build bc : cli_build getenv spec secrets = Ok bc ↔ buildContextFromSecrets spec ns fetched = Ok bc.
Proof.
  unfold cli_build, ResolveSinkSecretData, cliBuildContext, buildContextFromSecrets. rewrite ca_agree.
  destruct (Secrets.resolveCAPEM _ _) as [ca|]; [|done]. cbn [mbind result_bind lift_err].
  set (data := ref_data (effective_default ns) fetched).
  assert (∀ ref field, (∀ r, ref = Some r → Some r ∈ secret_refs spec) →
    ∃ d, data ref = Ok d ∧
      match ref with None => d = None | Some r => ∃ m, d = Some m ∧ resolveConfigSecret getenv r secrets field = Ok m end) as Hd.
  { intros [r|] field Hr; [|by exists None]. destruct (listed_agree r (Hr r eq_refl)) as (d & Hd & He). exists (Some d). eauto. }
  destruct (Hd (ss_SecretRef spec) "sink secretRef") as (sd & -> & Hsd).
  { intros r Hr. unfold secret_refs. rewrite Hr. set_solver. }
  destruct (Hd (databaseSecretRef spec) "sink database secret") as (db & -> & Hdb); [apply database_listed|].
  destruct (Hd (gitAuthSecretRef spec) "sink git.auth.secretRef") as (git & Hgit & Hg).
  { intros r Hr. apply override_listed. rewrite Hr. set_solver. }
  assert (kafkaSecretRef spec = None) as -> by (unfold kafkaSecretRef; by rewrite decide_True).
  assert (natsSecretRef spec = None) as -> by (unfold natsSecretRef; by rewrite decide_True).
  assert (match ss_SecretRef spec with
          | None => Ok None
          | Some ref => resolved ← resolveConfigSecret getenv ref secrets "sink secretRef"; Ok (Some resolved)
          end = Ok sd) as ->.
  { destruct (ss_SecretRef spec); [destruct Hsd as (m & -> & ->)|subst]; done. }
  assert (ResolveDatabaseSecretData getenv spec secrets = Ok db) as ->.
  { unfold ResolveDatabaseSecretData, cli_databaseSecretRef. fold (databaseSecretRef spec).
    destruct (databaseSecretRef spec) as [r|] eqn:Hr; [destruct Hdb as (m & -> & ->)|by subst].
    rewrite decide_False; [done|]. by apply Hnamed, database_listed. }
  assert (cli_gitAuthSecretRef spec = gitAuthSecretRef spec) as ->.
  { unfold cli_gitAuthSecretRef, gitAuthSecretRef. case_decide; [done|]. by destruct (ss_GitAuth spec) as [[]|]. }
  cbn [mbind result_bind overrides]. destruct (gitAuthSecretRef spec) as [r|].
  - destruct Hg as (m & -> & ->). rewrite Hgit. cbn. split; by intros [= <-].
  - split; by intros [= <-].
Qed.
End all_read.

(** A build of the command line that succeeds has resolved every reference. *)
Lemma cli_build_resolved bc r :
  cli_build getenv spec secrets = Ok bc → Some r ∈ secret_refs spec →
  ∃ field d, resolveConfigSecret getenv r secrets field = Ok d.
Proof.
  unfold cli_build, ResolveSinkSecretData, cliBuildContext.
  intros (sd & (ca1 & Hca & (d0 & Hd0 & Hgit)%result_bind_ok)%result_bind_ok & (ca2 & _ & (db & Hdb & _)%result_bind_ok)%result_bind_ok)%result_bind_ok.
  intros Hr. pose proof (Hnamed r Hr) as Hn. revert Hr. unfold secret_refs. rewrite !elem_of_app, !list_elem_of_singleton.
  intros [Hr|[Hr|[Hr|Hr]]].
  - rewrite <-Hr in Hd0. apply result_bind_ok in Hd0 as (d & ? & _). eauto.
  - assert (databaseSecretRef spec = Some r) as Hdr.
    { revert Hr. unfold databaseSecretRef. repeat case_decide; try done; [..|set_solver];
        match goal with |- context [mjoin ?o] => destruct o; [intros <-%list_elem_of_singleton|intros ?%not_elem_of_nil] end; done. }
    revert Hdb. unfold ResolveDatabaseSecretData, cli_databaseSecretRef. fold (databaseSecretRef spec). rewrite Hdr.
    rewrite decide_False by done. intros (d & ? & _)%result_bind_ok. eauto.
  - revert Hgit Hr. unfold cli_gitAuthSecretRef, gitAuthSecretRef. case_decide; [done|].
    destruct (ss_GitAuth spec) as [[ty ref]|]; [|done]. cbn. intros Hgit <-. apply result_bind_ok in Hgit as (d & ? & _). eauto.
  - revert Hca Hr. unfold cli_resolveCAPEM. destruct (CheckCASources _) as [[]|]; [|done]. cbn [mbind result_bind lift_err].
    destruct (ss_TLS spec) as [t|]; [|set_solver]. destruct (decide (tls_CABundle t ≠ "")) as [Hb|Hb%dec_stable].
    { rewrite decide_False by done. set_solver. }
    rewrite decide_True by done. intros Hca Hr%list_elem_of_singleton. rewrite <-Hr in Hca. apply result_bind_ok in Hca as (d & ? & _). eauto.
Qed.

Lemma cli_ok_readable bc :
  cli_build getenv spec secrets = Ok bc → Forall (readable (applied secrets)) (referencedSecretRefs spec ns).
Proof.
  intros Hc. apply Forall_forall. intros u (r & Hr & Hn & ->)%elem_of_referenced.
  assert (effective_default ns = ns) as -> by (unfold effective_default; by rewrite decide_False).
  destruct (cli_build_resolved bc r Hc Hr) as (field & d & Hok). pose proof (resolve_applied field r) as Hres.
  rewrite Hok in Hres. destruct Hres as (s & Hg & <- & He). by exists s.
Qed.

(** A sink is given the same credentials by the command line as by the
    operator: for a snapshot or database sink whose references carry names, over
    Secret manifests of the sink's namespace without placeholders, the run
    builds its client exactly when the operator would after the manifests were
    applied, and with the same CA bundle, credential and database Secret. *)
Theorem cli_credentials_agree bc :
  cli_build getenv spec secrets = Ok bc ↔ BuildContextFromSpec (applied secrets) spec ns = Ok bc.
Proof.
  split.
  - intros Hc. destruct (readable_fetch (applied secrets) (referencedSecretRefs spec ns) ∅) as [fetched Hf];
      [by eapply cli_ok_readable|].
    rewrite (proj1 (pool_build_agrees _ _ _ _ Hf)). by apply cli_matches_build.
  - intros Hb. destruct (readable_fetch (applied secrets) (referencedSecretRefs spec ns) ∅) as [fetched Hf];
      [by eapply build_readable|].
    rewrite (proj1 (pool_build_agrees _ _ _ _ Hf)) in Hb. by apply (cli_matches_build fetched Hf).
Qed.
End agreement.

(** * Placeholders *)

(** What a value becomes: a placeholder its variable, which is set, and any other
    value itself. *)
Definition resolves_to (getenv : string → string) (v v' : string) : Prop :=
  match env_placeholder v with
  | None => v' = v
  | Some var => v' = getenv var ∧ v' ≠ ""
  end.

Lemma substitute_spec getenv name entries merged out :
  NoDup entries.*1 → (∀ k v, (k, v) ∈ entries → merged !! k = Some v) →
  substitute getenv name entries merged = Ok out →
  (∀ k v, (k, v) ∈ entries → ∃ v', out !! k = Some v' ∧ resolves_to getenv v v') ∧
  (∀ k, k ∉ entries.*1 → out !! k = merged !! k).
Proof.
  revert merged. induction entries as [|[k v] entries IH]; intros merged; cbn [substitute fmap list_fmap fst].
  { intros _ _ [= <-]. split; [by intros k v ?%not_elem_of_nil|done]. }
  intros [Hk Hnd]%NoDup_cons Hm. unfold resolves_to. destruct (env_placeholder v) as [var|] eqn:Hv.
  - case_decide as Hset; [done|]. intros [He Ho]%IH; [|done|].
    + split.
      * intros k' v' [[= -> ->]|Hin]%elem_of_cons; [|by apply He]. rewrite Ho, lookup_insert_eq by done. rewrite Hv. eauto.
      * intros k' [Hne Hni]%not_elem_of_cons. by rewrite Ho, lookup_insert_ne.
    + intros k' v' Hin. rewrite lookup_insert_ne; [apply Hm; by right|]. intros <-. apply Hk.
      by apply (list_elem_of_fmap_2 fst _ (k, v')).
  - intros [He Ho]%IH; [|done|intros k' v' Hin; apply Hm; by right]. split.
    + intros k' v' [[= -> ->]|Hin]%elem_of_cons; [|by apply He]. rewrite Ho by done. exists v.
      split; [apply Hm; by left|by rewrite Hv].
    + intros k' [Hne Hni]%not_elem_of_cons. by apply Ho.
Qed.

(** The values of a resolved Secret are those of the manifest, [stringData] over
    [data], with every placeholder replaced by a variable that is set. *)
Lemma resolveSecretValues_spec `{!MapRange} getenv s out :
  resolveSecretValues getenv s = Ok out →
  dom out = dom (cs_StringData s ∪ cs_Data s) ∧ SecretDataEmpty out = false ∧
  ∀ k v, (cs_StringData s ∪ cs_Data s) !! k = Some v → ∃ v', out !! k = Some v' ∧ resolves_to getenv v v'.
Proof.
  unfold resolveSecretValues. set (merged := cs_StringData s ∪ cs_Data s).
  intros (m & Hm & Hout)%result_bind_ok. destruct (SecretDataEmpty m) eqn:He; [done|]. injection Hout as <-.
  apply substitute_spec in Hm as [Hv Hk]; [|apply NoDup_map_range|by intros k v ?%elem_of_map_range].
  split_and!; [|done|intros k v ?; by apply Hv, elem_of_map_range].
  apply set_eq. intros k. rewrite !elem_of_dom. destruct (decide (k ∈ (map_range merged).*1)) as [Hin|Hni].
  - apply list_elem_of_fmap in Hin as ([k' v] & -> & Hin). cbn [fst]. destruct (Hv _ _ Hin) as (v' & -> & _).
    apply elem_of_map_range in Hin as ->. done.
  - by rewrite Hk.
Qed.

(** * A directory *)
Module ConfigDemo.
#[local] Existing Instance map_range_to_list.

Definition secret name (data strings : gmap string string) : config_secret := mkConfigSecret "team" name data strings.

Definition secrets : list config_secret :=
  [secret "git" {[ "token" := "old" ]} {[ "token" := "t0ken" ]};
   secret "ca" {[ "ca.crt" := "PEM" ]} ∅].

Definition spec : SinkSecrets :=
  mkSinkSecrets "git" None (Some (mkTLSSpec "" (Some (mkSecretReference "ca" ""))))
    (Some ("token", Some (mkSecretReference "git" "team"))) None None None None None.

Definition getenv (var : string) : string := if decide (var = "KOLLECT_GIT_TOKEN") then "t0ken" else "".

Example placeholders :
  env_placeholder "${env:KOLLECT_GIT_TOKEN}" = Some "KOLLECT_GIT_TOKEN" ∧
  env_placeholder "x${env:A}" = None ∧ env_placeholder "${env:A}x" = None ∧ env_placeholder "${env:9}" = None ∧
  env_placeholder "${env:}" = None ∧ env_placeholder "${env:A}}" = None.
Proof. done. Qed.

Lemma literal_secrets : Forall literal secrets.
Proof.
  assert (∀ s, bool_decide (map_Forall (λ _ v, env_placeholder v = None) (cs_StringData s ∪ cs_Data s)) = true → literal s) as Hl.
  { intros s. apply bool_decide_eq_true_1. }
  repeat constructor; apply Hl; vm_compute; reflexivity.
Qed.

Lemma named_refs : Forall (λ o, (sr_Name <$> o) ≠ Some "") (secret_refs spec).
Proof. apply (bool_decide_unpack _). vm_compute. exact I. Qed.

Lemma cli_credentials_agree_witness :
  ∃ bc, cli_build getenv spec secrets = Ok bc ∧ BuildContextFromSpec (applied secrets) spec "team" = Ok bc ∧
    bc_CAPEM bc = "PEM" ∧ (bc_SecretData bc ≫= (!!) "token") = Some "t0ken".
Proof.
  destruct (cli_build getenv spec secrets) as [bc|] eqn:Hc; [|vm_compute in Hc; discriminate Hc].
  exists bc. split; [done|]. split.
  - refine (proj1 (cli_credentials_agree getenv secrets "team" spec _ _ literal_secrets _ _ _ bc) Hc); [done| |..|done|done].
    + repeat constructor.
    + intros r Hr Hn. pose proof named_refs as Hf. rewrite Forall_forall in Hf. apply (Hf (Some r) Hr). cbn. by rewrite Hn.
  - vm_compute in Hc. injection Hc as <-. split; reflexivity.
Defined.
End ConfigDemo.
