(* ===== verification/Pipeline.v ===== *)
(** The command line's run, [src/internal/pipeline/wire.go], [stdout.go] and
    [src/cmd/cli/{collect,context,exitcode}.go]: one collection per kubeconfig
    context, the export of each target to the one sink or to stdout, and the exit
    code.

    Connecting to a context gives a cluster ([Runner.ClusterApi]) or an error, the
    sink is the class [SinkClient] over a world of its own, and encoding YAML,
    indenting JSON and matching a glob are arguments. *)

From S2P Require Import Prelude GoStrings Values Store Json Api Filter.
From S2P Require Import Errors Scrub Extract Envelope GoTemplate Secrets Runner PipelineConfig.

(** The sink's client: what [NewBackend] makes of a spec, and one export. *)
Class SinkClient (W : Type) := {
  sink_new : SinkConfig → BuildContext → W → result err unit;
  sink_export : SinkConfig → string → string → W → option err * W;
}.

(** * Paths and results *)

Definition defaultPathTemplate : string := "inventory/{namespace}/{name}.yaml".

(** Go: internal/pipeline/wire.go:325-333 [renderPath] *)
Definition renderPath (tmpl namespace name cluster : string) : string :=
  replacer [("{namespace}", namespace); ("{name}", name); ("{cluster}", cluster)] tmpl.

(** Go: internal/pipeline/wire.go:359-375 [ApplyNamespaceOverride] *)
Definition ApplyNamespaceOverride (targets : list KollectTarget) (namespace : string) : list KollectTarget :=
  if decide (namespace = "") then targets
  else
    (λ t, let sp := target_Spec t in let f := target_Filter sp in
          mkKollectTarget (target_Namespace t) (target_Name t) (target_Generation t)
            (mkKollectTargetSpec (target_ProfileRef sp) (target_NamespaceSelector sp)
               (mkCollectionFilterSpec [namespace] (ExcludedNamespaces f) (NamespaceExcludeSelector f) (ResourceRules f))
               (target_LabelSelector sp) (target_Names sp) (target_Suspend sp) (target_WatchMode sp))) <$> targets.

Inductive pipeline_error :=
  | ErrCollect (e : run_error)
  | ErrExtraction (f : ExtractionFailure)
  | ErrMarshalExport (target : string) (e : envelope_error)
  | ErrDecodeRecord (target : string)
  | ErrExport (target : string) (e : err).

(** Why a context did not run to its end. *)
Inductive fatal_error :=
  | ErrConnect (e : err)
  | ErrSinkCredentials (e : cli_error)
  | ErrSinkBackend (e : err).

(** Go: internal/pipeline/stdout.go:62-73 [StdoutRecord] *)
Record StdoutRecord := mkStdoutRecord {
  rec_Context : string;
  rec_TargetNamespace : string;
  rec_TargetName : string;
  rec_Path : string;
  rec_Envelope : ExportEnvelope;
}.

(** Go: internal/pipeline/wire.go:335-357 [ContextResult] *)
Record ContextResult := mkContextResult {
  cr_Context : string;
  cr_Exported : nat;
  cr_Skipped : nat;
  cr_Errs : list pipeline_error;
  cr_Fatal : option fatal_error;
  cr_Records : list StdoutRecord;
}.

Definition fatal_context (name : string) (e : fatal_error) : ContextResult := mkContextResult name 0 0 [] (Some e) [].

(** Go: internal/pipeline/wire.go:377-400 [buildContextResult] *)
Definition buildContextResult (contextName : string) (run : RunResult) (exported : nat) (exportErrs : list pipeline_error) :
    ContextResult :=
  mkContextResult contextName exported (length (SkippedTargets run))
    ((ErrCollect <$> RunErrors run) ++ (ErrExtraction <$> ExtractionFailures run) ++ exportErrs) None [].

(** * Exit codes *)

Definition ExitSuccess : nat := 0.
Definition ExitPartialFailure : nat := 1.
Definition ExitFatalError : nat := 2.

(** Go: cmd/cli/exitcode.go:37-50 [exitCodeForContext] *)
Definition exitCodeForContext (r : ContextResult) : nat :=
  let degraded := (0 <? length (cr_Errs r)) || (0 <? cr_Skipped r) in
  match cr_Fatal r with
  | Some _ => ExitFatalError
  | None =>
      if degraded && (cr_Exported r =? 0) then ExitFatalError
      else if degraded then ExitPartialFailure
      else ExitSuccess
  end.

(** Go: cmd/cli/exitcode.go:20-35 [mapContextResultsToExit] *)
Definition mapContextResultsToExit (results : list ContextResult) : nat :=
  foldl (λ worst r, let code := exitCodeForContext r in if worst <? code then code else worst) ExitSuccess results.

(** * The context selection *)

(** The part of a kubeconfig the selection reads; the contexts are a map. *)
Record kubeconfig := mkKubeconfig { kc_Current : string; kc_Contexts : gset string }.

Inductive context_error :=
  | ErrLoadKubeconfig (e : err)
  | ErrNoCurrentContext
  | ErrBadPattern (pattern : string)
  | ErrContextNotFound (name : string)
  | ErrNoContexts.

Section contexts.
(** [path.Match]: [None] for a malformed pattern. *)
Context (path_match : string → string → option bool).

(** The loop over the contexts for one glob. *)
Fixpoint glob_contexts (pattern : string) (names : list string) (matched : gset string) (found : bool) :
    result context_error (gset string * bool) :=
  match names with
  | [] => Ok (matched, found)
  | name :: names =>
      match path_match pattern name with
      | None => Err (ErrBadPattern pattern)
      | Some true => glob_contexts pattern names ({[name]} ∪ matched) true
      | Some false => glob_contexts pattern names matched found
      end
  end.

Fixpoint match_contexts (contexts : gset string) (patterns : list string) (matched : gset string) (warnings : list string) :
    result context_error (gset string * list string) :=
  match patterns with
  | [] => Ok (matched, warnings)
  | pattern :: patterns =>
      if has_byte "*" pattern || has_byte "?" pattern then
        hits ← glob_contexts pattern (elements contexts) matched false;
        let '(matched, found) := hits : gset string * bool in
        match_contexts contexts patterns matched
          (if found then warnings else warnings ++ ["--context " +:+ pattern +:+ " matched no contexts in kubeconfig"])
      else if decide (pattern ∈ contexts) then match_contexts contexts patterns ({[pattern]} ∪ matched) warnings
      else Err (ErrContextNotFound pattern)
  end.

(** Go: cmd/cli/context.go:15-81 [resolveContexts] *)
Definition resolveContexts (cfg : result err kubeconfig) (patterns : list string) :
    result context_error (list string * list string) :=
  match cfg with
  | Err e => Err (ErrLoadKubeconfig e)
  | Ok cfg =>
      match patterns with
      | [] => if decide (kc_Current cfg = "") then Err ErrNoCurrentContext else Ok ([kc_Current cfg], [])
      | _ =>
          hits ← match_contexts (kc_Contexts cfg) patterns ∅ [];
          let '(matched, warnings) := hits : gset string * list string in
          if decide (matched = ∅) then Err ErrNoContexts else Ok (sort_strings (elements matched), warnings)
      end
  end.
End contexts.

(** * One context *)
Section run.
Context `{!KubeApi, !UnicodeCase, !ExtractApi, !ApiErrors, !SortFunc, !Sha256, !MapRange, !JsonDecode}.
Context {W : Type} `{!SinkClient W}.
(** How an extraction error reads, the environment, the time of the [n]-th export
    of a context, and what connecting to a context gives. *)
Context (msg : attribute_error → string) (getenv : string → string) (now : string → nat → Z).
Context (connect : string → result err ClusterApi).

(** Go: internal/collect/store.go:236-242 [MarshalTargetExport] *)
Definition MarshalTargetExport (t : Z) (targetNamespace targetName : string) (meta : ExportMetadata) (store : Store.StoreState) :
    result envelope_error string * Store.StoreState :=
  let '(items, store) := Store.SnapshotTarget targetNamespace targetName store in
  (MarshalExportEnvelope t items meta, store).

(** [collect.ExportMetadata{Cluster: cluster}]. *)
Definition cluster_meta (cluster : string) : ExportMetadata := mkMetadata 0 cluster zero_time 0 0.

Definition template_of (spec : SinkConfig) : string :=
  if decide (sc_PathTemplate spec = "") then defaultPathTemplate else sc_PathTemplate spec.
Definition cluster_of (spec : SinkConfig) (contextName : string) : string :=
  if decide (sc_Cluster spec = "") then contextName else sc_Cluster spec.

(** The loop over the targets, from the [n]-th on. *)
Fixpoint export_loop (spec : SinkConfig) (contextName : string) (dryRun : bool) (n : nat) (targets : list KollectTarget)
    (store : Store.StoreState) (w : W) (exported : nat) (errs : list pipeline_error) :
    nat * list pipeline_error * W :=
  match targets with
  | [] => (exported, errs, w)
  | target :: targets =>
      let cluster := cluster_of spec contextName in
      let continue := export_loop spec contextName dryRun (S n) targets in
      let '(marshalled, store) :=
        MarshalTargetExport (now contextName n) (target_Namespace target) (target_Name target) (cluster_meta cluster) store in
      match marshalled with
      | Err e => continue store w exported (errs ++ [ErrMarshalExport (targetKeyName target) e])
      | Ok payload =>
          let path := renderPath (template_of spec) (target_Namespace target) (target_Name target) cluster in
          if dryRun then continue store w exported errs
          else
            match sink_export spec payload path w with
            | (Some e, w) => continue store w exported (errs ++ [ErrExport (targetKeyName target) e])
            | (None, w) => continue store w (S exported) errs
            end
      end
  end.

(** Go: internal/pipeline/wire.go:273-323 [ExportTargets] *)
Definition ExportTargets (store : Store.StoreState) (targets : list KollectTarget) (spec : SinkConfig)
    (contextName : string) (dryRun : bool) (w : W) : nat * list pipeline_error * W :=
  export_loop spec contextName dryRun 0 targets store w 0 [].

Fixpoint record_loop (spec : SinkConfig) (contextName : string) (n : nat) (targets : list KollectTarget)
    (store : Store.StoreState) (records : list StdoutRecord) (errs : list pipeline_error) :
    list StdoutRecord * list pipeline_error :=
  match targets with
  | [] => (records, errs)
  | target :: targets =>
      let cluster := cluster_of spec contextName in
      let continue := record_loop spec contextName (S n) targets in
      let '(marshalled, store) :=
        MarshalTargetExport (now contextName n) (target_Namespace target) (target_Name target) (cluster_meta cluster) store in
      match marshalled with
      | Err e => continue store records (errs ++ [ErrMarshalExport (targetKeyName target) e])
      | Ok payload =>
          match decode_envelope payload with
          | None => continue store records (errs ++ [ErrDecodeRecord (targetKeyName target)])
          | Some env =>
              continue store
                (records ++ [mkStdoutRecord contextName (target_Namespace target) (target_Name target)
                   (renderPath (template_of spec) (target_Namespace target) (target_Name target) cluster) env]) errs
          end
      end
  end.

(** Go: internal/pipeline/stdout.go:75-121 [CollectStdoutRecords] *)
Definition CollectStdoutRecords (store : Store.StoreState) (targets : list KollectTarget) (spec : SinkConfig)
    (contextName : string) : list StdoutRecord * list pipeline_error :=
  record_loop spec contextName 0 targets store [] [].

(** Closing the client changes nothing of the result.
    Go: internal/pipeline/wire.go:520-544 [withCLIBackend] *)
Definition withCLIBackend (spec : SinkConfig) (build : BuildContext) (export : W → nat * list pipeline_error * W) (w : W) :
    result err (nat * list pipeline_error) * W :=
  match sink_new spec build w with
  | Err e => (Err e, w)
  | Ok tt => let '(exported, errs, w) := export w in (Ok (exported, errs), w)
  end.

(** Go: internal/pipeline/wire.go:439-518 [runOneContext] *)
Definition runOneContext (loaded : LoadResult) (spec : SinkConfig) (secretData : option (gmap string string))
    (scrubKeys : list string) (dryRun : bool) (contextName : string) (w : W) : ContextResult * W :=
  match connect contextName with
  | Err e => (fatal_context contextName (ErrConnect e), w)
  | Ok cluster =>
      let '(runResult, runner) := Run msg (Profiles loaded) (Targets loaded) (NewRunnerWithMapper scrubKeys) in
      if IsStdoutSink spec then
        let '(records, exportErrs) := CollectStdoutRecords (run_store runner) (Targets loaded) spec contextName in
        let cr := buildContextResult contextName runResult (length records) exportErrs in
        (mkContextResult (cr_Context cr) (cr_Exported cr) (cr_Skipped cr) (cr_Errs cr) (cr_Fatal cr) records, w)
      else
        match cliBuildContext getenv (sc_Secrets spec) secretData (ConfigSecrets loaded) with
        | Err e => (fatal_context contextName (ErrSinkCredentials e), w)
        | Ok build =>
            match withCLIBackend spec build (ExportTargets (run_store runner) (Targets loaded) spec contextName dryRun) w with
            | (Err e, w) => (fatal_context contextName (ErrSinkBackend e), w)
            | (Ok (exported, exportErrs), w) => (buildContextResult contextName runResult exported exportErrs, w)
            end
        end
  end.

(** Go: internal/pipeline/wire.go:402-423 [RunAllContexts] *)
Fixpoint RunAllContexts (contexts : list string) (loaded : LoadResult) (spec : SinkConfig)
    (secretData : option (gmap string string)) (scrubKeys : list string) (dryRun : bool) (w : W) : list ContextResult * W :=
  match contexts with
  | [] => ([], w)
  | contextName :: contexts =>
      let '(r, w) := runOneContext loaded spec secretData scrubKeys dryRun contextName w in
      let '(results, w) := RunAllContexts contexts loaded spec secretData scrubKeys dryRun w in
      (r :: results, w)
  end.
End run.

(** * Stdout *)

Inductive StdoutFormat := FormatNDJSON | FormatYAML | FormatJSON.

(** [None] is the error of an unknown format.
    Go: internal/pipeline/stdout.go:42-55 [ParseStdoutFormat] *)
Definition ParseStdoutFormat (s : string) : option StdoutFormat :=
  if decide (s = "" ∨ s = "ndjson") then Some FormatNDJSON
  else if decide (s = "yaml") then Some FormatYAML
  else if decide (s = "json") then Some FormatJSON
  else None.

Inductive output_error :=
  | ErrMarshalRecord
  | ErrWriteStdout (e : err).

(** [json.Marshal] of a record, following its field tags. *)
Definition json_record (r : StdoutRecord) : option string :=
  env ← json_envelope (rec_Envelope r);
  Some (json_object [("context", json_string (rec_Context r)); ("targetNamespace", json_string (rec_TargetNamespace r));
    ("targetName", json_string (rec_TargetName r)); ("path", json_string (rec_Path r)); ("envelope", env)]).

Definition newline : string := String (ascii_of_nat 10) "".

Section stdout.
(** A write to the stream, given what was written before; the YAML encoder; the
    indentation of a JSON text. *)
Context (write : list string → string → option err) (yaml_record : StdoutRecord → option string) (json_indent : string → string).

Definition write_chunk (chunk : string) (out : list string) : result output_error unit * list string :=
  match write out chunk with
  | Some e => (Err (ErrWriteStdout e), out)
  | None => (Ok tt, out ++ [chunk])
  end.

(** The records one by one; [encode] gives the chunk of a record. *)
Fixpoint write_each (encode : StdoutRecord → option string) (records : list StdoutRecord) (out : list string) :
    result output_error unit * list string :=
  match records with
  | [] => (Ok tt, out)
  | r :: records =>
      match encode r with
      | None => (Err ErrMarshalRecord, out)
      | Some chunk =>
          match write_chunk chunk out with
          | (Err e, out) => (Err e, out)
          | (Ok _, out) => write_each encode records out
          end
      end
  end.

(** Go: internal/pipeline/stdout.go:137-150 [writeNDJSON] *)
Definition writeNDJSON : list StdoutRecord → list string → result output_error unit * list string :=
  write_each (λ r, line ← json_record r; Some (line +:+ newline)).

(** Go: internal/pipeline/stdout.go:152-169 [writeYAMLStream] *)
Definition writeYAMLStream : list StdoutRecord → list string → result output_error unit * list string :=
  write_each (λ r, doc ← yaml_record r; Some ("---" +:+ newline +:+ doc)).

(** Go: internal/pipeline/stdout.go:171-188 [writeJSONArray] *)
Definition writeJSONArray (records : list StdoutRecord) (out : list string) : result output_error unit * list string :=
  match mapM json_record records with
  | None => (Err ErrMarshalRecord, out)
  | Some texts => write_chunk (json_indent (json_array texts) +:+ newline) out
  end.

(** Go: internal/pipeline/stdout.go:123-135 [WriteStdoutRecords] *)
Definition WriteStdoutRecords (format : StdoutFormat) : list StdoutRecord → list string → result output_error unit * list string :=
  match format with
  | FormatJSON => writeJSONArray
  | FormatYAML => writeYAMLStream
  | FormatNDJSON => writeNDJSON
  end.
End stdout.

(** * The command *)

(** The flags of [collect]; [fl_FormatChanged] says whether [--format] was given. *)
Record collectFlags := mkFlags {
  fl_Config : string;
  fl_Context : list string;
  fl_Output : string;
  fl_Namespace : string;
  fl_DryRun : bool;
  fl_Format : string;
  fl_FormatChanged : bool;
  fl_LogLevel : string;
}.

Inductive collect_error :=
  | ErrConfigRequired
  | ErrInvalidLogLevel
  | ErrInvalidFormat
  | ErrStdoutDryRun
  | ErrFormatWithoutStdout
  | ErrLoad (e : load_error)
  | ErrContexts (e : context_error)
  | ErrSink (e : sink_error)
  | ErrClusterConflict
  | ErrCredentials (e : cli_error)
  | ErrOutput (e : output_error).

Definition logLevels : list string := ["debug"; "info"; "warn"; "error"].

Section command.
Context `{!KubeApi, !UnicodeCase, !ExtractApi, !ApiErrors, !SortFunc, !Sha256, !MapRange, !JsonDecode}.
Context {W : Type} `{!SinkClient W}.
Context (msg : attribute_error → string) (getenv : string → string) (now : string → nat → Z).
Context (connect : string → result err ClusterApi) (path_match : string → string → option bool).
Context (write : list string → string → option err) (yaml_record : StdoutRecord → option string) (json_indent : string → string).
(** The configuration directory and the kubeconfig that the flags name. *)
Context (dir : result err (list dir_entry)) (cfg : result err kubeconfig).

(** The exit code, the error printed, what went to stdout, and the sink.
    Go: cmd/cli/collect.go:91-154 [runCollectPipeline] *)
Definition runCollectPipeline (flags : collectFlags) (format : StdoutFormat) (w : W) :
    nat * option collect_error * list string * W :=
  let fail e := (ExitFatalError, Some e, [], w) in
  match LoadConfig dir with
  | Err e => fail (ErrLoad e)
  | Ok loaded =>
  match resolveContexts path_match cfg (fl_Context flags) with
  | Err e => fail (ErrContexts e)
  | Ok (contexts, _) =>
  match ResolveSink loaded (fl_Output flags) with
  | Err e => fail (ErrSink e)
  | Ok spec =>
  if (1 <? length contexts) && negb (bool_decide (sc_Cluster spec = "")) then fail ErrClusterConflict
  else
  match ResolveSinkSecretData getenv (sc_Secrets spec) (ConfigSecrets loaded) with
  | Err e => fail (ErrCredentials e)
  | Ok secretData =>
      let loaded := mkLoadResult (Profiles loaded) (ApplyNamespaceOverride (Targets loaded) (fl_Namespace flags))
                      (Sinks loaded) (ConfigSecrets loaded) (Warnings loaded) in
      let '(results, w) := RunAllContexts msg getenv now connect contexts loaded spec secretData [] (fl_DryRun flags) w in
      let '(written, out) :=
        if IsStdoutSink spec then WriteStdoutRecords write yaml_record json_indent format (results ≫= cr_Records) []
        else (Ok tt, []) in
      match written with
      | Err e => (ExitFatalError, Some (ErrOutput e), out, w)
      | Ok _ => (mapContextResultsToExit results, None, out, w)
      end
  end end end end.

(** Go: cmd/cli/collect.go:56-89 [runCollect] *)
Definition runCollect (flags : collectFlags) (w : W) : nat * option collect_error * list string * W :=
  let fail e := (ExitFatalError, Some e, [], w) in
  if decide (fl_Config flags = "") then fail ErrConfigRequired
  else if decide (fl_LogLevel flags ∉ logLevels) then fail ErrInvalidLogLevel
  else
    match ParseStdoutFormat (fl_Format flags) with
    | None => fail ErrInvalidFormat
    | Some format =>
        let stdoutMode := bool_decide (fl_Output flags = StdoutSentinel) in
        if stdoutMode && fl_DryRun flags then fail ErrStdoutDryRun
        else if fl_FormatChanged flags && negb stdoutMode then fail ErrFormatWithoutStdout
        else runCollectPipeline flags format w
    end.
End command.

(** * Completeness of a successful run *)
Section completeness.
Context `{!KubeApi, !UnicodeCase, !ExtractApi, !ApiErrors, !SortFunc, !Sha256, !MapRange, !JsonDecode}.
Context {W : Type} `{!SinkClient W}.
Context (now : string → nat → Z).

(** The payload of a target: its rows of the store, in an envelope that names the
    cluster. *)
Definition payload_of (store : Store.StoreState) (spec : SinkConfig) (contextName : string) (target : KollectTarget)
    (payload : string) : Prop :=
  ∃ t items,
    items ≡ₚ (map_to_list (RowSpec.target_rows (target_Namespace target) (target_Name target) (rows store))).*2 ∧
    MarshalExportEnvelope t items (cluster_meta (cluster_of spec contextName)) = Ok payload.

Definition path_of (spec : SinkConfig) (contextName : string) (target : KollectTarget) : string :=
  renderPath (template_of spec) (target_Namespace target) (target_Name target) (cluster_of spec contextName).

(** The sink took the payload of the target, under the target's path. *)
Definition delivered (store : Store.StoreState) (spec : SinkConfig) (contextName : string) (target : KollectTarget) : Prop :=
  ∃ payload w, payload_of store spec contextName target payload ∧
    (sink_export spec payload (path_of spec contextName target) w).1 = None.

(** One of the records is the target's. *)
Definition recorded (store : Store.StoreState) (spec : SinkConfig) (contextName : string) (records : list StdoutRecord)
    (target : KollectTarget) : Prop :=
  ∃ payload env, payload_of store spec contextName target payload ∧ decode_envelope payload = Some env ∧
    mkStdoutRecord contextName (target_Namespace target) (target_Name target) (path_of spec contextName target) env ∈ records.

Lemma MarshalTargetExport_spec t target meta store res store' :
  MarshalTargetExport t (target_Namespace target) (target_Name target) meta store = (res, store') →
  rows store' = rows store ∧
  ∃ items, items ≡ₚ (map_to_list (RowSpec.target_rows (target_Namespace target) (target_Name target) (rows store))).*2 ∧
    res = MarshalExportEnvelope t items meta.
Proof.
  unfold MarshalTargetExport. pose proof (reads_report_rows (target_Namespace target) (target_Name target) store) as Hr.
  destruct (Store.SnapshotNamespace _ _), (Store.SnapshotTarget _ _ _) as [items s2], (Store.CountForNamespace _ _),
    (Store.CountForTarget _ _ _). destruct Hr as ((_ & Hp & _) & _ & _ & _ & Hs & _). intros [= <- <-]. eauto.
Qed.

Lemma payload_of_rows store store' spec ctx target payload :
  rows store' = rows store → payload_of store' spec ctx target payload → payload_of store spec ctx target payload.
Proof. unfold payload_of. by intros ->. Qed.

Lemma export_loop_spec spec ctx dryRun n targets store w exported errs exported' w' :
  export_loop now spec ctx dryRun n targets store w exported errs = (exported', [], w') →
  errs = [] ∧ (dryRun = false → ∀ target, target ∈ targets → delivered store spec ctx target).
Proof.
  revert n store w exported errs. induction targets as [|t targets IH]; intros n store w exported errs; cbn [export_loop].
  { intros [= <- <- <-]. split; [done|]. by intros _ t ?%not_elem_of_nil. }
  destruct (MarshalTargetExport _ _ _ _ _) as [marshalled store1] eqn:Hm.
  apply MarshalTargetExport_spec in Hm as (Hrows & items & Hitems & ->).
  assert (∀ target, delivered store1 spec ctx target → delivered store spec ctx target) as Hback.
  { intros target (payload & w0 & Hp & ?). exists payload, w0. split; [by eapply payload_of_rows|done]. }
  destruct (MarshalExportEnvelope _ _ _) as [payload|e] eqn:He; [|by intros [[_ ?]%app_nil _]%IH].
  destruct dryRun.
  { intros [-> _]%IH. done. }
  destruct (sink_export _ _ _ _) as [[e|] w1] eqn:Hx; [by intros [[_ ?]%app_nil _]%IH|].
  intros [-> Hall]%IH. split; [done|]. intros _ target [->|Ht]%elem_of_cons; [|by apply Hback, Hall].
  exists payload, w. split; [by exists (now ctx n), items|]. unfold path_of. by rewrite Hx.
Qed.

Lemma record_loop_spec spec ctx n targets store records errs records' :
  record_loop now spec ctx n targets store records errs = (records', []) →
  errs = [] ∧ records ⊆ records' ∧ ∀ target, target ∈ targets → recorded store spec ctx records' target.
Proof.
  revert n store records errs. induction targets as [|t targets IH]; intros n store records errs; cbn [record_loop].
  { intros [= <- <-]. split_and!; [done..|]. by intros t ?%not_elem_of_nil. }
  destruct (MarshalTargetExport _ _ _ _ _) as [marshalled store1] eqn:Hm.
  apply MarshalTargetExport_spec in Hm as (Hrows & items & Hitems & ->).
  assert (∀ target, recorded store1 spec ctx records' target → recorded store spec ctx records' target) as Hback.
  { intros target (payload & env & Hp & ?). exists payload, env. split; [by eapply payload_of_rows|done]. }
  destruct (MarshalExportEnvelope _ _ _) as [payload|e] eqn:He; [|by intros ([_ ?]%app_nil & _)%IH].
  destruct (decode_envelope payload) as [env|] eqn:Hd; [|by intros ([_ ?]%app_nil & _)%IH].
  intros (-> & Hsub & Hall)%IH. split_and!; [done|set_solver|].
  intros target [->|Ht]%elem_of_cons; [|by apply Hback, Hall].
  exists payload, env. split_and!; [by exists (now ctx n), items|done|]. apply Hsub. set_solver.
Qed.
End completeness.

Lemma exit_zero_context r : exitCodeForContext r = ExitSuccess → cr_Fatal r = None ∧ cr_Errs r = [] ∧ cr_Skipped r = 0.
Proof.
  unfold exitCodeForContext. destruct (cr_Fatal r); [done|]. destruct (cr_Errs r); cbn.
  - destruct (cr_Skipped r); cbn; [done|]. by destruct (cr_Exported r).
  - by destruct (cr_Exported r).
Qed.

(** The exit code is the worst of the contexts'. *)
Lemma mapContextResultsToExit_max results : mapContextResultsToExit results = max_list (exitCodeForContext <$> results).
Proof.
  unfold mapContextResultsToExit. assert (∀ l worst,
    foldl (λ worst r, let code := exitCodeForContext r in if worst <? code then code else worst) worst l =
    worst `max` max_list (exitCodeForContext <$> l)) as Hl; [|by rewrite Hl].
  induction l as [|r l IH]; intros worst; cbn -[Nat.ltb]; [lia|]. rewrite IH. destruct (worst <? exitCodeForContext r) eqn:Hlt;
    [apply Nat.ltb_lt in Hlt|apply Nat.ltb_ge in Hlt]; unfold id; lia.
Qed.

Lemma exit_zero_all results r : mapContextResultsToExit results = ExitSuccess → r ∈ results → exitCodeForContext r = ExitSuccess.
Proof.
  rewrite mapContextResultsToExit_max. intros Hz Hr. unfold ExitSuccess in *.
  apply (list_elem_of_fmap_2 exitCodeForContext) in Hr. pose proof (max_list_elem_of_le _ _ Hr). lia.
Qed.

Section success.
Context `{!KubeApi, !UnicodeCase, !ExtractApi, !ApiErrors, !SortFunc, !Sha256, !MapRange, !JsonDecode}.
Context {W : Type} `{!SinkClient W}.
Context (msg : attribute_error → string) (getenv : string → string) (now : string → nat → Z).
Context (connect : string → result err ClusterApi).

(** A context was collected whole and handed over: every target's profile was
    found, all its namespaces were listed, every object listed under one of its
    names has a row, and the rows went to the sink or into a record. *)
Definition context_complete (loaded : LoadResult) (spec : SinkConfig) (scrubKeys : list string) (dryRun : bool)
    (records : list StdoutRecord) (contextName : string) : Prop :=
  ∃ (cluster : ClusterApi) res r,
    connect contextName = Ok cluster ∧
    Run msg (Profiles loaded) (Targets loaded) (NewRunnerWithMapper scrubKeys) = (res, r) ∧
    ∀ target, target ∈ Targets loaded →
      (∃ profile, profile ∈ Profiles loaded ∧ profile_Name profile = target_ProfileRef (target_Spec target) ∧
         covered msg r [] target profile) ∧
      (if IsStdoutSink spec then recorded (run_store r) spec contextName records target
       else dryRun = false → delivered (run_store r) spec contextName target).

Lemma context_complete_mono loaded spec scrubKeys dryRun records records' ctx :
  records ⊆ records' → context_complete loaded spec scrubKeys dryRun records ctx →
  context_complete loaded spec scrubKeys dryRun records' ctx.
Proof.
  intros Hsub (cluster & res & r & Hc & Hr & Hall). exists cluster, res, r. split_and!; [done..|].
  intros target Ht. destruct (Hall target Ht) as [Hp Hd]. split; [done|]. destruct (IsStdoutSink spec); [|done].
  destruct Hd as (payload & env & ? & ? & ?). exists payload, env. auto.
Qed.

Lemma runOneContext_complete loaded spec secretData scrubKeys dryRun ctx w cr w' :
  runOneContext msg getenv now connect loaded spec secretData scrubKeys dryRun ctx w = (cr, w') →
  exitCodeForContext cr = ExitSuccess →
  context_complete loaded spec scrubKeys dryRun (cr_Records cr) ctx.
Proof.
  unfold runOneContext. destruct (connect ctx) as [cluster|e] eqn:Hc; [|by intros [= <- <-]].
  destruct (Run _ _ _ _) as [res r] eqn:Hrun. pose proof (Run_spec _ _ _ _ _ _ Hrun) as (_ & _ & _ & Hcov).
  assert (∀ exported errs, cr_Errs (buildContextResult ctx res exported errs) = [] → cr_Skipped (buildContextResult ctx res exported errs) = 0 →
    errs = [] ∧ ∀ target, target ∈ Targets loaded → ∃ profile, profile ∈ Profiles loaded ∧
      profile_Name profile = target_ProfileRef (target_Spec target) ∧ covered msg r [] target profile) as Hwhole.
  { intros exported errs. cbn. intros [He [Hf ->]%app_nil]%app_nil Hs%nil_length_inv. apply fmap_nil_inv in He, Hf.
    split; [done|]. rewrite Hf in Hcov. by apply Hcov. }
  unfold context_complete. destruct (IsStdoutSink spec).
  - destruct (CollectStdoutRecords _ _ _ _ _) as [records errs] eqn:Hrec. intros [= <- <-] (_ & He & Hs)%exit_zero_context.
    destruct (Hwhole (length records) errs He Hs) as [-> Hprof]. apply record_loop_spec in Hrec as (_ & _ & Hall).
    exists cluster, res, r. split_and!; [done..|]. intros target Ht. split; [by apply Hprof|by apply Hall].
  - destruct (cliBuildContext _ _ _ _) as [build|e]; [|by intros [= <- <-]].
    unfold withCLIBackend. destruct (sink_new _ _ _) as [[]|e]; [|by intros [= <- <-]].
    destruct (ExportTargets _ _ _ _ _ _ _) as [[exported errs] w1] eqn:Hx. intros [= <- <-] (_ & He & Hs)%exit_zero_context.
    destruct (Hwhole exported errs He Hs) as [-> Hprof]. apply export_loop_spec in Hx as [_ Hall].
    exists cluster, res, r. split_and!; [done..|]. intros target Ht. split; [by apply Hprof|intros Hd; by apply Hall].
Qed.

Lemma RunAllContexts_complete contexts loaded spec secretData scrubKeys dryRun w results w' :
  RunAllContexts msg getenv now connect contexts loaded spec secretData scrubKeys dryRun w = (results, w') →
  (∀ r, r ∈ results → exitCodeForContext r = ExitSuccess) →
  ∀ ctx, ctx ∈ contexts → context_complete loaded spec scrubKeys dryRun (results ≫= cr_Records) ctx.
Proof.
  revert w results. induction contexts as [|c contexts IH]; intros w results; cbn [RunAllContexts].
  { by intros _ _ ctx ?%not_elem_of_nil. }
  destruct (runOneContext _ _ _ _ _ _ _ _ _ _ _) as [r w1] eqn:Hone. destruct (RunAllContexts _ _ _ _ _ _ _ _ _ _ _) as [rs w2] eqn:Hrest.
  intros [= <- <-] Hok ctx [->|Hctx]%elem_of_cons.
  - eapply context_complete_mono, runOneContext_complete; [|exact Hone|apply Hok; by left]. cbn. set_solver.
  - eapply context_complete_mono, IH; [|exact Hrest| |done]; [cbn; set_solver|]. intros r' Hr'. apply Hok. by right.
Qed.

Context (path_match : string → string → option bool).
Context (write : list string → string → option err) (yaml_record : StdoutRecord → option string) (json_indent : string → string).
Context (dir : result err (list dir_entry)) (cfg : result err kubeconfig).

Lemma resolveContexts_nonempty patterns contexts warnings :
  resolveContexts path_match cfg patterns = Ok (contexts, warnings) → contexts ≠ [].
Proof.
  unfold resolveContexts. destruct cfg as [c|]; [|done]. destruct patterns as [|p patterns].
  { case_decide; [done|]. by intros [= <- <-]. }
  intros ([matched ws] & _ & Hm)%result_bind_ok. case_decide as Hne; [done|]. injection Hm as <- <-. intros Hnil.
  apply Hne, leibniz_equiv, elements_empty_iff. pose proof (sort_strings_perm (elements matched)) as Hp. rewrite Hnil in Hp.
  by apply Permutation_nil in Hp.
Qed.

(** C18. Exit code 0 means that nothing is missing: when [collect] succeeds the
    configuration loaded, at least one context was selected, and in every selected
    context every target found its profile and its kind, every namespace of the
    target was listed, every object listed under one of its names was extracted
    and has its row in the store, and the envelope of exactly the target's rows
    was accepted by the sink under the target's path (nothing is sent in a dry
    run), or is one of the records written to stdout. A forbidden namespace, an
    unknown kind, a failed extraction or a refused export all give another code. *)
Theorem success_exit_complete flags w e out w' :
  runCollect msg getenv now connect path_match write yaml_record json_indent dir cfg flags w = (ExitSuccess, e, out, w') →
  ∃ loaded contexts warnings spec format records,
    LoadConfig dir = Ok loaded ∧
    resolveContexts path_match cfg (fl_Context flags) = Ok (contexts, warnings) ∧ contexts ≠ [] ∧
    ResolveSink loaded (fl_Output flags) = Ok spec ∧
    (IsStdoutSink spec = true → WriteStdoutRecords write yaml_record json_indent format records [] = (Ok tt, out)) ∧
    ∀ ctx, ctx ∈ contexts →
      context_complete
        (mkLoadResult (Profiles loaded) (ApplyNamespaceOverride (Targets loaded) (fl_Namespace flags))
           (Sinks loaded) (ConfigSecrets loaded) (Warnings loaded))
        spec [] (fl_DryRun flags) records ctx.
Proof.
  unfold runCollect. case_decide; [done|]. case_decide; [done|]. destruct (ParseStdoutFormat _) as [format|]; [|done].
  destruct (_ && _); [done|]. destruct (_ && _); [done|]. unfold runCollectPipeline.
  destruct (LoadConfig dir) as [loaded|] eqn:Hload; [|done].
  destruct (resolveContexts _ _ _) as [[contexts warnings]|] eqn:Hctx; [|done].
  destruct (ResolveSink _ _) as [spec|] eqn:Hsink; [|done]. destruct (_ && _); [done|].
  destruct (ResolveSinkSecretData _ _ _) as [secretData|]; [|done].
  destruct (RunAllContexts _ _ _ _ _ _ _ _ _ _ _) as [results w1] eqn:Hall.
  destruct (if IsStdoutSink spec then _ else _) as [[[]|] out'] eqn:Hout; [|done]. intros Hend.
  assert (mapContextResultsToExit results = ExitSuccess ∧ out' = out) as [Hexit ->] by (injection Hend; done).
  exists loaded, contexts, warnings, spec, format, (results ≫= cr_Records).
  split_and!; [done|done|by eapply resolveContexts_nonempty|done|by intros Hs; rewrite Hs in Hout|].
  eapply RunAllContexts_complete; [exact Hall|]. intros r Hr. by eapply exit_zero_all.
Qed.
End success.

(** * Runs *)
Module PipelineDemo.
Import RunnerDemo.
#[local] Existing Instances demo_kube demo_extract ascii_only_case map_range_to_list sort_by_merge_sort demo_sha256.

#[local] Instance no_decode : JsonDecode := {| decode_envelope _ := None; decode_items _ := None; parse_rfc3339nano _ := None |}.

(** The files of an output directory. *)
#[local] Instance files : SinkClient (gmap string string) := {|
  sink_new _ _ _ := Ok tt;
  sink_export _ payload path w := (None, <[path := payload]> w);
|}.

(** A cluster that does not answer. *)
#[local] Obligation Tactic := idtac.

#[program] Definition unreachable : ClusterApi := {|
  RESTMapping n gvk := None;
  selector_text := app_text;
  list_namespaces n sel := Err (Leaf 1 "connection refused");
  list_objects n gvr ns sel := Err (Leaf 1 "connection refused");
  namespace_labels n ns := ∅;
|}.
Next Obligation. done. Qed.
Next Obligation. done. Qed.
Next Obligation. done. Qed.
Next Obligation. done. Qed.

Definition manifests (filter : CollectionFilterSpec) (names : list string) : list document :=
  [DocObject (ObjProfile profile); DocBlank; DocObject (ObjTarget (target filter None names)); DocNotRegistered "v9/Widget"].

Definition flags (contexts : list string) (ns : string) (dryRun : bool) : collectFlags :=
  mkFlags "conf" contexts "out" ns dryRun "ndjson" false "info".

Definition collect (connect : string → result err ClusterApi) (filter : CollectionFilterSpec) (names : list string)
    (f : collectFlags) : nat * option collect_error * list string * gmap string string :=
  runCollect msg (λ _, "") (λ _ _, 0%Z) connect (λ p name, Some (bool_decide (p = name))) (λ _ _, None)
    (λ _, None) id (Ok [mkDirEntry "all.yaml" false (Ok (manifests filter names))])
    (Ok (mkKubeconfig "east" {[ "east"; "west" ]})) f ∅.

Definition exit_code (r : nat * option collect_error * list string * gmap string string) : nat := r.1.1.1.
Definition written (r : nat * option collect_error * list string * gmap string string) : list string := (map_to_list r.2).*1.

Definition good : nat * option collect_error * list string * gmap string string :=
  collect (λ _, Ok cluster) no_filter ["web"; "db"] (flags [] "" false).

Example good_run : exit_code good = ExitSuccess ∧ written good = ["inventory/team/deps.yaml"].
Proof. split; vm_compute; reflexivity. Qed.

(** An object that fails extraction degrades the run. *)
Example degraded_run : exit_code (collect (λ _, Ok cluster) no_filter [] (flags [] "" false)) = ExitPartialFailure.
Proof. vm_compute. reflexivity. Qed.

(** With [--output] the path names no cluster: two contexts write one file, the
    second over the first, and the run succeeds. *)
Example contexts_share_path :
  let both := collect (λ _, Ok cluster) no_filter ["web"; "db"] (flags ["east"; "west"] "" false) in
  let west := collect (λ _, Ok cluster) no_filter ["web"; "db"] (flags ["west"] "" false) in
  exit_code both = ExitSuccess ∧ written both = ["inventory/team/deps.yaml"] ∧
  bool_decide (both.2 = west.2) = true ∧ bool_decide (both.2 = good.2) = false.
Proof. vm_compute. repeat split. Qed.

(** Without a reachable cluster every target is skipped and still exported, empty:
    the file is replaced by one without items and the code is that of a partial
    run. *)
Example unreachable_overwrites :
  let r := collect (λ _, Ok unreachable) no_filter [] (flags [] "" false) in
  exit_code r = ExitPartialFailure ∧ written r = ["inventory/team/deps.yaml"] ∧
  (∃ payload, r.2 !! "inventory/team/deps.yaml" = Some payload ∧
     MarshalExportEnvelope 0%Z [] (cluster_meta "east") = Ok payload).
Proof. split_and!; [vm_compute; reflexivity..|]. eexists. split; vm_compute; reflexivity. Qed.

(** A dry run exports nothing, so one failed extraction among collected objects
    gives the code of a run in which every target failed. *)
Example dry_run_fatal : exit_code (collect (λ _, Ok cluster) no_filter [] (flags [] "" true)) = ExitFatalError.
Proof. vm_compute. reflexivity. Qed.

(** [--namespace] does not override the excluded namespaces. *)
Example override_keeps_exclusion :
  let excluding := mkCollectionFilterSpec [] ["a"] None [] in
  bool_decide ((collect (λ _, Ok cluster) excluding ["web"] (flags [] "a" false)).2 =
               (collect (λ _, Ok cluster) (mkCollectionFilterSpec ["c"] [] None []) ["web"] (flags [] "" false)).2) = true.
Proof. vm_compute. reflexivity. Qed.

Lemma success_exit_complete_witness :
  ∃ loaded, LoadConfig (Ok [mkDirEntry "all.yaml" false (Ok (manifests no_filter ["web"; "db"]))]) = Ok loaded ∧
    context_complete msg (λ _, Ok cluster)
      (mkLoadResult (Profiles loaded) (ApplyNamespaceOverride (Targets loaded) "") (Sinks loaded) (ConfigSecrets loaded)
         (Warnings loaded))
      (bare_sink LocalSinkType "out") [] false [] "east".
Proof.
  destruct (success_exit_complete msg (λ _, "") (λ _ _, 0%Z) (λ _, Ok cluster) (λ p name, Some (bool_decide (p = name))) (λ _ _, None)
    (λ _, None) id (Ok [mkDirEntry "all.yaml" false (Ok (manifests no_filter ["web"; "db"]))])
    (Ok (mkKubeconfig "east" {[ "east"; "west" ]})) (flags [] "" false) ∅ None [] good.2)
    as (loaded & contexts & warnings & spec & format & records & Hl & Hc & _ & Hs & _ & Hall); [vm_compute; reflexivity|].
  exists loaded. split; [done|]. injection Hc as <- <-. pose proof Hl as Hl'. vm_compute in Hl'. injection Hl' as <-.
  vm_compute in Hs. injection Hs as <-.
  destruct (Hall "east") as (c & res & r & ? & ? & Htargets); [by left|]. exists c, res, r. split_and!; [done..|].
  intros t Ht. exact (Htargets t Ht).
Defined.
End PipelineDemo.
