(* ===== verification/Admission.v ===== *)
(** Admission: [src/internal/validation/{profile,collection_filter,layout,
    path_template,target,clustertarget,connectiontest,family_sink,sink_config,
    git,insecure_sinks}.go], the attribute path checks of
    [src/internal/collect/{validate,helmdecode}.go] they call, and the validating
    webhooks of [src/internal/webhook/v1alpha1] for profiles and targets.

    An admission error is its kind and its field path, as in [Intervals]. The CEL
    and JSONPath compilers are those of the extraction ([Extract.ExtractApi]) and
    of the collection filter ([Api.CelApi]). *)

From S2P Require Import Prelude GoStrings Values Store Api Filter Scope Scrub.
From S2P Require Import Prune Extract Engine Intervals GoTemplate SinkSpec ObjectPath Layout ClusterInventory.

Definition spec_path : list path_elem := [Child "spec"].
Definition under (path : list path_elem) (names : list string) : list path_elem := path ++ (Child <$> names).

(** * Attribute paths *)

(** Go: internal/collect/validate.go:13-16 [HasJSONPathFilter] *)
Definition HasJSONPathFilter (path : string) : bool := contains path "[?(".

(** Go: internal/collect/helmdecode.go:31-42 [helmReleaseFieldAliases] *)
Definition helmReleaseFieldAliases : list (string * string) :=
  [("releaseName", "name"); ("chartName", "chart.metadata.name"); ("chartVersion", "chart.metadata.version");
   ("appVersion", "chart.metadata.appVersion"); ("revision", "version"); ("status", "info.status");
   ("lastDeployed", "info.last_deployed"); ("namespace", "namespace"); ("config", "config")].

(** Go: internal/collect/helmdecode.go:44-52 [helmReleaseDeniedPaths] *)
Definition helmReleaseDeniedPaths : list string :=
  ["manifest"; "hooks"; "chart.templates"; "chart.files"; "chart.values"; "chart.raw"].

(** Go: internal/collect/helmdecode.go:169-175 [resolveHelmReleaseField] *)
Definition resolveHelmReleaseField (field : string) : string :=
  default field (assoc_get field helmReleaseFieldAliases).

(** Go: internal/collect/helmdecode.go:177-193 [validateHelmReleaseField] *)
Definition validateHelmReleaseField (field : string) : bool :=
  negb (bool_decide (field = "")) &&
  negb (list_contains helmReleaseDeniedPaths field) &&
  negb (existsb (λ denied, has_prefix (denied +:+ ".") field) helmReleaseDeniedPaths).

(** Go: internal/collect/helmdecode.go:211-221 [HelmReleasePathRequiresSecretOptIn] *)
Definition HelmReleasePathRequiresSecretOptIn (path : string) : bool :=
  let path := trim_space path in
  if negb (has_prefix HelmReleasePathPrefix path) then false
  else
    let field := resolveHelmReleaseField (trim_prefix HelmReleasePathPrefix path) in
    bool_decide (field = "config") || has_prefix "config." field.

(** Go: internal/collect/helmdecode.go:223-236 [ValidateHelmReleaseAttributePath] *)
Definition ValidateHelmReleaseAttributePath (path : string) : bool :=
  let path := trim_space path in
  has_prefix HelmReleasePathPrefix path &&
  (let field := trim_prefix HelmReleasePathPrefix path in
   negb (bool_decide (field = "")) && validateHelmReleaseField (resolveHelmReleaseField field)).

Section paths.
Context `{!ExtractApi}.

(** Whether the path is accepted.
    Go: internal/collect/validate.go:18-55 [ValidateAttributePath] *)
Definition ValidateAttributePath (path : string) : bool :=
  let path := trim_space path in
  if decide (path = "") then false
  else if negb (has_prefix celPrefix path) && (has_prefix "object." path || has_prefix "object[" path) then false
  else if has_prefix celPrefix path then is_ok (xcel_compile (trim_space (trim_prefix celPrefix path)))
  else if has_prefix HelmReleasePathPrefix path then ValidateHelmReleaseAttributePath path
  else is_ok (jp_parse (normalizeJSONPath path)).
End paths.

(** * Reading Secret data *)

(** The bytes before the first one that [stop] accepts. *)
Fixpoint before_any (stop : ascii → bool) (s : string) : string :=
  match s with
  | "" => ""
  | String c s => if stop c then "" else String c (before_any stop s)
  end.

(** [strings.FieldsFunc]: the maximal runs of bytes that are not separators;
    [run] is the run read so far. *)
Fixpoint fields_go (sep : ascii → bool) (run s : string) : list string :=
  match s with
  | "" => if decide (run = "") then [] else [run]
  | String c s =>
      if sep c then (if decide (run = "") then [] else [run]) ++ fields_go sep "" s
      else fields_go sep (run +:+ String c "") s
  end.

Definition cel_separator (c : ascii) : bool :=
  bool_decide (c ∈ ["."; "["; "]"; "("; ")"; " "; ascii_of_nat 9]%char).

(** Go: internal/validation/profile.go:419-441 [splitCELPath] *)
Definition splitCELPath (expr : string) : list string :=
  fields_go cel_separator "" (trim_prefix "." (trim_prefix "object" (trim_space expr))).

Section secrets.
Context `{!UnicodeCase}.

(** Go: internal/validation/profile.go:370-417 [pathTargetsSecretData] *)
Definition pathTargetsSecretData (path : string) : bool :=
  let path := trim_space path in
  if decide (path = "") then false
  else if has_prefix HelmReleasePathPrefix path then false
  else if has_prefix "cel:" path then existsb (λ seg, equal_fold seg "data") (splitCELPath (trim_prefix "cel:" path))
  else
    let rest := if has_prefix "$." path then trim_prefix "$." path else trim_prefix "$" path in
    let rest := trim_prefix "." rest in
    existsb (λ seg, let seg := trim_space seg in
                    negb (bool_decide (seg = "")) &&
                    equal_fold (before_any (λ c, bool_decide (c ∈ ["["; "("]%char)) seg) "data")
      (split_byte "." rest).

(** Go: internal/validation/profile.go:357-368 [pathRequiresSecretExtractionOptIn] *)
Definition pathRequiresSecretExtractionOptIn (path : string) : bool :=
  let path := trim_space path in
  if decide (path = "") then false
  else if has_prefix HelmReleasePathPrefix path then HelmReleasePathRequiresSecretOptIn path
  else pathTargetsSecretData path.
End secrets.

(** Go: internal/validation/profile.go:340-351 [isSecretTargetGVK] *)
Definition isSecretTargetGVK (gvk : GroupVersionKind) : bool :=
  bool_decide (gvk_Kind gvk = "Secret") && bool_decide (gvk_Group gvk = "" ∨ gvk_Group gvk = "core").

Definition AllowSecretExtractionAnnotation : string := "kollect.dev/allow-secret-extraction".
Definition AllowFullResourceExportAnnotation : string := "kollect.dev/allow-full-resource-export".

(** Go: internal/validation/profile.go:353-355 [allowSecretExtraction] *)
Definition allowSecretExtraction (annotations : labels) : bool :=
  bool_decide (map_get AllowSecretExtractionAnnotation annotations = "true").

(** Go: internal/validation/profile.go:155-157 [allowFullResourceExport] *)
Definition allowFullResourceExport (annotations : labels) : bool :=
  bool_decide (map_get AllowFullResourceExportAnnotation annotations = "true").

(** * Profiles *)

(** The escapes of a pointer, from the left. *)
Fixpoint pointer_escapes_ok (s : string) : bool :=
  match s with
  | "" => true
  | String c rest =>
      (if Ascii.eqb c "~" then
         match rest with String d _ => Ascii.eqb d "0" || Ascii.eqb d "1" | "" => false end
       else true) && pointer_escapes_ok rest
  end.

(** Go: internal/validation/profile.go:159-182 [validateRFC6901Pointer] *)
Definition validateRFC6901Pointer (pointer : string) : bool :=
  let pointer := trim_space pointer in
  negb (bool_decide (pointer = "")) && has_prefix "/" pointer && pointer_escapes_ok pointer.

Definition maxProfileMetricLabels : nat := 5.

Fixpoint validate_labels (path : list path_elem) (attrNames : gset string) (j : nat) (labels : list string) : ErrorList :=
  match labels with
  | [] => []
  | label :: labels =>
      (if decide (label = "") then [mkFieldError FieldRequired (path ++ [PathIndex j])]
       else if decide (label ∈ attrNames) then [] else [mkFieldError FieldInvalid (path ++ [PathIndex j])]) ++
      validate_labels path attrNames (S j) labels
  end.

Fixpoint validate_metrics (path : list path_elem) (attrNames names : gset string) (i : nat) (metrics : list MetricSpec) : ErrorList :=
  match metrics with
  | [] => []
  | metric :: metrics =>
      let idx := path ++ [PathIndex i] in
      let rest := validate_metrics path attrNames ({[metric_Name metric]} ∪ names) (S i) metrics in
      (if decide (metric_Name metric = "") then [mkFieldError FieldRequired (under idx ["name"])]
       else if decide (metric_Name metric ∈ names) then [mkFieldError FieldDuplicate (under idx ["name"])] else []) ++
      if decide (metric_Path metric = "") then mkFieldError FieldRequired (under idx ["path"]) :: rest
      else
        (if decide (metric_Path metric ∈ attrNames) then [] else [mkFieldError FieldInvalid (under idx ["path"])]) ++
        (if maxProfileMetricLabels <? length (metric_Labels metric) then [mkFieldError FieldTooMany (under idx ["labels"])] else []) ++
        validate_labels (under idx ["labels"]) attrNames 0 (metric_Labels metric) ++ rest
  end.

(** Go: internal/validation/profile.go:244-309 [validateProfileMetrics] *)
Definition validateProfileMetrics (path : list path_elem) (metrics : list MetricSpec) (attrNames : gset string) : ErrorList :=
  validate_metrics (under path ["metrics"]) attrNames ∅ 0 metrics.

Section profiles.
Context `{!ExtractApi, !UnicodeCase}.

Fixpoint validate_attributes (path : list path_elem) (names : gset string) (i : nat) (attrs : list AttributeSpec) : ErrorList :=
  match attrs with
  | [] => []
  | attr :: attrs =>
      let idx := path ++ [PathIndex i] in
      (if decide (attr_Name attr = "") then [mkFieldError FieldRequired (under idx ["name"])]
       else if decide (attr_Name attr ∈ names) then [mkFieldError FieldDuplicate (under idx ["name"])] else []) ++
      (if decide (attr_Path attr = "") then [mkFieldError FieldRequired (under idx ["path"])]
       else if ValidateAttributePath (attr_Path attr) then [] else [mkFieldError FieldInvalid (under idx ["path"])]) ++
      validate_attributes path ({[attr_Name attr]} ∪ names) (S i) attrs
  end.

(** Go: internal/validation/profile.go:184-240 [ValidateProfileSpec] *)
Definition ValidateProfileSpec (spec : KollectProfileSpec) : ErrorList :=
  let attrNames : gset string := list_to_set (filter (λ n, n ≠ "") (attr_Name <$> profile_Attributes spec)) in
  (if decide (gvk_Version (profile_TargetGVK spec) = "") then [mkFieldError FieldRequired (under spec_path ["targetGVK"; "version"])] else []) ++
  (if decide (gvk_Kind (profile_TargetGVK spec) = "") then [mkFieldError FieldRequired (under spec_path ["targetGVK"; "kind"])] else []) ++
  validate_attributes (under spec_path ["attributes"]) ∅ 0 (profile_Attributes spec) ++
  validateProfileMetrics spec_path (profile_Metrics spec) attrNames.

(** Go: internal/validation/profile.go:311-338 [validateSecretDataAccess] *)
Definition validateSecretDataAccess (annotations : labels) (spec : KollectProfileSpec) : ErrorList :=
  if negb (isSecretTargetGVK (profile_TargetGVK spec)) then []
  else if allowSecretExtraction annotations then []
  else
    concat (imap (λ i attr, if pathRequiresSecretExtractionOptIn (attr_Path attr)
                            then [mkFieldError FieldForbidden (under (under spec_path ["attributes"] ++ [PathIndex i]) ["path"])] else [])
      (profile_Attributes spec)).

(** Go: internal/validation/profile.go:129-153 [validateFullResourceExportSecret] *)
Definition validateFullResourceExportSecret (annotations : labels) (spec : KollectProfileSpec) (exportPath : list path_elem) : ErrorList :=
  if negb (ResourceExportEnabled (profile_Export spec)) then []
  else if negb (isSecretTargetGVK (profile_TargetGVK spec)) then []
  else if allowFullResourceExport annotations then []
  else [mkFieldError FieldForbidden (under exportPath ["mode"])].

(** Go: internal/validation/profile.go:83-127 [validateExport] *)
Definition validateExport (annotations : labels) (spec : KollectProfileSpec) : ErrorList :=
  match profile_Export spec with
  | None => []
  | Some export =>
      let exportPath := under spec_path ["export"] in
      let resourceMode := ResourceExportEnabled (Some export) in
      (if negb resourceMode && bool_decide (profile_Attributes spec = [])
       then [mkFieldError FieldRequired (under spec_path ["attributes"])] else []) ++
      (if resourceMode && existsb (λ attr, bool_decide (attr_Name attr = AttributeKey (Some export))) (profile_Attributes spec)
       then [mkFieldError FieldDuplicate (under exportPath ["as"])] else []) ++
      match export_Prune export with
      | None => []
      | Some prune =>
          concat (imap (λ i ptr, if validateRFC6901Pointer ptr then []
                                 else [mkFieldError FieldInvalid (under exportPath ["prune"; "jsonPointers"] ++ [PathIndex i])])
            (prune_JSONPointers prune))
      end ++
      validateFullResourceExportSecret annotations spec exportPath
  end.

(** Go: internal/validation/profile.go:74-81 [ValidateProfile] *)
Definition ValidateProfile (annotations : labels) (profile : KollectProfile) : ErrorList :=
  ValidateProfileSpec (profile_Spec profile) ++ validateSecretDataAccess annotations (profile_Spec profile) ++
  validateExport annotations (profile_Spec profile).

(** The admission warnings, without their texts. *)
Inductive profile_warning :=
  | WarnJSONPathFilter (attr path : string)
  | WarnPruneCEL (expr : string)
  | WarnPruneJSONPath (jp : string).

(** Go: internal/validation/profile.go:48-72 [exportWarnings] *)
Definition exportWarnings (export : option ExportSpec) : list profile_warning :=
  match export ≫= export_Prune with
  | None => []
  | Some prune =>
      (WarnPruneCEL <$> prune_CEL prune) ++
      (WarnPruneJSONPath <$> filter (λ jp, HasJSONPathFilter jp || contains jp "[*]" = true) (prune_JSONPaths prune))
  end.

(** Go: internal/validation/profile.go:27-46 [ProfileWarnings] *)
Definition ProfileWarnings (profile : KollectProfile) : list profile_warning :=
  ((λ attr, WarnJSONPathFilter (attr_Name attr) (attr_Path attr)) <$>
     filter (λ attr, HasJSONPathFilter (attr_Path attr) = true) (profile_Attributes (profile_Spec profile))) ++
  exportWarnings (profile_Export (profile_Spec profile)).
End profiles.

(** * Targets *)

Fixpoint unique_nonempty (seen : gset string) (path : list path_elem) (i : nat) (values : list string) : ErrorList :=
  match values with
  | [] => []
  | value :: values =>
      if decide (value = "" ∨ value ∈ seen) then mkFieldError FieldInvalid (path ++ [PathIndex i]) :: unique_nonempty seen path (S i) values
      else unique_nonempty ({[value]} ∪ seen) path (S i) values
  end.

(** Go: internal/validation/collection_filter.go:82-101 [validateUniqueNonEmptyStringsField] *)
Definition validateUniqueNonEmptyStringsField (values : list string) (path : list path_elem) : ErrorList :=
  unique_nonempty ∅ path 0 values.

Section filters.
Context `{!CelApi, !UnicodeCase}.

(** Whether the expression compiles.
    Go: internal/collect/validate.go:57-67 [ValidateMatchPolicyExpression] *)
Definition ValidateMatchPolicyExpression (expr : string) : bool := bool_decide (is_Some (compileMatchPolicy expr)).

Definition validate_rule (path : list path_elem) (rule : ResourceRule) : ErrorList :=
  (if decide (gvk_Version (rule_GVK rule) = "" ∨ gvk_Kind (rule_GVK rule) = "") then [mkFieldError FieldRequired (under path ["gvk"])] else []) ++
  (if decide (trim_space (rule_MatchPolicy rule) = "") then []
   else if ValidateMatchPolicyExpression (rule_MatchPolicy rule) then [] else [mkFieldError FieldInvalid (under path ["matchPolicy"])]).

(** Go: internal/validation/collection_filter.go:16-51 [ValidateCollectionFilterSpec] *)
Definition ValidateCollectionFilterSpec (flt : CollectionFilterSpec) (basePath : list path_elem) : ErrorList :=
  validateUniqueNonEmptyStringsField (IncludedNamespaces flt) (under basePath ["includedNamespaces"]) ++
  validateUniqueNonEmptyStringsField (ExcludedNamespaces flt) (under basePath ["excludedNamespaces"]) ++
  concat (imap (λ i rule, validate_rule (under basePath ["resourceRules"] ++ [PathIndex i]) rule) (ResourceRules flt)).

(** Go: internal/validation/target.go:14-25 [ValidateTargetSpec] *)
Definition ValidateTargetSpec (spec : KollectTargetSpec) : ErrorList :=
  validateSameNamespaceRef (target_ProfileRef spec) (under spec_path ["profileRef"]) ++
  ValidateCollectionFilterSpec (target_Filter spec) spec_path.

(** Go: internal/validation/collection_filter.go:53-80 [ValidateScopeCeilingSpec] *)
Definition ValidateScopeCeilingSpec (spec : ScopeCeilingSpec) (basePath : list path_elem) : ErrorList :=
  concat (imap (λ i gvk, if decide (gvk_Version gvk = "" ∨ gvk_Kind gvk = "")
                         then [mkFieldError FieldRequired (under basePath ["allowedGVKs"] ++ [PathIndex i])] else []) (AllowedGVKs spec)) ++
  validateUniqueNonEmptyStringsField (AllowedNamespaces spec) (under basePath ["allowedNamespaces"]) ++
  validateUniqueNonEmptyStringsField (DeniedNamespaces spec) (under basePath ["deniedNamespaces"]) ++
  ValidateOptionalDurationInterval (MinExportInterval spec) (under basePath ["minExportInterval"]).

(** ** The webhook of targets *)

Inductive target_refusal :=
  | TargetInvalid (errs : ErrorList)
  | WatchModeInvalid
  | ScopeRefused (v : violation)
  | LoadProfileFailed.

(** A read of the profile: found, not found, or another error. *)
Abbreviation profile_read := (option (option KollectProfile)) (only parsing).

Definition lift_violation (c : check) : result target_refusal unit := lift_err ScopeRefused c.

(** [listed] are the scopes of the target's namespace, [None] when listing them
    fails; [profile] is the read of the target's profile.
    Go: internal/webhook/v1alpha1/kollecttarget_webhook.go:69-111 [validateScope] *)
Definition validateScope (listed : option (list KollectScope)) (profile : profile_read) (target : KollectTarget) :
    result target_refusal unit :=
  binding ← lift_err ScopeRefused (Load listed);
  if negb (Enforced binding) then Ok tt
  else
    match profile with
    | None => Err LoadProfileFailed
    | Some found =>
        let flt := target_Filter (target_Spec target) in
        let gvk := match found with Some p => profile_TargetGVK (profile_Spec p) | None => mkGVK "" "" "" end in
        (if bool_decide (is_Some found) || (0 <? length (ResourceRules flt))
         then lift_violation (ValidateResourceRuleGVKs (binding_Scope binding) (CollectRuleGVKs flt gvk)) else Ok tt);;
        let intentNS := NormalizeNamespaceList (IncludedNamespaces flt) in
        if bool_decide (intentNS = []) && bool_decide (is_Some (target_NamespaceSelector (target_Spec target)))
        then lift_violation (ValidateDeniedNamespaces (binding_Scope binding) intentNS)
        else
          lift_violation (ValidateTargetIncludedNamespaces (binding_Scope binding) intentNS);;
          lift_violation (ValidateDeniedNamespaces (binding_Scope binding) intentNS)
    end.

(** Go: internal/webhook/v1alpha1/kollecttarget_webhook.go:51-67 [validate] *)
Definition target_validate (listed : option (list KollectScope)) (profile : profile_read) (target : KollectTarget) :
    result target_refusal unit :=
  match ValidateTargetSpec (target_Spec target) with
  | (_ :: _) as errs => Err (TargetInvalid errs)
  | [] =>
      if decide (target_WatchMode (target_Spec target) ∉ [""; WatchModeAll; WatchModeOptIn]) then Err WatchModeInvalid
      else validateScope listed profile target
  end.

(** [deleting] says whether the new object carries a deletion timestamp, which
    this webhook does not ask.
    Go: internal/webhook/v1alpha1/kollecttarget_webhook.go:43-49 [ValidateUpdate] *)
Definition target_ValidateUpdate (listed : option (list KollectScope)) (profile : profile_read) (deleting : bool)
    (target : KollectTarget) : result target_refusal unit := target_validate listed profile target.
End filters.

(** The webhook of profiles: the refusal or the warnings.
    Go: internal/webhook/v1alpha1/kollectprofile_webhook.go:51-58 [validate] *)
Definition profile_validate `{!ExtractApi, !UnicodeCase} (annotations : labels) (profile : KollectProfile) :
    result ErrorList (list profile_warning) :=
  match ValidateProfile annotations profile with
  | [] => Ok (ProfileWarnings profile)
  | errs => Err errs
  end.

(** Go: internal/webhook/v1alpha1/kollectprofile_webhook.go:39-49 [ValidateUpdate] *)
Definition profile_ValidateUpdate `{!ExtractApi, !UnicodeCase} (deleting : bool) (annotations : labels) (profile : KollectProfile) :
    result ErrorList (list profile_warning) :=
  if deleting then Ok [] else profile_validate annotations profile.

(** * Sinks *)

Section sinks.
Context `{!UnicodeCase}.

(** [if value != "" { switch value { case allowed...: default: error } }]. *)
Definition optional_enum (value : string) (allowed : list string) (path : list path_elem) : ErrorList :=
  if decide (value = "" ∨ value ∈ allowed) then [] else [mkFieldError FieldNotSupported path].

(** The copy of the layout package's check.
    Go: internal/validation/layout.go:116-139 [validateLayoutPathTemplate] *)
Definition validateLayoutPathTemplate (template : string) : bool :=
  let template := trim_space template in
  if decide (template = "") then true
  else if contains template ".." then false
  else if negb (forallb (list_contains ["cluster"; "namespace"; "name"; "targetNamespace"; "targetName"; "sourceNamespace";
                                        "sourceName"; "group"; "kind"; "uid"; "generation"; "extension"])
                  (placeholders is_letter template)) then false
  else contains template "{sourceName}" || contains template "{name}" || contains template "{uid}".

(** The copy of the object store's check.
    Go: internal/validation/path_template.go:21-41 [ValidatePathTemplate] *)
Definition admission_ValidatePathTemplate (template : string) : bool :=
  let template := trim_space template in
  if decide (template = "") then true
  else if negb (is_ok (RejectTraversal template)) then false
  else if negb (contains template "{namespace}") || negb (contains template "{name}") then false
  else forallb (list_contains ["cluster"; "namespace"; "name"; "generation"; "extension"]) (placeholders is_lower template).

(** Go: internal/validation/layout.go:25-95 [ValidateLayoutSpec] *)
Definition ValidateLayoutSpec (l : option LayoutSpec) (path : list path_elem) : ErrorList :=
  match l with
  | None => []
  | Some l =>
      optional_enum (layout_Mode l) [LayoutModeDocument; LayoutModePerResource; LayoutModeSplit] (under path ["mode"]) ++
      optional_enum (layout_Content l) [LayoutContentItem; LayoutContentAttributes; LayoutContentManifest] (under path ["content"]) ++
      (if validateLayoutPathTemplate (layout_PathTemplate l) then [] else [mkFieldError FieldInvalid (under path ["pathTemplate"])]) ++
      match layout_Index l with
      | None => []
      | Some ix => if admission_ValidatePathTemplate (index_PathTemplate ix) then []
                   else [mkFieldError FieldInvalid (under path ["index"; "pathTemplate"])]
      end ++
      match layout_Filename l with
      | None => []
      | Some f =>
          optional_enum (fn_GroupInPath f) [LayoutGroupInPathAuto; LayoutGroupInPathAlways; LayoutGroupInPathNever]
            (under path ["filename"; "groupInPath"]) ++
          match fn_MaxSegmentLength f with
          | Some n => if decide (n < 1)%Z then [mkFieldError FieldInvalid (under path ["filename"; "maxSegmentLength"])] else []
          | None => []
          end
      end
  end.

Definition SerializationFormatParquet : string := "parquet".
Definition SerializationFormatCSV : string := "csv".

(** Go: api/v1alpha1/sink_common_types.go:92-104 [SerializationSpec] *)
Record SerializationSpec := mkSerializationSpec { ser_Format : string; ser_Compression : string }.

(** The naming template is empty when there is no naming block.
    Go: api/v1alpha1/sink_common_types.go:106-117 [ProvisioningSpec] *)
Record ProvisioningSpec := mkProvisioningSpec { prov_Mode : string; prov_NamingTemplate : string }.

(** Go: internal/validation/sink_config.go:32-66 [validateSerializationSpec] *)
Definition validateSerializationSpec (spec : option SerializationSpec) (path : list path_elem) : ErrorList :=
  match spec with
  | None => []
  | Some spec =>
      (if decide (ser_Format spec = "" ∨ to_lower (trim_space (ser_Format spec)) ∈
                   [SerializationFormatJSON; SerializationFormatYAML; SerializationFormatParquet; SerializationFormatCSV;
                    SerializationFormatNDJSON])
       then [] else [mkFieldError FieldNotSupported (under path ["format"])]) ++
      (if decide (ser_Compression spec = "" ∨ to_lower (trim_space (ser_Compression spec)) ∈ ["none"; "gzip"; "snappy"; "zstd"])
       then [] else [mkFieldError FieldNotSupported (under path ["compression"])])
  end.

(** Go: internal/validation/sink_config.go:68-93 [validateProvisioningSpec] *)
Definition validateProvisioningSpec (spec : option ProvisioningSpec) (path : list path_elem) : ErrorList :=
  match spec with
  | None => []
  | Some spec =>
      (if decide (prov_Mode spec = "" ∨ to_lower (trim_space (prov_Mode spec)) ∈ ["ensure"; "existing"])
       then [] else [mkFieldError FieldNotSupported (under path ["mode"])]) ++
      (if decide (trim_space (prov_NamingTemplate spec) = "") then []
       else if admission_ValidatePathTemplate (prov_NamingTemplate spec) then []
       else [mkFieldError FieldInvalid (under path ["naming"; "template"])])
  end.

Definition secretLikeOptionKey : list string :=
  ["password"; "passwd"; "secret"; "token"; "apikey"; "api_key"; "accesskey"; "access_key"; "secretkey"; "secret_key";
   "privatekey"; "private_key"; "credential"; "credentials"].

(** Go: internal/validation/sink_config.go:95-114 [ValidateOptionsMap] *)
Definition ValidateOptionsMap `{!MapRange} (options : gmap string string) (path : list path_elem) : ErrorList :=
  concat ((λ kv, let lower := to_lower (trim_space kv.1) in
                 if existsb (contains lower) secretLikeOptionKey then [mkFieldError FieldForbidden (under path [kv.1])] else [])
          <$> map_range options).

(** Go: internal/validation/sink_config.go:133-159 [supportedFormatsForType] *)
Definition supportedFormatsForType (sinkType : string) : list string :=
  if decide (sinkType ∈ ["git"; "gitlab"]) then [SerializationFormatJSON; SerializationFormatYAML; SerializationFormatNDJSON]
  else if decide (sinkType ∈ ["s3"; "gcs"; "azureblob"]) then [SerializationFormatJSON; SerializationFormatParquet; SerializationFormatCSV]
  else if decide (sinkType = "http") then [SerializationFormatJSON; SerializationFormatNDJSON]
  else [SerializationFormatJSON].

(** Go: internal/validation/sink_config.go:116-131 [ValidateSinkFormatCapability] *)
Definition ValidateSinkFormatCapability (sinkType format : string) (path : list path_elem) : ErrorList :=
  let format := to_lower (trim_space format) in
  if decide (format = "" ∨ format = SerializationFormatJSON) then []
  else if list_contains (supportedFormatsForType sinkType) format then []
  else [mkFieldError FieldNotSupported path].

(** Go: internal/validation/family_sink.go:198-204 [validateFormatCapability] *)
Definition validateFormatCapability (sinkType : string) (serialization : option SerializationSpec) : ErrorList :=
  match serialization with
  | None => []
  | Some s => if decide (ser_Format s = "") then []
              else ValidateSinkFormatCapability sinkType (ser_Format s) (under spec_path ["serialization"; "format"])
  end.

(** Go: internal/validation/family_sink.go:171-181 [validateFamilyType] *)
Definition validateFamilyType (sinkType : string) (validTypes : list string) : ErrorList :=
  let sinkType := trim_space sinkType in
  if decide (sinkType = "") then [mkFieldError FieldRequired (under spec_path ["type"])]
  else if list_contains validTypes sinkType then [] else [mkFieldError FieldNotSupported (under spec_path ["type"])].

(** Go: internal/validation/family_sink.go:65-78 [validateDeletionPolicy] *)
Definition validateDeletionPolicy (policy : string) (path : list path_elem) : ErrorList :=
  optional_enum policy [DeletionPolicyRetain; DeletionPolicyDelete] path.

(** Go: internal/validation/family_sink.go:80-85 [forbidLayout] *)
Definition forbidLayout (layout : option LayoutSpec) (path : list path_elem) : ErrorList :=
  match layout with None => [] | Some _ => [mkFieldError FieldForbidden path] end.

(** A block is its path and whether it is set.
    Go: internal/validation/family_sink.go:206-214 [forbidBlocks] *)
Definition forbidBlocks (blocks : list (string * bool)) : ErrorList :=
  concat ((λ b : string * bool, if b.2 then [mkFieldError FieldForbidden (under spec_path [b.1])] else []) <$> blocks).

(** Go: internal/validation/family_sink.go:216-221 [requireBlock] *)
Definition requireBlock (set : bool) (name : string) : ErrorList :=
  if set then [] else [mkFieldError FieldRequired (under spec_path [name])].

(** Go: internal/validation/insecure_sinks.go:57-72 [ValidateInsecureSkipVerify] *)
Definition ValidateInsecureSkipVerify (allowInsecureSinks insecureSkipVerify : bool) (path : list path_elem) : ErrorList :=
  if negb insecureSkipVerify then []
  else if allowInsecureSinks then [] else [mkFieldError FieldForbidden (under path ["insecureSkipVerify"])].

(** Whether a constructor refuses the spec.
    Go: internal/validation/insecure_sinks.go:46-55 [CheckInsecureSkipVerify] *)
Definition CheckInsecureSkipVerify (allowInsecureSinks insecureSkipVerify : bool) : bool :=
  insecureSkipVerify && negb allowInsecureSinks.

(** The fields every family shares; [scf_InsecureSkipVerify] is that of the TLS
    block, false when there is none.
    Go: api/v1alpha1/sink_common_types.go:40-90 [SinkCommonFields] *)
Record SinkCommonFields := mkSinkCommonFields {
  scf_PathTemplate : string;
  scf_ExportMinInterval : option Z;
  scf_InsecureSkipVerify : bool;
  scf_Serialization : option SerializationSpec;
  scf_Provisioning : option ProvisioningSpec;
  scf_Layout : option LayoutSpec;
  scf_Options : gmap string string;
}.

(** Go: internal/validation/sink_config.go:20-30 [ValidateSinkCommonConfig] *)
Definition ValidateSinkCommonConfig (common : SinkCommonFields) : ErrorList :=
  validateSerializationSpec (scf_Serialization common) (under spec_path ["serialization"]) ++
  validateProvisioningSpec (scf_Provisioning common) (under spec_path ["provisioning"]).

(** Go: internal/validation/family_sink.go:183-196 [validateCommonSinkFields] *)
Definition validateCommonSinkFields `{!MapRange} (allowInsecureSinks : bool) (fields : SinkCommonFields) : ErrorList :=
  (if admission_ValidatePathTemplate (scf_PathTemplate fields) then [] else [mkFieldError FieldInvalid (under spec_path ["pathTemplate"])]) ++
  ValidateOptionalDurationInterval (scf_ExportMinInterval fields) (under spec_path ["exportMinInterval"]) ++
  ValidateInsecureSkipVerify allowInsecureSinks (scf_InsecureSkipVerify fields) (under spec_path ["tls"]) ++
  ValidateSinkCommonConfig fields ++
  ValidateOptionsMap (scf_Options fields) (under spec_path ["options"]).

(** The blocks of a spec that are set. *)
Record sink_blocks := mkSinkBlocks {
  has_git : bool; has_gitlab : bool; has_objectStore : bool; has_http : bool;
  has_postgres : bool; has_bigquery : bool; has_mongodb : bool; has_nats : bool; has_kafka : bool;
}.

(** A family sink's spec: its type, the shared fields, the blocks set and, of the
    snapshot family, the deletion policy. [fs_Guards] are the errors of the
    endpoint guards and [fs_Block] those of the type's own block. *)
Record FamilySink := mkFamilySink {
  fs_Type : string;
  fs_Common : SinkCommonFields;
  fs_Blocks : sink_blocks;
  fs_DeletionPolicy : string;
  fs_Guards : ErrorList;
  fs_Block : ErrorList;
}.

Section families.
Context `{!MapRange}.
Context (allowInsecureSinks : bool).

(** Go: internal/validation/family_sink.go:35-63 [ValidateSnapshotSinkSpec] *)
Definition ValidateSnapshotSinkSpec (spec : FamilySink) : ErrorList :=
  match validateFamilyType (fs_Type spec) ["git"; "gitlab"; "s3"; "gcs"] with
  | (_ :: _) as errs => errs
  | [] =>
      let b := fs_Blocks spec in
      let layout := scf_Layout (fs_Common spec) in
      let layoutPath := under spec_path ["layout"] in
      validateCommonSinkFields allowInsecureSinks (fs_Common spec) ++
      validateFormatCapability (fs_Type spec) (scf_Serialization (fs_Common spec)) ++
      fs_Guards spec ++
      validateDeletionPolicy (fs_DeletionPolicy spec) (under spec_path ["deletionPolicy"]) ++
      if decide (fs_Type spec = "git") then
        requireBlock (has_git b) "git" ++
        forbidBlocks [("gitlab", has_gitlab b); ("objectStore", has_objectStore b); ("http", has_http b)] ++
        fs_Block spec ++ ValidateLayoutSpec layout layoutPath
      else if decide (fs_Type spec = "gitlab") then
        forbidBlocks [("git", has_git b); ("objectStore", has_objectStore b); ("http", has_http b)] ++
        ValidateLayoutSpec layout layoutPath
      else if decide (fs_Type spec = "s3" ∨ fs_Type spec = "gcs") then
        forbidBlocks [("git", has_git b); ("gitlab", has_gitlab b); ("http", has_http b)] ++ forbidLayout layout layoutPath
      else []
  end.

(** Go: internal/validation/family_sink.go:87-121 [ValidateDatabaseSinkSpec] *)
Definition ValidateDatabaseSinkSpec (spec : FamilySink) : ErrorList :=
  match validateFamilyType (fs_Type spec) ["postgres"; "bigquery"; "mongodb"] with
  | (_ :: _) as errs => errs
  | [] =>
      let b := fs_Blocks spec in
      validateCommonSinkFields allowInsecureSinks (fs_Common spec) ++
      validateFormatCapability (fs_Type spec) (scf_Serialization (fs_Common spec)) ++
      forbidLayout (scf_Layout (fs_Common spec)) (under spec_path ["layout"]) ++
      if decide (fs_Type spec = "postgres") then
        requireBlock (has_postgres b) "postgres" ++ forbidBlocks [("bigquery", has_bigquery b); ("mongodb", has_mongodb b)]
      else if decide (fs_Type spec = "mongodb") then
        requireBlock (has_mongodb b) "mongodb" ++ forbidBlocks [("postgres", has_postgres b); ("bigquery", has_bigquery b)]
      else if decide (fs_Type spec = "bigquery") then
        requireBlock (has_bigquery b) "bigquery" ++ forbidBlocks [("postgres", has_postgres b); ("mongodb", has_mongodb b)] ++
        fs_Block spec
      else []
  end.

(** Go: internal/validation/family_sink.go:147-169 [ValidateEventSinkSpec] *)
Definition ValidateEventSinkSpec (spec : FamilySink) : ErrorList :=
  match validateFamilyType (fs_Type spec) ["nats"; "kafka"] with
  | (_ :: _) as errs => errs
  | [] =>
      let b := fs_Blocks spec in
      validateCommonSinkFields allowInsecureSinks (fs_Common spec) ++
      validateFormatCapability (fs_Type spec) (scf_Serialization (fs_Common spec)) ++
      forbidLayout (scf_Layout (fs_Common spec)) (under spec_path ["layout"]) ++
      fs_Guards spec ++
      if decide (fs_Type spec = "nats") then requireBlock (has_nats b) "nats" ++ forbidBlocks [("kafka", has_kafka b)]
      else if decide (fs_Type spec = "kafka") then requireBlock (has_kafka b) "kafka" ++ forbidBlocks [("nats", has_nats b)]
      else []
  end.
End families.
End sinks.

(** * What admission promises *)

Lemma for_each_is_ok {E A} (f : A → result E unit) (p : A → bool) l :
  (∀ x, is_ok (f x) = p x) → is_ok (for_each f l) = forallb p l.
Proof.
  intros Hf. induction l as [|x l IH]; [done|]. cbn [for_each forallb]. rewrite <-Hf, <-IH. by destruct (f x) as [[]|].
Qed.

(** The two copies of the template checks accept what the sinks accept. *)
Lemma path_template_agrees template : admission_ValidatePathTemplate template = is_ok (ValidatePathTemplate template).
Proof.
  unfold admission_ValidatePathTemplate, ValidatePathTemplate. case_decide; [done|].
  destruct (RejectTraversal _) as [[]|]; [|done]. cbn [is_ok negb mbind result_bind]. destruct (_ || _); [done|].
  symmetry. apply for_each_is_ok. intros p. unfold list_contains. by case_decide; [rewrite bool_decide_eq_true_2|rewrite bool_decide_eq_false_2].
Qed.

Lemma layout_template_agrees template : validateLayoutPathTemplate template = is_ok (ValidateLayoutPathTemplate template).
Proof.
  unfold validateLayoutPathTemplate, ValidateLayoutPathTemplate. case_decide; [done|]. destruct (contains _ ".."); [done|].
  set (f := λ p : string, if decide (p ∈ LayoutPlaceholders) then Ok tt else Err (ErrTemplatePlaceholder p)).
  assert (is_ok (for_each f (placeholders is_letter (trim_space template))) =
    forallb (list_contains LayoutPlaceholders) (placeholders is_letter (trim_space template))) as Hf.
  { apply for_each_is_ok. intros p. unfold f, list_contains. by case_decide; [rewrite bool_decide_eq_true_2|rewrite bool_decide_eq_false_2]. }
  fold LayoutPlaceholders. rewrite <-Hf. destruct (for_each f _) as [[]|]; [|done]. cbn [is_ok negb mbind result_bind].
  by destruct (contains _ "{sourceName}"), (contains _ "{name}"), (contains _ "{uid}").
Qed.

(** ** Profiles *)

Lemma last_contribution_absent `{!ExtractApi} u name attrs init :
  name ∉ attr_Name <$> attrs → last_contribution u name attrs init = init.
Proof.
  revert init. induction attrs as [|a attrs IH]; intros init; [done|]. cbn [fmap list_fmap last_contribution].
  intros [Hn Ha]%not_elem_of_cons. rewrite decide_False by done. by apply IH.
Qed.

Lemma last_contribution_unique `{!ExtractApi} u attrs attr init :
  NoDup (attr_Name <$> attrs) → attr ∈ attrs → init = None →
  last_contribution u (attr_Name attr) attrs init = contribution u attr.
Proof.
  intros Hnd Hin ->. induction attrs as [|a attrs IH]; [by apply not_elem_of_nil in Hin|].
  cbn [fmap list_fmap last_contribution] in *. apply NoDup_cons in Hnd as [Ha Hnd]. apply elem_of_cons in Hin as [->|Hin].
  - rewrite decide_True by done. rewrite last_contribution_absent by done. by destruct (contribution u a).
  - rewrite decide_False; [by apply IH|]. intros Heq. apply Ha. rewrite Heq. by apply list_elem_of_fmap_2.
Qed.

Section admitted.
Context `{!ExtractApi, !UnicodeCase}.

(** Attributes without an error have distinct names that are not empty, and
    paths that compile. *)
Lemma validate_attributes_ok path names i attrs :
  validate_attributes path names i attrs = [] →
  NoDup (attr_Name <$> attrs) ∧
  Forall (λ a, attr_Name a ≠ "" ∧ attr_Name a ∉ names ∧ ValidateAttributePath (attr_Path a) = true) attrs.
Proof.
  revert names i. induction attrs as [|a attrs IH]; intros names i; cbn [validate_attributes fmap list_fmap].
  { intros _. split; constructor. }
  intros [Hn [Hp Hrest]%app_nil]%app_nil. apply IH in Hrest as [Hnd Hall].
  destruct (decide (attr_Name a = "")) as [|Hne]; [done|]. destruct (decide (attr_Name a ∈ names)) as [|Hni]; [done|].
  destruct (decide (attr_Path a = "")); [done|]. destruct (ValidateAttributePath _) eqn:Hv; [|done].
  rewrite Forall_forall in Hall. split.
  - apply NoDup_cons. split; [|done]. intros (b & Hb & Hin)%list_elem_of_fmap. destruct (Hall b Hin) as (_ & Hnot & _).
    apply Hnot. set_solver.
  - apply Forall_cons. split; [done|]. apply Forall_forall. intros b Hin. destruct (Hall b Hin) as (? & Hnot & ?).
    split_and!; [done|set_solver|done].
Qed.

Lemma validate_labels_ok path attrNames j labels :
  validate_labels path attrNames j labels = [] → Forall (λ l, l ∈ attrNames) labels.
Proof.
  revert j. induction labels as [|l labels IH]; intros j; cbn [validate_labels]; [constructor|].
  intros [Hl Hrest]%app_nil. destruct (decide (l = "")); [done|]. destruct (decide (l ∈ attrNames)); [|done].
  constructor; [done|by eapply IH].
Qed.

Lemma validate_metrics_ok path attrNames names i metrics :
  validate_metrics path attrNames names i metrics = [] →
  Forall (λ m, metric_Path m ∈ attrNames ∧ Forall (λ l, l ∈ attrNames) (metric_Labels m) ∧
               length (metric_Labels m) ≤ maxProfileMetricLabels) metrics.
Proof.
  revert names i. induction metrics as [|m metrics IH]; intros names i; cbn [validate_metrics]; [constructor|].
  intros [_ Hm]%app_nil. destruct (decide (metric_Path m = "")); [done|].
  apply app_nil in Hm as [Hp [Hc [Hl Hrest]%app_nil]%app_nil].
  destruct (decide (metric_Path m ∈ attrNames)); [|done]. destruct (maxProfileMetricLabels <? _) eqn:Hlen; [done|].
  apply Nat.ltb_ge in Hlen. apply validate_labels_ok in Hl. constructor; [done|by eapply IH].
Qed.

(** A path admission accepts has no error left but those of its evaluation. *)
Lemma admitted_path_errors obj path e :
  is_ok (xcel_compile "") = false → ValidateAttributePath path = true → extractOne obj path = Err e →
  (∃ c, e = ErrEvalCEL c) ∨ (∃ c, e = ErrEvalJSONPath c) ∨ (∃ m, e = ErrHelm m).
Proof.
  intros Hempty. unfold ValidateAttributePath, extractOne. destruct (decide (trim_space path = "")); [done|].
  destruct (has_prefix celPrefix (trim_space path)) eqn:Hcel; cbn [negb andb].
  - unfold evalCEL. set (expr := trim_space (trim_prefix celPrefix (trim_space path))).
    destruct (decide (expr = "")) as [->|]; [congruence|]. destruct (xcel_compile expr); [|done].
    intros _. destruct (xcel_eval _ _); [done|]. intros [= <-]. eauto.
  - destruct (has_prefix "object." _ || has_prefix "object[" _); [done|].
    destruct (has_prefix HelmReleasePathPrefix _).
    + intros _. destruct (extractHelmReleaseField _ _); [done|]. intros [= <-]. eauto.
    + unfold evalJSONPath. destruct (jp_parse _) as [jp|]; [|done]. intros _. destruct (jp_find jp obj) as [[|[|v [|v' vs]] rest]|msg].
      1-4: done. destruct (isJSONPathNotFound msg); [done|]. intros [= <-]. eauto.
Qed.
End admitted.

Section rows.
Context `{!KubeApi, !CelApi, !MapRange, !UnicodeCase, !ExtractApi}.
Import Engine.

(** C20. An admitted profile collects what it declares: when admission has no error,
    extracting an attribute can fail only in its evaluation on the object (never
    because its path is empty or does not compile), and in the row the engine builds
    every attribute holds its own scrubbed value under its own name, in resource
    mode next to the pruned object under the export key, which takes no
    attribute's place; every metric and every metric label names a declared
    attribute. *)
Theorem admitted_profile_rows annotations profile :
  is_ok (xcel_compile "") = false → ValidateProfile annotations profile = [] →
  let spec := profile_Spec profile in
  (∀ attr obj e, attr ∈ profile_Attributes spec → extractOne obj (attr_Path attr) = Err e →
     (∃ c, e = ErrEvalCEL c) ∨ (∃ c, e = ErrEvalJSONPath c) ∨ (∃ m, e = ErrHelm m)) ∧
  (∀ st u attrs e, st_profile st = profile → Extract u (profile_Attributes spec) = Ok attrs →
     let row := default [] (Attributes (item_of st u attrs e)) in
     (∀ attr, attr ∈ profile_Attributes spec →
        assoc_get (attr_Name attr) row = Scrub (scrubberForProfile profile e) <$> contribution u attr) ∧
     (∀ export, profile_Export spec = Some export → ResourceExportEnabled (Some export) = true →
        assoc_get (AttributeKey (Some export)) row =
          Some (VMap (PruneResource u export (Some (scrubberForProfile profile e)))))) ∧
  Forall (λ m, metric_Path m ∈ attr_Name <$> profile_Attributes spec ∧
               Forall (λ l, l ∈ attr_Name <$> profile_Attributes spec) (metric_Labels m)) (profile_Metrics spec).
Proof.
  intros Hempty [Hspec [_ Hexp]%app_nil]%app_nil spec.
  apply app_nil in Hspec as [_ [_ [Hattrs Hmetrics]%app_nil]%app_nil].
  apply validate_attributes_ok in Hattrs as [Hnd Hall]. rewrite Forall_forall in Hall. split_and!.
  - intros attr obj e Hin. destruct (Hall attr Hin) as (_ & _ & Hp). by apply admitted_path_errors.
  - intros st u attrs e <- Hx. unfold item_of. cbn [Attributes default from_option id]. fold spec.
    set (s := scrubberForProfile (st_profile st) e).
    assert (∀ attr, attr ∈ profile_Attributes spec →
      assoc_get (attr_Name attr) (ScrubAttributes s attrs) = Scrub s <$> contribution u attr) as Hget.
    { intros attr Hin. pose proof (extract_all_or_nothing u (profile_Attributes spec)) as Hex. rewrite Hx in Hex.
      destruct Hex as [_ Hex]. unfold ScrubAttributes. rewrite (assoc_get_map (λ _, Scrub s)), Hex. f_equal.
      by apply last_contribution_unique. }
    destruct (profile_Export spec) as [export|] eqn:He; [|by split].
    unfold validateExport in Hexp. fold spec in Hexp. rewrite He in Hexp. apply app_nil in Hexp as [_ [Has _]%app_nil].
    destruct (ResourceExportEnabled (Some export)) eqn:Hmode.
    + cbn [andb] in Has. destruct (existsb _ _) eqn:Hdup; [done|]. split.
      * intros attr Hin. rewrite assoc_get_set_ne; [by apply Hget|]. intros Heq. apply not_true_iff_false in Hdup. apply Hdup.
        apply existsb_exists. exists attr. split; [by apply list_elem_of_In|]. by apply bool_decide_eq_true.
      * intros export' [= <-] _. apply assoc_get_set.
    + split; [done|]. intros export' [= <-]. congruence.
  - eapply Forall_impl; [by eapply validate_metrics_ok|]. intros m (Hp & Hl & _).
    assert (∀ x, x ∈ (list_to_set (filter (λ n, n ≠ "") (attr_Name <$> profile_Attributes spec)) : gset string) →
      x ∈ attr_Name <$> profile_Attributes spec) as Hsub.
    { intros x Hx%elem_of_list_to_set. by apply list_elem_of_filter in Hx as [_ ?]. }
    split; [by apply Hsub|]. eapply Forall_impl; [exact Hl|]. exact Hsub.
Qed.
End rows.

(** ** Sinks *)
Section admitted_sinks.
Context `{!UnicodeCase, !MapRange}.

Lemma layout_spec_template l path :
  ValidateLayoutSpec (Some l) path = [] → is_ok (ValidateLayoutPathTemplate (layout_PathTemplate l)) = true.
Proof.
  intros [_ [_ [Hl _]%app_nil]%app_nil]%app_nil. rewrite <-layout_template_agrees. by destruct (validateLayoutPathTemplate _).
Qed.

(** An admitted snapshot sink passes the checks its export makes again: the path
    template, the layout's template (a layout only for git and gitlab), and the
    refusal of disabled verification. *)
Lemma admitted_snapshot_sink allow spec :
  ValidateSnapshotSinkSpec allow spec = [] →
  let common := fs_Common spec in
  is_ok (ValidatePathTemplate (scf_PathTemplate common)) = true ∧
  CheckInsecureSkipVerify allow (scf_InsecureSkipVerify common) = false ∧
  (∀ l, scf_Layout common = Some l → fs_Type spec ∈ ["git"; "gitlab"; "s3"; "gcs"] →
     fs_Type spec ∈ ["git"; "gitlab"] ∧ is_ok (ValidateLayoutPathTemplate (layout_PathTemplate l)) = true).
Proof.
  unfold ValidateSnapshotSinkSpec. destruct (validateFamilyType _ _); [|done].
  intros [Hc [_ [_ [_ Ht]%app_nil]%app_nil]%app_nil]%app_nil. apply app_nil in Hc as [Hp [_ [Hi _]%app_nil]%app_nil]. cbv zeta.
  split_and!.
  - rewrite <-path_template_agrees. by destruct (admission_ValidatePathTemplate _).
  - unfold ValidateInsecureSkipVerify, CheckInsecureSkipVerify in *. by destruct (scf_InsecureSkipVerify _), allow.
  - intros l Hl Hty. rewrite Hl in Ht. revert Ht. destruct (decide (fs_Type spec = "git")) as [->|].
    { intros [_ [_ [_ Hlay]%app_nil]%app_nil]%app_nil. split; [set_solver|by eapply layout_spec_template]. }
    destruct (decide (fs_Type spec = "gitlab")) as [->|].
    { intros [_ Hlay]%app_nil. split; [set_solver|by eapply layout_spec_template]. }
    rewrite decide_True by set_solver. by intros [_ ?]%app_nil.
Qed.
End admitted_sinks.

(** * Objects *)
Module AdmissionDemo.
#[local] Existing Instances demo_kube demo_cel demo_extract ascii_only_case map_range_to_list Envelope.demo_sha256.

Definition secret_profile (paths : list string) : KollectProfile :=
  mkKollectProfile "team" "secrets" 1
    (mkKollectProfileSpec (mkGVK "" "v1" "Secret")
       (imap (λ i p, mkAttributeSpec ("a" +:+ pretty i) p "" false) paths) None []).

(** The guard on [Secret.data] sees the plain spellings. *)
Example secret_guard :
  ((λ p, length (ValidateProfile ∅ (secret_profile [p]))) <$>
     ["$.data.password"; "$.DATA.password"; "{.data.password}"; "cel:object.data.password"; "helm:release.config"]) = [1; 1; 1; 1; 1] ∧
  ValidateProfile ∅ (secret_profile ["$.metadata.name"]) = [] ∧
  ValidateProfile {[ AllowSecretExtractionAnnotation := "true" ]} (secret_profile ["$.data.password"]) = [].
Proof. split_and!; vm_compute; reflexivity. Qed.

(** Bracket notation, a wildcard, recursive descent and the whole object are
    admitted without the annotation. *)
Example secret_guard_bypassed :
  ValidateProfile ∅ (secret_profile ["{['data'].password}"; "$.['data'].password"; "$..password"; "$.*";
                                     "cel:object['data']['password']"; "cel:object"]) = [].
Proof. vm_compute. reflexivity. Qed.

(** The release's templates, files and values are refused one by one, and admitted
    with the chart that holds them. *)
Example helm_parent_admitted :
  ValidateHelmReleaseAttributePath "helm:release.chart.values" = false ∧
  ValidateHelmReleaseAttributePath "helm:release.chart.templates.x" = false ∧
  ValidateHelmReleaseAttributePath "helm:release.chart" = true ∧
  pathRequiresSecretExtractionOptIn "helm:release.chart" = false.
Proof. split_and!; vm_compute; reflexivity. Qed.

Definition scoped_target : KollectTarget :=
  mkKollectTarget "team" "t" 1 (mkKollectTargetSpec "p" None (mkCollectionFilterSpec ["prod"] [] None []) None [] false "").

Definition denying_scope : KollectScope :=
  mkKollectScope "s" (mkKollectScopeSpec (mkScopeCeilingSpec [] [] ["prod"] None) [] [] []).

(** A target that is being deleted is validated like any other: after the scope
    has come to deny its namespace, the update that removes its finalizer is
    refused. A profile's is not. *)
Example deleting_target_refused :
  is_ok (target_ValidateUpdate (Some []) (Some None) true scoped_target) = true ∧
  is_ok (target_ValidateUpdate (Some [denying_scope]) (Some None) true scoped_target) = false ∧
  is_ok (target_ValidateUpdate None (Some None) true scoped_target) = false ∧
  is_ok (profile_ValidateUpdate true ∅ (secret_profile ["$.data.password"])) = true.
Proof. split_and!; vm_compute; reflexivity. Qed.

(** An evaluator that refuses the empty expression. *)
Definition strict_extract : ExtractApi := {|
  xcel_program := string;
  xcel_compile e := if decide (e = "") then Err "empty" else Ok e;
  xcel_eval e o := Ok (from_option CelNative CelNull (assoc_get e o));
  jsonpath := string;
  jp_parse p := Ok p;
  jp_find p o := Ok [match assoc_get p o with Some v => [v] | None => [] end];
  extractHelmReleaseField o p := Err "not a helm release";
|}.

Definition pod_profile : KollectProfile :=
  mkKollectProfile "team" "pods" 1
    (mkKollectProfileSpec (mkGVK "" "v1" "Pod") [mkAttributeSpec "image" "cel:image" "" false]
       (Some (mkExportSpec ExportModeResource "" "" None None)) [mkMetricSpec "m" "image" ["image"]]).

Lemma admitted_profile_rows_witness :
  let _ := strict_extract in
  ValidateProfile ∅ pod_profile = [] ∧
  Forall (λ m, metric_Path m ∈ attr_Name <$> profile_Attributes (profile_Spec pod_profile) ∧
               Forall (λ l, l ∈ attr_Name <$> profile_Attributes (profile_Spec pod_profile)) (metric_Labels m))
    (profile_Metrics (profile_Spec pod_profile)).
Proof.
  intros X. split; [vm_compute; reflexivity|].
  refine (proj2 (proj2 (admitted_profile_rows (H3 := strict_extract) ∅ pod_profile _ _))); [exact eq_refl|vm_compute; reflexivity].
Defined.
End AdmissionDemo.
