(* ===== verification/Preview.v ===== *)
(** The preview of a sink's export in its status,
    [src/internal/sink/preview/render.go] with the commit texts of
    [src/internal/sink/git/commit.go] and [commit_preview.go] and the table text of
    [src/internal/sink/postgres/ddl_preview.go]. The clock is read twice, for the
    time of the preview and for the sample commit; both are arguments. *)

From S2P Require Import Prelude GoStrings Values Store Json Envelope GoTemplate SinkSpec ObjectPath Layout SqlText DatabaseAccess.

(** * Commit texts *)

(** Go: internal/sink/git/commit.go:20-35 [CommitContext] *)
Record CommitContext := mkCommitContext {
  cc_Namespace : string;
  cc_Name : string;
  cc_Cluster : string;
  cc_Generation : Z;
  cc_ExportGen : Z;
  cc_ItemCount : Z;
  cc_Checksum : string;
  cc_ExportedAt : Z;
  cc_Path : string;
  cc_SinkName : string;
}.

(** Go: internal/sink/git/commit.go:60-67 [checksumShort] *)
Definition checksumShort (checksum : string) : string :=
  let checksum := trim_prefix "sha256:" (trim_space checksum) in
  if decide (12 < String.length checksum) then String.substring 0 12 checksum else checksum.

(** [time.RFC3339] has no fraction; [now] is read for the zero time.
    Go: internal/sink/git/commit.go:69-75 [exportedAtRFC3339] *)
Definition exportedAtRFC3339 (now t : Z) : string :=
  let t := if decide (t = zero_time) then now else t in
  rfc3339nano (t / second * second).

(** Go: internal/sink/git/commit.go:77-93 [renderCommitTemplate] *)
Definition renderCommitTemplate (now : Z) (template : string) (ctx : CommitContext) : string :=
  replacer
    [("{namespace}", cc_Namespace ctx); ("{name}", cc_Name ctx); ("{cluster}", cc_Cluster ctx);
     ("{generation}", fmt_d (cc_Generation ctx)); ("{exportGeneration}", fmt_d (cc_ExportGen ctx));
     ("{itemCount}", fmt_d (cc_ItemCount ctx)); ("{checksum}", cc_Checksum ctx);
     ("{checksumShort}", checksumShort (cc_Checksum ctx)); ("{exportedAt}", exportedAtRFC3339 now (cc_ExportedAt ctx));
     ("{sink}", cc_SinkName ctx); ("{path}", cc_Path ctx)] template.

(** Go: internal/sink/git/commit.go:95-100 [renderedCommit] *)
Record renderedCommit := mkRenderedCommit {
  rc_Subject : string;
  rc_Body : string;
  rc_Trailers : list string;
  rc_Full : string;
}.

Definition blank_line : string := String (ascii_of_nat 10) (String (ascii_of_nat 10) "").

(** The message, the body and the trailers are all that is read of the
    configuration.
    Go: internal/sink/git/commit.go:102-127 [renderCommit] *)
Definition renderCommit (now : Z) (message body : string) (trailers : list string) (ctx : CommitContext) : renderedCommit :=
  let subject := renderCommitTemplate now message ctx in
  let body := if decide (body ≠ "") then renderCommitTemplate now body ctx else "" in
  let trailers := filter (λ line, line ≠ "") ((λ t, trim_space (renderCommitTemplate now t ctx)) <$> trailers) in
  let full := if decide (body ≠ "") then subject +:+ blank_line +:+ body else subject in
  mkRenderedCommit subject body trailers (foldl (λ full line, full +:+ blank_line +:+ line) full trailers).

Definition defaultCommitMessage : string := "chore({cluster}/{namespace}/{name}): export {itemCount} items @ {checksumShort}".

(** The commit fields of the [git] block. *)
Record GitCommitSpec := mkGitCommitSpec {
  gc_CommitMessage : string;
  gc_CommitBody : string;
  gc_CommitTrailers : list string;
}.

(** Go: internal/sink/git/commit_preview.go:12-32 [RenderCommitPreview] *)
Definition RenderCommitPreview (now : Z) (git : option GitCommitSpec) (ctx : CommitContext) : string * string :=
  let rendered :=
    match git with
    | None => renderCommit now defaultCommitMessage "" [] ctx
    | Some git =>
        let msg := trim_space (gc_CommitMessage git) in
        renderCommit now (if decide (msg ≠ "") then msg else defaultCommitMessage)
          (trim_space (gc_CommitBody git)) (gc_CommitTrailers git) ctx
    end in
  (rc_Subject rendered, rc_Body rendered).

(** * The table *)

Definition newline : string := String (ascii_of_nat 10) "".

(** Go: internal/sink/postgres/ddl_preview.go:16-40 [ExpectedCreateTableDDL] *)
Definition ExpectedCreateTableDDL (schema table : string) : string :=
  let schema := trim_space schema in
  let schema := if decide (schema = "") then "public" else schema in
  let table := trim_space table in
  let table := if decide (table = "") then "inventory_items" else table in
  join newline
    ["CREATE TABLE IF NOT EXISTS " +:+ pgxQuoteIdent schema +:+ "." +:+ pgxQuoteIdent table +:+ " (";
     "  inventory_namespace TEXT NOT NULL,";
     "  inventory_name TEXT NOT NULL,";
     "  target_name TEXT NOT NULL,";
     "  source_uid TEXT NOT NULL,";
     "  cluster TEXT NOT NULL DEFAULT '',";
     "  resource_namespace TEXT NOT NULL DEFAULT '',";
     "  payload JSONB NOT NULL,";
     "  exported_at TIMESTAMPTZ NOT NULL,";
     "  PRIMARY KEY (inventory_namespace, inventory_name, target_name, source_uid)";
     ")"].

(** * The status *)

(** Go: api/v1alpha1/sink_preview_types.go:68-86 [LayoutPreviewStatus] *)
Record LayoutPreviewStatus := mkLayoutPreview {
  lp_Mode : string;
  lp_Content : string;
  lp_Prune : bool;
  lp_SamplePaths : list string;
}.

(** Go: api/v1alpha1/sink_preview_types.go:8-55 [SinkPreviewStatus] *)
Record SinkPreviewStatus := mkPreview {
  pv_RenderedAt : Z;
  pv_InputSampleSource : string;
  pv_ProvisioningMode : string;
  pv_SerializationFormat : string;
  pv_ObjectPath : string;
  pv_Git : option (string * string);
  pv_Layout : option LayoutPreviewStatus;
  pv_PostgresDDL : option string;
  pv_MongoIndexKeys : option (list string);
  pv_KafkaTopic : option string;
  pv_Warnings : list string;
}.

(** The normalized spec as the preview reads it. *)
Record preview_spec := mkPreviewSpec {
  ps_Sink : KollectSinkSpec;
  ps_Db : db_spec;
  ps_Git : option GitCommitSpec;
  ps_KafkaTopic : option string;
}.

Definition sampleNamespace : string := "team-a".
Definition sampleTargetName : string := "api".
Definition maxSamplePaths : nat := 3.

(** Go: internal/sink/preview/render.go:149-168 [samplePreviewItems] *)
Definition samplePreviewItems : list Item :=
  let manifest := VMap [("apiVersion", VString "apps/v1"); ("kind", VString "Deployment"); ("spec", VMap [("replicas", VInt 3)])] in
  (λ name, mkItem sampleNamespace name sampleNamespace name "apps" "v1" "Deployment" ("uid-" +:+ name)
     (Some [("resource", manifest); ("image", VString "nginx:1.27")])) <$>
  [sampleTargetName; "web"; "cache"; "worker"].

(** Go: internal/sink/preview/render.go:170-177 [defaultCluster] *)
Definition defaultCluster (cluster : string) : string :=
  let cluster := trim_space cluster in if decide (cluster = "") then "default" else cluster.

Definition existingWarning : string :=
  "provisioning.mode=existing: kollect will NOT create destination resources; preflight verifies existence".
Definition parquetWarning : string :=
  "serialization.format=parquet: typed identity columns + JSON attributes + optional hotAttributes".

Section render.
Context `{!UnicodeCase, !Yaml, !SortFunc, !Sha256}.

(** Go: internal/sink/preview/render.go:116-147 [renderLayoutPreview] *)
Definition renderLayoutPreview (r : ResolvedLayout) : LayoutPreviewStatus :=
  mkLayoutPreview (rl_Mode r) (rl_Content r) (rl_Prune r)
    (if IsDocument r then [DocumentPath r]
     else match Project samplePreviewItems r with
          | Err _ => [DocumentPath r]
          | Ok files => take maxSamplePaths (file_Path <$> files)
          end).

(** [renderedAt] is the first reading of the clock, [now] the second.
    Go: internal/sink/preview/render.go:30-114 [Render] *)
Definition Render (renderedAt now : Z) (spec : preview_spec) (sinkName : string) : SinkPreviewStatus :=
  let sink := ps_Sink spec in
  let mode := EffectiveProvisioningMode (ps_Db spec) in
  let format := EffectiveSerializationFormat (Some sink) in
  let existing := bool_decide (mode = ProvisioningModeExisting) in
  let typed t := bool_decide (sink_Type sink = t) in
  let is_git := typed "git" || typed "gitlab" in
  let resolved := Layout.Resolve (mkResolveInput sink sampleNamespace sampleTargetName 1 false "") in
  let path := DocumentPath resolved in
  let mongo := if typed "mongodb" then ds_MongoDB (ps_Db spec) else None in
  mkPreview renderedAt "synthetic" mode format
    (if is_git then path
     else if typed "s3" || typed "gcs" || typed "azureblob" then ObjectPath sink sampleNamespace sampleTargetName 1 else "")
    (if is_git then
       Some (RenderCommitPreview now (ps_Git spec)
               (mkCommitContext sampleNamespace sampleTargetName (defaultCluster (sink_Cluster sink)) 1 1 42
                  "sha256:a1b2c3d4e5f6" now path sinkName))
     else None)
    (if is_git then Some (renderLayoutPreview resolved) else None)
    (if typed "postgres" && negb existing
     then (λ pg, ExpectedCreateTableDDL (pg_Schema pg) (pg_Table pg)) <$> ds_Postgres (ps_Db spec) else None)
    (if existing then None else (λ _, ["inventory_namespace"; "inventory_name"; "target_name"; "source_uid"]) <$> mongo)
    (if typed "kafka" then ps_KafkaTopic spec else None)
    ((if existing then [existingWarning] else []) ++
     match mongo with
     | Some mg => ["mongodb: documents upserted into " +:+ mg_Database mg +:+ "." +:+ mg_Collection mg]
     | None => []
     end ++
     (if decide (format = FormatParquet) then [parquetWarning] else [])).
End render.


(** A git sink with a per-resource layout: four sample rows, three paths shown; the
    commit text uses the sample. *)
Example git_preview :
  let _ := ascii_only_case in
  let _ := {| json_to_yaml s := Some s |} in let _ := sort_by_merge_sort in let _ := demo_sha256 in
  let sink := mkKollectSinkSpec "git" " prod " "" "" None None
                (Some (mkLayoutSpec LayoutModePerResource "" "" None None)) None in
  let preview := Render 7 (5 * second + 9) (mkPreviewSpec sink (mkDbSpec "git" "" None None None None)
                   (Some (mkGitCommitSpec "" "at {exportedAt}" [])) None) "s" in
  pv_Git preview = Some ("chore(prod/team-a/api): export 42 items @ a1b2c3d4e5f6", "at 1970-01-01T00:00:05Z") ∧
  (lp_SamplePaths <$> pv_Layout preview) =
    Some ["prod/team-a/deployment/api.yaml"; "prod/team-a/deployment/web.yaml"; "prod/team-a/deployment/cache.yaml"].
Proof. vm_compute. split; reflexivity. Qed.
