(* ===== verification/SinkReconcile.v ===== *)
(** Connection tests, [src/internal/controller/family_sink_connection.go],
    [family_sink_controller.go] and [kollectconnectiontest_controller.go] with
    [src/internal/sink/probe.go] and [resolver.go]: a family sink is probed by its
    own reconciler, and a [KollectConnectionTest] is a probe that runs once, keeps
    its result and is deleted after a time. What the sinks, the API server and the
    clock answer is an argument. Stored times have seconds, as in the API. *)

From S2P Require Import Prelude GoStrings Errors Coalesce Conditions Secrets Envelope SinkSpec Layout DatabaseAccess Preview TargetReconcile.
Import Outcome.

(** A time as the API server keeps it. *)
Definition stored_time (t : Z) : Z := t / second * second.

(** * Probes *)

(** What the sinks answer: parsing the configuration and reaching the remote, by
    what each client is given. *)
Record probe_answers := mkProbeAnswers {
  pa_git_config : string → option err;
  pa_git_test : string → GitAuth → option err;
  pa_gitlab_config : string → option err;
  pa_gitlab_test : string → GitAuth → option err;
  pa_client : string → option (gmap string string) → string → option err;
}.

Section probes.
Context (answers : probe_answers) (spec : SinkSecrets) (bc : BuildContext).

Definition tested (failure : option err) (message : string) : result err string :=
  match failure with Some e => Err e | None => Ok message end.

(** Go: internal/sink/probe.go:50-66 [testGitConnection] *)
Definition testGitConnection : result err string :=
  match pa_git_config answers (bc_CAPEM bc) with
  | Some e => Err e
  | None =>
      tested (pa_git_test answers (bc_CAPEM bc) (GitAuthFromSecretData (bc_SecretData bc) (gitAuthTypeFromSpec spec)))
        "TLS and git remote reachability verified"
  end.

(** Go: internal/sink/probe.go:68-84 [testGitLabConnection] *)
Definition testGitLabConnection : result err string :=
  match pa_gitlab_config answers (bc_CAPEM bc) with
  | Some e => Err e
  | None =>
      tested (pa_gitlab_test answers (bc_CAPEM bc) (GitAuthFromSecretData (bc_SecretData bc) ""))
        "TLS and GitLab remote reachability verified"
  end.

(** Go: internal/sink/probe.go:86-96 [testPostgresConnection] *)
Definition testPostgresConnection : result err string :=
  tested (pa_client answers "postgres" (bc_DatabaseSecretData bc) (bc_CAPEM bc)) "PostgreSQL ping succeeded".
(** Go: internal/sink/probe.go:98-108 [testBigQueryConnection] *)
Definition testBigQueryConnection : result err string :=
  tested (pa_client answers "bigquery" (bc_DatabaseSecretData bc) "") "BigQuery dataset metadata and dry-run query succeeded".
(** Go: internal/sink/probe.go:110-120 [testMongoConnection] *)
Definition testMongoConnection : result err string :=
  tested (pa_client answers "mongodb" (bc_DatabaseSecretData bc) (bc_CAPEM bc)) "MongoDB ping succeeded".
(** Go: internal/sink/probe.go:122-132 [testKafkaConnection] *)
Definition testKafkaConnection : result err string :=
  tested (pa_client answers "kafka" (bc_SecretData bc) (bc_CAPEM bc)) "Kafka broker metadata request succeeded".
(** Go: internal/sink/probe.go:134-144 [testNatsConnection] *)
Definition testNatsConnection : result err string :=
  tested (pa_client answers "nats" (bc_SecretData bc) (bc_CAPEM bc)) "NATS JetStream account info request succeeded".
(** Go: internal/sink/probe.go:146-156 [testS3Connection] *)
Definition testS3Connection : result err string :=
  tested (pa_client answers "s3" (bc_SecretData bc) (bc_CAPEM bc)) "S3 bucket HeadBucket succeeded".
(** Go: internal/sink/probe.go:158-168 [testGCSConnection] *)
Definition testGCSConnection : result err string :=
  tested (pa_client answers "gcs" (bc_SecretData bc) (bc_CAPEM bc)) "GCS bucket HeadBucket succeeded".

(** Go: internal/sink/probe.go:24-34 [connectionTesters] *)
Definition connectionTesters : list (string * result err string) :=
  [("git", testGitConnection); ("gitlab", testGitLabConnection); ("postgres", testPostgresConnection);
   ("bigquery", testBigQueryConnection); ("mongodb", testMongoConnection); ("kafka", testKafkaConnection);
   ("nats", testNatsConnection); ("s3", testS3Connection); ("gcs", testGCSConnection)].

(** Go: internal/sink/probe.go:36-48 [RunConnectionTest] *)
Definition RunConnectionTest : result err string :=
  match list_find (λ kv, kv.1 = ss_Type spec) connectionTesters with
  | None => Err (Leaf 90 ("connection test not supported for sink type " +:+ ss_Type spec))
  | Some (_, (_, tester)) => tester
  end.
End probes.

(** * Family sinks *)

Definition AnnotationTestConnection : string := "kollect.dev/test-connection".
Definition AnnotationPreview : string := "kollect.dev/preview".
Definition ConditionTLSInsecure : string := "TLSInsecure".

(** A stored sink object of any family. *)
Record sink_obj := mkSinkObj {
  so_Namespace : string;
  so_Name : string;
  so_Generation : Z;
  so_Annotations : gmap string string;
  so_ConnectionTest : option bool;
  so_Insecure : bool;
  so_Secrets : SinkSecrets;
  so_View : preview_spec;
  so_Conditions : list Condition;
  so_Preview : option SinkPreviewStatus;
}.

Definition with_status (cs : list Condition) (p : option SinkPreviewStatus) (o : sink_obj) : sink_obj :=
  mkSinkObj (so_Namespace o) (so_Name o) (so_Generation o) (so_Annotations o) (so_ConnectionTest o) (so_Insecure o)
    (so_Secrets o) (so_View o) cs p.
Definition with_annotations (a : gmap string string) (o : sink_obj) : sink_obj :=
  mkSinkObj (so_Namespace o) (so_Name o) (so_Generation o) a (so_ConnectionTest o) (so_Insecure o)
    (so_Secrets o) (so_View o) (so_Conditions o) (so_Preview o).

(** The answers of one reconcile; the two readings of the clock are those of the
    preview, [fe_now] is that of the conditions. *)
Record family_env := mkFamilyEnv {
  fe_secrets : secretUse → result err (option secret);
  fe_secret_text : secret_error → string;
  fe_probe : probe_answers;
  fe_status : option err;
  fe_patch : option err;
  fe_rendered : Z;
  fe_commit : Z;
  fe_now : Z;
}.

Section family.
Context `{!UnicodeCase, !Yaml, !SortFunc, !Sha256, !ConditionApi, !ConditionLib}.

(** Go: api/v1alpha1/sink_config.go:86-94 [PreviewEnabled] *)
Definition PreviewEnabled (annotations : gmap string string) : bool :=
  match annotations !! AnnotationPreview with Some v => equal_fold (trim_space v) "true" | None => false end.

(** Go: api/v1alpha1/sink_common_types.go:172-178 [ConnectionTestEnabledCommon] *)
Definition ConnectionTestEnabledCommon (o : sink_obj) : bool := default true (so_ConnectionTest o).

(** Whether the preview changed, and the new one.
    Go: internal/controller/family_sink_connection.go:66-93 [renderFamilyPreview] *)
Definition renderFamilyPreview (env : family_env) (o : sink_obj) : bool * option SinkPreviewStatus :=
  if PreviewEnabled (so_Annotations o) then
    (true, Some (Render (stored_time (fe_rendered env)) (fe_commit env) (so_View o) (so_Name o)))
  else match so_Preview o with Some _ => (true, None) | None => (false, None) end.

(** Go: internal/controller/family_sink_connection.go:95-102 [shouldTestFamilyConnection] *)
Definition shouldTestFamilyConnection (o : sink_obj) : bool :=
  if ConnectionTestEnabledCommon o then true
  else match so_Annotations o !! AnnotationTestConnection with Some v => equal_fold v "true" | None => false end.

(** Go: internal/controller/family_sink_connection.go:170-178 [shouldClearFamilyTestConnectionAnnotation] *)
Definition shouldClearFamilyTestConnectionAnnotation (o : sink_obj) : bool :=
  if ConnectionTestEnabledCommon o then false else bool_decide (is_Some (so_Annotations o !! AnnotationTestConnection)).

(** Whether the conditions changed, and the new ones.
    Go: internal/controller/family_sink_connection.go:180-205 [setFamilyTLSInsecureCondition] *)
Definition setFamilyTLSInsecureCondition (now : Z) (cs : list Condition) (insecure : bool) (generation : Z) : bool * list Condition :=
  let before := FindStatusCondition cs ConditionTLSInsecure in
  if negb insecure then (bool_decide (is_Some before), RemoveStatusCondition cs ConditionTLSInsecure)
  else
    (match before with None => true | Some c => bool_decide (cond_Status c ≠ ConditionTrue) end,
     SetStatusCondition cs
       (mkCondition ConditionTLSInsecure ConditionTrue "InsecureSkipVerify"
          "TLS certificate verification is disabled; use only for development" generation (stored_time now))).

(** The write of the status: the stored object keeps everything else. *)
Definition update_status (env : family_env) (cs : list Condition) (p : option SinkPreviewStatus) (o : sink_obj) : option err * sink_obj :=
  match fe_status env with Some e => (Some e, o) | None => (None, with_status cs p o) end.

(** Go: internal/controller/family_sink_connection.go:104-138 [setConnectionVerified] *)
Definition setConnectionVerified (env : family_env) (o : sink_obj) (p : option SinkPreviewStatus) (message : string) :
    option err * sink_obj :=
  let cs := RemoveStatusCondition (so_Conditions o) conditionDegraded in
  let cs := (setFamilyTLSInsecureCondition (fe_now env) cs (so_Insecure o) (so_Generation o)).2 in
  let cs := SetStatusCondition cs
    (mkCondition ConditionConnectionVerified ConditionTrue "ConnectionOK" (redact_Text message) (so_Generation o) (stored_time (fe_now env))) in
  match update_status env cs p o with
  | (Some e, o) => (Some e, o)
  | (None, o) =>
      if shouldClearFamilyTestConnectionAnnotation o then
        match fe_patch env with
        | Some e => (Some e, o)
        | None => (None, with_annotations (delete AnnotationTestConnection (so_Annotations o)) o)
        end
      else (None, o)
  end.

(** Go: internal/controller/family_sink_connection.go:140-168 [setConnectionFailed] *)
Definition setConnectionFailed (env : family_env) (o : sink_obj) (p : option SinkPreviewStatus) (reason message : string) :
    option err * sink_obj :=
  let message := redact_Text message in
  let cs := (setFamilyTLSInsecureCondition (fe_now env) (so_Conditions o) (so_Insecure o) (so_Generation o)).2 in
  let cs := SetStatusCondition cs
    (mkCondition ConditionConnectionVerified ConditionFalse reason message (so_Generation o) (stored_time (fe_now env))) in
  let cs := SetStatusCondition cs
    (mkCondition conditionDegraded ConditionTrue reason message (so_Generation o) (stored_time (fe_now env))) in
  update_status env cs p o.

(** The probe with its context: the message, or the reason and the message of the
    failure. *)
Definition probe_outcome (env : family_env) (o : sink_obj) : result (string * string) string :=
  match BuildContextFromSpec (fe_secrets env) (so_Secrets o) (so_Namespace o) with
  | Err e => Err ("SecretResolveFailed", fe_secret_text env e)
  | Ok bc =>
      match RunConnectionTest (fe_probe env) (so_Secrets o) bc with
      | Err e => Err ("ConnectionTestFailed", error_text e)
      | Ok message => Ok message
      end
  end.

(** Go: internal/controller/family_sink_connection.go:25-64 [reconcile] *)
Definition family_reconcile (env : family_env) (o : sink_obj) : option err * sink_obj :=
  let '(previewChanged, p) := renderFamilyPreview env o in
  if negb (shouldTestFamilyConnection o) then
    let '(insecureChanged, cs) := setFamilyTLSInsecureCondition (fe_now env) (so_Conditions o) (so_Insecure o) (so_Generation o) in
    if previewChanged || insecureChanged then update_status env cs p o else (None, o)
  else
    match probe_outcome env o with
    | Err (reason, message) => setConnectionFailed env o p reason message
    | Ok message => setConnectionVerified env o p message
    end.

(** [found] is the answer to the read; the second component is [None] when there
    is no object.
    Go: internal/controller/family_sink_controller.go:52-76 [Reconcile] *)
Definition family_sink_Reconcile `{!ApiErrors} (env : family_env) (found : result err sink_obj) : option err * option sink_obj :=
  match found with
  | Err e => (if api_IsNotFound e then None else Some e, None)
  | Ok o => let '(e, o) := family_reconcile env o in (e, Some o)
  end.
End family.

(** * Resolving a sink *)

Definition SinkFamilySnapshot : string := "snapshot".
Definition SinkFamilyDatabase : string := "database".
Definition SinkFamilyEvent : string := "event".

(** What resolving keeps of a sink object.
    Go: internal/sink/resolver.go:17-27 [ResolvedSink] *)
Record ResolvedSink := mkResolvedSink {
  rs_Spec : SinkSecrets;
  rs_Namespace : string;
  rs_Name : string;
  rs_Family : string;
  rs_UID : string;
  rs_Generation : Z;
}.

Inductive resolve_error :=
  | ErrNameRequired
  | ErrUnknownFamily (family : string)
  | ErrGet (e : err).

Section resolve.
Context `{!ApiErrors}.
(** The API server's answer to the read of a sink of a family: its spec, UID and
    generation. *)
Context (get_sink : string → string → string → result err (SinkSecrets * string * Z)).

(** The three readers differ in the kind they read.
    Go: internal/sink/resolver.go:60-74 [resolveSnapshotSink] *)
Definition resolveFamilySink (namespace name family : string) : result err ResolvedSink :=
  match get_sink family namespace name with
  | Err e => Err e
  | Ok (spec, uid, generation) => Ok (mkResolvedSink spec namespace name family uid generation)
  end.

(** The families in turn; a sink of one family hides those of the later ones.
    Go: internal/sink/resolver.go:127-160 [resolveSinkAnyFamily] *)
Fixpoint resolve_any (families : list string) (lastErr : option err) (namespace name : string) : result resolve_error ResolvedSink :=
  match families with
  | [] => Err (ErrGet (default (Leaf 91 "not found") lastErr))
  | family :: families =>
      match resolveFamilySink namespace name family with
      | Ok r => Ok r
      | Err e => if api_IsNotFound e then resolve_any families (Some e) namespace name else Err (ErrGet e)
      end
  end.

(** Go: internal/sink/resolver.go:36-58 [ResolveSink] *)
Definition sink_ResolveSink (namespace name family : string) : result resolve_error ResolvedSink :=
  if decide (name = "") then Err ErrNameRequired
  else if decide (family = "") then
    resolve_any [SinkFamilySnapshot; SinkFamilyDatabase; SinkFamilyEvent] None namespace name
  else if decide (family ∈ [SinkFamilySnapshot; SinkFamilyDatabase; SinkFamilyEvent]) then
    match resolveFamilySink namespace name family with Ok r => Ok r | Err e => Err (ErrGet e) end
  else Err (ErrUnknownFamily family).

(** Go: internal/sink/resolver.go:108-117 [SinkNamespaceForResolved] *)
Definition SinkNamespaceForResolved (resolved : option ResolvedSink) (fallback : string) : string :=
  match resolved with
  | None => fallback
  | Some r => if decide (rs_Namespace r ≠ "") then rs_Namespace r else fallback
  end.
End resolve.

(** * Connection tests *)

(** Go: api/v1alpha1/connection_test_sink_ref.go:6-19 [ConnectionTestSinkRef] *)
Record ConnectionTestSinkRef := mkTestSinkRef {
  tr_SnapshotSinkRef : string;
  tr_DatabaseSinkRef : string;
  tr_EventSinkRef : string;
}.

(** Go: api/v1alpha1/connection_test_sink_ref.go:21-37 [Family] *)
Definition Family (r : ConnectionTestSinkRef) : option (string * string) :=
  match filter (λ fn, fn.2 ≠ "")
    [(SinkFamilySnapshot, tr_SnapshotSinkRef r); (SinkFamilyDatabase, tr_DatabaseSinkRef r); (SinkFamilyEvent, tr_EventSinkRef r)] with
  | [fn] => Some fn
  | _ => None
  end.

(** Go: api/v1alpha1/kollectconnectiontest_types.go:31-54 [KollectConnectionTestStatus] *)
Record ConnectionTestStatus := mkTestStatus {
  ct_Conditions : list Condition;
  ct_ObservedGeneration : Z;
  ct_LatencyMs : Z;
  ct_Completed : bool;
  ct_CompletedAt : option Z;
}.

(** A stored test; [kt_Owners] are the UIDs of its owner references. *)
Record conn_test := mkConnTest {
  kt_Namespace : string;
  kt_Generation : Z;
  kt_SinkRef : ConnectionTestSinkRef;
  kt_OwnerSink : option bool;
  kt_TTL : option Z;
  kt_Owners : list string;
  kt_Status : ConnectionTestStatus;
}.

Definition with_owner (uid : string) (t : conn_test) : conn_test :=
  mkConnTest (kt_Namespace t) (kt_Generation t) (kt_SinkRef t) (kt_OwnerSink t) (kt_TTL t) (kt_Owners t ++ [uid]) (kt_Status t).
Definition with_test_status (s : ConnectionTestStatus) (t : conn_test) : conn_test :=
  mkConnTest (kt_Namespace t) (kt_Generation t) (kt_SinkRef t) (kt_OwnerSink t) (kt_TTL t) (kt_Owners t) s.

(** The answers of one reconcile: [te_start] and [te_end] time the probe, [ce_now]
    is the time of the result and of the age of a finished test. *)
Record test_env := mkTestEnv {
  ce_sink : string → string → string → result err (SinkSecrets * string * Z);
  ce_resolve_text : resolve_error → string;
  ce_object : result err string;
  ce_reference : option err;
  ce_patch : option err;
  ce_secrets : secretUse → result err (option secret);
  ce_secret_text : secret_error → string;
  ce_probe : probe_answers;
  ce_start : Z;
  ce_end : Z;
  ce_now : Z;
  ce_status : option err;
  ce_conflict : err → bool;
  ce_delete : option err;
}.

(** The requeue, the error, the stored test (deleted: [None]), and whether this
    reconcile probed the sink. *)
Record test_outcome := mkTestOutcome {
  to_Requeue : option Z;
  to_Error : option err;
  to_Stored : option conn_test;
  to_Probed : option (result err string);
}.

Definition defaultConnectionTestTTLSeconds : Z := 300.
Definition test_conflict_requeue : Z := second.

(** The field has 32 bits, so the product does not overflow.
    Go: internal/controller/kollectconnectiontest_controller.go:273-284 [connectionTestTTL] *)
Definition connectionTestTTL (t : conn_test) : Z := (Z.max 0 (default defaultConnectionTestTTLSeconds (kt_TTL t)) * second)%Z.

Section tests.
Context `{!ConditionApi, !ConditionLib, !ApiErrors}.

(** The two setters differ in the status of the conditions and in the reasons;
    [stored] is the test as the server has it, [t] the one in memory.
    Go: internal/controller/kollectconnectiontest_controller.go:213-250 [setProbeFailed] *)
Definition set_probe (ok : bool) (verifiedReason readyReason message : string) (env : test_env) (probed : option (result err string))
    (stored t : conn_test) : test_outcome :=
  let message := redact_Text message in
  let st := kt_Status t in
  let condition type reason :=
    mkCondition type (if ok then ConditionTrue else ConditionFalse) reason message (kt_Generation t) (stored_time (ce_now env)) in
  let cs := SetStatusCondition (ct_Conditions st) (condition ConditionConnectionVerified verifiedReason) in
  let cs := SetStatusCondition cs (condition conditionReady readyReason) in
  match ce_status env with
  | Some e =>
      if ce_conflict env e then mkTestOutcome (Some test_conflict_requeue) None (Some stored) probed
      else mkTestOutcome None (Some e) (Some stored) probed
  | None =>
      mkTestOutcome None None
        (Some (with_test_status
          (mkTestStatus cs (kt_Generation t) (ct_LatencyMs st) true (Some (stored_time (ce_now env)))) t)) probed
  end.

Definition setProbeFailed (env : test_env) (probed : option (result err string)) (reason message : string) :=
  set_probe false reason reason message env probed.
(** Go: internal/controller/kollectconnectiontest_controller.go:174-211 [setProbeSucceeded] *)
Definition setProbeSucceeded (env : test_env) (probed : option (result err string)) (message : string) :=
  set_probe true "ConnectionOK" "ProbeSucceeded" message env probed.

(** [SetControllerReference] refuses a test that another controller owns.
    Go: internal/controller/kollectconnectiontest_controller.go:151-172 [ensureOwnerReference] *)
Definition ensureOwnerReference (env : test_env) (t : conn_test) (uid : string) : result err conn_test :=
  if decide (kt_OwnerSink t = Some false) then Ok t
  else if decide (uid ∈ kt_Owners t) then Ok t
  else match ce_reference env with
       | Some e => Err e
       | None => match ce_patch env with Some e => Err e | None => Ok (with_owner uid t) end
       end.

(** Go: internal/controller/kollectconnectiontest_controller.go:252-271 [reconcileTTL] *)
Definition reconcileTTL (env : test_env) (t : conn_test) : test_outcome :=
  match ct_CompletedAt (kt_Status t) with
  | None => mkTestOutcome None None (Some t) None
  | Some completedAt =>
      let ttl := connectionTestTTL t in
      let elapsed := time_sub (ce_now env) completedAt in
      if decide (ttl ≤ elapsed)%Z then
        match ce_delete env with
        | Some e => if api_IsNotFound e then mkTestOutcome None None None None else mkTestOutcome None (Some e) (Some t) None
        | None => mkTestOutcome None None None None
        end
      else mkTestOutcome (Some (ttl - elapsed)%Z) None (Some t) None
  end.

(** The probe itself, of a resolved sink.
    Go: internal/controller/kollectconnectiontest_controller.go:90-116 [Reconcile, the probe] *)
Definition run_probe (env : test_env) (resolved : ResolvedSink) (t : conn_test) : test_outcome :=
  match BuildContextFromSpec (ce_secrets env) (rs_Spec resolved) (SinkNamespaceForResolved (Some resolved) (kt_Namespace t)) with
  | Err e => setProbeFailed env None "SecretResolveFailed" (ce_secret_text env e) t t
  | Ok bc =>
      let res := RunConnectionTest (ce_probe env) (rs_Spec resolved) bc in
      let st := kt_Status t in
      let timed := with_test_status
        (mkTestStatus (ct_Conditions st) (ct_ObservedGeneration st) (time_sub (ce_end env) (ce_start env) ÷ 1000000)%Z
           (ct_Completed st) (ct_CompletedAt st)) t in
      match res with
      | Err e => setProbeFailed env (Some res) "ConnectionTestFailed" (error_text e) t timed
      | Ok message => setProbeSucceeded env (Some res) message t timed
      end
  end.

(** Go: internal/controller/kollectconnectiontest_controller.go:38-118 [Reconcile] *)
Definition connectiontest_Reconcile (env : test_env) (t : conn_test) : test_outcome :=
  if decide (ct_Completed (kt_Status t) = true ∧ ct_ObservedGeneration (kt_Status t) = kt_Generation t) then reconcileTTL env t
  else
    match Family (kt_SinkRef t) with
    | None => setProbeFailed env None "InvalidSinkRef" "exactly one family sink ref must be set" t t
    | Some (family, sinkName) =>
        match sink_ResolveSink (ce_sink env) (kt_Namespace t) sinkName family with
        | Err e => setProbeFailed env None reasonSinkNotFound (ce_resolve_text env e) t t
        | Ok resolved =>
            match ce_object env with
            | Err e => setProbeFailed env None reasonSinkNotFound (error_text e) t t
            | Ok uid =>
                match ensureOwnerReference env t uid with
                | Err e => mkTestOutcome None (Some e) (Some t) None
                | Ok t => run_probe env resolved t
                end
            end
        end
    end.
End tests.

(** * Settling *)

(** More of what [apimeta] documents: setting a condition that is already there
    with the same status, reason, message and generation changes nothing, the time
    of the last transition included, and neither does removing an absent one. *)
Class ConditionStable `{!ConditionApi, !ConditionLib} := {
  set_same cs c c' : FindStatusCondition cs (cond_Type c) = Some c' →
    cond_Status c' = cond_Status c → cond_Reason c' = cond_Reason c → cond_Message c' = cond_Message c →
    cond_ObservedGeneration c' = cond_ObservedGeneration c → SetStatusCondition cs c = cs;
  remove_absent cs t : FindStatusCondition cs t = None → RemoveStatusCondition cs t = cs;
}.

Section settled.
Context `{!UnicodeCase, !Yaml, !SortFunc, !Sha256, !ConditionApi, !ConditionLib, !ConditionLaws, !ConditionStable}.

(** The condition of the type is there with these fields, whatever its time. *)
Definition holds (cs : list Condition) (t status reason message : string) (generation : Z) : Prop :=
  ∃ c, FindStatusCondition cs t = Some c ∧ cond_Status c = status ∧ cond_Reason c = reason ∧ cond_Message c = message ∧
    cond_ObservedGeneration c = generation.

Lemma set_holds cs t status reason message generation time :
  holds (SetStatusCondition cs (mkCondition t status reason message generation time)) t status reason message generation.
Proof.
  destruct (find_set cs (mkCondition t status reason message generation time)) as (c & Hc & _ & ? & ? & ? & ?). by exists c.
Qed.

Lemma set_holds_other cs c t status reason message generation :
  t ≠ cond_Type c → holds cs t status reason message generation → holds (SetStatusCondition cs c) t status reason message generation.
Proof. intros Ht (c' & Hc & H'). exists c'. by rewrite find_set_other. Qed.

Lemma set_holding cs t status reason message generation time :
  holds cs t status reason message generation → SetStatusCondition cs (mkCondition t status reason message generation time) = cs.
Proof. intros (c & Hc & ? & ? & ? & ?). by eapply set_same. Qed.

(** The TLS condition after a pass: as the spec says. *)
Definition insecure_shown (insecure : bool) (cs : list Condition) : Prop :=
  if insecure then ∃ c, FindStatusCondition cs ConditionTLSInsecure = Some c ∧ cond_Status c = ConditionTrue
  else FindStatusCondition cs ConditionTLSInsecure = None.

Lemma insecure_set now cs insecure generation :
  insecure_shown insecure (setFamilyTLSInsecureCondition now cs insecure generation).2.
Proof.
  destruct insecure; cbn; [|apply find_remove]. edestruct (set_holds cs) as (c & ? & ? & _). eauto.
Qed.

Lemma insecure_other now cs insecure generation t :
  t ≠ ConditionTLSInsecure →
  FindStatusCondition (setFamilyTLSInsecureCondition now cs insecure generation).2 t = FindStatusCondition cs t.
Proof. intros Ht. destruct insecure; cbn; [by apply find_set_other|by apply find_remove_other]. Qed.

Lemma insecure_unchanged now cs insecure generation :
  insecure_shown insecure cs → (setFamilyTLSInsecureCondition now cs insecure generation).1 = false.
Proof.
  destruct insecure; cbn; [intros (c & -> & Hc)|intros ->]; apply bool_decide_eq_false.
  - by intros Hn.
  - by intros [? ?].
Qed.

(** Setting the TLS condition a second time, with the conditions that follow it
    in place, changes nothing. *)
Lemma insecure_again now now' cs cs' insecure generation :
  FindStatusCondition cs' ConditionTLSInsecure =
    FindStatusCondition (setFamilyTLSInsecureCondition now cs insecure generation).2 ConditionTLSInsecure →
  (setFamilyTLSInsecureCondition now' cs' insecure generation).2 = cs'.
Proof.
  destruct insecure; cbn; intros Hf.
  - apply set_holding. unfold holds. rewrite Hf. by apply set_holds.
  - apply remove_absent. by rewrite Hf, find_remove.
Qed.

(** What the status of a sink says after a pass. *)
Definition sink_truthful (outcome : result (string * string) string) (o o' : sink_obj) : Prop :=
  insecure_shown (so_Insecure o) (so_Conditions o') ∧
  (shouldTestFamilyConnection o = true →
   match outcome with
   | Ok message =>
       holds (so_Conditions o') ConditionConnectionVerified ConditionTrue "ConnectionOK" (redact_Text message) (so_Generation o) ∧
       FindStatusCondition (so_Conditions o') conditionDegraded = None ∧
       (ConnectionTestEnabledCommon o = false → so_Annotations o' !! AnnotationTestConnection = None)
   | Err (reason, message) =>
       holds (so_Conditions o') ConditionConnectionVerified ConditionFalse reason (redact_Text message) (so_Generation o) ∧
       holds (so_Conditions o') conditionDegraded ConditionTrue reason (redact_Text message) (so_Generation o)
   end).
Lemma same_status o : with_status (so_Conditions o) (so_Preview o) o = o.
Proof. by destruct o. Qed.

(** What a pass stores, by its branches. *)
Lemma verified_pass env o message :
  fe_status env = None → fe_patch env = None →
  let o' := (setConnectionVerified env o None message).2 in
  (setConnectionVerified env o None message).1 = None ∧ sink_truthful (Ok message) o o' ∧ so_Preview o' = None ∧
  (∃ a, o' = with_annotations a (with_status (so_Conditions o') None o)) ∧
  (ConnectionTestEnabledCommon o = true → so_Annotations o' = so_Annotations o) ∧
  so_Annotations o' !! AnnotationPreview = so_Annotations o !! AnnotationPreview ∧
  FindStatusCondition (so_Conditions o') ConditionTLSInsecure =
    FindStatusCondition (setFamilyTLSInsecureCondition (fe_now env) (RemoveStatusCondition (so_Conditions o) conditionDegraded)
      (so_Insecure o) (so_Generation o)).2 ConditionTLSInsecure.
Proof.
  intros Hs Hp. unfold setConnectionVerified, update_status. rewrite Hs. cbv zeta.
  set (tls := setFamilyTLSInsecureCondition _ _ _ _). set (cs := SetStatusCondition _ _).
  assert (insecure_shown (so_Insecure o) cs) as Hi.
  { pose proof (insecure_set (fe_now env) (RemoveStatusCondition (so_Conditions o) conditionDegraded) (so_Insecure o) (so_Generation o)) as H'.
    fold tls in H'. unfold insecure_shown, cs in *. by rewrite find_set_other. }
  assert (FindStatusCondition cs conditionDegraded = None) as Hd.
  { unfold cs, tls. rewrite find_set_other by done. rewrite insecure_other by done. apply find_remove. }
  assert (FindStatusCondition cs ConditionTLSInsecure = FindStatusCondition tls.2 ConditionTLSInsecure) as Ht
    by (unfold cs; by rewrite find_set_other).
  pose proof (set_holds tls.2 ConditionConnectionVerified ConditionTrue "ConnectionOK" (redact_Text message) (so_Generation o)
    (stored_time (fe_now env))) as Hv. fold cs in Hv.
  unfold shouldClearFamilyTestConnectionAnnotation, sink_truthful. cbn [so_Conditions with_status with_annotations].
  change (ConnectionTestEnabledCommon (with_status cs None o)) with (ConnectionTestEnabledCommon o).
  change (so_Annotations (with_status cs None o)) with (so_Annotations o).
  destruct (ConnectionTestEnabledCommon o) eqn:He; [|case_bool_decide as Ha; [rewrite Hp|]]; cbn.
  - split_and!; try done. exists (so_Annotations o). by destruct o.
  - split_and!; try done; [|by eexists|by rewrite lookup_delete_ne].
    intros _. split_and!; [done|done|]. intros _. by rewrite lookup_delete_eq.
  - split_and!; try done; [|exists (so_Annotations o); by destruct o].
    intros _. split_and!; [done|done|]. intros _. by apply eq_None_not_Some.
Qed.

Lemma failed_pass env o reason message :
  fe_status env = None →
  let o' := (setConnectionFailed env o None reason message).2 in
  (setConnectionFailed env o None reason message).1 = None ∧ sink_truthful (Err (reason, message)) o o' ∧
  o' = with_status (so_Conditions o') None o ∧
  FindStatusCondition (so_Conditions o') ConditionTLSInsecure =
    FindStatusCondition (setFamilyTLSInsecureCondition (fe_now env) (so_Conditions o) (so_Insecure o) (so_Generation o)).2
      ConditionTLSInsecure.
Proof.
  intros Hs. unfold setConnectionFailed, update_status. rewrite Hs. cbv zeta. cbn [fst snd so_Conditions with_status].
  pose proof (insecure_set (fe_now env) (so_Conditions o) (so_Insecure o) (so_Generation o)) as Hi.
  set (tls := setFamilyTLSInsecureCondition _ _ _ _) in *. set (vs := SetStatusCondition tls.2 _). set (cs := SetStatusCondition vs _).
  assert (FindStatusCondition cs ConditionTLSInsecure = FindStatusCondition tls.2 ConditionTLSInsecure) as Ht
    by (unfold cs, vs; by rewrite !find_set_other).
  split_and!; try done. split; cbn [so_Conditions with_status].
  - unfold insecure_shown in *. by rewrite Ht.
  - intros _. split; [apply set_holds_other; [done|]|]; apply set_holds.
Qed.

(** A pass that does not write leaves a TLS condition that is as it should be. *)
Lemma insecure_settled now cs insecure generation :
  (setFamilyTLSInsecureCondition now cs insecure generation).1 = false → insecure_shown insecure cs.
Proof.
  destruct insecure; cbn.
  - destruct (FindStatusCondition cs ConditionTLSInsecure) as [c|] eqn:Hc; [|done]. intros H'%bool_decide_eq_false%dec_stable. eauto.
  - intros H'%bool_decide_eq_false. by apply eq_None_not_Some.
Qed.

(** Nothing is written for a sink that is not tested and whose TLS condition is as
    it should be. *)
Lemma idle_pass env o :
  shouldTestFamilyConnection o = false → PreviewEnabled (so_Annotations o) = false → so_Preview o = None →
  insecure_shown (so_Insecure o) (so_Conditions o) → family_reconcile env o = (None, o).
Proof.
  intros Ht Hp Hn Hi. unfold family_reconcile, renderFamilyPreview. rewrite Hp, Hn, Ht. cbn [negb].
  destruct (setFamilyTLSInsecureCondition _ _ _ _) as [changed cs] eqn:Hs.
  apply (insecure_unchanged (fe_now env) _ _ (so_Generation o)) in Hi. rewrite Hs in Hi. cbn in Hi. by rewrite Hi.
Qed.

(** The sinks and the Secrets answer alike. *)
Definition same_world (env env' : family_env) : Prop :=
  fe_secrets env' = fe_secrets env ∧ fe_secret_text env' = fe_secret_text env ∧ fe_probe env' = fe_probe env.

Lemma outcome_same env env' cs p a o :
  same_world env env' → probe_outcome env' (with_annotations a (with_status cs p o)) = probe_outcome env o.
Proof. intros (Hs & Ht & Hp). unfold probe_outcome. rewrite Hs, Ht, Hp. done. Qed.

Lemma failed_settles env env' o reason message :
  fe_status env = None → same_world env env' → PreviewEnabled (so_Annotations o) = false → shouldTestFamilyConnection o = true →
  probe_outcome env o = Err (reason, message) →
  let o' := (setConnectionFailed env o None reason message).2 in (family_reconcile env' o').2 = o'.
Proof.
  intros Hs Hw Hp Ht Ho o'. destruct (failed_pass env o reason message Hs) as (_ & [_ Hc] & Heq & Hf). fold o' in Hc, Heq, Hf.
  destruct (Hc Ht) as [Hv Hd]. unfold family_reconcile, renderFamilyPreview.
  assert (so_Annotations o' = so_Annotations o) as -> by (by rewrite Heq).
  assert (so_Preview o' = None) as -> by (by rewrite Heq).
  assert (shouldTestFamilyConnection o' = true) as -> by (rewrite Heq; exact Ht).
  assert (probe_outcome env' o' = Err (reason, message)) as ->.
  { rewrite Heq, <-Ho. apply (outcome_same env env' _ _ (so_Annotations o)). done. }
  rewrite Hp. cbn [negb]. unfold setConnectionFailed, update_status. destruct (fe_status env'); [done|]. cbn [snd].
  assert (so_Insecure o' = so_Insecure o ∧ so_Generation o' = so_Generation o) as [-> ->] by (by rewrite Heq).
  rewrite (insecure_again (fe_now env) (fe_now env') (so_Conditions o)) by exact Hf.
  rewrite (set_holding (so_Conditions o')) by exact Hv. rewrite set_holding by exact Hd.
  rewrite Heq at 3. by rewrite Heq at 2.
Qed.

Lemma verified_settles env env' o message :
  fe_status env = None → fe_patch env = None → same_world env env' → PreviewEnabled (so_Annotations o) = false →
  shouldTestFamilyConnection o = true → probe_outcome env o = Ok message →
  let o' := (setConnectionVerified env o None message).2 in (family_reconcile env' o').2 = o'.
Proof.
  intros Hs Hpa Hw Hp Ht Ho o'.
  destruct (verified_pass env o message Hs Hpa) as (_ & [Hi Hc] & Hn & (a & Heq) & Han & Hpr & Hf). fold o' in Hi, Hc, Hn, Heq, Han, Hpr, Hf.
  destruct (Hc Ht) as (Hv & Hd & Hcl).
  assert (PreviewEnabled (so_Annotations o') = false) as Hp' by (unfold PreviewEnabled in *; by rewrite Hpr).
  assert (ConnectionTestEnabledCommon o' = ConnectionTestEnabledCommon o ∧ so_Insecure o' = so_Insecure o ∧
    so_Generation o' = so_Generation o) as (Hen & Hin & Hg) by (by rewrite Heq).
  destruct (ConnectionTestEnabledCommon o) eqn:He.
  - assert (shouldTestFamilyConnection o' = true) as Ht' by (unfold shouldTestFamilyConnection; by rewrite Hen).
    assert (probe_outcome env' o' = Ok message) as Ho' by (rewrite Heq, <-Ho; by apply outcome_same).
    unfold family_reconcile, renderFamilyPreview. rewrite Hp', Hn, Ht', Ho'. cbn [negb].
    unfold setConnectionVerified, update_status. destruct (fe_status env'); [done|]. rewrite Hin, Hg.
    rewrite (remove_absent _ _ Hd), (insecure_again (fe_now env) (fe_now env') (RemoveStatusCondition (so_Conditions o) conditionDegraded)) by exact Hf.
    rewrite set_holding by exact Hv. assert (with_status (so_Conditions o') None o' = o') as -> by (rewrite <-Hn at 1; apply same_status).
    unfold shouldClearFamilyTestConnectionAnnotation. by rewrite Hen.
  - rewrite idle_pass; [done| |done|done|by rewrite Hin]. unfold shouldTestFamilyConnection. by rewrite Hen, Hcl.
Qed.

Lemma untested_settles env env' o :
  fe_status env = None → PreviewEnabled (so_Annotations o) = false → shouldTestFamilyConnection o = false →
  let o' := (family_reconcile env o).2 in
  (family_reconcile env o).1 = None ∧ insecure_shown (so_Insecure o) (so_Conditions o') ∧ so_Preview o' = None ∧
  (family_reconcile env' o').2 = o'.
Proof.
  intros Hs Hp Ht o'.
  assert ((family_reconcile env o).1 = None ∧ insecure_shown (so_Insecure o) (so_Conditions o') ∧
    o' = with_status (so_Conditions o') None o) as (He & Hi & Heq).
  { unfold o', family_reconcile, renderFamilyPreview. rewrite Hp, Ht. cbn [negb].
    pose proof (insecure_set (fe_now env) (so_Conditions o) (so_Insecure o) (so_Generation o)) as Hset.
    pose proof (insecure_settled (fe_now env) (so_Conditions o) (so_Insecure o) (so_Generation o)) as Hsame.
    destruct (setFamilyTLSInsecureCondition _ _ _ _) as [changed cs]. cbn in Hset, Hsame. unfold update_status. rewrite Hs.
    destruct (so_Preview o) eqn:Hn; cbn [orb]; [by split_and!|]. destruct changed; cbn; [by split_and!|].
    split_and!; [done|by apply Hsame|]. rewrite <-Hn. by rewrite same_status. }
  split_and!; [done|done|by rewrite Heq|]. rewrite idle_pass; [done| | | |]; rewrite Heq; done.
Qed.

Lemma tested_pass env o :
  PreviewEnabled (so_Annotations o) = false → shouldTestFamilyConnection o = true →
  family_reconcile env o =
    match probe_outcome env o with
    | Err (reason, message) => setConnectionFailed env o None reason message
    | Ok message => setConnectionVerified env o None message
    end.
Proof.
  intros Hp Ht. unfold family_reconcile, renderFamilyPreview. rewrite Hp, Ht. by destruct (so_Preview o).
Qed.

(** C26. Testing a sink settles, and its status tells the truth. When the status
    write and the patch of a pass succeed and no preview is asked for, the pass
    succeeds and stores an object on which a further pass, at any later time and
    whatever its writes answer, changes nothing as long as the Secrets and the
    remote answer alike (so the watch that every write triggers comes to rest); and
    the stored status shows disabled TLS verification exactly when the spec has it,
    and for a tested sink the outcome of the probe: verified and not degraded, with a
    one-shot annotation removed, or failed and degraded for the same reason. *)
Theorem family_sink_settles env env' o :
  fe_status env = None → fe_patch env = None → same_world env env' → PreviewEnabled (so_Annotations o) = false →
  let o' := (family_reconcile env o).2 in
  (family_reconcile env o).1 = None ∧ sink_truthful (probe_outcome env o) o o' ∧ so_Preview o' = None ∧
  (family_reconcile env' o').2 = o'.
Proof.
  intros Hs Hpa Hw Hp o'. destruct (shouldTestFamilyConnection o) eqn:Ht.
  - pose proof (tested_pass env o Hp Ht) as Heq. unfold o'. rewrite Heq. clear o' Heq.
    destruct (probe_outcome env o) as [message|[reason message]] eqn:Ho.
    + destruct (verified_pass env o message Hs Hpa) as (? & ? & ? & _). split_and!; [done..|]. by apply verified_settles.
    + destruct (failed_pass env o reason message Hs) as (? & ? & Heq & _). split_and!; [done|done|by rewrite Heq|by apply failed_settles].
  - destruct (untested_settles env env' o Hs Hp Ht) as (? & ? & ? & ?). split_and!; try done. split; [done|]. by rewrite Ht.
Qed.
End settled.

(** * One probe per test *)
Section once.
Context `{!ConditionApi, !ConditionLib, !ConditionLaws, !ApiErrors}.

Definition finished (t : conn_test) : bool :=
  bool_decide (ct_Completed (kt_Status t) = true ∧ ct_ObservedGeneration (kt_Status t) = kt_Generation t).

(** The reconciles of one generation of a test, until it is deleted. *)
Fixpoint test_run (envs : list test_env) (t : conn_test) : list test_outcome :=
  match envs with
  | [] => []
  | env :: envs =>
      let out := connectiontest_Reconcile env t in
      out :: match to_Stored out with Some t' => test_run envs t' | None => [] end
  end.

(** What a finished test shows of the reconcile that finished it. *)
Definition result_shown (out : test_outcome) (t : conn_test) : Prop :=
  let verified := holds (ct_Conditions (kt_Status t)) ConditionConnectionVerified in
  match to_Probed out with
  | Some (Ok message) => verified ConditionTrue "ConnectionOK" (redact_Text message) (kt_Generation t)
  | Some (Err e) => verified ConditionFalse "ConnectionTestFailed" (redact_Text (error_text e)) (kt_Generation t)
  | None => ∃ reason message, verified ConditionFalse reason message (kt_Generation t)
  end.

(** Its time to live has passed since it finished. *)
Definition expired (env : test_env) (t : conn_test) : Prop :=
  ∃ completedAt, ct_CompletedAt (kt_Status t) = Some completedAt ∧ (connectionTestTTL t ≤ time_sub (ce_now env) completedAt)%Z.

Lemma set_probe_stored ok r1 r2 message env probed stored t :
  finished stored = false →
  ∃ t', to_Stored (set_probe ok r1 r2 message env probed stored t) = Some t' ∧
    (finished t' = true →
     holds (ct_Conditions (kt_Status t')) ConditionConnectionVerified (if ok then ConditionTrue else ConditionFalse) r1
       (redact_Text message) (kt_Generation t')).
Proof.
  intros Hf. unfold set_probe. destruct (ce_status env) as [e|].
  - exists stored. split; [by destruct (ce_conflict env e)|]. by rewrite Hf.
  - eexists. split; [done|]. intros _. cbn. apply set_holds_other; [done|]. apply set_holds.
Qed.

Lemma set_probe_probed ok r1 r2 message env probed stored t :
  to_Probed (set_probe ok r1 r2 message env probed stored t) = probed.
Proof. unfold set_probe. destruct (ce_status env) as [e|]; [by destruct (ce_conflict env e)|done]. Qed.

(** A failure before the probe. *)
Lemma failed_unprobed env reason message t :
  finished t = false →
  let out := setProbeFailed env None reason message t t in
  ∃ t', to_Stored out = Some t' ∧ (finished t' = true → result_shown out t').
Proof.
  intros Hf out. destruct (set_probe_stored false reason reason message env None t t Hf) as (t' & Hs & Hc). exists t'. split; [done|].
  intros Hf'. unfold result_shown, out, setProbeFailed. rewrite set_probe_probed. eauto.
Qed.

Lemma probe_step env resolved t :
  finished t = false →
  let out := run_probe env resolved t in ∃ t', to_Stored out = Some t' ∧ (finished t' = true → result_shown out t').
Proof.
  intros Hf out. unfold out, run_probe. destruct (BuildContextFromSpec _ _ _) as [bc|e]; [|by apply failed_unprobed].
  destruct (RunConnectionTest _ _ bc) as [message|e]; unfold setProbeSucceeded, setProbeFailed;
    set (timed := with_test_status _ _).
  - destruct (set_probe_stored true "ConnectionOK" "ProbeSucceeded" message env (Some (Ok message)) t timed Hf) as (t' & Hs & Hc).
    exists t'. split; [done|]. unfold result_shown. by rewrite set_probe_probed.
  - destruct (set_probe_stored false "ConnectionTestFailed" "ConnectionTestFailed" (error_text e) env (Some (Err e)) t timed Hf)
      as (t' & Hs & Hc).
    exists t'. split; [done|]. unfold result_shown. by rewrite set_probe_probed.
Qed.

Lemma unfinished_step env t :
  finished t = false →
  let out := connectiontest_Reconcile env t in ∃ t', to_Stored out = Some t' ∧ (finished t' = true → result_shown out t').
Proof.
  intros Hf out. unfold out, connectiontest_Reconcile. rewrite decide_False by (by apply bool_decide_eq_false in Hf).
  destruct (Family _) as [[family name]|]; [|by apply failed_unprobed].
  destruct (sink_ResolveSink _ _ _ _) as [resolved|]; [|by apply failed_unprobed].
  destruct (ce_object env) as [uid|]; [|by apply failed_unprobed].
  destruct (ensureOwnerReference env t uid) as [t1|] eqn:Ho; [|exists t; by rewrite Hf].
  apply probe_step. revert Ho. unfold ensureOwnerReference. case_decide; [by intros [= <-]|]. case_decide; [by intros [= <-]|].
  destruct (ce_reference env); [done|]. destruct (ce_patch env); [done|]. by intros [= <-].
Qed.

Lemma finished_step env t :
  finished t = true →
  let out := connectiontest_Reconcile env t in
  to_Probed out = None ∧ (to_Stored out = Some t ∨ to_Stored out = None ∧ expired env t).
Proof.
  intros Hf out. unfold out, connectiontest_Reconcile. rewrite decide_True by (by apply bool_decide_eq_true in Hf).
  unfold reconcileTTL, expired. destruct (ct_CompletedAt _) as [c|]; [|by split; [|left]].
  case_decide; [|by split; [|left]]. destruct (ce_delete env) as [e|]; [destruct (api_IsNotFound e)|]; cbn; eauto 7.
Qed.

Lemma finished_run envs t j out :
  finished t = true → test_run envs t !! j = Some out →
  to_Probed out = None ∧ (to_Stored out = Some t ∨ to_Stored out = None ∧ ∃ env, envs !! j = Some env ∧ expired env t).
Proof.
  revert t j. induction envs as [|env envs IH]; intros t j Hf; [done|]. cbn [test_run].
  destruct (finished_step env t Hf) as [Hp Hs]. destruct j as [|j]; cbn.
  - intros [= <-]. split; [done|]. destruct Hs as [|[? ?]]; eauto 6.
  - destruct Hs as [->|[-> _]]; [by apply IH|done].
Qed.

(** C27. A connection test probes until one result is stored, and then keeps that
    result. In every sequence of reconciles of a test, whatever the API server and
    the sink answer: a stored finished test shows the outcome of the reconcile that
    finished it (verified exactly when that one's probe succeeded); after it no
    reconcile probes the sink again or changes the test; and it is deleted only when
    its time to live has passed since it finished. *)
Theorem connection_test_once envs t i out :
  finished t = false → test_run envs t !! i = Some out →
  match to_Stored out with
  | None => ∃ env t' k out', envs !! i = Some env ∧ k < i ∧ test_run envs t !! k = Some out' ∧ to_Stored out' = Some t' ∧
      finished t' = true ∧ expired env t'
  | Some t' =>
      finished t' = true →
      (∃ k out', k ≤ i ∧ test_run envs t !! k = Some out' ∧ to_Stored out' = Some t' ∧ result_shown out' t') ∧
      (∀ j out', i < j → test_run envs t !! j = Some out' →
         to_Probed out' = None ∧ (to_Stored out' = Some t' ∨ to_Stored out' = None))
  end.
Proof.
  revert t i. induction envs as [|env envs IH]; intros t i Hf; [done|]. cbn [test_run].
  destruct (unfinished_step env t Hf) as (t1 & Hs & Hr). set (out0 := connectiontest_Reconcile env t) in *. rewrite Hs.
  destruct i as [|i]; cbn [lookup list_lookup].
  - intros [= <-]. rewrite Hs. intros Hf1. split.
    + exists 0, out0. split_and!; [lia|done|done|by apply Hr].
    + intros [|j] out' Hj; [lia|]. cbn. intros Ho. destruct (finished_run envs t1 j out' Hf1 Ho) as [? [?|[? _]]]; eauto.
  - intros Ho. destruct (finished t1) eqn:Hf1.
    + destruct (finished_run envs t1 i out Hf1 Ho) as [_ [->|[-> (env' & He & Hx)]]].
      * intros _. split; [exists 0, out0; split_and!; [lia|done|done|by apply Hr]|].
        intros [|j] out' Hj; [lia|]. cbn. intros Ho'. destruct (finished_run envs t1 j out' Hf1 Ho') as [? [?|[? _]]]; eauto.
      * exists env', t1, 0, out0. split_and!; [done|lia|done..].
    + specialize (IH t1 i Hf1 Ho). destruct (to_Stored out) as [t'|].
      * intros Hf'. destruct (IH Hf') as [(k & out' & ? & ? & ? & ?) Hlater]. split.
        { exists (S k), out'. split_and!; [lia|done|done|done]. }
        intros [|j] out'' Hj; [lia|]. cbn. apply Hlater. lia.
      * destruct IH as (env' & t' & k & out' & ? & ? & ? & ? & ? & ?). exists env', t', (S k), out'. split_and!; [done|lia|done..].
Qed.
End once.

(** * Objects *)
Module SinkDemo.
#[local] Existing Instances ascii_only_case sort_by_merge_sort demo_sha256 no_api_errors.
#[local] Instance same_yaml : Yaml := {| json_to_yaml s := Some s |}.

(** [apimeta] on lists: a condition is replaced in place and keeps its time when
    its status does not change. *)
Definition replaced (c old : Condition) : Condition :=
  mkCondition (cond_Type c) (cond_Status c) (cond_Reason c) (cond_Message c) (cond_ObservedGeneration c)
    (if decide (cond_Status old = cond_Status c) then cond_LastTransitionTime old else cond_LastTransitionTime c).

Fixpoint set_condition (cs : list Condition) (c : Condition) : list Condition :=
  match cs with
  | [] => [c]
  | old :: cs => if decide (cond_Type old = cond_Type c) then replaced c old :: cs else old :: set_condition cs c
  end.

Fixpoint remove_condition (cs : list Condition) (t : string) : list Condition :=
  match cs with
  | [] => []
  | c :: cs => if decide (cond_Type c = t) then remove_condition cs t else c :: remove_condition cs t
  end.

Fixpoint find_condition (cs : list Condition) (t : string) : option Condition :=
  match cs with
  | [] => None
  | c :: cs => if decide (cond_Type c = t) then Some c else find_condition cs t
  end.

#[local] Instance meta_api : ConditionApi :=
  {| SetStatusCondition := set_condition; redact_Text t := t; ErrSpillRequired := 5 |}.
#[local] Instance meta_lib : ConditionLib := {| FindStatusCondition := find_condition; RemoveStatusCondition := remove_condition |}.

#[local] Instance meta_laws : ConditionLaws.
Proof.
  split; cbn.
  - intros cs c. induction cs as [|old cs IH]; cbn; [rewrite decide_True by done; eauto 8|].
    destruct (decide (cond_Type old = cond_Type c)) as [He|He]; cbn; [rewrite decide_True by done|by rewrite decide_False].
    eexists; split_and!; [done|done..].
  - intros cs c t Ht. induction cs as [|old cs IH]; cbn; [by rewrite decide_False|].
    destruct (decide (cond_Type old = cond_Type c)) as [He|He]; cbn.
    + by rewrite decide_False, (decide_False (P := cond_Type old = t)) by congruence.
    + by rewrite IH.
  - intros cs t. induction cs as [|c cs IH]; cbn; [done|]. destruct (decide (cond_Type c = t)); [done|]. cbn. by rewrite decide_False.
  - intros cs t t' Ht. induction cs as [|c cs IH]; cbn; [done|]. destruct (decide (cond_Type c = t)); cbn; rewrite IH; [|done].
    by rewrite decide_False by congruence.
Qed.

#[local] Instance meta_stable : ConditionStable.
Proof.
  split; cbn.
  - intros cs c c'. induction cs as [|old cs IH]; cbn; [done|]. destruct (decide (cond_Type old = cond_Type c)) as [He|He].
    + intros [= ->] Hs Hr Hm Hg. f_equal. unfold replaced. rewrite decide_True by done. destruct c', c; cbn in *; by subst.
    + intros. f_equal. by apply IH.
  - intros cs t. induction cs as [|c cs IH]; cbn; [done|]. destruct (decide (cond_Type c = t)); [done|]. intros. f_equal. by apply IH.
Qed.

Definition no_failures : probe_answers :=
  mkProbeAnswers (λ _, None) (λ _ _, None) (λ _, None) (λ _ _, None) (λ _ _ _, None).
Definition unreachable (text : string) : probe_answers :=
  mkProbeAnswers (λ _, None) (λ _ _, None) (λ _, None) (λ _ _, None) (λ _ _ _, Some (Leaf 1 text)).

Definition at_time (probe : probe_answers) (now : Z) : family_env :=
  mkFamilyEnv (λ _, Ok None) (λ _, "secret") probe None None now now now.

Definition kafka_spec : SinkSecrets := mkSinkSecrets "kafka" None None None None None None None None.
Definition kafka_view : preview_spec :=
  mkPreviewSpec (mkKollectSinkSpec "kafka" "" "" "" None None None None) (mkDbSpec "kafka" "" None None None None) None (Some "inventory").

Definition demo_sink (annotations : gmap string string) (test : option bool) (insecure : bool) : sink_obj :=
  mkSinkObj "team" "bus" 1 annotations test insecure kafka_spec kafka_view [] None.

Lemma family_sink_settles_witness :
  let o := demo_sink {[AnnotationTestConnection := "true"]} (Some false) true in
  let env := at_time no_failures 5 in
  let o' := (family_reconcile env o).2 in
  so_Annotations o' = ∅ ∧ so_Conditions o' ≠ [] ∧ (family_reconcile (at_time no_failures (9 * second)) o').2 = o'.
Proof.
  cbv zeta. split; [vm_compute; reflexivity|]. split; [vm_compute; discriminate|].
  refine (proj2 (proj2 (proj2 (family_sink_settles (at_time no_failures 5) (at_time no_failures (9 * second))
    (demo_sink {[AnnotationTestConnection := "true"]} (Some false) true) _ _ _ _)))).
  - reflexivity.
  - reflexivity.
  - split; [reflexivity|split; reflexivity].
  - vm_compute. reflexivity.
Defined.

(** The annotation of a one-shot test stays on a sink whose tests are enabled, the
    default: setting it again is no change of the object and triggers nothing. On a
    sink whose tests are disabled a failed probe keeps it too, and every later pass
    probes again. *)
Example test_annotation_kept :
  let annotated := {[AnnotationTestConnection := "true"]} : gmap string string in
  so_Annotations (family_reconcile (at_time no_failures 5) (demo_sink annotated None false)).2 = annotated ∧
  so_Annotations (family_reconcile (at_time (unreachable "refused") 5) (demo_sink annotated (Some false) false)).2 = annotated.
Proof. vm_compute. split; reflexivity. Qed.

(** With the preview annotation every pass in another second stores another object,
    so that its own write triggers the next pass. *)
Example preview_never_settles :
  let o := demo_sink {[AnnotationPreview := "true"]} (Some false) false in
  let first := (family_reconcile (at_time no_failures 0) o).2 in
  let second_pass := (family_reconcile (at_time no_failures second) first).2 in
  (pv_RenderedAt <$> so_Preview first) = Some 0%Z ∧ (pv_RenderedAt <$> so_Preview second_pass) = Some second.
Proof. vm_compute. split; reflexivity. Qed.

(** So does a probe whose error text varies, as one with an ephemeral port. *)
Example varying_error_never_settles :
  let pass text t o := (family_reconcile (at_time (unreachable text) t) o).2 in
  let first := pass "read tcp 10.0.0.1:40001: timeout" 0%Z (demo_sink ∅ None false) in
  let next := pass "read tcp 10.0.0.1:40002: timeout" 1%Z first in
  bool_decide (cond_Message <$> so_Conditions first = (cond_Message <$> so_Conditions next)) = false.
Proof. vm_compute. reflexivity. Qed.

(** Turning the tests off leaves the conditions of the last failed one. *)
Example disabled_test_stays_degraded :
  let failed := (family_reconcile (at_time (unreachable "refused") 0) (demo_sink ∅ None false)).2 in
  let off := mkSinkObj "team" "bus" 2 ∅ (Some false) false kafka_spec kafka_view (so_Conditions failed) None in
  cond_Type <$> so_Conditions (family_reconcile (at_time no_failures 9) off).2 = [ConditionConnectionVerified; conditionDegraded].
Proof. vm_compute. reflexivity. Qed.

Definition test_at (probe : probe_answers) (status : option err) (now : Z) : test_env :=
  mkTestEnv (λ _ _ _, Ok (kafka_spec, "uid", 1%Z)) (λ _, "missing") (Ok "uid") None None (λ _, Ok None) (λ _, "secret") probe
    0 (3 * 1000000) now status (λ _, true) None.

Definition demo_test : conn_test :=
  mkConnTest "team" 1 (mkTestSinkRef "" "" "bus") None None [] (mkTestStatus [] 0 0 false None).

(** A conflict, a success, a pass before the end of the time to live and one after
    it. *)
Definition demo_run : list test_env :=
  [test_at (unreachable "refused") (Some (Leaf 2 "conflict")) 0; test_at no_failures None second;
   test_at no_failures None (5 * second); test_at no_failures None (400 * second)].

Example test_run_ends :
  (λ out, (to_Requeue out, bool_decide (is_Some (to_Probed out)), kt_Owners <$> to_Stored out)) <$> test_run demo_run demo_test =
  [(Some second, true, Some ["uid"]); (None, true, Some ["uid"]); (Some (296 * second)%Z, false, Some ["uid"]); (None, false, None)].
Proof. vm_compute. reflexivity. Qed.

Lemma connection_test_once_witness :
  ∃ t' out, test_run demo_run demo_test !! 1 = Some out ∧ to_Stored out = Some t' ∧ finished t' = true ∧
    ∀ j out', 1 < j → test_run demo_run demo_test !! j = Some out' →
      to_Probed out' = None ∧ (to_Stored out' = Some t' ∨ to_Stored out' = None).
Proof.
  destruct (test_run demo_run demo_test !! 1) as [out|] eqn:Ho; [|exfalso; revert Ho; vm_compute; discriminate].
  pose proof (connection_test_once demo_run demo_test 1 out eq_refl Ho) as H'.
  destruct (to_Stored out) as [t'|] eqn:Hs.
  - assert (finished t' = true) as Hf.
    { revert Ho Hs. vm_compute. intros [= <-] [= <-]. reflexivity. }
    exists t', out. split; [reflexivity|]. split; [exact Hs|]. split; [exact Hf|]. exact (proj2 (H' Hf)).
  - exfalso. revert Ho Hs. vm_compute. intros [= <-]. discriminate.
Defined.
End SinkDemo.
