(* ===== verification/Redact.v ===== *)
(** The redaction of error texts on their way into a status or an event,
    [src/internal/redact/redact.go], and the narrower one of git output,
    [src/internal/sink/git/redact.go]. The expressions are those of the source;
    under [(?i)] two runes outside ASCII count as letters, the long s and the Kelvin
    sign. *)

From S2P Require Import Prelude GoStrings GoRegexp Errors.

Definition Placeholder : string := "***".

Definition quote1 : ascii := "'"%char.
Definition quote2 : ascii := ascii_of_nat 34.
Definition backslash1 : ascii := ascii_of_nat 92.
Definition newline1 : ascii := ascii_of_nat 10.

(** [\s]: tab, line feed, form feed, carriage return, space. *)
Definition re_blank (c : ascii) : bool := existsb (λ n, nat_of_ascii c =? n) [9; 10; 12; 13; 32].
Definition among (l : list ascii) (c : ascii) : bool := bool_decide (c ∈ l).

(** * Case-insensitive parts *)

Definition long_s : string := String (ascii_of_nat 197) (String (ascii_of_nat 191) "").
Definition kelvin : string := String (ascii_of_nat 226) (String (ascii_of_nat 132) (String (ascii_of_nat 170) "")).

Definition is_letter (c : ascii) : bool :=
  let n := nat_of_ascii c in (65 <=? n) && (n <=? 90) || (97 <=? n) && (n <=? 122).
Definition is_digit1 (c : ascii) : bool := let n := nat_of_ascii c in (48 <=? n) && (n <=? 57).

(** The lower-case letter or another byte, in either case. *)
Definition ichar (c : ascii) : re :=
  let same d := (nat_of_ascii d =? nat_of_ascii c) || (is_letter c && (nat_of_ascii d + 32 =? nat_of_ascii c)) in
  if decide (c = "s"%char) then Alt (Class same) (Lit long_s)
  else if decide (c = "k"%char) then Alt (Class same) (Lit kelvin)
  else Class same.

Fixpoint ilit (s : string) : re := match s with "" => Lit "" | String c s => Seq (ichar c) (ilit s) end.
Definition ialts (l : list string) : re := foldr (λ s r, Alt (ilit s) r) (Class (λ _, false)) l.

(** [[a-z][a-z0-9+.\-]*://] *)
Definition scheme : re :=
  let outside := Alt (Lit long_s) (Lit kelvin) in
  seqs [Alt (Class is_letter) outside;
        Many (Alt (Class (λ c, is_letter c || is_digit1 c || among ["+"; "."; "-"]%char c)) outside);
        Lit "://"].

Definition plus (f : ascii → bool) : re := Seq (Class f) (Star f).

(** * The expressions *)

(** Go: internal/redact/redact.go:38-44 [urlUserinfoRE] *)
Definition urlUserinfoRE : re :=
  seqs [WordBoundary; Capture scheme; plus (λ c, negb (re_blank c || among ["/"%char; quote1; quote2] c)); Lit "@"].

(** Go: internal/redact/redact.go:51-51 [dqURLUserinfoRE] *)
Definition dqURLUserinfoRE : re :=
  seqs [Lit (String quote2 ""); Capture scheme;
        Many (Alt (Class (λ c, negb (among [quote2; backslash1; "@"%char; "/"%char; newline1] c)))
                  (Seq (Class (among [backslash1])) (Class (λ c, negb (among [newline1] c)))));
        Lit "@"].

(** Go: internal/redact/redact.go:52-52 [sqURLUserinfoRE] *)
Definition sqURLUserinfoRE : re :=
  seqs [Lit (String quote1 ""); Capture scheme; Star (λ c, negb (among [quote1; "@"%char; "/"%char; newline1] c)); Lit "@"].

(** Go: internal/redact/redact.go:55-60 [queryCredentialRE] *)
Definition queryCredentialRE : re :=
  seqs [Capture (seqs [Class (among ["?"; "&"; ";"]%char);
                       ialts ["access_token"; "refresh_token"; "id_token"; "private_token"; "token"; "password"; "passwd"; "pwd";
                              "secret"; "client_secret"; "api_key"; "apikey"; "sig"; "signature"];
                       Lit "="]);
        plus (λ c, negb (re_blank c || among ["&"%char; ";"%char; "#"%char; quote1; quote2] c))].

(** Go: internal/redact/redact.go:62-65 [authHeaderRE] *)
Definition authHeaderRE : re :=
  seqs [WordBoundary;
        Capture (seqs [ilit "authorization"; Star re_blank; Class (among [":"; "="]%char); Star re_blank;
                       ialts ["bearer"; "basic"; "token"; "digest"]; plus re_blank]);
        plus (λ c, negb (re_blank c || among [quote1; quote2; ","%char; ";"%char] c))].

(** Go: internal/redact/redact.go:67-70 [dsnPasswordRE] *)
Definition dsnPasswordRE : re :=
  let quoted q := seqs [Class (among [q]); Star (λ c, negb (among [q] c)); Class (among [q])] in
  seqs [WordBoundary; Capture (seqs [ialts ["password"; "passwd"; "pwd"]; Star re_blank; Lit "="; Star re_blank]);
        Alt (quoted quote1) (Alt (quoted quote2) (plus (λ c, negb (re_blank c || among [";"%char; "&"%char; quote1; quote2] c))))].

(** The loop over the known secret values. *)
Definition mask_secrets (secrets : list string) (msg : string) : string :=
  foldl (λ msg secret, if decide (secret = "") then msg else replace_all secret Placeholder msg) msg secrets.

(** Go: internal/redact/redact.go:72-92 [Text] *)
Definition Text (msg : string) (secrets : list string) : string :=
  let msg := replace_matches dqURLUserinfoRE (λ g, String quote2 g +:+ Placeholder +:+ "@") msg in
  let msg := replace_matches sqURLUserinfoRE (λ g, String quote1 g +:+ Placeholder +:+ "@") msg in
  let msg := replace_matches urlUserinfoRE (λ g, g +:+ Placeholder +:+ "@") msg in
  let msg := replace_matches queryCredentialRE (λ g, g +:+ Placeholder) msg in
  let msg := replace_matches authHeaderRE (λ g, g +:+ Placeholder) msg in
  let msg := replace_matches dsnPasswordRE (λ g, g +:+ Placeholder) msg in
  mask_secrets secrets msg.

(** The redacted error is a wrapper whose text is replaced.
    Go: internal/redact/redact.go:98-108 [Error] *)
Definition redact_Error (e : option err) (secrets : list string) : option (string * err) :=
  e' ← e; Some (Text (error_text e') secrets, e').

(** Go: internal/sink/git/redact.go:13-16 [httpURLUserinfoRE] *)
Definition httpURLUserinfoRE : re :=
  seqs [WordBoundary; Capture (seqs [ilit "http"; Opt (ilit "s"); Lit "://"]);
        plus (λ c, negb (re_blank c || among ["/"%char; quote1; quote2] c)); Lit "@"].

(** Go: internal/sink/git/redact.go:18-35 [redactCredentials] *)
Definition redactCredentials (msg : string) (secrets : list string) : string :=
  mask_secrets secrets (replace_matches httpURLUserinfoRE (λ g, g +:+ Placeholder +:+ "@") msg).

(** Go: internal/sink/git/redact.go:37-57 [redactionSecrets] *)
Definition redactionSecrets (token password : string) : list string :=
  filter (λ c, c ≠ "") [token; trim_space token; password].

(** * Known secrets *)

Definition star : ascii := "*"%char.

Lemma has_byte_cons c d s : has_byte c (String d s) = false ↔ d ≠ c ∧ has_byte c s = false.
Proof. change (String d s) with (String d "" +:+ s). rewrite has_byte_app, orb_false_iff. unfold has_byte at 1. cbn. by destruct (decide (c = d)) as [->|]; naive_solver. Qed.

(** A text that starts in the result, without a star, is one that starts in the
    message. *)
Lemma prefix_kept old t s :
  has_byte star t = false → has_prefix t (replace_all_go old Placeholder s 0) = true → has_prefix t s = true.
Proof.
  revert s. induction t as [|c t IH]; intros s Ht; [intros _; by apply has_prefix_true; exists s|].
  apply has_byte_cons in Ht as [Hc Ht]. destruct s as [|d s]; [done|]. cbn [replace_all_go].
  destruct (has_prefix old (String d s)).
  - intros [r Hr]%has_prefix_true. cbn in Hr. by injection Hr as <- _.
  - intros [r Hr]%has_prefix_true. rewrite app_cons in Hr. injection Hr as -> Hr.
    assert (has_prefix t s = true) as [r' ->]%has_prefix_true by (apply IH; [done|apply has_prefix_true; eauto]).
    apply has_prefix_true. by exists r'.
Qed.

(** The stars of a replacement start no text without a star. *)
Lemma contains_after_stars t s :
  t ≠ "" → has_byte star t = false → contains (Placeholder +:+ s) t = contains s t.
Proof.
  intros Hne Ht. destruct t as [|c t]; [done|]. apply has_byte_cons in Ht as [Hc _].
  assert (∀ s', has_prefix (String c t) (String star s') = false) as Hp.
  { intros s'. apply not_true_iff_false. intros [r Hr]%has_prefix_true. rewrite app_cons in Hr. by injection Hr as <- _. }
  change (Placeholder +:+ s) with (String star (String star (String star s))). cbn [contains]. by rewrite !Hp.
Qed.

Lemma contains_kept old t s k :
  t ≠ "" → has_byte star t = false → contains (replace_all_go old Placeholder s k) t = true → contains s t = true.
Proof.
  intros Hne Ht. revert k. induction s as [|d s IH]; intros k; [done|]. cbn [replace_all_go]. destruct k as [|k].
  - destruct (has_prefix old (String d s)) eqn:Hh.
    + rewrite contains_after_stars by done. intros H%IH. cbn [contains]. by rewrite H, orb_true_r.
    + intros H. pose proof (prefix_kept old t (String d s) Ht) as Hk. cbn [replace_all_go] in Hk. rewrite Hh in Hk.
      cbn [contains] in H. apply orb_true_iff in H as [H|H%IH]; cbn [contains]; [by rewrite Hk|by rewrite H, orb_true_r].
  - intros H%IH. cbn [contains]. by rewrite H, orb_true_r.
Qed.

Lemma replaced_gone old s k :
  old ≠ "" → has_byte star old = false → contains (replace_all_go old Placeholder s k) old = false.
Proof.
  intros Hne Ho. revert k. induction s as [|d s IH]; intros k; [by destruct old|]. cbn [replace_all_go]. destruct k as [|k]; [|apply IH].
  destruct (has_prefix old (String d s)) eqn:Hh; [rewrite contains_after_stars by done; apply IH|].
  cbn [contains]. rewrite IH, orb_false_r. apply not_true_iff_false. intros H.
  pose proof (prefix_kept old old (String d s) Ho) as Hk. cbn [replace_all_go] in Hk. rewrite Hh in Hk. specialize (Hk H). congruence.
Qed.

Lemma masked_kept secrets msg t :
  t ≠ "" → has_byte star t = false → contains (mask_secrets secrets msg) t = true → contains msg t = true.
Proof.
  intros Hne Ht. revert msg. induction secrets as [|old secrets IH]; intros msg; [done|]. cbn. intros H%IH. revert H.
  case_decide; [done|]. by apply contains_kept.
Qed.

Lemma masked_gone secrets msg secret :
  secret ∈ secrets → secret ≠ "" → has_byte star secret = false → contains (mask_secrets secrets msg) secret = false.
Proof.
  intros Hin Hne Hs. revert msg. induction secrets as [|old secrets IH]; intros msg; [by apply elem_of_nil in Hin|]. cbn.
  apply elem_of_cons in Hin as [<-|Hin]; [|by apply IH]. rewrite decide_False by done. apply not_true_iff_false. intros H%masked_kept; [|done..]. revert H.
  apply not_true_iff_false. by apply replaced_gone.
Qed.

(** The secret values that a caller passes to a redaction do not get through it:
    whatever the message and the other secrets, no such value without a star occurs
    anywhere in the redacted text; an error made of git output is redacted with the
    token and the password of the credentials. (The callers that write statuses and
    events pass no values and rely on the patterns.) *)
Theorem known_secrets_masked msg secrets secret :
  secret ≠ "" → has_byte star secret = false →
  (secret ∈ secrets → contains (Text msg secrets) secret = false ∧ contains (redactCredentials msg secrets) secret = false) ∧
  (∀ token password, secret ∈ [token; trim_space token; password] →
     contains (redactCredentials msg (redactionSecrets token password)) secret = false).
Proof.
  intros Hne Hs. split.
  - intros Hin. split; by apply masked_gone.
  - intros token password Hin. apply masked_gone; [|done..]. apply list_elem_of_filter. done.
Qed.

Lemma known_secrets_masked_witness :
  let msg := "dial nats://u:hunter2@h: auth hunter2 refused" in
  Text msg ["hunter2"] = "dial nats://***@h: auth *** refused" ∧ contains (Text msg ["hunter2"]) "hunter2" = false.
Proof.
  cbv zeta. split; [vm_compute; reflexivity|].
  refine (proj1 (proj1 (known_secrets_masked "dial nats://u:hunter2@h: auth hunter2 refused" ["hunter2"] "hunter2" _ _) _)).
  - discriminate.
  - reflexivity.
  - apply list_elem_of_singleton. reflexivity.
Defined.

(** * Texts *)
Module RedactDemo.
Definition dq : string := String quote2 "".

(** The carriers the package documents. *)
Example carriers_masked :
  Text ("parse " +:+ dq +:+ "https://u:p w@h/x" +:+ dq +:+ ": bad") [] = "parse " +:+ dq +:+ "https://***@h/x" +:+ dq +:+ ": bad" ∧
  Text "GET /a?x=1&Access_Token=abc#f" [] = "GET /a?x=1&Access_Token=***#f" ∧
  Text "authorization: Bearer abc.def, next" [] = "authorization: Bearer ***, next" ∧
  Text "host=h password = 'a b' user=u" [] = "host=h password = *** user=u" ∧
  Text "nothing to hide @ all" [] = "nothing to hide @ all".
Proof. vm_compute. split_and!; reflexivity. Qed.

(** Redacting twice is not redacting once: a masked password loses its quotes, and
    what is left is the userinfo of a URL. *)
Example not_idempotent :
  let msg := "https://password=" +:+ dq +:+ "x" +:+ dq +:+ "@h" in
  Text msg [] = "https://password=***@h" ∧ Text (Text msg []) [] = "https://***@h".
Proof. vm_compute. split; reflexivity. Qed.

(** The word boundary before the scheme: after an underscore or a digit the userinfo
    is left as it is. *)
Example underscore_hides_url :
  Text "SINK_nats://u:p@h" [] = "SINK_nats://u:p@h" ∧ Text "1https://u:p@h" [] = "1https://u:p@h" ∧
  Text "SINK=nats://u:p@h" [] = "SINK=nats://***@h".
Proof. vm_compute. split_and!; reflexivity. Qed.
End RedactDemo.
