(* ===== verification/Webhooks.v ===== *)
(** The webhooks of inventories, cluster kinds, scopes, family sinks and connection
    tests, [src/internal/webhook/v1alpha1], around the validation functions modelled
    with their components. A webhook reads scopes and profiles like the reconcilers
    do: what the API server answers is an argument ([None] when a list fails), and a
    refusal is a constructor. *)

From S2P Require Import Prelude GoStrings Values Store Api Filter Scope Errors Engine Intervals Conditions SinkSpec Secrets TargetReconcile.
From S2P Require Import ClusterTarget InventoryReconcile ClusterInventory Admission SinkReconcile.

Inductive refusal :=
  | TenantModeRejected
  | SpecInvalid (errs : ErrorList)
  | SecretRefsInvalid (errs : ErrorList) (forbidden : list string)
  | ScopeLoadFailed (v : violation)
  | ScopeViolated (v : violation)
  | ProfileLoadFailed.

Definition refuse_errors (errs : ErrorList) : result refusal unit :=
  match errs with [] => Ok tt | errs => Err (SpecInvalid errs) end.

(** An object that is being deleted is not validated. *)
Definition unless_deleting (deleting : bool) (r : result refusal unit) : result refusal unit := if deleting then Ok tt else r.

(** * Inventories *)
Section inventories.
Context (dns1123 subdomain : string → bool) (globalCap : Z).

(** Go: internal/webhook/v1alpha1/kollectinventory_webhook.go:54-83 [validate] *)
Definition inventory_validate (listed : option (list KollectScope)) (inv : inventory_obj) : result refusal unit :=
  let spec := vo_Spec inv in
  refuse_errors (ValidateInventorySpec dns1123 globalCap (Some spec));;
  match Load listed with
  | Err v => Err (ScopeLoadFailed v)
  | Ok binding =>
      if Enforced binding && bool_decide (is_Some (binding_Scope binding)) then
        let floor := ScopeMinExportInterval (binding_Scope binding) in
        refuse_errors (ValidateIntervalsAgainstScopeFloor (inv_ExportMinInterval spec) (AllInventorySinkRefLists (Some spec)) floor);;
        lift_err ScopeViolated (ValidateInventoryFamilySinkRefs (binding_Scope binding) (CollectInventorySinkBindings spec))
      else Ok tt
  end.

(** Go: internal/webhook/v1alpha1/kollectinventory_webhook.go:42-52 [ValidateUpdate] *)
Definition inventory_ValidateUpdate (listed : option (list KollectScope)) (inv : inventory_obj) : result refusal unit :=
  unless_deleting (vo_Deleting inv) (inventory_validate listed inv).

(** Go: internal/webhook/v1alpha1/kollectclusterinventory_webhook.go:90-120 [validateClusterScope] *)
Definition inventory_validateClusterScope (listed : option (list KollectClusterScope)) (inv : cluster_inventory_obj) : result refusal unit :=
  let spec := qo_Spec inv in
  match LoadCluster listed with
  | Err v => Err (ScopeLoadFailed v)
  | Ok binding =>
      if negb (cluster_Enforced binding) then Ok tt
      else
        let sinkNS := if decide (cinv_SinkNamespace spec = "") then DefaultSecretNamespace else cinv_SinkNamespace spec in
        lift_err ScopeViolated (for_each (ValidateClusterScopeStaticRefNamespace (cluster_Scope binding))
          (ClusterInventoryStaticRefNamespaces (Some spec) sinkNS));;
        lift_err ScopeViolated
          (ValidateClusterInventoryClusterScopeSinkRefs (cluster_Scope binding) (CollectClusterInventorySinkBindings spec))
  end.

(** [scopes] are those of the inventory's sink namespace.
    Go: internal/webhook/v1alpha1/kollectclusterinventory_webhook.go:56-88 [validate] *)
Definition clusterinventory_validate (tenantMode : bool) (scopes : option (list KollectScope)) (listed : option (list KollectClusterScope))
    (inv : cluster_inventory_obj) : result refusal unit :=
  let spec := qo_Spec inv in
  if tenantMode then Err TenantModeRejected
  else
    refuse_errors (ValidateClusterInventorySpec subdomain dns1123 globalCap (Some spec));;
    match Load scopes with
    | Err v => Err (ScopeLoadFailed v)
    | Ok binding =>
        (if Enforced binding && bool_decide (is_Some (binding_Scope binding)) then
           refuse_errors (ValidateIntervalsAgainstScopeFloor (cinv_ExportMinInterval spec)
             (AllClusterInventorySinkRefLists (Some spec)) (ScopeMinExportInterval (binding_Scope binding)))
         else Ok tt);;
        inventory_validateClusterScope listed inv
    end.

(** Go: internal/webhook/v1alpha1/kollectclusterinventory_webhook.go:44-54 [ValidateUpdate] *)
Definition clusterinventory_ValidateUpdate (tenantMode : bool) (scopes : option (list KollectScope))
    (listed : option (list KollectClusterScope)) (inv : cluster_inventory_obj) : result refusal unit :=
  unless_deleting (qo_Deleting inv) (clusterinventory_validate tenantMode scopes listed inv).
End inventories.

(** * Cluster targets *)
Section cluster_targets.
Context `{!CelApi, !UnicodeCase}.
Context (dns1123 subdomain : string → bool).

(** Go: internal/validation/clustertarget.go:15-34 [ValidateClusterTargetSpec] *)
Definition ValidateClusterTargetSpec (spec : KollectClusterTargetSpec) : ErrorList :=
  ValidateNamespacedObjectRef subdomain dns1123 (ct_ProfileRef spec) (under spec_path ["profileRef"]) true ++
  (if namespaceSelectorEmpty (ct_NamespaceSelector spec)
   then [mkFieldError FieldRequired (under spec_path ["namespaceSelector"])] else []) ++
  ValidateCollectionFilterSpec (ct_Filter spec) spec_path.

(** [profile] is the read of the profile: found, not found, or another error.
    Go: internal/webhook/v1alpha1/kollectclustertarget_webhook.go:73-116 [validateClusterScope] *)
Definition target_validateClusterScope (listed : option (list KollectClusterScope)) (profile : option (option KollectProfile))
    (target : cluster_obj) : result refusal unit :=
  let spec := co_Spec target in
  match LoadCluster listed with
  | Err v => Err (ScopeLoadFailed v)
  | Ok binding =>
      if negb (cluster_Enforced binding) then Ok tt
      else
        match profile with
        | None => Err ProfileLoadFailed
        | Some found =>
            let gvk := match found with Some p => profile_TargetGVK (profile_Spec p) | None => mkGVK "" "" "" end in
            (if bool_decide (is_Some found) || (0 <? length (ResourceRules (ct_Filter spec)))
             then lift_err ScopeViolated (for_each (ValidateClusterScopeGVKs (cluster_Scope binding)) (CollectRuleGVKs (ct_Filter spec) gvk))
             else Ok tt);;
            lift_err ScopeViolated (ValidateClusterScopeNamespaces (cluster_Scope binding)
              (NormalizeNamespaceList (IncludedNamespaces (ct_Filter spec))));;
            lift_err ScopeViolated (ValidateClusterScopeStaticRefNamespace (cluster_Scope binding) (nref_Namespace (ct_ProfileRef spec)))
        end
  end.

(** Go: internal/webhook/v1alpha1/kollectclustertarget_webhook.go:57-71 [validate] *)
Definition clustertarget_validate (tenantMode : bool) (listed : option (list KollectClusterScope)) (profile : option (option KollectProfile))
    (target : cluster_obj) : result refusal unit :=
  if tenantMode then Err TenantModeRejected
  else refuse_errors (ValidateClusterTargetSpec (co_Spec target));; target_validateClusterScope listed profile target.

(** Go: internal/webhook/v1alpha1/kollectclustertarget_webhook.go:45-55 [ValidateUpdate] *)
Definition clustertarget_ValidateUpdate (tenantMode : bool) (listed : option (list KollectClusterScope))
    (profile : option (option KollectProfile)) (target : cluster_obj) : result refusal unit :=
  unless_deleting (co_Deleting target) (clustertarget_validate tenantMode listed profile target).
End cluster_targets.

(** * Scopes *)

Inductive ref_list_error := EmptyEntry (field : string) (i : nat) | DuplicateEntry (field : string) (i : nat).

Fixpoint unique_from (field : string) (seen : gset string) (i : nat) (values : list string) : option ref_list_error :=
  match values with
  | [] => None
  | value :: values =>
      if decide (value = "") then Some (EmptyEntry field i)
      else if decide (value ∈ seen) then Some (DuplicateEntry field i)
      else unique_from field ({[value]} ∪ seen) (S i) values
  end.

(** Go: internal/webhook/v1alpha1/kollectscope_webhook.go:70-84 [validateUniqueNonEmptyStrings] *)
Definition validateUniqueNonEmptyStrings (values : list string) (field : string) : option ref_list_error :=
  unique_from ("spec." +:+ field) ∅ 0 values.

(** The first error of the three lists. *)
Definition validate_ref_lists (snapshot database event : list string) : option ref_list_error :=
  head (omap (λ c, validateUniqueNonEmptyStrings c.1 c.2)
    [(snapshot, "snapshotSinkRefs"); (database, "databaseSinkRefs"); (event, "eventSinkRefs")]).

(** Go: internal/webhook/v1alpha1/kollectscope_webhook.go:47-68 [validate] *)
Definition scope_validate (s : KollectScope) : result (ErrorList + ref_list_error) unit :=
  match ValidateScopeCeilingSpec (scope_Ceiling (scope_Spec s)) [] with
  | (_ :: _) as errs => Err (inl errs)
  | [] =>
      match validate_ref_lists (scope_SnapshotSinkRefs (scope_Spec s)) (scope_DatabaseSinkRefs (scope_Spec s))
              (scope_EventSinkRefs (scope_Spec s)) with
      | Some e => Err (inr e)
      | None => Ok tt
      end
  end.

(** Go: internal/webhook/v1alpha1/kollectclusterscope_webhook.go:46-67 [validate] *)
Definition clusterscope_validate (s : KollectClusterScope) : result (ErrorList + ref_list_error) unit :=
  match ValidateScopeCeilingSpec (cscope_Ceiling (cscope_Spec s)) [] with
  | (_ :: _) as errs => Err (inl errs)
  | [] =>
      match validate_ref_lists (cscope_SnapshotSinkRefs (cscope_Spec s)) (cscope_DatabaseSinkRefs (cscope_Spec s))
              (cscope_EventSinkRefs (cscope_Spec s)) with
      | Some e => Err (inr e)
      | None => Ok tt
      end
  end.

(** * Sinks and connection tests *)

(** Go: internal/webhook/v1alpha1/family_sink_webhook.go:151-173 [validateNamespacedSinkScopeFloor] *)
Definition validateNamespacedSinkScopeFloor (listed : option (list KollectScope)) (interval : option Z) : result refusal unit :=
  match Load listed with
  | Err v => Err (ScopeLoadFailed v)
  | Ok binding =>
      if Enforced binding && bool_decide (is_Some (binding_Scope binding)) then
        refuse_errors (ValidateSinkIntervalAgainstScopeFloor interval (ScopeMinExportInterval (binding_Scope binding)))
      else Ok tt
  end.

(** The three webhooks differ in the validation of the spec; [refs] are the Secret
    references, checked against the sink's namespace.
    Go: internal/webhook/v1alpha1/family_sink_webhook.go:58-72 [validate, of a snapshot sink] *)
Definition family_sink_validate (validateSpec : FamilySink → ErrorList) (allowed : gset string) (listed : option (list KollectScope))
    (namespace : string) (refs : SinkSecrets) (spec : FamilySink) : result refusal unit :=
  match validateSpec spec, ValidateSecretRefNamespaces allowed refs namespace with
  | [], [] => validateNamespacedSinkScopeFloor listed (scf_ExportMinInterval (fs_Common spec))
  | errs, forbidden => Err (SecretRefsInvalid errs forbidden)
  end.

(** Go: internal/webhook/v1alpha1/family_sink_webhook.go:52-57 [ValidateUpdate, of a snapshot sink] *)
Definition family_sink_ValidateUpdate (deleting : bool) (validateSpec : FamilySink → ErrorList) (allowed : gset string)
    (listed : option (list KollectScope)) (namespace : string) (refs : SinkSecrets) (spec : FamilySink) : result refusal unit :=
  unless_deleting deleting (family_sink_validate validateSpec allowed listed namespace refs spec).

(** Go: internal/validation/family_sink.go:282-308 [ValidateConnectionTestSinkRef] *)
Definition ValidateConnectionTestSinkRef (ref : ConnectionTestSinkRef) : ErrorList :=
  let base := under spec_path ["sinkRef"] in
  let set := filter (λ fn, fn.2 ≠ "")
    [("snapshotSinkRef", tr_SnapshotSinkRef ref); ("databaseSinkRef", tr_DatabaseSinkRef ref); ("eventSinkRef", tr_EventSinkRef ref)] in
  match set with
  | [] => [mkFieldError FieldRequired base]
  | [(field, name)] => validateSameNamespaceRef name (under base [field])
  | _ => [mkFieldError FieldInvalid base]
  end.

(** Go: internal/validation/connectiontest.go:14-32 [ValidateConnectionTestSpec] *)
Definition ValidateConnectionTestSpec (sinkRef : ConnectionTestSinkRef) (profileRef : string) : ErrorList :=
  ValidateConnectionTestSinkRef sinkRef ++
  (if decide (profileRef ≠ "") then validateSameNamespaceRef profileRef (under spec_path ["profileRef"]) else []).

(** Go: internal/webhook/v1alpha1/kollectconnectiontest_webhook.go:39-49 [ValidateUpdate] *)
Definition connectiontest_ValidateUpdate (deleting : bool) (sinkRef : ConnectionTestSinkRef) (profileRef : string) : result refusal unit :=
  unless_deleting deleting (refuse_errors (ValidateConnectionTestSpec sinkRef profileRef)).

(** * Admission and reconciliation *)

(** No declared interval is below a floor. *)
Definition above_floor (floor : Z) (default : option Z) (lists : list InventorySinkRefList) : Prop :=
  (0 < floor)%Z →
  (∀ d, default = Some d → (floor ≤ d)%Z) ∧
  (∀ refs ref d, refs ∈ lists → ref ∈ refs → ref_ExportMinInterval ref = Some d → (floor ≤ d)%Z).

Lemma floor_errors_nil default lists floor :
  ValidateIntervalsAgainstScopeFloor default lists floor = [] ↔ above_floor floor default lists.
Proof.
  unfold ValidateIntervalsAgainstScopeFloor, above_floor. destruct (decide (floor ≤ 0)%Z) as [|Hf]; [split; [lia|done]|].
  rewrite app_nil.
  assert ((match default with
    | Some d => if intervalBelowFloor d floor then [mkFieldError FieldInvalid [Child "spec"; Child "exportMinInterval"]] else []
    | None => [] end) = [] ↔ (∀ d, default = Some d → (floor ≤ d)%Z)) as ->.
  { destruct default as [d|]; [|done]. unfold intervalBelowFloor. case_bool_decide.
    - split; [done|]. intros H'. specialize (H' d eq_refl). lia.
    - split; [|done]. intros _ ? [= <-]. lia. }
  assert ((lists ≫= λ refs : InventorySinkRefList, concat (imap (λ i ref, match ref_ExportMinInterval ref with
      | None => [] | Some d => if intervalBelowFloor d floor
      then [mkFieldError FieldInvalid [Child "spec"; Child "sinkRefs"; PathIndex i; Child "exportMinInterval"]] else [] end) refs)) = [] ↔
    Forall (Forall (λ r, ∀ x, ref_ExportMinInterval r = Some x → (floor ≤ x)%Z)) lists) as Hl.
  { induction lists as [|refs lists IH]; [by split|]. rewrite bind_cons, app_nil, IH, Forall_cons.
    by rewrite (validate_floor_refs refs (λ i, mkFieldError FieldInvalid [Child "spec"; Child "sinkRefs"; PathIndex i; Child "exportMinInterval"])). }
  rewrite Hl, Forall_forall. setoid_rewrite Forall_forall. split; [|intros H'; specialize (H' ltac:(lia))]; naive_solver.
Qed.

Lemma refuse_ok errs : refuse_errors errs = Ok tt ↔ errs = [].
Proof. by destruct errs. Qed.

Lemma lift_ok {E E'} (f : E → E') (r : result E unit) : lift_err f r = Ok tt ↔ r = Ok tt.
Proof. destruct r as [[]|]; naive_solver. Qed.

Lemma seq_ok {E} (r r' : result E unit) : (r;; r') = Ok tt ↔ r = Ok tt ∧ r' = Ok tt.
Proof. rewrite result_bind_ok. split; [by intros ([] & ? & ?)|intros []; by exists tt]. Qed.

(** A scope in force is one that was read. *)
Lemma load_some listed binding : Load listed = Ok binding → Enforced binding = bool_decide (is_Some (binding_Scope binding)).
Proof. destruct listed as [[|s l]|]; [| |done]; intros [= <-]; reflexivity. Qed.

Lemma unenforced_floor listed binding :
  Load listed = Ok binding → Enforced binding = false → ScopeMinExportInterval (binding_Scope binding) = 0%Z.
Proof. destruct listed as [[|s l]|]; [| |done]; intros [= <-]; [done|discriminate]. Qed.

(** The floor of the scopes in force. *)
Definition floor_in_force (listed : option (list KollectScope)) : Z :=
  match Load listed with Ok binding => ScopeMinExportInterval (binding_Scope binding) | Err _ => 0%Z end.

Section agreement.
Context `{!CelApi, !UnicodeCase}.
Context (dns1123 subdomain : string → bool) (globalCap : Z).

Lemma inventory_agrees (env : inv_env) inv :
  inventory_validate dns1123 globalCap (ie_scope env) inv = Ok tt ↔
  ValidateInventorySpec dns1123 globalCap (Some (vo_Spec inv)) = [] ∧ enforceInventory env inv = None ∧
  above_floor (floor_in_force (ie_scope env)) (inv_ExportMinInterval (vo_Spec inv)) (AllInventorySinkRefLists (Some (vo_Spec inv))).
Proof.
  unfold inventory_validate. rewrite seq_ok, refuse_ok. unfold enforceInventory, floor_in_force.
  destruct (Load (ie_scope env)) as [binding|v] eqn:Hl; [|naive_solver].
  rewrite (load_some _ _ Hl). pose proof (unenforced_floor _ _ Hl) as Hu. rewrite (load_some _ _ Hl) in Hu.
  case_bool_decide as Hs; cbn [andb negb].
  - rewrite seq_ok, refuse_ok, lift_ok, floor_errors_nil. unfold inventorySinkBindings.
    destruct (ValidateInventoryFamilySinkRefs _ _) as [[]|]; naive_solver.
  - rewrite Hu by done. split; [|naive_solver]. intros [Hspec _]. split_and!; [done|done|]. intros ?. lia.
Qed.

Lemma clusterinventory_agrees (env : rollup_env) scopes inv :
  let sinkNS := if decide (cinv_SinkNamespace (qo_Spec inv) = "") then DefaultSecretNamespace else cinv_SinkNamespace (qo_Spec inv) in
  clusterinventory_validate dns1123 subdomain globalCap false scopes (qe_scope env) inv = Ok tt ↔
  ValidateClusterInventorySpec subdomain dns1123 globalCap (Some (qo_Spec inv)) = [] ∧
  enforceClusterScopePolicy env inv sinkNS (CollectClusterInventorySinkBindings (qo_Spec inv)) = Ok None ∧
  is_ok (Load scopes) = true ∧
  above_floor (floor_in_force scopes) (cinv_ExportMinInterval (qo_Spec inv)) (AllClusterInventorySinkRefLists (Some (qo_Spec inv))).
Proof.
  intros sinkNS. unfold clusterinventory_validate. rewrite seq_ok, refuse_ok. unfold floor_in_force.
  destruct (Load scopes) as [binding|v] eqn:Hl; [|cbn; naive_solver].
  pose proof (unenforced_floor _ _ Hl) as Hu. rewrite (load_some _ _ Hl) in *. cbn [is_ok]. rewrite seq_ok.
  assert (inventory_validateClusterScope (qe_scope env) inv = Ok tt ↔
    enforceClusterScopePolicy env inv sinkNS (CollectClusterInventorySinkBindings (qo_Spec inv)) = Ok None) as ->.
  { unfold inventory_validateClusterScope, enforceClusterScopePolicy. fold sinkNS.
    destruct (LoadCluster (qe_scope env)) as [b|]; [|done]. destruct (cluster_Enforced b); [|done]. cbn [negb].
    rewrite seq_ok, !lift_ok. destruct (for_each _ _) as [[]|]; [|naive_solver].
    destruct (ValidateClusterInventoryClusterScopeSinkRefs _ _) as [[]|]; naive_solver. }
  case_bool_decide as Hs; cbn [andb].
  - rewrite refuse_ok, floor_errors_nil. naive_solver.
  - rewrite Hu by done. split; [|naive_solver]. intros (? & _ & ?). split_and!; [done..|]. intros ?. lia.
Qed.

Lemma clustertarget_passes (env : cluster_env) profile target :
  clustertarget_validate dns1123 subdomain false (ce_scope env) (Some (Some profile)) target = Ok tt →
  ValidateClusterTargetSpec dns1123 subdomain (co_Spec target) = [] ∧ ∃ b, loadClusterScopeBinding env (co_Spec target) profile = Ok (b, None).
Proof.
  unfold clustertarget_validate. rewrite seq_ok, refuse_ok. intros [Hspec Hs]. split; [done|]. revert Hs.
  unfold target_validateClusterScope, loadClusterScopeBinding. destruct (LoadCluster (ce_scope env)) as [b|]; [|done].
  destruct (cluster_Enforced b); [|by eexists]. cbn [negb]. rewrite bool_decide_eq_true_2 by done. cbn [orb].
  rewrite !seq_ok, !lift_ok. intros (Hg & _ & Hn). exists b. unfold cluster_scope_denial. by rewrite Hn, Hg.
Qed.

(** C28. What admission accepts the reconcilers accept, and for inventories the
    other way round. With the same scopes: an inventory is admitted exactly when its
    spec is valid, the policy check of its reconciler passes, and no declared export
    interval is below the floor of the scope; a cluster inventory likewise, for the
    cluster scope and the floor of its sink namespace, unless the operator runs in
    tenant mode; and an admitted cluster target whose profile exists passes the policy
    check of its reconciler. *)
Theorem admission_agrees_with_reconcile ienv inv renv scopes cinv cenv profile target :
  (inventory_validate dns1123 globalCap (ie_scope ienv) inv = Ok tt ↔
   ValidateInventorySpec dns1123 globalCap (Some (vo_Spec inv)) = [] ∧ enforceInventory ienv inv = None ∧
   above_floor (floor_in_force (ie_scope ienv)) (inv_ExportMinInterval (vo_Spec inv)) (AllInventorySinkRefLists (Some (vo_Spec inv)))) ∧
  (let sinkNS := if decide (cinv_SinkNamespace (qo_Spec cinv) = "") then DefaultSecretNamespace else cinv_SinkNamespace (qo_Spec cinv) in
   clusterinventory_validate dns1123 subdomain globalCap false scopes (qe_scope renv) cinv = Ok tt ↔
   ValidateClusterInventorySpec subdomain dns1123 globalCap (Some (qo_Spec cinv)) = [] ∧
   enforceClusterScopePolicy renv cinv sinkNS (CollectClusterInventorySinkBindings (qo_Spec cinv)) = Ok None ∧
   is_ok (Load scopes) = true ∧
   above_floor (floor_in_force scopes) (cinv_ExportMinInterval (qo_Spec cinv)) (AllClusterInventorySinkRefLists (Some (qo_Spec cinv)))) ∧
  (clustertarget_validate dns1123 subdomain false (ce_scope cenv) (Some (Some profile)) target = Ok tt →
   ∃ b, loadClusterScopeBinding cenv (co_Spec target) profile = Ok (b, None)).
Proof.
  split_and!; [apply inventory_agrees|apply clusterinventory_agrees|]. intros H'. by apply (clustertarget_passes cenv profile target) in H' as [_ ?].
Qed.
End agreement.

(** * Requests *)
Module WebhookDemo.
#[local] Existing Instances demo_cel ascii_only_case.

Definition scoped (sinks : list string) (floor : Z) : KollectScope :=
  mkKollectScope "s" (mkKollectScopeSpec (mkScopeCeilingSpec [] [] [] (Some floor)) sinks [] []).

Definition demo_target (ns : string) : cluster_obj :=
  mkClusterObj "t" 1
    (mkKollectClusterTargetSpec (mkNamespacedObjectReference "p" ns) (Some (mkLabelSelector {["team" := "x"]} []))
       (mkCollectionFilterSpec [] [] None []) false)
    [] false TargetDemo.blank.

Definition static_only (namespaces : list string) : KollectClusterScope :=
  mkKollectClusterScope "scope" (mkKollectClusterScopeSpec (mkScopeCeilingSpec [] [] [] None) [] [] [] namespaces).

Definition demo_env (obj : cluster_obj) : cluster_env :=
  mkClusterEnv (Ok obj) None (λ _, false) (Ok EngineDemo.profile) (Ok ClusterDemo.namespaces) (Some [static_only ["platform"]])
    (Leaf 0 "") (Some ClusterDemo.namespaces) (Some ClusterDemo.namespaces) (λ _, None) None 0 (λ _, "") (λ _, "").

Definition accept (s : string) : bool := true.

(** Refused and admitted objects. *)
Example verdicts :
  let two := InventoryDemo.two in
  inventory_validate accept 1000000 (Some [scoped ["git"; "s3"] 0]) two = Ok tt ∧
  is_ok (inventory_validate accept 1000000 (Some [scoped ["git"] 0]) two) = false ∧
  is_ok (inventory_validate accept 1000000 (Some [scoped ["git"; "s3"] 5]) two) = false ∧
  is_ok (inventory_validate accept 1000000 None two) = false ∧
  is_ok (clustertarget_validate accept accept false (Some [static_only ["other"]]) (Some None) (demo_target "platform")) = false ∧
  is_ok (clustertarget_validate accept accept true (Some []) (Some None) (demo_target "platform")) = false ∧
  ValidateConnectionTestSinkRef (mkTestSinkRef "a" "b" "") = [mkFieldError FieldInvalid (under spec_path ["sinkRef"])].
Proof. vm_compute. split_and!; reflexivity. Qed.

Lemma admission_agrees_with_reconcile_witness :
  enforceInventory InventoryDemo.all_fine InventoryDemo.two = None ∧
  clustertarget_validate accept accept false (ce_scope (demo_env (demo_target "platform"))) (Some (Some EngineDemo.profile))
    (demo_target "platform") = Ok tt ∧
  ∃ b, loadClusterScopeBinding (demo_env (demo_target "platform")) (co_Spec (demo_target "platform")) EngineDemo.profile = Ok (b, None).
Proof.
  pose proof (admission_agrees_with_reconcile accept accept 1000000 InventoryDemo.all_fine InventoryDemo.two
    (RollupDemo.env RollupDemo.git) (Some []) RollupDemo.git (demo_env (demo_target "platform")) EngineDemo.profile (demo_target "platform"))
    as (Hi & _ & Ht).
  split; [refine (proj1 (proj2 (proj1 Hi _))); vm_compute; reflexivity|].
  split; [vm_compute; reflexivity|]. apply Ht. vm_compute. reflexivity.
Defined.
End WebhookDemo.
