(* ===== verification/GitLab.v ===== *)
(** The GitLab sink, [src/internal/sink/gitlab]: the merge-request settings, the
    feature branch of an inventory, the REST client that opens a merge request, with
    its fallback to the API of Gitea, and the backend that pushes and then asks for
    the merge request. The push is an argument (it is modelled with the delivery of
    Git exports), and so are the answers of the two APIs. *)

From S2P Require Import Prelude GoStrings Errors GitTree ObjectPath LayoutExport GitExport Preview Cleanup.

(** * Settings *)

Definition MergeRequestModeDirectPush : string := "direct".
Definition MergeRequestModeBranchMR : string := "merge_request".

(** Go: internal/sink/gitlab/mr.go:23-30 [MergeRequestConfig] *)
Record MergeRequestConfig := mkMergeRequestConfig {
  mr_Mode : string;
  mr_TargetBranch : string;
  mr_BranchPrefix : string;
  mr_TitleTemplate : string;
}.

Inductive gitlab_error :=
  | ErrInvalidEndpoint
  | ErrEndpointScheme (scheme : string)
  | ErrNoProjectPath
  | ErrNoTargetBranch
  | ErrUnknownMode (mode : string)
  | ErrNoToken
  | ErrNoFilesToWrite
  | ErrRequest (e : err)
  | ErrStatus (code : Z) (body : string)
  | ErrDecode
  | ErrGit (e : err).

(** Go: internal/sink/gitlab/mr.go:62-75 [ValidateMergeRequestConfig] *)
Definition ValidateMergeRequestConfig (cfg : MergeRequestConfig) : result gitlab_error unit :=
  if decide (mr_Mode cfg = "" ∨ mr_Mode cfg = MergeRequestModeDirectPush) then Ok tt
  else if decide (mr_Mode cfg = MergeRequestModeBranchMR) then
    if decide (trim_space (mr_TargetBranch cfg) = "") then Err ErrNoTargetBranch else Ok tt
  else Err (ErrUnknownMode (mr_Mode cfg)).

(** [None]: one of the two blocks is not set.
    Go: internal/sink/gitlab/config.go:78-97 [mergeRequestConfigFromSpec] *)
Definition mergeRequestConfigFromSpec (spec : option MergeRequestConfig) : result gitlab_error MergeRequestConfig :=
  match spec with
  | None => Ok (mkMergeRequestConfig "" "" "" "")
  | Some mr =>
      let cfg := mkMergeRequestConfig (trim_space (mr_Mode mr)) (trim_space (mr_TargetBranch mr)) (trim_space (mr_BranchPrefix mr))
        (trim_space (mr_TitleTemplate mr)) in
      ValidateMergeRequestConfig cfg;; Ok cfg
  end.

Definition isHTTPSEndpointScheme (scheme : string) : bool := bool_decide (scheme = "https" ∨ scheme = "http").

(** What is left of the path of an endpoint.
    Go: internal/sink/gitlab/mr.go:40-57 [ResolveProjectRef] *)
Definition ResolveProjectRef `{!UrlApi} (endpoint : string) : result gitlab_error string :=
  match url_parse (trim_space endpoint) with
  | None => Err ErrInvalidEndpoint
  | Some u =>
      if negb (isHTTPSEndpointScheme (url_Scheme u)) then Err (ErrEndpointScheme (url_Scheme u))
      else
        let path := trim ["/"%char] (trim_suffix ".git" (trim_prefix "/" (url_Path u))) in
        if decide (path = "") then Err ErrNoProjectPath else Ok path
  end.

(** * Branches *)

Definition DefaultBranchPrefix : string := "kollect".
Definition inventoryKindCluster : string := "KollectClusterInventory".
Definition inventoryKindNamespaced : string := "KollectInventory".
Definition clusterInventoryPathNamespace : string := "cluster".
Definition clusterInventoryBranchSegment : string := "_cluster".

(** Go: internal/sink/gitlab/mr.go:90-106 [BranchNameForExport] *)
Definition BranchNameForExport (prefix kind inventoryNamespace inventoryName : string) : string :=
  let clean s := trim ["/"%char] (trim_space s) in
  let p := clean prefix in
  let p := if decide (p = "") then DefaultBranchPrefix else p in
  let ns := clean inventoryNamespace in
  let name := clean inventoryName in
  let ns := if decide (kind = inventoryKindCluster ∨ kind = "" ∧ ns = clusterInventoryPathNamespace)
            then clusterInventoryBranchSegment else ns in
  p +:+ "/" +:+ ns +:+ "/" +:+ name.

(** Go: internal/sink/gitlab/mr.go:108-116 [MergeRequestTitle] *)
Definition MergeRequestTitle (template inventoryNamespace inventoryName : string) : string :=
  let tpl := trim_space template in
  if decide (tpl = "") then "kollect inventory export: " +:+ inventoryNamespace +:+ "/" +:+ inventoryName
  else replace_all "{name}" inventoryName (replace_all "{namespace}" inventoryNamespace tpl).

(** * The REST client *)

(** Go: internal/sink/gitlab/client.go:119-124 [mergeRequestRecord] *)
Record mergeRequestRecord := mkMergeRequestRecord {
  mrr_SourceBranch : string;
  mrr_TargetBranch : string;
}.

(** The answer to a request: none, or a code and a body. *)
Inductive http_answer := Transport (e : err) | Response (code : Z) (body : string).

(** One API: listing the open requests of a source branch, and opening one; the
    number says which request of the run it is. *)
Record mr_api (W : Type) := mkMrApi {
  api_list : nat → string → W → http_answer;
  api_create : nat → string → string → string → W → http_answer * W;
}.
Arguments mkMrApi {_} _ _.
Arguments api_list {_} _ _ _ _.
Arguments api_create {_} _ _ _ _ _ _.

(** Whether a redirect may carry the token.
    Go: internal/sink/gitlab/client.go:81-92 [keepsCredentials] *)
Definition keepsCredentials `{!UnicodeCase} (originScheme originHost targetScheme targetHost : string) : bool :=
  if decide (targetHost ≠ originHost) then false
  else negb (equal_fold originScheme "https" && negb (equal_fold targetScheme "https")).

(** Go: internal/sink/gitlab/client.go:380-387 [trimBody] *)
Definition trimBody (body : string) : string :=
  let s := trim_space body in
  if decide (240 < String.length s) then String.substring 0 240 s +:+ "..." else s.

(** The texts of [HTTP %d: %s] that are searched for the two codes.
    Go: internal/sink/gitlab/client.go:352-360 [isGitLabAPIUnsupported] *)
Definition isGitLabAPIUnsupported (e : gitlab_error) : bool :=
  let unsupported msg := contains msg "HTTP 405" || contains msg "HTTP 404" in
  match e with
  | ErrStatus code body => unsupported ("HTTP " +:+ fmt_d code +:+ ": " +:+ body)
  | ErrRequest e => unsupported (error_text e)
  | _ => false
  end.

Section client.
Context {W : Type}.
(** [json.Unmarshal] of the body of a list. *)
Context (decode : string → option (list mergeRequestRecord)).
Context (gitlab gitea : mr_api W).

(** One of the two lists. *)
Definition list_with (api : mr_api W) (n : nat) (sourceBranch : string) (w : W) : result gitlab_error (list mergeRequestRecord) :=
  match api_list api n sourceBranch w with
  | Transport e => Err (ErrRequest e)
  | Response code body =>
      if decide (300 ≤ code)%Z then Err (ErrStatus code (trimBody body))
      else match decode body with Some records => Ok records | None => Err ErrDecode end
  end.

(** Go: internal/sink/gitlab/client.go:173-208 [listGitLabMergeRequests] *)
Definition listGitLabMergeRequests := list_with gitlab.
(** Go: internal/sink/gitlab/client.go:210-247 [listGiteaPullRequests] *)
Definition listGiteaPullRequests := list_with gitea.

(** Go: internal/sink/gitlab/client.go:152-171 [listOpenMergeRequests] *)
Definition listOpenMergeRequests (n : nat) (sourceBranch : string) (w : W) : result gitlab_error (list mergeRequestRecord) :=
  match listGitLabMergeRequests n sourceBranch w with
  | Ok records => Ok records
  | Err e => if isGitLabAPIUnsupported e then listGiteaPullRequests (S n) sourceBranch w else Err e
  end.

(** One of the two creations. *)
Definition create_with (api : mr_api W) (n : nat) (sourceBranch targetBranch title : string) (w : W) : result gitlab_error unit * W :=
  let '(answer, w) := api_create api n sourceBranch targetBranch title w in
  (match answer with
   | Transport e => Err (ErrRequest e)
   | Response code body => if decide (300 ≤ code)%Z then Err (ErrStatus code (trimBody body)) else Ok tt
   end, w).

(** Go: internal/sink/gitlab/client.go:268-305 [createGitLabMergeRequest] *)
Definition createGitLabMergeRequest := create_with gitlab.
(** Go: internal/sink/gitlab/client.go:307-346 [createGiteaPullRequest] *)
Definition createGiteaPullRequest := create_with gitea.

(** Go: internal/sink/gitlab/client.go:249-266 [createMergeRequest] *)
Definition createMergeRequest (n : nat) (sourceBranch targetBranch title : string) (w : W) : result gitlab_error unit * W :=
  let '(res, w) := createGitLabMergeRequest n sourceBranch targetBranch title w in
  match res with
  | Ok _ => (Ok tt, w)
  | Err e => if isGitLabAPIUnsupported e then createGiteaPullRequest (S n) sourceBranch targetBranch title w else (Err e, w)
  end.

(** Go: internal/sink/gitlab/client.go:126-150 [EnsureOpenMergeRequest] *)
Definition EnsureOpenMergeRequest (n : nat) (token sourceBranch targetBranch title : string) (w : W) : result gitlab_error unit * W :=
  if decide (trim_space token = "") then (Err ErrNoToken, w)
  else
    match listOpenMergeRequests n sourceBranch w with
    | Err e => (Err e, w)
    | Ok open =>
        if existsb (λ mr, bool_decide (mrr_TargetBranch mr = targetBranch)) open then (Ok tt, w)
        else createMergeRequest (S (S n)) sourceBranch targetBranch title w
    end.

(** Go: internal/sink/gitlab/mr.go:118-144 [EnsureMergeRequest] *)
Definition EnsureMergeRequest `{!UrlApi} (n : nat) (endpoint : string) (cfg : MergeRequestConfig)
    (sourceBranch inventoryNamespace inventoryName token : string) (w : W) : result gitlab_error unit * W :=
  match ValidateMergeRequestConfig cfg with
  | Err e => (Err e, w)
  | Ok _ =>
      if decide (mr_Mode cfg ≠ MergeRequestModeBranchMR) then (Ok tt, w)
      else
        match ResolveProjectRef endpoint with
        | Err e => (Err e, w)
        | Ok _ =>
            EnsureOpenMergeRequest n (trim_space token) sourceBranch (mr_TargetBranch cfg)
              (MergeRequestTitle (mr_TitleTemplate cfg) inventoryNamespace inventoryName) w
        end
  end.
End client.

(** * The backend *)

(** What a commit context says of the inventory. *)
Record inventory_id := mkInventoryId {
  id_Kind : string;
  id_Namespace : string;
  id_Name : string;
}.

(** The context of the call or, without one, what a path tells; a deletion or an
    export of no file has none.
    Go: internal/sink/git/commit.go:37-58 [CommitContextFromObjectPath] *)
Definition commit_identity (ctx : option inventory_id) (paths : list string) : inventory_id :=
  match ctx, paths with
  | Some id, _ => id
  | None, path :: _ => let '(ns, name) := InventoryFromObjectPath path in mkInventoryId "" ns name
  | None, [] => mkInventoryId "" "" ""
  end.

(** The git operations, by the branch they push to. *)
Record git_ops (W : Type) := mkGitOps {
  go_export : option BranchSpec → W → option err * W;
  go_export_files : option BranchSpec → W → option err * W;
  go_delete : option BranchSpec → W → result err (list string) * W;
  go_branch_exists : string → W → result err bool;
}.
Arguments mkGitOps {_} _ _ _ _.
Arguments go_export {_} _ _ _.
Arguments go_export_files {_} _ _ _.
Arguments go_delete {_} _ _ _.
Arguments go_branch_exists {_} _ _ _.

Section backend.
Context {W : Type} `{!UrlApi}.
Context (decode : string → option (list mergeRequestRecord)) (gitlab gitea : mr_api W) (git : git_ops W).
Context (endpoint : string) (cfg : MergeRequestConfig) (auth_Token auth_Password : string).

Definition branch_spec (featureBranch : string) : option BranchSpec :=
  if decide (mr_Mode cfg = MergeRequestModeBranchMR) then Some (mkBranchSpec featureBranch (mr_TargetBranch cfg)) else None.

Definition api_token : string :=
  let token := trim_space auth_Token in if decide (token = "") then trim_space auth_Password else token.

Definition ensure (n : nat) (featureBranch ns name : string) (w : W) : result gitlab_error unit * W :=
  EnsureMergeRequest decode gitlab gitea n endpoint cfg featureBranch ns name api_token w.

(** The branch and the title come from the object path, the kind from the context.
    Go: internal/sink/gitlab/backend.go:52-82 [Export] *)
Definition gitlab_Export (n : nat) (ctx : option inventory_id) (objectPath : string) (w : W) : result gitlab_error unit * W :=
  let '(invNS, invName) := legacyInventoryFromObjectPath objectPath in
  let featureBranch := BranchNameForExport (mr_BranchPrefix cfg) (id_Kind (commit_identity ctx [objectPath])) invNS invName in
  let '(e, w) := go_export git (branch_spec featureBranch) w in
  match e with
  | Some e => (Err (ErrGit e), w)
  | None => ensure n featureBranch invNS invName w
  end.

(** [prune] is the prune setting of the sink's configuration.
    Go: internal/sink/gitlab/backend.go:84-124 [ExportFiles] *)
Definition gitlab_ExportFiles (n : nat) (ctx : option inventory_id) (prune : bool) (opts : ExportFilesOptions) (paths : list string) (w : W) :
    result gitlab_error unit * W :=
  if bool_decide (paths = []) &&
     (bool_decide (opt_PruneOwner opts = "") || opt_SuppressPrune opts || negb (opt_Prune opts) && negb prune)
  then (Err ErrNoFilesToWrite, w)
  else
    let id := commit_identity ctx paths in
    let featureBranch := BranchNameForExport (mr_BranchPrefix cfg) (id_Kind id) (id_Namespace id) (id_Name id) in
    let '(e, w) := go_export_files git (branch_spec featureBranch) w in
    match e with
    | Some e => (Err (ErrGit e), w)
    | None => ensure n featureBranch (id_Namespace id) (id_Name id) w
    end.

(** The deleted paths are returned next to an error of the merge request.
    Go: internal/sink/gitlab/backend.go:136-204 [ReleaseExport] *)
Definition gitlab_ReleaseExport (n : nat) (ctx : option inventory_id) (opts : ReleaseOptions) (paths : list string) (w : W) :
    list string * result gitlab_error unit * W :=
  if decide (length paths = 0 ∧ ro_Owner opts = "") then ([], Ok tt, w)
  else
    let id := commit_identity ctx paths in
    let featureBranch := BranchNameForExport (mr_BranchPrefix cfg) (id_Kind id) (id_Namespace id) (id_Name id) in
    let '(res, w) := go_delete git (branch_spec featureBranch) w in
    match res with
    | Err e => ([], Err (ErrGit e), w)
    | Ok deleted =>
        if decide (mr_Mode cfg ≠ MergeRequestModeBranchMR) then (deleted, Ok tt, w)
        else if decide (deleted = []) then
          if ro_KeepFiles opts then ([], Ok tt, w)
          else
            match go_branch_exists git featureBranch w with
            | Err e => ([], Err (ErrGit e), w)
            | Ok false => ([], Ok tt, w)
            | Ok true => let '(r, w) := ensure n featureBranch (id_Namespace id) (id_Name id) w in (deleted, r, w)
            end
        else let '(r, w) := ensure n featureBranch (id_Namespace id) (id_Name id) w in (deleted, r, w)
    end.
End backend.

(** * Branches of distinct inventories *)

(** What the API server guarantees of names and namespaces: they are not empty and
    have no slash, no underscore and no surrounding space. *)
Definition plain_name (s : string) : Prop :=
  s ≠ "" ∧ has_byte "/" s = false ∧ has_byte "_" s = false ∧ trim_space s = s.

Lemma trim_none f s : string_forall (λ c, negb (f c)) s = true → trim_left f s = s ∧ trim_right f s = s.
Proof.
  intros Hs. split.
  - destruct s as [|c s]; [done|]. cbn in *. apply andb_true_iff in Hs as [Hc _]. by apply negb_true_iff in Hc as ->.
  - induction s as [|c s IH]; [done|]. cbn in *. apply andb_true_iff in Hs as [Hc Hs]. rewrite IH by done.
    apply negb_true_iff in Hc. rewrite Hc. by destruct s.
Qed.

Lemma plain_clean s : plain_name s → trim ["/"%char] (trim_space s) = s.
Proof.
  intros (_ & Hs & _ & ->). unfold trim.
  assert (string_forall (λ c, negb (bool_decide (c ∈ ["/"%char]))) s = true) as Hf.
  { induction s as [|c s IH]; [done|]. change (String c s) with (String c "" +:+ s) in Hs. rewrite has_byte_app in Hs.
    apply orb_false_iff in Hs as [Hc Hs]. cbn. rewrite IH by done. rewrite andb_true_r. apply negb_true_iff, bool_decide_eq_false.
    intros ->%list_elem_of_singleton. done. }
  destruct (trim_none _ _ Hf) as [-> ->]. done.
Qed.

(** The feature branch of an inventory is its own: for one prefix, two inventories
    of either kind have the same branch name only when they are of one kind and have
    the same name and, if they have a namespace, the same namespace. *)
Theorem feature_branches_distinct prefix k1 ns1 n1 k2 ns2 n2 :
  k1 ∈ [inventoryKindNamespaced; inventoryKindCluster] → k2 ∈ [inventoryKindNamespaced; inventoryKindCluster] →
  Forall plain_name [ns1; n1; ns2; n2] →
  BranchNameForExport prefix k1 ns1 n1 = BranchNameForExport prefix k2 ns2 n2 →
  k1 = k2 ∧ n1 = n2 ∧ (k1 = inventoryKindNamespaced → ns1 = ns2).
Proof.
  intros Hk1 Hk2 Hp. rewrite !Forall_cons in Hp. destruct Hp as (Hns1 & Hn1 & Hns2 & Hn2 & _).
  unfold BranchNameForExport. rewrite (plain_clean ns1), (plain_clean n1), (plain_clean ns2), (plain_clean n2) by done. set (p := if decide _ then _ else _).
  intros Heq%app_inv_l%app_inv_l.
  assert (∀ k ns, k ∈ [inventoryKindNamespaced; inventoryKindCluster] → plain_name ns →
    let seg := if decide (k = inventoryKindCluster ∨ k = "" ∧ ns = clusterInventoryPathNamespace) then clusterInventoryBranchSegment else ns in
    has_byte "/" seg = false ∧ (k = inventoryKindNamespaced ∧ seg = ns ∨ k = inventoryKindCluster ∧ seg = clusterInventoryBranchSegment)) as Hseg.
  { intros k ns Hk (? & ? & _). rewrite !elem_of_cons in Hk. destruct Hk as [->|[->|[]%elem_of_nil]].
    - rewrite decide_False by (intros [|[? _]]; done). auto.
    - rewrite decide_True by auto. auto. }
  destruct (Hseg k1 ns1 Hk1 Hns1) as [Hf1 Hs1], (Hseg k2 ns2 Hk2 Hns2) as [Hf2 Hs2].
  set (s1 := if decide _ then _ else ns1) in *. set (s2 := if decide _ then _ else ns2) in *.
  assert (cut_byte "/" (s1 +:+ String "/" n1) = Some (s1, n1)) as H1 by (by apply cut_byte_Some).
  assert (cut_byte "/" (s2 +:+ String "/" n2) = Some (s2, n2)) as H2 by (by apply cut_byte_Some).
  change ("/" +:+ n1) with (String "/" n1) in Heq. change ("/" +:+ n2) with (String "/" n2) in Heq.
  rewrite Heq, H2 in H1. injection H1 as Hs Hn.
  assert (∀ ns, plain_name ns → ns ≠ clusterInventoryBranchSegment) as Hund by (intros ns (_ & _ & Hu & _) ->; done).
  destruct Hs1 as [[-> Hs1]|[-> Hs1]], Hs2 as [[-> Hs2]|[-> Hs2]]; rewrite Hs1, Hs2 in Hs.
  - done.
  - symmetry in Hs. by apply Hund in Hs.
  - by apply Hund in Hs.
  - done.
Qed.

(** * One merge request for a pair of branches *)

(** What both APIs document of a creation: it opens the request it names or nothing,
    it is refused while that request is open, and it has opened it when it succeeds. *)
Record mr_creates {W : Type} (opened : W → list (string * string)) (api : mr_api W) : Prop := mkMrCreates {
  creates_named n s t title w answer w' :
    api_create api n s t title w = (answer, w') → opened w' = opened w ∨ opened w' = (s, t) :: opened w;
  creates_refused n s t title w answer w' :
    api_create api n s t title w = (answer, w') → (s, t) ∈ opened w →
    opened w' = opened w ∧ ∀ code body, answer = Response code body → (300 ≤ code)%Z;
  creates_opened n s t title w code body w' :
    api_create api n s t title w = (Response code body, w') → (code < 300)%Z → (s, t) ∈ opened w';
}.

(** A list of GitLab that succeeds names the targets of the open requests of its
    source branch. *)
Definition gitlab_lists {W : Type} (decode : string → option (list mergeRequestRecord)) (opened : W → list (string * string))
    (api : mr_api W) : Prop :=
  ∀ n s w code body records t,
    api_list api n s w = Response code body → (code < 300)%Z → decode body = Some records →
    (s, t) ∈ opened w ↔ t ∈ map mrr_TargetBranch records.

(** The pull requests of Gitea have [base] and [head] and no [target_branch], so the
    field of the record stays empty. *)
Definition gitea_lists {W : Type} (decode : string → option (list mergeRequestRecord)) (api : mr_api W) : Prop :=
  ∀ n s (w : W) code body records,
    api_list api n s w = Response code body → (code < 300)%Z → decode body = Some records →
    Forall (λ r, mrr_TargetBranch r = "") records.

Section once.
Context {W : Type} (decode : string → option (list mergeRequestRecord)) (opened : W → list (string * string)) (gitlab gitea : mr_api W).
Context (Hgitlab : mr_creates opened gitlab) (Hgitea : mr_creates opened gitea).
Context (Hlists : gitlab_lists decode opened gitlab) (Hpulls : gitea_lists decode gitea).

(** From one state of the host to the next, at most the request from [s] to [t] was
    opened, and only when it was not open. *)
Definition opens (s t : string) (w w' : W) : Prop :=
  opened w' = opened w ∨ ((s, t) ∉ opened w ∧ opened w' = (s, t) :: opened w).

Lemma opens_trans s t w w1 w' : opens s t w w1 → opens s t w1 w' → opens s t w w'.
Proof. unfold opens. intros [->|[Hn ->]]; [done|]. intros [->|[Hn' _]]; [by right|]. destruct Hn'. left. Qed.

Lemma create_with_spec api n s t title w res w' :
  mr_creates opened api → create_with api n s t title w = (res, w') →
  opens s t w w' ∧ (res = Ok tt → (s, t) ∉ opened w ∧ (s, t) ∈ opened w').
Proof.
  intros Hapi. unfold create_with. destruct (api_create api n s t title w) as [answer w1] eqn:Hc. intros [= <- <-]. split.
  - destruct (decide ((s, t) ∈ opened w)) as [Hin|Hn]; [left; by eapply (creates_refused _ _ Hapi)|].
    destruct (creates_named _ _ Hapi _ _ _ _ _ _ _ Hc) as [?|?]; [by left|by right].
  - destruct answer as [e|code body]; [done|]. case_decide as Hcode; [done|]. intros _. split.
    + intros Hin. destruct (creates_refused _ _ Hapi _ _ _ _ _ _ _ Hc Hin) as [_ Hr]. by apply Hcode, (Hr code body).
    + apply (creates_opened _ _ Hapi _ _ _ _ _ _ _ _ Hc). lia.
Qed.

Lemma createMergeRequest_spec n s t title w res w' :
  createMergeRequest gitlab gitea n s t title w = (res, w') →
  opens s t w w' ∧ (res = Ok tt → (s, t) ∉ opened w ∧ (s, t) ∈ opened w').
Proof.
  unfold createMergeRequest. destruct (createGitLabMergeRequest _ _ _ _ _ _) as [r w1] eqn:Hc.
  apply create_with_spec in Hc as [Ho Hok]; [|done]. destruct r as [[]|e]; [by intros [= <- <-]|].
  destruct (isGitLabAPIUnsupported e); [|by intros [= <- <-]]. intros [Ho' Hok']%create_with_spec; [|done].
  split; [by eapply opens_trans|]. intros [Hn Hin]%Hok'. split; [|done]. destruct Ho as [<-|[? _]]; done.
Qed.

(** A list of GitLab finds the request exactly when it is open, one of Gitea never. *)
Lemma gitlab_found n s t w records :
  listGitLabMergeRequests decode gitlab n s w = Ok records →
  existsb (λ mr, bool_decide (mrr_TargetBranch mr = t)) records = true ↔ (s, t) ∈ opened w.
Proof.
  unfold listGitLabMergeRequests, list_with. destruct (api_list gitlab n s w) as [e|code body] eqn:Hl; [done|].
  case_decide; [done|]. destruct (decode body) as [rs|] eqn:Hd; [|done]. intros [= ->].
  rewrite (Hlists _ _ _ _ _ _ t Hl) by (done || lia). rewrite list_elem_of_In, in_map_iff, existsb_exists.
  by setoid_rewrite bool_decide_eq_true; naive_solver.
Qed.

Lemma gitea_not_found n s t w records :
  t ≠ "" → listGiteaPullRequests decode gitea n s w = Ok records →
  existsb (λ mr, bool_decide (mrr_TargetBranch mr = t)) records = false.
Proof.
  intros Ht. unfold listGiteaPullRequests, list_with. destruct (api_list gitea n s w) as [e|code body] eqn:Hl; [done|].
  case_decide; [done|]. destruct (decode body) as [rs|] eqn:Hd; [|done]. intros [= ->].
  pose proof (Hpulls _ _ _ _ _ _ Hl ltac:(lia) Hd) as Hall. rewrite Forall_forall in Hall.
  apply not_true_iff_false. intros (r & Hr & Heq%bool_decide_eq_true)%existsb_exists.
  rewrite Hall in Heq by (by apply list_elem_of_In). done.
Qed.

End once.

Module GitLabDemo.
#[local] Instance urls : UrlApi := {| url_parse _ := Some (mkURL "https" "/group/repo.git" ""); url_text s _ := s |}.

(** A host that allows one request, from [kollect/apps/web] to [main]; the state says
    whether it is open. The lists are a GitLab's, which name the target, or a
    Gitea's, which do not. *)
Definition opened (w : bool) : list (string * string) := if w then [("kollect/apps/web", "main")] else [].
Definition decode (body : string) : option (list mergeRequestRecord) :=
  Some (if decide (body = "[]") then [] else [mkMergeRequestRecord "kollect/apps/web" body]).
Definition listing (shown : string) (s : string) (w : bool) : http_answer :=
  Response 200 (if decide (s = "kollect/apps/web" ∧ w = true) then shown else "[]").
Definition create (s t : string) (w : bool) : http_answer * bool :=
  if decide (s = "kollect/apps/web" ∧ t = "main" ∧ w = false) then (Response 201 "", true) else (Response 409 "", w).
Definition absent : mr_api bool := mkMrApi (λ _ _ _, Response 404 "") (λ _ _ _ _ w, (Response 404 "", w)).
Definition gitlab : mr_api bool := mkMrApi (λ _, listing "main") (λ _ s t _, create s t).
Definition gitea : mr_api bool := mkMrApi (λ _, listing "") (λ _ s t _, create s t).

Lemma absent_creates : mr_creates opened absent.
Proof. split; cbn; naive_solver lia. Qed.

Lemma create_creates list : mr_creates opened (mkMrApi list (λ _ s t _, create s t)).
Proof.
  split; cbn; unfold create.
  - intros n s t title w a w'. case_decide as Hd; intros [= <- <-]; [|by left]. right. by destruct Hd as (-> & -> & ->).
  - intros n s t title w a w'. case_decide as Hd; intros [= <- <-] Hin.
    + destruct Hd as (-> & -> & ->). by apply elem_of_nil in Hin.
    + split; [done|]. by intros code body [= <- <-].
  - intros n s t title w code body w'. case_decide as Hd; intros [= <- <- <-]; [|lia]. intros _. destruct Hd as (-> & -> & ->). left.
Qed.

Lemma gitlab_lists_open : gitlab_lists decode opened gitlab.
Proof.
  intros n s w code body rs t [= <- <-] _ [= <-]. unfold opened.
  destruct (decide (s = "kollect/apps/web" ∧ w = true)) as [[-> ->]|Hn]; cbn; [set_solver|]. destruct w; set_solver.
Qed.

Lemma gitea_lists_open : gitea_lists decode gitea.
Proof.
  intros n s w code body rs [= <- <-] _ [= <-]. destruct (decide (s = "kollect/apps/web" ∧ w = true)); repeat constructor.
Qed.


(** A Gitea has no GitLab API. The first call opens the request; every later one
    does not find it, asks for it again and fails with the refusal, and with it the
    export that was pushed. *)
Example gitea_request_not_found :
  let call := EnsureOpenMergeRequest decode absent gitea 0 "t" "kollect/apps/web" "main" "export" in
  call false = (Ok tt, true) ∧ call true = (Err (ErrStatus 409 ""), true).
Proof. vm_compute. auto. Qed.

Lemma feature_branches_distinct_witness :
  BranchNameForExport " kollect/ " inventoryKindNamespaced "apps" "web" = "kollect/apps/web" ∧
  inventoryKindNamespaced = inventoryKindNamespaced ∧ "web" = "web" ∧ (inventoryKindNamespaced = inventoryKindNamespaced → "apps" = "apps").
Proof.
  split; [vm_compute; reflexivity|].
  refine (feature_branches_distinct " kollect/ " _ "apps" "web" _ "apps" "web" _ _ _ eq_refl).
  - rewrite list_elem_of_In. left. reflexivity.
  - rewrite list_elem_of_In. left. reflexivity.
  - rewrite !Forall_cons. unfold plain_name. split_and!; first [apply Forall_nil_2 | discriminate | reflexivity].
Defined.

(** The state lists the branches pushed to. *)
Definition push (b : option BranchSpec) (w : list string) : list string :=
  w ++ match b with Some b => [bs_PushBranch b] | None => ["main"] end.
Definition pushing : git_ops (list string) :=
  mkGitOps (λ b w, (None, push b w)) (λ b w, (None, push b w)) (λ b w, (Ok ["f"], push b w)) (λ _ _, Ok true).
Definition willing : mr_api (list string) := mkMrApi (λ _ _ _, Response 200 "[]") (λ _ _ _ _ w, (Response 201 "", w)).
Definition merge_requests : MergeRequestConfig := mkMergeRequestConfig MergeRequestModeBranchMR "main" "" "".
Definition web : inventory_id := mkInventoryId inventoryKindNamespaced "apps" "web".
Definition api : inventory_id := mkInventoryId inventoryKindNamespaced "apps" "api".

(** With the path template [clusters/{cluster}/{namespace}/{name}.json] the one-document
    exports of two inventories are pushed to one branch, named after the template, and
    the deletion of the first to the branch of its own name. *)
Example export_branch_from_path :
  let ex id path w := snd (gitlab_Export decode willing willing pushing "https://host/group/repo" merge_requests "t" "" 0 (Some id) path w) in
  let del id path w :=
    snd (gitlab_ReleaseExport decode willing willing pushing "https://host/group/repo" merge_requests "t" "" 0 (Some id) (mkReleaseOptions "" false) [path] w) in
  del web "clusters/prod/apps/web.json" (ex api "clusters/prod/apps/api.json" (ex web "clusters/prod/apps/web.json" [])) =
  ["kollect/clusters/prod"; "kollect/clusters/prod"; "kollect/apps/web"].
Proof. vm_compute. reflexivity. Qed.
End GitLabDemo.
